(* ===== verification/_CoqProject ===== *)
-Q . S2P
Prelude.v
Hal.v
Float.v
Text.v
FloatOrder.v
Format.v
Memory.v
Queue.v
Bus.v
Transport.v
Block.v
Net.v
Vsock.v
GuestProc.v
Metrics.v
MmioDecode.v
RunLoop.v
PageTables.v
Cpio.v
Loader.v
BootParams.v
Acpi.v
BootRegs.v
Ethernet.v
NetIo.v
Config.v
Analytics.v
Exposition.v
VmSetup.v
VmThreads.v
Machine.v
Whp.v
SerialBuf.v
StateStore.v
VmManager.v
Reports.v
Router.v
Daemon.v
Server.v
CliBase.v
Service.v
Cli.v
CliDaemon.v
PortForward.v
MachineTask.v
