(* ===== verification/Prelude.v ===== *)
(** * hitz: a verification development of a micro virtual machine monitor

    hitz boots Linux guests on the Windows Hypervisor Platform.  A daemon keeps a
    table of machines and serves HTTP; a machine is a guest memory, a bus of virtio
    devices and vCPU threads; an agent in the guest reports measurements over
    vsock.  The library models that program in Rocq, definition by definition, and
    proves what makes its parts correct.  Source paths below are under
    [src/crates/].

    ** How the parts fit together

<<
   hitz-cli      CliBase -> Service, Cli -- CliDaemon: requests over the router
                             |       |
   hitz-daemon            Server     |
                             |       |
                 Router -> Daemon / VmManager -> StateStore, SerialBuf
                                |  boot_and_run     PortForward ^ Metrics
   hitz-vmm      VmSetup -> Machine -> VmThreads, RunLoop       |
                   |           |          |                     |
   hitz-boot     PageTables Loader Cpio   MmioDecode            |
                 BootParams Acpi          BootRegs              |
   hitz-devices  Bus -> Transport -> Block, Net, Vsock ---------+
                              |
                 Queue -> GuestMemAccess (Hal) <- Memory
   hitz-net      NetIo -> Ethernet: the frames of Net and the host's adapter
   hitz-whp      Whp implements the vCPU and partition of Machine
   guest         GuestProc -> Metrics
   hitz-api      Config   MetricsSnapshot -> Analytics, Exposition, Reports -> Cli
>>

    Interfaces are type classes, as the source's are traits.  [Hal.GuestMemAccess]
    with [GuestMemLaws] is what devices and loaders know of guest memory; [Memory]
    discharges the laws for the real one.  [Transport.VirtioBackend] is what the
    register file knows of a device, [Bus.MmioDevice] what the bus knows of the
    register file, [RunLoop.Vcpu] with [VcpuLaws] what the run loop knows of a
    hypervisor; [Whp] discharges it over the calls of the platform.
    [Machine.HypervisorLaws] is what the assembly of a machine knows of one: what it
    mapped is what the vCPUs see.
    [StateStore.Json] with [JsonLaws] is serde_json, [RunLoop.Uart] vm-superio,
    [Service.Host] with [HostLaws] the platform a daemon starts on.

    ** The files

    - [Prelude]: results and their monad, machine-width arithmetic (wrapping,
      checked and saturating, and [op_add], [op_sub] and [op_mul], which do as the
      build profile says), little-endian bytes, slices and updates of lists, the binary
      search of Rust's slices, and the tactics and hints.
    - [Hal]: hitz-hal.  [Float], [Text], [FloatOrder] and [Format]: the parts of
      Rust's standard library the agent's parsers and the analytics use, over the
      Standard Library's IEEE arithmetic: parsing, arithmetic and its order, and the
      shortest printing of floats.
    - [Memory]: hitz-vmm/src/memory.rs.  A record of regions over an explicit host
      heap; [find_region], [add_region], [read_at], [write_at], [read_bytes],
      [write_zeroes].
    - [Queue], [Bus], [Transport], [Block], [Net], [Vsock]: hitz-devices/src, one
      file each (virtio/queue.rs, mmio_bus.rs, virtio/mmio_transport.rs,
      virtio/block.rs, net.rs, vsock.rs).  A device is its record of fields; an
      operation takes the device and the guest memory and returns both.
    - [MmioDecode], [RunLoop]: hitz-vmm/src/mmio_decode.rs and run_loop.rs, with
      the serial port of hitz-devices/src/serial.rs.  The run loop is in a
      state-and-error monad; a turn is [loop_step].
    - [PageTables], [Cpio], [Loader], [BootParams], [Acpi]: hitz-boot/src
      (page_tables.rs, cpio.rs, loader.rs with initramfs.rs, boot_params.rs,
      acpi.rs).  [BootRegs]: hitz-vmm/src/boot_regs.rs.
    - [Config]: hitz-api/src/config.rs and api.rs, and [validate_config].
      [VmSetup], [VmThreads], [Machine]: hitz-vmm/src/vm.rs, in three parts: the
      guest's memory, the threads, and the assembly with [boot_and_run].
    - [Whp]: hitz-whp/src (convert.rs, vcpu.rs, partition.rs).
    - [Ethernet], [NetIo]: hitz-net/src (ethernet.rs, wintun_io.rs).  A turn of the
      I/O thread is [io_turn], over the frames it finds and what the adapter gives.
    - [SerialBuf], [StateStore], [VmManager], [Router], [Daemon]:
      hitz-vmm/src/serial_buf.rs and hitz-daemon/src (state_store.rs,
      vm_manager.rs, router.rs).  [VmManager] composes an operation as one caller
      runs it; [Daemon] cuts the same operations where they can be interrupted.
      [Server]: server.rs and the tasks of [run_daemon_inner], around [Daemon].
    - [GuestProc], [Metrics]: hitz-guest-agent/src (proc.rs, main.rs) and
      hitz-daemon/src/vsock_server.rs; the agent's threads are in [Metrics], with
      what they send to.
    - [Analytics]: what hitz-api/src computes from snapshots (diff.rs, health.rs,
      sentinel.rs, classifier.rs, rightsizer.rs, efficiency.rs, imbalance.rs,
      fingerprint.rs, carbon.rs, simulator.rs).  [Exposition]: prometheus.rs and
      terraform.rs, with a reader of the exposition format.
    - [PortForward]: hitz-daemon/src/port_forward.rs, the listeners and relays of a
      machine as a step relation.  [MachineTask]: the rest of what [start_vm] gives a
      machine, its channels (hitz-vmm/src/vsock_io.rs) and its forwarders' address.
    - [Reports]: of hitz-cli/src, analyzer.rs and the health timeline of
      [handle_vm_timeline].  [CliBase]: the arguments of main.rs and the monad of its
      commands, over the world outside and what was printed.  [Service]: the daemon's
      commands with hitz-daemon/src/telemetry.rs.  [Cli]: [main] and the commands of
      a client, over pipe_client.rs.
      [CliDaemon]: the same commands with [Router.route] in the daemon's place.

    ** What the theorems show

    - Guest memory: it refines one flat array; an address is found exactly when a
      region has it, whatever the length and offset; zeroing a range is exact.
    - Virtqueues: chains are popped in the order the driver published them, used
      entries are published before the index, and the walk of a chain ends
      whatever the guest writes.  Devices: the requests of a disk, frames and
      packets arrive once, in order and whole; bad requests are answered with an
      error and leave the disk, and so are writes to a disk opened for reading; every
      transport operation keeps well-formedness, and the driver's set-up sequence configures the queue.  From the guest's queue
      to the host's adapter: the IP packets of the guest's frames, in order and once
      each, those apart for which the adapter has no room.
    - Boot: the tables map every address to itself, the archive reads back, the
      kernel's segments are where its headers say, the zero page, ACPI tables and
      GDT have the bytes their readers expect; [setup_guest_memory] leaves all of
      them in place at once, and [boot_and_run] enters the loop in that state with
      the devices configured.
    - Run: decoding inverts an independent assembler; loads and stores reach the
      device and the register; once a machine is stopped its threads end within a
      number of steps fixed beforehand, whatever the guest does, unless a device
      keeps one of them; the end reported is one that happened.
    - Platform: registers set are registers read; a byte written to the serial port
      reaches it.
    - Daemon: on a store whose calls do not fail, on every interleaving a running
      entry has its task, machines go through their states in order, and every
      running machine can end; what that store holds is what is recovered, for names
      that are plain.  Whatever fails, creation is all or nothing for the table, a
      4xx answer changed nothing, and a created machine is served as created.
    - Server and service: a stopped server ends within the time it allows its
      connections, and the process with it; the states a service reports are in the
      order its manager expects, whatever fails, and all of them where nothing is
      refused; installing twice fails and removing undoes it; a stop that comes before
      a machine starts misses that machine.
    - Metrics: a snapshot is what the guest's files say, utilisations are
      percentages, the snapshots a guest sends whole through its queue are published
      in order, and one sent in two packets is lost.
    - Analytics: a recommended size is of use and asking again changes nothing,
      rates are the counters' differences over the time, a machine is unhealthy
      exactly for a stated reason, and an exported text reads back as the samples it
      was printed from, label injection excepted.
    - Client: a machine reported created is in the daemon's table as the options say,
      option by option, and a refusal of the client's request changed nothing; a
      recording has the snapshots its daemon answered with, and its timeline tells its
      whole course; no command can show a measurement, since the daemon never has one
      to give.  Port forwarding: what the counters count, the relays a drop leaves running, and that ports lead where the kernel's command line
      puts the guest, or nowhere.  No machine's packets reach another's task.

    Where the code does something other than it means to, the theorem states what
    it does: lost interrupts, a restart that cannot succeed, a torn state file, a
    wait that ends early, the cumulative counters and others.

    ** Bounds, fuel and overflow

    Integers are [Z] with their width written out.  Additions the source leaves
    unchecked depend on the build profile; such definitions take
    [overflow_checks].  Loops over data structural recursion does not see take
    fuel, with a theorem that it suffices:
    - [desc_fuel]: one more than the descriptors a chain may still yield, since the
      walk stops at the queue's size;
    - [pop_fuel]: one more than the entries pending, for queues whose available
      index the device does not overwrite; the [fuel] of a device's queue loop is an
      argument, because a guest that aims its rings at each other makes the loop
      endless ([Vsock.vsock_event_loop_diverges]);
    - [bsearch_loop]: the number of elements; [write_zeroes_loop]: the chunks and two;
      [digits_fuel]: one more than the logarithm; [parse_archive] and [read_labels]:
      the length of the text; [shortest]: seventeen digits, which tell any two
      doubles apart;
    - [run_vcpu_loop]: an argument, since a guest may run for ever; its theorems say
      what a run that ended did, and that it ends at the first stop or final exit;
    - [record_loop], [top_loop] and [dashboard_loop]: the list of what the loop finds
      at its turns, since a user may watch for ever; [serve_events]: the list of what
      happens to the server, with theorems on how it must end.

    ** Granularity of the concurrent parts

    [Daemon] interleaves segments: a critical section of the table's mutex, one
    call of the store, one step of a wait; [boot_and_run] is one thread that ends
    at any time with any outcome.  [VmThreads] interleaves pieces of the vCPU loops,
    cut where a thread takes and gives back the one lock of the devices, polls of the
    watchdog and receptions of the collecting thread.  That the code of a device ends
    is no step of the host's: a guest can keep it busy for ever
    ([Vsock.vsock_event_loop_diverges]), and then the machine does not end.  A cancellation
    is latched by the hypervisor until the vCPU next runs, which is documented
    behaviour of the platform and a hypothesis by name.  [SerialBuf] interleaves
    writes, the close and the checks of one reader.  [PortForward] interleaves what
    tasks do between two awaits; an abort takes effect at an await.  So does
    [Server]; a request that is cut off is a thread that gets no more turns.

    ** Assumptions on code outside the repository

    JSON and MessagePack read back what they print; [f64::log10] is a parameter, of
    which nothing is assumed; the platform returns the register values it was given,
    its calls either work or leave the registers, and a vCPU sees what was mapped;
    the file system holds what was written unless a call fails, and a call that
    fails may have had any partial effect; two names are the same directory exactly
    when they are the same text (prefixes of drives are a parameter); channels are
    lists and fail only when their other end is gone; a URI of unreserved characters
    has the path it is written with, up to a question mark; a service is known to its
    manager by name, from its creation to its deletion.

    ** Not modelled

    Of hitz-cli clap's reading of arguments and the look of tables and screens; the
    [Drop]s of memory, partitions and processors, log lines, spans and counters, and
    the [Display] of errors; the build script. *)

From stdpp Require Export base numbers list option gmap sorting.
From Stdlib Require Export ZArith Lia Sorted ZifyNat.

#[global] Open Scope Z_scope.

(** ** Results *)

(** Rust's [Result<A, E>].  The error type is the first parameter, so that
    [result E] is a monad. *)
Inductive result (E A : Type) : Type :=
| Ok (a : A)
| Err (e : E).
Arguments Ok {E A} a.
Arguments Err {E A} e.

#[export] Instance result_ret E : MRet (result E) := fun A a => Ok a.
#[export] Instance result_bind E : MBind (result E) :=
  fun A B f r => match r with Ok a => f a | Err e => Err e end.
#[export] Instance result_fmap E : FMap (result E) :=
  fun A B f r => match r with Ok a => Ok (f a) | Err e => Err e end.
#[export] Instance result_eq_dec E A `{EqDecision E} `{EqDecision A} :
  EqDecision (result E A).
Proof. solve_decision. Defined.

(** [Result::ok], [Result::is_err], [Result::map_err] and [Option::ok_or]. *)
Definition res_ok {E A} (r : result E A) : option A :=
  match r with Ok a => Some a | Err _ => None end.

Definition is_ok {E A} (r : result E A) : bool :=
  match r with Ok _ => true | Err _ => false end.

Definition is_err {E A} (r : result E A) : bool := negb (is_ok r).

Definition map_err {E E' A} (f : E -> E') (r : result E A) : result E' A :=
  match r with Ok a => Ok a | Err e => Err (f e) end.

Definition ok_or {E A} (o : option A) (e : E) : result E A :=
  match o with Some a => Ok a | None => Err e end.

(** ** Machine integers

    An unsigned [w]-bit integer is a [Z] in [0, 2^w). *)

Definition in_range (w x : Z) : Prop := 0 <= x < 2 ^ w.
Notation u8 := (in_range 8).
Notation u16 := (in_range 16).
Notation u32 := (in_range 32).
Notation u64 := (in_range 64).

#[export] Instance in_range_dec w x : Decision (in_range w x).
Proof. unfold in_range. apply _. Defined.

(** [x as uN] on a non-negative value: truncation. *)
Definition wrap (w x : Z) : Z := x mod 2 ^ w.

Definition wrapping_add (w a b : Z) : Z := wrap w (a + b).

Definition checked_add (w a b : Z) : option Z :=
  if a + b <? 2 ^ w then Some (a + b) else None.

Definition saturating_add (w a b : Z) : Z := Z.min (a + b) (2 ^ w - 1).
Definition saturating_sub (a b : Z) : Z := Z.max 0 (a - b).
Definition saturating_mul (w a b : Z) : Z := Z.min (a * b) (2 ^ w - 1).

Definition checked_mul (w a b : Z) : option Z :=
  if a * b <? 2 ^ w then Some (a * b) else None.

Definition checked_sub (a b : Z) : option Z :=
  if b <=? a then Some (a - b) else None.

(** Unchecked [+] and [*] of the source.  A build with overflow checks panics
    on overflow ([None]); a release build wraps. *)
Definition op_add (overflow_checks : bool) (w a b : Z) : option Z :=
  if overflow_checks then checked_add w a b else Some (wrapping_add w a b).
Definition op_sub (overflow_checks : bool) (w a b : Z) : option Z :=
  if overflow_checks then checked_sub a b else Some (wrap w (a - b)).
Definition op_mul (overflow_checks : bool) (w a b : Z) : option Z :=
  if overflow_checks then checked_mul w a b else Some (wrap w (a * b)).

(** ** Bytes *)

Definition bytes_ok (l : list Z) : Prop := Forall u8 l.

#[export] Instance bytes_ok_dec l : Decision (bytes_ok l).
Proof. unfold bytes_ok. apply _. Defined.

(** The number of elements as a machine integer ([len() as u64]). *)
Definition zlen {A} (l : list A) : Z := Z.of_nat (length l).

(** [uN::to_le_bytes] (with [n] bytes) and [uN::from_le_bytes]. *)
Fixpoint le_bytes (n : nat) (v : Z) : list Z :=
  match n with
  | O => []
  | S n' => v mod 256 :: le_bytes n' (v / 256)
  end.

Fixpoint from_le (l : list Z) : Z :=
  match l with
  | [] => 0
  | b :: l' => b + 256 * from_le l'
  end.

(** [&l[a..b]] for [a <= b <= l.len()]. *)
Definition slice {A} (a b : nat) (l : list A) : list A := take (b - a) (drop a l).

(** [l[off..off + new.len()].copy_from_slice(new)], in range. *)
Definition splice {A} (off : nat) (new l : list A) : list A :=
  take off l ++ new ++ drop (off + length new) l.

(** Two half-open ranges of addresses with no address in common. *)
Definition disjoint_range (a n b m : Z) : Prop := a + n <= b \/ b + m <= a.

#[export] Instance disjoint_range_dec a n b m : Decision (disjoint_range a n b m).
Proof. unfold disjoint_range. apply _. Defined.

(** ** Standard-library searches

    [slice::binary_search_by]: the loop of the standard library, on a
    comparison of the element with the target; [fuel] is the slice's length,
    and the loop halves [size], which starts there. *)
Fixpoint bsearch_loop (fuel : nat) (cmp : nat -> comparison) (base size : nat) : nat :=
  match fuel with
  | O => base
  | S fuel' =>
      if (size <=? 1)%nat then base
      else
        let half := (size / 2)%nat in
        let mid := (base + half)%nat in
        let base' := match cmp mid with Gt => base | _ => mid end in
        bsearch_loop fuel' cmp base' (size - half)
  end.

Definition cmp_at {A} (f : A -> comparison) (l : list A) (i : nat) : comparison :=
  match l !! i with Some x => f x | None => Gt end.

Definition binary_search_by {A} (f : A -> comparison) (l : list A) : result nat nat :=
  match l with
  | [] => Err 0%nat
  | _ =>
      let base := bsearch_loop (length l) (cmp_at f l) 0 (length l) in
      match cmp_at f l base with
      | Eq => Ok base
      | Lt => Err (base + 1)%nat
      | Gt => Err base
      end
  end.

(** [slice::partition_point]. *)
Definition partition_point {A} (p : A -> bool) (l : list A) : nat :=
  match binary_search_by (fun x => if p x then Lt else Gt) l with
  | Ok i => i
  | Err i => i
  end.

(** [slice::sort_by_key]: a stable sort. *)
Fixpoint insert_by_key {A} (key : A -> Z) (x : A) (l : list A) : list A :=
  match l with
  | [] => [x]
  | y :: l' => if key x <=? key y then x :: l else y :: insert_by_key key x l'
  end.

Definition sort_by_key {A} (key : A -> Z) (l : list A) : list A :=
  foldr (insert_by_key key) [] l.

(** [Vec::insert]. *)
Definition vec_insert {A} (pos : nat) (x : A) (l : list A) : list A :=
  take pos l ++ x :: drop pos l.

(** ** Automation *)

(** Case analysis on the innermost scrutinee of a [match] or [if] of the goal
    or of a hypothesis. *)
Ltac case_term x :=
  lazymatch x with
  | context [match ?y with _ => _ end] => case_term y
  | _ => destruct x eqn:?
  end.

Ltac case_on :=
  match goal with
  | |- context [match ?x with _ => _ end] => case_term x
  | H : context [match ?x with _ => _ end] |- _ => case_term x
  end.

(** Boolean comparisons of [Z] and [nat] into propositions. *)
Ltac b2p :=
  repeat match goal with
  | H : (_ && _)%bool = true |- _ => apply andb_true_iff in H as [? ?]
  | H : (_ || _)%bool = false |- _ => apply orb_false_iff in H as [? ?]
  | H : negb _ = true |- _ => apply negb_true_iff in H
  | H : negb _ = false |- _ => apply negb_false_iff in H
  | H : (_ =? _) = true |- _ => apply Z.eqb_eq in H
  | H : (_ =? _) = false |- _ => apply Z.eqb_neq in H
  | H : (_ <? _) = true |- _ => apply Z.ltb_lt in H
  | H : (_ <? _) = false |- _ => apply Z.ltb_ge in H
  | H : (_ <=? _) = true |- _ => apply Z.leb_le in H
  | H : (_ <=? _) = false |- _ => apply Z.leb_gt in H
  | H : (_ =? _)%nat = true |- _ => apply Nat.eqb_eq in H
  | H : (_ =? _)%nat = false |- _ => apply Nat.eqb_neq in H
  | H : (_ <? _)%nat = true |- _ => apply Nat.ltb_lt in H
  | H : (_ <? _)%nat = false |- _ => apply Nat.ltb_ge in H
  | H : (_ <=? _)%nat = true |- _ => apply Nat.leb_le in H
  | H : (_ <=? _)%nat = false |- _ => apply Nat.leb_gt in H
  end.

(** Split the conjunctions that are visible, not those behind a definition. *)
Ltac splits := repeat lazymatch goal with |- _ /\ _ => split end.

(** Unfold the integer layer and close an arithmetic goal. *)
Ltac zarith :=
  unfold in_range, checked_add, checked_sub, checked_mul, zlen in *; b2p;
  try lia.

(** [lia] with division and modulo by constants. *)
Ltac divlia := zify; Z.to_euclidean_division_equations; lia.

(** Evaluate a closed decidable proposition. *)
Ltac decided := apply (bool_decide_unpack _); vm_compute; exact I.

Create HintDb hitz.

(** ** Lemmas: results and machine integers *)

Lemma bind_Ok {E A B} (r : result E A) (f : A -> result E B) b :
  r ≫= f = Ok b <-> exists a, r = Ok a /\ f a = Ok b.
Proof. destruct r; simpl; naive_solver. Qed.

Lemma checked_add_Some w a b c :
  checked_add w a b = Some c <-> a + b < 2 ^ w /\ c = a + b.
Proof. unfold checked_add. case_on; b2p; naive_solver lia. Qed.

Lemma checked_add_None w a b : checked_add w a b = None <-> 2 ^ w <= a + b.
Proof. unfold checked_add. case_on; b2p; naive_solver lia. Qed.

Lemma checked_add_ok w a b : a + b < 2 ^ w -> checked_add w a b = Some (a + b).
Proof. intros. by apply checked_add_Some. Qed.

(** Resolve a checked addition of the goal that [lia] shows not to overflow. *)
Ltac checked_step :=
  match goal with
  | |- context [checked_add ?w ?a ?b] => rewrite (checked_add_ok w a b) by lia; simpl
  end.

Lemma checked_sub_Some a b c : checked_sub a b = Some c <-> b <= a /\ c = a - b.
Proof. unfold checked_sub. case_on; b2p; naive_solver lia. Qed.

Lemma wrap_small w x : in_range w x -> wrap w x = x.
Proof. unfold wrap, in_range. apply Z.mod_small. Qed.

Lemma wrap_range w x : 0 <= w -> in_range w (wrap w x).
Proof. intros. unfold wrap, in_range. apply Z.mod_pos_bound. lia. Qed.

Lemma wrap_add_l w a b : 0 <= w -> wrap w (wrap w a + b) = wrap w (a + b).
Proof. intros. unfold wrap. apply Z.add_mod_idemp_l. lia. Qed.

Lemma wrap_sub_r w a b : 0 <= w -> wrap w (a - wrap w b) = wrap w (a - b).
Proof. intros. unfold wrap. apply Zminus_mod_idemp_r. Qed.

Lemma wrap_succ w a :
  0 <= w -> in_range w a -> wrap w (a + 1) = if decide (a + 1 = 2 ^ w) then 0 else a + 1.
Proof.
  intros Hw Ha. unfold wrap, in_range in *. case_decide as E.
  - rewrite E. apply Z_mod_same_full.
  - apply Z.mod_small. lia.
Qed.

Lemma wrap_succ_inj w a b :
  0 <= w -> in_range w a -> in_range w b -> wrap w (a + 1) = wrap w (b + 1) -> a = b.
Proof.
  intros Hw Ha Hb. rewrite !wrap_succ by done. unfold in_range in *.
  repeat case_decide; lia.
Qed.

(** The wrapped distance between two distinct values is positive, and one less
    from the next value. *)
Lemma wrap_dist_pos w a b : 0 <= w -> in_range w a -> in_range w b -> a <> b -> 0 < wrap w (a - b).
Proof.
  intros Hw Ha Hb Hne. unfold wrap, in_range in *.
  destruct (decide (b <= a)).
  - rewrite Z.mod_small; lia.
  - rewrite <- (Z.mod_add (a - b) 1), Z.mod_small; lia.
Qed.

Lemma wrap_dist_succ w a b :
  0 <= w -> 0 < wrap w (a - b) -> wrap w (a - wrap w (b + 1)) = wrap w (a - b) - 1.
Proof.
  intros Hw Hp. rewrite wrap_sub_r by done. unfold wrap in *.
  replace (a - (b + 1)) with (a - b - 1) by lia.
  rewrite Zminus_mod. assert (0 < 2 ^ w) by lia.
  pose proof (Z.mod_pos_bound (a - b) (2 ^ w) ltac:(lia)).
  assert (Hw1 : 2 ^ w <> 1) by (intros E; rewrite E in *; rewrite Z.mod_1_r in Hp; lia).
  rewrite (Z.mod_small 1) by lia. apply Z.mod_small. lia.
Qed.

Lemma saturating_add_range w a b :
  0 <= w -> 0 <= a + b -> in_range w (saturating_add w a b).
Proof.
  intros. unfold saturating_add, in_range.
  assert (0 < 2 ^ w) by lia. lia.
Qed.

Lemma testbit_high w x i : 0 <= w -> in_range w x -> w <= i -> Z.testbit x i = false.
Proof.
  intros. rewrite <- (Z.mod_small x (2 ^ w)) by done.
  by apply Z.mod_pow2_bits_high.
Qed.

Lemma in_range_bits w x :
  0 <= w -> (0 <= x /\ forall i, w <= i -> Z.testbit x i = false) <-> in_range w x.
Proof.
  intros Hw. split.
  - intros [Hx Hb]. replace x with (x mod 2 ^ w); [apply Z.mod_pos_bound; lia|].
    apply Z.bits_inj'. intros i Hi. destruct (decide (i < w)).
    + by apply Z.mod_pow2_bits_low.
    + rewrite Z.mod_pow2_bits_high by lia. symmetry. apply Hb. lia.
  - intros Hr. split; [apply Hr|]. intros i Hi. by apply (testbit_high w).
Qed.

Lemma lor_range w a b : 0 <= w -> in_range w a -> in_range w b -> in_range w (Z.lor a b).
Proof.
  intros Hw Ha Hb. apply in_range_bits; [done|]. split.
  - apply Z.lor_nonneg. unfold in_range in *. lia.
  - intros i Hi. by rewrite Z.lor_spec, !(testbit_high w).
Qed.

Lemma land_range w a b : 0 <= w -> in_range w a -> 0 <= b -> in_range w (Z.land a b).
Proof.
  intros Hw Ha Hb. apply in_range_bits; [done|]. split.
  - apply Z.land_nonneg. lia.
  - intros i Hi. by rewrite Z.land_spec, (testbit_high w a).
Qed.

(** Disjoint bit fields add up. *)
Lemma lor_shiftl_add w a b :
  0 <= w -> in_range w a -> 0 <= b -> Z.lor a (Z.shiftl b w) = a + b * 2 ^ w.
Proof.
  intros Hw Ha Hb. rewrite <- Z.shiftl_mul_pow2 by done.
  enough (Z.land a (Z.shiftl b w) = 0) by (pose proof (Z.add_lor_land a (Z.shiftl b w)); lia).
  apply Z.bits_inj'. intros i Hi. rewrite Z.land_spec, Z.bits_0, Z.shiftl_spec by done.
  destruct (decide (i < w)).
  - rewrite (Z.testbit_neg_r b) by lia. apply andb_false_r.
  - by rewrite (testbit_high w a) by (done || lia).
Qed.

Lemma zlen_nil A : zlen (@nil A) = 0.
Proof. reflexivity. Qed.

Lemma zlen_cons {A} (x : A) l : zlen (x :: l) = 1 + zlen l.
Proof. unfold zlen. simpl. lia. Qed.

Lemma zlen_app {A} (l k : list A) : zlen (l ++ k) = zlen l + zlen k.
Proof. unfold zlen. rewrite length_app. lia. Qed.

Lemma zlen_nonneg {A} (l : list A) : 0 <= zlen l.
Proof. unfold zlen. lia. Qed.

#[export] Hint Resolve wrap_range zlen_nonneg : hitz.
#[export] Hint Rewrite zlen_nil @zlen_cons @zlen_app : hitz.

(** ** Lemmas: little-endian encodings *)

Lemma length_le_bytes n v : length (le_bytes n v) = n.
Proof. revert v. induction n; intros; simpl; auto. Qed.

Lemma le_bytes_ok n v : bytes_ok (le_bytes n v).
Proof.
  revert v. induction n; intros; simpl; constructor; [|apply IHn].
  unfold in_range. apply Z.mod_pos_bound. lia.
Qed.

Lemma from_le_le_bytes n v : from_le (le_bytes n v) = v mod 256 ^ Z.of_nat n.
Proof.
  revert v. induction n as [|n IH]; intros v.
  - simpl. by rewrite Z.mod_1_r.
  - simpl le_bytes. cbn [from_le]. rewrite IH.
    replace (Z.of_nat (S n)) with (1 + Z.of_nat n) by lia.
    rewrite Z.pow_add_r, Z.pow_1_r by lia.
    rewrite Z.rem_mul_r by lia. done.
Qed.

Lemma from_le_le_bytes_id n v :
  0 <= v < 256 ^ Z.of_nat n -> from_le (le_bytes n v) = v.
Proof. intros. rewrite from_le_le_bytes. by apply Z.mod_small. Qed.

Lemma from_le_bound l : bytes_ok l -> 0 <= from_le l < 256 ^ zlen l.
Proof.
  induction 1 as [|b l Hb Hl IH]; simpl; [unfold zlen; simpl; lia|].
  rewrite zlen_cons. unfold in_range in Hb.
  rewrite Z.pow_add_r, Z.pow_1_r by (unfold zlen; lia). lia.
Qed.

Lemma le_bytes_from_le l : bytes_ok l -> le_bytes (length l) (from_le l) = l.
Proof.
  induction 1 as [|b l Hb Hl IH]; simpl; [done|]. unfold in_range in Hb.
  f_equal.
  - rewrite Z.mul_comm, Z.mod_add by lia. by apply Z.mod_small.
  - rewrite (Z.mul_comm 256), Z.div_add, Z.div_small by lia. done.
Qed.

Lemma from_le_app l k : from_le (l ++ k) = from_le l + 256 ^ zlen l * from_le k.
Proof.
  induction l as [|b l IH]; simpl; [unfold zlen; simpl; lia|].
  rewrite IH, zlen_cons, Z.pow_add_r, Z.pow_1_r by (unfold zlen; lia). lia.
Qed.

#[export] Hint Resolve le_bytes_ok : hitz.
#[export] Hint Rewrite length_le_bytes : hitz.

(** ** Lemmas: slices *)

Lemma length_slice {A} a b (l : list A) :
  (a <= b <= length l)%nat -> length (slice a b l) = (b - a)%nat.
Proof. intros. unfold slice. rewrite length_take, length_drop. lia. Qed.

Lemma length_splice {A} off (new l : list A) :
  (off + length new <= length l)%nat -> length (splice off new l) = length l.
Proof.
  intros. unfold splice. rewrite !length_app, length_take, length_drop. lia.
Qed.

Lemma bytes_ok_slice a b l : bytes_ok l -> bytes_ok (slice a b l).
Proof. intros. by apply Forall_take, Forall_drop. Qed.

Lemma bytes_ok_splice off new l :
  bytes_ok new -> bytes_ok l -> bytes_ok (splice off new l).
Proof.
  intros. apply Forall_app_2; [by apply Forall_take|].
  apply Forall_app_2; [done|by apply Forall_drop].
Qed.

Lemma splice_lookup_lt {A} off (new l : list A) i :
  (i < off)%nat -> (off + length new <= length l)%nat ->
  splice off new l !! i = l !! i.
Proof.
  intros. unfold splice. rewrite lookup_app_l by (rewrite length_take; lia).
  by rewrite lookup_take_lt.
Qed.

Lemma splice_lookup_ge {A} off (new l : list A) i :
  (off + length new <= i)%nat -> (off + length new <= length l)%nat ->
  splice off new l !! i = l !! i.
Proof.
  intros. unfold splice.
  rewrite lookup_app_r by (rewrite length_take; lia).
  rewrite lookup_app_r by (rewrite length_take; lia).
  rewrite lookup_drop, length_take. f_equal. lia.
Qed.

Lemma splice_lookup_in {A} off (new l : list A) i :
  (off <= i < off + length new)%nat -> (off + length new <= length l)%nat ->
  splice off new l !! i = new !! (i - off)%nat.
Proof.
  intros. unfold splice.
  rewrite lookup_app_r by (rewrite length_take; lia).
  rewrite length_take, lookup_app_l by lia. f_equal. lia.
Qed.

Lemma splice_lookup {A} off (new l : list A) i :
  (off + length new <= length l)%nat ->
  splice off new l !! i =
    if decide (off <= i < off + length new)%nat then new !! (i - off)%nat else l !! i.
Proof.
  intros. case_decide; [by apply splice_lookup_in|].
  destruct (decide (i < off)%nat); [by apply splice_lookup_lt|].
  apply splice_lookup_ge; lia.
Qed.

Lemma slice_lookup {A} a b (l : list A) i :
  (i < b - a)%nat -> slice a b l !! i = l !! (a + i)%nat.
Proof. intros. unfold slice. rewrite lookup_take_lt by lia. by rewrite lookup_drop. Qed.

Lemma slice_app_l {A} a b (l k : list A) : (a <= b <= length l)%nat -> slice a b (l ++ k) = slice a b l.
Proof.
  intros. unfold slice. rewrite drop_app_le by lia. rewrite take_app_le; [done|]. rewrite length_drop. lia.
Qed.

Lemma slice_mid {A} (a b c : list A) : slice (length a) (length a + length b) (a ++ b ++ c) = b.
Proof.
  unfold slice. rewrite drop_app_length. replace (length a + length b - length a)%nat with (length b) by lia.
  apply take_app_length.
Qed.

Lemma slice_splice_same {A} off (new l : list A) :
  (off + length new <= length l)%nat ->
  slice off (off + length new) (splice off new l) = new.
Proof.
  intros. apply list_eq. intros i.
  destruct (decide (i < length new)%nat).
  - rewrite slice_lookup, splice_lookup_in by lia. f_equal. lia.
  - rewrite !lookup_ge_None_2; [done|lia|].
    rewrite length_slice; rewrite ?length_splice; lia.
Qed.

Lemma slice_splice_disjoint {A} off (new l : list A) a b :
  (a <= b <= length l)%nat -> (off + length new <= length l)%nat ->
  (b <= off \/ off + length new <= a)%nat ->
  slice a b (splice off new l) = slice a b l.
Proof.
  intros. apply list_eq. intros i.
  destruct (decide (i < b - a)%nat).
  - rewrite !slice_lookup by lia.
    destruct (decide (a + i < off)%nat); [apply splice_lookup_lt; lia|].
    apply splice_lookup_ge; lia.
  - rewrite !lookup_ge_None_2; [done| |]; rewrite length_slice; rewrite ?length_splice; lia.
Qed.

(** ** Lemmas: binary search *)

Definition cmp_rank (c : comparison) : Z :=
  match c with Lt => 0 | Eq => 1 | Gt => 2 end.

(** The list is ordered for the search: [Less]* [Equal]* [Greater]*. *)
Definition cmp_monotone {A} (f : A -> comparison) (l : list A) : Prop :=
  forall i j x y, (i <= j)%nat -> l !! i = Some x -> l !! j = Some y ->
    cmp_rank (f x) <= cmp_rank (f y).

Lemma bsearch_loop_inv cmp (n : nat) fuel base size :
  (1 <= size)%nat -> (size <= S fuel)%nat -> (base + size <= n)%nat ->
  (base = 0%nat \/ cmp base <> Gt) ->
  (forall j, base + size <= j < n -> cmp j = Gt)%nat ->
  (forall i j, (i <= j)%nat -> (j < n)%nat -> cmp_rank (cmp i) <= cmp_rank (cmp j)) ->
  let r := bsearch_loop fuel cmp base size in
  (r < n)%nat /\ (r = 0%nat \/ cmp r <> Gt) /\
  (forall j, r + 1 <= j < n -> cmp j = Gt)%nat.
Proof.
  revert base size. induction fuel as [|fuel IH]; intros base size H1 H2 H3 H4 H5 Hm;
    cbn [bsearch_loop]; cbv zeta.
  - assert (size = 1%nat) as -> by lia. split_and!; [lia|done|].
    intros j Hj. apply H5. lia.
  - destruct (size <=? 1)%nat eqn:Hs; b2p.
    + assert (size = 1%nat) as -> by lia. split_and!; [lia|done|].
      intros j Hj. apply H5. lia.
    + pose proof (Nat.div_lt size 2 ltac:(lia) ltac:(lia)).
      assert (1 <= size / 2)%nat by (apply Nat.div_le_lower_bound; lia).
      pose proof (Nat.Div0.mul_div_le size 2).
      set (half := (size / 2)%nat) in *. clearbody half.
      assert (Hup : cmp (base + half)%nat <> Gt ->
        let r := bsearch_loop fuel cmp (base + half) (size - half) in
        (r < n)%nat /\ (r = 0%nat \/ cmp r <> Gt) /\
        (forall j, r + 1 <= j < n -> cmp j = Gt)%nat).
      { cbv zeta. intros Hc. apply IH; [lia..|by right| |done]. intros j Hj. apply H5. lia. }
      destruct (cmp (base + half)%nat) eqn:Hc; [by apply Hup..|].
      apply IH; [lia..|done| |done].
      intros j Hj. specialize (Hm (base + half)%nat j ltac:(lia) ltac:(lia)).
      rewrite Hc in Hm. destruct (cmp j); simpl in *; lia || done.
Qed.

Lemma binary_search_by_spec {A} (f : A -> comparison) (l : list A) :
  cmp_monotone f l ->
  match binary_search_by f l with
  | Ok i => exists x, l !! i = Some x /\ f x = Eq
  | Err i =>
      (i <= length l)%nat /\
      (forall j x, (j < i)%nat -> l !! j = Some x -> f x = Lt) /\
      (forall j x, (i <= j)%nat -> l !! j = Some x -> f x = Gt)
  end.
Proof.
  intros Hm. unfold binary_search_by.
  destruct l as [|x0 l0]; [split_and!; [simpl; lia| |]; intros j x _ Hx;
    by rewrite lookup_nil in Hx|].
  set (l := x0 :: l0) in *.
  assert (Hat : forall i x, l !! i = Some x -> cmp_at f l i = f x)
    by (intros i x Hx; unfold cmp_at; by rewrite Hx).
  assert (Hmono : forall i j, (i <= j)%nat -> (j < length l)%nat ->
            cmp_rank (cmp_at f l i) <= cmp_rank (cmp_at f l j)).
  { intros i j Hij Hj.
    destruct (lookup_lt_is_Some_2 l j Hj) as [y Hy].
    destruct (lookup_lt_is_Some_2 l i ltac:(lia)) as [x Hx].
    rewrite (Hat _ _ Hx), (Hat _ _ Hy). exact (Hm i j x y Hij Hx Hy). }
  pose proof (bsearch_loop_inv (cmp_at f l) (length l) (length l) 0 (length l)
    ltac:(subst l; simpl; lia) ltac:(lia) ltac:(lia) (or_introl eq_refl)
    ltac:(intros; lia) Hmono) as (Hr & Hz & Hg).
  set (r := bsearch_loop _ _ _ _) in *.
  destruct (lookup_lt_is_Some_2 l r Hr) as [x Hx].
  destruct (cmp_at f l r) eqn:Hc.
  - exists x. split; [done|]. by rewrite <- (Hat _ _ Hx).
  - split_and!; [lia| |].
    + intros j y Hj Hy. specialize (Hmono j r ltac:(lia) Hr).
      rewrite Hc, (Hat _ _ Hy) in Hmono. destruct (f y); simpl in *; lia || done.
    + intros j y Hj Hy. rewrite <- (Hat _ _ Hy). apply Hg.
      apply lookup_lt_Some in Hy. lia.
  - destruct Hz as [Hz|Hz]; [|done]. rewrite Hz in *.
    split_and!; [lia|intros; lia|].
    intros j y Hj Hy. specialize (Hmono 0%nat j ltac:(lia)).
    rewrite Hc, (Hat _ _ Hy) in Hmono. apply lookup_lt_Some in Hy.
    specialize (Hmono Hy). destruct (f y); simpl in *; lia || done.
Qed.

(** A predicate that holds on a prefix of the list only. *)
Definition partitioned {A} (p : A -> bool) (l : list A) : Prop :=
  forall i j x y, (i <= j)%nat -> l !! i = Some x -> l !! j = Some y ->
    p y = true -> p x = true.

Lemma partition_point_spec {A} (p : A -> bool) (l : list A) :
  partitioned p l ->
  let i := partition_point p l in
  (i <= length l)%nat /\
  (forall j x, (j < i)%nat -> l !! j = Some x -> p x = true) /\
  (forall j x, (i <= j)%nat -> l !! j = Some x -> p x = false).
Proof.
  intros Hp. unfold partition_point.
  assert (Hm : cmp_monotone (fun x => if p x then Lt else Gt) l).
  { intros a b x y Hab Hx Hy. specialize (Hp a b x y Hab Hx Hy).
    destruct (p x), (p y); simpl; lia. }
  apply binary_search_by_spec in Hm.
  destruct (binary_search_by _ l) as [i|i].
  - destruct Hm as (x & _ & H). by destruct (p x).
  - destruct Hm as (H1 & H2 & H3). split_and!; [done| |]; intros j x Hj Hx.
    + specialize (H2 j x Hj Hx). by destruct (p x).
    + specialize (H3 j x Hj Hx). by destruct (p x).
Qed.

(** ** Lemmas: stable sort *)

Lemma insert_by_key_perm {A} (key : A -> Z) x l :
  insert_by_key key x l ≡ₚ x :: l.
Proof.
  induction l as [|y l IH]; simpl; [done|].
  case_on; [done|]. rewrite IH. constructor.
Qed.

Lemma sort_by_key_perm {A} (key : A -> Z) l : sort_by_key key l ≡ₚ l.
Proof.
  induction l as [|x l IH]; simpl; [done|]. by rewrite insert_by_key_perm, IH.
Qed.

Definition sorted_by {A} (key : A -> Z) (l : list A) : Prop :=
  StronglySorted (fun x y => key x <= key y) l.

Lemma insert_by_key_sorted {A} (key : A -> Z) x l :
  sorted_by key l -> sorted_by key (insert_by_key key x l).
Proof.
  unfold sorted_by. induction 1 as [|y l Hl IH Hy]; simpl.
  - repeat constructor.
  - case_on; b2p.
    + constructor; [by constructor|]. constructor; [done|].
      eapply Forall_impl; [exact Hy|]. simpl. lia.
    + constructor; [done|]. rewrite insert_by_key_perm.
      constructor; [lia|done].
Qed.

Lemma sort_by_key_sorted {A} (key : A -> Z) l : sorted_by key (sort_by_key key l).
Proof.
  induction l; simpl; [constructor|]. by apply insert_by_key_sorted.
Qed.

(** ** Lemmas: sorted lists by position *)

Lemma StronglySorted_at {A} (R : A -> A -> Prop) l i j x y :
  StronglySorted R l -> (i < j)%nat -> l !! i = Some x -> l !! j = Some y -> R x y.
Proof.
  intros Hs. revert i j. induction Hs as [|z l Hl IH Hz]; intros i j Hij Hx Hy; [done|].
  destruct i, j; simplify_eq/=; [lia| |lia|eapply (IH i j); eauto; lia].
  rewrite Forall_forall in Hz. apply Hz. by eapply list_elem_of_lookup_2.
Qed.

Lemma StronglySorted_of_at {A} (R : A -> A -> Prop) l :
  (forall i j x y, (i < j)%nat -> l !! i = Some x -> l !! j = Some y -> R x y) ->
  StronglySorted R l.
Proof.
  induction l as [|z l IH]; intros Hl; constructor.
  - apply IH. intros i j x y Hij Hx Hy. by apply (Hl (S i) (S j)); [lia|..].
  - apply Forall_lookup. intros i y Hy. by apply (Hl 0%nat (S i)); [lia|..].
Qed.

Lemma StronglySorted_insert_at {A} (R : A -> A -> Prop) l pos x :
  StronglySorted R l ->
  (forall i y, (i < pos)%nat -> l !! i = Some y -> R y x) ->
  (forall i y, (pos <= i)%nat -> l !! i = Some y -> R x y) ->
  StronglySorted R (vec_insert pos x l).
Proof.
  intros Hs. revert pos. unfold vec_insert.
  induction Hs as [|z l Hl IH Hz]; intros pos Hlt Hge.
  - rewrite take_nil, drop_nil. repeat constructor.
  - destruct pos as [|pos]; simpl.
    + constructor; [by constructor|]. apply Forall_lookup. intros i y Hy.
      apply (Hge i); [lia|done].
    + constructor.
      * apply IH; intros i y Hi Hy.
        -- apply (Hlt (S i)); [lia|done].
        -- apply (Hge (S i)); [lia|done].
      * apply Forall_app_2; [by apply Forall_take|]. constructor; [|by apply Forall_drop].
        apply (Hlt 0%nat); [lia|done].
Qed.

Lemma vec_insert_perm {A} pos (x : A) l : vec_insert pos x l ≡ₚ x :: l.
Proof.
  unfold vec_insert. rewrite <- Permutation_middle, take_drop. done.
Qed.
