(* ===== verification/Hal.v ===== *)
(** * The hardware abstraction layer

    [hitz-hal]: the error type, the typed newtypes, vCPU exits and registers,
    and the [GuestMemAccess] trait through which every device reaches guest
    RAM.  The trait is a type class; [GuestMemLaws] states what the devices
    rely on, and [Memory] discharges it for the real guest memory. *)

From Stdlib Require Import String.
From stdpp Require Import strings.
From S2P Require Import Prelude.

(** ** Errors *)

Inductive HalError : Type :=
| CreatePartition (msg : string)
| SetupPartition (msg : string)
| MapMemory (gpa size : Z) (reason : string)
| UnmapMemory (gpa : Z) (reason : string)
| CreateVcpu (vcpu_id : Z) (reason : string)
| VcpuRun (msg : string)
| VcpuCancel (msg : string)
| RegisterAccess (msg : string)
| InterruptRequest (msg : string)
| GuestMem (gpa : Z) (reason : string)
| InjectInterrupt (msg : string)
| NotAvailable (msg : string)
| Platform (code : Z) (message : string).

#[export] Instance HalError_eq_dec : EqDecision HalError.
Proof. solve_decision. Defined.

(** How an operation can fail to return: a panic (an arithmetic overflow in a
    build with overflow checks, or an [assert!]), or a loop that the given fuel
    does not finish. *)
Inductive Stop : Type := Panic | OutOfFuel.

#[export] Instance Stop_eq_dec : EqDecision Stop.
Proof. solve_decision. Defined.

(** ** Newtypes: guest physical addresses and sizes

    A [Gpa] is its raw [u64]. *)

(** [Gpa::offset]: an unchecked addition. *)
Definition gpa_offset (overflow_checks : bool) (gpa bytes : Z) : option Z :=
  op_add overflow_checks 64 gpa bytes.

(** [Gpa::page_base]: [self.0 & !0xFFF], the complement taken in 64 bits. *)
Definition gpa_page_base (gpa : Z) : Z := Z.land gpa (2 ^ 64 - 1 - 0xFFF).

(** [Gpa::page_offset]. *)
Definition gpa_page_offset (gpa : Z) : Z := Z.land gpa 0xFFF.

(** [MemSizeMiB::as_bytes]: [self.0 * 1024 * 1024]. *)
Definition mem_size_as_bytes (overflow_checks : bool) (mib : Z) : option Z :=
  let mul a b := if overflow_checks then checked_mul 64 a b else Some (wrap 64 (a * b)) in
  mul mib 1024 ≫= fun kib => mul kib 1024.

(** ** vCPU exits *)

Record MmioExit := {
  mmio_gpa : Z;
  mmio_data : list Z;
  mmio_len : Z;
  mmio_is_write : bool;
  mmio_instruction_len : Z;
  mmio_instruction_bytes : list Z;
  mmio_instruction_byte_count : Z;
}.

Record IoPortExit := {
  io_port : Z;
  io_data : list Z;
  io_len : Z;
  io_is_write : bool;
  io_instruction_len : Z;
}.

Inductive VcpuExit : Type :=
| ExitMmio (mmio : MmioExit)
| ExitIoPort (io : IoPortExit)
| ExitHalt
| ExitInterruptWindow
| ExitCanceled
| ExitShutdown
| ExitUnknown (code : Z).

(** ** Registers *)

Record StandardRegs := {
  rip : Z; rflags : Z;
  rax : Z; rbx : Z; rcx : Z; rdx : Z; rsi : Z; rdi : Z; rsp : Z; rbp : Z;
  r8 : Z; r9 : Z; r10 : Z; r11 : Z; r12 : Z; r13 : Z; r14 : Z; r15 : Z;
}.

(** [StandardRegs::default()]. *)
Definition StandardRegs_default : StandardRegs :=
  {| rip := 0; rflags := 0; rax := 0; rbx := 0; rcx := 0; rdx := 0; rsi := 0;
     rdi := 0; rsp := 0; rbp := 0; r8 := 0; r9 := 0; r10 := 0; r11 := 0;
     r12 := 0; r13 := 0; r14 := 0; r15 := 0 |}.

(** ** Memory permissions *)

Record MemFlags := { mf_read : bool; mf_write : bool; mf_execute : bool }.

Definition READ_ONLY : MemFlags :=
  {| mf_read := true; mf_write := false; mf_execute := false |}.
Definition READ_WRITE : MemFlags :=
  {| mf_read := true; mf_write := true; mf_execute := false |}.
Definition READ_WRITE_EXEC : MemFlags :=
  {| mf_read := true; mf_write := true; mf_execute := true |}.

(** ** The [GuestMemAccess] trait

    [read_guest m gpa n] is [read_guest(gpa, buf)] with [buf.len() = n]: on
    success it gives the bytes put in [buf].  [write_guest] takes [&self] and
    mutates memory through interior mutability, so the state is passed on. *)
Class GuestMemAccess (M : Type) := {
  read_guest : M -> Z -> nat -> result HalError (list Z);
  write_guest : M -> Z -> list Z -> result HalError M;
}.

(** What the devices rely on, for the memories satisfying [mem_wf]. *)
Class GuestMemLaws (M : Type) `{GuestMemAccess M} := {
  mem_wf : M -> Prop;
  write_guest_wf m g d m' :
    mem_wf m -> bytes_ok d -> write_guest m g d = Ok m' -> mem_wf m';
  read_guest_ok m g n bs :
    mem_wf m -> read_guest m g n = Ok bs -> length bs = n /\ bytes_ok bs;
  read_write_same m g d m' :
    mem_wf m -> bytes_ok d -> write_guest m g d = Ok m' ->
    read_guest m' g (length d) = Ok d;
  read_write_disjoint m g d m' g' n :
    mem_wf m -> bytes_ok d -> write_guest m g d = Ok m' ->
    disjoint_range g (zlen d) g' (Z.of_nat n) ->
    read_guest m' g' n = read_guest m g' n;
  read_write_mapped m g d m' g' n :
    mem_wf m -> write_guest m g d = Ok m' ->
    is_ok (read_guest m' g' n) = is_ok (read_guest m g' n);
  write_guest_mapped m g d :
    mem_wf m -> is_ok (write_guest m g d) = is_ok (read_guest m g (length d));
}.

(** [let _ = mem.write_guest(gpa, data);]: a failed write is ignored. *)
Definition write_guest_ignore {M} `{GuestMemAccess M} (m : M) (gpa : Z) (d : list Z) : M :=
  match write_guest m gpa d with Ok m' => m' | Err _ => m end.

(** ** Lemmas: newtypes *)

Lemma gpa_page_split gpa :
  u64 gpa -> gpa_page_base gpa + gpa_page_offset gpa = gpa /\ gpa_page_base gpa mod 4096 = 0.
Proof.
  intros Hg. unfold gpa_page_base, gpa_page_offset.
  change 0xFFF with (Z.ones 12).
  assert (Hb : Z.land gpa (2 ^ 64 - 1 - Z.ones 12) = gpa - gpa mod 4096).
  { replace (2 ^ 64 - 1 - Z.ones 12) with (Z.ldiff (Z.ones 64) (Z.ones 12)) by reflexivity.
    apply Z.bits_inj'. intros i Hi.
    rewrite Z.land_spec, Z.ldiff_spec.
    replace (gpa - gpa mod 4096) with (Z.ldiff gpa (Z.ones 12)).
    - rewrite Z.ldiff_spec. destruct (decide (i < 64)).
      + rewrite (Z.ones_spec_low 64) by lia. reflexivity.
      + rewrite (Z.ones_spec_high 64) by lia.
        rewrite (testbit_high 64 gpa i) by (done || lia). reflexivity.
    - rewrite Z.ldiff_ones_r by lia. rewrite Z.shiftl_mul_pow2, Z.shiftr_div_pow2 by lia.
      pose proof (Z.div_mod gpa 4096 ltac:(lia)). change (2 ^ 12) with 4096. lia. }
  rewrite Hb, Z.land_ones by lia. change (2 ^ 12) with 4096. split; [lia|].
  pose proof (Z.div_mod gpa 4096 ltac:(lia)) as E.
  replace (gpa - gpa mod 4096) with ((gpa / 4096) * 4096) by lia.
  apply Z.mod_mul. lia.
Qed.

Lemma gpa_page_offset_mod gpa : gpa_page_offset gpa = gpa mod 4096.
Proof. unfold gpa_page_offset. change 0xFFF with (Z.ones 12). by rewrite Z.land_ones. Qed.

(** ** Lemmas: what the interface gives the devices *)

Section Laws.
Context `{GuestMemLaws M}.
Implicit Types (m : M) (g : Z) (d : list Z).

Lemma write_ignore_wf m g d :
  mem_wf m -> bytes_ok d -> mem_wf (write_guest_ignore m g d).
Proof.
  intros Hm Hd. unfold write_guest_ignore.
  destruct (write_guest m g d) eqn:E; [|done]. exact (write_guest_wf _ _ _ _ Hm Hd E).
Qed.

Lemma read_write_ignore_disjoint m g d g' n :
  mem_wf m -> bytes_ok d ->
  disjoint_range g (zlen d) g' (Z.of_nat n) ->
  read_guest (write_guest_ignore m g d) g' n = read_guest m g' n.
Proof.
  intros Hm Hb Hd. unfold write_guest_ignore.
  destruct (write_guest m g d) eqn:E; [|done]. exact (read_write_disjoint _ _ _ _ _ _ Hm Hb E Hd).
Qed.

Lemma read_write_ignore_mapped m g d g' n :
  mem_wf m ->
  is_ok (read_guest (write_guest_ignore m g d) g' n) = is_ok (read_guest m g' n).
Proof.
  intros Hm. unfold write_guest_ignore.
  destruct (write_guest m g d) eqn:E; [|done]. exact (read_write_mapped _ _ _ _ _ _ Hm E).
Qed.

(** Where memory can be read, an ignored write takes effect. *)
Lemma read_write_ignore_same m g d :
  mem_wf m -> bytes_ok d -> is_ok (read_guest m g (length d)) = true ->
  read_guest (write_guest_ignore m g d) g (length d) = Ok d.
Proof.
  intros Hm Hb Hr. unfold write_guest_ignore.
  rewrite <- write_guest_mapped in Hr by done.
  destruct (write_guest m g d) eqn:E; [|done]. exact (read_write_same _ _ _ _ Hm Hb E).
Qed.

End Laws.

#[export] Hint Resolve write_ignore_wf : hitz.
