(* ===== verification/Float.v ===== *)
(** * Floating point

    [f32] and [f64] as the IEEE formats of the Standard Library, with the
    operations and conversions the guest agent uses, and what is needed of
    rounding: it gives a number, keeps an order of integers and does not pass a
    number of the format. *)

From Stdlib Require Import Floats.SpecFloat.
From S2P Require Import Prelude.

(** ** Types and operations *)

Record FloatType := { prec : Z; emax : Z }.
Definition F32 : FloatType := {| prec := 24; emax := 128 |}.
Definition F64 : FloatType := {| prec := 53; emax := 1024 |}.

(** [n as f32]. *)
Definition float_of_int (t : FloatType) (n : Z) : spec_float := binary_normalize (prec t) (emax t) n 0 false.
Definition fdiv (t : FloatType) := SFdiv (prec t) (emax t).
Definition fmul (t : FloatType) := SFmul (prec t) (emax t).

(** [x as f32]. *)
Definition float_cast (t : FloatType) (x : spec_float) : spec_float :=
  match x with
  | S754_finite s m e => binary_round (prec t) (emax t) s m e
  | _ => x
  end.

(** [f64::clamp] and the saturating [x as u64]. *)
Definition clamp_float (x lo hi : spec_float) : spec_float :=
  if SFltb x lo then lo else if SFltb hi x then hi else x.

Definition float_to_u64 (x : spec_float) : Z :=
  match x with
  | S754_zero _ | S754_nan | S754_infinity true | S754_finite true _ _ => 0
  | S754_infinity false => 2 ^ 64 - 1
  | S754_finite false m e => Z.min (Z.shiftl (Zpos m) e) (2 ^ 64 - 1)
  end.

(** ** Lemmas: shifting right *)

Lemma digits2_log2 p : Zdigits2 (Zpos p) = Z.log2 (Zpos p) + 1.
Proof.
  unfold Zdigits2. induction p as [p IH|p IH|]; cbn [digits2_pos]; [..|done]; rewrite Pos2Z.inj_succ, IH.
  - rewrite (Pos2Z.inj_xI p), Z.log2_succ_double by done. lia.
  - rewrite (Pos2Z.inj_xO p), Z.log2_double by done. lia.
Qed.

Lemma iter_pos_nat {A} (f : A -> A) n x : SpecFloat.iter_pos f n x = Nat.iter (Pos.to_nat n) f x.
Proof.
  revert x. induction n as [n IH|n IH|]; intros x; cbn [SpecFloat.iter_pos]; [..|done]; rewrite !IH.
  - change (f x) with (Nat.iter 1 f x). rewrite <- !Nat.iter_add. f_equal. lia.
  - rewrite <- !Nat.iter_add. f_equal. lia.
Qed.

Definition exact (l : location) : bool := match l with loc_Exact => true | _ => false end.

(** Where a mantissa with location [l] lies when its last [k] bits go. *)
Definition shift_loc (k m : Z) (l : location) : location :=
  if (m mod 2 ^ k =? 0) && exact l then loc_Exact
  else loc_Inexact (match m mod 2 ^ k ?= 2 ^ (k - 1) with Eq => if exact l then Eq else Gt | c => c end).

Lemma shr_1_nonneg m r s : 0 <= m -> shr_1 (Build_shr_record m r s) = Build_shr_record (m / 2) (Z.odd m) (r || s).
Proof.
  intros Hm. rewrite <- Z.div2_div. by destruct m as [|[p|p|]|p].
Qed.

Lemma mod_double_half m k : 0 <= m -> 1 <= k -> m mod 2 ^ (k + 1) = m mod 2 ^ k + 2 ^ k * (m / 2 ^ k mod 2).
Proof.
  intros Hm Hk. replace (k + 1) with (Z.succ k) by lia. rewrite Z.pow_succ_r by lia.
  rewrite Z.mul_comm, Z.rem_mul_r by lia. done.
Qed.

(** [k >= 1] turns of [shr_1]. *)
Lemma shr_iter k m l : 0 <= m ->
  let r := Nat.iter (S k) shr_1 (shr_record_of_loc m l) in
  shr_m r = m / 2 ^ Z.of_nat (S k) /\ loc_of_shr_record r = shift_loc (Z.of_nat (S k)) m l.
Proof.
  intros Hm. cbv zeta. induction k as [|k [IH1 IH2]].
  - simpl Nat.iter. assert (m mod 2 = 0 /\ Z.odd m = false \/ m mod 2 = 1 /\ Z.odd m = true) as D.
    { rewrite Zmod_odd. by destruct (Z.odd m); [right|left]. }
    unfold shift_loc. change (2 ^ Z.of_nat 1) with 2. change (2 ^ (Z.of_nat 1 - 1)) with 1.
    destruct l as [|[]]; simpl shr_record_of_loc; rewrite shr_1_nonneg by done;
      destruct D as [[-> ->]|[-> ->]]; done.
  - set (r := Nat.iter (S k) shr_1 (shr_record_of_loc m l)) in *.
    change (Nat.iter (S (S k)) shr_1 (shr_record_of_loc m l)) with (shr_1 r).
    destruct r as [q rr ss]. simpl in IH1, IH2. subst q. set (K := Z.of_nat (S k)) in *.
    assert (1 <= K) by lia. replace (Z.of_nat (S (S k))) with (K + 1) by lia.
    pose proof (Z.pow_pos_nonneg 2 K). assert (0 <= m / 2 ^ K) by (apply Z.div_pos; lia).
    rewrite shr_1_nonneg by done. simpl shr_m. split.
    { rewrite Z.pow_add_r, Z.div_div by lia. done. }
    unfold shift_loc in *. rewrite mod_double_half by lia. replace (K + 1 - 1) with K by lia.
    pose proof (Z.mod_pos_bound m (2 ^ K) ltac:(lia)).
    set (rem := m mod 2 ^ K) in *. set (q := m / 2 ^ K) in *.
    assert (2 ^ K = 2 * 2 ^ (K - 1)) as EK by (rewrite <- Z.pow_succ_r by lia; f_equal; lia).
    assert ((rem =? 0) && exact l = negb (rr || ss)) as Z0.
    { destruct rr, ss, ((rem =? 0) && exact l); try done. }
    rewrite Zmod_odd. destruct (Z.odd q); simpl loc_of_shr_record.
    + rewrite Z.mul_1_r. assert (rem + 2 ^ K =? 0 = false) as -> by (apply Z.eqb_neq; lia). simpl.
      destruct (Z.compare_spec (rem + 2 ^ K) (2 ^ K)) as [E|E|E]; [|lia|].
      * replace (rem =? 0) with true in Z0 by (symmetry; apply Z.eqb_eq; lia). simpl in Z0. rewrite Z0. by destruct (rr || ss).
      * replace (rem =? 0) with false in Z0 by (symmetry; apply Z.eqb_neq; lia). simpl in Z0. by destruct (rr || ss).
    + rewrite Z.mul_0_r, Z.add_0_r, Z0. destruct (rr || ss); simpl; [|done].
      destruct (Z.compare_spec rem (2 ^ K)); [lia|done|lia].
Qed.

(** ** Lemmas: rounding *)

Lemma log2_shift m k : 0 < m -> 0 <= k -> 0 < m / 2 ^ k -> Z.log2 (m / 2 ^ k) = Z.log2 m - k.
Proof.
  intros Hm Hk Hq. rewrite <- Z.shiftr_div_pow2 in * by done.
  rewrite Z.log2_shiftr by lia. rewrite Z.max_r; [done|].
  destruct (Z.le_gt_cases k (Z.log2 m)) as [|Hl]; [lia|].
  rewrite Z.shiftr_div_pow2, Z.div_small in Hq by (try done; pose proof (Z.log2_lt_pow2 m k); lia). done.
Qed.

Section Rounding.
Context (prec emax : Z) (Hp : 1 < prec).

#[local] Notation fexp := (fexp prec emax).
#[local] Notation emin := (emin prec emax).

(** The last bits that go. *)
Definition excess (m e : Z) : Z := Z.max 0 (fexp (Zdigits2 m + e) - e).

Definition kept_loc (N m : Z) (l : location) : location := if N =? 0 then l else shift_loc N m l.

Definition rounded (m e : Z) (l : location) : Z :=
  round_nearest_even (m / 2 ^ excess m e) (kept_loc (excess m e) m l).

Lemma shr_fexp_spec m e l : 0 <= m -> exists r,
  shr_fexp prec emax m e l = (r, e + excess m e) /\
  shr_m r = m / 2 ^ excess m e /\ loc_of_shr_record r = kept_loc (excess m e) m l.
Proof.
  intros Hm. unfold shr_fexp, shr, excess, kept_loc.
  destruct (fexp (Zdigits2 m + e) - e) as [|n|n] eqn:EN.
  1, 3: exists (shr_record_of_loc m l); split_and!; [simpl; f_equal; lia|rewrite Z.div_1_r|by destruct l as [|[]]];
    by destruct l as [|[]].
  destruct (shr_iter (pred (Pos.to_nat n)) m l Hm) as [H1 H2].
  replace (S (pred (Pos.to_nat n))) with (Pos.to_nat n) in * by lia. rewrite positive_nat_Z in *.
  exists (Nat.iter (Pos.to_nat n) shr_1 (shr_record_of_loc m l)). rewrite iter_pos_nat, H1, H2. done.
Qed.

Lemma rounded_cases m e l :
  rounded m e l = m / 2 ^ excess m e \/ rounded m e l = m / 2 ^ excess m e + 1 /\ exact (kept_loc (excess m e) m l) = false.
Proof.
  unfold rounded. destruct (kept_loc _ m l) as [|[]]; simpl; auto. destruct (Z.even _); auto.
Qed.

Lemma digits_log2 m : 0 < m -> Zdigits2 m = Z.log2 m + 1.
Proof. intros. destruct m; [lia|apply digits2_log2|lia]. Qed.

Lemma fexp_ge x : emin <= fexp x. Proof. unfold SpecFloat.fexp. lia. Qed.

(** What the second normalisation drops is zero. *)
Lemma renormalised m e l : 0 < m -> 0 < rounded m e l ->
  exists k, rounded m e l = k * 2 ^ excess (rounded m e l) (e + excess m e).
Proof.
  intros Hm Hc. set (N := excess m e) in *. set (c := rounded m e l) in *. set (q := m / 2 ^ N).
  destruct (decide (excess c (e + N) = 0)) as [->|HN2]; [exists c; lia|].
  assert (0 <= N) by (unfold N, excess; lia). assert (0 < 2 ^ N) by (apply Z.pow_pos_nonneg; lia).
  assert (0 <= q) by (apply Z.div_pos; lia).
  assert (fexp (Zdigits2 m + e) <= e + N) as HF by (unfold N, excess; lia).
  assert (forall x, x <= e + N -> fexp x <= e + N) as FM.
  { intros x Hx. unfold SpecFloat.fexp. pose proof (fexp_ge (Zdigits2 m + e)). lia. }
  unfold excess in HN2. rewrite (digits_log2 c) in HN2 by done.
  destruct (decide (0 < q)) as [Hq|Hq]; cycle 1.
  { (* one bit at most *)
    assert (c = 1) as E1 by (destruct (rounded_cases m e l) as [E|[E _]]; fold N q c in E; lia).
    rewrite E1 in HN2. change (Z.log2 1) with 0 in HN2.
    assert (fexp (0 + 1 + (e + N)) <= e + N); [|lia]. unfold SpecFloat.fexp.
    pose proof (fexp_ge (Zdigits2 m + e)). lia. }
  pose proof (log2_shift m N Hm ltac:(done) Hq) as HL. fold q in HL. rewrite digits_log2 in HF by done.
  destruct (rounded_cases m e l) as [E|[E _]]; fold N q c in E.
  { rewrite E, HL in HN2. replace (Z.log2 m - N + 1 + (e + N)) with (Z.log2 m + 1 + e) in HN2 by lia. lia. }
  pose proof (Z.log2_spec q Hq) as [Q1 Q2]. rewrite Z.pow_succ_r in Q2 by apply Z.log2_nonneg.
  destruct (decide (c < 2 * 2 ^ Z.log2 q)) as [Hlt|Hge].
  { assert (Z.log2 c = Z.log2 q) as E2.
    { apply Z.log2_unique; [apply Z.log2_nonneg|]. rewrite Z.pow_succ_r by apply Z.log2_nonneg. lia. }
    rewrite E2, HL in HN2. replace (Z.log2 m - N + 1 + (e + N)) with (Z.log2 m + 1 + e) in HN2 by lia. lia. }
  assert (c = 2 ^ (Z.log2 q + 1)) as E2 by (rewrite Z.pow_add_r by (try done; apply Z.log2_nonneg); lia).
  assert (Z.log2 c = Z.log2 q + 1) as E3 by (rewrite E2; apply Z.log2_pow2; pose proof (Z.log2_nonneg q); lia).
  assert (excess c (e + N) = 1) as ->.
  { unfold excess. rewrite digits_log2, E3, HL by done.
    replace (Z.log2 m - N + 1 + 1 + (e + N)) with (Z.log2 m + 1 + e + 1) by lia.
    rewrite E3, HL in HN2. replace (Z.log2 m - N + 1 + 1 + (e + N)) with (Z.log2 m + 1 + e + 1) in HN2 by lia.
    assert (fexp (Z.log2 m + 1 + e + 1) <= e + N + 1); [|lia].
    unfold SpecFloat.fexp in *. lia. }
  exists (2 ^ Z.log2 q). rewrite E2, Z.pow_add_r by (try done; apply Z.log2_nonneg). done.
Qed.

(** The rounded number: its mantissa and exponent, or an overflow. *)
Lemma round_aux_spec s m e l : 0 < m ->
  let c := rounded m e l in
  let e1 := e + excess m e in
  let e2 := e1 + excess c e1 in
  (c = 0 /\ binary_round_aux prec emax s m e l = S754_zero s) \/
  exists p, Zpos p * 2 ^ (e2 - e1) = c /\
    binary_round_aux prec emax s m e l = if e2 <=? emax - prec then S754_finite s p e2 else S754_infinity s.
Proof.
  intros Hm. cbv zeta. unfold binary_round_aux.
  destruct (shr_fexp_spec m e l ltac:(lia)) as (r1 & -> & Q1 & L1). cbv beta iota. rewrite Q1, L1.
  fold (rounded m e l). pose proof (renormalised m e l Hm) as RN.
  assert (0 <= rounded m e l) as Hc.
  { assert (0 <= m / 2 ^ excess m e) by (apply Z.div_pos; [lia|apply Z.pow_pos_nonneg; unfold excess; lia]).
    destruct (rounded_cases m e l) as [->|[-> _]]; lia. }
  set (c := rounded m e l) in *. set (e1 := e + excess m e) in *.
  destruct (shr_fexp_spec c e1 loc_Exact Hc) as (r2 & -> & Q2 & _). cbv beta iota. rewrite Q2.
  destruct (decide (c = 0)) as [->|Hc0]; [left; rewrite Z.div_0_l by (apply Z.pow_nonzero; unfold excess; lia); done|].
  right. destruct RN as [k Hk]; [lia|].
  assert (0 < 2 ^ excess c e1) by (apply Z.pow_pos_nonneg; unfold excess; lia).
  assert (c / 2 ^ excess c e1 = k) as -> by (rewrite Hk at 1; apply Z.div_mul; lia).
  replace (e1 + excess c e1 - e1) with (excess c e1) by lia.
  destruct k as [|p|p]; [lia| |lia]. by exists p.
Qed.

(** ** Values

    A number that is not negative, in units of the smallest. *)
Definition scaled (x : spec_float) : Z :=
  match x with S754_finite false m e => Zpos m * 2 ^ (e - emin) | _ => 0 end.
Definition nonneg_number (x : spec_float) : Prop :=
  match x with S754_zero _ => True | S754_finite false _ e => emin <= e | _ => False end.

(** A number of the format that is not exceeded is not exceeded after rounding. *)
Lemma round_aux_le s m e l B E : 0 < m -> s = false -> e <= E -> emin <= E <= emax - prec -> 0 <= B < 2 ^ prec ->
  (if exact l then m else m + 1) <= B * 2 ^ (E - e) ->
  let x := binary_round_aux prec emax s m e l in nonneg_number x /\ scaled x <= B * 2 ^ (E - emin).
Proof.
  intros Hm -> HeE HE HB HmB. cbv zeta.
  set (N := excess m e). assert (0 <= N) by (unfold N, excess; lia). assert (0 < 2 ^ N) by (apply Z.pow_pos_nonneg; lia).
  assert (m <= B * 2 ^ (E - e)) as HmB' by (destruct (exact l); lia).
  assert (forall k x, 0 < x -> 0 <= k -> x <= B * 2 ^ k -> Z.log2 x < prec + k) as LB.
  { intros k x Hx Hk HxB. apply Z.log2_lt_pow2; [done|]. rewrite Z.pow_add_r by lia.
    pose proof (Z.pow_pos_nonneg 2 k ltac:(done) Hk). nia. }
  assert (e + N <= E) as HN.
  { unfold N, excess. rewrite digits_log2 by done. pose proof (LB (E - e) m Hm ltac:(lia) HmB').
    unfold SpecFloat.fexp. lia. }
  assert (emin <= e + N) as HeN by (unfold N, excess; pose proof (fexp_ge (Zdigits2 m + e)); lia).
  set (c := rounded m e l).
  assert (c <= B * 2 ^ (E - (e + N))) as Hc.
  { assert (B * 2 ^ (E - e) = B * 2 ^ (E - (e + N)) * 2 ^ N) as EB.
    { rewrite <- Z.mul_assoc, <- Z.pow_add_r by lia. do 2 f_equal. lia. }
    destruct (rounded_cases m e l) as [Ec|[Ec Hl]]; fold N c in Ec; rewrite Ec.
    - apply Z.div_le_upper_bound; lia.
    - pose proof (Z.div_mod m (2 ^ N) ltac:(lia)). pose proof (Z.mod_pos_bound m (2 ^ N) ltac:(lia)).
      fold N in Hl. unfold kept_loc, shift_loc in Hl. destruct (N =? 0) eqn:EN.
      + apply Z.eqb_eq in EN. rewrite EN in *. rewrite Hl in HmB. simpl in *. lia.
      + destruct (exact l) eqn:El; [|nia].
        rewrite andb_true_r in Hl. destruct (m mod 2 ^ N =? 0) eqn:EM; [done|]. apply Z.eqb_neq in EM. nia. }
  destruct (round_aux_spec false m e l Hm) as [[_ ->]|(p & Hpv & ->)].
  { split; [done|]. simpl. pose proof (Z.pow_nonneg 2 (E - emin)). nia. }
  fold c N in Hpv |- *. set (e2 := e + N + excess c (e + N)) in *.
  assert (0 < c) as Hc0 by (rewrite <- Hpv; assert (0 < 2 ^ (e2 - (e + N))); [apply Z.pow_pos_nonneg; unfold e2, excess; lia|lia]).
  assert (e + N <= e2 <= E) as He2.
  { unfold e2, excess. rewrite digits_log2 by done. pose proof (LB (E - (e + N)) c Hc0 ltac:(lia) Hc).
    unfold SpecFloat.fexp. lia. }
  rewrite (proj2 (Z.leb_le e2 (emax - prec))) by lia. simpl. split; [lia|].
  replace (e2 - emin) with (e2 - (e + N) + (e + N - emin)) by lia. rewrite Z.pow_add_r, Z.mul_assoc, Hpv by lia.
  replace (E - emin) with (E - (e + N) + (e + N - emin)) by lia. rewrite (Z.pow_add_r _ (E - (e + N))), Z.mul_assoc by lia.
  apply Z.mul_le_mono_nonneg_r; [apply Z.pow_nonneg|]; lia.
Qed.

Lemma excess_emin m e : emin <= e + excess m e.
Proof. unfold excess. pose proof (fexp_ge (Zdigits2 m + e)). lia. Qed.

(** The value of a rounding that did not overflow. *)
Lemma round_aux_value m e l : 0 < m -> nonneg_number (binary_round_aux prec emax false m e l) ->
  scaled (binary_round_aux prec emax false m e l) = rounded m e l * 2 ^ (e + excess m e - emin).
Proof.
  intros Hm. pose proof (excess_emin m e).
  destruct (round_aux_spec false m e l Hm) as [[E ->]|(p & Hpv & ->)]; [intros _; by rewrite E|].
  set (e1 := e + excess m e) in *. set (e2 := e1 + excess (rounded m e l) e1) in *.
  destruct (e2 <=? emax - prec); [|done]. intros _. simpl. rewrite <- Hpv, <- Z.mul_assoc, <- Z.pow_add_r;
    [do 2 f_equal; lia|unfold e2, excess; lia|lia].
Qed.

(** *** Integers *)

Context (Hemin : emin <= 0) (H64 : 64 <= emax - prec).

Lemma shl_align_spec p e e' : exists mz, shl_align p e e' = (mz, Z.min e e') /\ Zpos mz = Zpos p * 2 ^ (e - Z.min e e').
Proof.
  unfold shl_align. destruct (e' - e) as [|d|d] eqn:E.
  - exists p. rewrite Z.min_l by lia. rewrite Z.sub_diag. split; [done|lia].
  - exists p. rewrite Z.min_l by lia. rewrite Z.sub_diag. split; [done|lia].
  - exists (Pos.iter xO p d). rewrite Z.min_r by lia. split; [done|]. replace (e - e') with (Zpos d) by lia.
    clear. induction d as [|d IH] using Pos.peano_ind; [simpl; lia|].
    rewrite Pos.iter_succ, Pos2Z.inj_xO, IH, Pos2Z.inj_succ, Z.pow_succ_r by done. lia.
Qed.

Lemma excess_int n : 0 < n -> excess n 0 = Z.max 0 (Z.log2 n + 1 - prec).
Proof. intros Hn. unfold excess, SpecFloat.fexp. rewrite digits_log2 by done. lia. Qed.

Lemma of_int_value n : 0 < n < 2 ^ 64 ->
  let x := binary_normalize prec emax n 0 false in
  nonneg_number x /\ scaled x = rounded n 0 loc_Exact * 2 ^ (excess n 0 - emin).
Proof.
  intros Hn. destruct n as [|p|p]; [lia| |lia]. cbv zeta. unfold binary_normalize, binary_round.
  destruct (shl_align_spec p 0 (fexp (Zpos (digits2_pos p) + 0))) as (mz & -> & Hmz).
  change (Zpos (digits2_pos p)) with (Zdigits2 (Zpos p)) in *. rewrite digits_log2, Z.add_0_r in * by done.
  set (L := Z.log2 (Zpos p)) in *. set (ez := Z.min 0 (fexp (L + 1))) in *. replace (0 - ez) with (- ez) in Hmz by lia.
  assert (Z.log2 (Zpos mz) = L - ez) as HL by (rewrite Hmz, Z.log2_mul_pow2 by lia; unfold L; lia).
  assert (emin <= ez) by (unfold ez, SpecFloat.fexp; lia).
  assert (nonneg_number (binary_round_aux prec emax false (Zpos mz) ez loc_Exact)) as NN.
  { apply (round_aux_le false _ ez loc_Exact 1 64); try lia; [split; [lia|apply Z.pow_gt_1; lia]|]. simpl.
    rewrite Hmz, Z.mul_1_l. replace (64 - ez) with (64 + - ez) by lia. rewrite Z.pow_add_r by lia.
    apply Z.mul_le_mono_nonneg_r; [apply Z.pow_nonneg|]; lia. }
  split; [done|]. rewrite round_aux_value by done.
  assert (excess (Zpos mz) ez = excess (Zpos p) 0) as EX.
  { unfold excess. rewrite !digits_log2, HL by done. fold L. replace (L - ez + 1 + ez) with (L + 1) by lia.
    rewrite Z.add_0_r. unfold ez. lia. }
  destruct (decide (ez = 0)) as [E0|E0].
  { assert (Zpos mz = Zpos p) as -> by (rewrite Hmz, E0; simpl; lia). by rewrite E0. }
  assert (excess (Zpos p) 0 = 0) as X0.
  { rewrite <- EX. unfold excess. rewrite digits_log2, HL by done. replace (L - ez + 1 + ez) with (L + 1) by lia. lia. }
  unfold rounded. rewrite EX, X0, !Z.div_1_r. unfold kept_loc. simpl. rewrite Hmz, <- Z.mul_assoc, <- Z.pow_add_r by lia.
  do 2 f_equal. lia.
Qed.

Lemma rounded_same a b : 0 < a <= b -> excess a 0 = excess b 0 -> rounded a 0 loc_Exact <= rounded b 0 loc_Exact.
Proof.
  intros Hab EN. unfold rounded. rewrite EN. set (N := excess b 0). assert (0 <= N) by (unfold N, excess; lia).
  assert (0 < 2 ^ N) by (apply Z.pow_pos_nonneg; lia).
  unfold kept_loc. destruct (N =? 0); [simpl; apply Z.div_le_mono; lia|].
  pose proof (Z.div_mod a (2 ^ N) ltac:(lia)). pose proof (Z.mod_pos_bound a (2 ^ N) ltac:(lia)).
  pose proof (Z.div_mod b (2 ^ N) ltac:(lia)). pose proof (Z.mod_pos_bound b (2 ^ N) ltac:(lia)).
  pose proof (Z.div_le_mono a b (2 ^ N) ltac:(lia) ltac:(lia)).
  pose proof (Z.pow_nonneg 2 (N - 1) ltac:(done)).
  set (qa := a / 2 ^ N) in *. set (qb := b / 2 ^ N) in *.
  assert (forall q l, q <= round_nearest_even q l <= q + 1) as RB by (intros q [|[]]; simpl; destruct (Z.even q); lia).
  pose proof (RB qa (shift_loc N a loc_Exact)). pose proof (RB qb (shift_loc N b loc_Exact)).
  destruct (decide (qa = qb)) as [Eq|Eq]; [|lia]. rewrite Eq in *.
  assert (a mod 2 ^ N <= b mod 2 ^ N) as Hrem by lia. clear -Hrem. set (ra := a mod 2 ^ N) in *. set (rb := b mod 2 ^ N) in *.
  unfold shift_loc. fold ra rb. simpl. rewrite !andb_true_r.
  destruct (Z.eqb_spec ra 0), (Z.eqb_spec rb 0), (Z.compare_spec ra (2 ^ (N - 1))), (Z.compare_spec rb (2 ^ (N - 1)));
    simpl; try destruct (Z.even qb); try lia.
Qed.

(** A rounded integer lies between powers of two around it. *)
Lemma rounded_upper a : 0 < a -> rounded a 0 loc_Exact * 2 ^ excess a 0 <= 2 ^ (Z.log2 a + 1).
Proof.
  intros Ha. pose proof (excess_int a Ha) as XA. pose proof (rounded_cases a 0 loc_Exact) as CA.
  pose proof (Z.log2_spec a Ha) as [_ LA]. pose proof (Z.log2_nonneg a).
  set (N := excess a 0) in *. set (la := Z.log2 a) in *. clearbody N la.
  assert (0 < 2 ^ N) by (apply Z.pow_pos_nonneg; lia).
  destruct (decide (N <= la + 1)) as [HN|HN]; [|lia].
  assert (2 ^ (la + 1) = 2 ^ (la + 1 - N) * 2 ^ N) as -> by (rewrite <- Z.pow_add_r by lia; f_equal; lia).
  apply Z.mul_le_mono_nonneg_r; [lia|].
  assert (a / 2 ^ N < 2 ^ (la + 1 - N)); [|lia].
  apply Z.div_lt_upper_bound; [lia|]. rewrite <- Z.pow_add_r by lia. by replace (N + (la + 1 - N)) with (Z.succ la) by lia.
Qed.

Lemma rounded_lower b : 0 < b -> 2 ^ Z.log2 b <= rounded b 0 loc_Exact * 2 ^ excess b 0.
Proof.
  intros Hb. pose proof (excess_int b Hb) as XB. pose proof (rounded_cases b 0 loc_Exact) as CB.
  pose proof (Z.log2_spec b Hb) as [LB _]. pose proof (Z.log2_nonneg b).
  set (N := excess b 0) in *. set (lb := Z.log2 b) in *. clearbody N lb.
  assert (0 < 2 ^ N) by (apply Z.pow_pos_nonneg; lia).
  assert (2 ^ lb = 2 ^ (lb - N) * 2 ^ N) as -> by (rewrite <- Z.pow_add_r by lia; f_equal; lia).
  apply Z.mul_le_mono_nonneg_r; [lia|].
  assert (2 ^ (lb - N) <= b / 2 ^ N); [|lia].
  apply Z.div_le_lower_bound; [lia|]. rewrite <- Z.pow_add_r by lia. by replace (N + (lb - N)) with lb by lia.
Qed.

Lemma rounded_mono a b : 0 < a <= b ->
  rounded a 0 loc_Exact * 2 ^ excess a 0 <= rounded b 0 loc_Exact * 2 ^ excess b 0.
Proof.
  intros Hab. pose proof (Z.log2_le_mono a b ltac:(lia)) as HL.
  destruct (decide (excess a 0 = excess b 0)) as [EN|EN].
  { rewrite EN. apply Z.mul_le_mono_nonneg_r; [apply Z.pow_nonneg; lia|by apply rounded_same]. }
  rewrite !excess_int in EN by lia.
  transitivity (2 ^ (Z.log2 a + 1)); [apply rounded_upper; lia|].
  transitivity (2 ^ Z.log2 b); [apply Z.pow_le_mono_r; lia|apply rounded_lower; lia].
Qed.

(** Conversion keeps the order, and gives one for one. *)
Lemma of_int_mono a b : 0 < a <= b -> b < 2 ^ 64 ->
  scaled (binary_normalize prec emax a 0 false) <= scaled (binary_normalize prec emax b 0 false).
Proof.
  intros Hab Hb. destruct (of_int_value a ltac:(lia)) as [_ ->]. destruct (of_int_value b ltac:(lia)) as [_ ->].
  assert (forall n, excess n 0 - emin = excess n 0 + - emin) as E by lia. rewrite !E.
  assert (forall n, 0 <= excess n 0) as X by (intros n; unfold excess; lia).
  rewrite !Z.pow_add_r, !Z.mul_assoc by (lia || apply X).
  apply Z.mul_le_mono_nonneg_r; [apply Z.pow_nonneg; lia|by apply rounded_mono].
Qed.

(** *** Division *)

Lemma exact_new_location b r : 0 <= r < b -> exact (new_location b r) = (r =? 0).
Proof.
  intros Hr. unfold new_location, new_location_even, new_location_odd.
  destruct (Z.even b), (r =? 0) eqn:E; done.
Qed.

(** The quotient of a number from 1 up to 2 ^ 64 by one that is not less is at most 1. *)
Lemma div_le_one x y : emin <= - 64 - prec -> nonneg_number x -> nonneg_number y ->
  2 ^ (- emin) <= scaled x <= scaled y -> scaled y <= 2 ^ (64 - emin) ->
  nonneg_number (SFdiv prec emax x y) /\ scaled (SFdiv prec emax x y) <= 2 ^ (- emin).
Proof.
  intros He Hx Hy Hxy Hy64. pose proof (Z.pow_pos_nonneg 2 (- emin)) as P0.
  destruct x as [|[]| |[] mx ex]; try done; [simpl in Hxy; lia|].
  destruct y as [|[]| |[] my ey]; try done; [simpl in Hxy; lia|]. simpl in Hx, Hy, Hxy, Hy64.
  unfold SFdiv, SFdiv_core_binary. rewrite !digits_log2 by done.
  set (E := fexp (Z.log2 (Zpos mx) + 1 + ex - (Z.log2 (Zpos my) + 1 + ey))). set (e' := Z.min E (ex - ey)).
  assert (forall p e, emin <= e -> Z.log2 (Zpos p * 2 ^ (e - emin)) = Z.log2 (Zpos p) + e - emin) as LM.
  { intros p e Hpe. rewrite Z.log2_mul_pow2 by lia. lia. }
  pose proof (Z.log2_le_mono _ _ (proj1 Hxy)) as L1. pose proof (Z.log2_le_mono _ _ (proj2 Hxy)) as L2.
  pose proof (Z.log2_le_mono _ _ Hy64) as L3. rewrite LM, Z.log2_pow2 in L1 by lia. rewrite !LM in L2 by lia. rewrite LM, Z.log2_pow2 in L3 by lia.
  set (lx := Z.log2 (Zpos mx)) in *. set (ly := Z.log2 (Zpos my)) in *.
  assert (E = lx + ex - (ly + ey) - prec) as HE by (unfold E, SpecFloat.fexp; lia).
  assert (e' <= - prec) as He' by lia. set (s := ex - ey - e'). assert (0 <= s) by lia.
  replace (match s with Zpos _ => Z.shiftl (Zpos mx) s | Z0 => Zpos mx | Zneg _ => Z0 end) with (Zpos mx * 2 ^ s)
    by (destruct s; [lia|by rewrite Z.shiftl_mul_pow2|lia]).
  set (m' := Zpos mx * 2 ^ s).
  rewrite (surjective_pairing (Z.div_eucl m' (Zpos my))).
  change (Z.div_eucl m' (Zpos my)).1 with (m' / Zpos my). change (Z.div_eucl m' (Zpos my)).2 with (m' mod Zpos my).
  pose proof (Z.div_mod m' (Zpos my) ltac:(done)) as DM. pose proof (Z.mod_pos_bound m' (Zpos my) ltac:(done)) as MB.
  set (q := m' / Zpos my) in *. set (r := m' mod Zpos my) in *.
  assert (Zpos my <= m') as Hq.
  { pose proof (Z.log2_spec (Zpos my) ltac:(done)) as [_ Y]. pose proof (Z.log2_spec (Zpos mx) ltac:(done)) as [X _].
    fold lx in X. fold ly in Y. unfold m'. transitivity (2 ^ lx * 2 ^ s).
    - rewrite <- Z.pow_add_r by (try done; apply Z.log2_nonneg). transitivity (2 ^ Z.succ ly); [lia|apply Z.pow_le_mono_r; lia].
    - apply Z.mul_le_mono_nonneg_r; [apply Z.pow_nonneg|]; lia. }
  assert (0 < q) as Hq0 by (unfold q; apply Z.div_str_pos; lia).
  assert (m' <= Zpos my * 2 ^ (- e')) as Hm'.
  { unfold m'. apply (Z.mul_le_mono_pos_r _ _ (2 ^ (ey - emin))); [apply Z.pow_pos_nonneg; lia|].
    rewrite <- !Z.mul_assoc, <- !Z.pow_add_r by lia.
    replace (s + (ey - emin)) with (ex - emin + - e') by lia. replace (- e' + (ey - emin)) with (ey - emin + - e') by lia.
    rewrite !Z.pow_add_r, !Z.mul_assoc by lia. apply Z.mul_le_mono_nonneg_r; [apply Z.pow_nonneg|]; lia. }
  destruct (round_aux_le false q e' (new_location (Zpos my) r) (2 ^ (prec - 1)) (1 - prec)) as [R1 R2]; try lia.
  - split; [apply Z.pow_nonneg; lia|]. apply Z.pow_lt_mono_r; lia.
  - rewrite exact_new_location, <- Z.pow_add_r by lia. replace (prec - 1 + (1 - prec - e')) with (- e') by lia.
    destruct (r =? 0) eqn:Er; [apply Z.eqb_eq in Er|apply Z.eqb_neq in Er].
    + apply (Z.mul_le_mono_pos_l _ _ (Zpos my)); lia.
    + assert (q < 2 ^ (- e')); [|lia]. apply (Z.mul_lt_mono_pos_l (Zpos my)); lia.
  - split; [exact R1|]. etrans; [exact R2|]. rewrite <- Z.pow_add_r by lia. apply Z.pow_le_mono_r; lia.
Qed.
End Rounding.

(** ** Single precision *)

(** [x / y * 100.0] is a number, and at most 100. *)
Lemma percentage_le x y :
  nonneg_number 24 128 x -> nonneg_number 24 128 y ->
  2 ^ 149 <= scaled 24 128 x <= scaled 24 128 y -> scaled 24 128 y <= 2 ^ 213 ->
  let p := fmul F32 (fdiv F32 x y) (float_of_int F32 100) in
  nonneg_number 24 128 p /\ scaled 24 128 p <= 100 * 2 ^ 149.
Proof.
  intros Hx Hy Hxy Hy64. destruct (div_le_one 24 128 ltac:(done) ltac:(done) ltac:(done) x y) as [D1 D2]; try done.
  unfold fmul, fdiv. simpl prec. simpl emax. change (float_of_int F32 100) with (S754_finite false 13107200 (-17)).
  change (2 ^ (- SpecFloat.emin 24 128)) with (2 ^ 149) in D2.
  destruct (SFdiv 24 128 x y) as [sx|[]| |[] m e]; try done. simpl in D1, D2 |- *.
  change (SpecFloat.emin 24 128) with (-149) in *.
  assert (e <= 0) as He.
  { assert (Z.log2 (2 ^ (e + 149)) <= Z.log2 (2 ^ 149)) as L.
    { apply Z.log2_le_mono. pose proof (Z.pow_nonneg 2 (e - -149) ltac:(done)). replace (e + 149) with (e - -149) by lia. nia. }
    rewrite !Z.log2_pow2 in L by lia. lia. }
  assert (Zpos m <= 2 ^ (- e)) as Hm.
  { apply (Z.mul_le_mono_pos_r _ _ (2 ^ (e - -149))); [apply Z.pow_pos_nonneg; lia|].
    rewrite <- Z.pow_add_r by lia. by replace (- e + (e - -149)) with 149 by lia. }
  pose proof (round_aux_le 24 128 ltac:(done) false (Zpos (m * 13107200)) (e + -17) loc_Exact 13107200 (-17)) as R.
  cbv zeta in R. change (SpecFloat.emin 24 128) with (-149) in R. apply R; try done; try lia.
  simpl exact. cbv iota. rewrite Pos2Z.inj_mul. replace (-17 - (e + -17)) with (- e) by lia. lia.
Qed.

(** The conversion of a positive integer. *)
Lemma f32_of_u64 n : 0 < n < 2 ^ 64 ->
  let x := float_of_int F32 n in nonneg_number 24 128 x /\ 2 ^ 149 <= scaled 24 128 x <= 2 ^ 213.
Proof.
  intros Hn. cbv zeta. unfold float_of_int. simpl prec. simpl emax.
  destruct (of_int_value 24 128 ltac:(done) ltac:(done) ltac:(done) n Hn) as [V1 _]. split; [done|]. split.
  - change (2 ^ 149) with (scaled 24 128 (binary_normalize 24 128 1 0 false)).
    apply of_int_mono; done || lia.
  - change (2 ^ 213) with (scaled 24 128 (binary_normalize 24 128 (2 ^ 64 - 1) 0 false)).
    apply of_int_mono; done || lia.
Qed.

Lemma f32_mono a b : 0 < a <= b -> b < 2 ^ 64 -> scaled 24 128 (float_of_int F32 a) <= scaled 24 128 (float_of_int F32 b).
Proof. intros. by apply (of_int_mono 24 128). Qed.

(** ** Numbers that are not NaN *)

Definition is_nan (x : spec_float) : bool := match x with S754_nan => true | _ => false end.

Lemma round_aux_number prec emax s m e l : 0 <= m -> is_nan (binary_round_aux prec emax s m e l) = false.
Proof.
  intros Hm. unfold binary_round_aux. destruct (shr_fexp_spec prec emax m e l Hm) as (r1 & -> & Q1 & L1).
  cbv beta iota. rewrite Q1, L1. fold (rounded prec emax m e l).
  assert (forall k x, 0 <= x -> 0 <= k -> 0 <= x / 2 ^ k) as D.
  { intros k x Hx Hk. apply Z.div_pos; [done|]. by apply Z.pow_pos_nonneg. }
  assert (forall x y, 0 <= excess prec emax x y) as X by (intros; unfold excess; lia).
  assert (0 <= rounded prec emax m e l) as Hc.
  { pose proof (D _ _ Hm (X m e)). destruct (rounded_cases prec emax m e l) as [->|[-> _]]; lia. }
  destruct (shr_fexp_spec prec emax _ (e + excess prec emax m e) loc_Exact Hc) as (r2 & -> & Q2 & _).
  cbv beta iota. rewrite Q2. pose proof (D _ _ Hc (X (rounded prec emax m e l) (e + excess prec emax m e))) as H2.
  match type of H2 with _ <= ?x => destruct x end; [done| |lia]. by destruct (_ <=? _).
Qed.

Lemma round_number prec emax s p e : is_nan (binary_round prec emax s p e) = false.
Proof.
  unfold binary_round. destruct (shl_align _ _ _). apply round_aux_number. lia.
Qed.
