(* ===== verification/Text.v ===== *)
(** * Text

    The string functions of Rust's standard library the guest agent parses with.
    A [str] is its list of characters; the ASCII delimiters are one byte each, so
    that byte offsets next to them are positions of characters. *)

From Stdlib Require Import String Ascii Floats.SpecFloat.
From stdpp Require Import list.
From S2P Require Import Prelude Float.

Definition text : Type := list Z.

(** A literal. *)
Definition str (s : string) : text := (fun a => Z.of_nat (nat_of_ascii a)) <$> list_ascii_of_string s.

Definition NL : Z := 10.
Definition CR : Z := 13.
Definition SP : Z := 32.

Definition is_digit (c : Z) : bool := (48 <=? c) && (c <=? 57).

(** [u8::is_ascii_whitespace] and [char::is_whitespace]. *)
Definition is_ascii_whitespace (c : Z) : bool :=
  (c =? 32) || (c =? 9) || (c =? 10) || (c =? 12) || (c =? 13).
Definition is_whitespace (c : Z) : bool :=
  (c =? 32) || ((9 <=? c) && (c <=? 13)) || (c =? 0x85) || (c =? 0xA0) || (c =? 0x1680) ||
  ((0x2000 <=? c) && (c <=? 0x200A)) || (c =? 0x2028) || (c =? 0x2029) || (c =? 0x202F) || (c =? 0x205F) || (c =? 0x3000).

(** ** Splitting *)

Fixpoint split_by (p : Z -> bool) (s : text) : list text :=
  match s with
  | [] => [[]]
  | c :: s' =>
      if p c then [] :: split_by p s'
      else match split_by p s' with [] => [[c]] | w :: ws => (c :: w) :: ws end
  end.

Definition nonempty (s : text) : bool := match s with [] => false | _ => true end.

(** [split_ascii_whitespace]. *)
Definition words (s : text) : list text := List.filter nonempty (split_by is_ascii_whitespace s).

(** [lines]: the pieces up to and with each line feed, less it and a carriage
    return before it. *)
Fixpoint split_inclusive (c0 : Z) (s : text) : list text :=
  match s with
  | [] => []
  | c :: s' =>
      if c =? c0 then [c] :: split_inclusive c0 s'
      else match split_inclusive c0 s' with [] => [[c]] | w :: ws => (c :: w) :: ws end
  end.

Definition strip_suffix (c : Z) (s : text) : option text :=
  match last s with
  | Some d => if d =? c then Some (removelast s) else None
  | None => None
  end.

Definition line_of (piece : text) : text :=
  match strip_suffix NL piece with
  | None => piece
  | Some l => default l (strip_suffix CR l)
  end.

Definition lines (s : text) : list text := line_of <$> split_inclusive NL s.

(** [split_once] at a character. *)
Fixpoint split_once (c0 : Z) (s : text) : option (text * text) :=
  match s with
  | [] => None
  | c :: s' => if c =? c0 then Some ([], s') else '(a, b) ← split_once c0 s'; Some (c :: a, b)
  end.

Fixpoint drop_while (p : Z -> bool) (s : text) : text :=
  match s with c :: s' => if p c then drop_while p s' else s | [] => [] end.

Definition trim (s : text) : text := rev (drop_while is_whitespace (rev (drop_while is_whitespace s))).

Fixpoint starts_with (prefix s : text) : bool :=
  match prefix, s with
  | [], _ => true
  | c :: p', d :: s' => (c =? d) && starts_with p' s'
  | _, [] => false
  end.

(** [find] and [rfind] of a character, as its position. *)
Fixpoint find_char (c0 : Z) (s : text) : option nat :=
  match s with
  | [] => None
  | c :: s' => if c =? c0 then Some 0%nat else S <$> find_char c0 s'
  end.
Fixpoint rfind_char (c0 : Z) (s : text) : option nat :=
  match s with
  | [] => None
  | c :: s' => match rfind_char c0 s' with
               | Some i => Some (S i)
               | None => if c =? c0 then Some 0%nat else None
               end
  end.

(** ** Numbers *)

(** [str::parse] at an unsigned type of [w] bits: a plus sign is allowed. *)
Fixpoint parse_digits (w acc : Z) (s : text) : option Z :=
  match s with
  | [] => Some acc
  | c :: s' =>
      if is_digit c then
        let n := acc * 10 + (c - 48) in
        if n <? 2 ^ w then parse_digits w n s' else None
      else None
  end.

Definition parse_uint (w : Z) (s : text) : option Z :=
  match s with
  | [] => None
  | [43] => None
  | 43 :: s' => parse_digits w 0 s'
  | _ => parse_digits w 0 s
  end.

(** The decimal digits [Display] gives. *)
Fixpoint digits_fuel (fuel : nat) (n : Z) : text :=
  match fuel with
  | O => []
  | S fuel' => if n <? 10 then [48 + n] else digits_fuel fuel' (n / 10) ++ [48 + n mod 10]
  end.
Definition digits (n : Z) : text := digits_fuel (S (Z.to_nat (Z.log2 n))) n.

(** ** Floating-point numbers

    [str::parse] at a float type: a sign, then [inf], [infinity] or [nan] in any
    case, or digits with a point and an exponent; rounded to nearest. *)
Definition lower (c : Z) : Z := if (65 <=? c) && (c <=? 90) then c + 32 else c.

Fixpoint span (p : Z -> bool) (s : text) : text * text :=
  match s with
  | c :: s' => if p c then let '(a, b) := span p s' in (c :: a, b) else ([], s)
  | [] => ([], [])
  end.

Definition digits_value (ds : text) : Z := foldl (fun acc c => acc * 10 + (c - 48)) 0 ds.

Definition decimal_to_float (t : FloatType) (neg : bool) (d e10 : Z) : spec_float :=
  match d with
  | Zpos p =>
      if 0 <=? e10 then binary_round (prec t) (emax t) neg (p * Z.to_pos (10 ^ e10)) 0
      else let '(q, e, l) := SFdiv_core_binary (prec t) (emax t) d 0 (10 ^ (- e10)) 0 in
           binary_round_aux (prec t) (emax t) neg q e l
  | _ => S754_zero neg
  end.

Definition split_sign (s : text) : bool * text :=
  match s with 43 :: s' => (false, s') | 45 :: s' => (true, s') | _ => (false, s) end.

Definition parse_exponent (s : text) : option Z :=
  match s with
  | [] => Some 0
  | c :: s' =>
      if lower c =? 101 then
        let '(neg, ds) := split_sign s' in
        if nonempty ds && forallb is_digit ds then Some (if neg then - digits_value ds else digits_value ds) else None
      else None
  end.

Definition parse_float (t : FloatType) (s : text) : option spec_float :=
  let '(neg, s) := split_sign s in
  let word := lower <$> s in
  if bool_decide (word = str "inf") || bool_decide (word = str "infinity") then Some (S754_infinity neg)
  else if bool_decide (word = str "nan") then Some S754_nan
  else
    let '(whole, s) := span is_digit s in
    let '(frac, s) := match s with 46 :: s' => span is_digit s' | _ => ([], s) end in
    if negb (nonempty (whole ++ frac)) then None
    else e ← parse_exponent s; Some (decimal_to_float t neg (digits_value (whole ++ frac)) (e - zlen frac)).

Example parse_float_load : parse_float F32 (str "1.23") = Some (S754_finite false 10317988 (-23)).
Proof. reflexivity. Qed.
Example parse_float_exp : parse_float F64 (str "-25e-1") = Some (S754_finite true 5629499534213120 (-51)).
Proof. reflexivity. Qed.

(** ** Lemmas: splitting *)

Lemma split_by_cons p s : exists w ws, split_by p s = w :: ws.
Proof. destruct s as [|c s]; simpl; [by eauto|]. destruct (p c); [by eauto|]. destruct (split_by p s); by eauto. Qed.

(** A piece without delimiters, a delimiter, and the rest. *)
Lemma split_by_app p w c s : Forall (fun d => p d = false) w -> p c = true ->
  split_by p (w ++ c :: s) = w :: split_by p s.
Proof. induction 1 as [|d w Hd Hw IH]; intros Hc; simpl; [by rewrite Hc|]. by rewrite Hd, IH. Qed.

Lemma split_by_last p w : Forall (fun d => p d = false) w -> split_by p w = [w].
Proof. induction 1 as [|d w Hd Hw IH]; simpl; [done|]. by rewrite Hd, IH. Qed.

Definition no_ws (w : text) : Prop := Forall (fun c => is_ascii_whitespace c = false) w.
Definition word_ok (w : text) : Prop := nonempty w = true /\ no_ws w.
Definition all_ws (w : text) : Prop := Forall (fun c => is_ascii_whitespace c = true) w.

Lemma words_ws c s : is_ascii_whitespace c = true -> words (c :: s) = words s.
Proof. intros Hc. unfold words. simpl. by rewrite Hc. Qed.

Lemma words_all_ws ws s : all_ws ws -> words (ws ++ s) = words s.
Proof. induction 1 as [|c ws Hc _ IH]; [done|]. simpl. by rewrite words_ws. Qed.

Lemma words_word w c s : word_ok w -> is_ascii_whitespace c = true -> words (w ++ c :: s) = w :: words s.
Proof. intros [Hn Hw] Hc. unfold words. rewrite split_by_app by done. simpl. by rewrite Hn. Qed.

Lemma words_last w : word_ok w -> words w = [w].
Proof. intros [Hn Hw]. unfold words. rewrite split_by_last by done. simpl. by rewrite Hn. Qed.

(** Words separated by single spaces. *)
Fixpoint unwords (l : list text) : text :=
  match l with [] => [] | [w] => w | w :: l' => w ++ SP :: unwords l' end.

Lemma words_unwords l : Forall word_ok l -> words (unwords l) = l.
Proof.
  induction 1 as [|w l Hw Hl IH]; [done|]. destruct l as [|w' l']; [by apply words_last|].
  simpl in *. by rewrite words_word, IH.
Qed.

(** The same with anything after it. *)
Lemma words_unwords_app l c s : Forall word_ok l -> is_ascii_whitespace c = true ->
  words (unwords l ++ c :: s) = l ++ words s.
Proof.
  induction 1 as [|w l Hw Hl IH]; intros Hc; [by apply words_ws|]. destruct l as [|w' l']; [by apply words_word|].
  simpl in *. rewrite <- (assoc_L (++)). simpl. by rewrite words_word, IH.
Qed.

(** ** Lemmas: lines *)

Definition no_nl (l : text) : Prop := Forall (fun c => c <> NL) l.

(** A line as [lines] gives it: no line feed, and not ending in a carriage return. *)
Definition line_ok (l : text) : Prop := no_nl l /\ last l <> Some CR.

Lemma split_inclusive_app l s : no_nl l -> split_inclusive NL (l ++ NL :: s) = (l ++ [NL]) :: split_inclusive NL s.
Proof.
  induction 1 as [|d l Hd Hl IH]; [done|]. simpl. rewrite (proj2 (Z.eqb_neq d NL)), IH by done. done.
Qed.

Lemma line_of_terminated l : last l <> Some CR -> line_of (l ++ [NL]) = l.
Proof.
  intros Hl. unfold line_of, strip_suffix at 1. rewrite last_snoc, Z.eqb_refl, removelast_last. simpl.
  unfold strip_suffix. destruct (last l) as [d|] eqn:E; [|done].
  destruct (d =? CR) eqn:Ed; [|done]. apply Z.eqb_eq in Ed as ->. done.
Qed.

Lemma lines_cons l s : line_ok l -> lines (l ++ NL :: s) = l :: lines s.
Proof.
  intros [Hn Hc]. unfold lines. rewrite split_inclusive_app by done. simpl. by rewrite line_of_terminated.
Qed.

(** Lines each followed by a line feed. *)
Definition unlines (l : list text) : text := concat ((fun x => x ++ [NL]) <$> l).

Lemma lines_unlines l : Forall line_ok l -> lines (unlines l) = l.
Proof.
  induction 1 as [|x l Hx Hl IH]; [done|].
  change (unlines (x :: l)) with ((x ++ [NL]) ++ unlines l). rewrite <- (assoc_L (++)). simpl.
  by rewrite lines_cons, IH.
Qed.

(** ** Lemmas: finding *)

Lemma find_char_app c0 a s : c0 ∉ a -> find_char c0 (a ++ c0 :: s) = Some (length a).
Proof.
  induction a as [|c a IH]; simpl; intros H; [by rewrite Z.eqb_refl|].
  apply not_elem_of_cons in H as [H1 H2]. rewrite (proj2 (Z.eqb_neq c c0)), IH by (done || congruence). done.
Qed.

Lemma rfind_char_none c0 s : c0 ∉ s -> rfind_char c0 s = None.
Proof.
  induction s as [|c s IH]; simpl; intros H; [done|]. apply not_elem_of_cons in H as [H1 H2].
  rewrite IH by done. by rewrite (proj2 (Z.eqb_neq c c0)) by congruence.
Qed.

Lemma rfind_char_app c0 a s : c0 ∉ s -> rfind_char c0 (a ++ c0 :: s) = Some (length a).
Proof.
  intros H. induction a as [|c a IH]; simpl; [by rewrite rfind_char_none, Z.eqb_refl|]. by rewrite IH.
Qed.

Lemma split_once_app c0 a s : c0 ∉ a -> split_once c0 (a ++ c0 :: s) = Some (a, s).
Proof.
  induction a as [|c a IH]; simpl; intros H; [by rewrite Z.eqb_refl|].
  apply not_elem_of_cons in H as [H1 H2]. rewrite (proj2 (Z.eqb_neq c c0)), IH by (done || congruence). done.
Qed.

(** ** Lemmas: numbers *)

Lemma digits_fuel_digits fuel n : 0 <= n -> Forall (fun c => is_digit c = true) (digits_fuel fuel n).
Proof.
  revert n. induction fuel as [|fuel IH]; intros n Hn; simpl; [constructor|].
  destruct (n <? 10) eqn:E.
  - apply Z.ltb_lt in E. repeat constructor. unfold is_digit. apply andb_true_intro. rewrite !Z.leb_le. lia.
  - apply Forall_app. split; [apply IH; by apply Z.div_pos|]. repeat constructor.
    pose proof (Z.mod_pos_bound n 10). unfold is_digit. apply andb_true_intro. rewrite !Z.leb_le. lia.
Qed.

Lemma parse_digits_app w acc a b :
  parse_digits w acc (a ++ b) = parse_digits w acc a ≫= fun n => parse_digits w n b.
Proof.
  revert acc. induction a as [|c a IH]; intros acc; simpl; [done|].
  destruct (is_digit c); [|done]. destruct (_ <? _); [apply IH|done].
Qed.

Lemma parse_digit w acc d : 0 <= d < 10 -> acc * 10 + d < 2 ^ w -> parse_digits w acc [48 + d] = Some (acc * 10 + d).
Proof.
  intros Hd Hw. simpl. assert (is_digit (48 + d) = true) as ->.
  { unfold is_digit. apply andb_true_intro. rewrite !Z.leb_le. lia. }
  replace (48 + d - 48) with d by lia. by rewrite (proj2 (Z.ltb_lt _ _)).
Qed.

Lemma parse_digits_fuel w fuel n :
  0 <= n < 2 ^ w -> n < 10 * 2 ^ Z.of_nat fuel -> parse_digits w 0 (digits_fuel (S fuel) n) = Some n.
Proof.
  revert n. induction fuel as [|fuel IH]; intros n Hn Hf;
    (change (digits_fuel (S ?k) n) with (if n <? 10 then [48 + n] else digits_fuel k (n / 10) ++ [48 + n mod 10]);
     destruct (n <? 10) eqn:E; [apply Z.ltb_lt in E; apply (parse_digit w 0); lia|]);
    apply Z.ltb_ge in E; [simpl in Hf; lia|].
  pose proof (Z.div_mod n 10 ltac:(done)). pose proof (Z.mod_pos_bound n 10 ltac:(done)).
  rewrite Nat2Z.inj_succ, Z.pow_succ_r in Hf by lia.
  rewrite parse_digits_app, IH by lia. cbn [mbind option_bind]. rewrite parse_digit by lia. f_equal. lia.
Qed.

Lemma digits_word n : 0 <= n -> word_ok (digits n).
Proof.
  intros Hn. pose proof (digits_fuel_digits (S (Z.to_nat (Z.log2 n))) n Hn) as F. split.
  - unfold digits. simpl. destruct (n <? 10); [done|]. generalize (digits_fuel (Z.to_nat (Z.log2 n)) (n / 10)). by intros [|].
  - eapply Forall_impl; [exact F|]. intros c Hc. unfold is_digit, is_ascii_whitespace in *.
    apply andb_prop in Hc as [H1 H2]. apply Z.leb_le in H1, H2.
    by rewrite !(proj2 (Z.eqb_neq c _)) by lia.
Qed.

Lemma parse_digits_range w acc s n : 0 <= acc < 2 ^ w -> parse_digits w acc s = Some n -> 0 <= n < 2 ^ w.
Proof.
  revert acc. induction s as [|c s IH]; intros acc Ha; simpl; [by intros [= <-]|].
  destruct (is_digit c) eqn:D; [|done]. destruct (_ <? 2 ^ w) eqn:E; [|done]. apply IH.
  unfold is_digit in D. apply andb_prop in D as [D1 D2]. apply Z.leb_le in D1, D2. apply Z.ltb_lt in E. lia.
Qed.

Lemma parse_uint_range w s n : 0 <= w -> parse_uint w s = Some n -> 0 <= n < 2 ^ w.
Proof.
  intros Hw. assert (forall s', parse_digits w 0 s' = Some n -> 0 <= n < 2 ^ w) as P.
  { intros s'. apply parse_digits_range. split; [done|]. by apply Z.pow_pos_nonneg. }
  unfold parse_uint. destruct s as [|c s']; [done|].
  destruct c as [|p|p]; try apply P. repeat (destruct p as [p|p|]; try apply P). by destruct s' as [|c' s'']; [|apply P].
Qed.

(** What [Display] prints is parsed back. *)
Lemma parse_uint_digits w n : 0 <= n < 2 ^ w -> parse_uint w (digits n) = Some n.
Proof.
  intros Hn. assert (parse_digits w 0 (digits n) = Some n) as P.
  { apply parse_digits_fuel; [done|]. rewrite Z2Nat.id by apply Z.log2_nonneg.
    destruct (Z.eq_dec n 0) as [->|]; [done|].
    pose proof (Z.log2_spec n ltac:(lia)) as [_ L]. rewrite Z.pow_succ_r in L by apply Z.log2_nonneg. lia. }
  pose proof (digits_fuel_digits (S (Z.to_nat (Z.log2 n))) n ltac:(lia)) as F.
  fold (digits n) in F. destruct (digits_word n ltac:(lia)) as [Hne _].
  destruct (digits n) as [|c ds]; [done|]. unfold parse_uint.
  apply Forall_cons in F as [Hc _]. destruct (decide (c = 43)) as [->|Hc']; [done|].
  destruct c as [|p|p]; try done. repeat (destruct p; try done).
Qed.

(** ** Lemmas: plain lines *)

(** Characters that do not end a line. *)
Definition plain (l : text) : Prop := Forall (fun c => c <> NL /\ c <> CR) l.

Lemma plain_app a b : plain (a ++ b) <-> plain a /\ plain b.
Proof. apply Forall_app. Qed.

Lemma plain_cons c l : plain (c :: l) <-> (c <> NL /\ c <> CR) /\ plain l.
Proof. unfold plain. by rewrite Forall_cons. Qed.

Lemma plain_line_ok l : plain l -> line_ok l.
Proof.
  intros H. split; [eapply Forall_impl; [exact H|by intros c []]|].
  intros E. apply last_Some_elem_of in E. unfold plain in H. rewrite Forall_forall in H. by destruct (H _ E).
Qed.

Lemma no_ws_plain w : no_ws w -> plain w.
Proof. intros H. eapply Forall_impl; [exact H|]. intros c Hc. split; intros ->; done. Qed.

Lemma unwords_cons w l : unwords (w :: l) = match l with [] => w | _ => w ++ SP :: unwords l end.
Proof. by destruct l. Qed.

Lemma plain_unwords l : Forall word_ok l -> plain (unwords l).
Proof.
  induction 1 as [|w l [_ Hw] Hl IH]; [constructor|]. rewrite unwords_cons.
  destruct l; [by apply no_ws_plain|]. apply plain_app. split; [by apply no_ws_plain|].
  by apply plain_cons.
Qed.

(** Numbers separated by single spaces. *)
Definition numbers (ns : list Z) : text := unwords (digits <$> ns).
Definition u64s (ns : list Z) : Prop := Forall (fun n => 0 <= n < 2 ^ 64) ns.

Lemma numbers_words ns : u64s ns -> Forall word_ok (digits <$> ns).
Proof. induction 1 as [|n ns Hn _ IH]; constructor; [apply digits_word; lia|done]. Qed.

Lemma words_numbers ns : u64s ns -> words (numbers ns) = digits <$> ns.
Proof. intros. by apply words_unwords, numbers_words. Qed.

Lemma plain_numbers ns : u64s ns -> plain (numbers ns).
Proof. intros. by apply plain_unwords, numbers_words. Qed.

Lemma numbers_parsed ns : u64s ns -> (fun s => default 0 (parse_uint 64 s)) <$> (digits <$> ns) = ns.
Proof. induction 1 as [|n ns Hn _ IH]; [done|]. csimpl. by rewrite parse_uint_digits, IH. Qed.

Lemma numbers_lookup ns i n : u64s ns -> ns !! i = Some n -> (digits <$> ns) !! i ≫= parse_uint 64 = Some n.
Proof.
  intros Hns Hi. rewrite list_lookup_fmap, Hi. simpl. apply parse_uint_digits.
  unfold u64s in Hns. rewrite Forall_lookup in Hns. eauto.
Qed.

(** ** Lemmas: columns

    Words in columns, as the kernel pads them: [gaps i] more blanks than one come
    after the [i]-th word. *)
Fixpoint columns (gaps : nat -> nat) (l : list text) : text :=
  match l with
  | [] => []
  | w :: l' => w ++ match l' with [] => [] | _ => SP :: replicate (gaps 0%nat) SP ++ columns (fun i => gaps (S i)) l' end
  end.

Definition blanks (n : nat) : text := replicate n SP.

Lemma blanks_ws n : all_ws (blanks n).
Proof. by apply Forall_replicate. Qed.

Lemma blanks_plain n : plain (blanks n).
Proof. by apply Forall_replicate. Qed.

Lemma blanks_no c n : c <> SP -> c ∉ blanks n.
Proof. intros Hc [? _]%elem_of_replicate. congruence. Qed.

Lemma words_columns gaps l : Forall word_ok l -> words (columns gaps l) = l.
Proof.
  intros H. revert gaps. induction H as [|w l Hw Hl IH]; intros gaps; [done|]. cbn [columns].
  destruct l as [|w' l']; [by rewrite app_nil_r, words_last|].
  rewrite words_word by done. rewrite words_all_ws by apply blanks_ws. by rewrite IH.
Qed.

Lemma plain_columns gaps l : Forall word_ok l -> plain (columns gaps l).
Proof.
  intros H. revert gaps. induction H as [|w l [_ Hw] Hl IH]; intros gaps; [constructor|]. cbn [columns]. apply plain_app.
  split; [by apply no_ws_plain|]. destruct l; [constructor|]. apply plain_cons. split; [done|]. apply plain_app.
  split; [apply blanks_plain|apply IH].
Qed.

(** ** Lemmas: two decimals

    A number of hundredths, as [%lu.%02lu] prints it. *)
Definition hundredths (n : Z) : text := digits (n / 100) ++ [46; 48 + n / 10 mod 10; 48 + n mod 10].

Lemma is_digit_plus d : 0 <= d < 10 -> is_digit (48 + d) = true.
Proof. intros. unfold is_digit. apply andb_true_intro. rewrite !Z.leb_le. lia. Qed.

Lemma digits_are n : 0 <= n -> Forall (fun c => is_digit c = true) (digits n).
Proof. apply digits_fuel_digits. Qed.

Lemma span_all p a s : Forall (fun c => p c = true) a -> match s with c :: _ => p c = false | [] => True end -> span p (a ++ s) = (a, s).
Proof. intros H Hs. induction H as [|c a Hc _ IH]; simpl; [destruct s; [done|by simpl; rewrite Hs]|]. by rewrite Hc, IH. Qed.

Lemma digits_value_app a b : digits_value (a ++ b) = foldl (fun acc c => acc * 10 + (c - 48)) (digits_value a) b.
Proof. apply foldl_app. Qed.

Lemma digits_value_fuel fuel n : 0 <= n -> n < 10 * 2 ^ Z.of_nat fuel -> digits_value (digits_fuel (S fuel) n) = n.
Proof.
  revert n. induction fuel as [|fuel IH]; intros n Hn Hf;
    (change (digits_fuel (S ?k) n) with (if n <? 10 then [48 + n] else digits_fuel k (n / 10) ++ [48 + n mod 10]);
     destruct (n <? 10) eqn:E; [unfold digits_value; simpl; lia|]);
    apply Z.ltb_ge in E; [simpl in Hf; lia|].
  pose proof (Z.div_mod n 10 ltac:(done)). pose proof (Z.mod_pos_bound n 10 ltac:(done)).
  rewrite Nat2Z.inj_succ, Z.pow_succ_r in Hf by lia.
  rewrite digits_value_app, IH by lia. simpl. lia.
Qed.

Lemma digits_value_digits n : 0 <= n -> digits_value (digits n) = n.
Proof.
  intros Hn. apply digits_value_fuel; [done|]. rewrite Z2Nat.id by apply Z.log2_nonneg.
  destruct (decide (n = 0)) as [->|]; [done|]. pose proof (Z.log2_spec n ltac:(lia)). rewrite Z.pow_succ_r in * by apply Z.log2_nonneg. lia.
Qed.

Lemma hundredths_word n : 0 <= n -> word_ok (hundredths n).
Proof.
  intros Hn. destruct (digits_word (n / 100) ltac:(by apply Z.div_pos)) as [_ H]. split; [by unfold hundredths; destruct (digits _)|].
  apply Forall_app. split; [done|]. pose proof (Z.mod_pos_bound (n / 10) 10). pose proof (Z.mod_pos_bound n 10).
  repeat constructor; (unfold is_ascii_whitespace; rewrite !orb_false_iff, !Z.eqb_neq; lia).
Qed.

Lemma digit_head n : 0 <= n -> exists c r, digits n = c :: r /\ is_digit c = true.
Proof.
  intros Hn. pose proof (digits_are n Hn) as F. destruct (digits_word n Hn) as [Hne _]. destruct (digits n) as [|c r]; [done|].
  apply Forall_cons in F as [? _]. eauto.
Qed.

(** Read back, they are the number of hundredths, rounded to the type. *)
Lemma parse_hundredths t n : 0 <= n -> parse_float t (hundredths n) = Some (decimal_to_float t false n (-2)).
Proof.
  intros Hn. pose proof (Z.div_pos n 100 Hn eq_refl) as Hd. unfold hundredths.
  pose proof (Z.mod_pos_bound (n / 10) 10 eq_refl). pose proof (Z.mod_pos_bound n 10 eq_refl).
  pose proof (digits_value_digits (n / 100) Hd) as HV. pose proof (digits_are _ Hd) as HF.
  destruct (digit_head _ Hd) as (c & r & E & Hc). rewrite E in *.
  assert (Hc' : 48 <= c <= 57) by (unfold is_digit in Hc; lia).
  unfold parse_float.
  assert (split_sign ((c :: r) ++ [46; 48 + n / 10 mod 10; 48 + n mod 10]) = (false, (c :: r) ++ [46; 48 + n / 10 mod 10; 48 + n mod 10])) as ->.
  { unfold split_sign. cbn [app]. assert (c = 48 \/ c = 49 \/ c = 50 \/ c = 51 \/ c = 52 \/ c = 53 \/ c = 54 \/ c = 55 \/ c = 56 \/ c = 57) as D by lia.
    repeat destruct D as [->|D]; try done. by subst. }
  assert (Hl : lower c = c) by (unfold lower; rewrite (proj2 (Z.leb_gt 65 c)) by lia; done).
  assert (forall w s, w = str s -> head (str s) <> Some c -> lower <$> ((c :: r) ++ [46; 48 + n / 10 mod 10; 48 + n mod 10]) <> w) as NW.
  { intros w s -> Hh Hw. apply (f_equal head) in Hw. cbn in Hw. rewrite Hl in Hw. congruence. }
  rewrite !bool_decide_eq_false_2 by (eapply NW; [reflexivity|intros Hx; vm_compute in Hx; injection Hx as Hx; subst c; lia]). cbn [orb].
  rewrite span_all by done. cbn [span]. rewrite !is_digit_plus by done.
  cbn [app nonempty negb parse_exponent mbind option_bind]. do 2 f_equal.
  rewrite app_comm_cons, digits_value_app, HV. simpl.
  pose proof (Z.div_mod n 10 ltac:(done)). pose proof (Z.div_mod (n / 10) 10 ltac:(done)).
  assert (n / 10 / 10 = n / 100) by (by rewrite Z.div_div). lia.
Qed.

(** ** Lemmas: trimming *)

Definition no_uws (w : text) : Prop := Forall (fun c => is_whitespace c = false) w.

Lemma drop_while_all p a s : Forall (fun c => p c = true) a -> drop_while p (a ++ s) = drop_while p s.
Proof. induction 1 as [|c a Hc _ IH]; [done|]. simpl. by rewrite Hc. Qed.

Lemma drop_while_none p s : Forall (fun c => p c = false) s -> drop_while p s = s.
Proof. intros [|c s' Hc _]; [done|]. simpl. by rewrite Hc. Qed.

Lemma trim_word blanks w : Forall (fun c => is_whitespace c = true) blanks -> no_uws w -> trim (blanks ++ w) = w.
Proof.
  intros Hb Hw. unfold trim. rewrite drop_while_all, (drop_while_none _ w) by done.
  rewrite drop_while_none by (by apply List.Forall_rev).
  apply rev_involutive.
Qed.
