(* ===== verification/FloatOrder.v ===== *)
(** * Floating point: order

    The remaining operations on floats the analytics use, and how rounding sits in
    the order of numbers: results are canonical, canonical numbers compare as their
    values do, and a product or quotient stays on its side of every number of the
    format. *)

From Stdlib Require Import Floats.SpecFloat.
From S2P Require Import Prelude Float.

(** ** Operations *)

Definition fadd (t : FloatType) := SFadd (prec t) (emax t).
Definition fsub (t : FloatType) := SFsub (prec t) (emax t).
Definition fsqrt (t : FloatType) := SFsqrt (prec t) (emax t).

(** [x.mul_add(y, z)]: one rounding.  [SFadd] aligns its arguments as they are, so
    the product may be left unrounded. *)
Definition mul_add (t : FloatType) (x y z : spec_float) : spec_float :=
  match x, y, z with
  | S754_finite sx mx ex, S754_finite sy my ey, S754_finite _ _ _ =>
      fadd t (S754_finite (xorb sx sy) (mx * my) (ex + ey)) z
  | _, _, _ => fadd t (fmul t x y) z
  end.

(** [f32::min]: a NaN loses. *)
Definition fmin (x y : spec_float) : spec_float :=
  if is_nan x then y else if is_nan y then x else if SFltb y x then y else x.

Definition fgt (x y : spec_float) : bool := SFltb y x.

(** [x as u32], saturating. *)
Definition float_to_uint (w : Z) (x : spec_float) : Z :=
  match x with
  | S754_zero _ | S754_nan | S754_infinity true | S754_finite true _ _ => 0
  | S754_infinity false => 2 ^ w - 1
  | S754_finite false m e => Z.min (Z.shiftl (Zpos m) e) (2 ^ w - 1)
  end.

(** [f32::EPSILON]. *)
Definition F32_EPSILON : spec_float := S754_finite false 8388608 (-46).

(** ** Canonical numbers *)

#[local] Arguments Z.log2 : simpl never.
#[local] Arguments Z.pow : simpl never.

Section Order.
Context (prec emax : Z) (Hp : 1 < prec).

#[local] Notation fexp := (fexp prec emax).
#[local] Notation emin := (emin prec emax).
#[local] Notation scaled := (scaled prec emax).
#[local] Notation nonneg_number := (nonneg_number prec emax).
#[local] Notation excess := (excess prec emax).
#[local] Notation rounded := (rounded prec emax).
#[local] Notation round_aux := (binary_round_aux prec emax false).

(** A number of the format, not negative. *)
Definition canonical (x : spec_float) : Prop :=
  match x with
  | S754_zero _ => True
  | S754_finite false m e => fexp (Zdigits2 (Zpos m) + e) = e
  | _ => False
  end.

(** A mantissa with no fewer bits than its exponent needs. *)
Definition fine (m e : Z) : Prop := e <= fexp (Zdigits2 m + e).

Lemma canonical_number x : canonical x -> nonneg_number x.
Proof. destruct x as [|[]| |[] m e]; simpl; try done. intros <-. unfold SpecFloat.fexp. lia. Qed.

Lemma canonical_fine m e : canonical (S754_finite false m e) -> fine (Zpos m) e.
Proof. unfold canonical, fine. lia. Qed.

Lemma fexp_mono a b : a <= b -> fexp a <= fexp b.
Proof. unfold SpecFloat.fexp. lia. Qed.

Lemma excess_max m e : 0 < m -> e + excess m e = Z.max e (fexp (Z.log2 m + 1 + e)).
Proof. intros. unfold Float.excess. rewrite digits_log2 by done. generalize (fexp (Z.log2 m + 1 + e)). lia. Qed.

Lemma rounded_ge m e l : m / 2 ^ excess m e <= rounded m e l.
Proof. destruct (rounded_cases prec emax m e l) as [->|[-> _]]; lia. Qed.

(** The exponent of a rounding is not below the format's. *)
Lemma rounded_fine m e l : 0 < m -> fine m e -> 0 < rounded m e l -> fine (rounded m e l) (e + excess m e).
Proof.
  intros Hm Hf Hc. unfold fine in *. set (N := excess m e). assert (0 <= N) by (unfold N, Float.excess; lia).
  assert (0 < 2 ^ N) by (apply Z.pow_pos_nonneg; lia). rewrite !digits_log2 in * by done.
  assert (m / 2 ^ N <= rounded m e l) as Hq by apply rounded_ge.
  assert (e + N = Z.max e (fexp (Z.log2 m + 1 + e))) as HN by by apply excess_max.
  destruct (decide (0 < m / 2 ^ N)) as [Hq0|Hq0].
  - pose proof (Z.log2_le_mono _ _ Hq) as HL. rewrite log2_shift in HL by lia.
    pose proof (fexp_mono (Z.log2 m + 1 + e) (Z.log2 (rounded m e l) + 1 + (e + N)) ltac:(lia)). lia.
  - assert (m < 2 ^ N) as Hlt.
    { pose proof (Z.div_mod m (2 ^ N) ltac:(lia)). pose proof (Z.mod_pos_bound m (2 ^ N) ltac:(lia)).
      assert (0 <= m / 2 ^ N) by (apply Z.div_pos; lia). nia. }
    apply Z.log2_lt_pow2 in Hlt; [|done]. pose proof (Z.log2_nonneg (rounded m e l)).
    unfold SpecFloat.fexp in *. lia.
Qed.

Lemma round_aux_canonical m e l : 0 < m -> fine m e -> nonneg_number (round_aux m e l) -> canonical (round_aux m e l).
Proof.
  intros Hm Hf. destruct (round_aux_spec prec emax Hp false m e l Hm) as [[_ ->]|(p & Hpv & ->)]; [done|].
  set (e1 := e + excess m e) in *. set (e2 := e1 + excess (rounded m e l) e1) in *.
  destruct (e2 <=? emax - prec); [|done]. intros _. simpl.
  assert (0 <= e2 - e1) as H0 by (unfold e2, Float.excess; lia).
  assert (0 < rounded m e l) as Hc by (rewrite <- Hpv; apply Z.mul_pos_pos; [done|apply Z.pow_pos_nonneg; lia]).
  assert (Zdigits2 (rounded m e l) = Zdigits2 (Zpos p) + (e2 - e1)) as HD.
  { rewrite !digits_log2, <- Hpv, Z.log2_mul_pow2 by (done || lia). lia. }
  change (Z.pos (digits2_pos p)) with (Zdigits2 (Zpos p)). replace (Zdigits2 (Zpos p) + e2) with (Zdigits2 (rounded m e l) + e1) by lia.
  pose proof (rounded_fine m e l Hm Hf Hc) as HF. fold e1 in HF. unfold fine in HF.
  unfold e2, Float.excess. lia.
Qed.

(** A fine number that does not exceed [B * 2 ^ E] has an exponent that does not
    exceed [E]. *)
Lemma fine_le m e B E K : 0 < m -> fine m e -> emin <= E -> B < 2 ^ prec -> K <= e -> K <= E ->
  m * 2 ^ (e - K) <= B * 2 ^ (E - K) -> e <= E.
Proof.
  intros Hm Hf HE HB HKe HKE H. unfold fine in Hf. rewrite digits_log2 in Hf by done.
  assert (Z.log2 (m * 2 ^ (e - K)) < prec + (E - K)) as HL.
  { apply Z.log2_lt_pow2.
    - apply Z.mul_pos_pos; [done|apply Z.pow_pos_nonneg; lia].
    - rewrite Z.pow_add_r by lia. eapply Z.le_lt_trans; [exact H|]. apply Z.mul_lt_mono_pos_r; [apply Z.pow_pos_nonneg|]; lia. }
  rewrite Z.log2_mul_pow2 in HL by lia. unfold SpecFloat.fexp in Hf. lia.
Qed.

(** A number of the format that is reached is reached after rounding. *)
Lemma round_aux_ge m e l B E : 0 < m -> fine m e -> emin <= E -> 0 <= B < 2 ^ prec ->
  (e <= E -> B * 2 ^ (E - e) <= m) -> nonneg_number (round_aux m e l) ->
  B * 2 ^ (E - emin) <= scaled (round_aux m e l).
Proof.
  intros Hm Hf HE HB HBm Hn. rewrite round_aux_value by done.
  pose proof (excess_emin prec emax m e) as HX. set (N := excess m e) in *. assert (0 <= N) by (unfold N, Float.excess; lia).
  assert (0 < 2 ^ N) by (apply Z.pow_pos_nonneg; lia).
  assert (m / 2 ^ N <= rounded m e l) as Hq by apply rounded_ge.
  destruct (decide (e + N <= E)) as [Hle|Hgt].
  - replace (E - emin) with (E - (e + N) + (e + N - emin)) by lia. rewrite Z.pow_add_r, Z.mul_assoc by lia.
    apply Z.mul_le_mono_nonneg_r; [apply Z.pow_nonneg; lia|]. etrans; [|exact Hq]. apply Z.div_le_lower_bound; [lia|].
    rewrite Z.mul_comm, <- Z.mul_assoc, <- Z.pow_add_r by lia. replace (E - (e + N) + N) with (E - e) by lia. apply HBm. lia.
  - unfold fine in Hf. pose proof (excess_max m e Hm) as HN. fold N in HN. rewrite digits_log2 in Hf by done.
    assert (e + N = Z.log2 m + 1 + e - prec) as HN' by (unfold SpecFloat.fexp in *; lia).
    pose proof (Z.log2_spec m Hm) as [HL _].
    assert (2 ^ (prec - 1) <= m / 2 ^ N) as Hq2.
    { apply Z.div_le_lower_bound; [lia|]. rewrite <- Z.pow_add_r by lia. by replace (N + (prec - 1)) with (Z.log2 m) by lia. }
    transitivity (2 ^ (prec - 1) * 2 ^ (e + N - emin)).
    + rewrite <- Z.pow_add_r by lia. transitivity (2 ^ prec * 2 ^ (E - emin)).
      * apply Z.mul_le_mono_nonneg_r; [apply Z.pow_nonneg|]; lia.
      * rewrite <- Z.pow_add_r by lia. apply Z.pow_le_mono_r; lia.
    + apply Z.mul_le_mono_nonneg_r; [apply Z.pow_nonneg|]; lia.
Qed.
(** *** Comparison *)

Lemma canonical_digits m e : canonical (S754_finite false m e) -> emin <= e /\ Z.log2 (Zpos m) < prec /\
  (emin < e -> Z.log2 (Zpos m) = prec - 1).
Proof. simpl. change (Zpos (digits2_pos m)) with (Zdigits2 (Zpos m)). rewrite digits_log2 by done. unfold SpecFloat.fexp. lia. Qed.

Lemma scaled_lt_exponent m1 e1 m2 e2 : canonical (S754_finite false m1 e1) -> canonical (S754_finite false m2 e2) ->
  e1 < e2 -> scaled (S754_finite false m1 e1) < scaled (S754_finite false m2 e2).
Proof.
  intros (E1 & L1 & _)%canonical_digits (E2 & _ & L2)%canonical_digits He. simpl.
  pose proof (Z.log2_spec (Zpos m1) ltac:(done)) as [_ S1]. pose proof (Z.log2_spec (Zpos m2) ltac:(done)) as [S2 _].
  rewrite L2 in S2 by lia.
  apply (Z.lt_le_trans _ (2 ^ prec * 2 ^ (e1 - emin))).
  - apply Z.mul_lt_mono_pos_r; [apply Z.pow_pos_nonneg; lia|]. eapply Z.lt_le_trans; [exact S1|]. apply Z.pow_le_mono_r; lia.
  - rewrite <- Z.pow_add_r by lia. transitivity (2 ^ (prec - 1) * 2 ^ (e2 - emin)).
    + rewrite <- Z.pow_add_r by lia. apply Z.pow_le_mono_r; lia.
    + apply Z.mul_le_mono_nonneg_r; [apply Z.pow_nonneg|]; lia.
Qed.

Lemma ltb_scaled x y : canonical x -> canonical y -> SFltb x y = (scaled x <? scaled y).
Proof.
  intros Hx Hy. pose proof (canonical_number _ Hx) as Nx. pose proof (canonical_number _ Hy) as Ny.
  destruct x as [|[]| |[] m1 e1], y as [|[]| |[] m2 e2]; try done; unfold SFltb, SFcompare.
  - symmetry. apply Z.ltb_lt. simpl in *. apply Z.mul_pos_pos; [done|apply Z.pow_pos_nonneg; lia].
  - symmetry. apply Z.ltb_ge. simpl in *. apply Z.mul_nonneg_nonneg; [done|apply Z.pow_nonneg; lia].
  - destruct (Z.compare_spec e1 e2) as [->|Hlt|Hgt].
    + simpl. change (Pos.compare_cont Eq m1 m2) with (Pos.compare m1 m2). simpl in Nx.
      assert (0 < 2 ^ (e2 - emin)) as P by (apply Z.pow_pos_nonneg; lia).
      destruct (Pos.compare_spec m1 m2) as [->|Hm|Hm]; symmetry; [apply Z.ltb_ge|apply Z.ltb_lt|apply Z.ltb_ge]; nia.
    + symmetry. apply Z.ltb_lt. by apply scaled_lt_exponent.
    + symmetry. apply Z.ltb_ge. apply Z.lt_le_incl. by apply scaled_lt_exponent.
Qed.

(** *** Products *)

Lemma digits_mul a b : 0 < a -> 0 < b -> Z.log2 a + Z.log2 b <= Z.log2 (a * b).
Proof. intros. pose proof (Z.log2_mul_below a b). lia. Qed.

Lemma mul_fine m1 e1 m2 e2 : canonical (S754_finite false m1 e1) -> canonical (S754_finite false m2 e2) ->
  emin <= 0 -> fine (Zpos (m1 * m2)) (e1 + e2).
Proof.
  intros (E1 & L1 & N1)%canonical_digits (E2 & L2 & N2)%canonical_digits He. unfold fine.
  rewrite digits_log2, Pos2Z.inj_mul by done. pose proof (digits_mul (Zpos m1) (Zpos m2) ltac:(done) ltac:(done)).
  pose proof (Z.log2_nonneg (Zpos m1)). pose proof (Z.log2_nonneg (Zpos m2)). unfold SpecFloat.fexp.
  destruct (decide (emin < e1)), (decide (emin < e2)); lia.
Qed.

Lemma scaled_mul m1 e1 m2 e2 : emin <= e1 -> emin <= e2 ->
  scaled (S754_finite false m1 e1) * scaled (S754_finite false m2 e2) = Zpos (m1 * m2) * 2 ^ (e1 + e2 - 2 * emin).
Proof.
  intros H1 H2. simpl. replace (e1 + e2 - 2 * emin) with (e1 - emin + (e2 - emin)) by lia.
  rewrite Z.pow_add_r, Pos2Z.inj_mul by lia. ring.
Qed.

Lemma mul_le x y B E : emin <= 0 -> canonical x -> canonical y -> emin <= E <= emax - prec -> 0 <= B < 2 ^ prec ->
  scaled x * scaled y <= B * 2 ^ (E - 2 * emin) ->
  canonical (SFmul prec emax x y) /\ scaled (SFmul prec emax x y) <= B * 2 ^ (E - emin).
Proof.
  intros He Hx Hy HE HB H. assert (0 <= B * 2 ^ (E - emin)) as H0 by (apply Z.mul_nonneg_nonneg; [lia|apply Z.pow_nonneg; lia]).
  destruct x as [|[]| |[] m1 e1], y as [|[]| |[] m2 e2]; try done.
  pose proof (canonical_number _ Hx) as Nx. pose proof (canonical_number _ Hy) as Ny. simpl in Nx, Ny.
  rewrite scaled_mul in H by done. pose proof (mul_fine _ _ _ _ Hx Hy He) as Hf. unfold SFmul. simpl xorb.
  assert (e1 + e2 <= E) as HeE by (eapply (fine_le (Zpos (m1 * m2)) _ B E (2 * emin)); done || lia).
  destruct (round_aux_le prec emax Hp false (Zpos (m1 * m2)) (e1 + e2) loc_Exact B E) as [R1 R2]; try done.
  - apply (Z.mul_le_mono_pos_r _ _ (2 ^ (e1 + e2 - 2 * emin))); [apply Z.pow_pos_nonneg; lia|].
    rewrite <- Z.mul_assoc, <- Z.pow_add_r by lia. by replace (E - (e1 + e2) + (e1 + e2 - 2 * emin)) with (E - 2 * emin) by lia.
  - split; [|done]. by apply round_aux_canonical.
Qed.

Lemma mul_ge x y B E : emin <= 0 -> canonical x -> canonical y -> canonical (SFmul prec emax x y) -> emin <= E -> 0 <= B < 2 ^ prec ->
  0 < B -> B * 2 ^ (E - 2 * emin) <= scaled x * scaled y -> B * 2 ^ (E - emin) <= scaled (SFmul prec emax x y).
Proof.
  intros He Hx Hy Hc HE HB HB0 H. assert (0 < B * 2 ^ (E - 2 * emin)) as H0 by (apply Z.mul_pos_pos; [lia|apply Z.pow_pos_nonneg; lia]).
  destruct x as [|[]| |[] m1 e1], y as [|[]| |[] m2 e2]; try done; try (simpl in H; lia).
  pose proof (canonical_number _ Hx) as Nx. pose proof (canonical_number _ Hy) as Ny. simpl in Nx, Ny.
  rewrite scaled_mul in H by done. pose proof (mul_fine _ _ _ _ Hx Hy He) as Hf.
  apply round_aux_ge; try done; [|by apply canonical_number].
  intros HeE. apply (Z.mul_le_mono_pos_r _ _ (2 ^ (e1 + e2 - 2 * emin))); [apply Z.pow_pos_nonneg; lia|].
  rewrite <- Z.mul_assoc, <- Z.pow_add_r by lia. by replace (E - (e1 + e2) + (e1 + e2 - 2 * emin)) with (E - 2 * emin) by lia.
Qed.

(** *** Quotients *)

(** The quotient before rounding: [q] units of [2 ^ e], rounded down. *)
Lemma div_core m1 e1 m2 e2 : canonical (S754_finite false m1 e1) -> canonical (S754_finite false m2 e2) ->
  exists q e l, SFdiv prec emax (S754_finite false m1 e1) (S754_finite false m2 e2) = round_aux q e l /\
    (emin <= Z.log2 (Zpos m1) + e1 - (Z.log2 (Zpos m2) + e2) - prec -> 0 < q) /\ fine q e /\
    forall K, 0 <= K -> - e <= K ->
      let sx := scaled (S754_finite false m1 e1) in
      let sy := scaled (S754_finite false m2 e2) in
      q * sy * 2 ^ (e + K) <= sx * 2 ^ K < (q + 1) * sy * 2 ^ (e + K) /\
      (exact l = false -> q * sy * 2 ^ (e + K) < sx * 2 ^ K).
Proof.
  intros (E1 & _ & _)%canonical_digits (E2 & _ & _)%canonical_digits. unfold SFdiv, SFdiv_core_binary. rewrite !digits_log2 by done.
  set (l1 := Z.log2 (Zpos m1)). set (l2 := Z.log2 (Zpos m2)).
  set (F := fexp (l1 + 1 + e1 - (l2 + 1 + e2))). set (e := Z.min F (e1 - e2)). set (s := e1 - e2 - e). assert (0 <= s) by lia.
  replace (match s with Zpos _ => Z.shiftl (Zpos m1) s | Z0 => Zpos m1 | Zneg _ => Z0 end) with (Zpos m1 * 2 ^ s)
    by (destruct s; [lia|by rewrite Z.shiftl_mul_pow2|lia]).
  set (m := Zpos m1 * 2 ^ s). rewrite (surjective_pairing (Z.div_eucl m (Zpos m2))).
  change (Z.div_eucl m (Zpos m2)).1 with (m / Zpos m2). change (Z.div_eucl m (Zpos m2)).2 with (m mod Zpos m2).
  pose proof (Z.div_mod m (Zpos m2) ltac:(done)) as DM. pose proof (Z.mod_pos_bound m (Zpos m2) ltac:(done)) as MB.
  set (q := m / Zpos m2) in *. set (r := m mod Zpos m2) in *.
  assert (0 < m) as Hm by (apply Z.mul_pos_pos; [done|apply Z.pow_pos_nonneg; lia]).
  assert (0 <= q) as Hq by (apply Z.div_pos; lia).
  pose proof (Z.log2_spec (Zpos m1) ltac:(done)) as [A1 A2]. pose proof (Z.log2_spec (Zpos m2) ltac:(done)) as [B1 B2]. fold l1 in A1, A2. fold l2 in B1, B2.
  assert (2 ^ (l1 + s) <= m) as Hlow by (rewrite Z.pow_add_r by (try done; apply Z.log2_nonneg); apply Z.mul_le_mono_nonneg_r; [apply Z.pow_nonneg|]; lia).
  assert (forall k, 0 <= k -> l2 + 1 + k <= l1 + s -> 2 ^ k <= q) as HqL.
  { intros k Hk Hkl. apply Z.div_le_lower_bound; [done|]. etrans; [|exact Hlow]. transitivity (2 ^ (l2 + 1) * 2 ^ k).
    - apply Z.mul_le_mono_nonneg_r; [apply Z.pow_nonneg; lia|]. rewrite Z.add_1_r. lia.
    - rewrite <- Z.pow_add_r by (try done; unfold l2; pose proof (Z.log2_nonneg (Zpos m2)); lia). apply Z.pow_le_mono_r; lia. }
  exists q, e, (new_location (Zpos m2) r). split; [done|]. split; [|split].
  - intros HF. assert (2 ^ 0 <= q); [|lia]. apply HqL; [done|]. unfold F, SpecFloat.fexp in *. lia.
  - unfold fine. destruct (decide (q = 0)) as [Eq|Eq].
    + rewrite Eq. change (Zdigits2 0) with 0. pose proof (fexp_ge prec emax (0 + e)) as HG.
      assert (l1 + s < l2 + 1) as Hs. { destruct (decide (l2 + 1 + 0 <= l1 + s)) as [Hd|]; [|lia]. pose proof (HqL 0 ltac:(done) Hd). lia. }
      assert (e <= emin); [|lia]. assert (F = Z.max (l1 + 1 + e1 - (l2 + 1 + e2) - prec) emin) by done. lia.
    + rewrite digits_log2 by lia.
      assert (l1 + s - l2 - 1 <= Z.log2 q) as HL.
      { destruct (decide (0 <= l1 + s - l2 - 1)); [|pose proof (Z.log2_nonneg q); lia].
        rewrite <- (Z.log2_pow2 (l1 + s - l2 - 1)) by done. apply Z.log2_le_mono, HqL; lia. }
      pose proof (fexp_mono (l1 + 1 + e1 - (l2 + 1 + e2)) (Z.log2 q + 1 + e) ltac:(lia)) as HF. fold F in HF. lia.
  - intros K HK HKe. cbv zeta. rewrite exact_new_location by done. unfold Float.scaled.
    assert (forall a, a * (Zpos m2 * 2 ^ (e2 - emin)) * 2 ^ (e + K) = a * Zpos m2 * 2 ^ (e2 - emin + (e + K))) as R.
    { intros a. rewrite (Z.pow_add_r 2 (e2 - emin) (e + K)) by lia. ring. }
    rewrite !R.
    assert (Zpos m1 * 2 ^ (e1 - emin) * 2 ^ K = m * 2 ^ (e2 - emin + (e + K))) as ->.
    { unfold m. rewrite <- !Z.mul_assoc, <- !Z.pow_add_r by lia. do 2 f_equal. lia. }
    assert (0 < 2 ^ (e2 - emin + (e + K))) by (apply Z.pow_pos_nonneg; lia).
    split; [split|].
    + apply Z.mul_le_mono_nonneg_r; lia.
    + apply Z.mul_lt_mono_pos_r; lia.
    + intros Hr. apply Z.eqb_neq in Hr. apply Z.mul_lt_mono_pos_r; lia.
Qed.

Lemma log2_scaled m e : emin <= e -> Z.log2 (scaled (S754_finite false m e)) = Z.log2 (Zpos m) + e - emin.
Proof. intros. unfold Float.scaled. rewrite Z.log2_mul_pow2 by lia. lia. Qed.

(** The quotient does not underflow. *)
Definition no_underflow (x y : spec_float) : Prop :=
  0 < scaled x /\ 0 < scaled y /\ emin + prec <= Z.log2 (scaled x) - Z.log2 (scaled y).

Lemma div_le_gen x y B E : canonical x -> canonical y -> no_underflow x y -> emin <= E <= emax - prec -> 0 <= B < 2 ^ prec ->
  scaled x * 2 ^ Z.max 0 (- E) <= B * 2 ^ Z.max 0 E * scaled y ->
  canonical (SFdiv prec emax x y) /\ scaled (SFdiv prec emax x y) <= B * 2 ^ (E - emin).
Proof.
  intros Hx Hy (Px & Py & Hu) HE HB H.
  destruct x as [|[]| |[] m1 e1], y as [|[]| |[] m2 e2]; try done; try (simpl in Px, Py; lia).
  destruct (div_core _ _ _ _ Hx Hy) as (q & e & l & -> & Hq & Hf & HK).
  rewrite !log2_scaled in Hu by (by apply canonical_number in Hx, Hy).
  specialize (Hq ltac:(lia)). set (sx := scaled (S754_finite false m1 e1)) in *. set (sy := scaled (S754_finite false m2 e2)) in *.
  destruct (HK (Z.max 0 (Z.max (- e) (- E))) ltac:(lia) ltac:(lia)) as [[HK1 HK2] HK3]. cbv zeta in HK1, HK3. fold sx sy in HK1, HK3.
  set (K := Z.max 0 (Z.max (- e) (- E))) in *.
  assert (sx * 2 ^ K <= B * 2 ^ (E + K) * sy) as HB2.
  { replace K with (Z.max 0 (- E) + (K - Z.max 0 (- E))) at 1 by lia. rewrite Z.pow_add_r, Z.mul_assoc by lia.
    replace (E + K) with (Z.max 0 E + (K - Z.max 0 (- E))) by lia. rewrite (Z.pow_add_r _ (Z.max 0 E)) by lia.
    replace (B * (2 ^ Z.max 0 E * 2 ^ (K - Z.max 0 (- E))) * sy) with (B * 2 ^ Z.max 0 E * sy * 2 ^ (K - Z.max 0 (- E))) by ring.
    apply Z.mul_le_mono_nonneg_r; [apply Z.pow_nonneg; lia|done]. }
  assert (q * 2 ^ (e + K) <= B * 2 ^ (E + K)) as Hqe by (apply (Z.mul_le_mono_pos_r _ _ sy); [done|lia]).
  assert (e <= E) as HeE by (eapply (fine_le q e B E (- K)); try done; try lia; by rewrite !Z.sub_opp_r).
  assert (0 < 2 ^ (e + K)) as PK by (apply Z.pow_pos_nonneg; lia).
  replace (E + K) with (E - e + (e + K)) in * by lia. rewrite (Z.pow_add_r _ (E - e)), Z.mul_assoc in Hqe, HB2 by lia.
  destruct (round_aux_le prec emax Hp false q e l B E) as [R1 R2]; try done.
  - destruct (exact l) eqn:El; [by apply (Z.mul_le_mono_pos_r _ _ (2 ^ (e + K)))|]. specialize (HK3 eq_refl).
    assert (q * 2 ^ (e + K) * sy < B * 2 ^ (E - e) * 2 ^ (e + K) * sy) as Hlt by lia.
    apply Z.mul_lt_mono_pos_r in Hlt; [|done]. apply Z.mul_lt_mono_pos_r in Hlt; [lia|done].
  - split; [|done]. by apply round_aux_canonical.
Qed.

Lemma div_le x y B E : canonical x -> canonical y -> no_underflow x y -> emin <= E <= 0 -> E <= emax - prec -> 0 <= B < 2 ^ prec ->
  scaled x * 2 ^ (- E) <= B * scaled y ->
  canonical (SFdiv prec emax x y) /\ scaled (SFdiv prec emax x y) <= B * 2 ^ (E - emin).
Proof.
  intros Hx Hy Hu HE HEm HB H. apply div_le_gen; try done; [lia|]. rewrite (Z.max_r 0 (- E)), (Z.max_l 0 E) by lia. by rewrite Z.mul_1_r.
Qed.

Lemma div_ge x y B E : canonical x -> canonical y -> no_underflow x y -> canonical (SFdiv prec emax x y) -> emin <= E <= 0 -> 0 <= B < 2 ^ prec ->
  B * scaled y <= scaled x * 2 ^ (- E) -> B * 2 ^ (E - emin) <= scaled (SFdiv prec emax x y).
Proof.
  intros Hx Hy (Px & Py & Hu) Hc HE HB H.
  destruct x as [|[]| |[] m1 e1], y as [|[]| |[] m2 e2]; try done; try (simpl in Px, Py; lia).
  destruct (div_core _ _ _ _ Hx Hy) as (q & e & l & Ed & Hq & Hf & HK). rewrite Ed in *.
  rewrite !log2_scaled in Hu by (by apply canonical_number in Hx, Hy).
  specialize (Hq ltac:(lia)). set (sx := scaled (S754_finite false m1 e1)) in *. set (sy := scaled (S754_finite false m2 e2)) in *.
  apply round_aux_ge; try done; [lia| |by apply canonical_number]. intros HeE.
  destruct (HK (- e) ltac:(lia) ltac:(lia)) as [[_ HK2] _]. cbv zeta in HK2. fold sx sy in HK2.
  rewrite Z.add_opp_diag_r, Z.pow_0_r, Z.mul_1_r in HK2.
  assert (B * 2 ^ (E - e) * sy < (q + 1) * sy) as Hlt.
  { eapply Z.le_lt_trans; [|exact HK2]. replace (- e) with (- E + (E - e)) by lia. rewrite Z.pow_add_r, Z.mul_assoc by lia.
    replace (B * 2 ^ (E - e) * sy) with (B * sy * 2 ^ (E - e)) by ring. apply Z.mul_le_mono_nonneg_r; [apply Z.pow_nonneg; lia|done]. }
  apply Z.mul_lt_mono_pos_r in Hlt; [lia|done].
Qed.

(** A quotient between two powers of two is a positive number. *)
Lemma div_positive x y E E' : canonical x -> canonical y -> no_underflow x y -> emin <= E' <= 0 -> 0 <= E <= emax - prec -> emin <= E ->
  scaled x <= 2 ^ E * scaled y -> scaled y <= scaled x * 2 ^ (- E') -> exists p e, SFdiv prec emax x y = S754_finite false p e.
Proof.
  intros Hx Hy Hu HE' HE HEm Hle Hge. assert (1 < 2 ^ prec) by (apply Z.pow_gt_1; lia).
  destruct (div_le_gen x y 1 E Hx Hy Hu) as [D1 _]; [lia|lia| |].
  { rewrite (Z.max_l 0 (- E)), (Z.max_r 0 E), Z.mul_1_r, Z.mul_1_l by lia. done. }
  pose proof (div_ge x y 1 E' Hx Hy Hu D1 ltac:(lia) ltac:(lia)) as D2. rewrite Z.mul_1_l in D2. specialize (D2 Hge).
  assert (0 < 1 * 2 ^ (E' - emin)) by (apply Z.mul_pos_pos; [done|apply Z.pow_pos_nonneg; lia]).
  destruct (SFdiv prec emax x y) as [|[]| |[] p e]; try done; try (simpl in D2; lia). by exists p, e.
Qed.

(** *** Integers *)

Lemma of_int_canonical n : emin <= 0 -> 64 <= emax - prec -> 0 < n < 2 ^ 64 -> canonical (binary_normalize prec emax n 0 false).
Proof.
  intros H1 H2 Hn. destruct (of_int_value prec emax Hp H1 H2 n Hn) as [HN _].
  destruct n as [|p|p]; [lia| |lia]. unfold binary_normalize, binary_round in *.
  destruct (shl_align_spec p 0 (fexp (Zpos (digits2_pos p) + 0))) as (mz & Es & Hmz). rewrite Es in *.
  apply round_aux_canonical; [done| |exact HN]. unfold fine.
  change (Zpos (digits2_pos p)) with (Zdigits2 (Zpos p)) in *.
  rewrite (digits_log2 (Zpos p)) in * by done. rewrite (digits_log2 (Zpos mz)) by done.
  set (F := fexp (Z.log2 (Zpos p) + 1 + 0)) in *.
  assert (Z.log2 (Zpos mz) = Z.log2 (Zpos p) + (0 - Z.min 0 F)) as -> by (rewrite Hmz, Z.log2_mul_pow2; lia).
  replace (_ + Z.min 0 F) with (Z.log2 (Zpos p) + 1 + 0) by lia. fold F. lia.
Qed.

Lemma of_int_exact n : emin <= 0 -> 64 <= emax - prec -> prec <= 64 -> 0 < n < 2 ^ prec -> scaled (binary_normalize prec emax n 0 false) = n * 2 ^ (- emin).
Proof.
  intros H1 H2 H3 Hn. assert (2 ^ prec <= 2 ^ 64) by (apply Z.pow_le_mono_r; lia).
  destruct (of_int_value prec emax Hp H1 H2 n ltac:(lia)) as [_ ->]. pose proof (proj1 (Z.log2_lt_pow2 n prec ltac:(lia)) ltac:(lia)).
  unfold Float.rounded. rewrite (excess_int prec emax H1) by lia. rewrite Z.max_l by lia.
  unfold kept_loc. simpl. by rewrite Z.div_1_r.
Qed.
End Order.

(** ** Percentages in double precision *)

#[local] Notation scaled64 := (scaled 53 1024).
#[local] Notation canonical64 := (canonical 53 1024).

(** [(u as f64 / r as f64) * 100.0]. *)
Definition percent64 (u r : Z) : spec_float :=
  fmul F64 (fdiv F64 (float_of_int F64 u) (float_of_int F64 r)) (float_of_int F64 100).

Lemma f64_of_u64 n : 0 < n < 2 ^ 64 -> canonical64 (float_of_int F64 n) /\ 2 ^ 1074 <= scaled64 (float_of_int F64 n) <= 2 ^ 1138.
Proof.
  intros Hn. split; [by apply of_int_canonical|]. unfold float_of_int. simpl prec. simpl emax. split.
  - change (2 ^ 1074) with (scaled64 (binary_normalize 53 1024 1 0 false)). apply of_int_mono; done || lia.
  - change (2 ^ 1138) with (scaled64 (binary_normalize 53 1024 (2 ^ 64 - 1) 0 false)). apply of_int_mono; done || lia.
Qed.

Lemma f64_mono a b : 0 < a <= b -> b < 2 ^ 64 -> scaled64 (float_of_int F64 a) <= scaled64 (float_of_int F64 b).
Proof. intros. by apply (of_int_mono 53 1024). Qed.

Lemma f64_exact n : 0 < n < 2 ^ 53 -> scaled64 (float_of_int F64 n) = n * 2 ^ 1074.
Proof. intros. by apply (of_int_exact 53 1024). Qed.

Lemma f64_no_underflow u r : 0 < u < 2 ^ 64 -> 0 < r < 2 ^ 64 ->
  no_underflow 53 1024 (float_of_int F64 u) (float_of_int F64 r).
Proof.
  intros Hu Hr. destruct (f64_of_u64 u Hu) as [_ [U1 U2]], (f64_of_u64 r Hr) as [_ [R1 R2]].
  assert (0 < 2 ^ 1074) by done. split; [lia|]. split; [lia|].
  pose proof (Z.log2_le_mono _ _ U1) as L1. pose proof (Z.log2_le_mono _ _ R2) as L2.
  rewrite Z.log2_pow2 in L1, L2 by done. change (SpecFloat.emin 53 1024) with (-1074). lia.
Qed.

Section Percent.
Context (u r : Z) (Hu : 0 < u < 2 ^ 64) (Hr : 0 < r < 2 ^ 64).
#[local] Notation U := (scaled64 (float_of_int F64 u)).
#[local] Notation R := (scaled64 (float_of_int F64 r)).
#[local] Notation quotient := (SFdiv 53 1024 (float_of_int F64 u) (float_of_int F64 r)).

Lemma quotient_le B E : -1074 <= E <= 0 -> 0 <= B < 2 ^ 53 -> U * 2 ^ (- E) <= B * R ->
  canonical64 quotient /\ scaled64 quotient <= B * 2 ^ (E + 1074).
Proof.
  intros HE HB H. apply (div_le 53 1024 ltac:(done) (float_of_int F64 u) (float_of_int F64 r) B E);
    [by apply f64_of_u64|by apply f64_of_u64|by apply f64_no_underflow|by change (SpecFloat.emin 53 1024) with (-1074)|lia|done|done].
Qed.

Lemma percent_canonical : U <= 2 ^ 45 * R -> canonical64 quotient /\ canonical64 (percent64 u r).
Proof.
  intros H. destruct (quotient_le (2 ^ 45) 0 ltac:(done) ltac:(done)) as [Q1 Q2]; [simpl; lia|]. split; [done|].
  destruct (mul_le 53 1024 ltac:(done) quotient (float_of_int F64 100) (100 * 2 ^ 45) 0) as [M1 _]; try done.
  change (scaled64 (float_of_int F64 100)) with (100 * 2 ^ 1074).
  change (0 - 2 * SpecFloat.emin 53 1024) with (1074 + 1074). rewrite Z.pow_add_r by done. change (0 + 1074) with 1074 in Q2.
  assert (0 < 2 ^ 1074) by done. nia.
Qed.

(** At most [k] per cent gives at most [k + 1]. *)
Lemma percent_le k : 0 <= k <= 2 ^ 10 -> 100 * U <= k * R -> canonical64 (percent64 u r) /\ scaled64 (percent64 u r) <= (k + 1) * 2 ^ 1074.
Proof.
  intros Hk H. set (B := k * 2 ^ 42 / 100 + 1).
  pose proof (Z.div_mod (k * 2 ^ 42) 100 ltac:(done)) as DM. pose proof (Z.mod_pos_bound (k * 2 ^ 42) 100 ltac:(done)) as MB.
  assert (k * 2 ^ 42 <= 100 * B <= k * 2 ^ 42 + 100) as HB by (unfold B; lia). clearbody B. clear DM MB.
  destruct (f64_of_u64 r Hr) as [_ [R1 _]]. assert (0 < 2 ^ 1074) as P by done.
  destruct (quotient_le B (-42) ltac:(done) ltac:(lia)) as [Q1 Q2].
  { change (- -42) with 42. apply (Z.mul_le_mono_pos_l _ _ 100); [done|].
    transitivity (k * 2 ^ 42 * R); [|rewrite (Z.mul_assoc 100); apply Z.mul_le_mono_nonneg_r; lia].
    replace (100 * (U * 2 ^ 42)) with (100 * U * 2 ^ 42) by ring. replace (k * 2 ^ 42 * R) with (k * R * 2 ^ 42) by ring.
    apply Z.mul_le_mono_nonneg_r; [done|exact H]. }
  destruct (mul_le 53 1024 ltac:(done) quotient (float_of_int F64 100) (k + 1) 0) as [M1 M2]; try done; [lia|].
  change (scaled64 (float_of_int F64 100)) with (100 * 2 ^ 1074).
  change (0 - 2 * SpecFloat.emin 53 1024) with (1074 + 1074). rewrite Z.pow_add_r by done.
  replace (-42 + 1074) with 1032 in Q2 by done.
  transitivity (B * 2 ^ 1032 * (100 * 2 ^ 1074)); [apply Z.mul_le_mono_nonneg_r; [lia|exact Q2]|].
  replace (B * 2 ^ 1032 * (100 * 2 ^ 1074)) with (100 * B * 2 ^ 1032 * 2 ^ 1074) by ring. rewrite Z.mul_assoc.
  apply Z.mul_le_mono_nonneg_r; [lia|]. change (2 ^ 1074) with (2 ^ 42 * 2 ^ 1032) at 1. rewrite Z.mul_assoc.
  apply Z.mul_le_mono_nonneg_r; [done|]. lia.
Qed.

(** At least [k] per cent gives at least [k - 1]. *)
Lemma percent_ge k : 2 <= k <= 2 ^ 10 -> k * R <= 100 * U -> U <= 2 ^ 45 * R -> (k - 1) * 2 ^ 1074 <= scaled64 (percent64 u r).
Proof.
  intros Hk H Hc. destruct (percent_canonical Hc) as [Q1 M1]. set (B := k * 2 ^ 42 / 100).
  pose proof (Z.div_mod (k * 2 ^ 42) 100 ltac:(done)) as DM. pose proof (Z.mod_pos_bound (k * 2 ^ 42) 100 ltac:(done)) as MB.
  assert (k * 2 ^ 42 - 100 <= 100 * B <= k * 2 ^ 42) as HB by (unfold B; lia). clearbody B. clear DM MB.
  destruct (f64_of_u64 r Hr) as [CR [R1 _]], (f64_of_u64 u Hu) as [CU _]. assert (0 < 2 ^ 1074) as P by done.
  assert (B * 2 ^ 1032 <= scaled64 quotient) as Q2.
  { apply (div_ge 53 1024 ltac:(done) _ _ B (-42) CU CR (f64_no_underflow u r Hu Hr) Q1); [done|lia|].
    change (- -42) with 42. apply (Z.mul_le_mono_pos_l _ _ 100); [done|]. transitivity (k * 2 ^ 42 * R).
    - rewrite Z.mul_assoc. apply Z.mul_le_mono_nonneg_r; lia.
    - replace (100 * (U * 2 ^ 42)) with (100 * U * 2 ^ 42) by ring. replace (k * 2 ^ 42 * R) with (k * R * 2 ^ 42) by ring.
      apply Z.mul_le_mono_nonneg_r; [done|exact H]. }
  apply (mul_ge 53 1024 ltac:(done) quotient (float_of_int F64 100) (k - 1) 0); try done; [lia|lia|].
  change (scaled64 (float_of_int F64 100)) with (100 * 2 ^ 1074).
  change (0 - 2 * SpecFloat.emin 53 1024) with (1074 + 1074). rewrite Z.pow_add_r by done.
  transitivity (B * 2 ^ 1032 * (100 * 2 ^ 1074)); [|apply Z.mul_le_mono_nonneg_r; [lia|exact Q2]].
  replace (B * 2 ^ 1032 * (100 * 2 ^ 1074)) with (100 * B * 2 ^ 1032 * 2 ^ 1074) by ring. rewrite Z.mul_assoc.
  apply Z.mul_le_mono_nonneg_r; [lia|]. change (2 ^ 1074) with (2 ^ 42 * 2 ^ 1032) at 1. rewrite Z.mul_assoc.
  apply Z.mul_le_mono_nonneg_r; [done|]. lia.
Qed.
End Percent.
