(* ===== verification/Format.v ===== *)
(** * Printing numbers

    [format!] of floats as the analytics use it: [{:.1}] and [{:.2}] round the exact
    value to one and two decimals, half to even; [{}] prints the shortest digits
    that read back as the same number, and of those the closest. *)

From Stdlib Require Import String Ascii Floats.SpecFloat.
From stdpp Require Import list.
From S2P Require Import Prelude Float Text.

(** ** One decimal *)

(** [num / den], rounded half to even. *)
Definition div_half_even (num den : Z) : Z :=
  let q := num / den in
  match Z.compare (2 * (num mod den)) den with
  | Lt => q
  | Gt => q + 1
  | Eq => if Z.even q then q else q + 1
  end.

(** The value of a mantissa and an exponent as a fraction. *)
Definition value_num (m e : Z) : Z := m * 2 ^ Z.max 0 e.
Definition value_den (e : Z) : Z := 2 ^ Z.max 0 (- e).

Definition sign_text (s : bool) : text := if s then str "-" else [].

Definition fixed1 (x : spec_float) : text :=
  match x with
  | S754_nan => str "NaN"
  | S754_infinity s => sign_text s ++ str "inf"
  | S754_zero s => sign_text s ++ str "0.0"
  | S754_finite s m e =>
      let n := div_half_even (value_num (Zpos m) e * 10) (value_den e) in
      sign_text s ++ digits (n / 10) ++ str "." ++ digits (n mod 10)
  end.

(** [{:.2}]. *)
Definition fixed2 (x : spec_float) : text :=
  match x with
  | S754_nan => str "NaN"
  | S754_infinity s => sign_text s ++ str "inf"
  | S754_zero s => sign_text s ++ str "0.00"
  | S754_finite s m e =>
      let n := div_half_even (value_num (Zpos m) e * 100) (value_den e) in
      sign_text s ++ digits (n / 100) ++ str "." ++ digits (n mod 100 / 10) ++ digits (n mod 10)
  end.

(** ** Shortest *)

(** [p] with [10 ^ (p - 1) <= num / den < 10 ^ p]; the least positive [f64] is above
    [10 ^ -324]. *)
Fixpoint zeros_after_point (fuel : nat) (num den : Z) : Z :=
  match fuel with
  | O => 0
  | S f => if den <=? num * 10 then 0 else 1 + zeros_after_point f (num * 10) den
  end.

Definition decimal_exponent (num den : Z) : Z :=
  if den <=? num then zlen (digits (num / den)) else - zeros_after_point 400 num den.

(** The decimals [d * 10 ^ e10] next to the value that read back as [x]; the closer
    one. *)
Definition candidate (t : FloatType) (x : spec_float) (num den e10 : Z) : option Z :=
  let num' := num * 10 ^ Z.max 0 (- e10) in
  let den' := den * 10 ^ Z.max 0 e10 in
  let d := num' / den' in
  let reads n := bool_decide (SFcompare (decimal_to_float t false n e10) x = Some Eq) in
  let closer_up := den' <? 2 * (num' - d * den') in
  if reads d && negb (closer_up && reads (d + 1)) then Some d else if reads (d + 1) then Some (d + 1) else None.

Fixpoint shortest_from (k : nat) (t : FloatType) (x : spec_float) (num den p n : Z) : Z * Z :=
  match k with
  | O => (num / den, 0)
  | S k' => match candidate t x num den (p - n) with
            | Some d => (d, p - n)
            | None => shortest_from k' t x num den p (n + 1)
            end
  end.

(** Seventeen digits are enough for an [f64]. *)
Definition shortest (t : FloatType) (m e : Z) : Z * Z :=
  let num := value_num m e in
  let den := value_den e in
  shortest_from 17 t (S754_finite false (Z.to_pos m) e) num den (decimal_exponent num den) 1.

(** [d * 10 ^ e10] without an exponent. *)
Definition render (d e10 : Z) : text :=
  let ds := digits d in
  if 0 <=? e10 then ds ++ replicate (Z.to_nat e10) 48
  else
    let frac := Z.to_nat (- e10) in
    if (frac <? length ds)%nat then take (length ds - frac) ds ++ str "." ++ drop (length ds - frac) ds
    else str "0." ++ replicate (frac - length ds) 48 ++ ds.

Definition display_float (t : FloatType) (x : spec_float) : text :=
  match x with
  | S754_nan => str "NaN"
  | S754_infinity s => sign_text s ++ str "inf"
  | S754_zero s => sign_text s ++ str "0"
  | S754_finite s m e => let '(d, e10) := shortest t (Zpos m) e in sign_text s ++ render d e10
  end.

Example fixed1_half : fixed1 <$> parse_float F64 (str "0.25") = Some (str "0.2").
Proof. vm_compute. reflexivity. Qed.
Example fixed1_75 : fixed1 <$> parse_float F32 (str "99.95") = Some (str "99.9").
Proof. vm_compute. reflexivity. Qed.
Example display_tenth : display_float F32 <$> parse_float F32 (str "0.1") = Some (str "0.1").
Proof. vm_compute. reflexivity. Qed.
Example display_third : display_float F64 <$> parse_float F64 (str "0.3333333333333333148") = Some (str "0.3333333333333333").
Proof. vm_compute. reflexivity. Qed.
Example display_big : display_float F32 <$> parse_float F32 (str "16777216") = Some (str "16777216").
Proof. vm_compute. reflexivity. Qed.
Example display_small : display_float F64 <$> parse_float F64 (str "5e-324") = Some (str "0." ++ replicate 323 48 ++ str "5").
Proof. vm_compute. reflexivity. Qed.
