(* ===== verification/Memory.v ===== *)
(** * Guest physical memory

    [hitz-vmm/src/memory.rs]: guest RAM as a sorted vector of regions, each
    backed by a host allocation.  The host heap is explicit: a map from
    allocation identifiers to their bytes, and a host pointer is an allocation
    with an offset into it.  [GuestMemory] implements [GuestMemAccess]. *)

From Stdlib Require Import String.
From stdpp Require Import strings pretty.
From S2P Require Import Prelude Hal.

(** ** Errors *)

Inductive MemError : Type :=
| InvalidSize (gpa size : Z)
| AllocFailed (gpa size : Z)
| NotMapped (gpa len : Z)
| OutOfBounds (gpa len : Z)
| MemHal (e : HalError).

#[export] Instance MemError_eq_dec : EqDecision MemError.
Proof. solve_decision. Defined.

Definition hex_digit (d : Z) : Ascii.ascii :=
  Ascii.ascii_of_nat (Z.to_nat (if d <? 10 then 48 + d else 87 + d)).

Fixpoint hex_digits (fuel : nat) (v : Z) (acc : string) : string :=
  match fuel with
  | O => acc
  | S fuel' =>
      let acc' := String (hex_digit (v mod 16)) acc in
      if v / 16 =? 0 then acc' else hex_digits fuel' (v / 16) acc'
  end.

(** The format [{:#x}] of a [u64] (16 digits are enough) and [{}] of a [usize]. *)
Definition fmt_hex (v : Z) : string := ("0x" ++ hex_digits 16 v "")%string.
Definition fmt_dec (v : Z) : string := pretty (Z.to_N v).

(** [MemError::to_string].  The source wraps no [HalError] that reaches a
    [to_string]; that case keeps its prefix only. *)
Definition MemError_to_string (e : MemError) : string :=
  (match e with
   | InvalidSize gpa size => "invalid size " ++ fmt_dec size ++ " bytes at GPA " ++ fmt_hex gpa
   | AllocFailed gpa size =>
       "allocation failed for " ++ fmt_dec size ++ " bytes at GPA " ++ fmt_hex gpa
   | NotMapped gpa len => "GPA " ++ fmt_hex gpa ++ " + " ++ fmt_dec len ++ " bytes is not mapped"
   | OutOfBounds gpa len =>
       "GPA " ++ fmt_hex gpa ++ " + " ++ fmt_dec len ++ " overflows region boundary"
   | MemHal _ => "HAL error: "
   end)%string.

(** ** State *)

Definition PAGE_SIZE : Z := 4096.

(** A host pointer: an allocation and a byte offset into it. *)
Record ptr := { ptr_block : positive; ptr_offset : Z }.

Definition ptr_add (p : ptr) (n : Z) : ptr :=
  {| ptr_block := ptr_block p; ptr_offset := ptr_offset p + n |}.

Record GuestRegion := { gpa_start : Z; region_size : Z; hva : ptr }.

#[export] Instance ptr_eq_dec : EqDecision ptr.
Proof. solve_decision. Defined.
#[export] Instance GuestRegion_eq_dec : EqDecision GuestRegion.
Proof. solve_decision. Defined.

Abbreviation HostHeap := (gmap positive (list Z)).

(** The regions of a [GuestMemory] together with the host heap they point to. *)
Record GuestMemory := { regions : list GuestRegion; heap : HostHeap }.

Definition guest_memory_new : GuestMemory := {| regions := []; heap := ∅ |}.

(** [VirtualAlloc(None, size, MEM_COMMIT | MEM_RESERVE, PAGE_READWRITE)]: gives
    the identifier of the allocation, or [None] when the operating system
    refuses.  On success the committed memory is new and zero. *)
Class HostAlloc := host_alloc : HostHeap -> Z -> option positive.
Class HostAllocLaws `{HostAlloc} :=
  host_alloc_fresh h n b : host_alloc h n = Some b -> h !! b = None.

Definition virtual_alloc `{HostAlloc} (h : HostHeap) (size : Z) : option (ptr * HostHeap) :=
  b ← host_alloc h size;
  Some ({| ptr_block := b; ptr_offset := 0 |}, <[b := replicate (Z.to_nat size) 0]> h).

(** The fallback for platforms other than Windows: [vec![0u8; size]], leaked. *)
Definition vec_alloc : HostAlloc := fun h _ => Some (fresh (dom h)).

(** ** Raw copies

    [ptr::copy_nonoverlapping] of [n] bytes from or to [p].  The source calls
    it under the safety condition [valid_for]; outside it these functions say
    nothing of the real program. *)
Definition valid_for (h : HostHeap) (p : ptr) (n : Z) : Prop :=
  exists bs, h !! ptr_block p = Some bs /\ 0 <= ptr_offset p /\ ptr_offset p + n <= zlen bs.

Definition copy_from (h : HostHeap) (p : ptr) (n : nat) : list Z :=
  let o := Z.to_nat (ptr_offset p) in slice o (o + n) (default [] (h !! ptr_block p)).

Definition copy_to (h : HostHeap) (p : ptr) (data : list Z) : HostHeap :=
  alter (splice (Z.to_nat (ptr_offset p)) data) (ptr_block p) h.

(** ** Operations *)

(** [align_up]: [align] is a power of two. *)
Definition align_up (value align : Z) : option Z :=
  v ← checked_add 64 value (align - 1);
  Some (Z.land v (2 ^ 64 - 1 - (align - 1))).

Definition region_end (r : GuestRegion) : Z := saturating_add 64 (gpa_start r) (region_size r).

(** The overlap test of [add_region]. *)
Definition overlaps (gpa gpa_end : Z) (existing : GuestRegion) : bool :=
  (gpa <? region_end existing) && (gpa_start existing <? gpa_end).

Definition overlap_reason : string := "region overlaps with an existing memory region".

(** The position [binary_search_by_key(&gpa, |r| r.gpa_start)] finds. *)
Definition insert_pos (gpa : Z) (rs : list GuestRegion) : nat :=
  match binary_search_by (fun r => Z.compare (gpa_start r) gpa) rs with
  | Ok i => i
  | Err i => i
  end.

Definition add_region `{HostAlloc} (m : GuestMemory) (gpa size : Z) :
    result MemError unit * GuestMemory :=
  match align_up size PAGE_SIZE with
  | None => (Err (InvalidSize gpa size), m)
  | Some aligned_size =>
      match checked_add 64 gpa aligned_size with
      | None => (Err (InvalidSize gpa aligned_size), m)
      | Some gpa_end =>
          if existsb (overlaps gpa gpa_end) (regions m) then
            (Err (MemHal (MapMemory gpa aligned_size overlap_reason)), m)
          else
            match virtual_alloc (heap m) aligned_size with
            | None => (Err (AllocFailed gpa aligned_size), m)
            | Some (p, h) =>
                let region := {| gpa_start := gpa; region_size := aligned_size; hva := p |} in
                (Ok tt, {| regions := vec_insert (insert_pos gpa (regions m)) region (regions m);
                           heap := h |})
            end
      end
  end.

(** The comparison of [find_region]'s binary search. *)
Definition region_cmp (addr : Z) (r : GuestRegion) : comparison :=
  if addr <? gpa_start r then Gt
  else if region_end r <=? addr then Lt
  else Eq.

Definition find_region (m : GuestMemory) (addr len : Z) : result MemError (ptr * Z) :=
  match checked_add 64 addr len with
  | None => Err (OutOfBounds addr len)
  | Some _ =>
      match binary_search_by (region_cmp addr) (regions m) with
      | Err _ => Err (NotMapped addr len)
      | Ok idx =>
          match regions m !! idx with
          | None => Err (NotMapped addr len)
          | Some region =>
              let offset := addr - gpa_start region in
              match checked_sub (region_size region) offset with
              | None => Err (OutOfBounds addr len)
              | Some remaining =>
                  if remaining <? len then Err (OutOfBounds addr len)
                  else Ok (ptr_add (hva region) offset, remaining)
              end
          end
      end
  end.

Definition gpa_to_hva (m : GuestMemory) (gpa : Z) : option ptr :=
  fst <$> res_ok (find_region m gpa 1).

Definition write_slice (m : GuestMemory) (gpa : Z) (data : list Z) : result MemError GuestMemory :=
  match data with
  | [] => Ok m
  | _ =>
      '(p, _) ← find_region m gpa (zlen data);
      Ok {| regions := regions m; heap := copy_to (heap m) p data |}
  end.

Definition read_slice (m : GuestMemory) (gpa : Z) (len : nat) : result MemError (list Z) :=
  match len with
  | O => Ok []
  | _ =>
      '(p, _) ← find_region m gpa (Z.of_nat len);
      Ok (copy_from (heap m) p len)
  end.

Definition write_u64 (m : GuestMemory) (gpa val : Z) := write_slice m gpa (le_bytes 8 val).
Definition write_u32 (m : GuestMemory) (gpa val : Z) := write_slice m gpa (le_bytes 4 val).
Definition read_u64 (m : GuestMemory) (gpa : Z) : result MemError Z :=
  buf ← read_slice m gpa 8; Ok (from_le buf).
Definition read_u32 (m : GuestMemory) (gpa : Z) : result MemError Z :=
  buf ← read_slice m gpa 4; Ok (from_le buf).

(** [impl GuestMemAccess for GuestMemory]. *)
#[export] Instance GuestMemory_access : GuestMemAccess GuestMemory := {
  read_guest m gpa n :=
    map_err (fun e => GuestMem gpa (MemError_to_string e)) (read_slice m gpa n);
  write_guest m gpa d :=
    map_err (fun e => GuestMem gpa (MemError_to_string e)) (write_slice m gpa d);
}.

(** [impl GuestMemWriter for GuestMemory]; the boot crate's error is
    [WriteFailed] with the message.  [write_zeroes] stops at the first failed
    chunk, keeping the chunks already written. *)
Definition write_bytes (m : GuestMemory) (gpa : Z) (data : list Z) : result string GuestMemory :=
  map_err MemError_to_string (write_slice m gpa data).

Definition CHUNK_SIZE : Z := 4096.

Fixpoint write_zeroes_loop (fuel : nat) (m : GuestMemory) (gpa len : Z) :
    result string unit * GuestMemory :=
  match fuel with
  | O => (Ok tt, m)
  | S fuel' =>
      if 0 <? len then
        let chunk := Z.min len CHUNK_SIZE in
        match write_slice m gpa (replicate (Z.to_nat chunk) 0) with
        | Err e => (Err (MemError_to_string e), m)
        | Ok m' => write_zeroes_loop fuel' m' (saturating_add 64 gpa chunk) (len - chunk)
        end
      else (Ok tt, m)
  end.

(** Each turn removes a whole chunk or the rest, so [len / 4096 + 2] turns
    reach the loop's exit. *)
Definition write_zeroes (m : GuestMemory) (gpa len : Z) : result string unit * GuestMemory :=
  write_zeroes_loop (Z.to_nat (len / CHUNK_SIZE + 2)) m gpa len.

(** [Partition::map_memory], and [map_to_partition] that calls it for every
    region until one fails. *)
Class PartitionMap (P : Type) :=
  map_memory : P -> Z -> ptr -> Z -> MemFlags -> result HalError P.

Fixpoint map_regions {P} `{PartitionMap P} (rs : list GuestRegion) (part : P) (flags : MemFlags) :
    result MemError unit * P :=
  match rs with
  | [] => (Ok tt, part)
  | r :: rs' =>
      match map_memory part (gpa_start r) (hva r) (region_size r) flags with
      | Err e => (Err (MemHal e), part)
      | Ok part' => map_regions rs' part' flags
      end
  end.

Definition map_to_partition {P} `{PartitionMap P} (m : GuestMemory) (part : P) (flags : MemFlags) :=
  map_regions (regions m) part flags.

(** One region of zeroed RAM, from the [vec_alloc] fallback. *)
Definition ram_at (gpa size : Z) : GuestMemory :=
  (@add_region vec_alloc guest_memory_new gpa size).2.

(** ** Invariant and abstract memory *)

Definition in_region (addr : Z) (r : GuestRegion) : Prop :=
  gpa_start r <= addr < gpa_start r + region_size r.

#[export] Instance in_region_dec addr r : Decision (in_region addr r).
Proof. unfold in_region. apply _. Defined.

(** A region is non-empty, ends inside the 64-bit space and owns the whole of
    an allocation of its size. *)
Definition region_ok (h : HostHeap) (r : GuestRegion) : Prop :=
  0 <= gpa_start r /\ 0 < region_size r /\ gpa_start r + region_size r < 2 ^ 64 /\
  ptr_offset (hva r) = 0 /\
  exists bs, h !! ptr_block (hva r) = Some bs /\ zlen bs = region_size r /\ bytes_ok bs.

Definition region_before (r1 r2 : GuestRegion) : Prop :=
  gpa_start r1 + region_size r1 <= gpa_start r2.

(** The memory manager's invariant: regions well-formed, sorted, disjoint, and
    no allocation shared. *)
Definition memory_wf (m : GuestMemory) : Prop :=
  Forall (region_ok (heap m)) (regions m) /\
  StronglySorted region_before (regions m) /\
  NoDup ((fun r => ptr_block (hva r)) <$> regions m).

(** The reference lookup: a linear scan. *)
Definition region_of (m : GuestMemory) (addr : Z) : option GuestRegion :=
  snd <$> list_find (in_region addr) (regions m).

(** The flat memory a [GuestMemory] implements: the byte at an address. *)
Definition byte_at (m : GuestMemory) (addr : Z) : option Z :=
  r ← region_of m addr;
  bs ← heap m !! ptr_block (hva r);
  bs !! Z.to_nat (addr - gpa_start r).

(** ** Lemmas: lookup *)

Section Lookup.
Implicit Types (m : GuestMemory) (r : GuestRegion).

Lemma region_end_exact h r : region_ok h r -> region_end r = gpa_start r + region_size r.
Proof. intros (? & ? & ? & _). unfold region_end, saturating_add. lia. Qed.

Lemma regions_unique m addr i j r1 r2 :
  memory_wf m -> regions m !! i = Some r1 -> regions m !! j = Some r2 ->
  in_region addr r1 -> in_region addr r2 -> i = j.
Proof.
  intros (_ & Hs & _) H1 H2 I1 I2. unfold in_region in *.
  destruct (lt_eq_lt_dec i j) as [[Hij| ]|Hij]; [|done|].
  - pose proof (StronglySorted_at _ _ _ _ _ _ Hs Hij H1 H2) as Hb.
    unfold region_before in Hb. lia.
  - pose proof (StronglySorted_at _ _ _ _ _ _ Hs Hij H2 H1) as Hb.
    unfold region_before in Hb. lia.
Qed.

Lemma region_of_Some m addr r :
  memory_wf m -> region_of m addr = Some r <-> r ∈ regions m /\ in_region addr r.
Proof.
  intros Hwf. unfold region_of. split.
  - intros H. apply fmap_Some in H as ([i r'] & H & ->).
    apply list_find_Some in H as (Hi & Hr & _).
    split; [by eapply list_elem_of_lookup_2|done].
  - intros (Hin & Hr). destruct (list_find (in_region addr) (regions m)) as [[i r']|] eqn:E.
    + apply list_find_Some in E as (Hi & Hr' & _). simpl.
      apply list_elem_of_lookup in Hin as [j Hj].
      assert (i = j) as -> by (eapply regions_unique; eauto). congruence.
    + apply list_find_None in E. rewrite Forall_forall in E. by destruct (E r Hin).
Qed.

Lemma region_of_None m addr :
  region_of m addr = None <-> forall r, r ∈ regions m -> ~ in_region addr r.
Proof.
  unfold region_of. rewrite fmap_None, list_find_None, Forall_forall. done.
Qed.

Lemma region_cmp_monotone m addr : memory_wf m -> cmp_monotone (region_cmp addr) (regions m).
Proof.
  intros (Hok & Hs & _) i j r1 r2 Hij H1 H2.
  destruct (decide (i = j)) as [->|]; [simplify_eq; lia|].
  pose proof (StronglySorted_at _ _ i j _ _ Hs ltac:(lia) H1 H2) as Hb.
  pose proof (Forall_lookup_1 _ _ _ _ Hok H1) as O1.
  pose proof (Forall_lookup_1 _ _ _ _ Hok H2) as O2.
  unfold region_cmp. erewrite !region_end_exact by eauto.
  destruct O1 as (? & ? & _), O2 as (? & ? & _). unfold region_before in Hb.
  repeat case_on; b2p; simpl; lia.
Qed.

Lemma region_cmp_Eq h r addr : region_ok h r -> region_cmp addr r = Eq <-> in_region addr r.
Proof.
  intros Hr. unfold region_cmp, in_region. erewrite region_end_exact by eauto.
  repeat case_on; b2p; naive_solver lia.
Qed.

(** The binary search finds what the scan finds. *)
Lemma binary_search_region m addr :
  memory_wf m ->
  match binary_search_by (region_cmp addr) (regions m) with
  | Ok i => exists r, regions m !! i = Some r /\ region_of m addr = Some r
  | Err _ => region_of m addr = None
  end.
Proof.
  intros Hwf. pose proof (binary_search_by_spec _ _ (region_cmp_monotone m addr Hwf)) as H.
  assert (Hok : Forall (region_ok (heap m)) (regions m)) by apply Hwf.
  destruct (binary_search_by _ _) as [i|i].
  - destruct H as (r & Hi & He). exists r. split; [done|].
    apply region_of_Some; [done|]. split; [by eapply list_elem_of_lookup_2|].
    eapply region_cmp_Eq; [|done]. by eapply Forall_lookup_1.
  - destruct H as (_ & Hlt & Hgt). apply region_of_None. intros r Hr Hin.
    apply list_elem_of_lookup in Hr as [j Hj].
    eapply region_cmp_Eq in Hin; [|by eapply Forall_lookup_1].
    destruct (decide (j < i)%nat).
    + rewrite (Hlt j r) in Hin by (done || lia). done.
    + rewrite (Hgt j r) in Hin by (done || lia). done.
Qed.

(** [find_region] as a function of the scan: every branch. *)
Lemma find_region_spec m addr len :
  memory_wf m ->
  find_region m addr len =
    if 2 ^ 64 <=? addr + len then Err (OutOfBounds addr len)
    else match region_of m addr with
         | None => Err (NotMapped addr len)
         | Some r =>
             let remaining := region_size r - (addr - gpa_start r) in
             if remaining <? len then Err (OutOfBounds addr len)
             else Ok (ptr_add (hva r) (addr - gpa_start r), remaining)
         end.
Proof.
  intros Hwf. unfold find_region, checked_add.
  destruct (addr + len <? 2 ^ 64) eqn:Hlt, (2 ^ 64 <=? addr + len) eqn:Hle; b2p; try lia; [|done].
  pose proof (binary_search_region m addr Hwf) as H.
  destruct (binary_search_by _ _) as [i|i].
  - destruct H as (r & Hi & Hr). rewrite Hi, Hr.
    apply region_of_Some in Hr as [_ Hin]; [|done]. unfold in_region in Hin.
    unfold checked_sub. case_on; b2p; [done|lia].
  - by rewrite H.
Qed.

Lemma find_region_Ok m addr len p rem :
  memory_wf m -> find_region m addr len = Ok (p, rem) ->
  exists r, r ∈ regions m /\ in_region addr r /\ region_ok (heap m) r /\
    len <= rem /\ rem = gpa_start r + region_size r - addr /\
    p = ptr_add (hva r) (addr - gpa_start r).
Proof.
  intros Hwf. rewrite find_region_spec by done. case_on; [done|].
  destruct (region_of m addr) as [r|] eqn:Hr; [|done].
  apply region_of_Some in Hr as [Hin Ha]; [|done]. simpl. case_on; [done|].
  intros [= <- <-]. b2p. exists r. destruct Hwf as [Hok _].
  rewrite Forall_forall in Hok. specialize (Hok r Hin).
  split_and!; try done; lia.
Qed.

(** The pointer is valid for the bytes asked for. *)
Lemma find_region_valid m addr len p rem :
  memory_wf m -> find_region m addr len = Ok (p, rem) -> valid_for (heap m) p len.
Proof.
  intros Hwf (r & _ & Ha & Hok & ? & ? & ->)%find_region_Ok; [|done].
  destruct Hok as (? & ? & ? & Ho & bs & Hb & Hl & _). unfold in_region in Ha.
  exists bs. simpl. rewrite Ho. split; [done|]. lia.
Qed.

End Lookup.

(** ** Lemmas: reads and writes refine the flat memory *)

Section ReadWrite.
Implicit Types (m : GuestMemory) (r : GuestRegion).

Lemma find_region_regions m m' addr len :
  regions m = regions m' -> find_region m addr len = find_region m' addr len.
Proof. intros H. unfold find_region. by rewrite H. Qed.

Lemma region_of_regions m m' addr : regions m = regions m' -> region_of m addr = region_of m' addr.
Proof. intros H. unfold region_of. by rewrite H. Qed.

Lemma byte_at_region m addr r bs :
  memory_wf m -> r ∈ regions m -> in_region addr r -> heap m !! ptr_block (hva r) = Some bs ->
  byte_at m addr = bs !! Z.to_nat (addr - gpa_start r).
Proof.
  intros Hwf Hin Ha Hb. unfold byte_at.
  rewrite (proj2 (region_of_Some m addr r Hwf)) by done. simpl. by rewrite Hb.
Qed.

Lemma read_slice_bytes m g n bs :
  memory_wf m -> read_slice m g n = Ok bs ->
  length bs = n /\ bytes_ok bs /\ forall i, (i < n)%nat -> byte_at m (g + Z.of_nat i) = bs !! i.
Proof.
  intros Hwf. destruct n as [|n].
  { intros [= <-]. split_and!; [done|constructor|lia]. }
  cbn [read_slice]. set (k := S n).
  intros ([p rem] & Hf & [= <-])%bind_Ok.
  apply find_region_Ok in Hf as (r & Hin & Ha & Hok & ? & ? & ->); [|done].
  destruct Hok as (? & ? & ? & Ho & b & Hb & Hl & Hbok).
  unfold copy_from. simpl. rewrite Hb, Ho. simpl. unfold in_region in Ha.
  assert (Hlen : (Z.to_nat (g - gpa_start r) + k <= length b)%nat) by (unfold zlen in *; lia).
  split_and!.
  - rewrite length_slice; lia.
  - by apply bytes_ok_slice.
  - intros i Hi. rewrite slice_lookup by lia.
    erewrite byte_at_region; [|done|exact Hin|unfold in_region; lia|exact Hb].
    f_equal. lia.
Qed.

Lemma region_ok_copy_to h r p d :
  bytes_ok d -> valid_for h p (zlen d) -> region_ok h r -> region_ok (copy_to h p d) r.
Proof.
  intros Hd (pb & Hpb & ? & ?) (? & ? & ? & Ho & b & Hb & Hl & Hbok).
  split_and!; try done. unfold copy_to.
  destruct (decide (ptr_block p = ptr_block (hva r))) as [Heq|Hne].
  - rewrite <- Heq, Hpb in Hb. injection Hb as ->.
    rewrite <- Heq, lookup_alter_eq, Hpb. simpl.
    eexists. split; [done|]. unfold zlen in *. rewrite length_splice by lia.
    split; [done|]. by apply bytes_ok_splice.
  - rewrite lookup_alter_ne by done. eauto.
Qed.

Lemma block_unique m r1 r2 :
  memory_wf m -> r1 ∈ regions m -> r2 ∈ regions m ->
  ptr_block (hva r1) = ptr_block (hva r2) -> r1 = r2.
Proof.
  intros (_ & _ & Hnd) H1 H2 He.
  apply list_elem_of_lookup in H1 as [i Hi]. apply list_elem_of_lookup in H2 as [j Hj].
  assert (i = j) as ->; [|congruence].
  eapply NoDup_lookup; [exact Hnd| |]; rewrite list_lookup_fmap.
  - by rewrite Hi.
  - rewrite Hj. simpl. by rewrite He.
Qed.

Lemma write_slice_regions m g d m' : write_slice m g d = Ok m' -> regions m' = regions m.
Proof.
  unfold write_slice. destruct d; [by intros [= <-]|].
  by intros ([p rem] & _ & [= <-])%bind_Ok.
Qed.

(** The effect on the flat memory of a copy into region [r] at [g]. *)
Lemma byte_at_copy_to m g d r x :
  let m' := {| regions := regions m;
               heap := copy_to (heap m) (ptr_add (hva r) (g - gpa_start r)) d |} in
  memory_wf m -> memory_wf m' -> r ∈ regions m -> region_ok (heap m) r ->
  gpa_start r <= g -> g + zlen d <= gpa_start r + region_size r ->
  byte_at m' x = if (g <=? x) && (x <? g + zlen d) then d !! Z.to_nat (x - g) else byte_at m x.
Proof.
  intros m' Hwf Hwf' Hin Hok Hg Hd.
  destruct Hok as (? & ? & ? & Ho & b & Hb & Hl & _). unfold zlen in *.
  destruct (region_of m x) as [r'|] eqn:Hrx.
  - apply region_of_Some in Hrx as [Hin' Hx]; [|done]. pose proof Hx as Hx'. unfold in_region in Hx'.
    assert (exists b', heap m !! ptr_block (hva r') = Some b') as [b' Hb'].
    { destruct Hwf as [Hall _]. rewrite Forall_forall in Hall.
      destruct (Hall r' Hin') as (_ & _ & _ & _ & b' & ? & _). eauto. }
    rewrite (byte_at_region m x r' b') by done.
    destruct (decide (r' = r)) as [->|Hne].
    + rewrite Hb in Hb'. injection Hb' as <-.
      erewrite (byte_at_region m' x r (splice (Z.to_nat (g - gpa_start r)) d b)); [|done..|].
      * rewrite splice_lookup by lia. case_decide; case_on; b2p; try (f_equal; lia); lia.
      * simpl. unfold copy_to. simpl. by rewrite lookup_alter_eq, Hb, Ho.
    + erewrite (byte_at_region m' x r' b'); [|done..|].
      * case_on; [|done]. b2p. exfalso. apply Hne.
        assert (region_of m x = Some r) by (apply region_of_Some; [done|]; split; [done|]; unfold in_region; lia).
        assert (region_of m x = Some r') by (by apply region_of_Some). congruence.
      * simpl. unfold copy_to. rewrite lookup_alter_ne; [done|].
        simpl. intros He. apply Hne. symmetry. by apply (block_unique m).
  - unfold byte_at. rewrite (region_of_regions m' m) by done. rewrite Hrx. simpl.
    case_on; [|done]. b2p. rewrite region_of_None in Hrx. destruct (Hrx r); [done|].
    unfold in_region. lia.
Qed.

Lemma write_slice_bytes m g d m' :
  memory_wf m -> bytes_ok d -> write_slice m g d = Ok m' ->
  memory_wf m' /\
  forall x, byte_at m' x =
    if (g <=? x) && (x <? g + zlen d) then d !! Z.to_nat (x - g) else byte_at m x.
Proof.
  intros Hwf Hd. destruct d as [|d0 d'].
  { intros [= <-]. split; [done|]. intros x. rewrite zlen_nil. case_on; b2p; [lia|done]. }
  cbn [write_slice]. set (d := d0 :: d') in *.
  intros ([p rem] & Hf & [= <-])%bind_Ok.
  pose proof (find_region_valid _ _ _ _ _ Hwf Hf) as Hv.
  apply find_region_Ok in Hf as (r & Hin & Ha & Hok & ? & ? & ->); [|done].
  assert (Hwf' : memory_wf {| regions := regions m;
                              heap := copy_to (heap m) (ptr_add (hva r) (g - gpa_start r)) d |}).
  { destruct Hwf as (H1 & H2 & H3). split_and!; [|done..]. simpl.
    eapply Forall_impl; [exact H1|]. intros r' Hr'. by apply region_ok_copy_to. }
  split; [done|]. intros x. unfold in_region in Ha.
  apply byte_at_copy_to; try done; lia.
Qed.

(** Reads depend on the bytes of the range only. *)
Lemma read_slice_ext m m' g n :
  memory_wf m -> memory_wf m' -> regions m = regions m' ->
  (forall i, (i < n)%nat -> byte_at m (g + Z.of_nat i) = byte_at m' (g + Z.of_nat i)) ->
  read_slice m g n = read_slice m' g n.
Proof.
  intros Hwf Hwf' Hr Hb.
  assert (Hok : is_ok (read_slice m g n) = is_ok (read_slice m' g n) /\
                forall e, read_slice m g n = Err e <-> read_slice m' g n = Err e).
  { unfold read_slice. destruct n; [done|].
    rewrite (find_region_regions m m') by done. by destruct (find_region m' _ _) as [[]|]. }
  destruct Hok as [Hok He].
  destruct (read_slice m g n) as [bs|e] eqn:E1, (read_slice m' g n) as [bs'|e'] eqn:E2;
    try done; [|by rewrite (proj1 (He e))].
  apply read_slice_bytes in E1 as (L1 & _ & B1); [|done].
  apply read_slice_bytes in E2 as (L2 & _ & B2); [|done].
  f_equal. apply list_eq. intros i. destruct (decide (i < n)%nat).
  - rewrite <- B1, <- B2 by done. by apply Hb.
  - rewrite !lookup_ge_None_2 by lia. done.
Qed.

Lemma read_slice_is_ok m m' g n :
  regions m = regions m' -> is_ok (read_slice m g n) = is_ok (read_slice m' g n).
Proof.
  intros Hr. unfold read_slice. destruct n; [done|].
  rewrite (find_region_regions m m') by done. by destruct (find_region m' _ _) as [[]|].
Qed.

Lemma write_slice_is_ok m g d : is_ok (write_slice m g d) = is_ok (read_slice m g (length d)).
Proof.
  unfold write_slice, read_slice. destruct d; [done|]. simpl length. cbn.
  unfold zlen. simpl length. by destruct (find_region m _ _) as [[]|].
Qed.

Lemma read_slice_write_same m g d m' :
  memory_wf m -> bytes_ok d -> write_slice m g d = Ok m' ->
  read_slice m' g (length d) = Ok d.
Proof.
  intros Hwf Hd Hw. pose proof (write_slice_regions _ _ _ _ Hw) as Hr.
  pose proof (f_equal is_ok Hw) as Hok. rewrite write_slice_is_ok in Hok.
  rewrite <- (read_slice_is_ok m' m) in Hok by done.
  destruct (write_slice_bytes _ _ _ _ Hwf Hd Hw) as [Hwf' Hb].
  destruct (read_slice m' g (length d)) as [bs|] eqn:E; [|done].
  apply read_slice_bytes in E as (Hl & _ & Hbs); [|done].
  f_equal. apply list_eq. intros i. destruct (decide (i < length d)%nat) as [Hi|Hi].
  - rewrite <- Hbs, Hb by done. unfold zlen. case_on; [|lia]. f_equal. lia.
  - rewrite !lookup_ge_None_2 by lia. done.
Qed.

Lemma read_slice_write_disjoint m g d m' g' n :
  memory_wf m -> bytes_ok d -> write_slice m g d = Ok m' ->
  disjoint_range g (zlen d) g' (Z.of_nat n) ->
  read_slice m' g' n = read_slice m g' n.
Proof.
  intros Hwf Hd Hw Hdis. pose proof (write_slice_regions _ _ _ _ Hw) as Hr.
  destruct (write_slice_bytes _ _ _ _ Hwf Hd Hw) as [Hwf' Hb].
  apply read_slice_ext; try done. intros i Hi. rewrite Hb.
  unfold disjoint_range in Hdis. case_on; [lia|done].
Qed.

Lemma readable_sub m g n off k :
  memory_wf m -> is_ok (read_slice m g n) = true -> (off + k <= n)%nat ->
  is_ok (read_slice m (g + Z.of_nat off) k) = true.
Proof.
  intros Hwf Hr Hk. destruct k as [|k]; [done|]. destruct n as [|n]; [lia|].
  cbn [read_slice] in *.
  destruct (find_region m g (Z.of_nat (S n))) as [[p rem]|] eqn:Hf; [|done].
  apply find_region_Ok in Hf as (r & Hin & Ha & Hok & ? & ? & ->); [|done].
  unfold in_region in Ha. destruct Hok as (? & ? & ? & _).
  rewrite find_region_spec by done. rewrite (proj2 (Z.leb_gt _ _)) by lia.
  rewrite (proj2 (region_of_Some m _ r Hwf)) by (split; [done|]; unfold in_region; lia).
  cbv zeta. by rewrite (proj2 (Z.ltb_ge _ _)) by lia.
Qed.

(** A part of a range that was read reads as that part of the bytes. *)
Lemma read_slice_sub m g n bs off k :
  memory_wf m -> read_slice m g n = Ok bs -> (off + k <= n)%nat ->
  read_slice m (g + Z.of_nat off) k = Ok (slice off (off + k) bs).
Proof.
  intros Hwf Hr Hk.
  pose proof (readable_sub m g n off k Hwf ltac:(by rewrite Hr) Hk) as Ho.
  destruct (read_slice m (g + Z.of_nat off) k) as [bs'|] eqn:E; [|done].
  apply read_slice_bytes in E as (L & _ & B); [|done].
  apply read_slice_bytes in Hr as (L' & _ & B'); [|done].
  f_equal. apply list_eq. intros i. destruct (decide (i < k)%nat).
  - rewrite slice_lookup, <- B, <- B' by lia. f_equal. lia.
  - rewrite !lookup_ge_None_2; [done|rewrite length_slice; lia|lia].
Qed.

End ReadWrite.

(** ** The guest memory satisfies the interface's laws *)

Lemma is_ok_map_err {E E' A} (f : E -> E') (r : result E A) : is_ok (map_err f r) = is_ok r.
Proof. by destruct r. Qed.

Lemma map_err_Ok {E E' A} (f : E -> E') (r : result E A) a : map_err f r = Ok a <-> r = Ok a.
Proof. destruct r; simpl; naive_solver. Qed.

#[export, refine] Instance GuestMemory_laws : GuestMemLaws GuestMemory := {
  mem_wf := memory_wf;
}.
Proof.
  - intros m g d m' Hwf Hd Hw. apply map_err_Ok in Hw. by apply write_slice_bytes in Hw as [? _].
  - intros m g n bs Hwf Hr. apply map_err_Ok in Hr.
    apply read_slice_bytes in Hr as (? & ? & _); done.
  - intros m g d m' Hwf Hd Hw. apply map_err_Ok in Hw. apply map_err_Ok.
    exact (read_slice_write_same _ _ _ _ Hwf Hd Hw).
  - intros m g d m' g' n Hwf Hd Hw Hdis. apply map_err_Ok in Hw. simpl.
    by rewrite (read_slice_write_disjoint m g d m').
  - intros m g d m' g' n Hwf Hw. apply map_err_Ok in Hw. simpl. rewrite !is_ok_map_err.
    apply read_slice_is_ok. by eapply write_slice_regions.
  - intros m g d Hwf. simpl. rewrite !is_ok_map_err. apply write_slice_is_ok.
Defined.

(** ** Lemmas: adding regions *)

Section AddRegion.
Context `{HostAllocLaws}.
Implicit Types (m : GuestMemory) (r : GuestRegion).

Lemma align_up_page v a :
  0 <= v -> align_up v PAGE_SIZE = Some a ->
  a = (v + 4095) / 4096 * 4096 /\ v <= a < v + 4096 /\ a mod 4096 = 0.
Proof.
  intros Hv. unfold align_up, PAGE_SIZE.
  destruct (checked_add 64 v (4096 - 1)) as [s|] eqn:E; [|done].
  apply checked_add_Some in E as [Hs ->]. intros [= <-].
  change (2 ^ 64 - 1 - (4096 - 1)) with (2 ^ 64 - 1 - 0xFFF).
  change (4096 - 1) with 4095 in *.
  assert (Hu : u64 (v + 4095)) by (unfold in_range; lia).
  destruct (gpa_page_split _ Hu) as [Hsum Hmod]. rewrite gpa_page_offset_mod in Hsum.
  unfold gpa_page_base in *. set (b := Z.land (v + 4095) _) in *. clearbody b.
  pose proof (Z.div_mod (v + 4095) 4096 ltac:(lia)).
  pose proof (Z.mod_pos_bound (v + 4095) 4096 ltac:(lia)). lia.
Qed.

Lemma align_up_None v : 0 <= v -> align_up v PAGE_SIZE = None <-> 2 ^ 64 <= v + 4095.
Proof.
  intros Hv. unfold align_up, PAGE_SIZE. change (4096 - 1) with 4095.
  rewrite <- checked_add_None. destruct (checked_add 64 v 4095); simpl; naive_solver.
Qed.

(** The insertion position keeps the order when the new range overlaps no
    region: everything before it ends before, everything after starts after. *)
Lemma insert_pos_spec m gpa gpa_end i r :
  memory_wf m -> 0 <= gpa < gpa_end ->
  existsb (overlaps gpa gpa_end) (regions m) = false -> regions m !! i = Some r ->
  if decide (i < insert_pos gpa (regions m))%nat
  then gpa_start r + region_size r <= gpa
  else gpa_end <= gpa_start r.
Proof.
  intros Hwf Hg Hov Hr.
  assert (Hok : region_ok (heap m) r) by (destruct Hwf; by eapply Forall_lookup_1).
  assert (Hsep : gpa_start r + region_size r <= gpa \/ gpa_end <= gpa_start r).
  { destruct (overlaps gpa gpa_end r) eqn:E.
    - assert (existsb (overlaps gpa gpa_end) (regions m) = true); [|congruence].
      apply existsb_exists. exists r. split; [|done].
      apply list_elem_of_In. by eapply list_elem_of_lookup_2.
    - unfold overlaps in E. erewrite region_end_exact in E by done. lia. }
  destruct Hok as (? & ? & _).
  assert (Hmono : cmp_monotone (fun r => Z.compare (gpa_start r) gpa) (regions m)).
  { intros a b r1 r2 Hab Hr1 Hr2. destruct Hwf as (Hall & Hs & _).
    destruct (decide (a = b)) as [->|]; [simplify_eq; lia|].
    pose proof (StronglySorted_at _ _ a b _ _ Hs ltac:(lia) Hr1 Hr2) as Hb.
    destruct (Forall_lookup_1 _ _ _ _ Hall Hr1) as (? & ? & _). unfold region_before in Hb.
    destruct (Z.compare_spec (gpa_start r1) gpa), (Z.compare_spec (gpa_start r2) gpa); simpl; lia. }
  apply binary_search_by_spec in Hmono. unfold insert_pos.
  destruct (binary_search_by _ _) as [k|k].
  - destruct Hmono as (rk & Hk & Heq). apply Z.compare_eq in Heq.
    assert (Hkov : existsb (overlaps gpa gpa_end) (regions m) = true); [|congruence].
    apply existsb_exists. exists rk. split.
    { apply list_elem_of_In. by eapply list_elem_of_lookup_2. }
    assert (Hokk : region_ok (heap m) rk) by (destruct Hwf; by eapply Forall_lookup_1).
    unfold overlaps. erewrite region_end_exact by done. destruct Hokk as (? & ? & _). lia.
  - destruct Hmono as (_ & Hlt & Hgt). case_decide as Hi.
    + specialize (Hlt i r Hi Hr). rewrite Z.compare_lt_iff in Hlt. lia.
    + specialize (Hgt i r ltac:(lia) Hr). rewrite Z.compare_gt_iff in Hgt. lia.
Qed.

(** The state [add_region] leaves when it succeeds. *)
Lemma add_region_Ok m gpa size m' :
  add_region m gpa size = (Ok tt, m') ->
  exists a b,
    align_up size PAGE_SIZE = Some a /\ gpa + a < 2 ^ 64 /\
    existsb (overlaps gpa (gpa + a)) (regions m) = false /\
    heap m !! b = None /\ heap m' = <[b := replicate (Z.to_nat a) 0]> (heap m) /\
    regions m' = vec_insert (insert_pos gpa (regions m))
      {| gpa_start := gpa; region_size := a; hva := {| ptr_block := b; ptr_offset := 0 |} |}
      (regions m).
Proof.
  unfold add_region. destruct (align_up size PAGE_SIZE) as [a|]; [|done].
  destruct (checked_add 64 gpa a) as [e|] eqn:He; [|done].
  apply checked_add_Some in He as [? ->].
  destruct (existsb _ _) eqn:Hov; [done|]. unfold virtual_alloc.
  destruct (host_alloc (heap m) a) as [b|] eqn:Hb; [|done]. simpl.
  intros [= <-]. exists a, b. split_and!; try done. by eapply host_alloc_fresh.
Qed.

Lemma add_region_error_unchanged m gpa size e m' : add_region m gpa size = (Err e, m') -> m' = m.
Proof. unfold add_region. intros Ha. repeat case_on; congruence. Qed.

Lemma region_ok_fresh h b z r :
  h !! b = None -> region_ok h r -> region_ok (<[b := z]> h) r.
Proof.
  intros Hb (? & ? & ? & ? & bs & Hbs & ?). split_and!; try done. exists bs.
  rewrite lookup_insert_ne by congruence. done.
Qed.

Lemma add_region_wf m gpa size m' :
  memory_wf m -> 0 <= gpa -> 0 < size -> add_region m gpa size = (Ok tt, m') -> memory_wf m'.
Proof.
  intros Hwf Hg Hs (a & b & Ha & Hend & Hov & Hb & Hh & Hr)%add_region_Ok.
  apply align_up_page in Ha as (_ & ? & _); [|lia].
  pose proof (insert_pos_spec m gpa (gpa + a)) as Hpos.
  pose proof Hwf as (Hall & Hsort & Hnd).
  unfold memory_wf. rewrite Hr, Hh. split_and!.
  - rewrite vec_insert_perm. constructor.
    + split_and!; simpl; try lia. eexists. rewrite lookup_insert_eq. split; [done|].
      unfold zlen. rewrite length_replicate. split; [lia|].
      apply Forall_replicate. unfold in_range. lia.
    + eapply Forall_impl; [exact Hall|]. intros r. by apply region_ok_fresh.
  - apply StronglySorted_insert_at; [done| |]; intros i r Hi Hri;
      specialize (Hpos i r Hwf ltac:(lia) Hov Hri); case_decide; try lia;
      unfold region_before; simpl; lia.
  - rewrite vec_insert_perm. simpl. constructor; [|done].
    intros (r & Hbr & Hin)%list_elem_of_fmap. rewrite Forall_forall in Hall.
    destruct (Hall r Hin) as (_ & _ & _ & _ & bs & Hbs & _). congruence.
Qed.

(** Existing memory keeps its bytes and the new region reads as zeros. *)
Lemma add_region_bytes m gpa size m' :
  memory_wf m -> 0 <= gpa -> 0 < size -> add_region m gpa size = (Ok tt, m') ->
  exists a, align_up size PAGE_SIZE = Some a /\
  forall x, byte_at m' x = if (gpa <=? x) && (x <? gpa + a) then Some 0 else byte_at m x.
Proof.
  intros Hwf Hg Hs Hadd. pose proof (add_region_wf _ _ _ _ Hwf Hg Hs Hadd) as Hwf'.
  apply add_region_Ok in Hadd as (a & b & Ha & Hend & Hov & Hb & Hh & Hr).
  exists a. split; [done|]. intros x.
  set (r0 := {| gpa_start := gpa; region_size := a; hva := _ |}) in *.
  assert (Hperm : regions m' ≡ₚ r0 :: regions m) by (rewrite Hr; apply vec_insert_perm).
  destruct ((gpa <=? x) && (x <? gpa + a)) eqn:Hx; b2p.
  - rewrite (byte_at_region m' x r0 (replicate (Z.to_nat a) 0)); try done.
    + apply lookup_replicate. split; [done|]. simpl. lia.
    + rewrite Hperm. left.
    + rewrite Hh. apply lookup_insert_eq.
  - destruct (region_of m x) as [r|] eqn:Hrx.
    + apply region_of_Some in Hrx as [Hin Hxr]; [|done].
      destruct Hwf as [Hall Hrest]. pose proof Hall as Hall'. rewrite Forall_forall in Hall'.
      destruct (Hall' r Hin) as (_ & _ & _ & _ & bs & Hbs & _).
      rewrite (byte_at_region m x r bs), (byte_at_region m' x r bs); try done.
      * rewrite Hperm. by right.
      * rewrite Hh, lookup_insert_ne; [done|congruence].
    + assert (region_of m' x = None) as Hn.
      { rewrite region_of_None in *. intros r Hin. rewrite Hperm in Hin.
        apply elem_of_cons in Hin as [->|Hin]; [|by apply Hrx].
        unfold in_region. simpl. lia. }
      unfold byte_at. by rewrite Hn, Hrx.
Qed.

End AddRegion.

(** ** Lemmas: zeroing *)

Lemma write_slice_end m g d m' :
  memory_wf m -> d <> [] -> write_slice m g d = Ok m' -> g + zlen d < 2 ^ 64.
Proof.
  intros Hwf Hd. unfold write_slice. destruct d; [done|].
  intros ([p rem] & Hf & _)%bind_Ok. rewrite find_region_spec in Hf by done.
  case_on; [done|]. by b2p.
Qed.

Lemma write_zeroes_loop_spec fuel m gpa len :
  memory_wf m -> 0 <= len <= 4096 * Z.of_nat fuel ->
  let '(res, m') := write_zeroes_loop fuel m gpa len in
  memory_wf m' /\ regions m' = regions m /\
  (res = Ok tt -> forall x, byte_at m' x =
     if (gpa <=? x) && (x <? gpa + len) then Some 0 else byte_at m x).
Proof.
  revert m gpa len. induction fuel as [|fuel IH]; intros m gpa len Hwf Hlen; cbn [write_zeroes_loop].
  { split_and!; [done..|]. intros _ x. case_on; [lia|done]. }
  destruct (0 <? len) eqn:Hpos; b2p.
  2: { split_and!; [done..|]. intros _ x. case_on; [lia|done]. }
  unfold CHUNK_SIZE. set (c := Z.min len 4096). assert (Hc : 0 < c <= 4096 /\ c <= len) by lia.
  set (d := replicate (Z.to_nat c) 0).
  assert (Hd : zlen d = c) by (unfold zlen, d; rewrite length_replicate; lia).
  assert (Hdok : bytes_ok d) by (apply Forall_replicate; unfold in_range; lia).
  destruct (write_slice m gpa d) as [m1|e] eqn:Hw; [|by split_and!].
  pose proof (write_slice_regions _ _ _ _ Hw) as Hr.
  assert (Hend : gpa + c < 2 ^ 64).
  { rewrite <- Hd. eapply write_slice_end; [exact Hwf| |exact Hw].
    intros E. rewrite E in Hd. unfold zlen in Hd. simpl in Hd. lia. }
  replace (saturating_add 64 gpa c) with (gpa + c) by (unfold saturating_add; lia).
  destruct (write_slice_bytes _ _ _ _ Hwf Hdok Hw) as [Hwf1 Hb1].
  specialize (IH m1 (gpa + c) (len - c) Hwf1 ltac:(lia)).
  destruct (write_zeroes_loop _ _ _ _) as [res m2]. destruct IH as (Hwf2 & Hr2 & Hb2).
  split_and!; [done|congruence|]. intros Hres x. rewrite Hb2, Hb1, Hd by done.
  repeat case_on; try lia; [done| |done].
  apply lookup_replicate. split; [done|]. lia.
Qed.

(** A chunked zeroing of a range inside one region succeeds. *)
Lemma write_zeroes_loop_Ok fuel m gpa len r :
  memory_wf m -> r ∈ regions m -> gpa_start r <= gpa -> 0 <= len ->
  gpa + len <= gpa_start r + region_size r ->
  (write_zeroes_loop fuel m gpa len).1 = Ok tt.
Proof.
  revert m gpa len. induction fuel as [|fuel IH]; intros m gpa len Hwf Hin Hg Hl He;
    cbn [write_zeroes_loop]; [done|].
  destruct (0 <? len) eqn:Hpos; b2p; [|done].
  unfold CHUNK_SIZE. set (c := Z.min len 4096). assert (Hc : 0 < c <= 4096 /\ c <= len) by lia.
  set (d := replicate (Z.to_nat c) 0).
  assert (Hd : zlen d = c) by (unfold zlen, d; rewrite length_replicate; lia).
  assert (Hdok : bytes_ok d) by (apply Forall_replicate; unfold in_range; lia).
  pose proof Hwf as [Hall _]. rewrite Forall_forall in Hall.
  destruct (Hall r Hin) as (? & ? & ? & _).
  destruct (write_slice m gpa d) as [m1|e] eqn:Hw.
  - replace (saturating_add 64 gpa c) with (gpa + c) by (unfold saturating_add; lia).
    apply IH; try lia; [by apply write_slice_bytes in Hw as [? _]|].
    by rewrite (write_slice_regions _ _ _ _ Hw).
  - exfalso. apply (f_equal is_ok) in Hw. rewrite write_slice_is_ok in Hw.
    unfold read_slice in Hw. destruct (length d) as [|k] eqn:Ek; [done|].
    rewrite find_region_spec in Hw by done.
    rewrite (proj2 (region_of_Some m gpa r Hwf)) in Hw by (split; [done|unfold in_region; lia]).
    rewrite <- Ek in Hw. change (Z.of_nat (length d)) with (zlen d) in Hw. rewrite Hd in Hw.
    cbv zeta in Hw. repeat case_on; b2p; try lia; done.
Qed.

(** ** A concrete memory, for the examples *)

#[export] Instance vec_alloc_laws : @HostAllocLaws vec_alloc.
Proof.
  intros h n b. unfold host_alloc, vec_alloc. intros [= <-].
  apply not_elem_of_dom, is_fresh.
Qed.

Lemma guest_memory_new_wf : memory_wf guest_memory_new.
Proof. split_and!; constructor. Qed.

Lemma ram_at_wf gpa size :
  0 <= gpa -> 0 < size -> fst (@add_region vec_alloc guest_memory_new gpa size) = Ok tt ->
  memory_wf (ram_at gpa size).
Proof.
  intros Hg Hs Hok. unfold ram_at.
  destruct (add_region guest_memory_new gpa size) as [res m] eqn:E. simpl in *. subst res.
  exact (@add_region_wf vec_alloc vec_alloc_laws _ _ _ _ guest_memory_new_wf Hg Hs E).
Qed.

(** Inside a region every range can be read. *)
Lemma in_region_readable m r g n :
  memory_wf m -> r ∈ regions m -> gpa_start r <= g ->
  g + Z.of_nat n <= gpa_start r + region_size r -> is_ok (read_guest m g n) = true.
Proof.
  intros Hwf Hr Hg Hn. simpl. destruct n as [|n]; [done|].
  cbn [read_slice]. set (k := S n) in *. assert (0 < Z.of_nat k) by lia.
  pose proof Hwf as (Hok & _). rewrite Forall_forall in Hok.
  destruct (Hok r Hr) as (? & ? & ? & _). rewrite find_region_spec by done.
  rewrite (proj2 (Z.leb_gt _ _)) by lia.
  rewrite (proj2 (region_of_Some m g r Hwf)) by (split; [done|]; unfold in_region; lia).
  cbv zeta. by rewrite (proj2 (Z.ltb_ge _ _)) by lia.
Qed.

Lemma write_zeroes_spec m gpa len :
  memory_wf m -> 0 <= len ->
  let '(res, m') := write_zeroes m gpa len in
  memory_wf m' /\ regions m' = regions m /\
  (res = Ok tt -> forall x, byte_at m' x =
     if (gpa <=? x) && (x <? gpa + len) then Some 0 else byte_at m x) /\
  (forall r, r ∈ regions m -> gpa_start r <= gpa ->
     gpa + len <= gpa_start r + region_size r -> res = Ok tt).
Proof.
  intros Hwf Hl. unfold write_zeroes.
  pose proof (write_zeroes_loop_spec (Z.to_nat (len / CHUNK_SIZE + 2)) m gpa len Hwf) as H.
  assert (0 <= len <= 4096 * Z.of_nat (Z.to_nat (len / CHUNK_SIZE + 2))) as Hf.
  { unfold CHUNK_SIZE. pose proof (Z.div_mod len 4096 ltac:(lia)).
    pose proof (Z.mod_pos_bound len 4096 ltac:(lia)). pose proof (Z.div_pos len 4096). lia. }
  specialize (H Hf).
  pose proof (fun r => write_zeroes_loop_Ok (Z.to_nat (len / CHUNK_SIZE + 2)) m gpa len r Hwf) as Hok.
  destruct (write_zeroes_loop _ _ _ _) as [res m']. destruct H as (Hwf' & Hr & Hb).
  split_and!; [done..|]. intros r Hin Hg He. by apply (Hok r).
Qed.

(** ** Properties *)

(** Memory safety of the raw copies: whenever [find_region] hands out a
    pointer for [len] bytes, those bytes lie inside one live host allocation,
    which is what the [unsafe] blocks of [write_slice] and [read_slice] claim. *)
Theorem find_region_safe m addr len p remaining :
  memory_wf m -> find_region m addr len = Ok (p, remaining) ->
  valid_for (heap m) p len /\ len <= remaining.
Proof.
  intros Hwf Hf. split; [by eapply find_region_valid|].
  by apply find_region_Ok in Hf as (r & _ & _ & _ & ? & _).
Qed.

(** The binary search of [find_region] agrees with a linear scan of the
    regions, on every branch: overflow, unmapped, past the region, found. *)
Theorem find_region_linear m addr len :
  memory_wf m ->
  find_region m addr len =
    if 2 ^ 64 <=? addr + len then Err (OutOfBounds addr len)
    else match region_of m addr with
         | None => Err (NotMapped addr len)
         | Some r =>
             let remaining := region_size r - (addr - gpa_start r) in
             if remaining <? len then Err (OutOfBounds addr len)
             else Ok (ptr_add (hva r) (addr - gpa_start r), remaining)
         end.
Proof. apply find_region_spec. Qed.

(** C26: [GuestMemory] refines a flat byte memory: a successful write changes
    exactly the bytes of its range, and a successful read returns them. *)
Theorem guest_memory_refines_flat m g d m' :
  memory_wf m -> bytes_ok d -> write_slice m g d = Ok m' ->
  memory_wf m' /\
  (forall x, byte_at m' x =
     if (g <=? x) && (x <? g + zlen d) then d !! Z.to_nat (x - g) else byte_at m x) /\
  (forall h n bs i, read_slice m' h n = Ok bs -> (i < n)%nat ->
     byte_at m' (h + Z.of_nat i) = bs !! i).
Proof.
  intros Hwf Hd Hw. destruct (write_slice_bytes _ _ _ _ Hwf Hd Hw) as [Hwf' Hb].
  split_and!; [done..|]. intros h n bs i Hr Hi.
  apply read_slice_bytes in Hr as (_ & _ & Hbs); [|done]. by apply Hbs.
Qed.

(** [add_region] keeps the invariant, gives a page-aligned region that reads
    as zeros, leaves all other memory as it was, and on any error changes
    nothing. *)
Theorem add_region_correct `{HostAllocLaws} m gpa size res m' :
  memory_wf m -> 0 <= gpa -> 0 < size -> add_region m gpa size = (res, m') ->
  match res with
  | Ok _ =>
      memory_wf m' /\ exists a, a mod 4096 = 0 /\ size <= a < size + 4096 /\
      forall x, byte_at m' x = if (gpa <=? x) && (x <? gpa + a) then Some 0 else byte_at m x
  | Err _ => m' = m
  end.
Proof.
  intros Hwf Hg Hs Ha. destruct res as [[]|e].
  - split; [by eapply add_region_wf|].
    destruct (add_region_bytes _ _ _ _ Hwf Hg Hs Ha) as (a & Hal & Hb).
    apply align_up_page in Hal as (_ & ? & ?); [|lia]. by exists a.
  - by eapply add_region_error_unchanged.
Qed.

(** [write_zeroes] always terminates within its turns; inside one region it
    succeeds, and success means exactly the range reads as zeros. *)
Theorem write_zeroes_correct m gpa len :
  memory_wf m -> 0 <= len ->
  let '(res, m') := write_zeroes m gpa len in
  memory_wf m' /\
  (res = Ok tt -> forall x, byte_at m' x =
     if (gpa <=? x) && (x <? gpa + len) then Some 0 else byte_at m x) /\
  (forall r, r ∈ regions m -> gpa_start r <= gpa ->
     gpa + len <= gpa_start r + region_size r -> res = Ok tt).
Proof.
  intros Hwf Hl. pose proof (write_zeroes_spec m gpa len Hwf Hl) as H.
  destruct (write_zeroes m gpa len) as [res m']. destruct H as (? & _ & ? & ?). by split_and!.
Qed.

(** A zero-sized region hides a later region at the same address: both calls
    succeed with the fallback allocator, and the second region's bytes are then
    reported as not mapped.  [VirtualAlloc] refuses a size of zero. *)
Theorem zero_sized_region_hides_next :
  exists m1 m2,
    @add_region vec_alloc guest_memory_new 4096 0 = (Ok tt, m1) /\
    @add_region vec_alloc m1 4096 4096 = (Ok tt, m2) /\
    find_region m2 4096 1 = Err (NotMapped 4096 1) /\
    region_of m2 4096 <> None.
Proof.
  exists (@add_region vec_alloc guest_memory_new 4096 0).2.
  exists (@add_region vec_alloc (@add_region vec_alloc guest_memory_new 4096 0).2 4096 4096).2.
  split_and!; vm_compute; done.
Qed.

(** ** Witnesses *)

Lemma find_region_safe_witness :
  memory_wf (ram_at 4096 8192) /\
  find_region (ram_at 4096 8192) 5000 16 = Ok ({| ptr_block := 1; ptr_offset := 904 |}, 7288) /\
  valid_for (heap (ram_at 4096 8192)) {| ptr_block := 1; ptr_offset := 904 |} 16.
Proof.
  assert (W : memory_wf (ram_at 4096 8192)) by (apply ram_at_wf; [lia..|reflexivity]).
  split; [exact W|]. split; [vm_compute; reflexivity|].
  exact (proj1 (find_region_safe (ram_at 4096 8192) 5000 16 {| ptr_block := 1; ptr_offset := 904 |} 7288
    W ltac:(vm_compute; reflexivity))).
Defined.

Lemma find_region_linear_witness :
  memory_wf (ram_at 4096 8192) /\
  find_region (ram_at 4096 8192) 100 4 = Err (NotMapped 100 4).
Proof.
  assert (W : memory_wf (ram_at 4096 8192)) by (apply ram_at_wf; [lia..|reflexivity]).
  split; [exact W|]. rewrite (find_region_linear _ 100 4 W). vm_compute. reflexivity.
Defined.

Lemma guest_memory_refines_flat_witness :
  memory_wf (ram_at 0 4096) /\
  exists m', write_slice (ram_at 0 4096) 16 [1; 2; 3] = Ok m' /\ byte_at m' 17 = Some 2.
Proof.
  assert (W : memory_wf (ram_at 0 4096)) by (apply ram_at_wf; [lia..|reflexivity]).
  split; [exact W|].
  eexists. split; [vm_compute; reflexivity|].
  edestruct (guest_memory_refines_flat (ram_at 0 4096) 16 [1; 2; 3]) as (_ & Hb & _);
    [exact W|repeat constructor; lia|vm_compute; reflexivity|].
  rewrite (Hb 17). reflexivity.
Defined.

Lemma add_region_correct_witness :
  memory_wf guest_memory_new /\
  exists m', @add_region vec_alloc guest_memory_new 0x1000 100 = (Ok tt, m') /\ memory_wf m'.
Proof.
  split; [exact guest_memory_new_wf|].
  exists (ram_at 0x1000 100). split; [reflexivity|].
  exact (proj1 (@add_region_correct vec_alloc vec_alloc_laws guest_memory_new 0x1000 100 (Ok tt)
    (ram_at 0x1000 100) guest_memory_new_wf ltac:(lia) ltac:(lia) eq_refl)).
Defined.

Lemma write_zeroes_correct_witness :
  memory_wf (ram_at 0 12288) /\ memory_wf (write_zeroes (ram_at 0 12288) 100 5000).2.
Proof.
  assert (W : memory_wf (ram_at 0 12288)) by (apply ram_at_wf; [lia..|reflexivity]).
  split; [exact W|].
  pose proof (write_zeroes_correct (ram_at 0 12288) 100 5000 W ltac:(lia)) as H.
  destruct (write_zeroes _ _ _) as [res m']. exact (proj1 H).
Defined.
