(* ===== verification/Queue.v ===== *)
(** * Split virtqueues

    [hitz-devices/src/virtio/queue.rs]: a virtqueue reads its descriptor table
    and available ring from guest memory and writes its used ring there.  The
    guest controls all three addresses and their contents; the definitions are
    over any [GuestMemAccess].  [while_desc] and [while_pop] are the two loop
    shapes of the device backends that consume a queue. *)

From S2P Require Import Prelude Hal Memory.

(** ** Constants and state *)

Definition VIRTQ_DESC_F_NEXT : Z := 1.
Definition VIRTQ_DESC_F_WRITE : Z := 2.
Definition MAX_QUEUE_SIZE : Z := 256.

Record VirtQueue := {
  q_size : Z;
  q_desc_gpa : Z;
  q_avail_gpa : Z;
  q_used_gpa : Z;
  last_avail_idx : Z;
  q_ready : bool;
}.

Record DescriptorChain := {
  dc_desc_gpa : Z;
  dc_queue_size : Z;
  head_idx : Z;
  next_idx : option Z;
  dc_count : Z;
}.

Record Descriptor := {
  d_gpa : Z;
  d_len : Z;
  is_device_writable : bool;
}.

#[export] Instance VirtQueue_eq_dec : EqDecision VirtQueue.
Proof. solve_decision. Defined.
#[export] Instance Descriptor_eq_dec : EqDecision Descriptor.
Proof. solve_decision. Defined.

(** ** Configuration *)

Definition queue_new (size : Z) : VirtQueue :=
  let size := if (size =? 0) || (MAX_QUEUE_SIZE <? size) then MAX_QUEUE_SIZE else size in
  {| q_size := size; q_desc_gpa := 0; q_avail_gpa := 0; q_used_gpa := 0;
     last_avail_idx := 0; q_ready := false |}.

Definition configure (q : VirtQueue) (desc avail used : Z) : VirtQueue :=
  {| q_size := q_size q; q_desc_gpa := desc; q_avail_gpa := avail; q_used_gpa := used;
     last_avail_idx := last_avail_idx q; q_ready := q_ready q |}.

Definition set_ready (q : VirtQueue) (ready : bool) : VirtQueue :=
  {| q_size := q_size q; q_desc_gpa := q_desc_gpa q; q_avail_gpa := q_avail_gpa q;
     q_used_gpa := q_used_gpa q; last_avail_idx := last_avail_idx q; q_ready := ready |}.

Definition is_ready (q : VirtQueue) : bool := q_ready q.

Definition set_size (q : VirtQueue) (size : Z) : VirtQueue :=
  if (0 <? size) && (size <=? MAX_QUEUE_SIZE) then
    {| q_size := size; q_desc_gpa := q_desc_gpa q; q_avail_gpa := q_avail_gpa q;
       q_used_gpa := q_used_gpa q; last_avail_idx := last_avail_idx q; q_ready := q_ready q |}
  else q.

Definition queue_reset (q : VirtQueue) : VirtQueue :=
  {| q_size := MAX_QUEUE_SIZE; q_desc_gpa := 0; q_avail_gpa := 0; q_used_gpa := 0;
     last_avail_idx := 0; q_ready := false |}.

(** ** Ring accesses *)

Section Rings.
Context {M : Type} `{GuestMemAccess M}.

Definition read_u16 (mem : M) (gpa : Z) : option Z := from_le <$> res_ok (read_guest mem gpa 2).

Definition advance_avail (q : VirtQueue) : VirtQueue :=
  {| q_size := q_size q; q_desc_gpa := q_desc_gpa q; q_avail_gpa := q_avail_gpa q;
     q_used_gpa := q_used_gpa q; last_avail_idx := wrapping_add 16 (last_avail_idx q) 1;
     q_ready := q_ready q |}.

(** [VirtQueue::pop_chain].  The [u16] remainder panics for a size of zero,
    which [queue_wf] excludes. *)
Definition pop_chain (q : VirtQueue) (mem : M) : option DescriptorChain * VirtQueue :=
  if negb (q_ready q) then (None, q)
  else
    let popped :=
      avail_idx_gpa ← checked_add 64 (q_avail_gpa q) 2;
      avail_idx ← read_u16 mem avail_idx_gpa;
      if last_avail_idx q =? avail_idx then None
      else
        let ring_offset := (last_avail_idx q mod q_size q) * 2 in
        ring_gpa ← checked_add 64 (q_avail_gpa q) 4;
        head_idx_gpa ← checked_add 64 ring_gpa ring_offset;
        read_u16 mem head_idx_gpa in
    match popped with
    | None => (None, q)
    | Some head =>
        (Some {| dc_desc_gpa := q_desc_gpa q; dc_queue_size := q_size q; head_idx := head;
                 next_idx := Some head; dc_count := 0 |}, advance_avail q)
    end.

(** [VirtQueue::push_used]: failed writes are ignored one by one. *)
Definition push_used (q : VirtQueue) (mem : M) (head len : Z) : M :=
  match checked_add 64 (q_used_gpa q) 2 with
  | None => mem
  | Some idx_gpa =>
      match read_u16 mem idx_gpa with
      | None => mem
      | Some used_idx =>
          let ring_offset := (used_idx mod q_size q) * 8 in
          match (x ← checked_add 64 (q_used_gpa q) 4; checked_add 64 x ring_offset) with
          | None => mem
          | Some elem_gpa =>
              let mem1 := write_guest_ignore mem elem_gpa (le_bytes 4 head) in
              let mem2 :=
                match checked_add 64 elem_gpa 4 with
                | Some elem_len_gpa => write_guest_ignore mem1 elem_len_gpa (le_bytes 4 len)
                | None => mem1
                end in
              let new_idx := wrapping_add 16 used_idx 1 in
              write_guest_ignore mem2 idx_gpa (le_bytes 2 new_idx)
          end
      end
  end.

(** ** Descriptor chains *)

Definition head_index (c : DescriptorChain) : Z := head_idx c.

Definition chain_at (c : DescriptorChain) (next : option Z) (count : Z) : DescriptorChain :=
  {| dc_desc_gpa := dc_desc_gpa c; dc_queue_size := dc_queue_size c; head_idx := head_idx c;
     next_idx := next; dc_count := count |}.

(** [DescriptorChain::next_descriptor].  A table address past the 64-bit space
    ends the call but leaves [next_idx] as it is; every other failure clears it. *)
Definition next_descriptor (c : DescriptorChain) (mem : M) : option Descriptor * DescriptorChain :=
  match next_idx c with
  | None => (None, c)
  | Some idx =>
      if dc_queue_size c <=? idx then (None, chain_at c None (dc_count c))
      else if dc_queue_size c <=? dc_count c then (None, chain_at c None (dc_count c))
      else
        let count := dc_count c + 1 in
        match checked_add 64 (dc_desc_gpa c) (idx * 16) with
        | None => (None, chain_at c (Some idx) count)
        | Some desc_addr =>
            match read_guest mem desc_addr 16 with
            | Err _ => (None, chain_at c None count)
            | Ok buf =>
                let gpa := from_le (slice 0 8 buf) in
                let len := from_le (slice 8 12 buf) in
                let flags := from_le (slice 12 14 buf) in
                let next := from_le (slice 14 16 buf) in
                let writable := negb (Z.land flags VIRTQ_DESC_F_WRITE =? 0) in
                let next_idx :=
                  if negb (Z.land flags VIRTQ_DESC_F_NEXT =? 0) then Some next else None in
                (Some {| d_gpa := gpa; d_len := len; is_device_writable := writable |},
                 chain_at c next_idx count)
            end
        end
  end.

(** ** Consuming loops

    [while let Some(desc) = chain.next_descriptor(mem) { body }]: [body] gives
    the new loop state and memory and whether it broke out. *)
Fixpoint while_desc {A} (fuel : nat) (body : A -> M -> Descriptor -> A * M * bool)
    (a : A) (mem : M) (c : DescriptorChain) : A * M * DescriptorChain :=
  match fuel with
  | O => (a, mem, c)
  | S fuel' =>
      match next_descriptor c mem with
      | (None, c') => (a, mem, c')
      | (Some desc, c') =>
          let '(a', mem', brk) := body a mem desc in
          if brk then (a', mem', c') else while_desc fuel' body a' mem' c'
      end
  end.

(** One turn per descriptor the chain may still give, and one to see its end. *)
Definition desc_fuel (c : DescriptorChain) : nat := S (Z.to_nat (dc_queue_size c - dc_count c)).

(** [while let Some(mut chain) = queue.pop_chain(mem) { body; push_used }]:
    [body] gives the new device and memory and the length to publish.  [None]
    says that [fuel] turns were not enough. *)
Fixpoint while_pop {D} (fuel : nat) (body : D -> M -> DescriptorChain -> D * M * Z)
    (d : D) (q : VirtQueue) (mem : M) : option (D * VirtQueue * M) :=
  match fuel with
  | O => None
  | S fuel' =>
      match pop_chain q mem with
      | (None, q') => Some (d, q', mem)
      | (Some chain, q') =>
          let head := head_index chain in
          let '(d', mem', len) := body d mem chain in
          while_pop fuel' body d' q' (push_used q' mem' head len)
      end
  end.

(** ** Specification of the available ring

    The entries the guest has made available and the device has not consumed:
    ring positions [last_avail_idx .. avail.idx), modulo 2^16. *)
Definition avail_idx (q : VirtQueue) (mem : M) : option Z :=
  gpa ← checked_add 64 (q_avail_gpa q) 2; read_u16 mem gpa.

Definition ring_slot (q : VirtQueue) (idx : Z) : Z := wrap 16 idx mod q_size q.

Definition ring_entry (q : VirtQueue) (mem : M) (idx : Z) : option Z :=
  ring ← checked_add 64 (q_avail_gpa q) 4;
  gpa ← checked_add 64 ring (ring_slot q idx * 2);
  read_u16 mem gpa.

Definition pending_count (q : VirtQueue) (mem : M) : nat :=
  match avail_idx q mem with
  | Some i => Z.to_nat (wrap 16 (i - last_avail_idx q))
  | None => 0
  end.

Definition pending (q : VirtQueue) (mem : M) : list (option Z) :=
  (fun k => ring_entry q mem (last_avail_idx q + Z.of_nat k)) <$> seq 0 (pending_count q mem).

(** Turns a pop loop needs when nothing but pops moves the ring. *)
Definition pop_fuel (q : VirtQueue) (mem : M) : nat := S (pending_count q mem).

(** The descriptors a chain gives, in order. *)
Definition descriptors (c : DescriptorChain) (mem : M) : list Descriptor :=
  (while_desc (desc_fuel c) (fun ds m d => (ds ++ [d], m, false)) [] mem c).1.1.

(** The readable buffers of a chain, one after the other; [None] when one of
    them is not mapped. *)
Fixpoint readable_bytes (mem : M) (ds : list Descriptor) : option (list Z) :=
  match ds with
  | [] => Some []
  | d :: ds' =>
      if is_device_writable d then readable_bytes mem ds'
      else
        bs ← res_ok (read_guest mem (d_gpa d) (Z.to_nat (d_len d)));
        rest ← readable_bytes mem ds'; Some (bs ++ rest)
  end.

(** *** The used ring *)

Definition used_idx (q : VirtQueue) (mem : M) : option Z :=
  gpa ← checked_add 64 (q_used_gpa q) 2; read_u16 mem gpa.

(** The address of the used element that index [i] publishes to. *)
Definition used_elem (q : VirtQueue) (i : Z) : Z := q_used_gpa q + 4 + (i mod q_size q) * 8.

(** The three writes of [push_used]. *)
Definition used_writes (q : VirtQueue) (mem : M) (i head len : Z) : M :=
  write_guest_ignore
    (write_guest_ignore (write_guest_ignore mem (used_elem q i) (le_bytes 4 head))
       (used_elem q i + 4) (le_bytes 4 len))
    (q_used_gpa q + 2) (le_bytes 2 (wrapping_add 16 i 1)).

(** *** Draining a queue *)

(** The chain that [pop_chain] gives for a head. *)
Definition chain_of (q : VirtQueue) (h : Z) : DescriptorChain :=
  {| dc_desc_gpa := q_desc_gpa q; dc_queue_size := q_size q; head_idx := h;
     next_idx := Some h; dc_count := 0 |}.

(** Address ranges away from the used ring, and memories that agree there. *)
Definition off_used (q : VirtQueue) (g n : Z) : Prop :=
  disjoint_range (q_used_gpa q) (4 + 8 * q_size q) g n.

Definition same_off_used (q : VirtQueue) (mem mem' : M) : Prop :=
  forall g n, off_used q g (Z.of_nat n) -> read_guest mem' g n = read_guest mem g n.

(** A driver's layout: the available ring and the descriptor table do not meet
    the used ring, which ends inside the address space and has a readable index. *)
Definition layout_ok (q : VirtQueue) (mem : M) : Prop :=
  off_used q (q_avail_gpa q) (4 + 2 * q_size q) /\
  off_used q (q_desc_gpa q) (16 * q_size q) /\
  q_used_gpa q + 4 + 8 * q_size q < 2 ^ 64 /\ is_Some (used_idx q mem).

End Rings.

(** ** Invariant *)

Definition queue_wf (q : VirtQueue) : Prop :=
  1 <= q_size q <= MAX_QUEUE_SIZE /\ u64 (q_desc_gpa q) /\ u64 (q_avail_gpa q) /\
  u64 (q_used_gpa q) /\ u16 (last_avail_idx q).

(** Chains as [pop_chain] makes them and [next_descriptor] leaves them. *)
Definition chain_wf (c : DescriptorChain) : Prop :=
  1 <= dc_queue_size c <= MAX_QUEUE_SIZE /\ 0 <= dc_count c <= dc_queue_size c /\
  u64 (dc_desc_gpa c) /\ u16 (head_idx c) /\
  match next_idx c with Some i => u16 i | None => True end.

(** The used ring's bytes do not meet the index of the available ring. *)
Definition rings_separate (q : VirtQueue) : Prop :=
  disjoint_range (q_used_gpa q) (4 + 8 * q_size q) (q_avail_gpa q + 2) 2.

#[export] Instance queue_wf_dec q : Decision (queue_wf q).
Proof. unfold queue_wf. apply _. Defined.
#[export] Instance rings_separate_dec q : Decision (rings_separate q).
Proof. unfold rings_separate. apply _. Defined.

(** ** An example layout *)

(** Rings at 0x000 (descriptors), 0x400 (available: index 2, entries 5 and 7)
    and 0x600 (used), with a two-descriptor chain at 5. *)
Definition demo_ring_memory : GuestMemory :=
  let w m a d := write_guest_ignore m a d in
  let m := ram_at 0 4096 in
  let m := w m 0x402 (le_bytes 2 2 ++ le_bytes 2 5 ++ le_bytes 2 7) in
  let m := w m (5 * 16) (le_bytes 8 0x800 ++ le_bytes 4 16 ++ le_bytes 2 1 ++ le_bytes 2 6) in
  w m (6 * 16) (le_bytes 8 0x900 ++ le_bytes 4 512 ++ le_bytes 2 2 ++ le_bytes 2 0).

Definition demo_queue : VirtQueue := set_ready (configure (queue_new 8) 0 0x400 0x600) true.

(** ** Lemmas: configuration *)

Lemma queue_new_wf size : 0 <= size -> queue_wf (queue_new size).
Proof.
  intros. unfold queue_wf, queue_new, MAX_QUEUE_SIZE, in_range. simpl. repeat case_on; lia.
Qed.

Lemma configure_wf q d a u :
  queue_wf q -> u64 d -> u64 a -> u64 u -> queue_wf (configure q d a u).
Proof. unfold queue_wf. simpl. tauto. Qed.

Lemma set_ready_wf q b : queue_wf q -> queue_wf (set_ready q b).
Proof. unfold queue_wf. simpl. tauto. Qed.

Lemma set_size_wf q s : queue_wf q -> queue_wf (set_size q s).
Proof.
  unfold queue_wf, set_size. intros H. case_on; [|done]. b2p. simpl. intuition lia.
Qed.

Lemma queue_reset_wf q : queue_wf (queue_reset q).
Proof. unfold queue_wf, queue_reset, MAX_QUEUE_SIZE, in_range. simpl. lia. Qed.

#[export] Hint Resolve queue_new_wf configure_wf set_ready_wf set_size_wf queue_reset_wf : hitz.

(** ** Lemmas: rings *)

Section RingLemmas.
Context {M : Type} `{GuestMemLaws M}.
Implicit Types (q : VirtQueue) (mem : M) (c : DescriptorChain).

Lemma read_u16_range mem g v : mem_wf mem -> read_u16 mem g = Some v -> u16 v.
Proof.
  intros Hwf. unfold read_u16. destruct (read_guest mem g 2) as [bs|] eqn:E; [|done].
  apply read_guest_ok in E as [Hl Hb]; [|done]. intros [= <-].
  apply from_le_bound in Hb. unfold zlen in Hb. rewrite Hl in Hb. exact Hb.
Qed.

Lemma read_u16_write_ignore_disjoint mem g d g' :
  mem_wf mem -> bytes_ok d -> disjoint_range g (zlen d) g' 2 ->
  read_u16 (write_guest_ignore mem g d) g' = read_u16 mem g'.
Proof.
  intros Hm Hd Hdis. unfold read_u16. by rewrite read_write_ignore_disjoint.
Qed.

Lemma read_u16_is_Some mem g : is_Some (read_u16 mem g) <-> is_ok (read_guest mem g 2) = true.
Proof.
  unfold read_u16. destruct (read_guest mem g 2); simpl; split; [done|eauto|by intros []|done].
Qed.

Lemma advance_avail_wf q : queue_wf q -> queue_wf (advance_avail q).
Proof.
  intros (? & ? & ? & ? & _). do 4 (split; [done|]). apply wrap_range. lia.
Qed.

Lemma pending_nil q mem :
  queue_wf q -> mem_wf mem ->
  pending q mem = [] <-> avail_idx q mem = None \/ avail_idx q mem = Some (last_avail_idx q).
Proof.
  intros (? & ? & ? & ? & Hl) Hm. unfold pending, pending_count.
  destruct (avail_idx q mem) as [i|] eqn:E; [|simpl; tauto].
  assert (Hi : u16 i).
  { unfold avail_idx in E. apply bind_Some in E as (g & _ & E). by eapply read_u16_range. }
  split.
  - intros Hp. right. f_equal. destruct (decide (i = last_avail_idx q)) as [|Hne]; [done|].
    apply (wrap_dist_pos 16) in Hne; [|lia|done..].
    destruct (Z.to_nat (wrap 16 (i - last_avail_idx q))) eqn:En; [lia|done].
  - intros [|[= ->]]; [done|]. by rewrite Z.sub_diag.
Qed.

Lemma pending_cons q mem i :
  queue_wf q -> mem_wf mem -> avail_idx q mem = Some i -> i <> last_avail_idx q ->
  pending q mem = ring_entry q mem (last_avail_idx q) :: pending (advance_avail q) mem.
Proof.
  intros (? & ? & ? & ? & Hl) Hm E Hne.
  assert (Hi : u16 i).
  { unfold avail_idx in E. apply bind_Some in E as (g & _ & E). by eapply read_u16_range. }
  pose proof (wrap_dist_pos 16 i (last_avail_idx q) ltac:(lia) Hi Hl Hne) as Hpos.
  pose proof (wrap_dist_succ 16 i (last_avail_idx q) ltac:(lia) Hpos) as Hs.
  unfold pending, pending_count.
  change (avail_idx (advance_avail q) mem) with (avail_idx q mem). rewrite E. simpl.
  unfold wrapping_add. rewrite Hs.
  replace (Z.to_nat (wrap 16 (i - last_avail_idx q)))
    with (S (Z.to_nat (wrap 16 (i - last_avail_idx q) - 1))) by lia.
  simpl. f_equal; [f_equal; lia|].
  rewrite <- fmap_S_seq, <- list_fmap_compose. apply list_fmap_ext. intros k x Hk.
  unfold ring_entry, ring_slot, advance_avail, wrapping_add. cbn [q_size q_avail_gpa last_avail_idx compose].
  rewrite (wrap_add_l 16) by lia.
  by replace (last_avail_idx q + 1 + Z.of_nat x) with (last_avail_idx q + Z.of_nat (S x)) by lia.
Qed.

(** What [pop_chain] does, against the pending entries. *)
Lemma pop_chain_spec q mem :
  queue_wf q -> mem_wf mem ->
  pop_chain q mem =
    match q_ready q, pending q mem with
    | true, Some h :: _ =>
        (Some {| dc_desc_gpa := q_desc_gpa q; dc_queue_size := q_size q; head_idx := h;
                 next_idx := Some h; dc_count := 0 |}, advance_avail q)
    | _, _ => (None, q)
    end.
Proof.
  intros Hq Hm. unfold pop_chain. destruct (q_ready q); [|done]. simpl negb. cbv iota.
  destruct (avail_idx q mem) as [i|] eqn:E; unfold avail_idx in E.
  - destruct (checked_add 64 (q_avail_gpa q) 2) as [g|] eqn:Eg; [|done]. simpl in E |- *.
    rewrite E. simpl. destruct (last_avail_idx q =? i) eqn:El; b2p.
    + rewrite (proj2 (pending_nil q mem Hq Hm)); [done|]. right. unfold avail_idx.
      rewrite Eg. simpl. congruence.
    + erewrite (pending_cons q mem i Hq Hm); [|unfold avail_idx; by rewrite Eg|congruence].
      destruct Hq as (? & ? & ? & ? & Hl).
      unfold ring_entry, ring_slot. rewrite (wrap_small 16) by done.
      destruct (checked_add 64 (q_avail_gpa q) 4) as [r|]; [|done]. simpl.
      destruct (checked_add 64 r _) as [hg|]; [|done]. simpl.
      by destruct (read_u16 mem hg).
  - rewrite (proj2 (pending_nil q mem Hq Hm)) by (left; unfold avail_idx; exact E).
    destruct (checked_add 64 (q_avail_gpa q) 2) as [g|]; [|done]. simpl in *. by rewrite E.
Qed.

Lemma pop_chain_Some q mem c q' :
  queue_wf q -> mem_wf mem -> pop_chain q mem = (Some c, q') ->
  q' = advance_avail q /\ chain_wf c /\
  pending q mem = Some (head_idx c) :: pending q' mem /\
  pending_count q mem = S (pending_count q' mem) /\ queue_wf q'.
Proof.
  intros Hq Hm. rewrite pop_chain_spec by done. destruct (q_ready q); [|done].
  destruct (pending q mem) as [|[h|] t] eqn:Hp; [done| |done]. intros [= <- <-].
  destruct (avail_idx q mem) as [i|] eqn:Ei.
  2: { assert (pending q mem = []) by (by apply pending_nil; auto). congruence. }
  destruct (decide (i = last_avail_idx q)) as [->|Hne].
  { assert (pending q mem = []) by (by apply pending_nil; auto). congruence. }
  pose proof (pending_cons q mem i Hq Hm Ei Hne) as Hc. rewrite Hp in Hc.
  injection Hc as Hh Ht.
  assert (u16 h).
  { symmetry in Hh. unfold ring_entry in Hh. apply bind_Some in Hh as (? & _ & Hh).
    apply bind_Some in Hh as (? & _ & Hh). by eapply read_u16_range. }
  pose proof (f_equal length Hp) as Hlen. rewrite Ht in Hlen.
  unfold pending in Hlen. simpl in Hlen. rewrite !length_fmap, !length_seq in Hlen.
  split_and!; [done| |by rewrite <- Ht|done|by apply advance_avail_wf].
  destruct Hq as (? & ? & ? & ? & ?). unfold chain_wf. simpl. split_and!; try done; lia.
Qed.

Lemma pop_chain_None q mem q' : pop_chain q mem = (None, q') -> q' = q.
Proof. unfold pop_chain. repeat case_on; naive_solver. Qed.

(** *** Publishing *)

Lemma used_elem_bounds q i :
  queue_wf q -> q_used_gpa q + 4 <= used_elem q i /\
  used_elem q i + 8 <= q_used_gpa q + 4 + 8 * q_size q.
Proof.
  intros (Hs & _). unfold used_elem. pose proof (Z.mod_pos_bound i (q_size q) ltac:(lia)). lia.
Qed.

Lemma used_writes_idx q mem i head len :
  mem_wf mem -> is_ok (read_guest mem (q_used_gpa q + 2) 2) = true ->
  read_u16 (used_writes q mem i head len) (q_used_gpa q + 2) = Some (wrapping_add 16 i 1).
Proof.
  intros Hm Hr. unfold used_writes, read_u16.
  set (m2 := write_guest_ignore (write_guest_ignore mem _ _) _ _).
  assert (mem_wf m2) by (unfold m2; auto with hitz).
  assert (is_ok (read_guest m2 (q_used_gpa q + 2) 2) = true).
  { unfold m2. rewrite !read_write_ignore_mapped; auto with hitz. }
  pose proof (read_write_ignore_same m2 (q_used_gpa q + 2) (le_bytes 2 (wrapping_add 16 i 1))) as Hw.
  rewrite length_le_bytes in Hw. rewrite Hw by auto with hitz.
  cbn [res_ok fmap option_fmap option_map]. f_equal.
  apply from_le_le_bytes_id. apply (wrap_range 16). lia.
Qed.

(** Inside the address space, [push_used] does nothing (the index cannot be
    read) or makes [used_writes]. *)
Lemma push_used_spec q mem head len :
  queue_wf q -> q_used_gpa q + 4 + 8 * q_size q < 2 ^ 64 ->
  push_used q mem head len =
    match used_idx q mem with
    | Some i => used_writes q mem i head len
    | None => mem
    end.
Proof.
  intros Hq Hend. unfold push_used, used_idx, used_writes.
  pose proof Hq as (Hs & _ & _ & Hu & _). unfold in_range in Hu.
  checked_step.
  destruct (read_u16 mem (q_used_gpa q + 2)) as [i|]; [|done].
  pose proof (used_elem_bounds q i Hq).
  unfold used_elem in *. by do 3 checked_step.
Qed.

Lemma push_used_wf q mem head len : mem_wf mem -> mem_wf (push_used q mem head len).
Proof.
  intros Hm. unfold push_used. repeat case_on; auto with hitz.
Qed.

Lemma le_bytes_zlen n v : zlen (le_bytes n v) = Z.of_nat n.
Proof. unfold zlen. by rewrite length_le_bytes. Qed.

(** Nothing outside the used ring changes. *)
Lemma push_used_frame q mem head len g n :
  queue_wf q -> mem_wf mem -> q_used_gpa q + 4 + 8 * q_size q < 2 ^ 64 ->
  disjoint_range (q_used_gpa q) (4 + 8 * q_size q) g (Z.of_nat n) ->
  read_guest (push_used q mem head len) g n = read_guest mem g n.
Proof.
  intros Hq Hm Hend Hd. rewrite push_used_spec by done.
  destruct (used_idx q mem) as [i|]; [|done]. unfold used_writes.
  pose proof (used_elem_bounds q i Hq). pose proof Hq as (Hs & _).
  unfold disjoint_range in *.
  rewrite !read_write_ignore_disjoint; auto with hitz;
    unfold disjoint_range; rewrite le_bytes_zlen; lia.
Qed.

Lemma push_used_avail_idx q mem head len :
  queue_wf q -> mem_wf mem -> q_used_gpa q + 4 + 8 * q_size q < 2 ^ 64 -> rings_separate q ->
  avail_idx q (push_used q mem head len) = avail_idx q mem.
Proof.
  intros Hq Hm Hend Hd. unfold avail_idx.
  destruct (checked_add 64 (q_avail_gpa q) 2) as [g|] eqn:E; [|done].
  apply checked_add_Some in E as [_ ->]. simpl. unfold read_u16.
  by rewrite push_used_frame.
Qed.

(** *** Chains *)

Lemma next_descriptor_Some c mem d c' :
  chain_wf c -> mem_wf mem -> next_descriptor c mem = (Some d, c') ->
  chain_wf c' /\ dc_count c' = dc_count c + 1 /\ dc_queue_size c' = dc_queue_size c /\
  head_idx c' = head_idx c /\ dc_count c < dc_queue_size c /\ u64 (d_gpa d) /\ u32 (d_len d).
Proof.
  intros (Hs & Hc & Hg & Hh & Hn) Hm. unfold next_descriptor.
  destruct (next_idx c) as [i|]; [|done].
  destruct (dc_queue_size c <=? i) eqn:Hi; [done|].
  destruct (dc_queue_size c <=? dc_count c) eqn:Hcnt; [done|]. b2p. cbv zeta.
  destruct (checked_add 64 _ _) as [a|]; [|done].
  destruct (read_guest mem a 16) as [buf|] eqn:Hr; [|done].
  apply read_guest_ok in Hr as [Hl Hb]; [|done]. intros [= <- <-].
  assert (Hf : forall a b, (a <= b <= 16)%nat -> 0 <= from_le (slice a b buf) < 256 ^ Z.of_nat (b - a)).
  { intros a' b' Hab. pose proof (from_le_bound _ (bytes_ok_slice a' b' buf Hb)) as Hbd.
    unfold zlen in Hbd. rewrite length_slice in Hbd by lia. exact Hbd. }
  unfold chain_wf; splits; simpl; try done; try lia.
  - case_on; [|done]. apply (Hf 14%nat 16%nat). lia.
  - apply (Hf 0%nat 8%nat). lia.
  - apply (Hf 8%nat 12%nat). lia.
Qed.

Lemma next_descriptor_count c mem d c' :
  next_descriptor c mem = (Some d, c') ->
  dc_count c < dc_queue_size c /\ dc_count c' = dc_count c + 1 /\ dc_queue_size c' = dc_queue_size c.
Proof.
  unfold next_descriptor. intros Hn. repeat case_on; simplify_eq; b2p; simpl; lia.
Qed.

Lemma next_descriptor_table c mem o c' :
  next_descriptor c mem = (o, c') ->
  dc_desc_gpa c' = dc_desc_gpa c /\ dc_queue_size c' = dc_queue_size c.
Proof. unfold next_descriptor. intros Hn. repeat case_on; simplify_eq; done. Qed.

(** [desc_fuel] turns are enough: more never change the result. *)
Lemma while_desc_fuel {A} (body : A -> M -> Descriptor -> A * M * bool) n m a mem c :
  (desc_fuel c <= n)%nat -> (desc_fuel c <= m)%nat ->
  while_desc n body a mem c = while_desc m body a mem c.
Proof.
  unfold desc_fuel. revert m a mem c. induction n as [|n IH]; intros m a mem c Hn Hm; [lia|].
  destruct m as [|m]; [lia|]. cbn [while_desc].
  destruct (next_descriptor c mem) as [[d|] c'] eqn:E; [|done].
  destruct (body a mem d) as [[a' mem'] []]; [done|].
  apply next_descriptor_count in E as (? & E1 & E2). apply IH; lia.
Qed.

Lemma while_desc_collect_app n ds mem c :
  (while_desc n (fun ds m d => (ds ++ [d], m, false)) ds mem c).1.1 =
  ds ++ (while_desc n (fun ds m d => (ds ++ [d], m, false)) [] mem c).1.1.
Proof.
  revert ds c. induction n as [|n IH]; intros ds c; cbn [while_desc]; [by rewrite app_nil_r|].
  destruct (next_descriptor c mem) as [[d|] c'] eqn:E; [|by rewrite app_nil_r].
  rewrite IH, (IH ([] ++ [d])). by rewrite <- app_assoc.
Qed.

(** The descriptors of a chain, one at a time. *)
Lemma descriptors_unfold c mem :
  descriptors c mem =
    match next_descriptor c mem with
    | (Some d, c') => d :: descriptors c' mem
    | (None, _) => []
    end.
Proof.
  unfold descriptors at 1. unfold desc_fuel at 1. cbn [while_desc].
  destruct (next_descriptor c mem) as [[d|] c'] eqn:E; [|done].
  apply next_descriptor_count in E as (Hc & E1 & E2).
  rewrite while_desc_collect_app. simpl. f_equal. unfold descriptors. f_equal. f_equal.
  apply while_desc_fuel; unfold desc_fuel; lia.
Qed.

Lemma descriptors_cons c mem d ds :
  descriptors c mem = d :: ds ->
  exists c', next_descriptor c mem = (Some d, c') /\ descriptors c' mem = ds.
Proof.
  rewrite descriptors_unfold. destruct (next_descriptor c mem) as [[d'|] c']; [|done].
  intros [= -> <-]. eauto.
Qed.

(** A write away from the descriptor table does not change a chain. *)
Lemma next_descriptor_frame c mem g d :
  mem_wf mem -> bytes_ok d -> chain_wf c ->
  disjoint_range g (zlen d) (dc_desc_gpa c) (16 * dc_queue_size c) ->
  next_descriptor c (write_guest_ignore mem g d) = next_descriptor c mem.
Proof.
  intros Hm Hd (_ & _ & _ & _ & Hn) Hdis. unfold next_descriptor.
  destruct (next_idx c) as [i|]; [|done].
  destruct (dc_queue_size c <=? i) eqn:E1; [done|].
  destruct (dc_queue_size c <=? dc_count c); [done|]. b2p. cbv zeta.
  destruct (checked_add 64 _ _) as [a|] eqn:Ea; [|done].
  apply checked_add_Some in Ea as [_ ->].
  rewrite read_write_ignore_disjoint; [done..|]. unfold disjoint_range, in_range in *. lia.
Qed.

Lemma descriptors_frame c mem g d :
  mem_wf mem -> bytes_ok d -> chain_wf c ->
  disjoint_range g (zlen d) (dc_desc_gpa c) (16 * dc_queue_size c) ->
  descriptors c (write_guest_ignore mem g d) = descriptors c mem.
Proof.
  intros Hm Hd. remember (Z.to_nat (dc_queue_size c - dc_count c)) as n eqn:En.
  revert c En. induction n as [|n IH]; intros c En Hc Hdis;
    rewrite !descriptors_unfold, next_descriptor_frame by done;
    (destruct (next_descriptor c mem) as [[x|] c'] eqn:E; [|done]);
    pose proof (next_descriptor_count _ _ _ _ E) as (? & ? & ?); [lia|].
  pose proof (next_descriptor_table _ _ _ _ E) as [E1 E2].
  apply next_descriptor_Some in E as (Hc' & _); [|done..].
  f_equal. apply IH; [lia|done|]. by rewrite E1, E2.
Qed.

(** The rule for invariants of a descriptor loop. *)
Lemma while_desc_ind {A} (P : A -> M -> Prop) (body : A -> M -> Descriptor -> A * M * bool) :
  (forall a mem d a' mem' b, P a mem -> mem_wf mem -> u64 (d_gpa d) -> u32 (d_len d) ->
     body a mem d = (a', mem', b) -> P a' mem' /\ mem_wf mem') ->
  forall n a mem c a' mem' c',
    P a mem -> mem_wf mem -> chain_wf c -> while_desc n body a mem c = (a', mem', c') ->
    P a' mem' /\ mem_wf mem' /\ head_idx c' = head_idx c.
Proof.
  intros Hb n. induction n as [|n IH]; intros a mem c a' mem' c' HP Hm Hc; cbn [while_desc].
  { intros [= <- <- <-]. done. }
  destruct (next_descriptor c mem) as [[d|] c1] eqn:E.
  - apply next_descriptor_Some in E as (Hc1 & _ & _ & Hh & _ & Hg & Hl); [|done..].
    destruct (body a mem d) as [[a1 mem1] brk] eqn:Eb.
    destruct (Hb _ _ _ _ _ _ HP Hm Hg Hl Eb) as [HP1 Hm1]. destruct brk.
    + intros [= <- <- <-]. done.
    + intros Hw. rewrite <- Hh. by eapply IH.
  - intros [= <- <- <-]. split_and!; [done..|].
    unfold next_descriptor in E. repeat case_on; simplify_eq; done.
Qed.

(** The rule for invariants of a pop loop. *)
Lemma while_pop_ind {D} (P : D -> M -> Prop) (body : D -> M -> DescriptorChain -> D * M * Z) :
  (forall d mem c d' mem' len, P d mem -> mem_wf mem -> chain_wf c ->
     body d mem c = (d', mem', len) -> P d' mem' /\ mem_wf mem') ->
  (forall d q mem h len, P d mem -> P d (push_used q mem h len)) ->
  forall fuel d q mem d' q' mem',
    P d mem -> queue_wf q -> mem_wf mem -> while_pop fuel body d q mem = Some (d', q', mem') ->
    P d' mem' /\ queue_wf q' /\ mem_wf mem'.
Proof.
  intros Hb Hpu fuel. induction fuel as [|fuel IH]; intros d q mem d' q' mem' HP Hq Hm; [done|].
  cbn [while_pop]. destruct (pop_chain q mem) as [[c|] q1] eqn:E.
  - apply pop_chain_Some in E as (_ & Hc & _ & _ & Hq1); [|done..].
    destruct (body d mem c) as [[d1 m1] len] eqn:Eb.
    destruct (Hb _ _ _ _ _ _ HP Hm Hc Eb) as [HP1 Hm1].
    apply IH; [by apply Hpu|done|by apply push_used_wf].
  - apply pop_chain_None in E as ->. by intros [= <- <- <-].
Qed.

(** A loop that appends the readable buffers collects exactly their bytes. *)
Lemma while_desc_gather (body : list Z -> M -> Descriptor -> list Z * M * bool)
    (P : Descriptor -> Prop) limit mem :
  (forall raw ds bs, P ds -> is_device_writable ds = false ->
     read_guest mem (d_gpa ds) (Z.to_nat (d_len ds)) = Ok bs -> zlen bs = d_len ds ->
     zlen raw + d_len ds <= limit -> body raw mem ds = (raw ++ bs, mem, false)) ->
  (forall raw ds, P ds -> is_device_writable ds = true -> body raw mem ds = (raw, mem, false)) ->
  mem_wf mem ->
  forall bs c raw,
    chain_wf c -> Forall P (descriptors c mem) ->
    readable_bytes mem (descriptors c mem) = Some bs -> zlen raw + zlen bs <= limit ->
    (while_desc (desc_fuel c) body raw mem c).1.1 = raw ++ bs.
Proof.
  intros Hrd Hwr Hm bs c. unfold desc_fuel.
  remember (Z.to_nat (dc_queue_size c - dc_count c)) as n eqn:En. revert bs c En.
  induction n as [|n IH]; intros bs c En raw Hc HP Hr Hl; cbn [while_desc];
    rewrite descriptors_unfold in Hr, HP;
    (destruct (next_descriptor c mem) as [[ds|] c'] eqn:E;
      [|injection Hr as <-; by rewrite app_nil_r]);
    pose proof (next_descriptor_count _ _ _ _ E) as (? & ? & ?); [lia|].
  apply next_descriptor_Some in E as (Hc' & _ & _ & _ & _ & _ & Hdl); [|done..].
  inversion_clear HP as [|? ? Hp Hps]. cbn [readable_bytes] in Hr.
  destruct (is_device_writable ds) eqn:Ew; [rewrite Hwr by done; apply IH; done || lia|].
  destruct (read_guest mem _ _) as [b1|] eqn:Er; [|done]. simpl in Hr.
  apply bind_Some in Hr as (rest & Hr & [= <-]).
  pose proof (read_guest_ok _ _ _ _ Hm Er) as [Hb1 _]. rewrite zlen_app in Hl.
  pose proof (zlen_nonneg rest).
  assert (zlen b1 = d_len ds) by (unfold zlen, in_range in *; lia).
  rewrite (Hrd _ _ b1) by (done || lia). rewrite app_assoc. apply IH; try done; [lia|].
  rewrite zlen_app. lia.
Qed.

(** *** The pop loop ends when the rings are separate *)

Lemma while_pop_total {D} (body : D -> M -> DescriptorChain -> D * M * Z) fuel d q mem :
  (forall d mem c d' mem' len, mem_wf mem -> chain_wf c -> body d mem c = (d', mem', len) ->
     mem_wf mem' /\ avail_idx q mem' = avail_idx q mem) ->
  queue_wf q -> mem_wf mem -> rings_separate q -> q_used_gpa q + 4 + 8 * q_size q < 2 ^ 64 ->
  (pop_fuel q mem <= fuel)%nat ->
  exists d' q' mem', while_pop fuel body d q mem = Some (d', q', mem') /\ mem_wf mem' /\ queue_wf q'.
Proof.
  unfold pop_fuel. revert d q mem.
  induction fuel as [|fuel IH]; intros d q mem Hb Hq Hm Hsep Hend Hf; [lia|]. cbn [while_pop].
  destruct (pop_chain q mem) as [[c|] q'] eqn:Ep; cycle 1.
  { apply pop_chain_None in Ep as ->. by exists d, q, mem. }
  apply pop_chain_Some in Ep as (-> & Hc & _ & Hcnt & Hq'); [|done..].
  destruct (body d mem c) as [[d1 mem1] len] eqn:Eb.
  destruct (Hb _ _ _ _ _ _ Hm Hc Eb) as [Hm1 Ha].
  apply IH; try done.
  - by apply push_used_wf.
  - enough (pending_count (advance_avail q) (push_used (advance_avail q) mem1 (head_index c) len)
            = pending_count (advance_avail q) mem) by lia.
    unfold pending_count. rewrite push_used_avail_idx by done.
    change (avail_idx (advance_avail q)) with (avail_idx q). by rewrite Ha.
Qed.

(** *** Draining a queue whose rings are laid out as a driver lays them *)

Lemma chain_of_wf q h : queue_wf q -> u16 h -> chain_wf (chain_of q h).
Proof. intros (? & ? & _) Hh. unfold chain_wf, chain_of. simpl. splits; try done; lia. Qed.

Lemma used_writes_same_off_used q mem i head len :
  queue_wf q -> mem_wf mem -> same_off_used q mem (used_writes q mem i head len).
Proof.
  intros Hq Hm g n Hoff. pose proof (used_elem_bounds q i Hq) as Hb. pose proof Hq as (Hs & _).
  unfold off_used in Hoff. unfold used_writes.
  rewrite !read_write_ignore_disjoint; auto with hitz;
    unfold disjoint_range in *; rewrite le_bytes_zlen; lia.
Qed.

Lemma same_off_used_trans q m1 m2 m3 :
  same_off_used q m1 m2 -> same_off_used q m2 m3 -> same_off_used q m1 m3.
Proof. intros H1 H2 g n Ho. by rewrite H2, H1. Qed.

Lemma read_u16_same q mem mem' g :
  same_off_used q mem mem' -> off_used q g 2 -> read_u16 mem' g = read_u16 mem g.
Proof. intros Hs Ho. unfold read_u16. by rewrite (Hs g 2%nat). Qed.

(** The pending entries do not depend on the used ring. *)
Lemma pending_same q0 q mem mem' :
  queue_wf q -> q_avail_gpa q = q_avail_gpa q0 -> q_size q = q_size q0 ->
  off_used q0 (q_avail_gpa q0) (4 + 2 * q_size q0) -> same_off_used q0 mem mem' ->
  pending q mem' = pending q mem.
Proof.
  intros (Hs & _) Ea Es Ho Hsame.
  assert (Hrd : forall g, q_avail_gpa q + 2 <= g -> g + 2 <= q_avail_gpa q + 4 + 2 * q_size q ->
    read_u16 mem' g = read_u16 mem g).
  { intros g H1 H2. apply (read_u16_same q0); [done|]. unfold off_used, disjoint_range in *. lia. }
  assert (Hi : avail_idx q mem' = avail_idx q mem).
  { unfold avail_idx. destruct (checked_add 64 _ _) as [g|] eqn:E; [|done].
    apply checked_add_Some in E as [_ ->]. simpl. apply Hrd; lia. }
  unfold pending, pending_count. rewrite Hi. apply list_fmap_ext. intros k i _.
  unfold ring_entry. destruct (checked_add 64 (q_avail_gpa q) 4) as [r|] eqn:E1; [|done].
  apply checked_add_Some in E1 as [_ ->]. simpl.
  destruct (checked_add 64 _ _) as [g|] eqn:E2; [|done]. apply checked_add_Some in E2 as [_ ->].
  simpl. unfold ring_slot.
  pose proof (Z.mod_pos_bound (wrap 16 (last_avail_idx q + Z.of_nat i)) (q_size q) ltac:(lia)).
  apply Hrd; lia.
Qed.

(** A pop loop whose body reads memory off the used ring and does not write it
    serves every pending chain once, in order, and publishes one used element
    for each. *)
Lemma while_pop_drains {D} (body : D -> M -> DescriptorChain -> D * M * Z) (step : D -> Z -> D)
    q0 mem0 hs :
  layout_ok q0 mem0 ->
  (forall d mem h, mem_wf mem -> same_off_used q0 mem0 mem -> u16 h -> h ∈ hs ->
     exists len, body d mem (chain_of q0 h) = (step d h, mem, len)) ->
  forall fuel q d mem u,
    queue_wf q -> mem_wf mem -> q_ready q = true ->
    q_desc_gpa q = q_desc_gpa q0 -> q_avail_gpa q = q_avail_gpa q0 ->
    q_used_gpa q = q_used_gpa q0 -> q_size q = q_size q0 ->
    same_off_used q0 mem0 mem -> used_idx q mem = Some u -> u16 u ->
    pending q mem = Some <$> hs -> (length hs < fuel)%nat ->
    exists q' mem', while_pop fuel body d q mem = Some (foldl step d hs, q', mem') /\
      pending q' mem' = [] /\ used_idx q' mem' = Some (wrap 16 (u + zlen hs)) /\
      same_off_used q0 mem0 mem' /\ queue_wf q' /\ mem_wf mem'.
Proof.
  intros (Hav & Htab & Hend & _). induction hs as [|h hs IH];
    intros Hb fuel q d mem u Hq Hm Hr Ed Ea Eu Es Hsame Hu Hur Hp Hf;
    (destruct fuel as [|fuel]; [simpl in Hf; lia|]); cbn [while_pop];
    rewrite pop_chain_spec, Hr, Hp by done; simpl.
  { exists q, mem. unfold zlen. simpl. rewrite Z.add_0_r, wrap_small by done. by splits. }
  assert (u16 h /\ pending (advance_avail q) mem = Some <$> hs) as [Hh Hp'].
  { assert (Epop : exists c, pop_chain q mem = (Some c, advance_avail q) /\ head_idx c = h).
    { rewrite pop_chain_spec, Hr, Hp by done. simpl. eauto. }
    destruct Epop as (c & Epop & <-).
    destruct (pop_chain_Some _ _ _ _ Hq Hm Epop) as (_ & (_ & _ & _ & ? & _) & Hpp & _).
    rewrite Hp in Hpp. split; [done|]. by injection Hpp. }
  replace {| dc_desc_gpa := q_desc_gpa q; dc_queue_size := q_size q; head_idx := h;
             next_idx := Some h; dc_count := 0 |} with (chain_of q0 h)
    by (unfold chain_of; congruence).
  destruct (Hb d mem h Hm Hsame Hh (list_elem_of_here _ _)) as [len ->].
  pose proof (advance_avail_wf q Hq) as Hq'.
  rewrite push_used_spec by (try done; simpl; rewrite Eu, Es; lia).
  change (used_idx (advance_avail q) mem) with (used_idx q mem). rewrite Hu.
  set (mem' := used_writes _ _ _ _ _).
  assert (Hm' : mem_wf mem') by (unfold mem', used_writes; auto with hitz).
  assert (Hs1 : same_off_used q0 mem mem').
  { pose proof (used_writes_same_off_used (advance_avail q) mem u (head_index (chain_of q0 h)) len
      Hq' Hm) as Hw. intros g n Ho. apply Hw. unfold off_used in *. simpl. by rewrite Eu, Es. }
  assert (Hu' : used_idx (advance_avail q) mem' = Some (wrapping_add 16 u 1)).
  { unfold used_idx in Hu |- *. cbn [q_used_gpa advance_avail]. destruct Hq as (Hsz & _).
    rewrite checked_add_ok in Hu by lia. rewrite checked_add_ok by lia. simpl in Hu |- *.
    apply (used_writes_idx (advance_avail q)); [done|]. apply read_u16_is_Some. simpl. by rewrite Hu. }
  destruct (IH ltac:(intros; apply Hb; try done; by apply list_elem_of_further) fuel (advance_avail q) (step d h) mem'
    (wrapping_add 16 u 1)) as (q' & m2 & E & P1 & P2 & P3 & P4 & P5); try done.
  - by eapply same_off_used_trans.
  - apply (wrap_range 16). lia.
  - rewrite <- Hp'. by apply (pending_same q0).
  - simpl in Hf. lia.
  - exists q', m2. splits; try done. rewrite P2. unfold wrapping_add. rewrite (wrap_add_l 16) by lia.
    do 2 f_equal. rewrite zlen_cons. lia.
Qed.

(** Memories that agree off the used ring give the same walk of a chain. *)
Lemma next_descriptor_same q c mem mem' :
  chain_wf c -> dc_desc_gpa c = q_desc_gpa q -> dc_queue_size c = q_size q ->
  off_used q (q_desc_gpa q) (16 * q_size q) -> same_off_used q mem mem' ->
  next_descriptor c mem' = next_descriptor c mem.
Proof.
  intros (_ & _ & _ & _ & Hn) Eg Es Ho Hsame. unfold next_descriptor.
  destruct (next_idx c) as [i|]; [|done].
  destruct (dc_queue_size c <=? i) eqn:E1; [done|].
  destruct (dc_queue_size c <=? dc_count c); [done|]. b2p. cbv zeta.
  destruct (checked_add 64 _ _) as [a|] eqn:Ea; [|done].
  apply checked_add_Some in Ea as [_ ->]. rewrite Hsame; [done|].
  unfold off_used, disjoint_range, in_range in *. lia.
Qed.

Lemma while_desc_same {A} q (body : A -> M -> Descriptor -> A * M * bool) (safe : Descriptor -> Prop)
    mem mem' :
  mem_wf mem -> off_used q (q_desc_gpa q) (16 * q_size q) -> same_off_used q mem mem' ->
  (forall a d, safe d -> exists a' b, body a mem d = (a', mem, b) /\ body a mem' d = (a', mem', b)) ->
  forall n c a,
    chain_wf c -> dc_desc_gpa c = q_desc_gpa q -> dc_queue_size c = q_size q ->
    Forall safe (descriptors c mem) ->
    exists a' c', while_desc n body a mem c = (a', mem, c') /\
      while_desc n body a mem' c = (a', mem', c').
Proof.
  intros Hm Ho Hsame Hb n. induction n as [|n IH]; intros c a Hc Eg Es Hsafe; cbn [while_desc];
    [by eauto|].
  rewrite (next_descriptor_same q c mem mem') by done. rewrite descriptors_unfold in Hsafe.
  destruct (next_descriptor c mem) as [[d|] c'] eqn:E; [|by eauto].
  inversion_clear Hsafe as [|? ? Hd Hrest]. destruct (Hb a d Hd) as (a' & b & -> & ->).
  destruct b; [by eauto|]. pose proof (next_descriptor_table _ _ _ _ E) as [E1 E2].
  apply next_descriptor_Some in E as (Hc' & _); [|done..]. apply IH; congruence.
Qed.

(** *** ... and never ends when the guest makes them the same ring *)

Lemma while_pop_aliased {D} (body : D -> M -> DescriptorChain -> D * M * Z) fuel d q mem :
  (forall d mem c, exists d' len, body d mem c = (d', mem, len)) ->
  queue_wf q -> mem_wf mem -> q_ready q = true -> q_used_gpa q = q_avail_gpa q ->
  q_used_gpa q + 4 + 8 * q_size q < 2 ^ 64 ->
  (forall o n, 0 <= o -> o + Z.of_nat n <= 4 + 8 * q_size q ->
     is_ok (read_guest mem (q_used_gpa q + o) n) = true) ->
  avail_idx q mem <> Some (last_avail_idx q) ->
  while_pop fuel body d q mem = None.
Proof.
  revert d q mem. induction fuel as [|fuel IH]; intros d q mem Hb Hq Hm Hr Hal Hend Hmap Hne; [done|].
  cbn [while_pop]. pose proof Hq as (Hs & _ & Ha & _ & Hl). unfold in_range in Ha.
  assert (Hrd : forall o, 0 <= o -> o + 2 <= 4 + 8 * q_size q -> exists v, read_u16 mem (q_avail_gpa q + o) = Some v).
  { intros o Ho Ho2. apply read_u16_is_Some. rewrite <- Hal. apply Hmap; lia. }
  destruct (Hrd 2 ltac:(lia) ltac:(lia)) as [i Hi].
  assert (Hai : avail_idx q mem = Some i).
  { unfold avail_idx. checked_step. exact Hi. }
  assert (Hui : u16 i) by (by eapply read_u16_range).
  rewrite Hai in Hne. assert (Hil : i <> last_avail_idx q) by congruence.
  pose proof (pending_cons q mem i Hq Hm Hai Hil) as Hp.
  assert (exists h, ring_entry q mem (last_avail_idx q) = Some h) as [h Hh].
  { unfold ring_entry, ring_slot.
    pose proof (Z.mod_pos_bound (wrap 16 (last_avail_idx q)) (q_size q) ltac:(lia)).
    do 2 checked_step.
    rewrite <- Z.add_assoc. apply Hrd; lia. }
  rewrite pop_chain_spec, Hr, Hp, Hh by done. cbv iota beta.
  destruct (Hb d mem {| dc_desc_gpa := q_desc_gpa q; dc_queue_size := q_size q; head_idx := h;
                        next_idx := Some h; dc_count := 0 |}) as (d' & len & ->).
  rewrite push_used_spec by (done || by apply advance_avail_wf).
  assert (Hu : used_idx (advance_avail q) mem = Some i).
  { unfold used_idx, advance_avail. simpl. rewrite Hal. exact Hai. }
  rewrite Hu. set (mem' := used_writes _ _ _ _ _).
  apply IH; try done.
  - by apply advance_avail_wf.
  - unfold mem', used_writes. auto with hitz.
  - intros o n Ho Hon. unfold mem', used_writes. rewrite !read_write_ignore_mapped; auto with hitz.
  - assert (avail_idx (advance_avail q) mem' = Some (wrapping_add 16 i 1)) as ->.
    { unfold avail_idx. cbn [q_avail_gpa advance_avail]. checked_step.
      rewrite <- Hal. apply (used_writes_idx (advance_avail q)); [done|].
      simpl. apply Hmap; lia. }
    intros [= E]. apply Hil. by apply (wrap_succ_inj 16); [lia|..].
Qed.

(** *** The effect of one publication, precisely *)

Lemma used_writes_frame q mem i head len g n :
  mem_wf mem ->
  disjoint_range (q_used_gpa q + 2) 2 g (Z.of_nat n) ->
  disjoint_range (used_elem q i) 8 g (Z.of_nat n) ->
  read_guest (used_writes q mem i head len) g n = read_guest mem g n.
Proof.
  intros Hm H1 H2. unfold used_writes. unfold disjoint_range in *.
  rewrite !read_write_ignore_disjoint; auto with hitz;
    unfold disjoint_range; rewrite le_bytes_zlen; lia.
Qed.

Lemma used_writes_elem q mem i head len :
  queue_wf q -> mem_wf mem ->
  is_ok (read_guest mem (used_elem q i) 4) = true ->
  is_ok (read_guest mem (used_elem q i + 4) 4) = true ->
  read_guest (used_writes q mem i head len) (used_elem q i) 4 = Ok (le_bytes 4 head) /\
  read_guest (used_writes q mem i head len) (used_elem q i + 4) 4 = Ok (le_bytes 4 len).
Proof.
  intros Hq Hm H1 H2. unfold used_writes.
  pose proof (used_elem_bounds q i Hq) as Hb.
  set (m1 := write_guest_ignore mem _ _).
  assert (W1 : mem_wf m1) by (unfold m1; auto with hitz).
  split.
  - rewrite !read_write_ignore_disjoint; auto with hitz;
      try (unfold disjoint_range; rewrite le_bytes_zlen; lia).
    apply (read_write_ignore_same mem _ (le_bytes 4 head)); auto with hitz.
  - rewrite read_write_ignore_disjoint; auto with hitz;
      [|unfold disjoint_range; rewrite le_bytes_zlen; lia].
    apply (read_write_ignore_same m1 _ (le_bytes 4 len)); auto with hitz.
    unfold m1. rewrite length_le_bytes, read_write_ignore_mapped; done.
Qed.

Lemma while_desc_collect n ds mem c :
  (length (while_desc n (fun ds m d => (ds ++ [d], m, false)) ds mem c).1.1
   <= length ds + Z.to_nat (dc_queue_size c - dc_count c))%nat.
Proof.
  revert ds c. induction n as [|n IH]; intros ds c; cbn [while_desc]; [simpl; lia|].
  destruct (next_descriptor c mem) as [[d|] c'] eqn:E; [|simpl; lia].
  apply next_descriptor_count in E as (? & ? & ?). specialize (IH (ds ++ [d]) c').
  rewrite length_app in IH. simpl in IH. lia.
Qed.

(** ** Properties *)

(** C3: [pop_chain] consumes the available ring first in, first out: it gives the
    head of the entries still pending and leaves the rest pending, and it gives
    nothing, leaving the queue as it is, exactly when the queue is not ready,
    nothing is pending, or the next entry cannot be read. *)
Theorem pop_chain_fifo q mem :
  queue_wf q -> mem_wf mem ->
  match pop_chain q mem with
  | (Some c, q') =>
      q_ready q = true /\ pending q mem = Some (head_index c) :: pending q' mem /\
      q' = advance_avail q /\ queue_wf q' /\ chain_wf c
  | (None, q') =>
      q' = q /\ (q_ready q = false \/ pending q mem = [] \/ head (pending q mem) = Some None)
  end.
Proof.
  intros Hq Hm. destruct (pop_chain q mem) as [[c|] q'] eqn:E.
  - pose proof E as E'. apply pop_chain_Some in E as (-> & Hc & Hp & _ & Hq'); [|done..].
    splits; try done. rewrite pop_chain_spec in E' by done. by destruct (q_ready q).
  - split; [by eapply pop_chain_None|]. rewrite pop_chain_spec in E by done.
    destruct (q_ready q); [|auto]. destruct (pending q mem) as [|[h|] t]; simpl; auto. done.
Qed.

(** C4: [push_used] publishes [{id, len}] at the slot of the current used index,
    advances that index by one modulo 2^16, and changes no other byte. *)
Theorem push_used_publishes q mem head len i :
  queue_wf q -> mem_wf mem -> q_used_gpa q + 4 + 8 * q_size q < 2 ^ 64 ->
  used_idx q mem = Some i ->
  is_ok (read_guest mem (used_elem q i) 4) = true ->
  is_ok (read_guest mem (used_elem q i + 4) 4) = true ->
  let mem' := push_used q mem head len in
  read_guest mem' (used_elem q i) 4 = Ok (le_bytes 4 head) /\
  read_guest mem' (used_elem q i + 4) 4 = Ok (le_bytes 4 len) /\
  used_idx q mem' = Some (wrapping_add 16 i 1) /\
  forall g n, disjoint_range (q_used_gpa q + 2) 2 g (Z.of_nat n) ->
    disjoint_range (used_elem q i) 8 g (Z.of_nat n) ->
    read_guest mem' g n = read_guest mem g n.
Proof.
  intros Hq Hm Hend Hi H1 H2. cbv zeta. rewrite push_used_spec, Hi by done.
  destruct (used_writes_elem q mem i head len Hq Hm H1 H2). splits; [done..| |].
  - unfold used_idx in *. pose proof Hq as (? & _).
    destruct (checked_add 64 (q_used_gpa q) 2) as [g|] eqn:E; [|done].
    apply checked_add_Some in E as [_ ->]. simpl in *.
    apply used_writes_idx; [done|]. apply read_u16_is_Some. by rewrite Hi.
  - intros. by apply used_writes_frame.
Qed.

(** C5: A descriptor chain is finite whatever the guest wrote, cycles included: it
    gives at most as many descriptors as the queue has, and any loop over it
    has ended after that many turns. *)
Theorem chain_walk_bounded {A} (body : A -> M -> Descriptor -> A * M * bool) n a mem c :
  chain_wf c -> (desc_fuel c <= n)%nat ->
  while_desc n body a mem c = while_desc (desc_fuel c) body a mem c /\
  Z.of_nat (length (descriptors c mem)) <= dc_queue_size c - dc_count c.
Proof.
  intros (Hs & Hc & _) Hn. split; [by apply while_desc_fuel|].
  pose proof (while_desc_collect (desc_fuel c) [] mem c). unfold descriptors. simpl in *. lia.
Qed.

End RingLemmas.

(** When the queue size is a power of two, as the driver contract demands,
    consecutive available indices use consecutive ring slots, across the wrap
    of the 16-bit index too. *)
Theorem ring_slot_consecutive q idx k :
  0 <= k <= 8 -> q_size q = 2 ^ k ->
  ring_slot q (idx + 1) = (ring_slot q idx + 1) mod q_size q.
Proof.
  intros Hk Hs. unfold ring_slot, wrap. rewrite Hs.
  replace (2 ^ 16) with (2 ^ k * 2 ^ (16 - k)) by (rewrite <- Z.pow_add_r by lia; f_equal; lia).
  assert (0 < 2 ^ k) by lia. assert (0 < 2 ^ (16 - k)) by lia.
  rewrite !Z.rem_mul_r by lia.
  rewrite !(Z.mul_comm (2 ^ k) (_ mod _)), !Z.mod_add, !Z.mod_mod by lia.
  by rewrite Z.add_mod_idemp_l by lia.
Qed.

(** [set_size] accepts sizes that are not powers of two; the ring then repeats
    a slot where the 16-bit index wraps. *)
Theorem set_size_non_power_of_two :
  let q := set_size (queue_new 256) 3 in
  q_size q = 3 /\ ring_slot q 65535 = ring_slot q 65536.
Proof. done. Qed.

(** ** Witnesses *)

Lemma demo_ring_memory_wf : mem_wf demo_ring_memory.
Proof.
  unfold demo_ring_memory.
  repeat apply write_ignore_wf; try (repeat apply Forall_app_2; apply le_bytes_ok).
  apply ram_at_wf; [lia..|reflexivity].
Qed.

Lemma demo_queue_wf : queue_wf demo_queue.
Proof. decided. Qed.

Lemma pop_chain_fifo_witness :
  pending demo_queue demo_ring_memory = [Some 5; Some 7] /\
  pending (advance_avail demo_queue) demo_ring_memory = [Some 7].
Proof.
  assert (E : pending demo_queue demo_ring_memory = [Some 5; Some 7]) by (vm_compute; reflexivity).
  split; [exact E|].
  pose proof (pop_chain_fifo demo_queue demo_ring_memory demo_queue_wf demo_ring_memory_wf) as H.
  destruct (pop_chain demo_queue demo_ring_memory) as [[c|] q'] eqn:Ep.
  - destruct H as (_ & Hp & -> & _). rewrite E in Hp. congruence.
  - vm_compute in Ep. discriminate.
Defined.

Lemma push_used_publishes_witness :
  used_idx demo_queue demo_ring_memory = Some 0 /\
  used_idx demo_queue (push_used demo_queue demo_ring_memory 5 528) = Some 1.
Proof.
  split; [vm_compute; reflexivity|].
  pose proof (push_used_publishes demo_queue demo_ring_memory 5 528 0 demo_queue_wf
    demo_ring_memory_wf ltac:(vm_compute; reflexivity) ltac:(vm_compute; reflexivity)
    ltac:(vm_compute; reflexivity) ltac:(vm_compute; reflexivity)) as (_ & _ & H & _).
  exact H.
Defined.

Lemma chain_walk_bounded_witness :
  match pop_chain demo_queue demo_ring_memory with
  | (Some c, _) => chain_wf c /\ Z.of_nat (length (descriptors c demo_ring_memory)) <= 8
  | _ => False
  end.
Proof.
  set (c := {| dc_desc_gpa := 0; dc_queue_size := 8; head_idx := 5; next_idx := Some 5; dc_count := 0 |}).
  assert (E : fst (pop_chain demo_queue demo_ring_memory) = Some c) by (vm_compute; reflexivity).
  destruct (pop_chain demo_queue demo_ring_memory) as [[c'|] q']; [|discriminate].
  simpl in E. injection E as ->.
  assert (Hc : chain_wf c) by (unfold chain_wf, c, MAX_QUEUE_SIZE, in_range; simpl; lia).
  split; [exact Hc|].
  exact (proj2 (chain_walk_bounded (fun (u : unit) m d => (u, m, false)) (desc_fuel c) tt
    demo_ring_memory c Hc (Nat.le_refl _))).
Defined.

Lemma ring_slot_consecutive_witness :
  q_size demo_queue = 2 ^ 3 /\ ring_slot demo_queue 65536 = (ring_slot demo_queue 65535 + 1) mod 8.
Proof.
  split; [reflexivity|]. exact (ring_slot_consecutive demo_queue 65535 3 ltac:(lia) eq_refl).
Defined.
