(* ===== verification/Bus.v ===== *)
(** * The MMIO bus

    [hitz-devices/src/mmio_bus.rs]: devices registered at disjoint ranges of
    guest physical addresses, kept sorted by base so that an access finds its
    device by binary search.  Devices are behind the [MmioDevice] trait, a type
    class here; the boxed trait objects are the elements of one type [Dev].
    The source's unchecked additions are modelled for both kinds of build: with
    overflow checks they panic, without they wrap. *)

From S2P Require Import Prelude Hal.

(** ** The device trait *)

(** [mmio_read] gives the new contents of the caller's buffer; [mmio_write] and
    [poll_rx] may raise an interrupt vector.  [fuel] bounds the device's own
    loops over guest-controlled rings. *)
Class MmioDevice (Dev M : Type) := {
  dev_mmio_read : Dev -> Z -> list Z -> Dev * list Z;
  dev_mmio_write : nat -> Dev -> M -> Z -> list Z -> result Stop (Dev * M * option Z);
  dev_poll_rx : Dev -> M -> Dev * M * option Z;
}.

(** ** State *)

Section Bus.
Context {Dev M : Type} `{MmioDevice Dev M}.
Variable overflow_checks : bool.

Record MmioSlot := { slot_base : Z; slot_size : Z; slot_device : Dev }.

Record MmioBus := { slots : list MmioSlot }.

Definition bus_new : MmioBus := {| slots := [] |}.

(** An unchecked [u64] addition that may panic. *)
Definition add_or_panic (a b : Z) : result Stop Z := ok_or (op_add overflow_checks 64 a b) Panic.

(** ** Operations *)

(** The loop of [register] over the slots already there. *)
Fixpoint assert_no_overlap (base size : Z) (l : list MmioSlot) : result Stop unit :=
  match l with
  | [] => Ok tt
  | slot :: l' =>
      end_gpa ← add_or_panic base size;
      slot_end ← add_or_panic (slot_base slot) (slot_size slot);
      if (base <? slot_end) && (slot_base slot <? end_gpa) then Err Panic
      else assert_no_overlap base size l'
  end.

Definition register (bus : MmioBus) (base size : Z) (device : Dev) : result Stop MmioBus :=
  _ ← assert_no_overlap base size (slots bus);
  Ok {| slots := sort_by_key slot_base
          (slots bus ++ [{| slot_base := base; slot_size := size; slot_device := device |}]) |}.

(** The index of the slot that owns [gpa]. *)
Definition find_slot (bus : MmioBus) (gpa : Z) : result Stop (option (nat * MmioSlot)) :=
  let idx := partition_point (fun s => slot_base s <=? gpa) (slots bus) in
  if (0 <? idx)%nat then
    match slots bus !! (idx - 1)%nat with
    | None => Err Panic
    | Some slot =>
        slot_end ← add_or_panic (slot_base slot) (slot_size slot);
        Ok (if gpa <? slot_end then Some ((idx - 1)%nat, slot) else None)
    end
  else Ok None.

Definition set_device (bus : MmioBus) (i : nat) (d : Dev) : MmioBus :=
  {| slots := alter (fun s => {| slot_base := slot_base s; slot_size := slot_size s;
                                 slot_device := d |}) i (slots bus) |}.

Definition bus_read (bus : MmioBus) (gpa : Z) (data : list Z) : result Stop (MmioBus * list Z) :=
  found ← find_slot bus gpa;
  match found with
  | Some (i, slot) =>
      let offset := gpa - slot_base slot in
      let '(d, data') := dev_mmio_read (slot_device slot) offset data in
      Ok (set_device bus i d, data')
  | None => Ok (bus, replicate (length data) 0xFF)
  end.

Definition bus_write (fuel : nat) (bus : MmioBus) (mem : M) (gpa : Z) (data : list Z) :
    result Stop (MmioBus * M * option Z) :=
  found ← find_slot bus gpa;
  match found with
  | Some (i, slot) =>
      let offset := gpa - slot_base slot in
      '(d, mem', irq) ← dev_mmio_write fuel (slot_device slot) mem offset data;
      Ok (set_device bus i d, mem', irq)
  | None => Ok (bus, mem, None)
  end.

(** [poll_devices]: the devices are polled in order until one wants an
    interrupt; those after it are not polled in this call. *)
Fixpoint poll_slots (l : list MmioSlot) (mem : M) : list MmioSlot * M * option Z :=
  match l with
  | [] => ([], mem, None)
  | slot :: l' =>
      let '(d, mem', irq) := dev_poll_rx (slot_device slot) mem in
      let slot' := {| slot_base := slot_base slot; slot_size := slot_size slot;
                      slot_device := d |} in
      match irq with
      | Some v => (slot' :: l', mem', Some v)
      | None => let '(l'', mem'', r) := poll_slots l' mem' in (slot' :: l'', mem'', r)
      end
  end.

Definition poll_devices (bus : MmioBus) (mem : M) : MmioBus * M * option Z :=
  let '(l, mem', irq) := poll_slots (slots bus) mem in ({| slots := l |}, mem', irq).

(** ** Specification *)

Definition in_slot (gpa : Z) (s : MmioSlot) : Prop :=
  slot_base s <= gpa < slot_base s + slot_size s.

#[export] Instance in_slot_dec gpa s : Decision (in_slot gpa s).
Proof. unfold in_slot. apply _. Defined.

Definition slot_ok (s : MmioSlot) : Prop :=
  0 <= slot_base s /\ 0 < slot_size s /\ slot_base s + slot_size s < 2 ^ 64.

Definition slots_disjoint (s1 s2 : MmioSlot) : Prop :=
  disjoint_range (slot_base s1) (slot_size s1) (slot_base s2) (slot_size s2).

Definition bus_wf (bus : MmioBus) : Prop :=
  Forall slot_ok (slots bus) /\ sorted_by slot_base (slots bus) /\
  NoDup (slot_base <$> slots bus) /\
  forall s1 s2, s1 ∈ slots bus -> s2 ∈ slots bus -> slot_base s1 <> slot_base s2 ->
    slots_disjoint s1 s2.

(** The reference routing: the first slot whose range holds the address. *)
Definition route (bus : MmioBus) (gpa : Z) : option (nat * MmioSlot) :=
  list_find (in_slot gpa) (slots bus).

(** The ranges of the bus, without the devices. *)
Definition shape (bus : MmioBus) : list (Z * Z) :=
  (fun s => (slot_base s, slot_size s)) <$> slots bus.

(** ** Lemmas *)

Implicit Types (bus : MmioBus) (s : MmioSlot).

Lemma bus_new_wf : bus_wf bus_new.
Proof.
  unfold bus_wf. simpl. splits; [constructor..|]. intros s1 s2 Hs. by apply elem_of_nil in Hs.
Qed.

Lemma add_or_panic_ok a b : 0 <= a + b < 2 ^ 64 -> add_or_panic a b = Ok (a + b).
Proof.
  intros Hr. unfold add_or_panic, op_add. destruct overflow_checks.
  - by rewrite checked_add_ok by lia.
  - unfold wrapping_add. by rewrite wrap_small.
Qed.

(** Between slots at increasing positions, the earlier ends first. *)
Lemma bus_wf_order bus i j s1 s2 :
  bus_wf bus -> (i < j)%nat -> slots bus !! i = Some s1 -> slots bus !! j = Some s2 ->
  slot_base s1 + slot_size s1 <= slot_base s2.
Proof.
  intros (Hok & Hs & Hnd & Hd) Hij H1 H2.
  pose proof (StronglySorted_at _ _ _ _ _ _ Hs Hij H1 H2) as Hle. simpl in Hle.
  assert (Hne : slot_base s1 <> slot_base s2).
  { intros He. assert (i = j); [|lia]. eapply NoDup_lookup; [exact Hnd| |];
      rewrite list_lookup_fmap; [by rewrite H1|by rewrite H2, He]. }
  pose proof (Forall_lookup_1 _ _ _ _ Hok H1) as (? & ? & ?).
  pose proof (Forall_lookup_1 _ _ _ _ Hok H2) as (? & ? & ?).
  specialize (Hd s1 s2 (list_elem_of_lookup_2 _ _ _ H1) (list_elem_of_lookup_2 _ _ _ H2) Hne).
  unfold slots_disjoint, disjoint_range in Hd. lia.
Qed.

Lemma route_Some bus gpa i s :
  bus_wf bus -> slots bus !! i = Some s -> in_slot gpa s -> route bus gpa = Some (i, s).
Proof.
  intros Hwf Hi Hin. unfold route. apply list_find_Some. split_and!; [done..|].
  intros j s' Hj Hlt Hin'. pose proof (bus_wf_order bus j i s' s Hwf Hlt Hj Hi).
  unfold in_slot in *. lia.
Qed.

Lemma find_slot_route bus gpa : bus_wf bus -> find_slot bus gpa = Ok (route bus gpa).
Proof.
  intros Hwf. unfold find_slot.
  assert (Hp : partitioned (fun s => slot_base s <=? gpa) (slots bus)).
  { intros i j x y Hij Hx Hy. destruct (decide (i = j)) as [->|]; [by simplify_eq|].
    pose proof Hwf as (_ & Hs & _).
    pose proof (StronglySorted_at _ _ i j _ _ Hs ltac:(lia) Hx Hy) as Hle. simpl in Hle. lia. }
  apply partition_point_spec in Hp as (Hle & Hlt & Hge).
  set (idx := partition_point _ _) in *. clearbody idx.
  assert (Hnone : (forall i s, slots bus !! i = Some s -> ~ in_slot gpa s) -> route bus gpa = None).
  { intros Hn. unfold route. apply list_find_None, Forall_lookup. intros i s. apply Hn. }
  destruct (0 <? idx)%nat eqn:H0; b2p; cycle 1.
  { f_equal. symmetry. apply Hnone. intros i s Hs Hin.
    specialize (Hge i s ltac:(lia) Hs). unfold in_slot in Hin. lia. }
  destruct (slots bus !! (idx - 1)%nat) as [s|] eqn:Hs; [|apply lookup_ge_None_1 in Hs; lia].
  specialize (Hlt (idx - 1)%nat s ltac:(lia) Hs). b2p.
  destruct (Forall_lookup_1 _ _ _ _ (proj1 Hwf) Hs) as (? & ? & ?).
  rewrite add_or_panic_ok by lia. simpl. f_equal.
  destruct (gpa <? _) eqn:Hg; b2p.
  - symmetry. apply route_Some; [done..|]. unfold in_slot. lia.
  - symmetry. apply Hnone. intros j s' Hj Hin. unfold in_slot in Hin.
    destruct (decide (idx <= j)%nat).
    + specialize (Hge j s' ltac:(lia) Hj). b2p. lia.
    + destruct (decide (j = idx - 1)%nat) as [->|]; [simplify_eq; lia|].
      pose proof (bus_wf_order bus j (idx - 1) s' s Hwf ltac:(lia) Hj Hs). lia.
Qed.

Lemma assert_no_overlap_spec base size l :
  0 <= base -> 0 <= size -> base + size < 2 ^ 64 -> Forall slot_ok l ->
  assert_no_overlap base size l =
    if bool_decide (Forall (fun s => disjoint_range base size (slot_base s) (slot_size s)) l)
    then Ok tt else Err Panic.
Proof.
  intros Hb Hs Hend. induction 1 as [|s l (? & ? & ?) Hl IH]; [done|]. cbn [assert_no_overlap].
  rewrite !add_or_panic_ok by lia. cbn [mbind result_bind]. rewrite IH.
  destruct ((base <? slot_base s + slot_size s) && (slot_base s <? base + size)) eqn:E; b2p.
  - rewrite bool_decide_false; [done|]. intros [Hd _]%Forall_cons. unfold disjoint_range in Hd. lia.
  - rewrite (bool_decide_ext (Forall _ (s :: l)) (Forall (fun s => disjoint_range base size
      (slot_base s) (slot_size s)) l)); [done|].
    rewrite Forall_cons. unfold disjoint_range. split; [tauto|]. intros. split; [lia|done].
Qed.

Lemma register_wf bus base size d bus' :
  bus_wf bus -> 0 <= base -> 0 < size -> base + size < 2 ^ 64 ->
  register bus base size d = Ok bus' -> bus_wf bus'.
Proof.
  intros (Hok & Hs & Hnd & Hdis) Hb Hsz Hend. unfold register.
  rewrite assert_no_overlap_spec by (done || lia).
  case_bool_decide as Hf; [|done]. simpl. intros [= <-].
  set (s0 := {| slot_base := base; slot_size := size; slot_device := d |}).
  assert (Hperm : sort_by_key slot_base (slots bus ++ [s0]) ≡ₚ s0 :: slots bus).
  { rewrite sort_by_key_perm. by rewrite Permutation_app_comm. }
  rewrite Forall_forall in Hf. split_and!; cbn [slots].
  - rewrite Hperm. constructor; [|done]. unfold slot_ok. simpl. lia.
  - apply sort_by_key_sorted.
  - rewrite Hperm. simpl. constructor; [|done].
    intros (s & He & Hin)%list_elem_of_fmap. specialize (Hf s Hin).
    rewrite Forall_forall in Hok. destruct (Hok s Hin) as (? & ? & ?).
    unfold disjoint_range in Hf. lia.
  - intros s1 s2. rewrite Hperm. intros H1 H2 Hne.
    apply elem_of_cons in H1 as [->|H1], H2 as [->|H2]; unfold slots_disjoint.
    + done.
    + by apply Hf.
    + specialize (Hf s1 H1). unfold disjoint_range in *. simpl. lia.
    + by apply Hdis.
Qed.

(** The invariant is about the ranges only, not the devices behind them. *)
Lemma bus_wf_shape bus bus' : shape bus = shape bus' -> bus_wf bus -> bus_wf bus'.
Proof.
  intros Hsh. assert (Hat : forall i s', slots bus' !! i = Some s' ->
    exists s, slots bus !! i = Some s /\ slot_base s = slot_base s' /\ slot_size s = slot_size s').
  { intros i s' Hi. assert (E : shape bus !! i = shape bus' !! i) by (by rewrite Hsh).
    unfold shape in E. rewrite !list_lookup_fmap, Hi in E.
    destruct (slots bus !! i) as [s|]; [|done]. simpl in E. exists s. naive_solver. }
  assert (Hin : forall s', s' ∈ slots bus' ->
    exists s, s ∈ slots bus /\ slot_base s = slot_base s' /\ slot_size s = slot_size s').
  { intros s' (i & Hi)%list_elem_of_lookup. apply Hat in Hi as (s & Hi & ?).
    exists s. split; [by eapply list_elem_of_lookup_2|done]. }
  intros (Hok & Hs & Hnd & Hd). unfold bus_wf. splits.
  - rewrite Forall_forall in *. intros s' (s & Hs' & E1 & E2)%Hin. unfold slot_ok in *.
    rewrite <- E1, <- E2. by apply Hok.
  - apply StronglySorted_of_at. intros i j x y Hij Hx Hy.
    apply Hat in Hx as (x' & Hx & <- & _), Hy as (y' & Hy & <- & _).
    exact (StronglySorted_at _ _ _ _ _ _ Hs Hij Hx Hy).
  - assert (E : slot_base <$> slots bus' = fst <$> shape bus')
      by (unfold shape; by rewrite <- list_fmap_compose).
    rewrite E, <- Hsh. unfold shape. by rewrite <- list_fmap_compose.
  - intros s1 s2 (x & Hx & E1 & F1)%Hin (y & Hy & E2 & F2)%Hin Hne. unfold slots_disjoint in *.
    rewrite <- E1, <- E2, <- F1, <- F2 in *. by apply Hd.
Qed.

Lemma set_device_shape bus i d : shape (set_device bus i d) = shape bus.
Proof.
  unfold shape, set_device. cbn [slots]. apply list_eq. intros j.
  rewrite !list_lookup_fmap, list_lookup_alter.
  case_decide; [subst|]; by destruct (slots bus !! j).
Qed.

Lemma poll_slots_shape l mem :
  (fun s => (slot_base s, slot_size s)) <$> (poll_slots l mem).1.1
  = (fun s => (slot_base s, slot_size s)) <$> l.
Proof.
  revert mem. induction l as [|s l IH]; intros mem; cbn [poll_slots]; [done|].
  destruct (dev_poll_rx (slot_device s) mem) as [[d mem'] [v|]]; [done|].
  specialize (IH mem'). destruct (poll_slots l mem') as [[l' m''] r]. simpl in *. by f_equal.
Qed.

(** *** Every access keeps the ranges *)

Lemma same_shape_wf bus bus' :
  bus_wf bus -> shape bus' = shape bus -> bus_wf bus' /\ shape bus' = shape bus.
Proof. intros Hwf E. split; [|done]. by eapply bus_wf_shape. Qed.

Lemma bus_read_shape bus gpa data bus' data' :
  bus_wf bus -> bus_read bus gpa data = Ok (bus', data') -> bus_wf bus' /\ shape bus' = shape bus.
Proof.
  intros Hwf. unfold bus_read. rewrite find_slot_route by done. simpl.
  destruct (route bus gpa) as [[i s]|]; [|intros [= <- _]; by apply same_shape_wf].
  destruct (dev_mmio_read _ _ _). intros [= <- _]. by apply same_shape_wf, set_device_shape.
Qed.

Lemma bus_write_shape fuel bus mem gpa data bus' mem' irq :
  bus_wf bus -> bus_write fuel bus mem gpa data = Ok (bus', mem', irq) ->
  bus_wf bus' /\ shape bus' = shape bus.
Proof.
  intros Hwf. unfold bus_write. rewrite find_slot_route by done. simpl.
  destruct (route bus gpa) as [[i s]|]; [|intros [= <- _ _]; by apply same_shape_wf].
  intros ([[d m'] r] & _ & [= <- _ _])%bind_Ok. by apply same_shape_wf, set_device_shape.
Qed.

Lemma bus_poll_shape bus mem :
  bus_wf bus ->
  bus_wf (poll_devices bus mem).1.1 /\ shape (poll_devices bus mem).1.1 = shape bus.
Proof.
  intros Hwf. apply same_shape_wf; [done|]. pose proof (poll_slots_shape (slots bus) mem) as E.
  unfold poll_devices. destruct (poll_slots (slots bus) mem) as [[l m'] r]. exact E.
Qed.

(** ** Properties *)

(** C7: The binary search routes every address as the linear scan does: to the one
    slot whose range contains it, or to none; it never panics on a well-formed
    bus, with or without overflow checks. *)
Theorem find_slot_linear bus gpa : bus_wf bus -> find_slot bus gpa = Ok (route bus gpa).
Proof. apply find_slot_route. Qed.

(** [register] panics exactly when the new range overlaps a registered one;
    otherwise the bus holds the old slots and the new one, still sorted and
    disjoint. *)
Theorem register_correct bus base size d :
  bus_wf bus -> 0 <= base -> 0 < size -> base + size < 2 ^ 64 ->
  match register bus base size d with
  | Err _ => exists s, s ∈ slots bus /\ ~ disjoint_range base size (slot_base s) (slot_size s)
  | Ok bus' =>
      bus_wf bus' /\
      (forall s, s ∈ slots bus -> disjoint_range base size (slot_base s) (slot_size s)) /\
      slots bus' ≡ₚ {| slot_base := base; slot_size := size; slot_device := d |} :: slots bus
  end.
Proof.
  intros Hwf Hb Hs He. pose proof Hwf as (Hok & _).
  pose proof (assert_no_overlap_spec base size (slots bus) Hb ltac:(lia) He Hok) as Ha.
  destruct (register bus base size d) as [bus'|e] eqn:Er; unfold register in Er; rewrite Ha in Er.
  - case_bool_decide as Hf; [|done]. splits.
    + eapply (register_wf bus base size d bus'); try done. unfold register.
      rewrite Ha. exact Er.
    + by rewrite Forall_forall in Hf.
    + simpl in Er. injection Er as <-. cbn [slots]. rewrite sort_by_key_perm.
      by rewrite Permutation_app_comm.
  - case_bool_decide as Hf; [done|]. apply not_Forall_Exists in Hf; [|apply _].
    apply Exists_exists in Hf as (s & ? & ?). by exists s.
Qed.

(** A read or write reaches the device that owns the address, at its offset
    inside the device's range, and changes no other device; an address nobody
    owns reads as all ones and its writes do nothing. *)
Theorem bus_dispatch fuel bus mem gpa data :
  bus_wf bus ->
  match route bus gpa with
  | Some (i, s) =>
      0 <= gpa - slot_base s < slot_size s /\ slots bus !! i = Some s /\
      bus_read bus gpa data =
        (let '(d, data') := dev_mmio_read (slot_device s) (gpa - slot_base s) data in
         Ok (set_device bus i d, data')) /\
      bus_write fuel bus mem gpa data =
        ('(d, mem', irq) ← dev_mmio_write fuel (slot_device s) mem (gpa - slot_base s) data;
         Ok (set_device bus i d, mem', irq))
  | None =>
      bus_read bus gpa data = Ok (bus, replicate (length data) 0xFF) /\
      bus_write fuel bus mem gpa data = Ok (bus, mem, None)
  end.
Proof.
  intros Hwf. unfold bus_read, bus_write. rewrite find_slot_route by done. cbn [mbind result_bind].
  destruct (route bus gpa) as [[i s]|] eqn:Hr; [|done].
  apply list_find_Some in Hr as (Hi & Hin & _). unfold in_slot in Hin. splits; try done; lia.
Qed.

(** Routing state survives every access: reads, writes and polls keep the bus
    well-formed, and keep all ranges. *)
Theorem bus_ops_wf fuel bus mem gpa data :
  bus_wf bus ->
  (forall bus' data', bus_read bus gpa data = Ok (bus', data') ->
     bus_wf bus' /\ shape bus' = shape bus) /\
  (forall bus' mem' irq, bus_write fuel bus mem gpa data = Ok (bus', mem', irq) ->
     bus_wf bus' /\ shape bus' = shape bus) /\
  (bus_wf (poll_devices bus mem).1.1 /\ shape (poll_devices bus mem).1.1 = shape bus).
Proof.
  intros Hwf. splits.
  - intros bus' data'. by apply bus_read_shape.
  - intros bus' mem' irq. by apply bus_write_shape.
  - by apply bus_poll_shape.
  - by apply bus_poll_shape.
Qed.

End Bus.

(** ** Witnesses

    A device that reads as its offset and raises vector 5 on any write. *)

Section Witnesses.

#[local] Instance echo_device : MmioDevice unit unit := {
  dev_mmio_read d offset data := (d, replicate (length data) (offset mod 256));
  dev_mmio_write _ d m offset data := Ok (d, m, Some 5);
  dev_poll_rx d m := (d, m, None);
}.

Definition demo_bus : MmioBus :=
  match (b ← register true bus_new 0xD0000000 0x200 tt; register true b 0xC0000000 0x1000 tt) with
  | Ok b => b
  | Err _ => bus_new
  end.

Lemma demo_bus_wf : bus_wf demo_bus.
Proof.
  apply (register_wf true {| slots := [{| slot_base := 0xD0000000; slot_size := 0x200;
    slot_device := tt |}] |} 0xC0000000 0x1000 tt); [|lia|lia|lia|vm_compute; reflexivity].
  apply (register_wf true bus_new 0xD0000000 0x200 tt); [apply bus_new_wf|lia|lia|lia|].
  vm_compute. reflexivity.
Qed.

Lemma find_slot_linear_witness :
  bus_wf demo_bus /\ fst <$> route demo_bus 0xD0000004 = Some 1%nat /\
  find_slot false demo_bus 0xD0000004 = Ok (route demo_bus 0xD0000004).
Proof.
  split; [exact demo_bus_wf|]. split; [vm_compute; reflexivity|].
  exact (find_slot_linear false demo_bus 0xD0000004 demo_bus_wf).
Defined.

Lemma register_correct_witness :
  bus_wf demo_bus /\ register false demo_bus 0xD0000100 0x200 tt = Err Panic /\
  exists s, s ∈ slots demo_bus /\ ~ disjoint_range 0xD0000100 0x200 (slot_base s) (slot_size s).
Proof.
  split; [exact demo_bus_wf|].
  assert (E : register false demo_bus 0xD0000100 0x200 tt = Err Panic) by (vm_compute; reflexivity).
  split; [exact E|].
  pose proof (register_correct false demo_bus 0xD0000100 0x200 tt demo_bus_wf
    ltac:(lia) ltac:(lia) ltac:(lia)) as H.
  rewrite E in H. exact H.
Defined.

Lemma bus_dispatch_witness :
  bus_wf demo_bus /\ bus_write true 1 demo_bus tt 0xE0000000 [1] = Ok (demo_bus, tt, None).
Proof.
  split; [exact demo_bus_wf|].
  pose proof (bus_dispatch true 1 demo_bus tt 0xE0000000 [1] demo_bus_wf) as H.
  assert (E : route demo_bus 0xE0000000 = None) by (vm_compute; reflexivity).
  rewrite E in H. exact (proj2 H).
Defined.

Lemma bus_ops_wf_witness : bus_wf demo_bus /\ bus_wf (poll_devices demo_bus tt).1.1.
Proof.
  split; [exact demo_bus_wf|].
  exact (proj1 (proj2 (proj2 (bus_ops_wf true 1 demo_bus tt 0xD0000000 [1] demo_bus_wf)))).
Defined.

End Witnesses.
