(* ===== verification/Transport.v ===== *)
(** * Virtio over MMIO

    [hitz-devices/src/virtio/mmio_transport.rs]: the register file of a
    virtio-mmio (version 2) device, in front of any [VirtioBackend].  The
    transport is an [MmioDevice] of the bus.  Guest memory, shared with the
    transport through an [Arc], is passed along as state. *)

From S2P Require Import Prelude Hal Memory Queue Bus.

(** ** Registers *)

Definition MMIO_MAGIC : Z := 0x000.
Definition MMIO_VERSION : Z := 0x004.
Definition MMIO_DEVICE_ID : Z := 0x008.
Definition MMIO_VENDOR_ID : Z := 0x00C.
Definition MMIO_DEVICE_FEATURES : Z := 0x010.
Definition MMIO_DEVICE_FEATURES_SEL : Z := 0x014.
Definition MMIO_DRIVER_FEATURES : Z := 0x020.
Definition MMIO_DRIVER_FEATURES_SEL : Z := 0x024.
Definition MMIO_QUEUE_SEL : Z := 0x030.
Definition MMIO_QUEUE_NUM_MAX : Z := 0x034.
Definition MMIO_QUEUE_NUM : Z := 0x038.
Definition MMIO_QUEUE_READY : Z := 0x044.
Definition MMIO_QUEUE_NOTIFY : Z := 0x050.
Definition MMIO_INTERRUPT_STATUS : Z := 0x060.
Definition MMIO_INTERRUPT_ACK : Z := 0x064.
Definition MMIO_STATUS : Z := 0x070.
Definition MMIO_QUEUE_DESC_LOW : Z := 0x080.
Definition MMIO_QUEUE_DESC_HIGH : Z := 0x084.
Definition MMIO_QUEUE_AVAIL_LOW : Z := 0x090.
Definition MMIO_QUEUE_AVAIL_HIGH : Z := 0x094.
Definition MMIO_QUEUE_USED_LOW : Z := 0x0A0.
Definition MMIO_QUEUE_USED_HIGH : Z := 0x0A4.
Definition MMIO_CONFIG_GENERATION : Z := 0x0FC.
Definition MMIO_CONFIG_START : Z := 0x100.

Definition VIRTIO_MMIO_MAGIC : Z := 0x74726976.
Definition VIRTIO_MMIO_VERSION : Z := 2.
Definition VIRTIO_VENDOR_ID : Z := 0x554D4551.
Definition QUEUE_NUM_MAX : Z := 256.

Definition STATUS_ACKNOWLEDGE : Z := 0x01.
Definition STATUS_DRIVER : Z := 0x02.
Definition STATUS_FEATURES_OK : Z := 0x08.
Definition STATUS_DRIVER_OK : Z := 0x04.
Definition STATUS_FAILED : Z := 0x80.

(** ** The backend trait *)

Class VirtioBackend (D M : Type) := {
  device_id : D -> Z;
  device_features : D -> Z;
  queue_count : D -> nat;
  process_queue : nat -> D -> Z -> VirtQueue -> M -> result Stop (D * VirtQueue * M);
  backend_poll_rx : D -> VirtQueue -> M -> D * VirtQueue * M * bool;
  read_config : D -> Z -> list Z -> list Z;
  write_config : D -> Z -> list Z -> D;
}.

(** What the transport relies on: [backend_wf] is an invariant, processing
    keeps queues and memory well-formed, and the number of queues never changes. *)
Class VirtioBackendLaws (D M : Type) `{VirtioBackend D M} `{GuestMemLaws M} := {
  backend_wf : D -> Prop;
  process_queue_wf fuel d i q m d' q' m' :
    backend_wf d -> queue_wf q -> mem_wf m -> process_queue fuel d i q m = Ok (d', q', m') ->
    backend_wf d' /\ queue_wf q' /\ mem_wf m';
  poll_rx_wf d q m d' q' m' b :
    backend_wf d -> queue_wf q -> mem_wf m -> backend_poll_rx d q m = (d', q', m', b) ->
    backend_wf d' /\ queue_wf q' /\ mem_wf m';
  write_config_wf d off data :
    backend_wf d -> bytes_ok data -> backend_wf (write_config d off data);
  process_queue_count fuel d i q m d' q' m' :
    process_queue fuel d i q m = Ok (d', q', m') -> queue_count d' = queue_count d;
  poll_rx_count d q m d' q' m' b :
    backend_poll_rx d q m = (d', q', m', b) -> queue_count d' = queue_count d;
  write_config_count d off data : queue_count (write_config d off data) = queue_count d;
}.

(** ** State *)

Record QueueState := {
  qs_queue : VirtQueue;
  desc_low : Z; desc_high : Z;
  avail_low : Z; avail_high : Z;
  used_low : Z; used_high : Z;
  qs_num : Z;
}.

Record VirtioMmioTransport (D : Type) := {
  device : D;
  queues : list QueueState;
  queue_sel : nat;
  status : Z;
  interrupt_status : Z;
  irq_vector : Z;
  device_features_sel : Z;
  driver_features : Z;
  driver_features_sel : Z;
  config_generation : Z;
}.
Arguments device {D}. Arguments queues {D}. Arguments queue_sel {D}. Arguments status {D}.
Arguments interrupt_status {D}. Arguments irq_vector {D}. Arguments device_features_sel {D}.
Arguments driver_features {D}. Arguments driver_features_sel {D}. Arguments config_generation {D}.

(** *** Field updates *)

Section Setters.
Context {D : Type}.
Implicit Type t : VirtioMmioTransport D.

Definition set_regs t (d : D) (qs : list QueueState) (sel : nat) (st ist dfs df dfs' : Z) :
    VirtioMmioTransport D :=
  {| device := d; queues := qs; queue_sel := sel; status := st; interrupt_status := ist;
     irq_vector := irq_vector t; device_features_sel := dfs; driver_features := df;
     driver_features_sel := dfs'; config_generation := config_generation t |}.

Definition set_device_features_sel t v :=
  set_regs t (device t) (queues t) (queue_sel t) (status t) (interrupt_status t) v
    (driver_features t) (driver_features_sel t).
Definition set_driver_features t v :=
  set_regs t (device t) (queues t) (queue_sel t) (status t) (interrupt_status t)
    (device_features_sel t) v (driver_features_sel t).
Definition set_driver_features_sel t v :=
  set_regs t (device t) (queues t) (queue_sel t) (status t) (interrupt_status t)
    (device_features_sel t) (driver_features t) v.
Definition set_queue_sel t v :=
  set_regs t (device t) (queues t) v (status t) (interrupt_status t) (device_features_sel t)
    (driver_features t) (driver_features_sel t).
Definition set_status t v :=
  set_regs t (device t) (queues t) (queue_sel t) v (interrupt_status t) (device_features_sel t)
    (driver_features t) (driver_features_sel t).
Definition set_interrupt_status t v :=
  set_regs t (device t) (queues t) (queue_sel t) (status t) v (device_features_sel t)
    (driver_features t) (driver_features_sel t).
Definition set_transport_device t d :=
  set_regs t d (queues t) (queue_sel t) (status t) (interrupt_status t) (device_features_sel t)
    (driver_features t) (driver_features_sel t).
Definition set_queues t qs :=
  set_regs t (device t) qs (queue_sel t) (status t) (interrupt_status t) (device_features_sel t)
    (driver_features t) (driver_features_sel t).

(** [if let Some(qs) = self.queues.get_mut(self.queue_sel) { f(qs) }]. *)
Definition with_selected t (f : QueueState -> QueueState) :=
  set_queues t (alter f (queue_sel t) (queues t)).
End Setters.

Definition set_qs_queue (qs : QueueState) (q : VirtQueue) : QueueState :=
  {| qs_queue := q; desc_low := desc_low qs; desc_high := desc_high qs;
     avail_low := avail_low qs; avail_high := avail_high qs; used_low := used_low qs;
     used_high := used_high qs; qs_num := qs_num qs |}.
Definition set_qs_num (qs : QueueState) (n : Z) : QueueState :=
  {| qs_queue := qs_queue qs; desc_low := desc_low qs; desc_high := desc_high qs;
     avail_low := avail_low qs; avail_high := avail_high qs; used_low := used_low qs;
     used_high := used_high qs; qs_num := n |}.
(** The six ring-address registers, by position. *)
Definition set_ring_regs (qs : QueueState) (dl dh al ah ul uh : Z) : QueueState :=
  {| qs_queue := qs_queue qs; desc_low := dl; desc_high := dh; avail_low := al; avail_high := ah;
     used_low := ul; used_high := uh; qs_num := qs_num qs |}.

(** ** Operations *)

Definition queue_state_new : QueueState :=
  {| qs_queue := queue_new QUEUE_NUM_MAX; desc_low := 0; desc_high := 0; avail_low := 0;
     avail_high := 0; used_low := 0; used_high := 0; qs_num := QUEUE_NUM_MAX |}.

Definition queue_state_reset (qs : QueueState) : QueueState :=
  {| qs_queue := queue_reset (qs_queue qs); desc_low := 0; desc_high := 0; avail_low := 0;
     avail_high := 0; used_low := 0; used_high := 0; qs_num := QUEUE_NUM_MAX |}.

Section Transport.
Context {D M : Type} `{VirtioBackend D M}.
Implicit Type t : VirtioMmioTransport D.

Definition transport_new (device : D) (irq : Z) : VirtioMmioTransport D :=
  {| device := device; queues := (fun _ => queue_state_new) <$> seq 0 (queue_count device);
     queue_sel := 0; status := 0; interrupt_status := 0; irq_vector := irq;
     device_features_sel := 0; driver_features := 0; driver_features_sel := 0;
     config_generation := 0 |}.

Definition reset t : VirtioMmioTransport D :=
  set_regs t (device t) (queue_state_reset <$> queues t) 0 0 0 0 0 0.

Definition read_reg t (offset : Z) : Z :=
  if offset =? MMIO_MAGIC then VIRTIO_MMIO_MAGIC
  else if offset =? MMIO_VERSION then VIRTIO_MMIO_VERSION
  else if offset =? MMIO_DEVICE_ID then device_id (device t)
  else if offset =? MMIO_VENDOR_ID then VIRTIO_VENDOR_ID
  else if offset =? MMIO_DEVICE_FEATURES then
    let features := device_features (device t) in
    if device_features_sel t =? 0 then wrap 32 features else wrap 32 (Z.shiftr features 32)
  else if offset =? MMIO_QUEUE_NUM_MAX then QUEUE_NUM_MAX
  else if offset =? MMIO_QUEUE_READY then
    match queues t !! queue_sel t with
    | Some qs => Z.b2z (is_ready (qs_queue qs))
    | None => 0
    end
  else if offset =? MMIO_INTERRUPT_STATUS then interrupt_status t
  else if offset =? MMIO_STATUS then status t
  else if offset =? MMIO_CONFIG_GENERATION then config_generation t
  else 0.

(** [u64::from(low) | (u64::from(high) << 32)]. *)
Definition join32 (low high : Z) : Z := Z.lor low (Z.shiftl high 32).

(** The write of the queue-ready register on the selected queue. *)
Definition write_queue_ready (ready : bool) (qs : QueueState) : QueueState :=
  let q := qs_queue qs in
  let q1 :=
    if ready then
      configure q (join32 (desc_low qs) (desc_high qs)) (join32 (avail_low qs) (avail_high qs))
        (join32 (used_low qs) (used_high qs))
    else q in
  set_qs_queue qs (set_ready q1 ready).

Definition write_reg (fuel : nat) t (mem : M) (offset value : Z) :
    result Stop (VirtioMmioTransport D * M * option Z) :=
  let done t := Ok (t, mem, None) in
  if offset =? MMIO_DEVICE_FEATURES_SEL then done (set_device_features_sel t value)
  else if offset =? MMIO_DRIVER_FEATURES then
    if driver_features_sel t =? 0 then
      done (set_driver_features t (Z.lor (Z.land (driver_features t) 0xFFFFFFFF00000000) value))
    else
      done (set_driver_features t
              (Z.lor (Z.land (driver_features t) 0x00000000FFFFFFFF) (Z.shiftl value 32)))
  else if offset =? MMIO_DRIVER_FEATURES_SEL then done (set_driver_features_sel t value)
  else if offset =? MMIO_QUEUE_SEL then
    let sel := value in
    if sel <? zlen (queues t) then done (set_queue_sel t (Z.to_nat sel)) else done t
  else if offset =? MMIO_QUEUE_NUM then
    let size := wrap 16 value in
    done (with_selected t (fun qs => set_qs_queue (set_qs_num qs size) (set_size (qs_queue qs) size)))
  else if offset =? MMIO_QUEUE_READY then
    done (with_selected t (write_queue_ready (negb (value =? 0))))
  else if offset =? MMIO_QUEUE_NOTIFY then
    let queue_idx := wrap 16 value in
    match queues t !! Z.to_nat queue_idx with
    | Some qs =>
        '(d, q, mem') ← process_queue fuel (device t) queue_idx (qs_queue qs) mem;
        let t1 := set_queues (set_transport_device t d)
                    (<[Z.to_nat queue_idx := set_qs_queue qs q]> (queues t)) in
        Ok (set_interrupt_status t1 (Z.lor (interrupt_status t) 1), mem', Some (irq_vector t))
    | None => done t
    end
  else if offset =? MMIO_INTERRUPT_ACK then
    done (set_interrupt_status t (Z.land (interrupt_status t) (2 ^ 32 - 1 - value)))
  else if offset =? MMIO_STATUS then
    let val := wrap 8 value in
    if val =? 0 then done (reset t) else done (set_status t val)
  else if offset =? MMIO_QUEUE_DESC_LOW then
    done (with_selected t (fun qs => set_ring_regs qs value (desc_high qs) (avail_low qs)
                                       (avail_high qs) (used_low qs) (used_high qs)))
  else if offset =? MMIO_QUEUE_DESC_HIGH then
    done (with_selected t (fun qs => set_ring_regs qs (desc_low qs) value (avail_low qs)
                                       (avail_high qs) (used_low qs) (used_high qs)))
  else if offset =? MMIO_QUEUE_AVAIL_LOW then
    done (with_selected t (fun qs => set_ring_regs qs (desc_low qs) (desc_high qs) value
                                       (avail_high qs) (used_low qs) (used_high qs)))
  else if offset =? MMIO_QUEUE_AVAIL_HIGH then
    done (with_selected t (fun qs => set_ring_regs qs (desc_low qs) (desc_high qs) (avail_low qs)
                                       value (used_low qs) (used_high qs)))
  else if offset =? MMIO_QUEUE_USED_LOW then
    done (with_selected t (fun qs => set_ring_regs qs (desc_low qs) (desc_high qs) (avail_low qs)
                                       (avail_high qs) value (used_high qs)))
  else if offset =? MMIO_QUEUE_USED_HIGH then
    done (with_selected t (fun qs => set_ring_regs qs (desc_low qs) (desc_high qs) (avail_low qs)
                                       (avail_high qs) (used_low qs) value))
  else done t.

(** [MmioDevice for VirtioMmioTransport]: config space from 0x100 on, registers
    below; narrow and wide accesses move the low bytes of the register. *)
Definition mmio_read t (offset : Z) (data : list Z) : list Z :=
  if MMIO_CONFIG_START <=? offset then
    read_config (device t) (offset - MMIO_CONFIG_START) data
  else
    let bytes := le_bytes 4 (read_reg t offset) in
    let len := Nat.min (length data) (length bytes) in
    splice 0 (take len bytes) data.

(** The value of a write: the first four bytes, zero-extended. *)
Definition write_value (data : list Z) : Z :=
  let len := Nat.min (length data) 4 in
  from_le (splice 0 (take len data) (replicate 4 0)).

Definition mmio_write (fuel : nat) t (mem : M) (offset : Z) (data : list Z) :
    result Stop (VirtioMmioTransport D * M * option Z) :=
  if MMIO_CONFIG_START <=? offset then
    Ok (set_transport_device t (write_config (device t) (offset - MMIO_CONFIG_START) data), mem, None)
  else write_reg fuel t mem offset (write_value data).

(** RX is queue 0. *)
Definition transport_poll_rx t (mem : M) : VirtioMmioTransport D * M * option Z :=
  match queues t with
  | qs :: rest =>
      let '(d, q, mem', ready) := backend_poll_rx (device t) (qs_queue qs) mem in
      let t1 := set_queues (set_transport_device t d) (set_qs_queue qs q :: rest) in
      if ready then
        (set_interrupt_status t1 (Z.lor (interrupt_status t1) 1), mem', Some (irq_vector t))
      else (t1, mem', None)
  | [] => (t, mem, None)
  end.

#[export] Instance transport_device : MmioDevice (VirtioMmioTransport D) M := {
  dev_mmio_read t offset data := (t, mmio_read t offset data);
  dev_mmio_write := mmio_write;
  dev_poll_rx := transport_poll_rx;
}.

End Transport.

(** ** Driver sequences

    Register writes in the order a driver makes them. *)
Fixpoint run_writes {D M} `{VirtioBackend D M} (fuel : nat) (t : VirtioMmioTransport D) (mem : M)
    (l : list (Z * Z)) : result Stop (VirtioMmioTransport D * M) :=
  match l with
  | [] => Ok (t, mem)
  | (offset, value) :: l' =>
      '(t', mem', _) ← write_reg fuel t mem offset value; run_writes fuel t' mem' l'
  end.

(** Set up queue [i]: select it, give its size and ring addresses, make it ready. *)
Definition queue_setup (i n d a u : Z) : list (Z * Z) :=
  [(MMIO_QUEUE_SEL, i); (MMIO_QUEUE_NUM, n);
   (MMIO_QUEUE_DESC_LOW, wrap 32 d); (MMIO_QUEUE_DESC_HIGH, Z.shiftr d 32);
   (MMIO_QUEUE_AVAIL_LOW, wrap 32 a); (MMIO_QUEUE_AVAIL_HIGH, Z.shiftr a 32);
   (MMIO_QUEUE_USED_LOW, wrap 32 u); (MMIO_QUEUE_USED_HIGH, Z.shiftr u 32);
   (MMIO_QUEUE_READY, 1)].

(** ** Invariant *)

Definition queue_state_wf (qs : QueueState) : Prop :=
  queue_wf (qs_queue qs) /\ u32 (desc_low qs) /\ u32 (desc_high qs) /\ u32 (avail_low qs) /\
  u32 (avail_high qs) /\ u32 (used_low qs) /\ u32 (used_high qs) /\ u16 (qs_num qs).

Definition transport_wf {D M} `{VirtioBackendLaws D M} (t : VirtioMmioTransport D) : Prop :=
  backend_wf (device t) /\ Forall queue_state_wf (queues t) /\ length (queues t) = queue_count (device t) /\
  (queue_sel t < length (queues t) \/ queue_sel t = 0)%nat /\
  u8 (status t) /\ u32 (interrupt_status t) /\ u32 (device_features_sel t) /\
  u64 (driver_features t) /\ u32 (driver_features_sel t) /\ config_generation t = 0.

(** ** Lemmas *)

Lemma join32_range low high : u32 low -> u32 high -> u64 (join32 low high).
Proof.
  intros Hl Hh. unfold join32. rewrite lor_shiftl_add by (done || apply Hh || lia).
  unfold in_range in *. lia.
Qed.

Lemma join32_split v : u64 v -> join32 (wrap 32 v) (Z.shiftr v 32) = v.
Proof.
  intros Hv. unfold join32. rewrite Z.shiftr_div_pow2 by lia.
  rewrite lor_shiftl_add; [|lia|apply wrap_range; lia|apply Z.div_pos; [apply Hv|lia]].
  unfold wrap. pose proof (Z.div_mod v (2 ^ 32) ltac:(lia)). lia.
Qed.

Lemma queue_state_new_wf : queue_state_wf queue_state_new.
Proof. unfold queue_state_wf. splits; try decided. Qed.

Lemma queue_state_reset_new qs : queue_state_reset qs = queue_state_new.
Proof. done. Qed.

Section TransportLemmas.
Context {D M : Type} `{VirtioBackendLaws D M}.
Implicit Types (t : VirtioMmioTransport D) (mem : M).

Lemma transport_new_wf d irq : backend_wf d -> transport_wf (transport_new d irq).
Proof.
  intros Hd. unfold transport_wf. splits; try done.
  - apply Forall_fmap, Forall_forall. intros i _. apply queue_state_new_wf.
  - cbn [transport_new queues]. by rewrite length_fmap, length_seq.
  - by right.
Qed.

Lemma reset_new t :
  transport_wf t -> reset t = transport_new (device t) (irq_vector t).
Proof.
  intros (_ & _ & Hl & _ & _ & _ & _ & _ & _ & Hg). unfold reset, set_regs, transport_new.
  rewrite Hg, <- Hl. f_equal. apply list_eq. intros i. rewrite !list_lookup_fmap.
  destruct (decide (i < length (queues t))%nat) as [Hi|Hi].
  - rewrite lookup_seq_lt by done. by destruct (lookup_lt_is_Some_2 _ _ Hi) as [qs ->].
  - rewrite (lookup_ge_None_2 (queues t)) by lia. by rewrite lookup_seq_ge by lia.
Qed.

Lemma with_selected_wf t f :
  (forall qs, queue_state_wf qs -> queue_state_wf (f qs)) ->
  transport_wf t -> transport_wf (with_selected t f).
Proof.
  intros Hf (Hbw & Hq & Hl & Hs & Hrest). unfold transport_wf, with_selected, set_queues, set_regs.
  cbn [queues queue_sel device status interrupt_status device_features_sel driver_features
       driver_features_sel config_generation].
  rewrite length_alter. splits; try apply Hrest; try done.
  apply Forall_lookup. intros i qs Hi. rewrite list_lookup_alter in Hi.
  case_decide as E; [|by eapply Forall_lookup_1].
  apply fmap_Some in Hi as (qs' & Hi & ->). apply Hf. by eapply Forall_lookup_1.
Qed.

Lemma set_ring_regs_wf qs dl dh al ah ul uh :
  queue_state_wf qs -> u32 dl -> u32 dh -> u32 al -> u32 ah -> u32 ul -> u32 uh ->
  queue_state_wf (set_ring_regs qs dl dh al ah ul uh).
Proof. intros (? & _ & _ & _ & _ & _ & _ & ?). intros. unfold queue_state_wf. by splits. Qed.

Lemma write_queue_ready_wf b qs : queue_state_wf qs -> queue_state_wf (write_queue_ready b qs).
Proof.
  intros (Hq & ? & ? & ? & ? & ? & ? & ?). unfold queue_state_wf, write_queue_ready.
  cbn [qs_queue set_qs_queue desc_low desc_high avail_low avail_high used_low used_high qs_num].
  splits; try done. apply set_ready_wf. destruct b; [|done].
  apply configure_wf; [done|by apply join32_range..].
Qed.

(** The register writes of a queue set-up, as equations. *)
Section Equations.
Context (fuel : nat) (t : VirtioMmioTransport D) (mem : M) (v : Z).

Lemma write_reg_queue_sel :
  write_reg fuel t mem MMIO_QUEUE_SEL v =
    if v <? zlen (queues t) then Ok (set_queue_sel t (Z.to_nat v), mem, None) else Ok (t, mem, None).
Proof. reflexivity. Qed.
Lemma write_reg_queue_num :
  write_reg fuel t mem MMIO_QUEUE_NUM v =
    Ok (with_selected t (fun qs => set_qs_queue (set_qs_num qs (wrap 16 v))
                                     (set_size (qs_queue qs) (wrap 16 v))), mem, None).
Proof. reflexivity. Qed.
Lemma write_reg_queue_ready :
  write_reg fuel t mem MMIO_QUEUE_READY v =
    Ok (with_selected t (write_queue_ready (negb (v =? 0))), mem, None).
Proof. reflexivity. Qed.
Lemma write_reg_desc_low :
  write_reg fuel t mem MMIO_QUEUE_DESC_LOW v =
    Ok (with_selected t (fun qs => set_ring_regs qs v (desc_high qs) (avail_low qs)
          (avail_high qs) (used_low qs) (used_high qs)), mem, None).
Proof. reflexivity. Qed.
Lemma write_reg_desc_high :
  write_reg fuel t mem MMIO_QUEUE_DESC_HIGH v =
    Ok (with_selected t (fun qs => set_ring_regs qs (desc_low qs) v (avail_low qs)
          (avail_high qs) (used_low qs) (used_high qs)), mem, None).
Proof. reflexivity. Qed.
Lemma write_reg_avail_low :
  write_reg fuel t mem MMIO_QUEUE_AVAIL_LOW v =
    Ok (with_selected t (fun qs => set_ring_regs qs (desc_low qs) (desc_high qs) v
          (avail_high qs) (used_low qs) (used_high qs)), mem, None).
Proof. reflexivity. Qed.
Lemma write_reg_avail_high :
  write_reg fuel t mem MMIO_QUEUE_AVAIL_HIGH v =
    Ok (with_selected t (fun qs => set_ring_regs qs (desc_low qs) (desc_high qs) (avail_low qs)
          v (used_low qs) (used_high qs)), mem, None).
Proof. reflexivity. Qed.
Lemma write_reg_used_low :
  write_reg fuel t mem MMIO_QUEUE_USED_LOW v =
    Ok (with_selected t (fun qs => set_ring_regs qs (desc_low qs) (desc_high qs) (avail_low qs)
          (avail_high qs) v (used_high qs)), mem, None).
Proof. reflexivity. Qed.
Lemma write_reg_used_high :
  write_reg fuel t mem MMIO_QUEUE_USED_HIGH v =
    Ok (with_selected t (fun qs => set_ring_regs qs (desc_low qs) (desc_high qs) (avail_low qs)
          (avail_high qs) (used_low qs) v), mem, None).
Proof. reflexivity. Qed.
Lemma write_reg_features_sel :
  write_reg fuel t mem MMIO_DRIVER_FEATURES_SEL v = Ok (set_driver_features_sel t v, mem, None).
Proof. reflexivity. Qed.
Lemma write_reg_features :
  write_reg fuel t mem MMIO_DRIVER_FEATURES v =
    if driver_features_sel t =? 0 then
      Ok (set_driver_features t (Z.lor (Z.land (driver_features t) 0xFFFFFFFF00000000) v), mem, None)
    else
      Ok (set_driver_features t (Z.lor (Z.land (driver_features t) 0x00000000FFFFFFFF)
            (Z.shiftl v 32)), mem, None).
Proof. reflexivity. Qed.
End Equations.

(** Setters of one scalar field keep the invariant. *)
Lemma set_regs_wf t sel st ist dfs df dfs' :
  transport_wf t -> (sel < length (queues t) \/ sel = 0)%nat -> u8 st -> u32 ist -> u32 dfs ->
  u64 df -> u32 dfs' -> transport_wf (set_regs t (device t) (queues t) sel st ist dfs df dfs').
Proof. intros (? & ? & ? & _ & _ & _ & _ & _ & _ & ?) ? ? ? ? ? ?. unfold transport_wf. by splits. Qed.

Lemma notify_wf fuel t mem i qs d q mem' :
  transport_wf t -> mem_wf mem -> queues t !! Z.to_nat i = Some qs ->
  process_queue fuel (device t) i (qs_queue qs) mem = Ok (d, q, mem') ->
  transport_wf (set_queues (set_transport_device t d) (<[Z.to_nat i := set_qs_queue qs q]> (queues t)))
  /\ mem_wf mem'.
Proof.
  intros (Hbw & Hq & Hl & Hs & Hrest) Hm Hi Hp.
  pose proof (Forall_lookup_1 _ _ _ _ Hq Hi) as (Hqq & Hqr).
  destruct (process_queue_wf _ _ _ _ _ _ _ _ Hbw Hqq Hm Hp) as (Hbw' & Hq' & Hm').
  apply process_queue_count in Hp. split; [|done]. unfold transport_wf. cbn. rewrite length_insert.
  splits; try apply Hrest; try done; [|congruence].
  apply Forall_insert; [done|]. split; [done|exact Hqr].
Qed.

Ltac write_branch :=
  match goal with |- (if ?c then _ else _) = Ok _ -> _ => destruct c end.

Lemma write_reg_wf fuel t mem offset value t' mem' irq :
  transport_wf t -> mem_wf mem -> u32 value ->
  write_reg fuel t mem offset value = Ok (t', mem', irq) -> transport_wf t' /\ mem_wf mem'.
Proof.
  intros Ht Hm Hv. pose proof Ht as (Hbw & Hq & Hl & Hs & Hst & Hist & Hdfs & Hdf & Hdfs' & Hg).
  unfold write_reg. cbv zeta.
  write_branch; [intros [= <- <- _]; split; [by apply set_regs_wf|done]|].
  write_branch.
  { write_branch; intros [= <- <- _]; (split; [|done]); apply set_regs_wf; try done.
    - apply lor_range; [lia|by apply land_range|]. unfold in_range in *. lia.
    - apply lor_range; [lia|by apply land_range|]. rewrite Z.shiftl_mul_pow2 by lia.
      unfold in_range in *. lia. }
  write_branch; [intros [= <- <- _]; split; [by apply set_regs_wf|done]|].
  write_branch.
  { destruct (value <? zlen (queues t)) eqn:E; intros [= <- <- _]; [|done]. split; [|done].
    apply set_regs_wf; try done. b2p. left. unfold zlen, in_range in *. lia. }
  write_branch.
  { intros [= <- <- _]. split; [|done]. apply with_selected_wf; [|done].
    intros qs (? & ? & ? & ? & ? & ? & ? & ?). unfold queue_state_wf. cbn. splits; try done.
    - by apply set_size_wf.
    - apply wrap_range. lia. }
  write_branch.
  { intros [= <- <- _]. split; [|done]. apply with_selected_wf; [|done]. intros qs.
    apply write_queue_ready_wf. }
  write_branch.
  { destruct (queues t !! _) as [qs|] eqn:Hi; [|by intros [= <- <- _]].
    intros ([[d q] m1] & Hp & [= <- <- _])%bind_Ok.
    destruct (notify_wf _ _ _ _ _ _ _ _ Ht Hm Hi Hp) as [Ht1 Hm1]. split; [|done].
    pose proof Ht1 as (_ & _ & _ & Hs1 & _). apply set_regs_wf; try done.
    apply lor_range; [lia|done|]. decided. }
  write_branch.
  { intros [= <- <- _]. split; [|done]. apply set_regs_wf; try done.
    apply land_range; [lia|done|]. unfold in_range in Hv. lia. }
  write_branch.
  { write_branch; intros [= <- <- _]; (split; [|done]).
    - rewrite reset_new by done. by apply transport_new_wf.
    - apply set_regs_wf; try done. apply wrap_range. lia. }
  repeat (write_branch;
    [intros [= <- <- _]; split; [|done]; apply with_selected_wf; [|done];
     intros qs Hqs; pose proof Hqs as (_ & ? & ? & ? & ? & ? & ? & _); by apply set_ring_regs_wf|]).
  by intros [= <- <- _].
Qed.

Lemma poll_rx_transport_wf t mem t' mem' irq :
  transport_wf t -> mem_wf mem -> transport_poll_rx t mem = (t', mem', irq) ->
  transport_wf t' /\ mem_wf mem'.
Proof.
  intros Ht Hm. pose proof Ht as (Hbw & Hq & Hl & Hs & Hrest). unfold transport_poll_rx.
  destruct (queues t) as [|qs rest] eqn:Eq; [by intros [= <- <- _]|].
  destruct (backend_poll_rx _ _ _) as [[[d q] m1] ready] eqn:Ep.
  pose proof (Forall_inv Hq) as (Hqq & Hqr). apply Forall_inv_tail in Hq.
  destruct (poll_rx_wf _ _ _ _ _ _ _ Hbw Hqq Hm Ep) as (Hbw1 & Hq1 & Hm1). apply poll_rx_count in Ep.
  assert (Ht1 : transport_wf (set_queues (set_transport_device t d) (set_qs_queue qs q :: rest))).
  { unfold transport_wf. cbn. splits; try apply Hrest; try done.
    - constructor; [split; [done|exact Hqr]|done].
    - rewrite Ep. exact Hl. }
  destruct ready; intros [= <- <- _]; split; try done.
  pose proof Ht1 as (_ & _ & _ & Hs1 & Hst & Hist & Hr1). apply set_regs_wf; try apply Hr1; try done.
  apply lor_range; [lia|done|]. decided.
Qed.

Lemma write_value_u32 data : bytes_ok data -> u32 (write_value data).
Proof.
  intros Hd. unfold write_value.
  assert (Hok : bytes_ok (splice 0 (take (Nat.min (length data) 4) data) (replicate 4 0))).
  { apply bytes_ok_splice; [by apply Forall_take|apply Forall_replicate; decided]. }
  apply from_le_bound in Hok. unfold zlen in Hok. rewrite length_splice in Hok; [exact Hok|].
  rewrite length_take. simpl. lia.
Qed.

(** ** Properties *)

(** C10: The transport's invariant (queues well-formed, the selected queue existing,
    registers within their widths, the configuration generation still zero)
    survives every guest access and every poll, whatever the guest writes. *)
Theorem transport_ops_wf fuel t mem offset data :
  transport_wf t -> mem_wf mem -> bytes_ok data ->
  (forall t' mem' irq, mmio_write fuel t mem offset data = Ok (t', mem', irq) ->
     transport_wf t' /\ mem_wf mem') /\
  transport_wf (transport_poll_rx t mem).1.1 /\ mem_wf (transport_poll_rx t mem).1.2.
Proof.
  intros Ht Hm Hd. split.
  - intros t' mem' irq. unfold mmio_write. case_on.
    + intros [= <- <- _]. split; [|done]. destruct Ht as (Hbw & ? & Hl & ?).
      unfold transport_wf. cbn. rewrite write_config_count.
      split; [by apply write_config_wf|done].
    + by apply write_reg_wf, write_value_u32.
  - destruct (transport_poll_rx t mem) as [[t' mem'] irq] eqn:E.
    by apply poll_rx_transport_wf in E.
Qed.

(** Writing zero to the status register puts the whole transport back in its
    initial state, every queue and register included.  The backend device is
    the one thing it keeps. *)
Theorem status_zero_resets fuel t mem value :
  transport_wf t -> wrap 8 value = 0 ->
  write_reg fuel t mem MMIO_STATUS value = Ok (transport_new (device t) (irq_vector t), mem, None).
Proof.
  intros Ht Hv. rewrite <- reset_new by done. unfold write_reg. cbn -[wrap reset]. by rewrite Hv.
Qed.

(** C12: The driver's set-up sequence configures exactly the queue it selects: size,
    64-bit ring addresses reassembled from their halves, and ready; every other
    queue is untouched, no interrupt is raised, memory is not touched. *)
Theorem queue_setup_configures fuel t mem i n d a u qs :
  queues t !! i = Some qs -> 1 <= n <= 256 -> u64 d -> u64 a -> u64 u ->
  exists t' qs',
    run_writes fuel t mem (queue_setup (Z.of_nat i) n d a u) = Ok (t', mem) /\
    queues t' !! i = Some qs' /\ queue_sel t' = i /\
    qs_queue qs' = {| q_size := n; q_desc_gpa := d; q_avail_gpa := a; q_used_gpa := u;
                      last_avail_idx := last_avail_idx (qs_queue qs); q_ready := true |} /\
    (forall j, j <> i -> queues t' !! j = queues t !! j) /\
    driver_features t' = driver_features t /\ status t' = status t.
Proof.
  intros Hi Hn Hd Ha Hu. pose proof (lookup_lt_Some _ _ _ Hi) as Hlt.
  unfold queue_setup. cbn [run_writes].
  rewrite write_reg_queue_sel, (proj2 (Z.ltb_lt _ _)), Nat2Z.id by (unfold zlen; lia).
  cbn [mbind result_bind].
  repeat (rewrite ?write_reg_queue_num, ?write_reg_desc_low, ?write_reg_desc_high,
    ?write_reg_avail_low, ?write_reg_avail_high, ?write_reg_used_low, ?write_reg_used_high,
    ?write_reg_queue_ready; cbn [mbind result_bind]).
  eexists _, _. splits; [reflexivity| | | | | |]; [|reflexivity| | |reflexivity..].
  - cbn [queues queue_sel with_selected set_queues set_regs set_queue_sel].
    rewrite !list_lookup_alter_eq, Hi. reflexivity.
  - cbn -[wrap join32 set_size]. rewrite !join32_split by done.
    unfold set_size. rewrite wrap_small by (unfold in_range; lia). unfold MAX_QUEUE_SIZE.
    by rewrite (proj2 (Z.ltb_lt 0 n)), (proj2 (Z.leb_le n 256)) by lia.
  - intros j Hj. cbn [queues queue_sel with_selected set_queues set_regs set_queue_sel].
    by rewrite !list_lookup_alter_ne by done.
Qed.

(** Feature negotiation: writing the two 32-bit pages leaves exactly the
    driver's 64 feature bits, whatever was there before. *)
Theorem driver_features_assembled fuel t mem v :
  transport_wf t -> u64 v ->
  exists t',
    run_writes fuel t mem
      [(MMIO_DRIVER_FEATURES_SEL, 0); (MMIO_DRIVER_FEATURES, wrap 32 v);
       (MMIO_DRIVER_FEATURES_SEL, 1); (MMIO_DRIVER_FEATURES, Z.shiftr v 32)] = Ok (t', mem) /\
    driver_features t' = v.
Proof.
  intros (_ & _ & _ & _ & _ & _ & _ & Hdf & _) Hv. cbn [run_writes].
  rewrite write_reg_features_sel. cbn [mbind result_bind]. rewrite write_reg_features.
  cbn [driver_features_sel set_driver_features_sel set_regs Z.eqb mbind result_bind driver_features].
  rewrite write_reg_features_sel. cbn [mbind result_bind]. rewrite write_reg_features.
  cbn [driver_features_sel set_driver_features_sel set_driver_features set_regs Z.eqb mbind
       result_bind driver_features].
  eexists. split; [reflexivity|]. cbn [driver_features set_driver_features set_regs].
  change 0x00000000FFFFFFFF with (Z.ones 32). rewrite Z.land_lor_distr_l, <- Z.land_assoc.
  change (Z.land 0xFFFFFFFF00000000 (Z.ones 32)) with 0.
  rewrite Z.land_0_r, Z.lor_0_l, Z.land_ones by lia. unfold wrap. rewrite Z.mod_mod by lia.
  exact (join32_split v Hv).
Qed.

(** An interrupt is raised by a write exactly when the guest notifies an
    existing queue; it carries the device's vector and sets the used-ring bit
    of the interrupt status.  Any other write leaves memory and backend alone. *)
Theorem interrupt_only_on_notify fuel t mem offset value t' mem' irq :
  write_reg fuel t mem offset value = Ok (t', mem', irq) ->
  let notifies :=
    offset = MMIO_QUEUE_NOTIFY /\ (Z.to_nat (wrap 16 value) < length (queues t))%nat in
  (~ notifies /\ irq = None /\ mem' = mem /\ device t' = device t) \/
  (notifies /\ irq = Some (irq_vector t) /\ interrupt_status t' = Z.lor (interrupt_status t) 1).
Proof.
  cbv zeta. unfold write_reg. cbv zeta.
  destruct (decide (offset = MMIO_QUEUE_NOTIFY)) as [->|Hne].
  - cbn -[wrap]. destruct (queues t !! _) as [qs|] eqn:Hi.
    + intros ([[d q] m1] & Hp & [= <- <- <-])%bind_Ok. right.
      splits; try done. by apply lookup_lt_Some in Hi.
    + intros [= <- <- <-]. left. splits; try done. apply lookup_ge_None_1 in Hi. lia.
  - destruct (offset =? MMIO_QUEUE_NOTIFY) eqn:En; [by b2p|].
    repeat (write_branch; [repeat write_branch; intros [= <- <- <-]; left; naive_solver|]).
    intros [= <- <- <-]. left. naive_solver.
Qed.

(** Acknowledging interrupt bits clears exactly those bits. *)
Theorem interrupt_ack_clears fuel t mem value t' mem' irq :
  u32 value -> write_reg fuel t mem MMIO_INTERRUPT_ACK value = Ok (t', mem', irq) ->
  forall i, 0 <= i < 32 ->
    Z.testbit (interrupt_status t') i = Z.testbit (interrupt_status t) i && negb (Z.testbit value i).
Proof.
  intros Hv Hw i Hi. unfold write_reg in Hw. cbn -[Z.land Z.sub Z.pow] in Hw.
  injection Hw as <- _ _. cbn [interrupt_status set_interrupt_status set_regs].
  rewrite Z.land_spec. f_equal.
  replace (2 ^ 32 - 1 - value) with (Z.ldiff (Z.ones 32) value).
  - by rewrite Z.ldiff_spec, Z.ones_spec_low by lia.
  - change (2 ^ 32 - 1) with (Z.ones 32). symmetry. apply Z.sub_nocarry_ldiff.
    apply Z.bits_inj'. intros k Hk. rewrite Z.ldiff_spec, Z.bits_0.
    destruct (decide (k < 32)).
    + rewrite Z.ones_spec_low by lia. apply andb_false_r.
    + by rewrite (testbit_high 32 value) by (done || lia).
Qed.

End TransportLemmas.

(** ** Witnesses

    A backend with two queues that does nothing. *)

Section Witnesses.

#[local] Instance null_backend : VirtioBackend unit GuestMemory := {
  device_id _ := 42;
  device_features _ := 2 ^ 32 + 5;
  queue_count _ := 2%nat;
  process_queue _ d _ q m := Ok (d, q, m);
  backend_poll_rx d q m := (d, q, m, false);
  read_config _ _ data := data;
  write_config d _ _ := d;
}.

#[local] Instance null_backend_laws : VirtioBackendLaws unit GuestMemory.
Proof. by refine {| backend_wf _ := True |}; naive_solver. Defined.

Let t0 : VirtioMmioTransport unit := transport_new tt 5.

Lemma transport_ops_wf_witness : transport_wf t0 /\ transport_wf (transport_poll_rx t0 demo_ring_memory).1.1.
Proof.
  assert (W : transport_wf t0) by (apply transport_new_wf; exact I). split; [exact W|].
  exact (proj1 (proj2 (transport_ops_wf 1 t0 demo_ring_memory 0 [] W demo_ring_memory_wf
    ltac:(constructor)))).
Defined.

Lemma status_zero_resets_witness :
  write_reg 1 (set_status (set_queue_sel t0 1) 15) demo_ring_memory MMIO_STATUS 256
    = Ok (t0, demo_ring_memory, None).
Proof.
  apply (status_zero_resets 1 (set_status (set_queue_sel t0 1) 15)); [|reflexivity].
  pose proof (transport_new_wf tt 5 I) as (H0 & H1 & H2 & H3 & H4 & H5 & H6 & H7 & H8 & H9).
  unfold transport_wf. splits; try assumption; [simpl; lia|decided].
Defined.

Lemma queue_setup_configures_witness :
  exists t' qs', run_writes 1 t0 demo_ring_memory (queue_setup 1 64 0x100000000 0x2000 0x3000)
    = Ok (t', demo_ring_memory) /\ queues t' !! 1%nat = Some qs' /\
    q_desc_gpa (qs_queue qs') = 0x100000000.
Proof.
  destruct (queue_setup_configures 1 t0 demo_ring_memory 1 64 0x100000000 0x2000 0x3000
    queue_state_new eq_refl ltac:(lia) ltac:(decided) ltac:(decided) ltac:(decided))
    as (t' & qs' & Hr & Hq & _ & E & _).
  exists t', qs'. split; [exact Hr|]. split; [exact Hq|]. rewrite E. reflexivity.
Defined.

Lemma driver_features_assembled_witness :
  transport_wf t0 /\ exists t', driver_features t' = 0x100000020 /\ device t' = tt.
Proof.
  assert (W : transport_wf t0) by (apply transport_new_wf; exact I). split; [exact W|].
  destruct (driver_features_assembled 1 t0 demo_ring_memory 0x100000020 W ltac:(decided)) as (t' & _ & E).
  exists t'. split; [exact E|]. destruct (device t'). reflexivity.
Defined.

Lemma interrupt_only_on_notify_witness :
  exists t', write_reg 1 t0 demo_ring_memory MMIO_QUEUE_NOTIFY 1 = Ok (t', demo_ring_memory, Some 5) /\
    interrupt_status t' = 1.
Proof.
  assert (E : exists t1, write_reg 1 t0 demo_ring_memory MMIO_QUEUE_NOTIFY 1
    = Ok (t1, demo_ring_memory, Some 5)) by (eexists; reflexivity).
  destruct E as [t1 E]. exists t1. split; [exact E|].
  destruct (interrupt_only_on_notify 1 t0 demo_ring_memory MMIO_QUEUE_NOTIFY 1 _ _ _ E)
    as [[_ [F _]]|[_ [_ F]]]; [discriminate|exact F].
Defined.

Lemma interrupt_ack_clears_witness :
  exists t', write_reg 1 (set_interrupt_status t0 3) demo_ring_memory MMIO_INTERRUPT_ACK 1
    = Ok (t', demo_ring_memory, None) /\ Z.testbit (interrupt_status t') 0 = false.
Proof.
  assert (E : exists t1, write_reg 1 (set_interrupt_status t0 3) demo_ring_memory
    MMIO_INTERRUPT_ACK 1 = Ok (t1, demo_ring_memory, None)) by (eexists; reflexivity).
  destruct E as [t1 E]. exists t1. split; [exact E|].
  rewrite (interrupt_ack_clears 1 (set_interrupt_status t0 3) demo_ring_memory 1 _ _ _
    ltac:(decided) E 0 ltac:(lia)). reflexivity.
Defined.

End Witnesses.
