(* ===== verification/Block.v ===== *)
(** * The virtio block device

    [hitz-devices/src/virtio/block.rs]: disk reads and writes on behalf of the
    guest.  The backing [File] is the standard library's: its bytes, its
    cursor, and the I/O faults its next operations will meet, so that the error
    paths are those of the code. *)

From S2P Require Import Prelude Hal Memory Queue Bus Transport.

(** ** Files

    A fault makes one operation fail after transferring some bytes; a file that
    was opened for reading only refuses every write. *)
Record File := { f_data : list Z; f_pos : Z; f_writable : bool; f_faults : list (option nat) }.

(** The next operation's fault, if any, and the file without it. *)
Definition next_fault (f : File) : option nat * File :=
  match f_faults f with
  | [] => (None, f)
  | x :: xs => (x, {| f_data := f_data f; f_pos := f_pos f; f_writable := f_writable f; f_faults := xs |})
  end.

Definition set_pos (f : File) (pos : Z) : File :=
  {| f_data := f_data f; f_pos := pos; f_writable := f_writable f; f_faults := f_faults f |}.

(** Bytes written at an offset; a gap past the end is filled with zeros. *)
Definition put_bytes (data : list Z) (pos : Z) (bs : list Z) : list Z :=
  let p := Z.to_nat pos in
  splice p bs (data ++ replicate (p + length bs - length data) 0).

(** [seek(SeekFrom::Start(pos))], [read_exact], [write_all]: success and the
    new file. *)
Definition file_seek (f : File) (pos : Z) : bool * File :=
  let '(fault, f1) := next_fault f in
  match fault with
  | Some _ => (false, f1)
  | None => (true, set_pos f1 pos)
  end.

Definition file_read_exact (f : File) (n : nat) : option (list Z) * File :=
  let '(fault, f1) := next_fault f in
  match fault with
  | Some k => (None, set_pos f1 (f_pos f1 + Z.of_nat k))
  | None =>
      if f_pos f1 + Z.of_nat n <=? zlen (f_data f1) then
        let p := Z.to_nat (f_pos f1) in
        (Some (slice p (p + n) (f_data f1)), set_pos f1 (f_pos f1 + Z.of_nat n))
      else (None, set_pos f1 (Z.max (f_pos f1) (zlen (f_data f1))))
  end.

Definition file_write_all (f : File) (bs : list Z) : bool * File :=
  match bs with
  | [] => (true, f)
  | _ =>
      let '(fault, f1) := next_fault f in
      let fault := if f_writable f1 then fault else Some 0%nat in
      let written := match fault with Some k => take k bs | None => bs end in
      (match fault with Some _ => false | None => true end,
       {| f_data := put_bytes (f_data f1) (f_pos f1) written;
          f_pos := f_pos f1 + zlen written; f_writable := f_writable f1; f_faults := f_faults f1 |})
  end.

(** ** State *)

Definition VIRTIO_BLK_T_IN : Z := 0.
Definition VIRTIO_BLK_T_OUT : Z := 1.
Definition VIRTIO_BLK_S_OK : Z := 0.
Definition VIRTIO_BLK_S_IOERR : Z := 1.
Definition SECTOR_SIZE : Z := 512.
Definition MAX_REQUEST : Z := 16777216.

Record VirtioBlockDevice := { disk : File; capacity : Z }.

(** [VirtioBlockDevice::new]; [metadata] may fail. *)
Definition block_new (f : File) : option VirtioBlockDevice :=
  let '(fault, f1) := next_fault f in
  match fault with
  | Some _ => None
  | None => Some {| disk := f1; capacity := zlen (f_data f1) / SECTOR_SIZE |}
  end.

Definition set_disk (d : VirtioBlockDevice) (f : File) : VirtioBlockDevice :=
  {| disk := f; capacity := capacity d |}.

(** ** Requests *)

Section Block.
Context {M : Type} `{GuestMemAccess M}.

(** The bounds checks shared by [handle_read] and [handle_write]: the byte
    offset of an acceptable request. *)
Definition request_offset (d : VirtioBlockDevice) (sector len : Z) : option Z :=
  if MAX_REQUEST <? len then None
  else
    let capacity_bytes := default 0 (checked_mul 64 (capacity d) SECTOR_SIZE) in
    if capacity d <=? sector then None
    else
      let byte_offset := wrap 64 (sector * SECTOR_SIZE) in
      if capacity_bytes <? saturating_add 64 byte_offset len then None
      else Some byte_offset.

(** [handle_read]: the status, the device, guest memory, and what the request
    adds to [total_written]. *)
Definition handle_read (d : VirtioBlockDevice) (sector gpa len : Z) (mem : M) :
    Z * VirtioBlockDevice * M * Z :=
  match request_offset d sector len with
  | None => (VIRTIO_BLK_S_IOERR, d, mem, 0)
  | Some byte_offset =>
      let '(ok, f1) := file_seek (disk d) byte_offset in
      if negb ok then (VIRTIO_BLK_S_IOERR, set_disk d f1, mem, 0)
      else
        match file_read_exact f1 (Z.to_nat len) with
        | (None, f2) => (VIRTIO_BLK_S_IOERR, set_disk d f2, mem, 0)
        | (Some buf, f2) =>
            match write_guest mem gpa buf with
            | Err _ => (VIRTIO_BLK_S_IOERR, set_disk d f2, mem, 0)
            | Ok mem' => (VIRTIO_BLK_S_OK, set_disk d f2, mem', len)
            end
        end
  end.

(** [handle_write]: the status and the device. *)
Definition handle_write (d : VirtioBlockDevice) (sector gpa len : Z) (mem : M) :
    Z * VirtioBlockDevice :=
  match request_offset d sector len with
  | None => (VIRTIO_BLK_S_IOERR, d)
  | Some byte_offset =>
      match read_guest mem gpa (Z.to_nat len) with
      | Err _ => (VIRTIO_BLK_S_IOERR, d)
      | Ok buf =>
          let '(ok, f1) := file_seek (disk d) byte_offset in
          if negb ok then (VIRTIO_BLK_S_IOERR, set_disk d f1)
          else
            let '(ok2, f2) := file_write_all f1 buf in
            (if ok2 then VIRTIO_BLK_S_OK else VIRTIO_BLK_S_IOERR, set_disk d f2)
      end
  end.

(** The data phase of a request: status, device, memory, bytes written. *)
Definition data_phase (d : VirtioBlockDevice) (req_type sector : Z) (desc : Descriptor) (mem : M) :
    Z * VirtioBlockDevice * M * Z :=
  if req_type =? VIRTIO_BLK_T_IN then
    if is_device_writable desc then handle_read d sector (d_gpa desc) (d_len desc) mem
    else (VIRTIO_BLK_S_IOERR, d, mem, 0)
  else if req_type =? VIRTIO_BLK_T_OUT then
    if is_device_writable desc then (VIRTIO_BLK_S_IOERR, d, mem, 0)
    else
      let '(status, d') := handle_write d sector (d_gpa desc) (d_len desc) mem in
      (status, d', mem, 0)
  else (VIRTIO_BLK_S_IOERR, d, mem, 0).

(** [process_request]: header, data, status byte. *)
Definition process_request (d : VirtioBlockDevice) (mem : M) (chain : DescriptorChain) :
    VirtioBlockDevice * M * Z :=
  match next_descriptor chain mem with
  | (None, _) => (d, mem, 0)
  | (Some hdr_desc, c1) =>
      match read_guest mem (d_gpa hdr_desc) 16 with
      | Err _ => (d, mem, 0)
      | Ok hdr_buf =>
          let req_type := from_le (slice 0 4 hdr_buf) in
          let sector := from_le (slice 8 16 hdr_buf) in
          match next_descriptor c1 mem with
          | (None, _) => (d, mem, 0)
          | (Some data_desc, c2) =>
              let '(status, d', mem1, total_written) := data_phase d req_type sector data_desc mem in
              match next_descriptor c2 mem1 with
              | (None, _) => (d', mem1, total_written)
              | (Some status_desc, _) =>
                  if negb (is_device_writable status_desc) then (d', mem1, total_written)
                  else
                    (d', write_guest_ignore mem1 (d_gpa status_desc) [status],
                     wrap 32 (total_written + 1))
              end
          end
      end
  end.

(** [VirtioBackend for VirtioBlockDevice].  [end] of the config read saturates
    at the eight bytes of the capacity. *)
Definition block_read_config (d : VirtioBlockDevice) (offset : Z) (data : list Z) : list Z :=
  if offset <? 8 then
    let cap_bytes := le_bytes 8 (capacity d) in
    let start := Z.to_nat offset in
    let end_ := Nat.min (start + length data) (length cap_bytes) in
    if (start <? length cap_bytes)%nat then splice 0 (slice start end_ cap_bytes) data else data
  else data.

Definition block_process_queue (fuel : nat) (d : VirtioBlockDevice) (queue_idx : Z)
    (queue : VirtQueue) (mem : M) : result Stop (VirtioBlockDevice * VirtQueue * M) :=
  ok_or (while_pop fuel process_request d queue mem) OutOfFuel.

#[export] Instance block_backend : VirtioBackend VirtioBlockDevice M := {
  device_id _ := 2;
  device_features _ := 0;
  queue_count _ := 1%nat;
  process_queue := block_process_queue;
  backend_poll_rx d q m := (d, q, m, false);
  read_config := block_read_config;
  write_config d _ _ := d;
}.

End Block.

(** ** Invariant *)

(** The capacity is that of the backing file. *)
Definition block_wf (d : VirtioBlockDevice) : Prop :=
  bytes_ok (f_data (disk d)) /\ zlen (f_data (disk d)) < 2 ^ 64 /\
  capacity d = zlen (f_data (disk d)) / SECTOR_SIZE.

(** A request inside the disk. *)
Definition in_capacity (d : VirtioBlockDevice) (sector len : Z) : Prop :=
  sector < capacity d /\ sector * SECTOR_SIZE + len <= capacity d * SECTOR_SIZE /\
  len <= MAX_REQUEST.

#[export] Instance in_capacity_dec d s l : Decision (in_capacity d s l).
Proof. unfold in_capacity. apply _. Defined.

(** A chain as the driver contract asks: header, data, writable status byte. *)
Definition is_request {M} `{GuestMemAccess M} (mem : M) (c : DescriptorChain)
    (data status : Descriptor) (req_type sector : Z) : Prop :=
  exists hdr hb, descriptors c mem = [hdr; data; status] /\
    read_guest mem (d_gpa hdr) 16 = Ok hb /\
    from_le (slice 0 4 hb) = req_type /\ from_le (slice 8 16 hb) = sector /\
    is_device_writable status = true.

(** The data buffer does not meet the descriptor table. *)
Definition off_table (c : DescriptorChain) (data : Descriptor) : Prop :=
  disjoint_range (d_gpa data) (d_len data) (dc_desc_gpa c) (16 * dc_queue_size c).

(** The bytes of the disk a request names. *)
Definition disk_range (d : VirtioBlockDevice) (sector len : Z) : list Z :=
  let off := Z.to_nat (sector * SECTOR_SIZE) in
  slice off (off + Z.to_nat len) (f_data (disk d)).

(** *** An example: a disk of two sectors, and a request in guest memory

    The descriptors are at 0, the header at 0x800, eight data bytes at 0x900 and
    the status at 0xA00. *)
Definition demo_disk : VirtioBlockDevice :=
  {| disk := {| f_data := replicate 512 7 ++ replicate 512 9; f_pos := 0; f_writable := true; f_faults := [] |};
     capacity := 2 |}.

(** The same disk opened for reading only. *)
Definition demo_ro_disk : VirtioBlockDevice :=
  {| disk := {| f_data := replicate 512 7 ++ replicate 512 9; f_pos := 0; f_writable := false; f_faults := [] |};
     capacity := 2 |}.

Definition demo_request (req_type sector data_flags : Z) : GuestMemory :=
  let w m a d := write_guest_ignore m a d in
  let desc gpa len flags next := le_bytes 8 gpa ++ le_bytes 4 len ++ le_bytes 2 flags ++ le_bytes 2 next in
  let m := ram_at 0 4096 in
  let m := w m 0 (desc 0x800 16 1 1 ++ desc 0x900 8 (data_flags + 1) 2 ++ desc 0xA00 1 2 0) in
  let m := w m 0x800 (le_bytes 4 req_type ++ le_bytes 4 0 ++ le_bytes 8 sector) in
  w m 0x900 [1; 2; 3; 4; 5; 6; 7; 8].

Definition demo_chain : DescriptorChain :=
  {| dc_desc_gpa := 0; dc_queue_size := 8; head_idx := 0; next_idx := Some 0; dc_count := 0 |}.

Definition demo_data (writable : bool) : Descriptor :=
  {| d_gpa := 0x900; d_len := 8; is_device_writable := writable |}.
Definition demo_status : Descriptor := {| d_gpa := 0xA00; d_len := 1; is_device_writable := true |}.

(** ** Lemmas: files *)

Lemma next_fault_data f :
  f_data (next_fault f).2 = f_data f /\ f_pos (next_fault f).2 = f_pos f /\ f_writable (next_fault f).2 = f_writable f.
Proof. unfold next_fault. by destruct (f_faults f). Qed.

Lemma put_bytes_in data pos bs :
  0 <= pos -> pos + zlen bs <= zlen data -> put_bytes data pos bs = splice (Z.to_nat pos) bs data.
Proof.
  intros Hp Hl. unfold put_bytes, zlen in *.
  replace (Z.to_nat pos + length bs - length data)%nat with 0%nat by lia. by rewrite app_nil_r.
Qed.

Lemma file_seek_data f pos : f_data (file_seek f pos).2 = f_data f.
Proof.
  unfold file_seek. pose proof (next_fault_data f) as (E & _ & _).
  destruct (next_fault f) as [[k|] f1]; simpl in *; congruence.
Qed.

Lemma file_seek_ok f pos f1 : file_seek f pos = (true, f1) -> f_pos f1 = pos /\ f_data f1 = f_data f.
Proof.
  intros E. split; [|by rewrite <- (file_seek_data f pos), E].
  unfold file_seek in E. destruct (next_fault f) as [[k|] f2]; [done|]. by injection E as <-.
Qed.

Lemma file_read_exact_data f n : f_data (file_read_exact f n).2 = f_data f.
Proof.
  unfold file_read_exact. pose proof (next_fault_data f) as (E & _ & _).
  destruct (next_fault f) as [[k|] f1]; simpl in *; [congruence|]. by case_on.
Qed.

Lemma file_read_exact_ok f n bs f1 :
  0 <= f_pos f -> file_read_exact f n = (Some bs, f1) ->
  f_pos f + Z.of_nat n <= zlen (f_data f) /\
  bs = slice (Z.to_nat (f_pos f)) (Z.to_nat (f_pos f) + n) (f_data f).
Proof.
  intros Hp. unfold file_read_exact. pose proof (next_fault_data f) as (E1 & E2 & _).
  destruct (next_fault f) as [[k|] f2]; simpl in *; [done|]. rewrite E1, E2.
  case_on; [|done]. b2p. intros [= <- _]. done.
Qed.

(** A write inside the file keeps its length, whatever the fault. *)
Lemma file_write_all_inside f bs :
  bytes_ok (f_data f) -> bytes_ok bs -> 0 <= f_pos f -> f_pos f + zlen bs <= zlen (f_data f) ->
  zlen (f_data (file_write_all f bs).2) = zlen (f_data f) /\
  bytes_ok (f_data (file_write_all f bs).2).
Proof.
  intros Hd Hb Hp Hl. unfold file_write_all. destruct bs as [|b bs]; [done|].
  pose proof (next_fault_data f) as (E1 & E2 & _). destruct (next_fault f) as [fault0 f1]. simpl in E1, E2 |- *. rewrite E1, E2.
  generalize (if f_writable f1 then fault0 else Some 0%nat). intros fault.
  set (w := match fault with Some k => take k (b :: bs) | None => b :: bs end).
  assert (Hw : zlen w <= zlen (b :: bs) /\ bytes_ok w).
  { unfold w. destruct fault as [k|]; [|done]. split; [|by apply Forall_take].
    unfold zlen. rewrite length_take. lia. }
  destruct Hw as [Hw1 Hw2]. rewrite put_bytes_in by lia. unfold zlen in *.
  split; [rewrite length_splice; lia|by apply bytes_ok_splice].
Qed.

Lemma file_write_all_ok f bs f1 :
  0 <= f_pos f -> f_pos f + zlen bs <= zlen (f_data f) -> file_write_all f bs = (true, f1) ->
  f_data f1 = splice (Z.to_nat (f_pos f)) bs (f_data f).
Proof.
  intros Hp Hl. unfold file_write_all. destruct bs as [|b bs].
  { intros [= <-]. unfold splice. simpl. by rewrite Nat.add_0_r, take_drop. }
  pose proof (next_fault_data f) as (E1 & E2 & _). destruct (next_fault f) as [fault f2]. simpl in E1, E2.
  destruct (f_writable f2), fault; try done; intros [= <-]; simpl. rewrite E1, E2. by apply put_bytes_in.
Qed.

(** ** Lemmas: requests *)

Section BlockLemmas.
Context {M : Type} `{GuestMemLaws M}.
Implicit Types (d : VirtioBlockDevice) (mem : M).

(** No arithmetic of the bounds checks overflows, and they accept exactly the
    requests inside the disk. *)
Lemma request_offset_spec d sector len :
  block_wf d -> 0 <= sector -> 0 <= len ->
  request_offset d sector len =
    if decide (in_capacity d sector len) then Some (sector * SECTOR_SIZE) else None.
Proof.
  intros (_ & Hl & Hc) Hs Hn. unfold request_offset, in_capacity, MAX_REQUEST, SECTOR_SIZE in *.
  assert (Hcap : 0 <= capacity d /\ capacity d * 512 < 2 ^ 64).
  { rewrite Hc. pose proof (zlen_nonneg (f_data (disk d))).
    pose proof (Z.div_mod (zlen (f_data (disk d))) 512 ltac:(lia)).
    pose proof (Z.mod_pos_bound (zlen (f_data (disk d))) 512 ltac:(lia)).
    pose proof (Z.div_pos (zlen (f_data (disk d))) 512). lia. }
  unfold checked_mul. rewrite (proj2 (Z.ltb_lt (capacity d * 512) _)) by lia.
  change (default 0 (Some (capacity d * 512))) with (capacity d * 512).
  destruct (16777216 <? len) eqn:E1; b2p; [by rewrite decide_False by lia|].
  destruct (capacity d <=? sector) eqn:E2; b2p; [by rewrite decide_False by lia|].
  cbv zeta. rewrite wrap_small by (unfold in_range; lia). unfold saturating_add.
  destruct (_ <? _) eqn:E3; b2p; [by rewrite decide_False by lia|by rewrite decide_True by lia].
Qed.

(** A request inside the disk is inside the file. *)
Lemma in_capacity_file d sector len :
  block_wf d -> in_capacity d sector len -> sector * SECTOR_SIZE + len <= zlen (f_data (disk d)).
Proof.
  intros (_ & _ & Hc) (_ & Hi & _). unfold SECTOR_SIZE in *. rewrite Hc in Hi.
  pose proof (Z.div_mod (zlen (f_data (disk d))) 512 ltac:(lia)).
  pose proof (Z.mod_pos_bound (zlen (f_data (disk d))) 512 ltac:(lia)). lia.
Qed.

Lemma set_disk_wf d f :
  block_wf d -> zlen (f_data f) = zlen (f_data (disk d)) -> bytes_ok (f_data f) ->
  block_wf (set_disk d f).
Proof. intros (_ & ? & ?) Hl Hb. unfold block_wf, set_disk. simpl. by rewrite Hl. Qed.

(** [handle_read] never changes the disk's bytes, and writes guest memory only
    on success. *)
Lemma handle_read_inv d sector gpa len mem st d' mem' w :
  block_wf d -> mem_wf mem -> handle_read d sector gpa len mem = (st, d', mem', w) ->
  block_wf d' /\ f_data (disk d') = f_data (disk d) /\ mem_wf mem' /\
  (st = VIRTIO_BLK_S_OK \/ st = VIRTIO_BLK_S_IOERR) /\
  (st <> VIRTIO_BLK_S_OK -> mem' = mem /\ w = 0).
Proof.
  intros Hd Hm. unfold handle_read.
  assert (Hset : forall f, f_data f = f_data (disk d) ->
    block_wf (set_disk d f) /\ f_data (disk (set_disk d f)) = f_data (disk d)).
  { intros f E. split; [|exact E]. apply set_disk_wf; rewrite ?E; try done. apply Hd. }
  destruct (request_offset d sector len) as [off|]; [|intros [= <- <- <- <-]; naive_solver].
  destruct (file_seek (disk d) off) as [ok f1] eqn:Es.
  pose proof (file_seek_data (disk d) off) as E1. rewrite Es in E1. simpl in E1.
  destruct ok; simpl negb; cbv iota; [|intros [= <- <- <- <-]; destruct (Hset f1 E1); naive_solver].
  destruct (file_read_exact f1 (Z.to_nat len)) as [[buf|] f2] eqn:Er;
    pose proof (file_read_exact_data f1 (Z.to_nat len)) as E2; rewrite Er in E2; simpl in E2;
    rewrite E1 in E2; destruct (Hset f2 E2) as [W1 W2]; [|intros [= <- <- <- <-]; naive_solver].
  destruct (write_guest mem gpa buf) as [m1|] eqn:Ew; intros [= <- <- <- <-]; [|naive_solver].
  splits; try done; [|by left].
  eapply (write_guest_wf mem gpa buf); [done| |done].
  unfold file_read_exact in Er. pose proof (next_fault_data f1) as (F1 & _ & _).
  destruct (next_fault f1) as [[k|] f3]; [done|]. case_on; [|done]. injection Er as <- _.
  apply bytes_ok_slice. simpl in F1. rewrite F1, E1. apply Hd.
Qed.

(** [handle_write] never changes the size of the disk, faults included. *)
Lemma handle_write_inv d sector gpa len mem st d' :
  block_wf d -> mem_wf mem -> 0 <= sector -> 0 <= len ->
  handle_write d sector gpa len mem = (st, d') ->
  block_wf d' /\ zlen (f_data (disk d')) = zlen (f_data (disk d)) /\ capacity d' = capacity d.
Proof.
  intros Hd Hm Hs Hn. unfold handle_write. rewrite request_offset_spec by done.
  case_decide as Hin; [|by intros [= <- <-]].
  destruct (read_guest mem gpa (Z.to_nat len)) as [buf|] eqn:Er; [|by intros [= <- <-]].
  apply read_guest_ok in Er as [Hl Hb]; [|done].
  destruct (file_seek (disk d) _) as [ok f1] eqn:Es.
  pose proof (file_seek_data (disk d) (sector * SECTOR_SIZE)) as E1. rewrite Es in E1. simpl in E1.
  destruct ok; simpl negb; cbv iota; cycle 1.
  { intros [= <- <-]. splits; [|by simpl; rewrite E1|done].
    apply set_disk_wf; rewrite ?E1; try done. apply Hd. }
  destruct (file_seek_ok _ _ _ Es) as [Hp _].
  pose proof (in_capacity_file _ _ _ Hd Hin) as Hfit.
  destruct (file_write_all_inside f1 buf) as [W1 W2];
    [rewrite E1; apply Hd|done|rewrite Hp; unfold SECTOR_SIZE; lia|
     rewrite Hp, E1; unfold zlen at 1; rewrite Hl; lia|].
  destruct (file_write_all f1 buf) as [ok2 f2]. simpl in W1, W2. intros [= <- <-].
  rewrite E1 in W1. splits; [|done|done]. by apply set_disk_wf.
Qed.

Lemma data_phase_inv d rt sector desc mem st d' mem' w :
  block_wf d -> mem_wf mem -> 0 <= sector -> u32 (d_len desc) ->
  data_phase d rt sector desc mem = (st, d', mem', w) ->
  block_wf d' /\ zlen (f_data (disk d')) = zlen (f_data (disk d)) /\ mem_wf mem' /\
  (st = VIRTIO_BLK_S_OK \/ st = VIRTIO_BLK_S_IOERR).
Proof.
  intros Hd Hm Hs Hl. unfold data_phase.
  destruct (rt =? VIRTIO_BLK_T_IN).
  { destruct (is_device_writable desc); [|intros [= <- <- <- <-]; naive_solver].
    intros Hr. apply handle_read_inv in Hr as (? & E & ? & ? & _); [|done..]. by rewrite E. }
  destruct (rt =? VIRTIO_BLK_T_OUT); [|intros [= <- <- <- <-]; naive_solver].
  destruct (is_device_writable desc); [intros [= <- <- <- <-]; naive_solver|].
  destruct (handle_write _ _ _ _ _) as [st1 d1] eqn:Ew. intros [= <- <- <- <-].
  pose proof Ew as Ew'. apply handle_write_inv in Ew as (? & ? & _); [|done..|apply Hl].
  splits; try done. unfold handle_write in Ew'. repeat case_on; simplify_eq; auto.
Qed.

Lemma process_request_inv d mem c d' mem' w :
  block_wf d -> mem_wf mem -> chain_wf c -> process_request d mem c = (d', mem', w) ->
  block_wf d' /\ zlen (f_data (disk d')) = zlen (f_data (disk d)) /\ mem_wf mem'.
Proof.
  intros Hd Hm Hc. unfold process_request.
  destruct (next_descriptor c mem) as [[hd|] c1] eqn:E1; [|by intros [= <- <- <-]].
  apply next_descriptor_Some in E1 as (Hc1 & _ & _ & _ & _ & _ & _); [|done..].
  destruct (read_guest mem (d_gpa hd) 16) as [hb|] eqn:Eh; [|by intros [= <- <- <-]].
  apply read_guest_ok in Eh as [Hl Hb]; [|done]. cbv zeta.
  destruct (next_descriptor c1 mem) as [[dd|] c2] eqn:E2; [|by intros [= <- <- <-]].
  apply next_descriptor_Some in E2 as (Hc2 & _ & _ & _ & _ & _ & Hlen); [|done..].
  destruct (data_phase _ _ _ _ _) as [[[st d1] mem1] tw] eqn:Ed.
  apply data_phase_inv in Ed as (Hd1 & Hz & Hm1 & Hst); [|done..| |done].
  2: { apply from_le_bound. by apply bytes_ok_slice. }
  destruct (next_descriptor c2 mem1) as [[sd|] c3] eqn:E3; [|by intros [= <- <- <-]].
  destruct (negb _); intros [= <- <- <-]; [done|]. splits; try done.
  apply write_ignore_wf; [done|]. constructor; [|constructor].
  unfold VIRTIO_BLK_S_OK, VIRTIO_BLK_S_IOERR, in_range in *. lia.
Qed.

Lemma block_process_queue_inv fuel d i q mem d' q' mem' :
  block_wf d -> queue_wf q -> mem_wf mem ->
  block_process_queue fuel d i q mem = Ok (d', q', mem') ->
  (block_wf d' /\ zlen (f_data (disk d')) = zlen (f_data (disk d))) /\ queue_wf q' /\ mem_wf mem'.
Proof.
  intros Hd Hq Hm. unfold block_process_queue.
  destruct (while_pop _ _ _ _ _) as [[[d1 q1] m1]|] eqn:E; [|done]. intros [= <- <- <-].
  apply (while_pop_ind (fun d1 _ => block_wf d1 /\ zlen (f_data (disk d1)) = zlen (f_data (disk d))))
    in E; try done.
  clear. intros d1 mem c d' mem' len [Hd E] Hm Hc Hp.
  apply process_request_inv in Hp as (? & E' & ?); [|done..]. by rewrite E', E.
Qed.

(** *** A disk that cannot be written *)

Definition same_disk d d' : Prop := f_data (disk d') = f_data (disk d) /\ f_writable (disk d') = f_writable (disk d).

Lemma file_seek_mode f pos : f_writable (file_seek f pos).2 = f_writable f.
Proof.
  unfold file_seek. pose proof (next_fault_data f) as (_ & _ & E).
  destruct (next_fault f) as [[k|] f1]; simpl in *; congruence.
Qed.

Lemma file_read_exact_mode f n : f_writable (file_read_exact f n).2 = f_writable f.
Proof.
  unfold file_read_exact. pose proof (next_fault_data f) as (_ & _ & E).
  destruct (next_fault f) as [[k|] f1]; simpl in *; [congruence|]. by case_on.
Qed.

Lemma handle_read_same d sector gpa len mem st d' mem' w :
  handle_read d sector gpa len mem = (st, d', mem', w) -> same_disk d d'.
Proof.
  unfold handle_read. destruct (request_offset d sector len) as [off|]; [|by intros [= _ <- _ _]].
  pose proof (file_seek_data (disk d) off) as E1. pose proof (file_seek_mode (disk d) off) as M1.
  destruct (file_seek (disk d) off) as [ok f1]. cbn [snd] in E1, M1. destruct ok; cbn [negb]; [|by intros [= _ <- _ _]].
  pose proof (file_read_exact_data f1 (Z.to_nat len)) as E2. pose proof (file_read_exact_mode f1 (Z.to_nat len)) as M2.
  destruct (file_read_exact f1 (Z.to_nat len)) as [[buf|] f2]; cbn [snd] in E2, M2;
    [destruct (write_guest mem gpa buf)|]; intros [= _ <- _ _]; split; cbn; congruence.
Qed.

Lemma handle_write_refused d sector gpa len mem :
  f_writable (disk d) = false -> block_wf d -> mem_wf mem -> 0 <= sector -> 0 <= len ->
  same_disk d (handle_write d sector gpa len mem).2 /\
  (0 < len -> (handle_write d sector gpa len mem).1 = VIRTIO_BLK_S_IOERR).
Proof.
  intros Hro Hd Hm Hs Hn. unfold handle_write. rewrite request_offset_spec by done. case_decide as Hin; [|done].
  destruct (read_guest mem gpa (Z.to_nat len)) as [buf|] eqn:Er; [|done].
  apply read_guest_ok in Er as [Hl Hb]; [|done].
  pose proof (file_seek_data (disk d) (sector * SECTOR_SIZE)) as E1.
  pose proof (file_seek_mode (disk d) (sector * SECTOR_SIZE)) as M1.
  pose proof (in_capacity_file _ _ _ Hd Hin) as Hfit.
  destruct (file_seek (disk d) _) as [ok f1] eqn:Es. cbn [snd] in E1, M1.
  destruct ok; cbn [negb]; [|done]. destruct (file_seek_ok _ _ _ Es) as [Hp _].
  unfold file_write_all. destruct buf as [|b buf]; [cbn in Hl |- *; split; [done|lia]|].
  pose proof (next_fault_data f1) as (E2 & P2 & M2). destruct (next_fault f1) as [fault f2]. cbn [snd] in E2, P2, M2.
  rewrite M2, M1, Hro. cbn. split; [|done]. split; cbn; [|congruence]. rewrite E2, E1, P2, Hp.
  change (zlen []) with 0. rewrite put_bytes_in; [|unfold SECTOR_SIZE; lia|change (zlen []) with 0; lia].
  unfold splice. simpl. by rewrite Nat.add_0_r, take_drop.
Qed.

Lemma data_phase_refused d rt sector desc mem st d' mem' w :
  f_writable (disk d) = false -> block_wf d -> mem_wf mem -> 0 <= sector -> u32 (d_len desc) ->
  data_phase d rt sector desc mem = (st, d', mem', w) -> same_disk d d'.
Proof.
  intros Hro Hd Hm Hs Hl. unfold data_phase. destruct (rt =? VIRTIO_BLK_T_IN).
  { destruct (is_device_writable desc); [|by intros [= _ <- _ _]]. apply handle_read_same. }
  destruct (rt =? VIRTIO_BLK_T_OUT); [|by intros [= _ <- _ _]].
  destruct (is_device_writable desc); [by intros [= _ <- _ _]|].
  destruct (handle_write_refused d sector (d_gpa desc) (d_len desc) mem Hro Hd Hm Hs (proj1 Hl)) as [Hsame _].
  destruct (handle_write _ _ _ _ _) as [st1 d1]. by intros [= _ <- _ _].
Qed.

Lemma process_request_refused d mem c d' mem' w :
  f_writable (disk d) = false -> block_wf d -> mem_wf mem -> chain_wf c -> process_request d mem c = (d', mem', w) ->
  same_disk d d'.
Proof.
  intros Hro Hd Hm Hc. unfold process_request.
  destruct (next_descriptor c mem) as [[hd|] c1] eqn:E1; [|by intros [= <- _ _]].
  apply next_descriptor_Some in E1 as (Hc1 & _ & _ & _ & _ & _ & _); [|done..].
  destruct (read_guest mem (d_gpa hd) 16) as [hb|] eqn:Eh; [|by intros [= <- _ _]].
  apply read_guest_ok in Eh as [Hl Hb]; [|done]. cbv zeta.
  destruct (next_descriptor c1 mem) as [[dd|] c2] eqn:E2; [|by intros [= <- _ _]].
  apply next_descriptor_Some in E2 as (Hc2 & _ & _ & _ & _ & _ & Hlen); [|done..].
  destruct (data_phase _ _ _ _ _) as [[[st d1] mem1] tw] eqn:Ed.
  apply data_phase_refused in Ed; [|done..| |done].
  2: { apply from_le_bound. by apply bytes_ok_slice. }
  destruct (next_descriptor c2 mem1) as [[sd|] c3]; [|by intros [= <- _ _]]. by destruct (negb _); intros [= <- _ _].
Qed.

Lemma disk_range_length d sector len :
  block_wf d -> 0 <= sector -> 0 <= len -> in_capacity d sector len ->
  length (disk_range d sector len) = Z.to_nat len /\ bytes_ok (disk_range d sector len).
Proof.
  intros Hd Hs Hn Hin. pose proof (in_capacity_file _ _ _ Hd Hin) as Hf.
  split; [|apply bytes_ok_slice, Hd]. unfold disk_range, SECTOR_SIZE, zlen in *.
  rewrite length_slice by lia. lia.
Qed.

(** Both outcomes of a read: refused with nothing changed in guest memory, or
    the named bytes of the disk written there. *)
Lemma handle_read_spec d sector gpa len mem st d' mem' w :
  block_wf d -> 0 <= sector -> 0 <= len ->
  handle_read d sector gpa len mem = (st, d', mem', w) ->
  (st = VIRTIO_BLK_S_IOERR /\ mem' = mem /\ w = 0) \/
  (st = VIRTIO_BLK_S_OK /\ w = len /\ in_capacity d sector len /\
   write_guest mem gpa (disk_range d sector len) = Ok mem').
Proof.
  intros Hd Hs Hn. unfold handle_read. rewrite request_offset_spec by done.
  case_decide as Hin; [|intros [= <- <- <- <-]; by left].
  destruct (file_seek (disk d) _) as [[] f1] eqn:Es; simpl negb; cbv iota;
    [|intros [= <- <- <- <-]; by left].
  destruct (file_seek_ok _ _ _ Es) as [E1 E2].
  destruct (file_read_exact f1 (Z.to_nat len)) as [[buf|] f2] eqn:Er;
    [|intros [= <- <- <- <-]; by left].
  apply file_read_exact_ok in Er as [_ ->]; [|rewrite E1; unfold SECTOR_SIZE; lia].
  rewrite E1, E2. fold (disk_range d sector len).
  destruct (write_guest mem gpa _) as [m1|] eqn:Ew; intros [= <- <- <- <-]; [right|by left]. done.
Qed.

(** Guest memory after the data phase: unchanged, or the data buffer written. *)
Lemma data_phase_mem d rt sector desc mem st d' mem' w :
  block_wf d -> mem_wf mem -> 0 <= sector -> u32 (d_len desc) ->
  data_phase d rt sector desc mem = (st, d', mem', w) ->
  mem' = mem \/
  exists buf, mem' = write_guest_ignore mem (d_gpa desc) buf /\ bytes_ok buf /\ zlen buf = d_len desc.
Proof.
  intros Hd Hm Hs [Hl _]. unfold data_phase.
  destruct (rt =? VIRTIO_BLK_T_IN).
  - destruct (is_device_writable desc); [|intros [= <- <- <- <-]; by left].
    intros Hr. apply handle_read_spec in Hr as [(_ & -> & _)|(_ & _ & Hin & Hw)]; try done; [by left|].
    right. exists (disk_range d sector (d_len desc)).
    destruct (disk_range_length d sector (d_len desc)) as [E1 E2]; try done.
    split; [unfold write_guest_ignore; by rewrite Hw|]. split; [done|]. unfold zlen. lia.
  - intros E. left. by repeat case_on; simplify_eq.
Qed.

(** A well-formed request: the data phase, then its status, published with one
    byte more than the data. *)
Lemma process_request_spec d mem c data status rt sector :
  block_wf d -> mem_wf mem -> chain_wf c -> is_request mem c data status rt sector ->
  off_table c data ->
  u64 sector /\ u32 (d_len data) /\
  process_request d mem c =
    (let '(st, d', mem1, w) := data_phase d rt sector data mem in
     (d', write_guest_ignore mem1 (d_gpa status) [st], wrap 32 (w + 1))).
Proof.
  intros Hd Hm Hc (h & hb & Hds & Hh & Ht & Hs & Hw) Hoff.
  apply descriptors_cons in Hds as (c1 & E1 & Hds). apply descriptors_cons in Hds as (c2 & E2 & Hds).
  apply descriptors_cons in Hds as (c3 & E3 & _).
  pose proof (next_descriptor_table _ _ _ _ E1) as [G1 G1'].
  pose proof (next_descriptor_table _ _ _ _ E2) as [G2 G2'].
  destruct (next_descriptor_Some _ _ _ _ Hc Hm E1) as (Hc1 & _).
  destruct (next_descriptor_Some _ _ _ _ Hc1 Hm E2) as (Hc2 & _ & _ & _ & _ & _ & Hlen).
  destruct (read_guest_ok _ _ _ _ Hm Hh) as [Hl Hb].
  assert (Hsec : u64 sector).
  { rewrite <- Hs. pose proof (from_le_bound _ (bytes_ok_slice 8 16 hb Hb)) as Hbd.
    unfold zlen in Hbd. rewrite length_slice in Hbd by lia. exact Hbd. }
  split; [done|]. split; [done|].
  unfold process_request. rewrite E1, Hh. cbv zeta. rewrite E2, Ht, Hs.
  destruct (data_phase _ _ _ _ _) as [[[st d1] mem1] tw] eqn:Ed.
  assert (next_descriptor c2 mem1 = (Some status, c3)) as ->; [|by rewrite Hw].
  rewrite <- E3. apply data_phase_mem in Ed as [->|(buf & -> & Hbuf & Hz)]; try done; [|apply Hsec].
  apply next_descriptor_frame; try done. unfold off_table in Hoff. by rewrite Hz, G2, G2', G1, G1'.
Qed.

(** Without I/O faults, requests inside the disk on mapped buffers succeed. *)
Lemma handle_write_ok d sector gpa len mem buf :
  block_wf d -> mem_wf mem -> 0 <= sector -> 0 <= len -> f_faults (disk d) = [] -> f_writable (disk d) = true ->
  in_capacity d sector len -> read_guest mem gpa (Z.to_nat len) = Ok buf ->
  exists f, handle_write d sector gpa len mem = (VIRTIO_BLK_S_OK, set_disk d f) /\
    f_faults f = [] /\ f_data f = splice (Z.to_nat (sector * SECTOR_SIZE)) buf (f_data (disk d)).
Proof.
  intros Hd Hm Hs Hn Hf Hwr Hin Hr. pose proof (in_capacity_file _ _ _ Hd Hin) as Hfit.
  destruct (read_guest_ok _ _ _ _ Hm Hr) as [Hl Hb].
  unfold handle_write. rewrite request_offset_spec, decide_True, Hr by done.
  unfold file_seek, next_fault. rewrite Hf. simpl negb. cbv iota.
  destruct buf as [|b buf].
  { eexists. split; [reflexivity|]. split; [done|]. simpl. unfold splice. simpl. by rewrite Nat.add_0_r, take_drop. }
  unfold file_write_all, next_fault. simpl. rewrite Hf. simpl. rewrite Hwr. eexists. split; [reflexivity|].
  split; [done|]. cbn [f_data f_pos]. apply put_bytes_in; [unfold SECTOR_SIZE; lia|].
  change (zlen (b :: buf)) with (Z.of_nat (length (b :: buf))). lia.
Qed.

(** Nothing to write is written to any file. *)
Lemma handle_write_empty d sector gpa len mem :
  block_wf d -> mem_wf mem -> 0 <= sector -> 0 <= len -> f_faults (disk d) = [] -> in_capacity d sector len ->
  read_guest mem gpa (Z.to_nat len) = Ok [] ->
  exists f, handle_write d sector gpa len mem = (VIRTIO_BLK_S_OK, set_disk d f) /\
    f_data f = splice (Z.to_nat (sector * SECTOR_SIZE)) [] (f_data (disk d)).
Proof.
  intros Hd Hm Hs Hl Hf Hin Hr. unfold handle_write. rewrite request_offset_spec, decide_True, Hr by done.
  unfold file_seek, next_fault. rewrite Hf. simpl negb. cbv iota.
  eexists. split; [reflexivity|]. simpl. unfold splice. simpl. by rewrite Nat.add_0_r, take_drop.
Qed.

Lemma handle_read_ok d sector gpa len mem :
  block_wf d -> mem_wf mem -> 0 <= sector -> 0 <= len -> f_faults (disk d) = [] ->
  in_capacity d sector len -> is_ok (read_guest mem gpa (Z.to_nat len)) = true ->
  exists f mem', handle_read d sector gpa len mem = (VIRTIO_BLK_S_OK, set_disk d f, mem', len) /\
    f_data f = f_data (disk d) /\ write_guest mem gpa (disk_range d sector len) = Ok mem'.
Proof.
  intros Hd Hm Hs Hn Hf Hin Hr. pose proof (in_capacity_file _ _ _ Hd Hin) as Hfit.
  destruct (disk_range_length d sector len Hd Hs Hn Hin) as [Hl Hb].
  unfold handle_read. rewrite request_offset_spec, decide_True by done.
  unfold file_seek, next_fault. rewrite Hf. simpl negb. cbv iota.
  unfold file_read_exact, next_fault. simpl. rewrite Hf.
  destruct (_ <=? _) eqn:Ele; b2p; [|simpl in Ele; lia]. simpl. fold (disk_range d sector len).
  rewrite <- Hl in Hr. rewrite <- write_guest_mapped in Hr by done.
  destruct (write_guest mem gpa _) as [m1|]; [|done]. by eexists _, _.
Qed.

Lemma disk_range_splice d f s1 l1 s2 l2 buf :
  block_wf d -> 0 <= s1 -> 0 <= l1 -> 0 <= s2 -> 0 <= l2 -> zlen buf = l1 ->
  in_capacity d s1 l1 -> in_capacity d s2 l2 ->
  f_data f = splice (Z.to_nat (s1 * SECTOR_SIZE)) buf (f_data (disk d)) ->
  disjoint_range (s1 * SECTOR_SIZE) l1 (s2 * SECTOR_SIZE) l2 ->
  disk_range (set_disk d f) s2 l2 = disk_range d s2 l2.
Proof.
  intros Hd ? ? ? ? Hl H1 H2 E Hdis.
  pose proof (in_capacity_file _ _ _ Hd H1). pose proof (in_capacity_file _ _ _ Hd H2).
  unfold disk_range, SECTOR_SIZE, disjoint_range, zlen in *. simpl. rewrite E.
  apply slice_splice_disjoint; lia.
Qed.

(** ** Properties *)

(** C16: A well-formed read request inside the disk, on mapped buffers: the guest's
    data buffer receives exactly the named bytes of the disk, the status byte
    says OK, the reported length counts both, nothing else in memory changes
    and neither does the disk. *)
Theorem block_read_request d mem c data status sector :
  block_wf d -> mem_wf mem -> chain_wf c -> f_faults (disk d) = [] ->
  is_request mem c data status VIRTIO_BLK_T_IN sector -> off_table c data ->
  is_device_writable data = true -> in_capacity d sector (d_len data) ->
  is_ok (read_guest mem (d_gpa data) (Z.to_nat (d_len data))) = true ->
  is_ok (read_guest mem (d_gpa status) 1) = true ->
  disjoint_range (d_gpa status) 1 (d_gpa data) (d_len data) ->
  exists d' mem',
    process_request d mem c = (d', mem', d_len data + 1) /\
    f_data (disk d') = f_data (disk d) /\
    read_guest mem' (d_gpa data) (Z.to_nat (d_len data)) = Ok (disk_range d sector (d_len data)) /\
    read_guest mem' (d_gpa status) 1 = Ok [VIRTIO_BLK_S_OK] /\
    forall g n, disjoint_range (d_gpa data) (d_len data) g (Z.of_nat n) ->
      disjoint_range (d_gpa status) 1 g (Z.of_nat n) -> read_guest mem' g n = read_guest mem g n.
Proof.
  intros Hd Hm Hc Hf Hreq Hoff Hw Hin Hmap Hst Hdis.
  destruct (process_request_spec _ _ _ _ _ _ _ Hd Hm Hc Hreq Hoff) as (Hs & Hl & ->).
  destruct Hs as [Hs _]. pose proof Hl as [Hl0 _].
  destruct (handle_read_ok d sector (d_gpa data) (d_len data) mem) as (f & m1 & E & Ef & Ew); try done.
  destruct (disk_range_length d sector (d_len data) Hd Hs Hl0 Hin) as [El Eb].
  unfold data_phase. simpl. rewrite Hw, E.
  assert (Hm1 : mem_wf m1) by (by eapply write_guest_wf).
  assert (Hb : bytes_ok [VIRTIO_BLK_S_OK]) by (by repeat constructor).
  eexists _, _. split; [rewrite wrap_small|]; [done| |].
  { destruct Hin as (_ & _ & Hmax). unfold MAX_REQUEST, in_range in *. lia. }
  splits; [exact Ef| | |].
  - rewrite read_write_ignore_disjoint by (done || (rewrite Z2Nat.id by done; done)).
    rewrite <- El. exact (read_write_same _ _ _ _ Hm Eb Ew).
  - apply (read_write_ignore_same m1 (d_gpa status) [VIRTIO_BLK_S_OK]); [done..|].
    simpl. by rewrite (read_write_mapped _ _ _ _ _ 1 Hm Ew).
  - intros g n H1 H2. rewrite read_write_ignore_disjoint by done.
    eapply read_write_disjoint; [exact Hm|exact Eb|exact Ew|]. unfold zlen. by rewrite El, Z2Nat.id by done.
Qed.

(** C18: A well-formed write request inside the disk.  When the backing file was
    opened for writing, the disk becomes the old one with the guest's buffer spliced
    in at the sector; when it was opened for reading only, as the program opens every
    disk, the request is an I/O error, unless it is empty, and the disk is as it was.
    Either way only the status byte of guest memory is written. *)
Theorem block_write_request d mem c data status sector buf :
  block_wf d -> mem_wf mem -> chain_wf c -> f_faults (disk d) = [] ->
  is_request mem c data status VIRTIO_BLK_T_OUT sector -> off_table c data ->
  is_device_writable data = false -> in_capacity d sector (d_len data) ->
  read_guest mem (d_gpa data) (Z.to_nat (d_len data)) = Ok buf ->
  let accepted := f_writable (disk d) || bool_decide (buf = []) in
  exists d',
    process_request d mem c =
      (d', write_guest_ignore mem (d_gpa status) [if accepted then VIRTIO_BLK_S_OK else VIRTIO_BLK_S_IOERR], 1) /\
    f_data (disk d') = (if accepted then splice (Z.to_nat (sector * SECTOR_SIZE)) buf (f_data (disk d)) else f_data (disk d)) /\
    block_wf d'.
Proof.
  intros Hd Hm Hc Hf Hreq Hoff Hw Hin Hr accepted.
  destruct (process_request_spec _ _ _ _ _ _ _ Hd Hm Hc Hreq Hoff) as ([Hs _] & [Hl _] & ->).
  assert (exists d1, handle_write d sector (d_gpa data) (d_len data) mem = (if accepted then VIRTIO_BLK_S_OK else VIRTIO_BLK_S_IOERR, d1) /\
    f_data (disk d1) = (if accepted then splice (Z.to_nat (sector * SECTOR_SIZE)) buf (f_data (disk d)) else f_data (disk d))) as (d1 & E & Ef).
  { subst accepted. destruct (f_writable (disk d)) eqn:Hwr; cbn [orb].
    - destruct (handle_write_ok d sector (d_gpa data) (d_len data) mem buf) as (f & E & _ & Ef); try done. by eexists.
    - destruct (handle_write_refused d sector (d_gpa data) (d_len data) mem Hwr Hd Hm Hs Hl) as [[Hsame _] Herr].
      case_bool_decide as Hb.
      + subst buf. destruct (handle_write_empty d sector (d_gpa data) (d_len data) mem) as (f & E & Ef); try done. by eexists.
      + exists (handle_write d sector (d_gpa data) (d_len data) mem).2. split; [|exact Hsame]. rewrite <- Herr; [by destruct (handle_write _ _ _ _ _)|].
        destruct (read_guest_ok _ _ _ _ Hm Hr) as [Hlen _]. destruct buf; [done|]. simpl in Hlen. lia. }
  unfold data_phase. simpl. rewrite Hw, E. eexists. split; [reflexivity|]. split; [exact Ef|].
  by apply handle_write_inv in E as (? & _).
Qed.

(** C20: A request of unknown type, in the wrong direction or outside the disk is
    answered with an I/O error: no byte of the disk or of the guest's memory
    but the status changes. *)
Theorem block_bad_request_rejected d mem c data status rt sector :
  block_wf d -> mem_wf mem -> chain_wf c -> is_request mem c data status rt sector ->
  off_table c data ->
  ~ (rt = VIRTIO_BLK_T_IN /\ is_device_writable data = true /\ in_capacity d sector (d_len data)) ->
  ~ (rt = VIRTIO_BLK_T_OUT /\ is_device_writable data = false /\ in_capacity d sector (d_len data)) ->
  process_request d mem c = (d, write_guest_ignore mem (d_gpa status) [VIRTIO_BLK_S_IOERR], 1).
Proof.
  intros Hd Hm Hc Hreq Hoff Hin Hout.
  destruct (process_request_spec _ _ _ _ _ _ _ Hd Hm Hc Hreq Hoff) as ([Hs _] & [Hl _] & ->).
  unfold data_phase, handle_read, handle_write. rewrite !request_offset_spec by done.
  destruct (rt =? VIRTIO_BLK_T_IN) eqn:E1; b2p.
  - destruct (is_device_writable data); [|done]. rewrite decide_False by naive_solver. done.
  - destruct (rt =? VIRTIO_BLK_T_OUT) eqn:E2; b2p; [|done].
    destruct (is_device_writable data); [done|]. rewrite decide_False by naive_solver. done.
Qed.

(** What is written to a sector is read back, from any guest memory, and the
    rest of the disk reads as before. *)
Theorem block_write_then_read d sector len mem gpa buf mem2 gpa2 :
  block_wf d -> mem_wf mem -> mem_wf mem2 -> f_faults (disk d) = [] -> f_writable (disk d) = true ->
  0 <= sector -> 0 <= len -> in_capacity d sector len ->
  read_guest mem gpa (Z.to_nat len) = Ok buf ->
  is_ok (read_guest mem2 gpa2 (Z.to_nat len)) = true ->
  exists d' d2 mem2',
    handle_write d sector gpa len mem = (VIRTIO_BLK_S_OK, d') /\
    handle_read d' sector gpa2 len mem2 = (VIRTIO_BLK_S_OK, d2, mem2', len) /\
    read_guest mem2' gpa2 (Z.to_nat len) = Ok buf /\
    forall s l, 0 <= s -> 0 <= l -> in_capacity d s l ->
      disjoint_range (sector * SECTOR_SIZE) len (s * SECTOR_SIZE) l ->
      disk_range d' s l = disk_range d s l.
Proof.
  intros Hd Hm Hm2 Hf Hwr Hs Hn Hin Hr Hmap.
  destruct (handle_write_ok d sector gpa len mem buf) as (f & E & Ef & Ed); try done.
  destruct (handle_write_inv _ _ _ _ _ _ _ Hd Hm Hs Hn E) as (Hd' & _ & _).
  destruct (handle_read_ok (set_disk d f) sector gpa2 len mem2) as (f2 & m2 & E2 & _ & Ew); try done.
  destruct (disk_range_length (set_disk d f) sector len Hd' Hs Hn Hin) as [El Eb].
  pose proof (in_capacity_file _ _ _ Hd Hin) as Hfit.
  destruct (read_guest_ok _ _ _ _ Hm Hr) as [Hl Hb].
  exists (set_disk d f), (set_disk (set_disk d f) f2), m2. splits; [done|done| |].
  - rewrite <- El at 1. erewrite read_write_same by done. f_equal.
    unfold disk_range, SECTOR_SIZE, zlen in *. simpl. rewrite Ed, <- Hl.
    apply slice_splice_same. lia.
  - intros s l Hs2 Hl2 Hin2 Hdis. eapply (disk_range_splice d f sector len s l buf); try done.
    unfold zlen. lia.
Qed.

(** Whatever requests a guest queues, and whatever I/O faults they meet, the
    disk keeps its size, so its advertised capacity stays that of the file. *)
Theorem block_queue_preserves_size fuel d i q mem d' q' mem' :
  block_wf d -> queue_wf q -> mem_wf mem ->
  block_process_queue fuel d i q mem = Ok (d', q', mem') ->
  zlen (f_data (disk d')) = zlen (f_data (disk d)) /\
  capacity d' = zlen (f_data (disk d)) / SECTOR_SIZE /\ queue_wf q' /\ mem_wf mem'.
Proof.
  intros Hd Hq Hm E. apply block_process_queue_inv in E as (((Hb & Hz & Hc) & El) & ? & ?); [|done..].
  by rewrite Hc, El.
Qed.

(** A disk opened for reading only never changes, whatever requests a guest
    queues, and answers every write that carries data with an I/O error. *)
Theorem read_only_disk fuel d i q mem d' q' mem' :
  f_writable (disk d) = false -> block_wf d -> queue_wf q -> mem_wf mem ->
  block_process_queue fuel d i q mem = Ok (d', q', mem') ->
  f_data (disk d') = f_data (disk d) /\ f_writable (disk d') = false /\
  forall sector gpa len m, mem_wf m -> 0 <= sector -> 0 < len ->
    (handle_write d' sector gpa len m).1 = VIRTIO_BLK_S_IOERR.
Proof.
  intros Hro Hd Hq Hm. unfold block_process_queue.
  destruct (while_pop _ _ _ _ _) as [[[d1 q1] m1]|] eqn:E; [|done]. intros [= <- <- <-].
  apply (while_pop_ind (fun d1 _ => block_wf d1 /\ f_data (disk d1) = f_data (disk d) /\ f_writable (disk d1) = false)) in E; try done.
  - destruct E as ((Hd1 & Ed & Ew) & _ & _). split_and!; [done..|].
    intros sector gpa len m Hm' Hs Hl. apply (handle_write_refused d1 sector gpa len m Ew Hd1 Hm' Hs); lia.
  - clear -H0. intros d1 mem c d' mem' len (Hd & Ed & Ew) Hm Hc Hp.
    pose proof (process_request_refused _ _ _ _ _ _ Ew Hd Hm Hc Hp) as [E1 E2].
    apply process_request_inv in Hp as (? & _ & ?); [|done..]. split_and!; congruence.
Qed.

End BlockLemmas.

#[export] Instance block_backend_laws `{GuestMemLaws M} : VirtioBackendLaws VirtioBlockDevice M.
Proof.
  unshelve refine {| backend_wf := block_wf |}; try done.
  - intros fuel d i q m d' q' m' Hd Hq Hm E.
    by apply block_process_queue_inv in E as ([? _] & ? & ?).
  - by intros d q m d' q' m' b Hd Hq Hm [= <- <- <- _].
Defined.

(** ** Witnesses *)

Lemma demo_disk_wf : block_wf demo_disk.
Proof. split; [decided|]. split; [decided|reflexivity]. Qed.

Lemma demo_request_wf t s f : mem_wf (demo_request t s f).
Proof.
  unfold demo_request. repeat apply write_ignore_wf.
  - apply ram_at_wf; [lia..|reflexivity].
  - repeat apply Forall_app_2; apply le_bytes_ok.
  - repeat apply Forall_app_2; apply le_bytes_ok.
  - decided.
Qed.

Lemma demo_chain_wf : chain_wf demo_chain.
Proof. unfold chain_wf, demo_chain, MAX_QUEUE_SIZE, in_range. simpl. lia. Qed.

Lemma demo_off_table w : off_table demo_chain (demo_data w).
Proof. right. simpl. lia. Qed.

(** [is_request] of a concrete request, by evaluation. *)
Ltac demo_is_request s t :=
  unfold is_request; eexists _, (le_bytes 4 t ++ le_bytes 4 0 ++ le_bytes 8 s);
  split; [vm_compute; reflexivity|]; split; [vm_compute; reflexivity|]; split; [reflexivity|];
  split; reflexivity.

Lemma block_read_request_witness :
  exists d' mem', process_request demo_disk (demo_request 0 1 2) demo_chain = (d', mem', 9) /\
    read_guest mem' 0x900 8 = Ok (replicate 8 9).
Proof.
  destruct (block_read_request demo_disk (demo_request 0 1 2) demo_chain (demo_data true) demo_status 1
    demo_disk_wf (demo_request_wf _ _ _) demo_chain_wf eq_refl
    ltac:(demo_is_request 1 0) (demo_off_table _) eq_refl ltac:(decided)
    ltac:(vm_compute; reflexivity) ltac:(vm_compute; reflexivity)
    ltac:(right; simpl; lia)) as (d' & mem' & E & _ & R & _).
  exists d', mem'. split; [exact E|]. exact R.
Defined.

Lemma block_write_request_witness :
  (exists d' mem', process_request demo_disk (demo_request 1 1 0) demo_chain = (d', mem', 1) /\
    slice 512 520 (f_data (disk d')) = [1; 2; 3; 4; 5; 6; 7; 8] /\ read_guest mem' 0xA00 1 = Ok [VIRTIO_BLK_S_OK]) /\
  (exists d' mem', process_request demo_ro_disk (demo_request 1 1 0) demo_chain = (d', mem', 1) /\
    f_data (disk d') = f_data (disk demo_ro_disk) /\ read_guest mem' 0xA00 1 = Ok [VIRTIO_BLK_S_IOERR]).
Proof.
  split.
  - destruct (block_write_request demo_disk (demo_request 1 1 0) demo_chain (demo_data false) demo_status 1
      [1; 2; 3; 4; 5; 6; 7; 8] demo_disk_wf (demo_request_wf _ _ _) demo_chain_wf eq_refl
      ltac:(demo_is_request 1 1) (demo_off_table _) eq_refl ltac:(decided)
      ltac:(vm_compute; reflexivity)) as (d' & E & R & _).
    exists d'. eexists. split; [exact E|]. rewrite R. split; vm_compute; reflexivity.
  - destruct (block_write_request demo_ro_disk (demo_request 1 1 0) demo_chain (demo_data false) demo_status 1
      [1; 2; 3; 4; 5; 6; 7; 8] demo_disk_wf (demo_request_wf _ _ _) demo_chain_wf eq_refl
      ltac:(demo_is_request 1 1) (demo_off_table _) eq_refl ltac:(decided)
      ltac:(vm_compute; reflexivity)) as (d' & E & R & _).
    exists d'. eexists. split; [exact E|]. split; [exact R|vm_compute; reflexivity].
Defined.

Lemma block_bad_request_rejected_witness :
  process_request demo_disk (demo_request 0 2 2) demo_chain =
    (demo_disk, write_guest_ignore (demo_request 0 2 2) 0xA00 [1], 1).
Proof.
  apply (block_bad_request_rejected demo_disk (demo_request 0 2 2) demo_chain (demo_data true)
    demo_status 0 2 demo_disk_wf (demo_request_wf _ _ _) demo_chain_wf
    ltac:(demo_is_request 2 0) (demo_off_table _)).
  - intros [_ [_ [F _]]]. vm_compute in F. discriminate F.
  - intros [F _]. discriminate F.
Defined.

Lemma block_write_then_read_witness :
  exists d' d2 m2,
    handle_write demo_disk 1 0x900 8 (demo_request 1 1 0) = (0, d') /\
    handle_read d' 1 0xB00 8 (demo_request 1 1 0) = (0, d2, m2, 8) /\
    read_guest m2 0xB00 8 = Ok [1; 2; 3; 4; 5; 6; 7; 8].
Proof.
  destruct (block_write_then_read demo_disk 1 8 (demo_request 1 1 0) 0x900 [1; 2; 3; 4; 5; 6; 7; 8]
    (demo_request 1 1 0) 0xB00 demo_disk_wf (demo_request_wf _ _ _) (demo_request_wf _ _ _) eq_refl eq_refl
    ltac:(lia) ltac:(lia) ltac:(decided) ltac:(vm_compute; reflexivity)
    ltac:(vm_compute; reflexivity)) as (d' & d2 & m2 & E1 & E2 & R & _).
  exists d', d2, m2. split; [exact E1|]. split; [exact E2|]. exact R.
Defined.

Lemma block_queue_preserves_size_witness :
  match block_process_queue 4 demo_disk 0 demo_queue demo_ring_memory with
  | Ok (d', _, _) => zlen (f_data (disk d')) = 1024
  | Err _ => False
  end.
Proof.
  assert (E : is_ok (block_process_queue 4 demo_disk 0 demo_queue demo_ring_memory) = true)
    by (vm_compute; reflexivity).
  destruct (block_process_queue 4 demo_disk 0 demo_queue demo_ring_memory) as [[[d' q'] m']|] eqn:R;
    [|discriminate E].
  exact (proj1 (block_queue_preserves_size 4 demo_disk 0 demo_queue demo_ring_memory d' q' m'
    demo_disk_wf demo_queue_wf demo_ring_memory_wf R)).
Defined.

Lemma read_only_disk_witness :
  match block_process_queue 4 demo_ro_disk 0 demo_queue demo_ring_memory with
  | Ok (d', _, _) => f_data (disk d') = f_data (disk demo_ro_disk)
  | Err _ => False
  end.
Proof.
  assert (E : is_ok (block_process_queue 4 demo_ro_disk 0 demo_queue demo_ring_memory) = true)
    by (vm_compute; reflexivity).
  destruct (block_process_queue 4 demo_ro_disk 0 demo_queue demo_ring_memory) as [[[d' q'] m']|] eqn:R;
    [|discriminate E].
  exact (proj1 (read_only_disk 4 demo_ro_disk 0 demo_queue demo_ring_memory d' q' m' eq_refl
    demo_disk_wf demo_queue_wf demo_ring_memory_wf R)).
Defined.
