(* ===== verification/Net.v ===== *)
(** * The virtio network device

    [hitz-devices/src/virtio/net.rs]: frames from the guest's TX queue go to
    the I/O thread, frames from the I/O thread to the guest's RX queue.  The
    two unbounded channels are lists: [tx_sent] is what the I/O thread has been
    sent, [rx_channel] what it has sent and the device not yet received. *)

From S2P Require Import Prelude Hal Memory Queue Bus Transport.

(** ** Constants and state *)

Definition VIRTIO_NET_HDR_SIZE : nat := 12.
Definition VIRTIO_NET_F_MAC : Z := Z.shiftl 1 5.
Definition RX_QUEUE : Z := 0.
Definition TX_QUEUE : Z := 1.
Definition MAX_TX_FRAME : Z := 65536.

Record VirtioNetDevice := {
  mac : list Z;
  tx_sent : list (list Z);
  tx_connected : bool;
  rx_channel : list (list Z);
  rx_pending : list (list Z);
}.

Definition net_new (mac : list Z) : VirtioNetDevice :=
  {| mac := mac; tx_sent := []; tx_connected := true; rx_channel := []; rx_pending := [] |}.

(** [Sender::send]: the frame is dropped when the I/O thread is gone. *)
Definition net_send (d : VirtioNetDevice) (frame : list Z) : VirtioNetDevice :=
  {| mac := mac d; tx_sent := if tx_connected d then tx_sent d ++ [frame] else tx_sent d;
     tx_connected := tx_connected d; rx_channel := rx_channel d; rx_pending := rx_pending d |}.

Definition set_rx (d : VirtioNetDevice) (channel pending : list (list Z)) : VirtioNetDevice :=
  {| mac := mac d; tx_sent := tx_sent d; tx_connected := tx_connected d; rx_channel := channel;
     rx_pending := pending |}.

(** ** Operations *)

Section Net.
Context {M : Type} `{GuestMemAccess M}.

(** One descriptor of a TX chain: readable buffers are appended, up to 64 KiB. *)
Definition collect_tx (frame_data : list Z) (mem : M) (desc : Descriptor) : list Z * M * bool :=
  if negb (is_device_writable desc) then
    if MAX_TX_FRAME <? saturating_add 64 (zlen frame_data) (d_len desc) then (frame_data, mem, true)
    else
      match read_guest mem (d_gpa desc) (Z.to_nat (d_len desc)) with
      | Ok bs => (frame_data ++ bs, mem, false)
      | Err _ => (frame_data, mem, false)
      end
  else (frame_data, mem, false).

(** The Ethernet frame of a TX chain, without the virtio-net header. *)
Definition tx_frame (mem : M) (chain : DescriptorChain) : option (list Z) :=
  let '(frame_data, _, _) := while_desc (desc_fuel chain) collect_tx [] mem chain in
  if (VIRTIO_NET_HDR_SIZE <? length frame_data)%nat then Some (drop VIRTIO_NET_HDR_SIZE frame_data)
  else None.

(** The body of the loop of [process_tx]. *)
Definition process_tx_chain (d : VirtioNetDevice) (mem : M) (chain : DescriptorChain) :
    VirtioNetDevice * M * Z :=
  (match tx_frame mem chain with Some frame => net_send d frame | None => d end, mem, 0).

(** One descriptor of an RX chain: state is the offset in the payload and the
    bytes written. *)
Definition scatter_rx (payload : list Z) (st : nat * Z) (mem : M) (desc : Descriptor) :
    (nat * Z) * M * bool :=
  let '(offset, total_written) := st in
  if is_device_writable desc && (offset <? length payload)%nat then
    let remaining := (length payload - offset)%nat in
    let to_write := Nat.min remaining (Z.to_nat (d_len desc)) in
    match write_guest mem (d_gpa desc) (slice offset (offset + to_write) payload) with
    | Ok mem' =>
        ((offset + to_write)%nat, wrap 32 (total_written + wrap 32 (Z.of_nat to_write)), mem', false)
    | Err _ => (st, mem, false)
    end
  else (st, mem, false).

Definition deliver_rx (d : VirtioNetDevice) (queue : VirtQueue) (mem : M) :
    VirtioNetDevice * VirtQueue * M * bool :=
  match rx_pending d with
  | [] => (d, queue, mem, false)
  | raw_frame :: rest =>
      match pop_chain queue mem with
      | (None, queue') => (d, queue', mem, false)
      | (Some chain, queue') =>
          let payload := replicate VIRTIO_NET_HDR_SIZE 0 ++ raw_frame in
          let head := head_index chain in
          let '(_, total_written, mem1, _) :=
            while_desc (desc_fuel chain) (scatter_rx payload) (0%nat, 0) mem chain in
          let mem2 := push_used queue' mem1 head total_written in
          let d' := if 0 <? total_written then set_rx d (rx_channel d) rest else d in
          (d', queue', mem2, 0 <? total_written)
      end
  end.

Definition net_process_queue (fuel : nat) (d : VirtioNetDevice) (queue_idx : Z) (queue : VirtQueue)
    (mem : M) : result Stop (VirtioNetDevice * VirtQueue * M) :=
  if queue_idx =? TX_QUEUE then ok_or (while_pop fuel process_tx_chain d queue mem) OutOfFuel
  else if queue_idx =? RX_QUEUE then
    let '(d', queue', mem', _) := deliver_rx d queue mem in Ok (d', queue', mem')
  else Ok (d, queue, mem).

(** [poll_rx]: the channel is emptied into [rx_pending] first. *)
Definition net_poll_rx (d : VirtioNetDevice) (rx_queue : VirtQueue) (mem : M) :
    VirtioNetDevice * VirtQueue * M * bool :=
  deliver_rx (set_rx d [] (rx_pending d ++ rx_channel d)) rx_queue mem.

Definition net_read_config (d : VirtioNetDevice) (offset : Z) (data : list Z) : list Z :=
  let start := Z.to_nat offset in
  if (start <? 6)%nat then
    let end_ := Nat.min (start + length data) 6 in splice 0 (slice start end_ (mac d)) data
  else data.

#[export] Instance net_backend : VirtioBackend VirtioNetDevice M := {
  device_id _ := 1;
  device_features _ := VIRTIO_NET_F_MAC;
  queue_count _ := 2%nat;
  process_queue := net_process_queue;
  backend_poll_rx := net_poll_rx;
  read_config := net_read_config;
  write_config d _ _ := d;
}.

(** ** Specification *)

(** The pieces of a payload that the writable buffers receive, in order. *)
Fixpoint rx_chunks (ds : list Descriptor) (payload : list Z) : list (Z * list Z) :=
  match ds with
  | [] => []
  | d :: ds' =>
      if is_device_writable d && negb (length payload =? 0)%nat then
        (d_gpa d, take (Z.to_nat (d_len d)) payload) ::
          rx_chunks ds' (drop (Z.to_nat (d_len d)) payload)
      else rx_chunks ds' payload
  end.

Definition write_chunks (mem : M) (chunks : list (Z * list Z)) : M :=
  foldl (fun m '(gpa, bs) => write_guest_ignore m gpa bs) mem chunks.

Definition chunk_bytes (chunks : list (Z * list Z)) : list Z := concat (snd <$> chunks).

(** Bytes the writable buffers of a chain can take. *)
Fixpoint rx_capacity (ds : list Descriptor) : nat :=
  match ds with
  | [] => 0
  | d :: ds' => (if is_device_writable d then Z.to_nat (d_len d) else 0) + rx_capacity ds'
  end.

End Net.

Definition net_wf (d : VirtioNetDevice) : Prop :=
  Forall bytes_ok (rx_channel d) /\ Forall bytes_ok (rx_pending d).

(** ** Lemmas *)

Section NetLemmas.
Context {M : Type} `{GuestMemLaws M}.
Implicit Types (d : VirtioNetDevice) (mem : M).

Lemma collect_tx_mem fr mem ds : exists fr' b, collect_tx fr mem ds = (fr', mem, b).
Proof. unfold collect_tx. repeat case_on; eauto. Qed.

(** *** TX *)

Lemma collect_tx_bound n mem c fr :
  mem_wf mem -> chain_wf c -> zlen fr <= MAX_TX_FRAME ->
  zlen (while_desc n collect_tx fr mem c).1.1 <= MAX_TX_FRAME.
Proof.
  intros Hm Hc Hfr. destruct (while_desc n collect_tx fr mem c) as [[fr' m'] c'] eqn:E.
  apply (while_desc_ind (fun fr _ => zlen fr <= MAX_TX_FRAME)) in E as [? _]; try done.
  clear -H0. intros fr mem ds fr' mem' b Hfr Hm _ Hl. unfold collect_tx, saturating_add, MAX_TX_FRAME in *.
  destruct (negb _); [|naive_solver]. destruct (_ <? _) eqn:Eb; [naive_solver|]. b2p.
  destruct (read_guest mem _ _) as [bs|] eqn:Er; intros [= <- <- <-]; [|done].
  apply read_guest_ok in Er as [Hlen _]; [|done]. split; [|done].
  rewrite zlen_app. unfold zlen, in_range in *. lia.
Qed.

Lemma collect_tx_exact mem bs c :
  mem_wf mem -> chain_wf c -> readable_bytes mem (descriptors c mem) = Some bs ->
  zlen bs <= MAX_TX_FRAME -> (while_desc (desc_fuel c) collect_tx [] mem c).1.1 = bs.
Proof.
  intros Hm Hc Hr Hl.
  apply (while_desc_gather collect_tx (fun _ => True) MAX_TX_FRAME mem) with (raw := @nil Z); try done.
  - intros raw ds b _ Hw Hrd Hlen Hdl. unfold collect_tx. rewrite Hw, Hrd. simpl negb. cbv iota.
    unfold saturating_add. by rewrite (proj2 (Z.ltb_ge _ _)) by lia.
  - intros raw ds _ Hw. unfold collect_tx. by rewrite Hw.
  - by apply Forall_true.
Qed.

(** *** RX *)

Lemma rx_chunks_nil ds : rx_chunks ds [] = [].
Proof. induction ds as [|d ds IH]; [done|]. simpl. by rewrite andb_false_r. Qed.

Lemma chunk_bytes_cons g bs cs : chunk_bytes ((g, bs) :: cs) = bs ++ chunk_bytes cs.
Proof. done. Qed.

(** The pieces are a prefix of the payload, whole when the buffers suffice. *)
Lemma chunk_bytes_prefix ds payload : chunk_bytes (rx_chunks ds payload) `prefix_of` payload.
Proof.
  revert payload. induction ds as [|d ds IH]; intros payload; [apply prefix_nil|]. simpl.
  case_on; [|apply IH]. unfold chunk_bytes in *. simpl.
  etrans; [apply prefix_app, IH|]. by rewrite take_drop.
Qed.

Lemma chunk_bytes_full ds payload :
  (length payload <= rx_capacity ds)%nat -> chunk_bytes (rx_chunks ds payload) = payload.
Proof.
  revert payload. induction ds as [|d ds IH]; intros payload; simpl.
  { intros Hl. by rewrite (nil_length_inv payload) by lia. }
  destruct (is_device_writable d); simpl; [|apply IH].
  destruct (length payload =? 0)%nat eqn:E; b2p; simpl; intros Hl; [apply IH; lia|].
  rewrite chunk_bytes_cons, IH by (rewrite length_drop; lia). apply take_drop.
Qed.

Lemma write_chunks_wf cs mem :
  mem_wf mem -> Forall (fun x => bytes_ok x.2) cs -> mem_wf (write_chunks mem cs).
Proof.
  revert mem. induction cs as [|[g b] cs IH]; intros mem Hm Hcs; [done|].
  inversion_clear Hcs. apply IH; [|done]. by apply write_ignore_wf.
Qed.

Lemma rx_chunks_ok ds payload : bytes_ok payload -> Forall (fun x => bytes_ok x.2) (rx_chunks ds payload).
Proof.
  revert payload. induction ds as [|d ds IH]; intros payload Hp; [constructor|]. simpl.
  case_on; [|by apply IH]. constructor; [by apply Forall_take|]. apply IH. by apply Forall_drop.
Qed.

(** The chunks do not meet the descriptor table and are mapped. *)
Definition chunks_ok (c : DescriptorChain) (mem : M) (cs : list (Z * list Z)) : Prop :=
  Forall (fun x => disjoint_range x.1 (zlen x.2) (dc_desc_gpa c) (16 * dc_queue_size c) /\
                   is_ok (read_guest mem x.1 (length x.2)) = true) cs.

Lemma chunks_ok_frame c c' mem g (bs : list Z) cs :
  mem_wf mem -> dc_desc_gpa c' = dc_desc_gpa c -> dc_queue_size c' = dc_queue_size c ->
  chunks_ok c mem cs -> chunks_ok c' (write_guest_ignore mem g bs) cs.
Proof.
  intros Hm E1 E2 Hcs. eapply Forall_impl; [exact Hcs|]. simpl. intros x [? ?]. rewrite E1, E2.
  by rewrite read_write_ignore_mapped.
Qed.

(** The RX loop writes exactly the chunks. *)
Lemma scatter_rx_chunks payload : forall n c mem offset,
  mem_wf mem -> chain_wf c -> bytes_ok payload -> zlen payload < 2 ^ 32 ->
  (offset <= length payload)%nat -> (desc_fuel c <= n)%nat ->
  let cs := rx_chunks (descriptors c mem) (drop offset payload) in
  chunks_ok c mem cs ->
  exists c', while_desc n (scatter_rx payload) (offset, Z.of_nat offset) mem c =
    (((offset + length (chunk_bytes cs))%nat, Z.of_nat offset + zlen (chunk_bytes cs)),
     write_chunks mem cs, c').
Proof.
  intros n. induction n as [|n IH]; intros c mem o Hm Hc Hp Hlen Ho Hn; [unfold desc_fuel in Hn; lia|].
  cbn [while_desc]. cbv zeta. rewrite descriptors_unfold.
  destruct (next_descriptor c mem) as [[ds|] c'] eqn:E.
  2: { intros _. exists c'. simpl. unfold zlen, chunk_bytes. simpl. by rewrite Nat.add_0_r, Z.add_0_r. }
  pose proof (next_descriptor_count _ _ _ _ E) as (? & ? & ?).
  pose proof (next_descriptor_table _ _ _ _ E) as [E1 E2].
  apply next_descriptor_Some in E as (Hc' & _ & _ & _ & _ & _ & Hdl); [|done..].
  assert (desc_fuel c' <= n)%nat by (unfold desc_fuel in *; lia).
  unfold scatter_rx at 1. cbn [rx_chunks]. rewrite length_drop.
  replace (negb (length payload - o =? 0)%nat) with (o <? length payload)%nat
    by (destruct (Nat.ltb_spec o (length payload)), (Nat.eqb_spec (length payload - o) 0); simpl; lia || done).
  destruct (is_device_writable ds && (o <? length payload)%nat) eqn:Ew.
  2: { intros Hok. apply IH; try done. unfold chunks_ok in *. by rewrite E1, E2. }
  b2p. intros Hok. inversion_clear Hok as [|? ? [Hd Hmap] Hrest]. simpl in Hd, Hmap.
  set (k := Nat.min (length payload - o) (Z.to_nat (d_len ds))).
  assert (Hsl : slice o (o + k) payload = take (Z.to_nat (d_len ds)) (drop o payload)).
  { unfold slice. replace (o + k - o)%nat with k by lia. unfold k. rewrite <- (length_drop payload o).
    rewrite <- take_take. apply take_ge. rewrite length_take. lia. }
  assert (Hk : length (take (Z.to_nat (d_len ds)) (drop o payload)) = k)
    by (unfold k; rewrite length_take, length_drop; lia).
  assert (Hdr : drop (Z.to_nat (d_len ds)) (drop o payload) = drop (o + k) payload).
  { rewrite drop_drop. unfold k. destruct (decide (Z.to_nat (d_len ds) <= length payload - o)%nat).
    - f_equal. lia.
    - rewrite !drop_ge by lia. done. }
  rewrite Hsl. rewrite <- write_guest_mapped in Hmap by done.
  destruct (write_guest mem (d_gpa ds) _) as [m1|] eqn:Ewr; [|done].
  assert (Em1 : m1 = write_guest_ignore mem (d_gpa ds) (take (Z.to_nat (d_len ds)) (drop o payload)))
    by (unfold write_guest_ignore; by rewrite Ewr).
  assert (Hb : bytes_ok (take (Z.to_nat (d_len ds)) (drop o payload)))
    by (apply Forall_take; by apply Forall_drop).
  unfold zlen in Hlen. fold k.
  rewrite (wrap_small 32 (Z.of_nat k)) by (unfold in_range; lia).
  rewrite wrap_small by (unfold in_range; lia). rewrite <- Nat2Z.inj_add.
  assert (Hds : descriptors c' m1 = descriptors c' mem).
  { rewrite Em1. apply descriptors_frame; try done. by rewrite E1, E2. }
  destruct (IH c' m1 (o + k)%nat) as [c2 E]; try done; [by rewrite Em1; apply write_ignore_wf|lia| |].
  { rewrite Hds, Em1, <- Hdr. by apply (chunks_ok_frame c). }
  exists c2. rewrite E, Hds, Hdr, chunk_bytes_cons, zlen_app, length_app, Hk.
  cbn [write_chunks foldl]. rewrite <- Em1. unfold zlen. rewrite Hk. do 3 f_equal; lia.
Qed.

(** *** Invariants *)

Lemma scatter_rx_wf payload st mem ds st' mem' b :
  bytes_ok payload -> mem_wf mem -> scatter_rx payload st mem ds = (st', mem', b) -> mem_wf mem'.
Proof.
  intros Hp Hm. unfold scatter_rx. destruct st as [o t]. case_on; [|by intros [= <- <- <-]].
  destruct (write_guest mem _ _) as [m1|] eqn:E; intros [= <- <- <-]; [|done].
  eapply write_guest_wf; [done|by apply bytes_ok_slice|exact E].
Qed.

Lemma header_frame_ok f : bytes_ok f -> bytes_ok (replicate VIRTIO_NET_HDR_SIZE 0 ++ f).
Proof. intros Hf. apply Forall_app_2; [|done]. apply Forall_replicate. decided. Qed.

Lemma deliver_rx_inv d q mem d' q' mem' b :
  net_wf d -> queue_wf q -> mem_wf mem -> deliver_rx d q mem = (d', q', mem', b) ->
  net_wf d' /\ queue_wf q' /\ mem_wf mem' /\ rx_channel d' = rx_channel d /\
  (b = false /\ rx_pending d' = rx_pending d \/
   b = true /\ exists f, rx_pending d = f :: rx_pending d').
Proof.
  intros [Hc Hp] Hq Hm. unfold deliver_rx.
  destruct (rx_pending d) as [|f rest] eqn:Ep;
    [intros [= <- <- <- <-]; splits; try done; [by split; rewrite ?Ep|auto]|].
  destruct (pop_chain q mem) as [[c|] q1] eqn:Epop.
  2: { apply pop_chain_None in Epop as ->. intros [= <- <- <- <-].
       splits; try done; [by split; rewrite ?Ep|auto]. }
  apply pop_chain_Some in Epop as (_ & Hcw & _ & _ & Hq1); [|done..]. cbv zeta.
  destruct (while_desc _ _ _ _ _) as [[[o t] m1] c1] eqn:Ew.
  inversion_clear Hp as [|? ? Hf Hrest].
  assert (Hm1 : mem_wf m1).
  { apply (while_desc_ind (fun _ _ => True)) in Ew; [tauto| |done..].
    intros st m ds st' m' b' _ Hmm _ _ Hb. split; [done|].
    eapply scatter_rx_wf; [by apply header_frame_ok|exact Hmm|exact Hb]. }
  intros [= <- <- <- <-]. splits; try by apply push_used_wf.
  all: destruct (0 <? t); try done; try (split; [done|]); rewrite ?Ep; eauto.
Qed.

Lemma process_tx_chain_mem d mem c : exists d', process_tx_chain d mem c = (d', mem, 0).
Proof. unfold process_tx_chain. eauto. Qed.

Lemma net_send_rx d f : rx_channel (net_send d f) = rx_channel d /\ rx_pending (net_send d f) = rx_pending d.
Proof. done. Qed.

Lemma net_process_queue_inv fuel d i q mem d' q' mem' :
  net_wf d -> queue_wf q -> mem_wf mem -> net_process_queue fuel d i q mem = Ok (d', q', mem') ->
  net_wf d' /\ queue_wf q' /\ mem_wf mem'.
Proof.
  intros Hd Hq Hm. unfold net_process_queue. case_on.
  - destruct (while_pop _ _ _ _ _) as [[[d1 q1] m1]|] eqn:E; [|done]. intros [= <- <- <-].
    apply (while_pop_ind (fun d _ => net_wf d)) in E; try done.
    clear. intros d mem c d' mem' len Hd Hm _. unfold process_tx_chain. intros [= <- <- _].
    split; [|done]. by case_on.
  - case_on; [|by intros [= <- <- <-]].
    destruct (deliver_rx d q mem) as [[[d1 q1] m1] b] eqn:E. intros [= <- <- <-].
    apply deliver_rx_inv in E; tauto.
Qed.

Lemma net_poll_rx_inv d q mem d' q' mem' b :
  net_wf d -> queue_wf q -> mem_wf mem -> net_poll_rx d q mem = (d', q', mem', b) ->
  net_wf d' /\ queue_wf q' /\ mem_wf mem' /\ rx_channel d' = [] /\
  (b = false /\ rx_pending d' = rx_pending d ++ rx_channel d \/
   b = true /\ exists f, rx_pending d ++ rx_channel d = f :: rx_pending d').
Proof.
  intros [Hc Hp] Hq Hm E. apply deliver_rx_inv in E; try done.
  split; [constructor|]. by apply Forall_app_2.
Qed.

(** *** Whole-queue TX *)

Lemma tx_frame_same q mem mem' h :
  queue_wf q -> u16 h -> mem_wf mem -> off_used q (q_desc_gpa q) (16 * q_size q) ->
  same_off_used q mem mem' ->
  Forall (fun ds => off_used q (d_gpa ds) (d_len ds) /\ 0 <= d_len ds) (descriptors (chain_of q h) mem) ->
  tx_frame mem' (chain_of q h) = tx_frame mem (chain_of q h).
Proof.
  intros Hq Hh Hm Ho Hs Hsafe. unfold tx_frame.
  destruct (while_desc_same q collect_tx (fun ds => off_used q (d_gpa ds) (d_len ds) /\ 0 <= d_len ds)
    mem mem' Hm Ho Hs) with (n := desc_fuel (chain_of q h)) (c := chain_of q h) (a := @nil Z)
    as (a' & c' & -> & ->); try done; [|by apply chain_of_wf].
  intros a ds [Hd Hl]. unfold collect_tx.
  rewrite (Hs (d_gpa ds) (Z.to_nat (d_len ds))) by (rewrite Z2Nat.id by done; done).
  repeat case_on; eauto.
Qed.

Definition send_chain mem q d (h : Z) : VirtioNetDevice :=
  match tx_frame mem (chain_of q h) with Some frame => net_send d frame | None => d end.

Lemma send_chain_foldl mem q hs d :
  tx_connected d = true ->
  tx_sent (foldl (send_chain mem q) d hs) =
    tx_sent d ++ omap (fun h => tx_frame mem (chain_of q h)) hs.
Proof.
  revert d. induction hs as [|h hs IH]; intros d Hd; simpl; [by rewrite app_nil_r|].
  unfold send_chain at 2. destruct (tx_frame mem (chain_of q h)) as [f|]; rewrite IH by done; [|done].
  simpl. by rewrite Hd, <- app_assoc.
Qed.

(** One notification sends the frames of all pending chains. *)
Lemma net_tx_drains fuel d q mem hs u :
  queue_wf q -> mem_wf mem -> q_ready q = true -> layout_ok q mem -> tx_connected d = true ->
  pending q mem = Some <$> hs -> used_idx q mem = Some u -> (length hs < fuel)%nat ->
  Forall (fun h => Forall (fun ds => off_used q (d_gpa ds) (d_len ds) /\ 0 <= d_len ds)
                     (descriptors (chain_of q h) mem)) hs ->
  exists d' q' mem',
    net_process_queue fuel d TX_QUEUE q mem = Ok (d', q', mem') /\
    tx_sent d' = tx_sent d ++ omap (fun h => tx_frame mem (chain_of q h)) hs /\
    pending q' mem' = [] /\ used_idx q' mem' = Some (wrap 16 (u + zlen hs)).
Proof.
  intros Hq Hm Hr Hlay Hcon Hp Hu Hf Hbuf.
  assert (u16 u).
  { unfold used_idx in Hu. apply bind_Some in Hu as (g & _ & Hu). by eapply read_u16_range. }
  destruct (while_pop_drains process_tx_chain (send_chain mem q) q mem hs Hlay) with
    (fuel := fuel) (q := q) (d := d) (mem := mem) (u := u) as (q' & m' & E & P1 & P2 & _); try done.
  { intros d1 m1 h Hm1 Hs Hh Hin. exists 0. unfold process_tx_chain, send_chain.
    rewrite (tx_frame_same q mem m1); try done; [apply Hlay|]. rewrite Forall_forall in Hbuf.
    by apply Hbuf. }
  exists (foldl (send_chain mem q) d hs), q', m'. unfold net_process_queue. simpl. rewrite E.
  splits; try done. by apply send_chain_foldl.
Qed.

Lemma tx_frame_exact mem c : mem_wf mem -> chain_wf c ->
  forall bs, readable_bytes mem (descriptors c mem) = Some bs -> zlen bs <= MAX_TX_FRAME ->
     tx_frame mem c = if (length bs <=? VIRTIO_NET_HDR_SIZE)%nat then None else Some (drop VIRTIO_NET_HDR_SIZE bs).
Proof.
  intros Hm Hc bs Hr Hl. unfold tx_frame. pose proof (collect_tx_exact mem bs c Hm Hc Hr Hl) as E.
  destruct (while_desc _ _ _ _ _) as [[fr m1] c1]. simpl in E. rewrite E.
  by destruct (Nat.ltb_spec VIRTIO_NET_HDR_SIZE (length bs)), (Nat.leb_spec (length bs) VIRTIO_NET_HDR_SIZE); try lia.
Qed.

(** ** Properties *)

(** TX: when the rings are laid out as a driver lays them and the buffers are
    off the used ring, one notification sends the I/O thread exactly the frames
    of all pending chains, in order and once each, returns every chain on the
    used ring, and ends with nothing pending. *)
Theorem net_tx_in_order fuel d q mem hs u :
  queue_wf q -> mem_wf mem -> q_ready q = true -> layout_ok q mem -> tx_connected d = true ->
  pending q mem = Some <$> hs -> used_idx q mem = Some u -> (length hs < fuel)%nat ->
  Forall (fun h => Forall (fun ds => off_used q (d_gpa ds) (d_len ds) /\ 0 <= d_len ds)
                     (descriptors (chain_of q h) mem)) hs ->
  exists d' q' mem',
    net_process_queue fuel d TX_QUEUE q mem = Ok (d', q', mem') /\
    tx_sent d' = tx_sent d ++ omap (fun h => tx_frame mem (chain_of q h)) hs /\
    pending q' mem' = [] /\ used_idx q' mem' = Some (wrap 16 (u + zlen hs)).
Proof. apply net_tx_drains. Qed.

(** A TX frame never exceeds 64 KiB less the header, whatever lengths the guest
    claims; and a chain whose readable buffers are mapped and fit gives exactly
    their bytes without the twelve of the header (nothing if no more than that). *)
Theorem net_tx_frame_exact mem c :
  mem_wf mem -> chain_wf c ->
  (forall f, tx_frame mem c = Some f -> 0 < zlen f <= MAX_TX_FRAME - Z.of_nat VIRTIO_NET_HDR_SIZE) /\
  (forall bs, readable_bytes mem (descriptors c mem) = Some bs -> zlen bs <= MAX_TX_FRAME ->
     tx_frame mem c =
       if (length bs <=? VIRTIO_NET_HDR_SIZE)%nat then None else Some (drop VIRTIO_NET_HDR_SIZE bs)).
Proof.
  intros Hm Hc. split.
  - intros f. unfold tx_frame. pose proof (collect_tx_bound (desc_fuel c) mem c [] Hm Hc ltac:(decided)) as Hb.
    destruct (while_desc _ _ _ _ _) as [[fr m1] c1]. simpl in Hb. case_on; [|done]. b2p.
    intros [= <-]. unfold zlen in *. rewrite length_drop. lia.
  - by apply tx_frame_exact.
Qed.

(** RX: delivering a frame writes the header and frame into the chain's
    writable buffers in order, a prefix of them when the buffers are short, the
    whole when they suffice; publishes the number of bytes written; and removes
    the frame exactly when something was written. *)
Theorem net_rx_scatters d q mem f rest c q1 :
  net_wf d -> queue_wf q -> mem_wf mem -> rx_pending d = f :: rest -> zlen f + 12 < 2 ^ 32 ->
  pop_chain q mem = (Some c, q1) ->
  let payload := replicate VIRTIO_NET_HDR_SIZE 0 ++ f in
  let cs := rx_chunks (descriptors c mem) payload in
  let total := zlen (chunk_bytes cs) in
  chunks_ok c mem cs ->
  deliver_rx d q mem =
    (if 0 <? total then set_rx d (rx_channel d) rest else d, q1,
     push_used q1 (write_chunks mem cs) (head_index c) total, 0 <? total) /\
  chunk_bytes cs `prefix_of` payload /\
  ((length payload <= rx_capacity (descriptors c mem))%nat -> chunk_bytes cs = payload).
Proof.
  intros [_ Hp] Hq Hm Ep Hl Epop. cbv zeta. intros Hok.
  split; [|split; [apply chunk_bytes_prefix|apply chunk_bytes_full]].
  pose proof (pop_chain_Some _ _ _ _ Hq Hm Epop) as (_ & Hc & _).
  rewrite Ep in Hp. inversion_clear Hp as [|? ? Hf _].
  destruct (scatter_rx_chunks (replicate VIRTIO_NET_HDR_SIZE 0 ++ f) (desc_fuel c) c mem 0)
    as [c' E]; try done; [by apply header_frame_ok| |lia|].
  { rewrite zlen_app. exact (eq_ind _ (fun x => x < _) Hl _ (Z.add_comm _ _)). }
  unfold deliver_rx. rewrite Ep, Epop. cbv zeta. rewrite drop_0 in E. change (Z.of_nat 0) with 0 in E.
  by rewrite E, Z.add_0_l.
Qed.

(** Polling never loses, duplicates or reorders a frame: the frames waiting
    afterwards are those waiting in the device and then in the channel, less
    the first exactly when the poll asks for an interrupt. *)
Theorem net_rx_fifo d q mem d' q' mem' ready :
  net_wf d -> queue_wf q -> mem_wf mem -> net_poll_rx d q mem = (d', q', mem', ready) ->
  rx_channel d' = [] /\
  if ready then exists f, rx_pending d ++ rx_channel d = f :: rx_pending d'
  else rx_pending d' = rx_pending d ++ rx_channel d.
Proof.
  intros Hd Hq Hm E. apply net_poll_rx_inv in E as (_ & _ & _ & Hc & [[-> Hp]|[-> Hp]]); done.
Qed.

End NetLemmas.

#[export] Instance net_backend_laws `{GuestMemLaws M} : VirtioBackendLaws VirtioNetDevice M.
Proof.
  unshelve refine {| backend_wf := net_wf |}; try done.
  - intros fuel d i q m d' q' m' Hd Hq Hm E. exact (net_process_queue_inv _ _ _ _ _ _ _ _ Hd Hq Hm E).
  - intros d q m d' q' m' b Hd Hq Hm E. apply net_poll_rx_inv in E; tauto.
Defined.

(** ** Witnesses *)

Definition demo_net : VirtioNetDevice := set_rx (net_new [2; 0; 0; 0; 0; 1]) [] [[1; 2; 3]].

Lemma net_tx_in_order_witness :
  exists d' q' mem',
    net_process_queue 3 demo_net TX_QUEUE demo_queue demo_ring_memory = Ok (d', q', mem') /\
    tx_sent d' = [[0; 0; 0; 0]] /\ used_idx q' mem' = Some 2.
Proof.
  destruct (net_tx_in_order 3 demo_net demo_queue demo_ring_memory [5; 7] 0 demo_queue_wf
    demo_ring_memory_wf eq_refl) as (d' & q' & m' & E & E1 & _ & E2).
  - split; [right; vm_compute; intros F; discriminate F|].
    split; [right; vm_compute; intros F; discriminate F|].
    split; [reflexivity|]. exists 0. vm_compute. reflexivity.
  - reflexivity.
  - vm_compute. reflexivity.
  - vm_compute. reflexivity.
  - simpl. lia.
  - apply (bool_decide_unpack _). vm_compute. exact I.
  - exists d', q', m'. split; [exact E|]. split; [rewrite E1; vm_compute; reflexivity|exact E2].
Defined.

Definition demo_net_chain : DescriptorChain := chain_of demo_queue 5.

Lemma demo_net_chain_wf : chain_wf demo_net_chain.
Proof. apply chain_of_wf; [apply demo_queue_wf|decided]. Qed.

Lemma net_tx_frame_exact_witness :
  tx_frame demo_ring_memory demo_net_chain = Some [0; 0; 0; 0].
Proof.
  destruct (net_tx_frame_exact demo_ring_memory demo_net_chain demo_ring_memory_wf demo_net_chain_wf)
    as [_ H]. rewrite (H (replicate 16 0)); [reflexivity|vm_compute; reflexivity|decided].
Defined.

Lemma net_rx_scatters_witness :
  (deliver_rx demo_net demo_queue demo_ring_memory).2 = true /\
  res_ok (read_guest (deliver_rx demo_net demo_queue demo_ring_memory).1.2 0x900 16) =
    Some (replicate 12 0 ++ [1; 2; 3; 0]).
Proof.
  assert (W : net_wf demo_net) by (split; [constructor|]; constructor; [decided|constructor]).
  destruct (net_rx_scatters demo_net demo_queue demo_ring_memory [1; 2; 3] [] demo_net_chain
    (advance_avail demo_queue) W demo_queue_wf demo_ring_memory_wf eq_refl ltac:(decided)
    ltac:(vm_compute; reflexivity)) as [E _].
  - assert (rx_chunks (descriptors demo_net_chain demo_ring_memory)
      (replicate VIRTIO_NET_HDR_SIZE 0 ++ [1; 2; 3]) = [(0x900, replicate 12 0 ++ [1; 2; 3])]) as ->
      by (vm_compute; reflexivity).
    constructor; [|constructor]. split; [right; simpl; lia|vm_compute; reflexivity].
  - rewrite E. split; vm_compute; reflexivity.
Defined.

Lemma net_rx_fifo_witness :
  match net_poll_rx demo_net demo_queue demo_ring_memory with
  | (d', _, _, ready) => ready = true /\ rx_channel d' = []
  end.
Proof.
  assert (W : net_wf demo_net) by (split; [constructor|]; constructor; [decided|constructor]).
  assert (R : (net_poll_rx demo_net demo_queue demo_ring_memory).2 = true) by (vm_compute; reflexivity).
  destruct (net_poll_rx demo_net demo_queue demo_ring_memory) as [[[d' q'] m'] b] eqn:E.
  split; [exact R|].
  exact (proj1 (net_rx_fifo demo_net demo_queue demo_ring_memory d' q' m' b W demo_queue_wf
    demo_ring_memory_wf E)).
Defined.
