(* ===== verification/Vsock.v ===== *)
(** * The virtio vsock device

    [hitz-devices/src/virtio/vsock.rs]: the 44-byte packet header and the
    device that exchanges packets with the host runtime.  Channels are lists;
    [tx_room] is how many more packets the outgoing channel takes ([None] for an
    unbounded one), since the device sends without blocking. *)

From S2P Require Import Prelude Hal Memory Queue Bus Transport.

(** ** Protocol *)

Definition VSOCK_HDR_SIZE : nat := 44.
Definition VSOCK_TYPE_STREAM : Z := 1.
Definition VMADDR_CID_HOST : Z := 2.
Definition VSOCK_BUF_ALLOC : Z := 256 * 1024.
Definition MAX_TX_PACKET : Z := 65536.

Inductive VsockOp := Request | Response | Rst | Shutdown | Rw | CreditUpdate | CreditRequest.

#[export] Instance VsockOp_eq_dec : EqDecision VsockOp.
Proof. solve_decision. Defined.

(** [op as u16]. *)
Definition op_as_u16 (op : VsockOp) : Z :=
  match op with
  | Request => 1 | Response => 2 | Rst => 3 | Shutdown => 4 | Rw => 5
  | CreditUpdate => 6 | CreditRequest => 7
  end.

Definition op_from_u16 (v : Z) : option VsockOp :=
  if v =? 1 then Some Request
  else if v =? 2 then Some Response
  else if v =? 3 then Some Rst
  else if v =? 4 then Some Shutdown
  else if v =? 5 then Some Rw
  else if v =? 6 then Some CreditUpdate
  else if v =? 7 then Some CreditRequest
  else None.

Record VsockHdr := {
  src_cid : Z;
  dst_cid : Z;
  src_port : Z;
  dst_port : Z;
  hdr_len : Z;
  hdr_type : Z;
  hdr_op : Z;
  hdr_flags : Z;
  buf_alloc : Z;
  fwd_cnt : Z;
}.

#[export] Instance VsockHdr_eq_dec : EqDecision VsockHdr.
Proof. solve_decision. Defined.

(** [to_bytes]: one [copy_from_slice] per field into a zeroed array. *)
Definition to_bytes (h : VsockHdr) : list Z :=
  let b := replicate VSOCK_HDR_SIZE 0 in
  let b := splice 0 (le_bytes 8 (src_cid h)) b in
  let b := splice 8 (le_bytes 8 (dst_cid h)) b in
  let b := splice 16 (le_bytes 4 (src_port h)) b in
  let b := splice 20 (le_bytes 4 (dst_port h)) b in
  let b := splice 24 (le_bytes 4 (hdr_len h)) b in
  let b := splice 28 (le_bytes 2 (hdr_type h)) b in
  let b := splice 30 (le_bytes 2 (hdr_op h)) b in
  let b := splice 32 (le_bytes 4 (hdr_flags h)) b in
  let b := splice 36 (le_bytes 4 (buf_alloc h)) b in
  splice 40 (le_bytes 4 (fwd_cnt h)) b.

Arguments to_bytes : simpl never.

Definition from_bytes (bytes : list Z) : option VsockHdr :=
  if (length bytes <? VSOCK_HDR_SIZE)%nat then None
  else
    Some {| src_cid := from_le (slice 0 8 bytes);
            dst_cid := from_le (slice 8 16 bytes);
            src_port := from_le (slice 16 20 bytes);
            dst_port := from_le (slice 20 24 bytes);
            hdr_len := from_le (slice 24 28 bytes);
            hdr_type := from_le (slice 28 30 bytes);
            hdr_op := from_le (slice 30 32 bytes);
            hdr_flags := from_le (slice 32 36 bytes);
            buf_alloc := from_le (slice 36 40 bytes);
            fwd_cnt := from_le (slice 40 44 bytes) |}.

Definition make_response (h : VsockHdr) (op : VsockOp) (payload_len : Z) : VsockHdr :=
  {| src_cid := dst_cid h; dst_cid := src_cid h; src_port := dst_port h; dst_port := src_port h;
     hdr_len := payload_len; hdr_type := VSOCK_TYPE_STREAM; hdr_op := op_as_u16 op;
     hdr_flags := 0; buf_alloc := VSOCK_BUF_ALLOC; fwd_cnt := 0 |}.

Definition VsockPacket : Type := VsockHdr * list Z.

(** ** The device *)

Record VirtioVsockDevice := {
  guest_cid : Z;
  vs_sent : list VsockPacket;
  tx_room : option nat;
  vs_channel : list VsockPacket;
  vs_pending : list VsockPacket;
}.

(** [new] and [with_channels], which differ in who made the channels. *)
Definition vsock_new (guest_cid : Z) : VirtioVsockDevice :=
  {| guest_cid := guest_cid; vs_sent := []; tx_room := None; vs_channel := []; vs_pending := [] |}.

Definition with_channels (guest_cid : Z) (rx : list VsockPacket) (room : option nat) :
    VirtioVsockDevice :=
  {| guest_cid := guest_cid; vs_sent := []; tx_room := room; vs_channel := rx; vs_pending := [] |}.

(** [try_send]: dropped when the channel is full or closed. *)
Definition try_send (d : VirtioVsockDevice) (p : VsockPacket) : VirtioVsockDevice :=
  let accept room :=
    {| guest_cid := guest_cid d; vs_sent := vs_sent d ++ [p]; tx_room := room;
       vs_channel := vs_channel d; vs_pending := vs_pending d |} in
  match tx_room d with
  | None => accept None
  | Some (S n) => accept (Some n)
  | Some O => d
  end.

Definition set_vs_rx (d : VirtioVsockDevice) (channel pending : list VsockPacket) : VirtioVsockDevice :=
  {| guest_cid := guest_cid d; vs_sent := vs_sent d; tx_room := tx_room d; vs_channel := channel;
     vs_pending := pending |}.

Section Vsock.
Context {M : Type} `{GuestMemAccess M}.

(** One descriptor of a TX chain. *)
Definition collect_packet (raw : list Z) (mem : M) (desc : Descriptor) : list Z * M * bool :=
  if is_device_writable desc then (raw, mem, true)
  else if MAX_TX_PACKET <? saturating_add 64 (zlen raw) (d_len desc) then (raw, mem, true)
  else
    match read_guest mem (d_gpa desc) (Z.to_nat (d_len desc)) with
    | Ok bs => (raw ++ bs, mem, false)
    | Err _ => (raw, mem, false)
    end.

(** The packet of the bytes of a chain: [raw.get(44..payload_end)] is [None]
    when the header claims more than is there. *)
Definition parse_packet (raw : list Z) : option VsockPacket :=
  hdr ← (if (VSOCK_HDR_SIZE <=? length raw)%nat then from_bytes raw else None);
  let payload_end := (VSOCK_HDR_SIZE + Z.to_nat (hdr_len hdr))%nat in
  let payload :=
    if (payload_end <=? length raw)%nat then slice VSOCK_HDR_SIZE payload_end raw else [] in
  Some (hdr, payload).

Definition tx_packet (mem : M) (chain : DescriptorChain) : option VsockPacket :=
  let '(raw, _, _) := while_desc (desc_fuel chain) collect_packet [] mem chain in
  parse_packet raw.

(** The body of the loop of [process_tx]. *)
Definition process_tx_body (d : VirtioVsockDevice) (mem : M) (chain : DescriptorChain) :
    VirtioVsockDevice * M * Z :=
  (match tx_packet mem chain with Some p => try_send d p | None => d end, mem, 0).

(** The body of the loop of [process_event]. *)
Definition process_event_body (d : VirtioVsockDevice) (mem : M) (chain : DescriptorChain) :
    VirtioVsockDevice * M * Z := (d, mem, 0).

Definition vsock_process_queue (fuel : nat) (d : VirtioVsockDevice) (queue_idx : Z)
    (queue : VirtQueue) (mem : M) : result Stop (VirtioVsockDevice * VirtQueue * M) :=
  if queue_idx =? 0 then Ok (d, queue, mem)
  else if queue_idx =? 1 then ok_or (while_pop fuel process_tx_body d queue mem) OutOfFuel
  else if queue_idx =? 2 then ok_or (while_pop fuel process_event_body d queue mem) OutOfFuel
  else Ok (d, queue, mem).

(** The two writes of an injected packet.  [total] is published whatever the
    descriptor's length. *)
Definition write_packet (mem : M) (desc : Descriptor) (p : VsockPacket) : M :=
  let '(hdr, payload) := p in
  let mem1 := write_guest_ignore mem (d_gpa desc) (to_bytes hdr) in
  if negb (length payload =? 0)%nat then
    match checked_add 64 (d_gpa desc) (zlen (to_bytes hdr)) with
    | Some payload_addr => write_guest_ignore mem1 payload_addr payload
    | None => mem1
    end
  else mem1.

Definition packet_total (p : VsockPacket) : Z :=
  let total := zlen (to_bytes p.1) + zlen p.2 in
  if total <? 2 ^ 32 then total else 2 ^ 32 - 1.

(** The loop of [poll_rx] over the pending packets: those left, the queue,
    memory, and whether a packet was injected. *)
Fixpoint inject_loop (pending : list VsockPacket) (queue : VirtQueue) (mem : M) (injected : bool) :
    list VsockPacket * VirtQueue * M * bool :=
  match pending with
  | [] => ([], queue, mem, injected)
  | p :: rest =>
      match pop_chain queue mem with
      | (None, queue') => (p :: rest, queue', mem, injected)
      | (Some chain, queue') =>
          let head := head_index chain in
          let total := packet_total p in
          match next_descriptor chain mem with
          | (Some desc, _) =>
              if is_device_writable desc then
                let mem' := push_used queue' (write_packet mem desc p) head total in
                inject_loop rest queue' mem' true
              else (p :: rest, queue', push_used queue' mem head 0, injected)
          | (None, _) => (p :: rest, queue', push_used queue' mem head 0, injected)
          end
      end
  end.

Definition vsock_poll_rx (d : VirtioVsockDevice) (rx_queue : VirtQueue) (mem : M) :
    VirtioVsockDevice * VirtQueue * M * bool :=
  let pending := vs_pending d ++ vs_channel d in
  let d1 := set_vs_rx d [] pending in
  match pending with
  | [] => (d1, rx_queue, mem, false)
  | _ =>
      let '(waiting, queue', mem', injected) := inject_loop pending rx_queue mem false in
      (set_vs_rx d1 [] waiting, queue', mem', injected)
  end.

(** The sum wraps; an offset for which it does, which no read of a device's window has,
    is past the eight bytes anyway (a build with overflow checks would panic). *)
Definition vsock_read_config (d : VirtioVsockDevice) (offset : Z) (data : list Z) : list Z :=
  let cid_bytes := le_bytes 8 (guest_cid d) in
  let src_start := Z.to_nat offset in
  let src_end := Nat.min (Z.to_nat (wrap 64 (offset + zlen data))) (length cid_bytes) in
  if (src_start <? length cid_bytes)%nat then splice 0 (slice src_start src_end cid_bytes) data
  else data.

#[export] Instance vsock_backend : VirtioBackend VirtioVsockDevice M := {
  device_id _ := 19;
  device_features _ := 0;
  queue_count _ := 3%nat;
  process_queue := vsock_process_queue;
  backend_poll_rx := vsock_poll_rx;
  read_config := vsock_read_config;
  write_config d _ _ := d;
}.

End Vsock.

(** ** Specification *)

(** Header fields within their widths. *)
Definition hdr_wf (h : VsockHdr) : Prop :=
  u64 (src_cid h) /\ u64 (dst_cid h) /\ u32 (src_port h) /\ u32 (dst_port h) /\ u32 (hdr_len h) /\
  u16 (hdr_type h) /\ u16 (hdr_op h) /\ u32 (hdr_flags h) /\ u32 (buf_alloc h) /\ u32 (fwd_cnt h).

#[export] Instance hdr_wf_dec h : Decision (hdr_wf h).
Proof. unfold hdr_wf. apply _. Defined.

Definition packet_wf (p : VsockPacket) : Prop := hdr_wf p.1 /\ bytes_ok p.2.

#[export] Instance packet_wf_dec p : Decision (packet_wf p).
Proof. unfold packet_wf. apply _. Defined.

Definition vsock_wf (d : VirtioVsockDevice) : Prop :=
  Forall packet_wf (vs_channel d) /\ Forall packet_wf (vs_pending d).

(** The header's fields in order, as the wire has them. *)
Definition hdr_layout (h : VsockHdr) : list Z :=
  le_bytes 8 (src_cid h) ++ le_bytes 8 (dst_cid h) ++ le_bytes 4 (src_port h) ++
  le_bytes 4 (dst_port h) ++ le_bytes 4 (hdr_len h) ++ le_bytes 2 (hdr_type h) ++
  le_bytes 2 (hdr_op h) ++ le_bytes 4 (hdr_flags h) ++ le_bytes 4 (buf_alloc h) ++
  le_bytes 4 (fwd_cnt h).

(** ** Lemmas *)

Lemma to_bytes_layout h : to_bytes h = hdr_layout h.
Proof. destruct h. reflexivity. Qed.

Lemma hdr_layout_slices h rest :
  from_bytes (hdr_layout h ++ rest) =
    Some {| src_cid := from_le (le_bytes 8 (src_cid h)); dst_cid := from_le (le_bytes 8 (dst_cid h));
            src_port := from_le (le_bytes 4 (src_port h));
            dst_port := from_le (le_bytes 4 (dst_port h));
            hdr_len := from_le (le_bytes 4 (hdr_len h)); hdr_type := from_le (le_bytes 2 (hdr_type h));
            hdr_op := from_le (le_bytes 2 (hdr_op h)); hdr_flags := from_le (le_bytes 4 (hdr_flags h));
            buf_alloc := from_le (le_bytes 4 (buf_alloc h));
            fwd_cnt := from_le (le_bytes 4 (fwd_cnt h)) |}.
Proof. destruct h. reflexivity. Qed.

Lemma to_bytes_ok h : bytes_ok (to_bytes h).
Proof. rewrite to_bytes_layout. unfold hdr_layout. repeat apply Forall_app_2; apply le_bytes_ok. Qed.

Lemma from_le_id n v w : in_range w v -> 2 ^ w = 256 ^ Z.of_nat n -> from_le (le_bytes n v) = v.
Proof. intros Hv E. apply from_le_le_bytes_id. unfold in_range in Hv. by rewrite <- E. Qed.

Lemma hdr_roundtrip h rest : hdr_wf h -> from_bytes (to_bytes h ++ rest) = Some h.
Proof.
  intros (? & ? & ? & ? & ? & ? & ? & ? & ? & ?). rewrite to_bytes_layout, hdr_layout_slices.
  rewrite !(from_le_id 8 _ 64), !(from_le_id 4 _ 32), !(from_le_id 2 _ 16) by done. by destruct h.
Qed.

(** A header read back is written as the same 44 bytes. *)
Lemma le_bytes_slice n a b l :
  bytes_ok l -> (a <= b <= length l)%nat -> n = (b - a)%nat ->
  le_bytes n (from_le (slice a b l)) = slice a b l.
Proof.
  intros Hl Hab ->. rewrite <- (length_slice a b l Hab) at 1. apply le_bytes_from_le.
  by apply bytes_ok_slice.
Qed.

Lemma slice_app_next {A} a b c (l : list A) rest :
  (a <= b <= c)%nat -> slice a b l ++ slice b c l ++ rest = slice a c l ++ rest.
Proof.
  intros Habc. rewrite app_assoc. f_equal. unfold slice.
  rewrite <- (take_drop (b - a) (take (c - a) (drop a l))). rewrite take_take, Nat.min_l by lia.
  f_equal. rewrite skipn_firstn_comm, drop_drop. f_equal; [lia|]. f_equal. lia.
Qed.

Lemma from_bytes_spec l h :
  bytes_ok l -> from_bytes l = Some h -> to_bytes h = take VSOCK_HDR_SIZE l /\ hdr_wf h.
Proof.
  intros Hl. unfold from_bytes. case_on; [done|]. b2p. unfold VSOCK_HDR_SIZE in *. intros [= <-]. split.
  - rewrite to_bytes_layout. unfold hdr_layout. simpl src_cid.
    cbn [src_cid dst_cid src_port dst_port hdr_len hdr_type hdr_op hdr_flags buf_alloc fwd_cnt].
    rewrite !le_bytes_slice by (done || lia).
    rewrite <- (app_nil_r (slice 40 44 l)), !slice_app_next by lia.
    rewrite app_nil_r. unfold slice. by rewrite drop_0.
  - assert (Hf : forall a b, (a <= b <= 44)%nat -> 0 <= from_le (slice a b l) < 256 ^ Z.of_nat (b - a)).
    { intros a b Hab. pose proof (from_le_bound _ (bytes_ok_slice a b l Hl)) as Hbd.
      unfold zlen in Hbd. rewrite length_slice in Hbd by lia. exact Hbd. }
    unfold hdr_wf. splits; simpl; match goal with |- in_range _ (from_le (slice ?a ?b l)) =>
      apply (Hf a b); lia end.
Qed.

Section VsockLemmas.
Context {M : Type} `{GuestMemLaws M}.
Implicit Types (d : VirtioVsockDevice) (mem : M).

Lemma write_packet_wf mem ds p : mem_wf mem -> packet_wf p -> mem_wf (write_packet mem ds p).
Proof.
  intros Hm [_ Hp]. destruct p as [h pl]. unfold write_packet.
  assert (mem_wf (write_guest_ignore mem (d_gpa ds) (to_bytes h)))
    by (apply write_ignore_wf; [done|apply to_bytes_ok]).
  destruct (negb _); [|done]. destruct (checked_add _ _ _); [|done]. by apply write_ignore_wf.
Qed.

(** The injection loop keeps the order of the packets. *)
Lemma inject_loop_inv pending : forall q mem inj waiting q' mem' inj',
  queue_wf q -> mem_wf mem -> Forall packet_wf pending ->
  inject_loop pending q mem inj = (waiting, q', mem', inj') ->
  queue_wf q' /\ mem_wf mem' /\ Forall packet_wf waiting /\
  exists injected, pending = injected ++ waiting /\
    inj' = inj || negb (length injected =? 0)%nat.
Proof.
  induction pending as [|p rest IH]; intros q mem inj waiting q' mem' inj' Hq Hm Hp; cbn [inject_loop].
  { intros [= <- <- <- <-]. splits; try done. exists []. by rewrite orb_false_r. }
  assert (Hkeep : exists injected : list VsockPacket, p :: rest = injected ++ (p :: rest) /\
      inj = inj || negb (length injected =? 0)%nat) by (exists []; by rewrite orb_false_r).
  destruct (pop_chain q mem) as [[c|] q1] eqn:E.
  2: { apply pop_chain_None in E as ->. intros [= <- <- <- <-]. by splits. }
  apply pop_chain_Some in E as (_ & Hc & _ & _ & Hq1); [|done..]. cbv zeta.
  assert (mem_wf (push_used q1 mem (head_index c) 0)) by by apply push_used_wf.
  destruct (next_descriptor c mem) as [[ds|] c'] eqn:En; [|by intros [= <- <- <- <-]; splits].
  destruct (is_device_writable ds); [|by intros [= <- <- <- <-]; splits].
  inversion_clear Hp as [|? ? Hp1 Hrest]. intros E.
  apply IH in E as (? & ? & ? & inj1 & -> & ->); try done.
  2: { apply push_used_wf. by apply write_packet_wf. }
  splits; try done. exists (p :: inj1). split; [done|]. by rewrite orb_true_r.
Qed.

Lemma vsock_poll_rx_inv d q mem d' q' mem' ready :
  vsock_wf d -> queue_wf q -> mem_wf mem -> vsock_poll_rx d q mem = (d', q', mem', ready) ->
  vsock_wf d' /\ queue_wf q' /\ mem_wf mem' /\ vs_channel d' = [] /\
  exists injected, vs_pending d ++ vs_channel d = injected ++ vs_pending d' /\
    ready = negb (length injected =? 0)%nat.
Proof.
  intros [Hc Hp] Hq Hm. unfold vsock_poll_rx. cbv zeta.
  pose proof (Forall_app_2 _ _ _ Hp Hc) as Hall.
  destruct (vs_pending d ++ vs_channel d) as [|p rest] eqn:E.
  { intros [= <- <- <- <-]. splits; try done. by exists []. }
  destruct (inject_loop _ _ _ _) as [[[w q1] m1] inj] eqn:Ei. intros [= <- <- <- <-].
  apply inject_loop_inv in Ei as (? & ? & ? & inj1 & ? & ?); try done. splits; try done. by exists inj1.
Qed.

Lemma vsock_process_queue_inv fuel d i q mem d' q' mem' :
  vsock_wf d -> queue_wf q -> mem_wf mem -> vsock_process_queue fuel d i q mem = Ok (d', q', mem') ->
  vsock_wf d' /\ queue_wf q' /\ mem_wf mem'.
Proof.
  intros Hd Hq Hm. unfold vsock_process_queue.
  assert (Hgen : forall body, (forall d mem c d' mem' len, vsock_wf d ->
      body d mem c = (d', mem', len) -> vsock_wf d' /\ mem' = mem) ->
    ok_or (while_pop fuel body d q mem) OutOfFuel = Ok (d', q', mem') ->
    vsock_wf d' /\ queue_wf q' /\ mem_wf mem').
  { intros body Hb E. destruct (while_pop _ _ _ _ _) as [[[d1 q1] m1]|] eqn:Ew; [|done].
    injection E as <- <- <-. apply (while_pop_ind (fun d _ => vsock_wf d)) in Ew; try done.
    intros ? ? ? ? ? ? Hd1 Hm1 _ E. by destruct (Hb _ _ _ _ _ _ Hd1 E) as [? ->]. }
  case_on; [by intros [= <- <- <-]|].
  case_on; [|case_on; [|by intros [= <- <- <-]]]; apply Hgen; clear;
    intros d mem c d' mem' len Hd; [unfold process_tx_body|unfold process_event_body];
    intros [= <- <- _]; (split; [|done]); [|done].
  case_on; [|done]. unfold try_send. repeat case_on; done.
Qed.

(** *** TX *)

Lemma collect_packet_exact mem bs c :
  mem_wf mem -> chain_wf c ->
  Forall (fun ds => is_device_writable ds = false) (descriptors c mem) ->
  readable_bytes mem (descriptors c mem) = Some bs -> zlen bs <= MAX_TX_PACKET ->
  (while_desc (desc_fuel c) collect_packet [] mem c).1.1 = bs.
Proof.
  intros Hm Hc Hall Hr Hl.
  apply (while_desc_gather collect_packet (fun ds => is_device_writable ds = false) MAX_TX_PACKET mem)
    with (raw := @nil Z); try done.
  - intros raw ds b _ Hw Hrd Hlen Hdl. unfold collect_packet. rewrite Hw, Hrd.
    unfold saturating_add. by rewrite (proj2 (Z.ltb_ge _ _)) by lia.
  - intros raw ds Hr1 Hr2. congruence.
Qed.

Lemma tx_packet_same q mem mem' h :
  queue_wf q -> u16 h -> mem_wf mem -> off_used q (q_desc_gpa q) (16 * q_size q) ->
  same_off_used q mem mem' ->
  Forall (fun ds => off_used q (d_gpa ds) (d_len ds) /\ 0 <= d_len ds) (descriptors (chain_of q h) mem) ->
  tx_packet mem' (chain_of q h) = tx_packet mem (chain_of q h).
Proof.
  intros Hq Hh Hm Ho Hs Hsafe. unfold tx_packet.
  destruct (while_desc_same q collect_packet (fun ds => off_used q (d_gpa ds) (d_len ds) /\ 0 <= d_len ds)
    mem mem' Hm Ho Hs) with (n := desc_fuel (chain_of q h)) (c := chain_of q h) (a := @nil Z)
    as (a' & c' & -> & ->); try done; [|by apply chain_of_wf].
  intros a ds [Hd Hl]. unfold collect_packet.
  rewrite (Hs (d_gpa ds) (Z.to_nat (d_len ds))) by (rewrite Z2Nat.id by done; done).
  repeat case_on; eauto.
Qed.

Definition send_packet mem q d (h : Z) : VirtioVsockDevice :=
  match tx_packet mem (chain_of q h) with Some p => try_send d p | None => d end.

Lemma send_packet_foldl mem q hs d :
  tx_room d = None ->
  vs_sent (foldl (send_packet mem q) d hs) =
    vs_sent d ++ omap (fun h => tx_packet mem (chain_of q h)) hs.
Proof.
  revert d. induction hs as [|h hs IH]; intros d Hd; simpl; [by rewrite app_nil_r|].
  unfold send_packet at 2. destruct (tx_packet mem (chain_of q h)) as [p|]; [|by apply IH].
  unfold try_send. rewrite Hd. rewrite IH by done. simpl. by rewrite <- app_assoc.
Qed.

(** ** Properties *)

(** TX: one notification hands the host exactly the packets of all pending
    chains, in order and once each (on an unbounded channel), and returns every
    chain on the used ring. *)
Theorem vsock_tx_in_order fuel d q mem hs u :
  queue_wf q -> mem_wf mem -> q_ready q = true -> layout_ok q mem -> tx_room d = None ->
  pending q mem = Some <$> hs -> used_idx q mem = Some u -> (length hs < fuel)%nat ->
  Forall (fun h => Forall (fun ds => off_used q (d_gpa ds) (d_len ds) /\ 0 <= d_len ds)
                     (descriptors (chain_of q h) mem)) hs ->
  exists d' q' mem',
    vsock_process_queue fuel d 1 q mem = Ok (d', q', mem') /\
    vs_sent d' = vs_sent d ++ omap (fun h => tx_packet mem (chain_of q h)) hs /\
    pending q' mem' = [] /\ used_idx q' mem' = Some (wrap 16 (u + zlen hs)).
Proof.
  intros Hq Hm Hr Hlay Hcon Hp Hu Hf Hbuf.
  assert (u16 u).
  { unfold used_idx in Hu. apply bind_Some in Hu as (g & _ & Hu). by eapply read_u16_range. }
  destruct (while_pop_drains process_tx_body (send_packet mem q) q mem hs Hlay) with
    (fuel := fuel) (q := q) (d := d) (mem := mem) (u := u) as (q' & m' & E & P1 & P2 & _); try done.
  { intros d1 m1 h Hm1 Hs Hh Hin. exists 0. unfold process_tx_body, send_packet.
    rewrite (tx_packet_same q mem m1); try done; [apply Hlay|]. rewrite Forall_forall in Hbuf.
    by apply Hbuf. }
  exists (foldl (send_packet mem q) d hs), q', m'. unfold vsock_process_queue. simpl. rewrite E.
  splits; try done. by apply send_packet_foldl.
Qed.

(** A chain of readable, mapped buffers that hold a header and its payload
    reaches the host as that packet; when the header claims more payload than
    the chain has, the host gets the header with no payload. *)
Theorem vsock_tx_packet_exact mem c h payload :
  mem_wf mem -> chain_wf c -> packet_wf (h, payload) ->
  Forall (fun ds => is_device_writable ds = false) (descriptors c mem) ->
  readable_bytes mem (descriptors c mem) = Some (to_bytes h ++ payload) ->
  44 + zlen payload <= MAX_TX_PACKET ->
  tx_packet mem c =
    Some (h, if hdr_len h <=? zlen payload then take (Z.to_nat (hdr_len h)) payload else []).
Proof.
  intros Hm Hc [Hh Hp] Hall Hr Hl.
  assert (Hlen : length (to_bytes h) = 44%nat) by (rewrite to_bytes_layout; by destruct h).
  pose proof (collect_packet_exact mem _ c Hm Hc Hall Hr) as E. unfold tx_packet.
  destruct (while_desc _ _ _ _ _) as [[raw m1] c1]. cbn [fst] in E.
  rewrite E by (rewrite zlen_app; unfold zlen in *; lia). unfold parse_packet.
  rewrite (proj2 (Nat.leb_le _ _)) by (rewrite length_app, Hlen; unfold VSOCK_HDR_SIZE; lia).
  simpl in Hh. rewrite hdr_roundtrip by done. cbn [mbind option_bind].
  pose proof Hh as (_ & _ & _ & _ & [Hl0 _] & _). do 2 f_equal.
  rewrite length_app, Hlen. unfold VSOCK_HDR_SIZE, zlen in *.
  destruct (Nat.leb_spec (44 + Z.to_nat (hdr_len h)) (44 + length payload)),
    (Z.leb_spec (hdr_len h) (Z.of_nat (length payload))); try lia; [|done].
  unfold slice. rewrite drop_app, Hlen, Nat.sub_diag, drop_0, drop_ge by lia. simpl. f_equal. lia.
Qed.

(** The event queue: one notification returns every posted buffer unused. *)
Theorem vsock_events_returned fuel d q mem hs u :
  queue_wf q -> mem_wf mem -> q_ready q = true -> layout_ok q mem ->
  pending q mem = Some <$> hs -> used_idx q mem = Some u -> (length hs < fuel)%nat ->
  exists q' mem', vsock_process_queue fuel d 2 q mem = Ok (d, q', mem') /\
    pending q' mem' = [] /\ used_idx q' mem' = Some (wrap 16 (u + zlen hs)).
Proof.
  intros Hq Hm Hr Hlay Hp Hu Hf.
  assert (u16 u).
  { unfold used_idx in Hu. apply bind_Some in Hu as (g & _ & Hu). by eapply read_u16_range. }
  destruct (while_pop_drains process_event_body (fun d _ => d) q mem hs Hlay) with
    (fuel := fuel) (q := q) (d := d) (mem := mem) (u := u) as (q' & m' & E & P1 & P2 & _); try done.
  { intros. by exists 0. }
  exists q', m'. unfold vsock_process_queue. simpl. rewrite E. splits; try done.
  assert (Hid : foldl (fun (d : VirtioVsockDevice) (_ : Z) => d) d hs = d) by (clear; by induction hs).
  by rewrite Hid.
Qed.

(** A guest that gives one address to both rings makes the event loop run for
    ever: every publication looks like a new available entry. *)
Theorem vsock_event_loop_diverges fuel d q mem :
  queue_wf q -> mem_wf mem -> q_ready q = true -> q_used_gpa q = q_avail_gpa q ->
  q_used_gpa q + 4 + 8 * q_size q < 2 ^ 64 ->
  (forall o n, 0 <= o -> o + Z.of_nat n <= 4 + 8 * q_size q ->
     is_ok (read_guest mem (q_used_gpa q + o) n) = true) ->
  avail_idx q mem <> Some (last_avail_idx q) ->
  vsock_process_queue fuel d 2 q mem = Err OutOfFuel.
Proof.
  intros Hq Hm Hr Hal Hend Hmap Hne. unfold vsock_process_queue. simpl.
  rewrite (while_pop_aliased process_event_body); try done. intros. by exists d0, 0.
Qed.

(** RX: polling never loses, duplicates or reorders packets; those waiting
    before are the injected ones followed by those still waiting, and the poll
    asks for an interrupt exactly when some were injected. *)
Theorem vsock_rx_fifo d q mem d' q' mem' ready :
  vsock_wf d -> queue_wf q -> mem_wf mem -> vsock_poll_rx d q mem = (d', q', mem', ready) ->
  vs_channel d' = [] /\
  exists injected, vs_pending d ++ vs_channel d = injected ++ vs_pending d' /\
    ready = negb (length injected =? 0)%nat.
Proof. intros Hd Hq Hm E. by apply vsock_poll_rx_inv in E as (_ & _ & _ & ? & ?). Qed.

(** An injected packet is written whole, header then payload, from the
    descriptor's address on, and every byte of it is counted in the used
    element; the length of the descriptor plays no part. *)
Theorem vsock_rx_written_whole mem ds h payload :
  mem_wf mem -> packet_wf (h, payload) -> payload <> [] -> d_gpa ds + 44 < 2 ^ 64 ->
  is_ok (read_guest mem (d_gpa ds) 44) = true ->
  is_ok (read_guest mem (d_gpa ds + 44) (length payload)) = true ->
  read_guest (write_packet mem ds (h, payload)) (d_gpa ds) 44 = Ok (to_bytes h) /\
  read_guest (write_packet mem ds (h, payload)) (d_gpa ds + 44) (length payload) = Ok payload /\
  (44 + zlen payload < 2 ^ 32 -> packet_total (h, payload) = 44 + zlen payload) /\
  forall len w, write_packet mem {| d_gpa := d_gpa ds; d_len := len; is_device_writable := w |}
    (h, payload) = write_packet mem ds (h, payload).
Proof.
  intros Hm [Hh Hp] Hne Hg H1 H2.
  assert (Hlen : length (to_bytes h) = 44%nat) by (rewrite to_bytes_layout; by destruct h).
  assert (Hz : zlen (to_bytes h) = 44) by (unfold zlen; by rewrite Hlen).
  unfold write_packet, packet_total. cbn [d_gpa fst snd].
  rewrite Hz, (checked_add_ok 64) by done.
  replace (negb (length payload =? 0)%nat) with true by (by destruct payload).
  set (m1 := write_guest_ignore mem (d_gpa ds) (to_bytes h)).
  assert (Hm1 : mem_wf m1) by (apply write_ignore_wf; [done|apply to_bytes_ok]).
  splits; [| | |done].
  - rewrite read_write_ignore_disjoint; [|done|done|right; lia]. rewrite <- Hlen.
    apply read_write_ignore_same; [done|apply to_bytes_ok|]. by rewrite Hlen.
  - apply read_write_ignore_same; [done|done|]. unfold m1. by rewrite read_write_ignore_mapped.
  - intros Hs. by rewrite (proj2 (Z.ltb_lt _ _)) by done.
Qed.

End VsockLemmas.

#[export] Instance vsock_backend_laws `{GuestMemLaws M} : VirtioBackendLaws VirtioVsockDevice M.
Proof.
  unshelve refine {| backend_wf := vsock_wf |}; try done.
  - intros fuel d i q m d' q' m' Hd Hq Hm E.
    exact (vsock_process_queue_inv _ _ _ _ _ _ _ _ Hd Hq Hm E).
  - intros d q m d' q' m' b Hd Hq Hm E. apply vsock_poll_rx_inv in E; tauto.
Defined.

(** Headers survive the wire: parsing what [to_bytes] writes gives the header
    back, whatever follows; writing what [from_bytes] parsed gives the first 44
    bytes back; shorter inputs are refused; operations survive as numbers. *)
Theorem vsock_hdr_roundtrip :
  (forall h rest, hdr_wf h -> from_bytes (to_bytes h ++ rest) = Some h) /\
  (forall l h, bytes_ok l -> from_bytes l = Some h -> to_bytes h = take VSOCK_HDR_SIZE l /\ hdr_wf h) /\
  (forall l, from_bytes l = None <-> (length l < VSOCK_HDR_SIZE)%nat) /\
  (forall op, op_from_u16 (op_as_u16 op) = Some op) /\
  (forall v op, op_from_u16 v = Some op -> op_as_u16 op = v).
Proof.
  splits; [exact hdr_roundtrip|exact from_bytes_spec| |by intros []|].
  - intros l. unfold from_bytes. case_on; b2p; split; done || lia.
  - intros v op. unfold op_from_u16. repeat case_on; b2p; intros [= <-]; done.
Qed.

(** ** Examples and witnesses *)

Definition demo_hdr (len : Z) : VsockHdr :=
  {| src_cid := 3; dst_cid := 2; src_port := 1024; dst_port := 80; hdr_len := len; hdr_type := 1;
     hdr_op := 5; hdr_flags := 0; buf_alloc := 262144; fwd_cnt := 0 |}.

(** The layout of [demo_ring_memory], with one descriptor at 5 for the given
    buffer; [data] is at 0x900. *)
Definition demo_vsock_memory (len flags : Z) (data : list Z) : GuestMemory :=
  let w m a d := write_guest_ignore m a d in
  let m := ram_at 0 4096 in
  let m := w m 0x402 (le_bytes 2 1 ++ le_bytes 2 5) in
  let m := w m (5 * 16) (le_bytes 8 0x900 ++ le_bytes 4 len ++ le_bytes 2 flags ++ le_bytes 2 0) in
  w m 0x900 data.

Lemma demo_vsock_memory_wf len flags data : bytes_ok data -> mem_wf (demo_vsock_memory len flags data).
Proof.
  intros Hd. unfold demo_vsock_memory. repeat apply write_ignore_wf; try done.
  - apply ram_at_wf; [lia..|reflexivity].
  - apply Forall_app_2; apply le_bytes_ok.
  - repeat apply Forall_app_2; apply le_bytes_ok.
Qed.

Definition demo_vsock : VirtioVsockDevice := vsock_new 3.

(** A packet of 46 bytes is written over a receive buffer of four: the guest's
    memory past its descriptor is overwritten, and 46 bytes are reported. *)
Theorem vsock_rx_overruns_descriptor :
  let mem := demo_vsock_memory 4 VIRTQ_DESC_F_WRITE [] in
  let d := set_vs_rx demo_vsock [(demo_hdr 2, [7; 8])] [] in
  let mem' := (vsock_poll_rx d demo_queue mem).1.2 in
  d_len <$> descriptors (chain_of demo_queue 5) mem = [4] /\
  res_ok (read_guest mem (0x900 + 44) 2) = Some [0; 0] /\
  res_ok (read_guest mem' (0x900 + 44) 2) = Some [7; 8] /\
  res_ok (read_guest mem' (used_elem demo_queue 0 + 4) 4) = Some (le_bytes 4 46).
Proof. vm_compute. done. Qed.

Definition demo_packet_bytes : list Z := to_bytes (demo_hdr 2) ++ [7; 8].
Definition demo_tx_memory : GuestMemory := demo_vsock_memory 46 0 demo_packet_bytes.

Lemma demo_tx_memory_wf : mem_wf demo_tx_memory.
Proof. apply demo_vsock_memory_wf. decided. Qed.

Lemma vsock_tx_in_order_witness :
  exists d' q' mem', vsock_process_queue 2 demo_vsock 1 demo_queue demo_tx_memory = Ok (d', q', mem') /\
    vs_sent d' = [(demo_hdr 2, [7; 8])].
Proof.
  destruct (vsock_tx_in_order 2 demo_vsock demo_queue demo_tx_memory [5] 0 demo_queue_wf
    demo_tx_memory_wf eq_refl) as (d' & q' & m' & E & E1 & _ & _).
  - split; [right; vm_compute; intros F; discriminate F|].
    split; [right; vm_compute; intros F; discriminate F|].
    split; [reflexivity|]. exists 0. vm_compute. reflexivity.
  - reflexivity.
  - vm_compute. reflexivity.
  - vm_compute. reflexivity.
  - simpl. lia.
  - apply (bool_decide_unpack _). vm_compute. exact I.
  - exists d', q', m'. split; [exact E|]. rewrite E1. vm_compute. reflexivity.
Defined.

Lemma vsock_tx_packet_exact_witness :
  tx_packet demo_tx_memory (chain_of demo_queue 5) = Some (demo_hdr 2, [7; 8]).
Proof.
  apply (vsock_tx_packet_exact demo_tx_memory (chain_of demo_queue 5) (demo_hdr 2) [7; 8]).
  - apply demo_tx_memory_wf.
  - apply chain_of_wf; [apply demo_queue_wf|decided].
  - decided.
  - apply (bool_decide_unpack _). vm_compute. exact I.
  - vm_compute. reflexivity.
  - unfold zlen, MAX_TX_PACKET. simpl. lia.
Defined.

Lemma vsock_events_returned_witness :
  exists q' mem', vsock_process_queue 3 demo_vsock 2 demo_queue demo_ring_memory = Ok (demo_vsock, q', mem') /\
    pending q' mem' = [].
Proof.
  destruct (vsock_events_returned 3 demo_vsock demo_queue demo_ring_memory [5; 7] 0 demo_queue_wf
    demo_ring_memory_wf eq_refl) as (q' & m' & E & E1 & _).
  - split; [right; vm_compute; intros F; discriminate F|].
    split; [right; vm_compute; intros F; discriminate F|].
    split; [reflexivity|]. exists 0. vm_compute. reflexivity.
  - vm_compute. reflexivity.
  - vm_compute. reflexivity.
  - simpl. lia.
  - exists q', m'. split; [exact E|exact E1].
Defined.

(** A queue whose rings share 0x400. *)
Definition aliased_queue : VirtQueue := set_ready (configure (queue_new 8) 0 0x400 0x400) true.

Lemma demo_ring_readable o n :
  0 <= o -> o + Z.of_nat n <= 68 -> is_ok (read_guest demo_ring_memory (0x400 + o) n) = true.
Proof.
  intros Ho Hn. assert (E : exists r, regions demo_ring_memory = [r] /\ gpa_start r = 0 /\
    region_size r = 4096) by (eexists; vm_compute; done).
  destruct E as (r & E & E1 & E2).
  apply (in_region_readable demo_ring_memory r); [apply demo_ring_memory_wf| |lia|lia].
  rewrite E. apply list_elem_of_here.
Qed.

Lemma vsock_event_loop_diverges_witness :
  vsock_process_queue 1000 demo_vsock 2 aliased_queue demo_ring_memory = Err OutOfFuel.
Proof.
  apply (vsock_event_loop_diverges 1000 demo_vsock aliased_queue demo_ring_memory).
  - decided.
  - apply demo_ring_memory_wf.
  - reflexivity.
  - reflexivity.
  - reflexivity.
  - intros o n Ho Hn. apply demo_ring_readable; [exact Ho|exact Hn].
  - vm_compute. discriminate.
Defined.

Definition demo_rx_vsock : VirtioVsockDevice := set_vs_rx demo_vsock [(demo_hdr 2, [7; 8])] [].
Definition demo_rx_memory : GuestMemory := demo_vsock_memory 64 VIRTQ_DESC_F_WRITE [].

Lemma demo_rx_memory_wf : mem_wf demo_rx_memory.
Proof. apply demo_vsock_memory_wf. constructor. Qed.

Lemma vsock_rx_fifo_witness :
  match vsock_poll_rx demo_rx_vsock demo_queue demo_rx_memory with
  | (d', _, _, ready) => ready = true /\ vs_channel d' = []
  end.
Proof.
  assert (W : vsock_wf demo_rx_vsock) by (split; [|constructor]; constructor; [decided|constructor]).
  assert (R : (vsock_poll_rx demo_rx_vsock demo_queue demo_rx_memory).2 = true)
    by (vm_compute; reflexivity).
  destruct (vsock_poll_rx demo_rx_vsock demo_queue demo_rx_memory) as [[[d' q'] m'] b] eqn:E.
  split; [exact R|].
  exact (proj1 (vsock_rx_fifo demo_rx_vsock demo_queue demo_rx_memory d' q' m' b W demo_queue_wf
    demo_rx_memory_wf E)).
Defined.

Lemma vsock_rx_written_whole_witness :
  res_ok (read_guest (write_packet demo_rx_memory (Build_Descriptor 0x900 64 true) (demo_hdr 2, [7; 8]))
    0x92C 2) = Some [7; 8].
Proof.
  destruct (vsock_rx_written_whole demo_rx_memory (Build_Descriptor 0x900 64 true) (demo_hdr 2) [7; 8]
    demo_rx_memory_wf ltac:(decided) ltac:(discriminate) ltac:(reflexivity)
    ltac:(vm_compute; reflexivity) ltac:(vm_compute; reflexivity)) as (_ & E & _).
  change 0x92C with (d_gpa (Build_Descriptor 0x900 64 true) + 44). change 2%nat with (length [7; 8]).
  rewrite E. reflexivity.
Defined.
