(* ===== verification/GuestProc.v ===== *)
(** * The guest agent's measurements

    [hitz-guest-agent]: the parsers of [/proc] ([proc.rs], and [parse_load_avg]
    and [parse_proc_pid_stat] of [main.rs]), the CPU utilisation between two
    samples, the busiest processes and the snapshot put together from them
    ([collect_snapshot], [collect_top_procs]).  The contents of the files and of
    the directory are arguments, an unreadable file being empty text; the records
    are those of [hitz-api/src/metrics.rs].  The specification is what a guest has to
    measure and how proc(5) writes it, in columns with any number of blanks. *)

From Stdlib Require Import String Ascii Floats.SpecFloat.
From stdpp Require Import list.
From S2P Require Import Prelude Hal Float Text.

(** ** Measurements *)

Record CpuMetrics := { total_pct : spec_float; per_core : list spec_float; load_avg : list spec_float }.
Record MemoryMetrics := {
  total_bytes : Z; used_bytes : Z; free_bytes : Z; buffers_bytes : Z; cached_bytes : Z; swap_total : Z; swap_used : Z;
}.
Record DiskMetrics := { disk_name : text; read_bytes : Z; write_bytes : Z; reads_total : Z; writes_total : Z }.
Record NetMetrics := {
  interface : text; rx_bytes : Z; tx_bytes : Z; rx_packets : Z; tx_packets : Z; rx_errors : Z; tx_errors : Z;
}.
Record ProcMetrics := { pid : Z; proc_name : text; proc_cpu_pct : spec_float; rss_bytes : Z; proc_state : Z }.
Record MetricsSnapshot := {
  timestamp_ms : Z; cpu : CpuMetrics; memory : MemoryMetrics;
  disks : list DiskMetrics; networks : list NetMetrics; processes : list ProcMetrics;
}.

(** ** CPU time *)

Record CpuSample := { user : Z; nice : Z; system : Z; idle : Z; iowait : Z; irq : Z; softirq : Z }.

Definition sat (a b : Z) : Z := saturating_add 64 a b.

Definition active (s : CpuSample) : Z := sat (sat (sat (sat (user s) (nice s)) (system s)) (irq s)) (softirq s).
Definition total (s : CpuSample) : Z := sat (sat (active s) (idle s)) (iowait s).

Definition HUNDRED (t : FloatType) : spec_float := float_of_int t 100.

Definition cpu_pct (prev curr : CpuSample) : spec_float :=
  let total_delta := saturating_sub (total curr) (total prev) in
  if total_delta =? 0 then S754_zero false
  else
    let active_delta := saturating_sub (active curr) (active prev) in
    fmul F32 (fdiv F32 (float_of_int F32 active_delta) (float_of_int F32 total_delta)) (HUNDRED F32).

Definition num_at (nums : list Z) (i : nat) : Z := default 0 (nums !! i).

Definition parse_cpu_line (line : text) : CpuSample :=
  let nums := (fun s => default 0 (parse_uint 64 s)) <$> drop 1 (words line) in
  {| user := num_at nums 0; nice := num_at nums 1; system := num_at nums 2; idle := num_at nums 3;
     iowait := num_at nums 4; irq := num_at nums 5; softirq := num_at nums 6 |}.

Definition parse_proc_stat_sample (content : text) : list CpuSample :=
  parse_cpu_line <$> List.filter (starts_with (str "cpu")) (lines content).

(** ** Memory *)

Record MemAcc := { m_total : Z; m_free : Z; m_buffers : Z; m_cached : Z; m_swap_total : Z; m_swap_free : Z }.

Definition mem_set (acc : MemAcc) (key : text) (val : Z) : MemAcc :=
  let 'Build_MemAcc t f b c st sf := acc in
  if bool_decide (key = str "MemTotal:") then Build_MemAcc val f b c st sf
  else if bool_decide (key = str "MemFree:") then Build_MemAcc t val b c st sf
  else if bool_decide (key = str "Buffers:") then Build_MemAcc t f val c st sf
  else if bool_decide (key = str "Cached:") then Build_MemAcc t f b val st sf
  else if bool_decide (key = str "SwapTotal:") then Build_MemAcc t f b c val sf
  else if bool_decide (key = str "SwapFree:") then Build_MemAcc t f b c st val
  else acc.

(** One turn of the loop; [continue] leaves the counters. *)
Definition mem_line (acc : MemAcc) (line : text) : MemAcc :=
  match words line with
  | key :: val_str :: _ =>
      match parse_uint 64 val_str with
      | Some val => mem_set acc key (saturating_mul 64 val 1024)
      | None => acc
      end
  | _ => acc
  end.

Definition mem_init : MemAcc := Build_MemAcc 0 0 0 0 0 0.

Definition mem_metrics (a : MemAcc) : option MemoryMetrics :=
  if m_total a =? 0 then None
  else Some {| total_bytes := m_total a;
               used_bytes := saturating_sub (m_total a) (sat (sat (m_free a) (m_buffers a)) (m_cached a));
               free_bytes := m_free a; buffers_bytes := m_buffers a; cached_bytes := m_cached a;
               swap_total := m_swap_total a; swap_used := saturating_sub (m_swap_total a) (m_swap_free a) |}.

Definition parse_proc_meminfo (content : text) : option MemoryMetrics :=
  mem_metrics (foldl mem_line mem_init (lines content)).

(** ** Disks and networks *)

Definition parse_disk_line (line : text) : option DiskMetrics :=
  let cols := words line in
  name ← cols !! 2%nat;
  reads ← cols !! 3%nat ≫= parse_uint 64;
  _ ← cols !! 4%nat;
  read_sec ← cols !! 5%nat ≫= parse_uint 64;
  _ ← cols !! 6%nat;
  writes ← cols !! 7%nat ≫= parse_uint 64;
  _ ← cols !! 8%nat;
  write_sec ← cols !! 9%nat ≫= parse_uint 64;
  Some {| disk_name := name; reads_total := reads; writes_total := writes;
          read_bytes := saturating_mul 64 read_sec 512; write_bytes := saturating_mul 64 write_sec 512 |}.

Definition parse_proc_diskstats (content : text) : list DiskMetrics := omap parse_disk_line (lines content).

(** [nth(5)] after three columns is the ninth. *)
Definition parse_net_line (line : text) : option NetMetrics :=
  '(iface, stats) ← split_once 58 line;
  let iface := trim iface in
  if bool_decide (iface = str "lo") then None
  else
    let cols := (fun s => default 0 (parse_uint 64 s)) <$> words stats in
    Some {| interface := iface; rx_bytes := num_at cols 0; rx_packets := num_at cols 1; rx_errors := num_at cols 2;
            tx_bytes := num_at cols 8; tx_packets := num_at cols 9; tx_errors := num_at cols 10 |}.

Definition parse_proc_net_dev (content : text) : list NetMetrics := omap parse_net_line (drop 2 (lines content)).

(** ** Load and uptime *)

Definition float_at (t : FloatType) (ws : list text) (i : nat) : spec_float :=
  default (S754_zero false) (ws !! i ≫= parse_float t).

Definition parse_load_avg (content : text) : list spec_float :=
  float_at F32 (words content) <$> [0; 1; 2]%nat.

(** [read_uptime_secs]: [None] when the file cannot be read. *)
Definition read_uptime_secs (uptime : option text) : spec_float :=
  default (float_of_int F64 1) (uptime ≫= fun s => words s !! 0%nat ≫= parse_float F64).

(** ** Processes *)

Section Processes.
Variable overflow_checks : bool.
Variable uptime : option text.

Definition add_u64 (a b : Z) : result Stop Z := ok_or (op_add overflow_checks 64 a b) Panic.
Definition mul_u64 (a b : Z) : result Stop Z := ok_or (op_mul overflow_checks 64 a b) Panic.

Definition uptime_ticks : Z := float_to_u64 (fmul F64 (read_uptime_secs uptime) (HUNDRED F64)).

Definition lifetime_pct (ticks : Z) : spec_float :=
  float_cast F32 (clamp_float (fmul F64 (fdiv F64 (float_of_int F64 ticks) (float_of_int F64 uptime_ticks)) (HUNDRED F64))
                    (S754_zero false) (HUNDRED F64)).

(** The name between the first opening and the last closing bracket, and what
    follows the character after it, which has to be of one byte. *)
Definition split_comm (content : text) : option (text * text) :=
  open ← find_char 40 content;
  close ← rfind_char 41 content;
  if (open + 1 <=? close)%nat then
    match drop (S close) content with
    | c :: rest => if c <? 128 then Some (slice (open + 1) close content, rest) else None
    | [] => None
    end
  else None.

(** The fields the metrics need: state, user and system time, resident pages. *)
Definition stat_fields (rest : text) : option (Z * Z * Z * Z) :=
  let fields := words rest in
  state ← fields !! 0%nat;
  utime ← fields !! 11%nat ≫= parse_uint 64;
  stime ← fields !! 12%nat ≫= parse_uint 64;
  rss ← fields !! 21%nat ≫= parse_uint 64;
  Some (default 63 (state !! 0%nat), utime, stime, rss).

Definition parse_proc_pid_stat (p : Z) (content : text) : result Stop (option ProcMetrics) :=
  match split_comm content ≫= fun '(name, rest) => f ← stat_fields rest; Some (name, f) with
  | None => Ok None
  | Some (name, (state, utime, stime, rss_pages)) =>
      pct ← (if uptime_ticks =? 0 then Ok (S754_zero false)
             else ticks ← add_u64 utime stime; Ok (lifetime_pct ticks));
      rss ← mul_u64 rss_pages 4096;
      Ok (Some {| pid := p; proc_name := name; proc_cpu_pct := pct; rss_bytes := rss; proc_state := state |})
  end.

End Processes.

(** An entry of [/proc]: its name, where that is a string, what its [stat] file
    reads, if it can be read, and what [/proc/uptime] reads by then. *)
Record DirEntry := { en_name : option text; en_stat : option text; en_uptime : option text }.

Definition parse_entry (overflow_checks : bool) (e : DirEntry) : result Stop (option ProcMetrics) :=
  match en_name e ≫= parse_uint 32, en_stat e with
  | Some p, Some content => parse_proc_pid_stat overflow_checks (en_uptime e) p content
  | _, _ => Ok None
  end.

Fixpoint parse_entries (overflow_checks : bool) (entries : list DirEntry) : result Stop (list ProcMetrics) :=
  match entries with
  | [] => Ok []
  | e :: es =>
      m ← parse_entry overflow_checks e;
      ms ← parse_entries overflow_checks es;
      Ok (match m with Some p => p :: ms | None => ms end)
  end.

(** [b.partial_cmp(&a).unwrap_or(Equal)], and the stable sort by it. *)
Definition cpu_order (a b : ProcMetrics) : comparison :=
  default Eq (SFcompare (proc_cpu_pct b) (proc_cpu_pct a)).

Fixpoint insert_proc (x : ProcMetrics) (l : list ProcMetrics) : list ProcMetrics :=
  match l with
  | [] => [x]
  | y :: l' => match cpu_order x y with Gt => y :: insert_proc x l' | _ => x :: l end
  end.
Definition sort_procs (l : list ProcMetrics) : list ProcMetrics := foldr insert_proc [] l.

Definition collect_top_procs (overflow_checks : bool) (n : nat) (entries : list DirEntry) : result Stop (list ProcMetrics) :=
  procs ← parse_entries overflow_checks entries; Ok (take n (sort_procs procs)).

(** ** The snapshot *)

(** What the agent reads: [/proc/stat] twice, 100 ms apart, the other files, the
    directory, and the clock. *)
Record ProcFs := {
  stat_1 : text; stat_2 : text; loadavg : text; meminfo : text; diskstats : text; net_dev : text;
  proc_dir : list DirEntry; clock_ms : Z;
}.

Definition TOP_N_PROCS : nat := 10.

Definition no_memory : MemoryMetrics :=
  {| total_bytes := 0; used_bytes := 0; free_bytes := 0; buffers_bytes := 0; cached_bytes := 0; swap_total := 0; swap_used := 0 |}.

Definition collect_snapshot (overflow_checks : bool) (fs : ProcFs) : result Stop MetricsSnapshot :=
  let sample1 := parse_proc_stat_sample (stat_1 fs) in
  let sample2 := parse_proc_stat_sample (stat_2 fs) in
  let total := match sample1, sample2 with a :: _, b :: _ => cpu_pct a b | _, _ => S754_zero false end in
  processes ← collect_top_procs overflow_checks TOP_N_PROCS (proc_dir fs);
  Ok {| timestamp_ms := clock_ms fs;
        cpu := {| total_pct := total; per_core := zip_with cpu_pct (drop 1 sample1) (drop 1 sample2);
                  load_avg := parse_load_avg (loadavg fs) |};
        memory := default no_memory (parse_proc_meminfo (meminfo fs));
        disks := parse_proc_diskstats (diskstats fs);
        networks := parse_proc_net_dev (net_dev fs);
        processes := processes |}.

(** ** Specification: the formats of proc(5)

    The kernel pads its columns with blanks; how many there are is for every line its
    own. *)

Definition sample_values (s : CpuSample) : list Z :=
  [user s; nice s; system s; idle s; iowait s; irq s; softirq s].
Definition sample_sum (s : CpuSample) : Z := user s + nice s + system s + idle s + iowait s + irq s + softirq s.

(** A CPU line: its name and the counters, the first seven and what else there is. *)
Record CpuLine := { cl_suffix : text; cl_gaps : nat -> nat; cl_sample : CpuSample; cl_more : list Z }.
Definition cl_text (c : CpuLine) : text :=
  columns (cl_gaps c) ((str "cpu" ++ cl_suffix c) :: (digits <$> (sample_values (cl_sample c) ++ cl_more c))).

(** Its counters are of 64 bits, and their sum is. *)
Definition cpu_line_ok (c : CpuLine) : Prop :=
  no_ws (cl_suffix c) /\ u64s (sample_values (cl_sample c) ++ cl_more c) /\ sample_sum (cl_sample c) < 2 ^ 64.

Lemma cpu_words c : cpu_line_ok c -> Forall word_ok ((str "cpu" ++ cl_suffix c) :: (digits <$> (sample_values (cl_sample c) ++ cl_more c))).
Proof.
  intros (Hs & Hn & _). constructor; [|by apply numbers_words]. split; [done|]. apply Forall_app. split; [by repeat constructor|done].
Qed.

Lemma parse_cpu_line_text c : cpu_line_ok c -> parse_cpu_line (cl_text c) = cl_sample c.
Proof.
  intros H. unfold parse_cpu_line, cl_text. rewrite words_columns by by apply cpu_words. destruct H as (_ & Hn & _).
  change (drop 1 (?x :: ?l)) with l. rewrite numbers_parsed by done. by destruct (cl_sample c).
Qed.

Lemma starts_with_app p w s : starts_with p (p ++ w ++ s) = true.
Proof. induction p as [|c p IH]; [by destruct (w ++ s)|]. simpl. by rewrite Z.eqb_refl. Qed.

Lemma cl_text_line c : cpu_line_ok c -> line_ok (cl_text c) /\ starts_with (str "cpu") (cl_text c) = true.
Proof.
  intros H. split; [apply plain_line_ok, plain_columns, cpu_words, H|]. unfold cl_text. cbn [columns]. rewrite <- (assoc_L (++)).
  apply starts_with_app.
Qed.

(** A memory line: a key, the value in KiB and, but for counts of pages, the unit. *)
Record MemLine := { ml_key : text; ml_gaps : nat -> nat; ml_kib : Z; ml_unit : list text }.
Definition ml_words (l : MemLine) : list text := ml_key l :: digits (ml_kib l) :: ml_unit l.
Definition ml_text (l : MemLine) : text := columns (ml_gaps l) (ml_words l).
Definition mem_line_ok (l : MemLine) : Prop :=
  word_ok (ml_key l) /\ 0 <= ml_kib l < 2 ^ 64 /\ (ml_unit l = [str "kB"] \/ ml_unit l = []).

(** The bytes a key stands for: those of its last line, as many as 64 bits hold, or
    none. *)
Definition mem_bytes (ls : list MemLine) (key : string) : Z :=
  match last (filter (fun l => ml_key l = str key) ls) with Some l => Z.min (2 ^ 64 - 1) (ml_kib l * 1024) | None => 0 end.

(** What memory there is and how it is used, nothing where no total is given. *)
Definition memory_of (ls : list MemLine) : MemoryMetrics :=
  if mem_bytes ls "MemTotal:" =? 0 then no_memory
  else {| total_bytes := mem_bytes ls "MemTotal:"; free_bytes := mem_bytes ls "MemFree:"; buffers_bytes := mem_bytes ls "Buffers:"; cached_bytes := mem_bytes ls "Cached:";
          used_bytes := Z.max 0 (mem_bytes ls "MemTotal:" - (mem_bytes ls "MemFree:" + mem_bytes ls "Buffers:" + mem_bytes ls "Cached:"));
          swap_total := mem_bytes ls "SwapTotal:"; swap_used := Z.max 0 (mem_bytes ls "SwapTotal:" - mem_bytes ls "SwapFree:") |}.

(** A line of a disk: two numbers, the name, and the counters. *)
Record DiskLine := { dl_lead : nat; dl_gaps : nat -> nat; dl_major : Z; dl_minor : Z; dl_name : text; dl_counters : list Z }.
Definition dl_words (l : DiskLine) : list text := digits (dl_major l) :: digits (dl_minor l) :: dl_name l :: (digits <$> dl_counters l).
Definition dl_text (l : DiskLine) : text := blanks (dl_lead l) ++ columns (dl_gaps l) (dl_words l).
Definition disk_line_ok (l : DiskLine) : Prop :=
  u64s (dl_major l :: dl_minor l :: dl_counters l) /\ word_ok (dl_name l) /\ (7 <= length (dl_counters l))%nat.

Definition disk_of (l : DiskLine) : DiskMetrics :=
  let n := num_at (dl_counters l) in
  {| disk_name := dl_name l; reads_total := n 0%nat; writes_total := n 4%nat;
     read_bytes := Z.min (2 ^ 64 - 1) (n 2%nat * 512); write_bytes := Z.min (2 ^ 64 - 1) (n 6%nat * 512) |}.

(** A line of an interface: its name, a colon, and the counters, the first of which
    may follow at once. *)
Record NetLine := { nl_lead : nat; nl_name : text; nl_gap : nat; nl_gaps : nat -> nat; nl_counters : list Z }.
Definition nl_text (l : NetLine) : text :=
  blanks (nl_lead l) ++ nl_name l ++ 58 :: blanks (nl_gap l) ++ columns (nl_gaps l) (digits <$> nl_counters l).
Definition net_line_ok (l : NetLine) : Prop := no_uws (nl_name l) /\ 58 ∉ nl_name l /\ u64s (nl_counters l).

Definition net_of (l : NetLine) : NetMetrics :=
  let n := num_at (nl_counters l) in
  {| interface := nl_name l; rx_bytes := n 0%nat; rx_packets := n 1%nat; rx_errors := n 2%nat;
     tx_bytes := n 8%nat; tx_packets := n 9%nat; tx_errors := n 10%nat |}.

(** ** Lemmas *)

Lemma mem_words l : mem_line_ok l -> Forall word_ok (ml_words l).
Proof.
  intros (Hk & Hv & Hu). constructor; [done|]. constructor; [apply digits_word; lia|]. destruct Hu as [-> | ->]; repeat constructor.
Qed.

Lemma mem_line_text acc l : mem_line_ok l ->
  mem_line acc (ml_text l) = mem_set acc (ml_key l) (Z.min (2 ^ 64 - 1) (ml_kib l * 1024)).
Proof.
  intros H. unfold mem_line, ml_text. rewrite words_columns by by apply mem_words. destruct H as (_ & Hv & _). cbn [ml_words].
  rewrite parse_uint_digits by done. f_equal. unfold saturating_mul. lia.
Qed.

Lemma ml_text_line l : mem_line_ok l -> line_ok (ml_text l).
Proof. intros H. by apply plain_line_ok, plain_columns, mem_words. Qed.

Definition mem_acc (ls : list MemLine) : MemAcc :=
  {| m_total := mem_bytes ls "MemTotal:"; m_free := mem_bytes ls "MemFree:"; m_buffers := mem_bytes ls "Buffers:";
     m_cached := mem_bytes ls "Cached:"; m_swap_total := mem_bytes ls "SwapTotal:"; m_swap_free := mem_bytes ls "SwapFree:" |}.

Lemma mem_bytes_snoc ls l key :
  mem_bytes (ls ++ [l]) key = if bool_decide (ml_key l = str key) then Z.min (2 ^ 64 - 1) (ml_kib l * 1024) else mem_bytes ls key.
Proof.
  unfold mem_bytes. rewrite filter_app. case_bool_decide as E.
  - rewrite filter_cons_True, filter_nil by done. by rewrite last_snoc.
  - by rewrite filter_cons_False, filter_nil, app_nil_r.
Qed.

Lemma mem_fold ls : Forall mem_line_ok ls -> foldl mem_line mem_init (ml_text <$> ls) = mem_acc ls.
Proof.
  induction ls as [|l ls IH] using rev_ind; intros H; [done|].
  apply Forall_app in H as [H1 H2]. apply Forall_cons in H2 as [H2 _].
  rewrite fmap_app, foldl_app, IH by done. cbn [fmap list_fmap foldl]. rewrite mem_line_text by done.
  unfold mem_acc. rewrite !mem_bytes_snoc. unfold mem_set.
  repeat (case_bool_decide as E; [rewrite ?E; done|clear E]). done.
Qed.

Lemma mem_bytes_range ls key : Forall mem_line_ok ls -> 0 <= mem_bytes ls key < 2 ^ 64.
Proof.
  intros H. unfold mem_bytes. destruct (last _) as [l|] eqn:E; [|done]. apply last_Some_elem_of, list_elem_of_filter in E as [_ E].
  rewrite Forall_forall in H. destruct (H _ E) as (_ & ? & _). lia.
Qed.

(** Saturated sums do not show. *)
Lemma memory_exact ls : Forall mem_line_ok ls -> default no_memory (mem_metrics (mem_acc ls)) = memory_of ls.
Proof.
  intros H. unfold mem_metrics, memory_of, mem_acc. cbn [m_total m_free m_buffers m_cached m_swap_total m_swap_free].
  destruct (mem_bytes ls "MemTotal:" =? 0); [done|]. cbn [default id]. unfold saturating_sub, sat, saturating_add.
  pose proof (mem_bytes_range ls "MemTotal:" H). pose proof (mem_bytes_range ls "MemFree:" H).
  pose proof (mem_bytes_range ls "Buffers:" H). pose proof (mem_bytes_range ls "Cached:" H). f_equal. lia.
Qed.

Lemma disk_words l : disk_line_ok l -> Forall word_ok (dl_words l).
Proof.
  intros (Hn & Hw & Hl). apply Forall_cons in Hn as [Hmaj Hn]. apply Forall_cons in Hn as [Hmin Hn]. unfold dl_words.
  rewrite !Forall_cons. split_and!; [apply digits_word; lia|apply digits_word; lia|done|by apply numbers_words].
Qed.

Lemma disk_line_text l : disk_line_ok l -> parse_disk_line (dl_text l) = Some (disk_of l).
Proof.
  intros H. pose proof (disk_words l H) as Hws. destruct H as (Hn & Hw & Hl).
  unfold parse_disk_line, dl_text. rewrite words_all_ws, words_columns by (done || apply blanks_ws). unfold disk_of, num_at, dl_words.
  destruct (dl_counters l) as [|n0 [|n1 [|n2 [|n3 [|n4 [|n5 [|n6 ns]]]]]]]; simpl in Hl; try lia.
  unfold u64s in Hn. rewrite !Forall_cons in Hn. simpl. rewrite !parse_uint_digits by apply Hn. cbn [mbind option_bind].
  unfold saturating_mul. do 2 f_equal; lia.
Qed.

Lemma dl_text_line l : disk_line_ok l -> line_ok (dl_text l).
Proof.
  intros H. apply plain_line_ok, plain_app. split; [apply blanks_plain|]. by apply plain_columns, disk_words.
Qed.

Lemma net_line_text l : net_line_ok l ->
  parse_net_line (nl_text l) = if bool_decide (nl_name l = str "lo") then None else Some (net_of l).
Proof.
  intros (Hu & H58 & Hn). unfold parse_net_line, nl_text.
  assert (58 ∉ blanks (nl_lead l)) by by apply blanks_no.
  rewrite (assoc_L (++)), split_once_app by set_solver. simpl.
  rewrite trim_word; [|by apply Forall_replicate|done].
  rewrite words_all_ws, words_columns, numbers_parsed by (done || apply blanks_ws || by apply numbers_words). done.
Qed.

Lemma nl_text_line l : net_line_ok l -> line_ok (nl_text l).
Proof.
  intros (Hu & H58 & Hn). apply plain_line_ok. unfold nl_text. rewrite !plain_app, plain_cons, plain_app.
  split_and!; try done; [apply blanks_plain| |apply blanks_plain|by apply plain_columns, numbers_words].
  eapply Forall_impl; [exact Hu|]. intros c Hc. by split; intros ->.
Qed.

Lemma lines_of {A} (f : A -> text) (P : A -> Prop) (l : list A) rest :
  (forall x, P x -> line_ok (f x)) -> Forall P l -> Forall line_ok rest ->
  lines (unlines ((f <$> l) ++ rest)) = (f <$> l) ++ rest.
Proof.
  intros Hf Hl Hr. apply lines_unlines, Forall_app. split; [|done].
  apply Forall_fmap. eapply Forall_impl; [exact Hl|]. intros x Hx. by apply Hf.
Qed.

Lemma omap_some {A B C} (f : B -> option C) (h : A -> B) (g : A -> C) (l : list A) :
  Forall (fun x => f (h x) = Some (g x)) l -> omap f (h <$> l) = g <$> l.
Proof. induction 1 as [|x l Hx _ IH]; [done|]. csimpl. by rewrite Hx, IH. Qed.

(** *** A process's line *)

Definition stat_text (p : Z) (name : text) (fields : list text) : text :=
  digits p ++ str " (" ++ name ++ str ") " ++ unwords fields ++ [NL].

Lemma digits_no c n : 0 <= n -> is_digit c = false -> c ∉ digits n.
Proof.
  intros Hn Hc Hin. pose proof (digits_fuel_digits (S (Z.to_nat (Z.log2 n))) n Hn) as F. fold (digits n) in F.
  rewrite Forall_forall in F. rewrite (F _ Hin) in Hc. done.
Qed.

Lemma unwords_no c fields : c <> SP -> Forall (fun w => c ∉ w) fields -> c ∉ unwords fields.
Proof.
  intros Hc. induction 1 as [|w l Hw Hl IH]; [by apply not_elem_of_nil|]. rewrite unwords_cons.
  destruct l; [done|]. rewrite not_elem_of_app, not_elem_of_cons. done.
Qed.

(** The name is taken whole, whatever brackets and blanks it has. *)
Lemma split_comm_text p name fields : 0 <= p -> Forall (fun w => 41 ∉ w) fields ->
  split_comm (stat_text p name fields) = Some (name, unwords fields ++ [NL]).
Proof.
  intros Hp Hf. set (rest := unwords fields ++ [NL]).
  assert (41 ∉ SP :: rest) as Hr.
  { subst rest. rewrite not_elem_of_cons, not_elem_of_app, list_elem_of_singleton.
    split_and!; [done|by apply unwords_no|done]. }
  set (pre := digits p ++ [SP]).
  assert (stat_text p name fields = pre ++ 40 :: name ++ 41 :: SP :: rest) as ->.
  { unfold stat_text, pre. rewrite <- (assoc_L (++)). done. }
  assert (40 ∉ pre) as Hpre.
  { subst pre. rewrite not_elem_of_app, list_elem_of_singleton. split; [by apply digits_no|done]. }
  unfold split_comm. rewrite find_char_app by done. cbn [mbind option_bind].
  replace (pre ++ 40 :: name ++ 41 :: SP :: rest) with ((pre ++ 40 :: name) ++ 41 :: SP :: rest)
    by (by rewrite <- (assoc_L (++))).
  rewrite rfind_char_app by done. cbn [mbind option_bind].
  rewrite length_app. simpl length. rewrite (proj2 (Nat.leb_le _ _)) by lia.
  rewrite drop_app_ge by (rewrite length_app; simpl; lia). rewrite length_app. simpl length.
  replace (S (length pre + S (length name)) - (length pre + S (length name)))%nat with 1%nat by lia. simpl.
  do 2 f_equal. unfold slice. rewrite <- (assoc_L (++)), drop_app_ge by lia.
  replace (length pre + 1 - length pre)%nat with 1%nat by lia.
  replace (length pre + S (length name) - (length pre + 1))%nat with (length name) by lia.
  simpl. by rewrite drop_0, take_app_length.
Qed.

(** ** Lemmas: the order of processes *)

(** The order of the numbers is that of these triples. *)
Definition rank (x : spec_float) : Z * Z * Z :=
  match x with
  | S754_nan => (0, 0, 0)
  | S754_infinity s => (if s then -2 else 2, 0, 0)
  | S754_zero _ => (0, 0, 0)
  | S754_finite true m e => (-1, - e, Zneg m)
  | S754_finite false m e => (1, e, Zpos m)
  end.

Definition lex (a b : Z * Z * Z) : comparison :=
  let '(a1, a2, a3) := a in
  let '(b1, b2, b3) := b in
  match a1 ?= b1 with Eq => match a2 ?= b2 with Eq => a3 ?= b3 | c => c end | c => c end.

Definition lex_le (a b : Z * Z * Z) : Prop :=
  let '(a1, a2, a3) := a in
  let '(b1, b2, b3) := b in
  a1 < b1 \/ a1 = b1 /\ (a2 < b2 \/ a2 = b2 /\ a3 <= b3).

Lemma lex_spec a b : (lex a b <> Gt <-> lex_le a b) /\ (lex a b = Gt -> lex_le b a).
Proof.
  destruct a as [[a1 a2] a3], b as [[b1 b2] b3]. unfold lex, lex_le.
  destruct (Z.compare_spec a1 b1), (Z.compare_spec a2 b2), (Z.compare_spec a3 b3); split; try split; lia || congruence || lia.
Qed.

Lemma compare_rank x y : is_nan x = false -> is_nan y = false -> SFcompare x y = Some (lex (rank x) (rank y)).
Proof.
  intros Hx Hy. destruct x as [sx|sx| |sx mx ex], y as [sy|sy| |sy my ey]; try done;
    try (by destruct sx); try (by destruct sy); try (by destruct sx, sy).
  destruct sx, sy; try done; simpl.
  rewrite Z.compare_opp, (Z.compare_antisym ex ey). by destruct (ex ?= ey).
Qed.

(** ** Sorting *)

Definition busier (a b : ProcMetrics) : Prop := lex_le (rank (proc_cpu_pct b)) (rank (proc_cpu_pct a)).

Lemma busier_trans a b c : busier a b -> busier b c -> busier a c.
Proof.
  unfold busier. destruct (rank (proc_cpu_pct a)) as [[a1 a2] a3], (rank (proc_cpu_pct b)) as [[b1 b2] b3],
    (rank (proc_cpu_pct c)) as [[c1 c2] c3]. simpl. lia.
Qed.

Definition is_number (p : ProcMetrics) : Prop := is_nan (proc_cpu_pct p) = false.

Lemma cpu_order_spec a b : is_number a -> is_number b ->
  match cpu_order a b with Gt => busier b a | _ => busier a b end.
Proof.
  intros Ha Hb. unfold cpu_order, busier. rewrite compare_rank by done. simpl.
  destruct (lex_spec (rank (proc_cpu_pct b)) (rank (proc_cpu_pct a))) as [L1 L2].
  destruct (lex _ _); [by apply L1|by apply L1|by apply L2].
Qed.

Lemma insert_proc_perm x l : insert_proc x l ≡ₚ x :: l.
Proof.
  induction l as [|y l IH]; [done|]. simpl. destruct (cpu_order x y); [done|done|]. rewrite IH. apply Permutation_swap.
Qed.

Lemma sort_procs_perm l : sort_procs l ≡ₚ l.
Proof. induction l as [|x l IH]; [done|]. simpl. by rewrite insert_proc_perm, IH. Qed.

Lemma insert_proc_sorted x l : is_number x -> Forall is_number l -> StronglySorted busier l ->
  StronglySorted busier (insert_proc x l).
Proof.
  intros Hx Hl Hs. induction l as [|y l IH]; simpl; [by repeat constructor|].
  apply Forall_cons in Hl as [Hy Hl]. pose proof (cpu_order_spec x y Hx Hy) as O. inversion Hs as [|? ? Hs' Hyl]; subst.
  destruct (cpu_order x y).
  1, 2: constructor; [done|]; constructor; [done|]; eapply Forall_impl; [exact Hyl|]; intros z; by apply busier_trans.
  constructor; [by apply IH|]. rewrite insert_proc_perm. by constructor.
Qed.

Lemma sort_procs_sorted l : Forall is_number l -> StronglySorted busier (sort_procs l).
Proof.
  induction 1 as [|x l Hx Hl IH]; [constructor|]. simpl. apply insert_proc_sorted; [done| |done].
  by rewrite sort_procs_perm.
Qed.

(** ** Lemmas: no process has a utilisation that is not a number *)

Lemma float_of_int_number t n : t = F32 \/ t = F64 -> 0 < n < 2 ^ 64 ->
  exists p e, float_of_int t n = S754_finite false p e.
Proof.
  intros Ht Hn. assert (nonneg_number (prec t) (emax t) (float_of_int t n) /\ 0 < scaled (prec t) (emax t) (float_of_int t n)) as [H1 H2].
  { unfold float_of_int. destruct Ht as [-> | ->]; simpl prec; simpl emax.
    - destruct (of_int_value 24 128 ltac:(done) ltac:(done) ltac:(done) n Hn) as [V _]. split; [done|].
      eapply Z.lt_le_trans; [|apply (of_int_mono 24 128 ltac:(done) ltac:(done) ltac:(done) 1 n); lia]. done.
    - destruct (of_int_value 53 1024 ltac:(done) ltac:(done) ltac:(done) n Hn) as [V _]. split; [done|].
      eapply Z.lt_le_trans; [|apply (of_int_mono 53 1024 ltac:(done) ltac:(done) ltac:(done) 1 n); lia]. done. }
  destruct (float_of_int t n) as [|[]| |[] p e]; try done. by exists p, e.
Qed.

(** A quotient by a positive number. *)
Lemma fdiv_number t x p e : is_nan x = false -> is_nan (fdiv t x (S754_finite false p e)) = false.
Proof.
  intros Hx. unfold fdiv, SFdiv. destruct x as [|[]| |s m f]; try done.
  destruct (SFdiv_core_binary _ _ _ _ _ _) as [[q e'] l] eqn:E. apply round_aux_number.
  unfold SFdiv_core_binary in E. rewrite (surjective_pairing (Z.div_eucl _ _)) in E. injection E as <- _ _.
  apply (Z.div_pos _ (Zpos p)); [|done]. destruct (_ - _ - _); [done|by apply Z.shiftl_nonneg|done].
Qed.

Lemma fmul_number t x p e : is_nan x = false -> is_nan (fmul t x (S754_finite false p e)) = false.
Proof. intros Hx. unfold fmul, SFmul. destruct x as [|[]| |s m f]; try done. by apply round_aux_number. Qed.

Lemma clamp_number x lo hi : is_nan x = false -> is_nan lo = false -> is_nan hi = false -> is_nan (clamp_float x lo hi) = false.
Proof. intros. unfold clamp_float. by destruct (SFltb x lo), (SFltb hi x). Qed.

Lemma cast_number t x : is_nan x = false -> is_nan (float_cast t x) = false.
Proof. intros Hx. destruct x; try done. by apply round_number. Qed.

Lemma ticks_range up : 0 <= uptime_ticks up < 2 ^ 64.
Proof.
  unfold uptime_ticks, float_to_u64. destruct (fmul _ _ _) as [|[]| |[] m e]; try (split; [done|vm_compute; done]).
  pose proof (proj2 (Z.shiftl_nonneg (Zpos m) e) ltac:(done)). lia.
Qed.

Lemma lifetime_number up ticks : 0 <= ticks < 2 ^ 64 -> uptime_ticks up <> 0 -> is_nan (lifetime_pct up ticks) = false.
Proof.
  intros Ht Hu. unfold lifetime_pct. pose proof (ticks_range up).
  destruct (float_of_int_number F64 (uptime_ticks up) ltac:(by right) ltac:(lia)) as (p & e & ->).
  apply cast_number, clamp_number; [|done|done]. apply (fmul_number F64 _ 7036874417766400 (-46)), fdiv_number.
  destruct (decide (ticks = 0)) as [->|]; [done|].
  by destruct (float_of_int_number F64 ticks ltac:(by right) ltac:(lia)) as (q & f & ->).
Qed.

Lemma add_u64_range oc a b c : 0 <= a -> 0 <= b -> add_u64 oc a b = Ok c -> 0 <= c < 2 ^ 64.
Proof.
  intros Ha Hb. unfold add_u64, op_add, checked_add, wrapping_add.
  destruct oc; [destruct (a + b <? 2 ^ 64) eqn:E; simpl; [|done]; apply Z.ltb_lt in E; intros [= <-]; lia|].
  simpl. intros [= <-]. apply wrap_range. done.
Qed.

(** Only numbers are sorted. *)
Lemma parsed_entry_number oc e p : parse_entry oc e = Ok (Some p) -> is_number p.
Proof.
  unfold parse_entry, parse_proc_pid_stat. destruct (en_name e ≫= parse_uint 32), (en_stat e) as [content|]; try done.
  set (up := en_uptime e).
  destruct (split_comm content ≫= _) as [[name [[[st ut] sy] rs]]|] eqn:EF; [|done].
  assert (0 <= ut < 2 ^ 64 /\ 0 <= sy < 2 ^ 64) as [Hu Hs].
  { destruct (split_comm content) as [[nm rest]|]; simpl in EF; [|done].
    destruct (stat_fields rest) as [f|] eqn:ES; simpl in EF; [|done]. injection EF as _ ->.
    unfold stat_fields in ES. destruct (words rest !! 0%nat); simpl in ES; [|done].
    destruct (words rest !! 11%nat) as [w1|]; simpl in ES; [|done].
    destruct (parse_uint 64 w1) as [n1|] eqn:E1; simpl in ES; [|done].
    destruct (words rest !! 12%nat) as [w2|]; simpl in ES; [|done].
    destruct (parse_uint 64 w2) as [n2|] eqn:E2; simpl in ES; [|done].
    destruct (words rest !! 21%nat ≫= _); simpl in ES; [|done]. injection ES as _ <- <- _.
    split; by eapply (parse_uint_range 64). }
  destruct (uptime_ticks up =? 0) eqn:EU; simpl; [destruct (mul_u64 oc rs 4096); simpl; [|done]; by intros [= <-]|].
  apply Z.eqb_neq in EU. destruct (add_u64 oc ut sy) as [t|] eqn:EA; simpl; [|done].
  destruct (mul_u64 oc rs 4096); simpl; [|done]. intros [= <-]. unfold is_number; simpl.
  apply lifetime_number; [|done]. apply (add_u64_range oc ut sy); (done || lia).
Qed.

Lemma parsed_entries_numbers oc es l : parse_entries oc es = Ok l -> Forall is_number l.
Proof.
  revert l. induction es as [|e es IH]; intros l; simpl; [by intros [= <-]|].
  destruct (parse_entry oc e) as [m|] eqn:E; simpl; [|done].
  destruct (parse_entries oc es) as [ms|]; simpl; [|done]. intros [= <-].
  destruct m as [p|]; [|by apply IH]. constructor; [by eapply parsed_entry_number|by apply IH].
Qed.

Lemma proc_stat_parsed cs others :
  Forall cpu_line_ok cs -> Forall (fun l => line_ok l /\ starts_with (str "cpu") l = false) others ->
  parse_proc_stat_sample (unlines ((cl_text <$> cs) ++ others)) = cl_sample <$> cs.
Proof.
  intros Hc Ho. unfold parse_proc_stat_sample. rewrite (lines_of _ cpu_line_ok); [|by apply cl_text_line|done|].
  2: { eapply Forall_impl; [exact Ho|]. by intros l []. }
  rewrite List.filter_app, fmap_app.
  assert (List.filter (starts_with (str "cpu")) others = []) as ->.
  { induction Ho as [|l ls [_ Hl] _ IH]; [done|]. cbn [List.filter]. by rewrite Hl. }
  rewrite app_nil_r. induction Hc as [|c cs Hok _ IH]; [done|]. rewrite fmap_cons. cbn [List.filter].
  rewrite (proj2 (cl_text_line c Hok)). csimpl. rewrite parse_cpu_line_text by done. f_equal. exact IH.
Qed.

Lemma meminfo_parsed ls : Forall mem_line_ok ls ->
  parse_proc_meminfo (unlines (ml_text <$> ls)) = mem_metrics (mem_acc ls).
Proof.
  intros H. unfold parse_proc_meminfo. rewrite <- (app_nil_r (ml_text <$> ls)), (lines_of _ mem_line_ok ls []), app_nil_r, mem_fold;
    [done|done|apply ml_text_line|done|constructor].
Qed.

Lemma diskstats_parsed ls : Forall disk_line_ok ls -> parse_proc_diskstats (unlines (dl_text <$> ls)) = disk_of <$> ls.
Proof.
  intros H. unfold parse_proc_diskstats.
  rewrite <- (app_nil_r (dl_text <$> ls)), (lines_of _ disk_line_ok ls []), app_nil_r; [|apply dl_text_line|done|constructor].
  apply omap_some. eapply Forall_impl; [exact H|apply disk_line_text].
Qed.

Definition not_loopback (l : NetLine) : bool := negb (bool_decide (nl_name l = str "lo")).

Lemma net_dev_parsed h1 h2 ls : line_ok h1 -> line_ok h2 -> Forall net_line_ok ls ->
  parse_proc_net_dev (unlines (h1 :: h2 :: (nl_text <$> ls))) = net_of <$> List.filter not_loopback ls.
Proof.
  intros H1 H2 H. unfold parse_proc_net_dev. rewrite lines_unlines.
  2: { rewrite !Forall_cons. split; [done|]. split; [done|]. apply Forall_fmap. eapply Forall_impl; [exact H|]. apply nl_text_line. }
  simpl drop. rewrite drop_0. induction H as [|l ls Hl _ IH]; [done|]. csimpl. rewrite net_line_text, IH by done.
  unfold not_loopback. by case_bool_decide.
Qed.

(** A line of a process: the fields after its name; with it, what [/proc/uptime] reads
    when the line is read, in hundredths of a second, if it can be read. *)
Record ProcLine := { pl_pid : Z; pl_name : text; pl_state : Z; pl_fields : list text; pl_utime : Z; pl_stime : Z; pl_rss : Z;
  pl_uptime : option (Z * text) }.
Definition pl_text (l : ProcLine) : text := stat_text (pl_pid l) (pl_name l) ([pl_state l] :: pl_fields l).

Definition proc_line_ok (l : ProcLine) : Prop :=
  0 <= pl_pid l < 2 ^ 32 /\ Forall (fun w => word_ok w /\ 41 ∉ w) ([pl_state l] :: pl_fields l) /\
  u64s [pl_utime l; pl_stime l; pl_rss l] /\
  pl_fields l !! 10%nat = Some (digits (pl_utime l)) /\ pl_fields l !! 11%nat = Some (digits (pl_stime l)) /\
  pl_fields l !! 20%nat = Some (digits (pl_rss l)).

Lemma pl_fields_text l : proc_line_ok l ->
  split_comm (pl_text l) ≫= (fun '(name, rest) => f ← stat_fields rest; Some (name, f)) =
  Some (pl_name l, (pl_state l, pl_utime l, pl_stime l, pl_rss l)).
Proof.
  intros (Hp & Hf & Hn & H10 & H11 & H20). unfold pl_text. rewrite split_comm_text; [|lia|].
  2: { eapply Forall_impl; [exact Hf|]. by intros w []. }
  cbn [mbind option_bind]. unfold stat_fields. rewrite words_unwords_app; [|..|done].
  2: { eapply Forall_impl; [exact Hf|]. by intros w []. }
  simpl. unfold u64s in Hn. rewrite !Forall_cons in Hn. destruct Hn as (Hn1 & Hn2 & Hn3 & _).
  assert (forall i w, pl_fields l !! i = Some w -> (pl_fields l ++ []) !! i = Some w) as A by (by rewrite app_nil_r).
  change (words []) with (@nil text).
  rewrite (A _ _ H10), (A _ _ H11), (A _ _ H20). simpl. by rewrite !parse_uint_digits.
Qed.

(** ** Specification: the files of a guest *)

(** What there is to measure; [g_other] are the lines of [/proc/stat] after those
    of the CPUs, [g_load] the load averages in hundredths, [g_dir] the processes and,
    among them, the entries of [/proc] that are not. *)
Record Guest := {
  g_before : list CpuLine; g_after : list CpuLine; g_other : list text;
  g_memory : list MemLine; g_disks : list DiskLine; g_header : text * text; g_nets : list NetLine;
  g_dir : list (ProcLine + DirEntry); g_load : Z * Z * Z; g_load_rest : text; g_clock : Z;
}.

Definition uptime_text (u : Z * text) : text := hundredths u.1 ++ SP :: u.2.
Definition load_text (l : Z * Z * Z) (rest : text) : text :=
  let '(a, b, c) := l in hundredths a ++ SP :: hundredths b ++ SP :: hundredths c ++ SP :: rest.

Definition dir_entry (x : ProcLine + DirEntry) : DirEntry :=
  match x with
  | inl l => {| en_name := Some (digits (pl_pid l)); en_stat := Some (pl_text l); en_uptime := uptime_text <$> pl_uptime l |}
  | inr e => e
  end.
Definition process_of (x : ProcLine + DirEntry) : option ProcLine := match x with inl l => Some l | inr _ => None end.
Definition g_procs (g : Guest) : list ProcLine := omap process_of (g_dir g).

Definition guest_files (g : Guest) : ProcFs :=
  {| stat_1 := unlines ((cl_text <$> g_before g) ++ g_other g); stat_2 := unlines ((cl_text <$> g_after g) ++ g_other g);
     loadavg := load_text (g_load g) (g_load_rest g); meminfo := unlines (ml_text <$> g_memory g); diskstats := unlines (dl_text <$> g_disks g);
     net_dev := unlines ((g_header g).1 :: (g_header g).2 :: (nl_text <$> g_nets g));
     proc_dir := dir_entry <$> g_dir g; clock_ms := g_clock g |}.

(** The measurements fit their types. *)
Definition proc_fits (l : ProcLine) : Prop :=
  pl_utime l + pl_stime l < 2 ^ 64 /\ pl_rss l * 4096 < 2 ^ 64 /\ match pl_uptime l with Some (n, _) => 0 <= n | None => True end.

Record guest_ok (g : Guest) : Prop := {
  ok_before : Forall cpu_line_ok (g_before g);
  ok_after : Forall cpu_line_ok (g_after g);
  ok_other : Forall (fun l => line_ok l /\ starts_with (str "cpu") l = false) (g_other g);
  ok_memory : Forall mem_line_ok (g_memory g);
  ok_disks : Forall disk_line_ok (g_disks g);
  ok_header : line_ok (g_header g).1 /\ line_ok (g_header g).2;
  ok_nets : Forall net_line_ok (g_nets g);
  ok_dir : Forall (fun x => match x with inl l => proc_line_ok l /\ proc_fits l | inr e => en_name e ≫= parse_uint 32 = None end) (g_dir g);
  ok_load : let '(a, b, c) := g_load g in 0 <= a /\ 0 <= b /\ 0 <= c;
}.

(** How busy a CPU was between two samples: the ticks it was not idle among all of
    them, in percent, each operation rounded. *)
Definition busy_ticks (s : CpuSample) : Z := user s + nice s + system s + irq s + softirq s.

Definition utilisation (prev curr : CpuLine) : spec_float :=
  let a := cl_sample prev in
  let b := cl_sample curr in
  if sample_sum b <=? sample_sum a then S754_zero false
  else fmul F32 (fdiv F32 (float_of_int F32 (Z.max 0 (busy_ticks b - busy_ticks a))) (float_of_int F32 (sample_sum b - sample_sum a)))
         (float_of_int F32 100).

(** The processor time of a process among all there was since the guest started, of
    which there are a hundred ticks a second; a second, where that cannot be read. *)
Definition ticks_up (l : ProcLine) : Z :=
  let seconds := match pl_uptime l with Some (n, _) => decimal_to_float F64 false n (-2) | None => float_of_int F64 1 end in
  float_to_u64 (fmul F64 seconds (float_of_int F64 100)).

Definition cpu_share (l : ProcLine) : spec_float :=
  if ticks_up l =? 0 then S754_zero false
  else let pct := fmul F64 (fdiv F64 (float_of_int F64 (pl_utime l + pl_stime l)) (float_of_int F64 (ticks_up l))) (float_of_int F64 100) in
       float_cast F32 (clamp_float pct (S754_zero false) (float_of_int F64 100)).

Definition measured (l : ProcLine) : ProcMetrics :=
  {| pid := pl_pid l; proc_name := pl_name l; proc_cpu_pct := cpu_share l; rss_bytes := pl_rss l * 4096; proc_state := pl_state l |}.

(** As busy as another, or busier. *)
Definition as_busy (a b : ProcMetrics) : Prop := SFleb (proc_cpu_pct b) (proc_cpu_pct a) = true.

Lemma op_add_fits oc a b : 0 <= a + b < 2 ^ 64 -> op_add oc 64 a b = Some (a + b).
Proof.
  intros H. unfold op_add. destruct oc; [apply checked_add_ok; lia|]. unfold wrapping_add. by rewrite wrap_small by exact H.
Qed.

Lemma op_mul_fits oc a b : 0 <= a * b < 2 ^ 64 -> op_mul oc 64 a b = Some (a * b).
Proof.
  intros H. unfold op_mul, checked_mul. destruct oc; [by rewrite (proj2 (Z.ltb_lt _ _)) by lia|]. by rewrite wrap_small by exact H.
Qed.

Lemma uptime_read l : proc_fits l -> uptime_ticks (uptime_text <$> pl_uptime l) = ticks_up l.
Proof.
  intros (_ & _ & H). unfold uptime_ticks, ticks_up, HUNDRED. destruct (pl_uptime l) as [[n rest]|]; [|done]. do 2 f_equal.
  unfold read_uptime_secs. cbn [fmap option_fmap option_map mbind option_bind]. unfold uptime_text. cbn [fst snd].
  rewrite words_word by (done || by apply hundredths_word). cbn -[parse_float hundredths decimal_to_float]. by rewrite parse_hundredths.
Qed.

Lemma load_read g : guest_ok g -> parse_load_avg (load_text (g_load g) (g_load_rest g)) =
  let '(a, b, c) := g_load g in (fun n => decimal_to_float F32 false n (-2)) <$> [a; b; c].
Proof.
  intros []. destruct (g_load g) as [[a b] c], ok_load0 as (Ha & Hb & Hc). unfold parse_load_avg, load_text.
  rewrite !words_word by (done || by apply hundredths_word). unfold float_at. cbn -[parse_float hundredths decimal_to_float]. by rewrite !parse_hundredths.
Qed.

Lemma proc_parsed oc l : proc_line_ok l -> proc_fits l -> parse_entry oc (dir_entry (inl l)) = Ok (Some (measured l)).
Proof.
  intros Hl Hf. unfold parse_entry, dir_entry. cbn [en_name en_stat en_uptime mbind option_bind]. rewrite parse_uint_digits by apply Hl.
  unfold parse_proc_pid_stat. rewrite pl_fields_text, uptime_read by done. destruct Hf as (F1 & F2 & F3).
  destruct Hl as (_ & _ & Hn & _). unfold u64s in Hn. rewrite !Forall_cons in Hn. destruct Hn as (Hn1 & Hn2 & Hn3 & _).
  unfold measured, cpu_share, add_u64, mul_u64, lifetime_pct. rewrite uptime_read, op_add_fits, op_mul_fits by (done || lia). simpl.
  by destruct (ticks_up l =? 0).
Qed.

Lemma procs_parsed oc dir :
  Forall (fun x => match x with inl l => proc_line_ok l /\ proc_fits l | inr e => en_name e ≫= parse_uint 32 = None end) dir ->
  parse_entries oc (dir_entry <$> dir) = Ok (measured <$> omap process_of dir).
Proof.
  induction 1 as [|[l|e] dir Hx _ IH]; [done|..]; cbn [fmap list_fmap parse_entries].
  - destruct Hx. rewrite proc_parsed by done. simpl. by rewrite IH.
  - unfold parse_entry at 1. cbn [dir_entry]. rewrite Hx. simpl. by rewrite IH.
Qed.

Lemma sat_exact a b : a + b < 2 ^ 64 -> sat a b = a + b.
Proof. unfold sat, saturating_add. lia. Qed.

Lemma sums_exact s : Forall (fun n => 0 <= n) (sample_values s) -> sample_sum s < 2 ^ 64 ->
  active s = user s + nice s + system s + irq s + softirq s /\ total s = sample_sum s.
Proof.
  unfold sample_values, sample_sum, active, total. rewrite !Forall_cons. intros (? & ? & ? & ? & ? & ? & ? & _) Hs.
  unfold active, sat, saturating_add. lia.
Qed.

Lemma utilisation_exact prev curr : cpu_line_ok prev -> cpu_line_ok curr ->
  cpu_pct (cl_sample prev) (cl_sample curr) = utilisation prev curr.
Proof.
  intros (_ & Hp & Sp) (_ & Hc & Sc).
  assert (forall c, u64s (sample_values (cl_sample c) ++ cl_more c) -> Forall (fun n => 0 <= n) (sample_values (cl_sample c))) as N.
  { intros c Hn. apply Forall_app in Hn as [Hn _]. eapply Forall_impl; [exact Hn|]. cbn. lia. }
  destruct (sums_exact _ (N _ Hp) Sp) as [Ap Tp], (sums_exact _ (N _ Hc) Sc) as [Ac Tc].
  unfold cpu_pct, utilisation, HUNDRED, saturating_sub, busy_ticks. rewrite Ap, Tp, Ac, Tc. destruct (sample_sum _ <=? _) eqn:E.
  - apply Z.leb_le in E. by rewrite Z.max_l by lia.
  - apply Z.leb_gt in E. rewrite !(Z.max_r 0 (sample_sum _ - _)) by lia. by rewrite (proj2 (Z.eqb_neq _ 0)) by lia.
Qed.

Lemma utilisations ps cs : Forall cpu_line_ok ps -> Forall cpu_line_ok cs ->
  zip_with cpu_pct (cl_sample <$> ps) (cl_sample <$> cs) = zip_with utilisation ps cs.
Proof.
  intros Hp. revert cs. induction Hp as [|p ps H _ IH]; intros cs Hc; [done|]. destruct Hc as [|c cs Hc Hcs]; [done|]. csimpl.
  by rewrite utilisation_exact, IH.
Qed.

Lemma core_utilisations ps cs : Forall cpu_line_ok ps -> Forall cpu_line_ok cs ->
  zip_with cpu_pct (drop 1 (cl_sample <$> ps)) (drop 1 (cl_sample <$> cs)) = zip_with utilisation (tail ps) (tail cs).
Proof. intros [|p ps' _ Hp] [|c cs' _ Hc]; cbn; rewrite ?drop_0; [done|done|by destruct (_ <$> _), ps'|by apply utilisations]. Qed.

Lemma busier_as_busy a b : is_number a -> is_number b -> busier a b -> as_busy a b.
Proof.
  intros Ha Hb H. unfold as_busy, SFleb. rewrite compare_rank by done. apply (lex_spec (rank (proc_cpu_pct b))) in H. by destruct (lex _ _).
Qed.

Lemma sorted_as_busy l : Forall is_number l -> StronglySorted busier l -> StronglySorted as_busy l.
Proof.
  induction 1 as [|x l Hx Hl IH]; intros Hs; [constructor|]. inversion Hs as [|? ? Hs' Hf]; subst. constructor; [by apply IH|].
  apply Forall_forall. intros y Hy. rewrite Forall_forall in Hl, Hf. apply busier_as_busy; auto.
Qed.

(** The first of a sorted list are the busiest. *)
Lemma top_busiest oc n entries procs : parse_entries oc entries = Ok procs ->
  collect_top_procs oc n entries = Ok (take n (sort_procs procs)) /\
  let top := take n (sort_procs procs) in exists rest, top ++ rest ≡ₚ procs /\ length top = Nat.min n (length procs) /\
    StronglySorted as_busy top /\ Forall is_number procs /\ Forall (fun p => Forall (as_busy p) rest) top.
Proof.
  intros E. unfold collect_top_procs. rewrite E. split; [done|]. cbv zeta.
  pose proof (parsed_entries_numbers _ _ _ E) as HN. pose proof (sort_procs_perm procs) as HP.
  pose proof (sorted_as_busy (sort_procs procs) ltac:(by rewrite HP) (sort_procs_sorted procs HN)) as HS.
  exists (drop n (sort_procs procs)). rewrite take_drop. split_and!; [done|by rewrite length_take, HP| |done|];
    rewrite <- (take_drop n (sort_procs procs)) in HS; apply StronglySorted_app in HS as (HS & HS' & _); [done|].
  apply Forall_forall. intros x Hx. apply Forall_forall. intros y Hy. by apply HS.
Qed.

(** ** Properties *)

(** C13: Against the files of a Linux guest, in the formats of proc(5), padded with
    however many blanks, the snapshot holds exactly what they say: how busy the
    machine and each CPU were between the two samples (the ticks not idle among all,
    in single precision), the load averages to the nearest, memory by the last line of
    each key (in bytes, nothing when there is no total), every disk, every interface
    but the loopback, and of the processes, with their names taken whole, whatever
    brackets or blanks they contain, ten, of which each is as busy as those after it
    and as every one left out; no build panics. *)
Theorem snapshot_faithful oc g : guest_ok g ->
  exists s rest, collect_snapshot oc (guest_files g) = Ok s /\ timestamp_ms s = g_clock g /\
    total_pct (cpu s) = match g_before g, g_after g with a :: _, b :: _ => utilisation a b | _, _ => S754_zero false end /\
    per_core (cpu s) = zip_with utilisation (tail (g_before g)) (tail (g_after g)) /\
    load_avg (cpu s) = (let '(a, b, c) := g_load g in (fun n => decimal_to_float F32 false n (-2)) <$> [a; b; c]) /\
    memory s = memory_of (g_memory g) /\
    disks s = disk_of <$> g_disks g /\
    networks s = net_of <$> List.filter not_loopback (g_nets g) /\
    processes s ++ rest ≡ₚ measured <$> g_procs g /\ length (processes s) = Nat.min 10 (length (g_procs g)) /\
    StronglySorted as_busy (processes s) /\ Forall (fun p => Forall (as_busy p) rest) (processes s).
Proof.
  intros H. pose proof (load_read g H) as HL. destruct H. unfold collect_snapshot, guest_files. simpl stat_1. simpl stat_2. simpl proc_dir.
  rewrite !proc_stat_parsed by done.
  destruct (top_busiest oc TOP_N_PROCS _ _ (procs_parsed oc (g_dir g) ok_dir0)) as (-> & rest & H1 & H2 & H3 & _ & H5).
  rewrite length_fmap in H2. eexists _, rest. split; [reflexivity|]. cbn [timestamp_ms cpu total_pct per_core load_avg memory disks networks processes loadavg meminfo diskstats net_dev clock_ms]. split; [done|].
  split; [destruct ok_before0, ok_after0; try done; by apply utilisation_exact|].
  split; [by apply core_utilisations|]. destruct ok_header0. by rewrite HL, meminfo_parsed, memory_exact, diskstats_parsed, net_dev_parsed.
Qed.

(** The processes reported are the busiest: whatever the directory holds, they
    are at most [n] of those parsed, in order of utilisation, and nothing left
    out is busier than any of them; no utilisation is NaN, so that the comparison
    is a total order and the sort is well defined. *)
Theorem busiest_processes oc n entries procs top :
  parse_entries oc entries = Ok procs -> collect_top_procs oc n entries = Ok top ->
  exists rest, top ++ rest ≡ₚ procs /\ length top = Nat.min n (length procs) /\
    StronglySorted as_busy top /\ Forall is_number procs /\ Forall (fun p => Forall (as_busy p) rest) top.
Proof. intros E Ht. destruct (top_busiest oc n _ _ E) as [E2 H]. rewrite Ht in E2. injection E2 as ->. exact H. Qed.

(** A number from 0 to 100; [scaled] counts in units of 2^-149, the least
    positive [f32]. *)
Definition percentage (x : spec_float) : Prop := nonneg_number 24 128 x /\ scaled 24 128 x <= 100 * 2 ^ 149.

Definition counted_on (prev curr : CpuSample) : Prop :=
  Forall (fun n => 0 <= n) (sample_values prev) /\ Forall2 Z.le (sample_values prev) (sample_values curr).

(** C19: Between two samples of counters that only grew and whose sum fits in 64 bits,
    the utilisation is a number from 0 to 100, whatever the rounding of the two
    conversions, the division and the product; and it is zero when no counter of
    activity moved. *)
Theorem cpu_pct_percentage prev curr : counted_on prev curr -> sample_sum curr < 2 ^ 64 ->
  percentage (cpu_pct prev curr) /\ (active curr = active prev -> cpu_pct prev curr = S754_zero false).
Proof.
  intros [Hp Hle] Hc.
  assert (Forall (fun n => 0 <= n) (sample_values curr)) as Hp'.
  { clear Hc. induction Hle; [constructor|]. apply Forall_cons in Hp as [H1 H2]. constructor; [lia|auto]. }
  unfold sample_values in Hle. rewrite !Forall2_cons in Hle. destruct Hle as (L1 & L2 & L3 & L4 & L5 & L6 & L7 & _).
  destruct (sums_exact curr Hp' Hc) as [Ac Tc].
  destruct (sums_exact prev Hp ltac:(unfold sample_sum in *; lia)) as [Ap Tp].
  unfold sample_values in Hp, Hp'. rewrite !Forall_cons in Hp, Hp'. unfold cpu_pct. rewrite Tc, Tp, Ac, Ap.
  unfold saturating_sub, sample_sum in *.
  match goal with |- context [Z.max 0 ?t =? 0] => set (T := Z.max 0 t) end.
  match goal with |- context [float_of_int F32 (Z.max 0 ?t)] => set (A := Z.max 0 t) end.
  assert (0 <= A <= T /\ T < 2 ^ 64) as HAT by lia.
  split; [|intros Eq].
  - destruct (T =? 0) eqn:ET; [split; [done|vm_compute; done]|]. apply Z.eqb_neq in ET.
    destruct (f32_of_u64 T ltac:(lia)) as (NT & T1 & T2). destruct (decide (A = 0)) as [->|HA].
    + change (float_of_int F32 0) with (S754_zero false). destruct (float_of_int_number F32 T ltac:(by left) ltac:(lia)) as (p & e & ->).
      by split.
    + destruct (f32_of_u64 A ltac:(lia)) as (NA & A1 & A2). apply percentage_le; try done.
      split; [done|]. apply f32_mono; lia.
  - assert (A = 0) as -> by lia. destruct (T =? 0) eqn:ET; [done|]. apply Z.eqb_neq in ET.
    by destruct (float_of_int_number F32 T ltac:(by left) ltac:(lia)) as (p & e & ->).
Qed.

(** A process whose counters do not fit: with overflow checks the parser panics,
    and the agent's thread with it; a release build wraps the sum of the times and
    reports the resident size modulo 2 ^ 64. *)
Theorem process_overflow up l : proc_line_ok l -> uptime_ticks up <> 0 ->
  (2 ^ 64 <= pl_utime l + pl_stime l \/ 2 ^ 52 <= pl_rss l) ->
  parse_proc_pid_stat true up (pl_pid l) (pl_text l) = Err Panic /\
  exists p, parse_proc_pid_stat false up (pl_pid l) (pl_text l) = Ok (Some p) /\
    rss_bytes p = pl_rss l * 4096 mod 2 ^ 64 /\
    proc_cpu_pct p = lifetime_pct up ((pl_utime l + pl_stime l) mod 2 ^ 64).
Proof.
  intros Hl Hu Ho. unfold parse_proc_pid_stat. rewrite pl_fields_text by done. apply Z.eqb_neq in Hu as ->.
  unfold add_u64, mul_u64, op_add, op_mul, wrapping_add, wrap. split; [|simpl; by eexists].
  unfold checked_add, checked_mul. destruct (pl_utime l + pl_stime l <? 2 ^ 64) eqn:E1; [|done].
  apply Z.ltb_lt in E1. by rewrite (proj2 (Z.ltb_ge (pl_rss l * 4096) (2 ^ 64))) by lia.
Qed.

(** ** Witnesses *)

Definition demo_sample (n : Z) : CpuSample :=
  {| user := 100 * n; nice := 0; system := 20 * n; idle := 300 * n; iowait := 5; irq := 0; softirq := n |}.
(** The gaps of a line, after which single blanks follow. *)
Definition gaps (l : list nat) (i : nat) : nat := default 0%nat (l !! i).
Definition demo_cpu (suffix : string) (first : nat) (n : Z) : CpuLine :=
  {| cl_suffix := str suffix; cl_gaps := gaps [first]; cl_sample := demo_sample n; cl_more := [0; 0; 0] |}.
Definition demo_proc : ProcLine :=
  {| pl_pid := 7; pl_name := str "a) (b"; pl_state := 83;
     pl_fields := digits <$> [1; 7; 7; 0; 0; 4194560; 90; 0; 0; 0; 250; 150; 0; 0; 20; 0; 1; 0; 10; 4096; 33];
     pl_utime := 250; pl_stime := 150; pl_rss := 33; pl_uptime := Some (10000, str "3.20") |}.

Definition demo_guest : Guest :=
  {| g_before := [demo_cpu "" 1 10; demo_cpu "0" 0 5]; g_after := [demo_cpu "" 1 20; demo_cpu "0" 0 9];
     g_other := [str "intr 12 0 3"; str "ctxt 99"];
     g_memory := [{| ml_key := str "MemTotal:"; ml_gaps := gaps [7%nat]; ml_kib := 262144; ml_unit := [str "kB"] |};
                  {| ml_key := str "MemFree:"; ml_gaps := gaps [8%nat]; ml_kib := 131072; ml_unit := [str "kB"] |};
                  {| ml_key := str "HugePages_Total:"; ml_gaps := gaps [6%nat]; ml_kib := 0; ml_unit := [] |}];
     g_disks := [{| dl_lead := 3; dl_gaps := gaps [2%nat]; dl_major := 8; dl_minor := 0; dl_name := str "vda";
                    dl_counters := [100; 0; 800; 20; 50; 0; 400; 10; 0; 30; 30] |}];
     g_header := (str "Inter-|   Receive", str " face |bytes");
     g_nets := [{| nl_lead := 4; nl_name := str "lo"; nl_gap := 1; nl_gaps := gaps []; nl_counters := [1; 1] |};
                {| nl_lead := 2; nl_name := str "eth0"; nl_gap := 4; nl_gaps := gaps [4; 3; 3; 3; 4; 9; 8; 4; 5; 3; 3; 3; 4; 6; 9]%nat;
                   nl_counters := [5000; 40; 0; 0; 0; 0; 0; 0; 2000; 20; 0; 0; 0; 0; 0; 0] |};
                {| nl_lead := 2; nl_name := str "eth1"; nl_gap := 0; nl_gaps := gaps [1%nat];
                   nl_counters := [12345678; 900; 1; 0; 0; 0; 0; 0; 77; 8; 2; 0; 0; 0; 0; 0] |}];
     g_dir := [inr (Build_DirEntry (Some (str "self")) None None); inl demo_proc; inr (Build_DirEntry None None None)];
     g_load := (50, 25, 123); g_load_rest := str "1/50 7"; g_clock := 1700000000000 |}.

(** The lines of the crate's own tests. *)
Example demo_lines : dl_text <$> g_disks demo_guest = [str "   8   0 vda 100 0 800 20 50 0 400 10 0 30 30"] /\
  take 1 (ml_text <$> g_memory demo_guest) = [str "MemTotal:        262144 kB"] /\
  (nl_text <$> g_nets demo_guest) !! 1%nat =
    Some (str "  eth0:    5000     40    0    0    0     0          0         0     2000      20    0    0    0     0       0          0") /\
  (cl_text <$> g_before demo_guest) !! 0%nat = Some (str "cpu  1000 0 200 3000 5 0 10 0 0 0").
Proof. vm_compute. done. Qed.

Lemma no_elem (c : Z) (l : text) : forallb (fun d => negb (d =? c)) l = true -> c ∉ l.
Proof.
  intros H Hin. rewrite forallb_forall in H. apply list_elem_of_In in Hin. specialize (H _ Hin). by rewrite Z.eqb_refl in H.
Qed.

Ltac text_ok := repeat first [apply no_elem; vm_compute; done | constructor]; done.

Lemma demo_proc_ok : proc_line_ok demo_proc /\ proc_fits demo_proc.
Proof. split; [|split_and!; done]. split; [done|]. split; [text_ok|]. split; [text_ok|done]. Qed.

Lemma demo_cpu_ok suffix first n : no_ws (str suffix) -> 0 <= n < 2 ^ 32 -> cpu_line_ok (demo_cpu suffix first n).
Proof.
  intros Hs Hn. split; [exact Hs|]. unfold u64s. cbn. rewrite !Forall_cons, Forall_nil. unfold sample_sum. cbn. lia.
Qed.

Lemma demo_guest_ok : guest_ok demo_guest.
Proof.
  split; cbn [demo_guest g_before g_after g_other g_memory g_disks g_header g_nets g_dir g_load].
  - rewrite !Forall_cons. split_and!; [apply demo_cpu_ok; [text_ok|lia].. |done].
  - rewrite !Forall_cons. split_and!; [apply demo_cpu_ok; [text_ok|lia].. |done].
  - text_ok.
  - repeat (constructor; [split_and!; [text_ok|done..|by (left + right)]|]). constructor.
  - constructor; [|done]. split; [text_ok|]. split; [text_ok|simpl; lia].
  - text_ok.
  - text_ok.
  - constructor; [done|]. constructor; [apply demo_proc_ok|]. by constructor.
  - done.
Qed.

(** Half the machine's ticks in single precision, the loads 0.50, 0.25 and 1.23, and
    four hundred ticks of ten thousand. *)
Lemma snapshot_faithful_witness : exists s, collect_snapshot true (guest_files demo_guest) = Ok s /\
  total_pct (cpu s) = S754_finite false 15068609 (-19) /\ load_avg (cpu s) !! 2%nat = Some (S754_finite false 10317988 (-23)) /\
  total_bytes (memory s) = 268435456 /\ used_bytes (memory s) = 134217728 /\
  (read_bytes <$> disks s) = [409600] /\ (interface <$> networks s) = [str "eth0"; str "eth1"] /\
  (tx_bytes <$> networks s) = [2000; 77] /\
  (proc_name <$> processes s) = [str "a) (b"] /\ (proc_cpu_pct <$> processes s) = [S754_finite false 8388608 (-21)].
Proof.
  destruct (snapshot_faithful true demo_guest demo_guest_ok) as (s & rest & E & _ & Ht & _ & Hl & Hm & Hd & Hn & Hp & Hlen & _).
  exists s. split; [exact E|]. rewrite Ht, Hl, Hm, Hd, Hn. do 7 (split; [vm_compute; reflexivity|]).
  assert (rest = []) as -> by (apply Permutation_length in Hp; rewrite length_app, Hlen in Hp; cbn in Hp; destruct rest; [done|cbn in Hp; lia]).
  rewrite app_nil_r in Hp. apply Permutation_singleton_r in Hp as ->. split; vm_compute; reflexivity.
Defined.

Definition demo_entries : list DirEntry :=
  [Build_DirEntry (Some (str "1")) (Some (str "1 (init) S 0 1 1 0 0 0 0 0 0 0 5 5 0 0 20 0 1 0 10 4096 33")) (Some (str "100.0"));
   Build_DirEntry (Some (str "self")) None None;
   Build_DirEntry (Some (str "7")) (Some (str "7 (busy) R 0 1 1 0 0 0 0 0 0 0 500 50 0 0 20 0 1 0 10 4096 33")) (Some (str "100.1"))].

Lemma busiest_processes_witness :
  exists procs top, parse_entries true demo_entries = Ok procs /\
    collect_top_procs true 1 demo_entries = Ok top /\ (pid <$> top) = [7] /\
    exists rest, top ++ rest ≡ₚ procs /\ Forall (fun p => Forall (as_busy p) rest) top.
Proof.
  do 2 eexists. split; [vm_compute; reflexivity|]. split; [vm_compute; reflexivity|]. split; [reflexivity|].
  edestruct (busiest_processes true 1 demo_entries) as (rest & R1 & _ & _ & _ & R5);
    [vm_compute; reflexivity|vm_compute; reflexivity|by exists rest].
Defined.

Lemma cpu_pct_percentage_witness : percentage (cpu_pct (demo_sample 10) (demo_sample 20)).
Proof.
  apply (cpu_pct_percentage (demo_sample 10) (demo_sample 20)); [|vm_compute; done].
  split; repeat constructor; vm_compute; done.
Defined.

Definition huge_proc : ProcLine :=
  {| pl_pid := 7; pl_name := str "huge"; pl_state := 83;
     pl_fields := digits <$> [1; 7; 7; 0; 0; 0; 0; 0; 0; 0; 2; 1; 0; 0; 20; 0; 1; 0; 10; 4096; 2 ^ 52];
     pl_utime := 2; pl_stime := 1; pl_rss := 2 ^ 52; pl_uptime := Some (10000, []) |}.

Lemma process_overflow_witness : parse_proc_pid_stat true (Some (str "100.0")) 7 (pl_text huge_proc) = Err Panic.
Proof.
  refine (proj1 (process_overflow (Some (str "100.0")) huge_proc _ _ _)).
  - split; [done|]. split; [text_ok|]. split; [text_ok|done].
  - vm_compute. done.
  - right. done.
Defined.
