(* ===== verification/Metrics.v ===== *)
(** * Guest metrics

    How a snapshot travels: the agent's frame ([send_snapshot] of
    [hitz-guest-agent/src/main.rs]), the packets of the vsock device, and the
    host's receiver with what it publishes ([hitz-daemon/src/vsock_server.rs]; the
    channels are those of [hitz-vmm/src/vsock_io.rs]).  The MessagePack codec and
    the division of what the guest writes into packets are parameters. *)

From Stdlib Require Import String Floats.SpecFloat.
From stdpp Require Import list.
From S2P Require Import Prelude Hal Memory Queue Bus Transport Vsock Float Text GuestProc.

(** ** The agent *)

Definition PUSH_INTERVAL_SECS : Z := 5.

(** The two buffers written; [Err] when the encoding fails. *)
Definition send_snapshot (to_vec : MetricsSnapshot -> result string (list Z)) (snap : MetricsSnapshot) :
    result string (list (list Z)) :=
  encoded ← to_vec snap;
  let len := le_bytes 4 (if zlen encoded <? 2 ^ 32 then zlen encoded else 2 ^ 32 - 1) in
  Ok [len; encoded].

(** A connection, as far as its two writes work, and what goes out on it. *)
Record Stream := { length_written : bool; body_written : bool }.

Definition sent_on (st : Stream) (frame : result string (list (list Z))) : list (list Z) :=
  match frame with
  | Ok (len :: body) => if length_written st then len :: (if body_written st then body else []) else []
  | _ => []
  end.

Section Agent.
Variables (overflow_checks : bool) (to_vec : MetricsSnapshot -> result string (list Z)).

(** A turn of [push_loop]: what the files say, and the connection, if there is one;
    a panic ends the thread.  The loop has what each turn sent. *)
Definition push_turn (t : ProcFs * option Stream) : result Stop (list (list Z)) :=
  snap ← collect_snapshot overflow_checks t.1;
  Ok (match t.2 with Some st => sent_on st (send_snapshot to_vec snap) | None => [] end).

Fixpoint push_loop (turns : list (ProcFs * option Stream)) : list (list (list Z)) * option Stop :=
  match turns with
  | [] => ([], None)
  | t :: turns' => match push_turn t with
                   | Ok sent => let '(rest, e) := push_loop turns' in (sent :: rest, e)
                   | Err e => ([], Some e)
                   end
  end.

(** [pull_server] once it listens: a connection gives a byte or fails, and is
    answered with a snapshot. *)
Record PullRequest := { byte_read : bool; pull_files : ProcFs; pull_stream : Stream }.

Fixpoint pull_server (requests : list PullRequest) : list (list (list Z)) * option Stop :=
  match requests with
  | [] => ([], None)
  | r :: requests' =>
      if byte_read r then
        match collect_snapshot overflow_checks (pull_files r) with
        | Ok snap => let '(rest, e) := pull_server requests' in (sent_on (pull_stream r) (send_snapshot to_vec snap) :: rest, e)
        | Err e => ([], Some e)
        end
      else let '(rest, e) := pull_server requests' in ([] :: rest, e)
  end.

(** [main]: both threads, the server only when its port binds. *)
Definition agent_main (binds : bool) (turns : list (ProcFs * option Stream)) (requests : list PullRequest) :
    list (list (list Z)) * list (list (list Z)) :=
  ((push_loop turns).1, if binds then (pull_server requests).1 else []).

(** A turn whose connection works sends the frame of its snapshot and does not
    depend on the other turns; the first panic is the thread's end. *)
Lemma push_loop_turns turns sent : Forall2 (fun t b => push_turn t = Ok b) turns sent -> push_loop turns = (sent, None).
Proof. induction 1 as [|t b turns sent Ht _ IH]; simpl; [done|]. by rewrite Ht, IH. Qed.

Lemma push_loop_panic turns sent t rest e : Forall2 (fun t b => push_turn t = Ok b) turns sent -> push_turn t = Err e ->
  push_loop (turns ++ t :: rest) = (sent, Some e).
Proof. intros H Ht. induction H as [|t1 b turns sent H1 _ IH]; simpl; [by rewrite Ht|]. by rewrite H1, IH. Qed.
End Agent.

(** ** Publication *)

Inductive LabelValue := LText (s : text) | LInt (n : Z).
Definition Labels : Type := list (string * LabelValue).

(** A call on an instrument of the global meter. *)
Inductive MeterOp :=
| GaugeF64 (name : string) (v : spec_float) (labels : Labels)
| GaugeU64 (name : string) (v : Z) (labels : Labels)
| CounterAdd (name : string) (v : Z) (labels : Labels).

Definition publish_to_otel (vm_id : text) (snap : MetricsSnapshot) : list MeterOp :=
  let vm_id_kv := ("vm.id"%string, LText vm_id) in
  let labels := [vm_id_kv] in
  [GaugeF64 "hitz.guest.cpu_usage" (float_cast F64 (total_pct (cpu snap))) labels] ++
  imap (fun i pct => GaugeF64 "hitz.guest.cpu_usage_per_core" (float_cast F64 pct)
                       [vm_id_kv; ("cpu"%string, LInt (Z.of_nat i))]) (per_core (cpu snap)) ++
  [GaugeU64 "hitz.guest.memory_used_bytes" (used_bytes (memory snap)) labels;
   GaugeU64 "hitz.guest.memory_total_bytes" (total_bytes (memory snap)) labels] ++
  concat ((fun d =>
    let disk_labels := [vm_id_kv; ("disk"%string, LText (disk_name d))] in
    [CounterAdd "hitz.guest.disk_read_bytes_total" (read_bytes d) disk_labels;
     CounterAdd "hitz.guest.disk_write_bytes_total" (write_bytes d) disk_labels]) <$> disks snap) ++
  concat ((fun n =>
    let net_labels := [vm_id_kv; ("interface"%string, LText (interface n))] in
    [CounterAdd "hitz.guest.net_rx_bytes_total" (rx_bytes n) net_labels;
     CounterAdd "hitz.guest.net_tx_bytes_total" (tx_bytes n) net_labels]) <$> networks snap).

(** ** The receiver *)

Definition VSOCK_METRICS_PORT : Z := 52355.

(** What a task has done: the bytes it counted, the packets put on the channel to
    the device, and the instruments it called.  A send fails only when the device
    is gone, and is ignored. *)
Record Task := { t_fwd : Z; t_sent : list VsockPacket; t_meter : list MeterOp }.

Definition task_init : Task := {| t_fwd := 0; t_sent := []; t_meter := [] |}.

Section Server.
Variable from_slice : list Z -> option MetricsSnapshot.
Variable vm_id : text.
Variable device_gone : bool.

Definition try_send (t : Task) (p : VsockPacket) : Task :=
  if device_gone then t else {| t_fwd := t_fwd t; t_sent := t_sent t ++ [p]; t_meter := t_meter t |}.

(** The snapshot of a payload: a little-endian length and that many bytes. *)
Definition payload_snapshot (payload : list Z) : option MetricsSnapshot :=
  if (length payload <? 4)%nat then None
  else
    let len := Z.to_nat (from_le (slice 0 4 payload)) in
    if (length payload <? 4 + len)%nat then None else from_slice (slice 4 (4 + len) payload).

Definition handle_packet (t : Task) (p : VsockPacket) : Task :=
  let '(hdr, payload) := p in
  match op_from_u16 (hdr_op hdr) with
  | Some Request => try_send t (make_response hdr Response 0, [])
  | Some Rw =>
      if dst_port hdr =? VSOCK_METRICS_PORT then
        let meter := match payload_snapshot payload with
                     | Some snap => t_meter t ++ publish_to_otel vm_id snap
                     | None => t_meter t
                     end in
        let fwd := saturating_add 32 (t_fwd t) (hdr_len hdr) in
        let r := make_response hdr CreditUpdate 0 in
        let credit := {| src_cid := src_cid r; dst_cid := dst_cid r; src_port := src_port r; dst_port := dst_port r;
                         hdr_len := hdr_len r; hdr_type := hdr_type r; hdr_op := hdr_op r; hdr_flags := hdr_flags r;
                         buf_alloc := VSOCK_BUF_ALLOC; fwd_cnt := fwd |} in
        try_send {| t_fwd := fwd; t_sent := t_sent t; t_meter := meter |} (credit, [])
      else t
  | Some Shutdown | Some Rst => try_send t (make_response hdr Rst 0, [])
  | _ => t
  end.

(** One turn: what the shutdown flag reads, what [try_recv] gives, and, when there
    was no packet, which branch of the [select] completes first. *)
Inductive Wait := WPacket (p : VsockPacket) | WClosed | WShutdown.
Inductive Poll := PPacket (p : VsockPacket) | PEmpty (w : Wait) | PDisconnected.
Record Turn := { shutdown_seen : bool; polled : Poll }.

(** The task after the turn, and whether the loop goes on. *)
Definition metrics_turn (t : Task) (e : Turn) : Task * bool :=
  if shutdown_seen e then (t, false)
  else match polled e with
       | PPacket p => (handle_packet t p, true)
       | PEmpty (WPacket p) => (handle_packet t p, true)
       | PEmpty WClosed | PEmpty WShutdown => (t, false)
       | PDisconnected => (t, false)
       end.

(** [None] when the turns given do not end the loop. *)
Fixpoint run_metrics_task (t : Task) (turns : list Turn) : option Task :=
  match turns with
  | [] => None
  | e :: turns' => let '(t', go) := metrics_turn t e in if go then run_metrics_task t' turns' else Some t'
  end.

Definition handle_packets (t : Task) (ps : list VsockPacket) : Task := foldl handle_packet t ps.
End Server.

Arguments handle_packet : simpl never.

(** ** Lemmas *)

Section Lemmas.
Context (from_slice : list Z -> option MetricsSnapshot) (vm_id : text).

#[local] Notation handle := (handle_packet from_slice vm_id).

(** A packet of the stream to the metrics port. *)
Definition metrics_rw (h : VsockHdr) : bool := (hdr_op h =? op_as_u16 Rw) && (dst_port h =? VSOCK_METRICS_PORT).

Lemma handle_other gone t h payload : metrics_rw h = false ->
  t_fwd (handle gone t (h, payload)) = t_fwd t /\ t_meter (handle gone t (h, payload)) = t_meter t.
Proof.
  intros H. unfold handle_packet, metrics_rw in *.
  assert (op_from_u16 (hdr_op h) = Some Rw -> hdr_op h =? op_as_u16 Rw = true) as HR.
  { unfold op_from_u16. repeat case_match; try done. }
  destruct (op_from_u16 (hdr_op h)) as [[]|]; unfold try_send; destruct gone; try done;
    rewrite HR in H by done; simpl in H; by rewrite H.
Qed.

Lemma handle_rw gone t h payload : metrics_rw h = true ->
  t_fwd (handle gone t (h, payload)) = saturating_add 32 (t_fwd t) (hdr_len h) /\
  t_meter (handle gone t (h, payload)) =
    t_meter t ++ match payload_snapshot from_slice payload with Some s => publish_to_otel vm_id s | None => [] end.
Proof.
  unfold metrics_rw. intros H. apply andb_prop in H as [H1 H2]. apply Z.eqb_eq in H1. unfold handle_packet.
  rewrite H1, H2. simpl. unfold try_send. destruct (payload_snapshot _ _), gone; simpl; by rewrite ?app_nil_r.
Qed.

(** The bytes of the stream. *)
Definition rw_bytes (ps : list VsockPacket) : Z :=
  foldr (fun p acc => (if metrics_rw p.1 then hdr_len p.1 else 0) + acc) 0 ps.

Definition lens_ok (ps : list VsockPacket) : Prop := Forall (fun p => 0 <= hdr_len p.1) ps.

Lemma rw_bytes_nonneg ps : lens_ok ps -> 0 <= rw_bytes ps.
Proof. induction 1 as [|p ps Hp _ IH]; simpl; [done|]. destruct (metrics_rw p.1); lia. Qed.

Lemma handled_fwd gone t ps : lens_ok ps -> 0 <= t_fwd t <= 2 ^ 32 - 1 ->
  t_fwd (handle_packets from_slice vm_id gone t ps) = Z.min (t_fwd t + rw_bytes ps) (2 ^ 32 - 1).
Proof.
  intros H. revert t. induction H as [|[h payload] ps Hp Hps IH]; intros t Ht; simpl; [lia|].
  pose proof (rw_bytes_nonneg ps Hps). simpl in Hp.
  destruct (metrics_rw h) eqn:E.
  - destruct (handle_rw gone t h payload E) as [E1 _]. rewrite IH; rewrite E1; unfold saturating_add; lia.
  - destruct (handle_other gone t h payload E) as [E1 _]. rewrite IH; rewrite E1; lia.
Qed.

Definition packet_ops (p : VsockPacket) : list MeterOp :=
  if metrics_rw p.1 then match payload_snapshot from_slice p.2 with Some s => publish_to_otel vm_id s | None => [] end else [].

Lemma handled_meter gone t ps :
  t_meter (handle_packets from_slice vm_id gone t ps) = t_meter t ++ concat (packet_ops <$> ps).
Proof.
  revert t. induction ps as [|[h payload] ps IH]; intros t; simpl; [by rewrite app_nil_r|].
  rewrite IH. unfold packet_ops at 2. simpl. destruct (metrics_rw h) eqn:E.
  - destruct (handle_rw gone t h payload E) as [_ ->]. by rewrite (assoc_L (++)).
  - by destruct (handle_other gone t h payload E) as [_ ->].
Qed.
End Lemmas.

(** ** Counters *)

#[export] Instance LabelValue_eq_dec : EqDecision LabelValue.
Proof. solve_decision. Defined.

(** What a counter has been increased by. *)
Definition op_added (name : string) (labels : Labels) (op : MeterOp) : Z :=
  match op with
  | CounterAdd n v l => if bool_decide (n = name /\ l = labels) then v else 0
  | _ => 0
  end.
Definition counter_value (name : string) (labels : Labels) (ops : list MeterOp) : Z :=
  foldr (fun op acc => op_added name labels op + acc) 0 ops.

Definition disk_labels (vm_id disk : text) : Labels := [("vm.id"%string, LText vm_id); ("disk"%string, LText disk)].

Definition disk_total (disk : text) (snap : MetricsSnapshot) : Z :=
  foldr (fun d acc => (if bool_decide (disk_name d = disk) then read_bytes d else 0) + acc) 0 (disks snap).

Lemma counter_app name l a b : counter_value name l (a ++ b) = counter_value name l a + counter_value name l b.
Proof. induction a as [|op a IH]; simpl; [done|]. rewrite IH. lia. Qed.

Lemma counter_gauges name l ops :
  Forall (fun op => match op with CounterAdd _ _ _ => False | _ => True end) ops -> counter_value name l ops = 0.
Proof. induction 1 as [|op ops Hop _ IH]; simpl; [done|]. rewrite IH. by destruct op. Qed.

Lemma counter_concat {A} name l (f : A -> list MeterOp) xs :
  counter_value name l (concat (f <$> xs)) = foldr (fun x acc => counter_value name l (f x) + acc) 0 xs.
Proof. induction xs as [|x xs IH]; [done|]. csimpl. by rewrite counter_app, IH. Qed.

Lemma published_disk_reads vm_id disk snap :
  counter_value "hitz.guest.disk_read_bytes_total" (disk_labels vm_id disk) (publish_to_otel vm_id snap) = disk_total disk snap.
Proof.
  unfold publish_to_otel. rewrite !counter_app, !counter_concat, !counter_gauges.
  - unfold disk_total. rewrite !Z.add_0_l.
    assert (foldr (fun n acc => counter_value "hitz.guest.disk_read_bytes_total" (disk_labels vm_id disk)
       [CounterAdd "hitz.guest.net_rx_bytes_total" (rx_bytes n) [("vm.id"%string, LText vm_id); ("interface"%string, LText (interface n))];
        CounterAdd "hitz.guest.net_tx_bytes_total" (tx_bytes n) [("vm.id"%string, LText vm_id); ("interface"%string, LText (interface n))]] + acc)
       0 (networks snap) = 0) as ->.
    { induction (networks snap) as [|n ns IH]; [done|]. cbn [foldr]. by rewrite IH. }
    rewrite Z.add_0_r. induction (disks snap) as [|d ds IH]; [done|]. cbn [foldr]. rewrite IH. f_equal.
    simpl. rewrite !Z.add_0_r. unfold disk_labels. destruct (decide (disk_name d = disk)) as [->|Hd].
    + by rewrite !bool_decide_true by done.
    + rewrite !bool_decide_false; [done|done|]. intros [_ E]. by injection E.
  - by repeat constructor.
  - apply Forall_forall. intros op [i [pct [-> _]]]%elem_of_lookup_imap. done.
  - by repeat constructor.
Qed.

(** ** Frames *)

Lemma payload_frame from_slice b extra : zlen b < 2 ^ 32 ->
  payload_snapshot from_slice (le_bytes 4 (zlen b) ++ b ++ extra) = from_slice b.
Proof.
  intros Hb. unfold payload_snapshot. pose proof (zlen_nonneg b).
  set (hd := le_bytes 4 (zlen b)). assert (length hd = 4%nat) as Hl by apply length_le_bytes.
  rewrite (slice_app_l 0 4 hd) by lia.
  assert (slice 0 4 hd = hd) as -> by (unfold slice; rewrite drop_0, take_ge by lia; done).
  assert (from_le hd = zlen b) as -> by (apply from_le_le_bytes_id; done).
  rewrite !length_app, Hl, (proj2 (Nat.ltb_ge _ _)) by lia. unfold zlen. rewrite Nat2Z.id.
  rewrite (proj2 (Nat.ltb_ge _ _)) by lia. f_equal.
  pose proof (slice_mid hd b extra) as S. rewrite Hl in S. exact S.
Qed.

(** A payload whose length field promises more than there is. *)
Lemma payload_short from_slice payload : zlen payload - 4 < from_le (slice 0 4 payload) ->
  payload_snapshot from_slice payload = None.
Proof.
  intros H. unfold payload_snapshot. destruct (length payload <? 4)%nat eqn:E; [done|]. apply Nat.ltb_ge in E.
  unfold zlen in H. by rewrite (proj2 (Nat.ltb_lt _ _)) by lia.
Qed.

(** The frame of a snapshot, as the two buffers written. *)
Lemma frame_of to_vec snap writes : send_snapshot to_vec snap = Ok writes ->
  exists b, to_vec snap = Ok b /\ (zlen b < 2 ^ 32 -> writes = [le_bytes 4 (zlen b); b]).
Proof.
  unfold send_snapshot. destruct (to_vec snap) as [b|] eqn:E; simpl; [|done]. intros [= <-].
  exists b. split; [done|]. intros Hb. by rewrite (proj2 (Z.ltb_lt (zlen b) (2 ^ 32))).
Qed.

(** ** Properties *)

Section Theorems.
Context (to_vec : MetricsSnapshot -> result string (list Z)) (from_slice : list Z -> option MetricsSnapshot).
(** The codec's own round trip. *)
Hypothesis codec : forall s b, to_vec s = Ok b -> from_slice b = Some s.
Context (vm_id : text) (gone : bool).

#[local] Notation handle_packets := (handle_packets from_slice vm_id gone).

(** A frame the agent writes, arriving in one packet (with anything after it), is
    published as the snapshot it was made from. *)
Theorem snapshot_published snap writes h extra t : send_snapshot to_vec snap = Ok writes ->
  zlen (concat writes) < 2 ^ 32 -> metrics_rw h = true ->
  t_meter (handle_packets t [(h, concat writes ++ extra)]) = t_meter t ++ publish_to_otel vm_id snap.
Proof.
  intros Hs Hl Hh. destruct (frame_of _ _ _ Hs) as (b & Hb & Hw).
  assert (zlen b < 2 ^ 32) as Hbl.
  { unfold send_snapshot in Hs. rewrite Hb in Hs. simpl in Hs. injection Hs as <-.
    rewrite !concat_cons, !zlen_app in Hl.
    pose proof (zlen_nonneg (le_bytes 4 (if zlen b <? 2 ^ 32 then zlen b else 2 ^ 32 - 1))).
    pose proof (zlen_nonneg (@concat Z [])). unfold zlen in *; lia. }
  rewrite (Hw Hbl), handled_meter, !concat_cons, !fmap_cons. cbn [fmap list_fmap concat]. rewrite !app_nil_r, <- (assoc_L (++)).
  unfold packet_ops. cbn [fst snd]. by rewrite Hh, payload_frame, (codec _ _ Hb).
Qed.

(** But the agent writes the length and the snapshot separately.  When each write
    is a packet of its own, nothing is published: the first has a length and no
    snapshot, and in the second the snapshot's first four bytes are read as a
    length, which (unless they happen to be smaller) is more than what follows.
    The bytes are counted and acknowledged all the same. *)
Theorem split_frame_lost snap writes h1 h2 t : send_snapshot to_vec snap = Ok writes ->
  zlen (concat writes) < 2 ^ 32 -> metrics_rw h1 = true -> metrics_rw h2 = true ->
  Forall (fun w => zlen w - 4 < from_le (slice 0 4 w)) writes ->
  0 <= hdr_len h1 -> 0 <= hdr_len h2 -> 0 <= t_fwd t <= 2 ^ 32 - 1 ->
  exists w1 w2, writes = [w1; w2] /\
    let t' := handle_packets t [(h1, w1); (h2, w2)] in
    t_meter t' = t_meter t /\ t_fwd t' = Z.min (t_fwd t + (hdr_len h1 + hdr_len h2)) (2 ^ 32 - 1).
Proof.
  intros Hs _ H1 H2 HF L1 L2 Ht. unfold send_snapshot in Hs. destruct (to_vec snap) as [b|]; simpl in Hs; [|done].
  injection Hs as <-. do 2 eexists. split; [done|]. cbv zeta.
  rewrite !Forall_cons in HF. destruct HF as (F1 & F2 & _). split.
  - rewrite handled_meter. simpl. unfold packet_ops. simpl fst. simpl snd.
    by rewrite H1, H2, !payload_short, !app_nil_r.
  - rewrite handled_fwd; [|by repeat constructor|done]. f_equal. simpl. rewrite H1, H2. lia.
Qed.

(** The task stops at the first turn that sees the shutdown flag, a shutdown
    while it waits, or a closed channel; until then it handles every packet it is
    given, in order, and nothing else. *)
Theorem metrics_task_stops t ps polls e rest :
  Forall2 (fun p turn => shutdown_seen turn = false /\ (polled turn = PPacket p \/ polled turn = PEmpty (WPacket p))) ps polls ->
  (shutdown_seen e = true \/ polled e = PDisconnected \/ polled e = PEmpty WClosed \/ polled e = PEmpty WShutdown) ->
  run_metrics_task from_slice vm_id gone t (polls ++ e :: rest) = Some (handle_packets t ps) /\
  run_metrics_task from_slice vm_id gone t polls = None.
Proof.
  intros HF He. revert t. induction HF as [|p turn ps polls [H1 H2] _ IH]; intros t; simpl.
  - split; [|done]. unfold metrics_turn. destruct (shutdown_seen e); [done|].
    destruct He as [?|[->|[-> | ->]]]; done.
  - unfold metrics_turn. rewrite H1. destruct H2 as [-> | ->]; apply IH.
Qed.

(** The chain at [h] carries a packet to the metrics port with a whole frame of
    the snapshot. *)
Definition carries `{GuestMemAccess M} (mem : M) (c : DescriptorChain) (snap : MetricsSnapshot) : Prop :=
  exists hdr writes, send_snapshot to_vec snap = Ok writes /\ metrics_rw hdr = true /\
    packet_wf (hdr, concat writes) /\ hdr_len hdr = zlen (concat writes) /\ 44 + zlen (concat writes) <= MAX_TX_PACKET /\
    chain_wf c /\ Forall (fun ds => is_device_writable ds = false) (descriptors c mem) /\
    readable_bytes mem (descriptors c mem) = Some (to_bytes hdr ++ concat writes).

Lemma carried_packet `{GuestMemLaws M} (mem : M) c snap : mem_wf mem -> carries mem c snap ->
  exists p, tx_packet mem c = Some p /\ packet_ops from_slice vm_id p = publish_to_otel vm_id snap /\
    metrics_rw p.1 = true /\ 0 <= hdr_len p.1.
Proof.
  intros Hm (hdr & writes & Hs & Hrw & Hwf & Hlen & Hmax & Hc & Hall & Hr).
  pose proof (vsock_tx_packet_exact mem c hdr (concat writes) Hm Hc Hwf Hall Hr Hmax) as E.
  rewrite Hlen, Z.leb_refl, take_ge in E by (unfold zlen; lia).
  eexists. split; [exact E|]. split; [|split; [exact Hrw|simpl; rewrite Hlen; apply zlen_nonneg]].
  assert (zlen (concat writes) < 2 ^ 32) as Hlt by (unfold MAX_TX_PACKET in Hmax; lia).
  pose proof (snapshot_published snap writes hdr [] task_init Hs Hlt Hrw) as P.
  rewrite app_nil_r, handled_meter in P. simpl in P. by rewrite app_nil_r in P.
Qed.

(** C14: What the guest measures reaches the host's meter: the driver puts frames of
    the snapshots [snaps] in the transmit queue, one to a chain; one notification
    hands the receiver one packet for each, in order, and empties the queue; the
    receiver, running until it is stopped, publishes exactly these snapshots, in
    order, and has counted every byte. *)
Theorem guest_snapshots_published `{GuestMemLaws M} fuel d q (mem : M) hs u snaps e t :
  queue_wf q -> mem_wf mem -> q_ready q = true -> layout_ok q mem -> tx_room d = None ->
  pending q mem = Some <$> hs -> used_idx q mem = Some u -> (length hs < fuel)%nat ->
  Forall (fun h => Forall (fun ds => off_used q (d_gpa ds) (d_len ds) /\ 0 <= d_len ds)
                     (descriptors (chain_of q h) mem)) hs ->
  Forall2 (fun h snap => carries mem (chain_of q h) snap) hs snaps ->
  shutdown_seen e = true -> 0 <= t_fwd t <= 2 ^ 32 - 1 ->
  exists d' q' mem' new t',
    vsock_process_queue fuel d 1 q mem = Ok (d', q', mem') /\ vs_sent d' = vs_sent d ++ new /\ pending q' mem' = [] /\
    run_metrics_task from_slice vm_id gone t (((fun p => {| shutdown_seen := false; polled := PPacket p |}) <$> new) ++ [e]) = Some t' /\
    t_meter t' = t_meter t ++ concat (publish_to_otel vm_id <$> snaps) /\
    t_fwd t' = Z.min (t_fwd t + foldr Z.add 0 ((fun p => hdr_len p.1) <$> new)) (2 ^ 32 - 1).
Proof.
  intros Hq Hm Hr Hlay Hroom Hp Hu Hf Hoff Hcar Hst Ht.
  destruct (vsock_tx_in_order fuel d q mem hs u Hq Hm Hr Hlay Hroom Hp Hu Hf Hoff) as (d' & q' & mem' & E & Es & Ep & _).
  set (new := omap (fun h => tx_packet mem (chain_of q h)) hs) in Es.
  exists d', q', mem', new, (handle_packets t new). split; [done|]. split; [done|]. split; [done|]. split.
  { refine (proj1 (metrics_task_stops t new _ e [] _ _)); [|by left].
    clear. induction new as [|p new IH]; constructor; [|done]. split; [done|by left]. }
  assert (concat (packet_ops from_slice vm_id <$> new) = concat (publish_to_otel vm_id <$> snaps) /\
          Forall (fun p => metrics_rw p.1 = true /\ 0 <= hdr_len p.1) new) as [Hops Hnew].
  { clear - Hm Hcar codec gone. subst new. induction Hcar as [|h snap hs snaps Hc _ [IH1 IH2]]; [by split|].
    destruct (carried_packet mem _ _ Hm Hc) as (p & Etx & Eop & Erw). csimpl. rewrite Etx. csimpl. split; [|by constructor].
    by rewrite Eop, IH1. }
  split; [by rewrite handled_meter, Hops|]. rewrite handled_fwd; [|by eapply Forall_impl; [exact Hnew|]; intros p []|done].
  f_equal. f_equal. clear - Hnew. induction Hnew as [|p new [Hrw _] _ IH]; [done|]. csimpl. rewrite IH. by rewrite Hrw.
Qed.

(** The guest's counters are totals since it started, and each snapshot adds them
    again: after any packets a disk's counter has grown by the sum of the totals
    of all the snapshots published, so that a disk that stays at [v] shows [v]
    times their number. *)
Theorem counters_add_totals t disk ps snaps :
  Forall2 (fun p s => metrics_rw p.1 = true /\ payload_snapshot from_slice p.2 = Some s) ps snaps ->
  let grown := counter_value "hitz.guest.disk_read_bytes_total" (disk_labels vm_id disk) (t_meter (handle_packets t ps)) -
               counter_value "hitz.guest.disk_read_bytes_total" (disk_labels vm_id disk) (t_meter t) in
  grown = foldr Z.add 0 (disk_total disk <$> snaps) /\
  forall v, Forall (fun s => disk_total disk s = v) snaps -> grown = v * zlen snaps.
Proof.
  intros HF. cbv zeta. rewrite handled_meter, counter_app, counter_concat.
  assert (foldr (fun p acc => counter_value "hitz.guest.disk_read_bytes_total" (disk_labels vm_id disk)
     (packet_ops from_slice vm_id p) + acc) 0 ps = foldr Z.add 0 (disk_total disk <$> snaps)) as ->.
  { induction HF as [|p s ps snaps [H1 H2] _ IH]; [done|]. csimpl. rewrite IH. f_equal. unfold packet_ops.
    rewrite H1, H2. apply published_disk_reads. }
  split; [lia|]. intros v Hv. replace (_ - _) with (foldr Z.add 0 (disk_total disk <$> snaps)) by lia. clear HF.
  induction Hv as [|s snaps Hs _ IH]; [by rewrite Z.mul_0_r|]. csimpl. rewrite IH, Hs, zlen_cons. lia.
Qed.
End Theorems.

(** The window a peer works out from a credit, by the virtio specification: the
    buffer less the bytes it has sent and the receiver has not forwarded, both
    counted from the start of the connection. *)
Definition peer_free (sent : Z) (credit : VsockHdr) : Z := buf_alloc credit - wrap 32 (sent - fwd_cnt credit).

(** The receiver counts forwarded bytes for the machine, not for the connection,
    and the agent opens a connection for each snapshot: once an earlier connection
    has carried bytes, the first credit of the next one reports more bytes than
    were sent on it, and the window the guest works out is negative. *)
Theorem credit_spans_connections from_slice vm_id t h1 p1 h2 p2 :
  t_fwd t = 0 -> metrics_rw h1 = true -> metrics_rw h2 = true ->
  0 < hdr_len h1 -> 0 < hdr_len h2 -> hdr_len h1 + hdr_len h2 < 2 ^ 31 ->
  let t' := handle_packets from_slice vm_id false t [(h1, p1); (h2, p2)] in
  exists c1 c2, t_sent t' = t_sent t ++ [(c1, []); (c2, [])] /\
    peer_free (hdr_len h1) c1 = VSOCK_BUF_ALLOC /\ peer_free (hdr_len h2) c2 < 0.
Proof.
  intros H0 H1 H2 L1 L2 HL. cbv zeta.
  unfold metrics_rw in *. apply andb_prop in H1 as [A1 B1]. apply andb_prop in H2 as [A2 B2]. apply Z.eqb_eq in A1, A2.
  unfold handle_packets. simpl foldl. unfold handle_packet. rewrite A1, A2, B1, B2. simpl. rewrite H0, <- (assoc_L (++)).
  do 2 eexists. split; [done|]. unfold peer_free. cbn [fwd_cnt buf_alloc]. unfold saturating_add.
  rewrite !Z.min_l by lia. rewrite Z.add_0_l, Z.sub_diag. split; [done|].
  replace (hdr_len h2 - (hdr_len h1 + hdr_len h2)) with (- hdr_len h1) by lia.
  unfold wrap. rewrite Z.mod_opp_l_nz; [|done|rewrite Z.mod_small; lia].
  rewrite Z.mod_small by lia. unfold VSOCK_BUF_ALLOC. lia.
Qed.

(** ** Witnesses *)

#[local] Instance spec_float_eq_dec : EqDecision spec_float.
Proof. solve_decision. Defined.
#[local] Instance cpu_eq_dec : EqDecision CpuMetrics.
Proof. solve_decision. Defined.
#[local] Instance memory_eq_dec : EqDecision MemoryMetrics.
Proof. solve_decision. Defined.
#[local] Instance disk_eq_dec : EqDecision DiskMetrics.
Proof. solve_decision. Defined.
#[local] Instance net_eq_dec : EqDecision NetMetrics.
Proof. solve_decision. Defined.
#[local] Instance proc_eq_dec : EqDecision ProcMetrics.
Proof. solve_decision. Defined.
#[local] Instance snapshot_eq_dec : EqDecision MetricsSnapshot.
Proof. solve_decision. Defined.

Definition demo_snap : MetricsSnapshot :=
  {| timestamp_ms := 5; cpu := {| total_pct := S754_zero false; per_core := []; load_avg := [] |};
     memory := no_memory;
     disks := [{| disk_name := str "vda"; read_bytes := 4096; write_bytes := 0; reads_total := 1; writes_total := 0 |}];
     networks := []; processes := [] |}.

(** A codec of that snapshot alone; its bytes begin like MessagePack's. *)
Definition demo_bytes : list Z := [0x96; 0xCF; 0; 0; 0; 0; 0; 0; 0; 5].
Definition demo_to_vec (s : MetricsSnapshot) : result string (list Z) :=
  if decide (s = demo_snap) then Ok demo_bytes else Err "unknown"%string.
Definition demo_from_slice (b : list Z) : option MetricsSnapshot :=
  if decide (b = demo_bytes) then Some demo_snap else None.

Lemma demo_codec s b : demo_to_vec s = Ok b -> demo_from_slice b = Some s.
Proof. unfold demo_to_vec, demo_from_slice. case_decide; [|done]. intros [= <-]. by subst. Qed.

Definition demo_hdr (op len : Z) : VsockHdr :=
  {| src_cid := 3; dst_cid := 2; src_port := 1024; dst_port := VSOCK_METRICS_PORT; hdr_len := len; hdr_type := 1;
     hdr_op := op; hdr_flags := 0; buf_alloc := 65536; fwd_cnt := 0 |}.

Definition demo_frame : list Z := le_bytes 4 10 ++ demo_bytes.

Lemma snapshot_published_witness :
  t_meter (handle_packets demo_from_slice (str "vm1") false task_init [(demo_hdr 5 14, demo_frame)]) =
  publish_to_otel (str "vm1") demo_snap.
Proof.
  exact (snapshot_published demo_to_vec demo_from_slice demo_codec (str "vm1") false demo_snap [le_bytes 4 10; demo_bytes]
    (demo_hdr 5 14) [] task_init eq_refl eq_refl eq_refl).
Defined.

Lemma split_frame_lost_witness :
  t_meter (handle_packets demo_from_slice (str "vm1") false task_init
    [(demo_hdr 5 4, le_bytes 4 10); (demo_hdr 5 10, demo_bytes)]) = [].
Proof.
  destruct (split_frame_lost demo_to_vec demo_from_slice (str "vm1") false demo_snap [le_bytes 4 10; demo_bytes]
    (demo_hdr 5 4) (demo_hdr 5 10) task_init eq_refl eq_refl eq_refl eq_refl ltac:(by repeat constructor) ltac:(done)
    ltac:(done) ltac:(done)) as (w1 & w2 & E & M & _).
  by injection E as <- <-.
Defined.

Lemma metrics_task_stops_witness :
  run_metrics_task demo_from_slice (str "vm1") false task_init
    [{| shutdown_seen := false; polled := PEmpty (WPacket (demo_hdr 1 0, [])) |}; {| shutdown_seen := true; polled := PDisconnected |}] =
  Some (handle_packets demo_from_slice (str "vm1") false task_init [(demo_hdr 1 0, [])]).
Proof.
  refine (proj1 (metrics_task_stops demo_from_slice (str "vm1") false task_init [(demo_hdr 1 0, [])]
    [{| shutdown_seen := false; polled := PEmpty (WPacket (demo_hdr 1 0, [])) |}] {| shutdown_seen := true; polled := PDisconnected |} [] _ _)).
  - constructor; [|constructor]. split; [done|by right].
  - by left.
Defined.

Lemma counters_add_totals_witness :
  counter_value "hitz.guest.disk_read_bytes_total" (disk_labels (str "vm1") (str "vda"))
    (t_meter (handle_packets demo_from_slice (str "vm1") false task_init
       [(demo_hdr 5 14, demo_frame); (demo_hdr 5 14, demo_frame)])) = 8192.
Proof.
  pose proof (counters_add_totals demo_from_slice (str "vm1") false task_init (str "vda")
    [(demo_hdr 5 14, demo_frame); (demo_hdr 5 14, demo_frame)] [demo_snap; demo_snap]) as H.
  destruct H as [_ H]; [repeat constructor; vm_compute; reflexivity|].
  specialize (H 4096 ltac:(repeat constructor; vm_compute; reflexivity)). rewrite Z.sub_0_r in H. exact H.
Defined.

Lemma credit_spans_connections_witness :
  exists c1 c2, t_sent (handle_packets demo_from_slice (str "vm1") false task_init [(demo_hdr 5 14, demo_frame); (demo_hdr 5 4, [])]) =
    [(c1, []); (c2, [])] /\ peer_free 4 c2 < 0.
Proof.
  destruct (credit_spans_connections demo_from_slice (str "vm1") task_init (demo_hdr 5 14) demo_frame (demo_hdr 5 4) [])
    as (c1 & c2 & E & _ & F); try reflexivity. by exists c1, c2.
Defined.

Definition frame_memory : GuestMemory := demo_vsock_memory 58 0 (to_bytes (demo_hdr 5 14) ++ demo_frame).

Lemma frame_memory_wf : mem_wf frame_memory.
Proof. apply demo_vsock_memory_wf. decided. Qed.

Lemma frame_carried : carries demo_to_vec frame_memory (chain_of demo_queue 5) demo_snap.
Proof.
  exists (demo_hdr 5 14), [le_bytes 4 10; demo_bytes]. split_and!; try reflexivity.
  - decided.
  - vm_compute. discriminate.
  - apply chain_of_wf; [apply demo_queue_wf|decided].
  - decided.
Qed.

Lemma guest_snapshots_published_witness :
  exists d' q' mem' new t', vsock_process_queue 2 demo_vsock 1 demo_queue frame_memory = Ok (d', q', mem') /\
    vs_sent d' = new /\ t_meter t' = publish_to_otel (str "vm1") demo_snap.
Proof.
  destruct (guest_snapshots_published demo_to_vec demo_from_slice demo_codec (str "vm1") false 2 demo_vsock demo_queue frame_memory
    [5] 0 [demo_snap] {| shutdown_seen := true; polled := PDisconnected |} task_init demo_queue_wf frame_memory_wf eq_refl)
    as (d' & q' & m' & new & t' & E & Es & _ & _ & Em & _); try reflexivity.
  - split; [right; vm_compute; discriminate|]. split; [right; vm_compute; discriminate|].
    split; [reflexivity|]. exists 0. vm_compute. reflexivity.
  - simpl. lia.
  - apply (bool_decide_unpack _). vm_compute. exact I.
  - constructor; [apply frame_carried|constructor].
  - split; [done|vm_compute; discriminate].
  - exists d', q', m', new, t'. split; [exact E|]. split; [exact Es|]. rewrite Em. vm_compute. reflexivity.
Defined.
