(* ===== verification/MmioDecode.v ===== *)
(** * The MMIO instruction decoder

    [hitz-vmm/src/mmio_decode.rs]: the hypervisor reports an MMIO access with
    the bytes of the faulting instruction; the monitor decodes the [MOV] forms
    that drivers use.  [encode] below is an independent assembler of those
    forms, against which the decoder is proved. *)

From S2P Require Import Prelude Hal.

(** ** Decoder *)

Record DecodedMmio := {
  register : Z;
  size : Z;
  immediate : option Z;
  instruction_len : Z;
}.

#[export] Instance DecodedMmio_eq_dec : EqDecision DecodedMmio.
Proof. solve_decision. Defined.

(** [parse_prefixes]: the loop runs over the bytes from [pos] on, [rest]. *)
Fixpoint parse_prefixes (rest : list Z) (pos : nat) (has_operand_size_prefix : bool) (rex : Z) :
    option (bool * Z * nat) :=
  match rest with
  | [] => None
  | b :: rest' =>
      if b =? 0x66 then parse_prefixes rest' (S pos) true rex
      else if (0x40 <=? b) && (b <=? 0x4F) then parse_prefixes rest' (S pos) has_operand_size_prefix b
      else Some (has_operand_size_prefix, rex, pos)
  end.

Definition needs_sib (modrm : Z) : bool :=
  let mod_bits := Z.shiftr modrm 6 in
  let rm := Z.land modrm 7 in
  (rm =? 4) && negb (mod_bits =? 3).

Definition displacement_size (modrm : Z) (has_sib : bool) (sib : Z) : nat :=
  let mod_bits := Z.shiftr modrm 6 in
  let rm := Z.land modrm 7 in
  if mod_bits =? 0 then
    if rm =? 5 then 4 else if has_sib && (Z.land sib 7 =? 5) then 4 else 0
  else if mod_bits =? 1 then 1
  else if mod_bits =? 2 then 4
  else 0.

Definition parse_sib_and_disp (bytes : list Z) (modrm : Z) (pos : nat) : option nat :=
  let has_sib := needs_sib modrm in
  '(sib, pos) ← (if has_sib then s ← bytes !! pos; Some (s, S pos) else Some (0, pos));
  let disp_size := displacement_size modrm has_sib sib in
  if (length bytes <? pos + disp_size)%nat then None else Some (pos + disp_size)%nat.

Definition operand_size (is_byte rex_w has_operand_size_prefix : bool) : Z :=
  if is_byte then 1 else if rex_w then 8 else if has_operand_size_prefix then 2 else 4.

Definition decode_mov_r_rm (opcode : Z) (has_operand_size_prefix rex_w : bool) (reg_field : Z)
    (pos : nat) : DecodedMmio :=
  {| register := reg_field;
     size := operand_size (Z.land opcode 1 =? 0) rex_w has_operand_size_prefix;
     immediate := None;
     instruction_len := wrap 8 (Z.of_nat pos) |}.

Definition decode_mov_rm_imm (bytes : list Z) (has_operand_size_prefix rex_w : bool) (modrm : Z)
    (pos : nat) : option DecodedMmio :=
  if negb (Z.land (Z.shiftr modrm 3) 7 =? 0) then None
  else
    let imm_size := (if has_operand_size_prefix && negb rex_w then 2 else 4)%nat in
    if (length bytes <? pos + imm_size)%nat then None
    else
      let imm := from_le (slice pos (pos + imm_size) bytes) in
      Some {| register := 0; size := operand_size false rex_w has_operand_size_prefix;
              immediate := Some imm; instruction_len := wrap 8 (Z.of_nat (pos + imm_size)) |}.

Definition decode_mmio_instruction (bytes : list Z) : option DecodedMmio :=
  match bytes with
  | [] => None
  | _ =>
      '(has_operand_size_prefix, rex, pos) ← parse_prefixes bytes 0 false 0;
      let rex_r := Z.land (Z.shiftr rex 2) 1 in
      let rex_w := Z.land (Z.shiftr rex 3) 1 =? 1 in
      opcode ← bytes !! pos;
      let pos := S pos in
      modrm ← bytes !! pos;
      let pos := S pos in
      let reg_field := Z.lor (Z.land (Z.shiftr modrm 3) 7) (Z.shiftl rex_r 3) in
      pos ← parse_sib_and_disp bytes modrm pos;
      if (0x88 <=? opcode) && (opcode <=? 0x8B) then
        Some (decode_mov_r_rm opcode has_operand_size_prefix rex_w reg_field pos)
      else if opcode =? 0xC7 then
        decode_mov_rm_imm bytes has_operand_size_prefix rex_w modrm pos
      else None
  end.

(** *** Registers by x86 index *)

Definition register_value (regs : StandardRegs) (idx : Z) : Z :=
  match idx with
  | 0 => rax regs | 1 => rcx regs | 2 => rdx regs | 3 => rbx regs
  | 4 => rsp regs | 5 => rbp regs | 6 => rsi regs | 7 => rdi regs
  | 8 => r8 regs | 9 => r9 regs | 10 => r10 regs | 11 => r11 regs
  | 12 => r12 regs | 13 => r13 regs | 14 => r14 regs | 15 => r15 regs
  | _ => 0
  end.

Definition set_register (regs : StandardRegs) (idx val : Z) : StandardRegs :=
  let pick i old := if idx =? i then val else old in
  {| rip := rip regs; rflags := rflags regs;
     rax := pick 0 (rax regs); rcx := pick 1 (rcx regs); rdx := pick 2 (rdx regs);
     rbx := pick 3 (rbx regs); rsp := pick 4 (rsp regs); rbp := pick 5 (rbp regs);
     rsi := pick 6 (rsi regs); rdi := pick 7 (rdi regs); r8 := pick 8 (r8 regs);
     r9 := pick 9 (r9 regs); r10 := pick 10 (r10 regs); r11 := pick 11 (r11 regs);
     r12 := pick 12 (r12 regs); r13 := pick 13 (r13 regs); r14 := pick 14 (r14 regs);
     r15 := pick 15 (r15 regs) |}.

(** ** Specification: an assembler

    The memory operands of the 64-bit addressing modes, with the bytes of
    their displacements. *)
Inductive Operand :=
| Base (base : Z)                       (* [base] *)
| BaseDisp8 (base d : Z)                (* [base + disp8] *)
| BaseDisp32 (base : Z) (d : list Z)    (* [base + disp32] *)
| RipRel (d : list Z)                   (* [rip + disp32] *)
| Sib (sib : Z)                         (* [base + index * scale] *)
| SibNoBase (sib : Z) (d : list Z)      (* [index * scale + disp32] *)
| SibDisp8 (sib d : Z)                  (* [base + index * scale + disp8] *)
| SibDisp32 (sib : Z) (d : list Z).     (* [base + index * scale + disp32] *)

Definition operand_wf (o : Operand) : Prop :=
  match o with
  | Base b => 0 <= b < 8 /\ b <> 4 /\ b <> 5
  | BaseDisp8 b _ => 0 <= b < 8 /\ b <> 4
  | BaseDisp32 b d => 0 <= b < 8 /\ b <> 4 /\ length d = 4%nat
  | RipRel d => length d = 4%nat
  | Sib s => u8 s /\ s mod 8 <> 5
  | SibNoBase s d => u8 s /\ s mod 8 = 5 /\ length d = 4%nat
  | SibDisp8 s _ => u8 s
  | SibDisp32 s d => u8 s /\ length d = 4%nat
  end.

(** [ModR/M], [SIB] and displacement, for the register field [reg]. *)
Definition encode_operand (reg : Z) (o : Operand) : list Z :=
  let modrm m rm := m * 64 + reg * 8 + rm in
  match o with
  | Base b => [modrm 0 b]
  | BaseDisp8 b d => [modrm 1 b; d]
  | BaseDisp32 b d => modrm 2 b :: d
  | RipRel d => modrm 0 5 :: d
  | Sib s => [modrm 0 4; s]
  | SibNoBase s d => modrm 0 4 :: s :: d
  | SibDisp8 s d => [modrm 1 4; s; d]
  | SibDisp32 s d => modrm 2 4 :: s :: d
  end.

(** Operand widths: [W8] has its own opcodes, [W16] a 0x66 prefix, [W64]
    REX.W. *)
Inductive Width := W8 | W16 | W32 | W64.

Definition width_bytes (w : Width) : Z :=
  match w with W8 => 1 | W16 => 2 | W32 => 4 | W64 => 8 end.

Inductive Insn :=
| Store (w : Width) (reg : Z) (o : Operand)              (* mov [o], reg *)
| LoadReg (w : Width) (reg : Z) (o : Operand)            (* mov reg, [o] *)
| StoreImm (w : Width) (imm : Z) (o : Operand).          (* mov [o], imm *)

Definition imm_bytes (w : Width) : nat := match w with W16 => 2 | _ => 4 end.

Definition insn_wf (i : Insn) : Prop :=
  match i with
  | Store _ reg o | LoadReg _ reg o => 0 <= reg < 16 /\ operand_wf o
  | StoreImm w imm o => w <> W8 /\ 0 <= imm < 256 ^ Z.of_nat (imm_bytes w) /\ operand_wf o
  end.

(** The prefixes: 0x66 for 16 bits; a REX byte when REX.W, REX.R or one of the
    address-extension bits [xb] (0 to 3) is needed. *)
Definition encode_prefixes (w : Width) (reg xb : Z) : list Z :=
  let rex := (match w with W64 => 8 | _ => 0 end) + (reg / 8) * 4 + xb in
  (match w with W16 => [0x66] | _ => [] end) ++ (if rex =? 0 then [] else [0x40 + rex]).

Definition encode (xb : Z) (i : Insn) : list Z :=
  match i with
  | Store w reg o =>
      encode_prefixes w reg xb ++ [match w with W8 => 0x88 | _ => 0x89 end] ++
      encode_operand (reg mod 8) o
  | LoadReg w reg o =>
      encode_prefixes w reg xb ++ [match w with W8 => 0x8A | _ => 0x8B end] ++
      encode_operand (reg mod 8) o
  | StoreImm w imm o =>
      encode_prefixes w 0 xb ++ [0xC7] ++ encode_operand 0 o ++ le_bytes (imm_bytes w) imm
  end.

(** What the run loop is to be told. *)
Definition meaning (i : Insn) (len : Z) : DecodedMmio :=
  match i with
  | Store w reg _ | LoadReg w reg _ =>
      {| register := reg; size := width_bytes w; immediate := None; instruction_len := len |}
  | StoreImm w imm _ =>
      {| register := 0; size := width_bytes w; immediate := Some imm; instruction_len := len |}
  end.

(** ** Lemmas *)

Lemma modrm_fields m r b :
  0 <= m -> 0 <= r < 8 -> 0 <= b < 8 ->
  let x := m * 64 + r * 8 + b in
  Z.shiftr x 6 = m /\ Z.land x 7 = b /\ Z.land (Z.shiftr x 3) 7 = r.
Proof.
  intros Hm Hr Hb. cbv zeta. change 7 with (Z.ones 3).
  rewrite !Z.land_ones, !Z.shiftr_div_pow2 by lia. change (2 ^ 6) with 64. change (2 ^ 3) with 8.
  replace (m * 64 + r * 8 + b) with ((m * 8 + r) * 8 + b) by lia. splits.
  - change 64 with (8 * 8). rewrite <- Z.div_div by lia.
    rewrite (Z.div_add_l (m * 8 + r)), (Z.div_small b) by lia.
    rewrite Z.add_0_r, Z.div_add_l, (Z.div_small r) by lia. lia.
  - rewrite Z.add_comm, Z.mod_add, Z.mod_small by lia. lia.
  - rewrite Z.div_add_l, (Z.div_small b), Z.add_0_r by lia.
    rewrite Z.add_comm, Z.mod_add, Z.mod_small by lia. lia.
Qed.

(** The length of a displacement, from the fields of ModR/M. *)
Definition disp_len (m b : Z) (sib : option Z) : nat :=
  if m =? 0 then
    if b =? 5 then 4 else match sib with Some s => if s mod 8 =? 5 then 4 else 0 | None => 0 end
  else if m =? 1 then 1 else 4.

Lemma parse_plain bytes m r b pos :
  0 <= m < 3 -> 0 <= r < 8 -> 0 <= b < 8 -> b <> 4 ->
  parse_sib_and_disp bytes (m * 64 + r * 8 + b) pos =
    (let n := disp_len m b None in
     if (length bytes <? pos + n)%nat then None else Some (pos + n)%nat).
Proof.
  intros Hm Hr Hb Hb4. destruct (modrm_fields m r b) as (E1 & E2 & _); [lia..|].
  unfold parse_sib_and_disp, needs_sib, displacement_size, disp_len. rewrite E1, E2.
  rewrite (proj2 (Z.eqb_neq b 4)) by done. simpl.
  assert (m = 0 \/ m = 1 \/ m = 2) as [->|[->| ->]] by lia; done.
Qed.

Lemma parse_with_sib bytes m r s pos :
  0 <= m < 3 -> 0 <= r < 8 -> bytes !! pos = Some s ->
  parse_sib_and_disp bytes (m * 64 + r * 8 + 4) pos =
    (let n := disp_len m 4 (Some s) in
     if (length bytes <? S pos + n)%nat then None else Some (S pos + n)%nat).
Proof.
  intros Hm Hr Hs. destruct (modrm_fields m r 4) as (E1 & E2 & _); [lia..|].
  unfold parse_sib_and_disp, needs_sib, displacement_size, disp_len. rewrite E1, E2.
  rewrite (proj2 (Z.eqb_neq m 3)) by lia. simpl negb. cbv iota. rewrite Hs. change (4 =? 4) with true. change (4 =? 5) with false.
  cbn [andb mbind option_bind].
  change (Z.land s 7) with (Z.land s (Z.ones 3)). rewrite Z.land_ones by lia. change (2 ^ 3) with 8.
  assert (m = 0 \/ m = 1 \/ m = 2) as [->|[->| ->]] by lia; done.
Qed.

(** The ModR/M, SIB and displacement bytes are skipped exactly. *)
Lemma parse_operand pre reg o rest :
  0 <= reg < 8 -> operand_wf o ->
  exists modrm tail,
    encode_operand reg o = modrm :: tail /\ Z.land (Z.shiftr modrm 3) 7 = reg /\
    parse_sib_and_disp (pre ++ encode_operand reg o ++ rest) modrm (S (length pre)) =
      Some (length pre + length (encode_operand reg o))%nat.
Proof.
  intros Hr Ho.
  assert (Hsib : forall m s l, (pre ++ m :: s :: l) !! S (length pre) = Some s).
  { intros. rewrite lookup_app_r by lia. by replace (S (length pre) - length pre)%nat with 1%nat by lia. }
  destruct o; simpl in Ho |- *; eexists _, _; (split; [reflexivity|]);
    (split; [eapply modrm_fields; lia|]);
    first [rewrite parse_plain by lia | erewrite parse_with_sib by (lia || apply Hsib)];
    unfold disp_len; simpl; repeat case_on; b2p; simpl in *; rewrite ?length_app in *; simpl in *;
    first [f_equal; lia | exfalso; rewrite ?length_app in *; simpl in *; lia].
Qed.

Lemma encode_operand_length reg o :
  operand_wf o -> (1 <= length (encode_operand reg o) <= 6)%nat.
Proof. destruct o; simpl; lia. Qed.

Lemma encode_prefixes_length w reg xb : (length (encode_prefixes w reg xb) <= 2)%nat.
Proof. unfold encode_prefixes. destruct w; repeat case_on; simpl; lia. Qed.

Lemma parse_prefixes_encode w reg xb op rest :
  0 <= reg < 16 -> 0 <= xb < 4 -> In op [0x88; 0x89; 0x8A; 0x8B; 0xC7] ->
  exists rex,
    parse_prefixes (encode_prefixes w reg xb ++ op :: rest) 0 false 0 =
      Some (match w with W16 => true | _ => false end, rex, length (encode_prefixes w reg xb)) /\
    Z.land (Z.shiftr rex 2) 1 = reg / 8 /\
    (Z.land (Z.shiftr rex 3) 1 =? 1) = match w with W64 => true | _ => false end.
Proof.
  intros Hr Hx Hop. unfold encode_prefixes.
  assert (Hr8 : reg / 8 = 0 \/ reg / 8 = 1).
  { pose proof (Z.div_mod reg 8 ltac:(lia)). pose proof (Z.mod_pos_bound reg 8 ltac:(lia)). lia. }
  assert (xb = 0 \/ xb = 1 \/ xb = 2 \/ xb = 3) as Hx4 by lia.
  destruct Hr8 as [-> | ->], Hx4 as [-> |[-> |[-> | ->]]], w; simpl in Hop;
    destruct Hop as [<- |[<- |[<- |[<- |[<- |[]]]]]]; eexists; (split; [reflexivity|]); done.
Qed.

(** The part of the decoder common to all forms. *)
Lemma decode_encoded w reg xb op o rest :
  0 <= reg < 16 -> 0 <= xb < 4 -> operand_wf o -> In op [0x88; 0x89; 0x8A; 0x8B; 0xC7] ->
  let pre := encode_prefixes w reg xb ++ [op] in
  let bytes := pre ++ encode_operand (reg mod 8) o ++ rest in
  let pos := (length pre + length (encode_operand (reg mod 8) o))%nat in
  let w16 := match w with W16 => true | _ => false end in
  let w64 := match w with W64 => true | _ => false end in
  exists modrm, Z.land (Z.shiftr modrm 3) 7 = reg mod 8 /\
    decode_mmio_instruction bytes =
      if (0x88 <=? op) && (op <=? 0x8B) then Some (decode_mov_r_rm op w16 w64 reg pos)
      else if op =? 0xC7 then decode_mov_rm_imm bytes w16 w64 modrm pos else None.
Proof.
  intros Hr Hx Ho Hop. cbv zeta. set (P := encode_prefixes w reg xb).
  set (E := encode_operand (reg mod 8) o). set (bytes := (P ++ [op]) ++ E ++ rest).
  pose proof (Z.mod_pos_bound reg 8 ltac:(lia)) as Hm.
  destruct (parse_operand (P ++ [op]) (reg mod 8) o rest) as (modrm & tail & E1 & E2 & E3); [lia|done|].
  fold E in E1, E3. fold bytes in E3. exists modrm. split; [done|].
  destruct (parse_prefixes_encode w reg xb op (E ++ rest)) as (rex & F1 & F2 & F3); [lia..|done|].
  fold P in F1. assert (Hb : bytes = P ++ op :: E ++ rest) by (unfold bytes; by rewrite <- app_assoc).
  rewrite <- Hb in F1. unfold decode_mmio_instruction.
  assert (Hne : bytes <> []) by (rewrite Hb; by destruct P).
  assert (H1 : bytes !! length P = Some op) by (rewrite Hb, lookup_app_r, Nat.sub_diag by lia; done).
  assert (H2 : bytes !! S (length P) = Some modrm).
  { rewrite Hb, E1, lookup_app_r by lia. by replace (S (length P) - length P)%nat with 1%nat by lia. }
  clear Hb. clearbody bytes. destruct bytes as [|b0 bs]; [done|]. rewrite F1.
  cbn [mbind option_bind]. rewrite H1. cbn [mbind option_bind]. rewrite H2. cbn [mbind option_bind].
  rewrite length_app in E3. simpl in E3.
  replace (S (S (length P))) with (S (length P + 1)) by lia. rewrite E3. cbn [mbind option_bind].
  rewrite F2, F3, E2.
  replace (Z.lor (reg mod 8) (Z.shiftl (reg / 8) 3)) with reg.
  2: { rewrite lor_shiftl_add; [|lia|by change (2 ^ 3) with 8|by apply Z.div_pos; lia].
       pose proof (Z.div_mod reg 8 ltac:(lia)). change (2 ^ 3) with 8. lia. }
  by rewrite length_app.
Qed.

(** *** More bytes change nothing *)

Lemma parse_prefixes_app l : forall rest pos h r x,
  parse_prefixes l pos h r = Some x -> parse_prefixes (l ++ rest) pos h r = Some x.
Proof. induction l as [|b l IH]; intros rest pos h r x; simpl; [done|]. repeat case_on; auto. Qed.

Lemma parse_prefixes_bound l : forall pos h r h' r' pos',
  bytes_ok l -> u8 r -> parse_prefixes l pos h r = Some (h', r', pos') -> u8 r' /\ (pos <= pos')%nat.
Proof.
  induction l as [|b l IH]; intros pos h r h' r' pos' Hl Hr; simpl; [done|].
  inversion_clear Hl. case_on; [intros E; apply IH in E as [? ?]; auto with lia|].
  case_on; [intros E; apply IH in E as [? ?]; auto with lia|]. by intros [= <- <- <-].
Qed.

Lemma lookup_app_Some {A} (l k : list A) i x : l !! i = Some x -> (l ++ k) !! i = Some x.
Proof. apply lookup_app_l_Some. Qed.

Lemma parse_sib_and_disp_app l rest modrm pos pos' :
  parse_sib_and_disp l modrm pos = Some pos' ->
  parse_sib_and_disp (l ++ rest) modrm pos = Some pos' /\ (pos <= pos' <= length l)%nat.
Proof.
  unfold parse_sib_and_disp. destruct (needs_sib modrm).
  - intros ([s p] & Hs & Hp)%bind_Some. apply bind_Some in Hs as (s' & Hs & [= -> <-]).
    rewrite (lookup_app_Some _ _ _ _ Hs). cbn [mbind option_bind]. rewrite length_app.
    revert Hp. repeat case_on; b2p; intros [= <-]; split; try done; lia.
  - cbn [mbind option_bind]. rewrite length_app. repeat case_on; b2p; intros [= <-]; split; try done; lia.
Qed.

Lemma decode_mov_rm_imm_app l rest h w modrm pos d :
  decode_mov_rm_imm l h w modrm pos = Some d ->
  decode_mov_rm_imm (l ++ rest) h w modrm pos = Some d /\ register d = 0 /\
  size d = operand_size false w h /\
  exists n, (pos <= n <= length l)%nat /\ instruction_len d = wrap 8 (Z.of_nat n).
Proof.
  unfold decode_mov_rm_imm. case_on; [done|]. cbv zeta.
  set (k := (if h && negb w then 2 else 4)%nat). rewrite length_app.
  destruct (length l <? pos + k)%nat eqn:E1; [done|]. b2p.
  destruct (length l + length rest <? pos + k)%nat eqn:E2; b2p; [lia|].
  intros [= <-]. split; [|split; [done|split; [done|]]].
  - do 3 f_equal. unfold slice. f_equal. rewrite drop_app_le by lia.
    rewrite take_app_le; [done|]. rewrite length_drop. lia.
  - exists (pos + k)%nat. simpl. split; [lia|done].
Qed.

Lemma decode_meaning xb i rest :
  0 <= xb < 4 -> insn_wf i ->
  decode_mmio_instruction (encode xb i ++ rest) = Some (meaning i (zlen (encode xb i))).
Proof.
  intros Hx Hi.
  assert (Hw : forall w reg o n, operand_wf o -> (n <= 4)%nat ->
    wrap 8 (Z.of_nat (length (encode_prefixes w reg xb) + 1 + length (encode_operand (reg mod 8) o) + n)) =
    Z.of_nat (length (encode_prefixes w reg xb) + 1 + length (encode_operand (reg mod 8) o) + n)).
  { intros w reg o n Ho Hn. pose proof (encode_operand_length (reg mod 8) o Ho).
    pose proof (encode_prefixes_length w reg xb). apply wrap_small. unfold in_range. lia. }
  destruct i as [w reg o|w reg o|w imm o]; cbn [encode meaning insn_wf] in *.
  - destruct Hi as [Hr Ho].
    destruct (decode_encoded w reg xb (match w with W8 => 0x88 | _ => 0x89 end) o rest
      Hr Hx Ho) as (m & _ & E); [destruct w; simpl; tauto|].
    rewrite <- app_assoc in E. rewrite <- !app_assoc, E. unfold decode_mov_r_rm, zlen. rewrite !length_app.
    specialize (Hw w reg o 0%nat Ho ltac:(lia)). rewrite Nat.add_0_r in Hw. simpl length at 2.
    rewrite Hw, Nat.add_assoc. by destruct w.
  - destruct Hi as [Hr Ho].
    destruct (decode_encoded w reg xb (match w with W8 => 0x8A | _ => 0x8B end) o rest
      Hr Hx Ho) as (m & _ & E); [destruct w; simpl; tauto|].
    rewrite <- app_assoc in E. rewrite <- !app_assoc, E. unfold decode_mov_r_rm, zlen. rewrite !length_app.
    specialize (Hw w reg o 0%nat Ho ltac:(lia)). rewrite Nat.add_0_r in Hw. simpl length at 2.
    rewrite Hw, Nat.add_assoc. by destruct w.
  - destruct Hi as (Hw8 & Himm & Ho).
    destruct (decode_encoded w 0 xb 0xC7 o (le_bytes (imm_bytes w) imm ++ rest)
      ltac:(lia) Hx Ho) as (m & Em & E); [simpl; tauto|].
    change (0 mod 8) with 0 in *. specialize (Hw w 0 o (imm_bytes w) Ho ltac:(destruct w; simpl; lia)).
    change (0 mod 8) with 0 in Hw. rewrite <- app_assoc in E. rewrite <- !app_assoc, E.
    simpl Z.leb. cbn [andb Z.eqb Pos.eqb app]. unfold decode_mov_rm_imm. rewrite Em. simpl negb. cbv iota zeta.
    set (a := encode_prefixes w 0 xb ++ 199 :: encode_operand 0 o).
    assert (Ha : (length (encode_prefixes w 0 xb ++ [199%Z]) + length (encode_operand 0 o))%nat = length a)
      by (unfold a; rewrite !length_app; simpl; lia).
    assert (Hk : (if (match w with W16 => true | _ => false end) &&
      negb (match w with W64 => true | _ => false end) then 2 else 4)%nat =
      length (le_bytes (imm_bytes w) imm)) by (rewrite length_le_bytes; by destruct w).
    rewrite Ha, Hk. replace (encode_prefixes w 0 xb ++ 199 :: encode_operand 0 o ++ _)
      with (a ++ le_bytes (imm_bytes w) imm ++ rest) by (unfold a; by rewrite <- app_assoc).
    rewrite slice_mid. rewrite (proj2 (Nat.ltb_ge _ _)) by (rewrite !length_app; lia).
    rewrite from_le_le_bytes_id by done. rewrite length_le_bytes. unfold a. unfold zlen.
    rewrite !length_app in *. simpl length in *. rewrite length_app, length_le_bytes.
    replace (length (encode_prefixes w 0 xb) + S (length (encode_operand 0 o)) + imm_bytes w)%nat
      with (length (encode_prefixes w 0 xb) + 1 + length (encode_operand 0 o) + imm_bytes w)%nat by lia.
    rewrite Hw. do 3 f_equal; [by destruct w|lia].
Qed.

(** ** Properties *)

(** C39: The decoder inverts the assembler: for every form, width, register and
    addressing mode, whatever bytes follow, it finds the register or immediate,
    the access size, and the exact length of the instruction. *)
Theorem decode_encode xb i rest :
  0 <= xb < 4 -> insn_wf i ->
  decode_mmio_instruction (encode xb i ++ rest) = Some (meaning i (zlen (encode xb i))).
Proof. apply decode_meaning. Qed.

(** Whatever the guest's bytes, a decoded instruction lies within them, names
    one of the sixteen registers and a width of 1, 2, 4 or 8 bytes; and bytes
    that follow never change what was decoded. *)
Theorem decode_bounded l d :
  bytes_ok l -> (length l < 256)%nat -> decode_mmio_instruction l = Some d ->
  2 <= instruction_len d <= zlen l /\ 0 <= register d < 16 /\ In (size d) [1; 2; 4; 8] /\
  forall rest, decode_mmio_instruction (l ++ rest) = Some d.
Proof.
  intros Hl Hlen. unfold decode_mmio_instruction at 1. destruct l as [|b0 l0] eqn:El; [done|].
  rewrite <- El in *. intros ([[h r] p] & Hp & E)%bind_Some.
  apply bind_Some in E as (op & Ho & E). cbv zeta in E. apply bind_Some in E as (m & Hm & E).
  apply bind_Some in E as (p2 & Hs & E). pose proof Hp as Hp'.
  apply parse_prefixes_bound in Hp' as [Hr _]; [|done|decided].
  assert (Hext : forall rest, parse_sib_and_disp (l ++ rest) m (S (S p)) = Some p2 /\
      (S (S p) <= p2 <= length l)%nat) by (intros; by apply parse_sib_and_disp_app).
  assert (Hdec : forall rest, decode_mmio_instruction (l ++ rest) =
    let reg := Z.lor (Z.land (Z.shiftr m 3) 7) (Z.shiftl (Z.land (Z.shiftr r 2) 1) 3) in
    let w := Z.land (Z.shiftr r 3) 1 =? 1 in
    if (0x88 <=? op) && (op <=? 0x8B) then Some (decode_mov_r_rm op h w reg p2)
    else if op =? 0xC7 then decode_mov_rm_imm (l ++ rest) h w m p2 else None).
  { intros rest. unfold decode_mmio_instruction.
    destruct (l ++ rest) as [|b1 l1] eqn:E2; [by rewrite El in E2|]. rewrite <- E2.
    rewrite (parse_prefixes_app _ rest _ _ _ _ Hp). cbn [mbind option_bind].
    rewrite (lookup_app_Some _ _ _ _ Ho). cbn [mbind option_bind].
    rewrite (lookup_app_Some _ _ _ _ Hm). cbn [mbind option_bind].
    by rewrite (proj1 (Hext rest)). }
  destruct (Hext []) as [_ Hb2]. unfold zlen.
  assert (Hsz : forall a b c, In (operand_size a b c) [1; 2; 4; 8]) by (intros [] [] []; simpl; tauto).
  destruct ((0x88 <=? op) && (op <=? 0x8B)).
  - injection E as <-. cbn [decode_mov_r_rm instruction_len register size].
    rewrite wrap_small by (unfold in_range; lia). split; [lia|]. split; [|split; [apply Hsz|]].
    + apply (lor_range 4); [lia| |].
      * change 7 with (Z.ones 3). rewrite Z.land_ones by lia.
        pose proof (Z.mod_pos_bound (Z.shiftr m 3) (2 ^ 3) ltac:(lia)). unfold in_range. lia.
      * change 1 with (Z.ones 1). rewrite Z.land_ones, Z.shiftl_mul_pow2 by lia.
        pose proof (Z.mod_pos_bound (Z.shiftr r 2) (2 ^ 1) ltac:(lia)). unfold in_range. lia.
    + intros rest. by rewrite Hdec.
  - destruct (op =? 0xC7); [|done]. pose proof (decode_mov_rm_imm_app _ [] _ _ _ _ _ E) as
      (_ & -> & -> & n & Hn & ->). rewrite wrap_small by (unfold in_range; lia).
    split; [lia|]. split; [lia|]. split; [apply Hsz|]. intros rest. rewrite Hdec. cbv zeta.
    by apply decode_mov_rm_imm_app.
Qed.

(** Register accesses: a write is read back, and disturbs no other register,
    neither the instruction pointer nor the flags. *)
Theorem set_register_correct regs i j v :
  0 <= i < 16 -> 0 <= j < 16 ->
  register_value (set_register regs i v) j = (if i =? j then v else register_value regs j) /\
  rip (set_register regs i v) = rip regs /\ rflags (set_register regs i v) = rflags regs.
Proof.
  intros Hi Hj. split; [|done].
  assert (Hj' : In j [0; 1; 2; 3; 4; 5; 6; 7; 8; 9; 10; 11; 12; 13; 14; 15]) by (simpl; lia).
  simpl in Hj'. by repeat (destruct Hj' as [<-|Hj']; [done|]).
Qed.

(** ** Witnesses *)

(** [mov qword \[r12 + rax*4 + 0x50\], r9]. *)
Lemma decode_encode_witness :
  decode_mmio_instruction ([0x4D; 0x89; 0x4C; 0x84; 0x50] ++ [0x90; 0x90]) =
    Some {| register := 9; size := 8; immediate := None; instruction_len := 5 |}.
Proof.
  exact (decode_encode 1 (Store W64 9 (SibDisp8 0x84 0x50)) [0x90; 0x90] ltac:(lia)
    ltac:(split; [lia|decided])).
Defined.

Lemma decode_bounded_witness :
  decode_mmio_instruction [0x66; 0xC7; 0x05; 0; 0; 0; 0; 0x34; 0x12; 0x8B; 0x00] =
    Some {| register := 0; size := 2; immediate := Some 0x1234; instruction_len := 9 |}.
Proof.
  destruct (decode_bounded [0x66; 0xC7; 0x05; 0; 0; 0; 0; 0x34; 0x12]
    {| register := 0; size := 2; immediate := Some 0x1234; instruction_len := 9 |}
    ltac:(decided) ltac:(simpl; lia) ltac:(vm_compute; reflexivity)) as (_ & _ & _ & E).
  exact (E [0x8B; 0x00]).
Defined.

Lemma set_register_correct_witness :
  register_value (set_register StandardRegs_default 12 77) 12 = 77.
Proof. exact (proj1 (set_register_correct StandardRegs_default 12 12 77 ltac:(lia) ltac:(lia))). Defined.
