(* ===== verification/RunLoop.v ===== *)
(** * The vCPU run loop

    [hitz-vmm/src/run_loop.rs] and [hitz-devices/src/serial.rs]: one vCPU's
    loop of polls, guest execution and exit handling.  The hypervisor's vCPU is
    the [Vcpu] class (the trait of hitz-hal), the UART of the vm-superio crate
    the [Uart] class; both are code outside the repository.  Functions that
    fail with [?] are in a state-and-error monad over [LoopState], which keeps
    what was done before the failure. *)

From Stdlib Require Import String.
From stdpp Require Import strings.
From S2P Require Import Prelude Hal Memory Bus MmioDecode.

(** ** The hypervisor's vCPU and the UART *)

Class Vcpu (V : Type) := {
  vcpu_run : V -> result HalError VcpuExit * V;
  get_regs : V -> result HalError StandardRegs;
  set_regs : V -> StandardRegs -> result HalError unit * V;
  inject_interrupt : V -> Z -> result HalError unit * V;
  request_interrupt_window : V -> result HalError unit * V;
}.

(** What the handlers rely on: registers read back as they were set. *)
Class VcpuLaws (V : Type) `{Vcpu V} := {
  get_set_regs v regs v' : set_regs v regs = (Ok tt, v') -> get_regs v' = Ok regs;
}.

(** [Serial::write] gives whether the sink took the byte. *)
Class Uart (U : Type) := {
  uart_write : U -> Z -> Z -> bool * U;
  uart_read : U -> Z -> Z * U;
}.

(** ** The serial console *)

Definition COM1_BASE : Z := 0x3F8.
Definition UART_PORT_COUNT : Z := 8.

Definition handles_port (port : Z) : bool := (COM1_BASE <=? port) && (port <? COM1_BASE + UART_PORT_COUNT).

(** Failed writes are logged and swallowed. *)
Definition pio_write {U} `{Uart U} (s : U) (port value : Z) : U :=
  (uart_write s (wrap 8 (port - COM1_BASE)) value).2.

Definition pio_read {U} `{Uart U} (s : U) (port : Z) : Z * U :=
  uart_read s (wrap 8 (port - COM1_BASE)).

(** ** State *)

Definition PIC_PORTS : list Z := [0x20; 0x21; 0xA0; 0xA1].

Inductive ExitReason := Halt | Shutdown | Canceled | Unexpected (msg : string).

(** The handlers' failures: a hypervisor error, or a device that panics or
    never returns. *)
Inductive LoopErr := LHal (e : HalError) | LStop (s : Stop).

(** The vCPU, the devices behind the mutex, guest memory, and the local
    [pending_irq]. *)
Record LoopState (V U Dev M : Type) := {
  ls_vcpu : V;
  ls_serial : U;
  ls_bus : @MmioBus Dev;
  ls_mem : M;
  pending_irq : option Z;
}.
Arguments ls_vcpu {V U Dev M}. Arguments ls_serial {V U Dev M}. Arguments ls_bus {V U Dev M}.
Arguments ls_mem {V U Dev M}. Arguments pending_irq {V U Dev M}.

(** The state-and-error monad. *)
Definition Loop (St A : Type) : Type := St -> result LoopErr A * St.

#[export] Instance loop_ret St : MRet (Loop St) := fun A a s => (Ok a, s).
#[export] Instance loop_bind St : MBind (Loop St) :=
  fun A B f m s => match m s with (Ok a, s') => f a s' | (Err e, s') => (Err e, s') end.

Section RunLoop.
Context {V U Dev M : Type} `{Vcpu V} `{Uart U} `{MmioDevice Dev M}.
Variables (overflow_checks : bool) (dev_fuel : nat).

Notation St := (LoopState V U Dev M).
Notation "'LOOP' A" := (Loop St A) (at level 10, A at level 9).

(** *** Primitive operations on the state *)

Definition set_vcpu (s : St) (v : V) : St :=
  {| ls_vcpu := v; ls_serial := ls_serial s; ls_bus := ls_bus s; ls_mem := ls_mem s;
     pending_irq := pending_irq s |}.
Definition set_serial (s : St) (u : U) : St :=
  {| ls_vcpu := ls_vcpu s; ls_serial := u; ls_bus := ls_bus s; ls_mem := ls_mem s;
     pending_irq := pending_irq s |}.
Definition set_bus (s : St) (b : @MmioBus Dev) (m : M) : St :=
  {| ls_vcpu := ls_vcpu s; ls_serial := ls_serial s; ls_bus := b; ls_mem := m;
     pending_irq := pending_irq s |}.
Definition set_pending (s : St) (p : option Z) : St :=
  {| ls_vcpu := ls_vcpu s; ls_serial := ls_serial s; ls_bus := ls_bus s; ls_mem := ls_mem s;
     pending_irq := p |}.

(** A call of the vCPU, with its error propagated by [?]. *)
Definition vcpu_call {A} (f : V -> result HalError A * V) : LOOP A := fun s =>
  let '(r, v) := f (ls_vcpu s) in (map_err LHal r, set_vcpu s v).

Definition read_regs : LOOP StandardRegs := fun s => (map_err LHal (get_regs (ls_vcpu s)), s).
Definition write_regs (regs : StandardRegs) : LOOP unit := vcpu_call (fun v => set_regs v regs).

Definition bus_read_op (gpa : Z) (n : nat) : LOOP (list Z) := fun s =>
  match bus_read overflow_checks (ls_bus s) gpa (replicate n 0) with
  | Ok (b, data) => (Ok data, set_bus s b (ls_mem s))
  | Err e => (Err (LStop e), s)
  end.

Definition bus_write_op (gpa : Z) (data : list Z) : LOOP (option Z) := fun s =>
  match bus_write overflow_checks dev_fuel (ls_bus s) (ls_mem s) gpa data with
  | Ok (b, m, irq) => (Ok irq, set_bus s b m)
  | Err e => (Err (LStop e), s)
  end.

(** *** Handlers *)

Definition with_rip (regs : StandardRegs) (len : Z) : StandardRegs :=
  {| rip := wrapping_add 64 (rip regs) len; rflags := rflags regs; rax := rax regs;
     rbx := rbx regs; rcx := rcx regs; rdx := rdx regs; rsi := rsi regs; rdi := rdi regs;
     rsp := rsp regs; rbp := rbp regs; r8 := r8 regs; r9 := r9 regs; r10 := r10 regs;
     r11 := r11 regs; r12 := r12 regs; r13 := r13 regs; r14 := r14 regs; r15 := r15 regs |}.

Definition advance_rip (instruction_len : Z) : LOOP unit :=
  regs ← read_regs; write_regs (with_rip regs instruction_len).

Definition advance_rip_with_rax (instruction_len rax : Z) : LOOP unit :=
  regs ← read_regs; write_regs (set_register (with_rip regs instruction_len) 0 rax).

(** Injection, or deferral until the interrupt window: the tails of
    [poll_devices] and [handle_mmio_write]. *)
Definition inject_or_defer (irq : option Z) : LOOP unit := fun s =>
  match irq with
  | None => (Ok tt, s)
  | Some vector =>
      let '(r, v) := inject_interrupt (ls_vcpu s) vector in
      let s1 := set_vcpu s v in
      if is_err r then vcpu_call request_interrupt_window (set_pending s1 (Some vector))
      else (Ok tt, s1)
  end.

Definition handle_mmio_read (mmio : MmioExit) (decoded : DecodedMmio) (instr_len : Z) : LOOP unit :=
  let n := Z.to_nat (Z.min (size decoded) 8) in
  data ← bus_read_op (mmio_gpa mmio) n;
  let value := from_le (splice 0 data (replicate 8 0)) in
  regs ← read_regs;
  write_regs (with_rip (set_register regs (register decoded) value) instr_len).

Definition handle_mmio_write (mmio : MmioExit) (decoded : DecodedMmio) (instr_len : Z) : LOOP unit :=
  value ← match immediate decoded with
          | Some imm => mret imm
          | None => regs ← read_regs; mret (register_value regs (register decoded))
          end;
  let n := Z.to_nat (Z.min (size decoded) 8) in
  irq ← bus_write_op (mmio_gpa mmio) (take n (le_bytes 8 value));
  _ ← advance_rip instr_len;
  inject_or_defer irq.

Definition handle_mmio (mmio : MmioExit) : LOOP unit :=
  let count := Nat.min (Z.to_nat (mmio_instruction_byte_count mmio))
                 (length (mmio_instruction_bytes mmio)) in
  match decode_mmio_instruction (take count (mmio_instruction_bytes mmio)) with
  | None => advance_rip (mmio_instruction_len mmio)
  | Some decoded =>
      let instr_len := instruction_len decoded in
      if mmio_is_write mmio then handle_mmio_write mmio decoded instr_len
      else handle_mmio_read mmio decoded instr_len
  end.

Definition serial_out (port value : Z) : LOOP unit := fun s =>
  (Ok tt, set_serial s (pio_write (ls_serial s) port value)).
Definition serial_in (port : Z) : LOOP Z := fun s =>
  let '(v, u) := pio_read (ls_serial s) port in (Ok v, set_serial s u).

(** [io.data\[0\]] of a fixed-size array. *)
Definition handle_io_port (io : IoPortExit) : LOOP unit :=
  if handles_port (io_port io) then
    if io_is_write io then
      _ ← serial_out (io_port io) (default 0 (io_data io !! 0%nat));
      advance_rip (io_instruction_len io)
    else
      value ← serial_in (io_port io);
      advance_rip_with_rax (io_instruction_len io) value
  else if bool_decide (io_port io ∈ PIC_PORTS) then
    if io_is_write io then advance_rip (io_instruction_len io)
    else advance_rip_with_rax (io_instruction_len io) 0x00
  else if io_is_write io then advance_rip (io_instruction_len io)
  else advance_rip_with_rax (io_instruction_len io) 0xFF.

Definition dispatch_exit (exit : VcpuExit) : LOOP (option ExitReason) :=
  match exit with
  | ExitIoPort io => _ ← handle_io_port io; mret None
  | ExitHalt => mret (Some Halt)
  | ExitShutdown => mret (Some Shutdown)
  | ExitMmio mmio => _ ← handle_mmio mmio; mret None
  | ExitInterruptWindow => fun s =>
      match pending_irq s with
      | None => (Ok None, s)
      | Some vector =>
          (_ ← vcpu_call (fun v => inject_interrupt v vector); mret None) (set_pending s None)
      end
  | ExitCanceled => fun s =>
      match pending_irq s with
      | Some _ => (_ ← vcpu_call request_interrupt_window; mret None) s
      | None => (Ok None, s)
      end
  | ExitUnknown code =>
      mret (Some (Unexpected ("unknown vCPU exit reason: " ++ fmt_hex code)%string))
  end.

Definition loop_poll_devices : LOOP unit := fun s =>
  let '(b, m, irq) := poll_devices (ls_bus s) (ls_mem s) in inject_or_defer irq (set_bus s b m).

(** One turn of the loop, [stop] being what the stop flag reads. *)
Definition loop_step (stop : bool) : LOOP (option ExitReason) :=
  if stop then mret (Some Canceled)
  else
    _ ← loop_poll_devices;
    exit ← vcpu_call vcpu_run;
    dispatch_exit exit.

(** [run_vcpu_loop]: [stop_flag i] is what the [i]-th load of the flag reads;
    [None] when [fuel] turns were not enough. *)
Fixpoint run_vcpu_loop (fuel : nat) (stop_flag : nat -> bool) (i : nat) (s : St) :
    option (result LoopErr ExitReason * St) :=
  match fuel with
  | O => None
  | S fuel' =>
      match loop_step (stop_flag i) s with
      | (Err e, s') => Some (Err e, s')
      | (Ok (Some reason), s') => Some (Ok reason, s')
      | (Ok None, s') => run_vcpu_loop fuel' stop_flag (i + 1) s'
      end
  end.

(** [pending_irq] starts empty. *)
Definition loop_init (v : V) (u : U) (b : @MmioBus Dev) (m : M) : St :=
  {| ls_vcpu := v; ls_serial := u; ls_bus := b; ls_mem := m; pending_irq := None |}.

End RunLoop.

(** ** Lemmas *)

Lemma from_le_zeros n l : from_le (l ++ replicate n 0) = from_le l.
Proof.
  induction l as [|b l IH]; simpl; [|by rewrite IH].
  induction n as [|n IH]; [done|]. simpl. by rewrite IH.
Qed.

Lemma width_bytes_range w : 1 <= width_bytes w <= 8.
Proof. destruct w; simpl; lia. Qed.

Section RunLoopLemmas.
Context {V U Dev M : Type} `{VcpuLaws V} `{Uart U} `{MmioDevice Dev M}.
Variables (overflow_checks : bool) (dev_fuel : nat).
Implicit Types (s : LoopState V U Dev M).

#[local] Notation bus_read := (bus_read overflow_checks).
#[local] Notation bus_write := (bus_write overflow_checks dev_fuel).
#[local] Notation handle_mmio := (handle_mmio overflow_checks dev_fuel).
#[local] Notation run_vcpu_loop := (run_vcpu_loop overflow_checks dev_fuel).
#[local] Notation loop_step := (loop_step overflow_checks dev_fuel).

Lemma loop_bind_unfold {St A B} (m : Loop St A) (f : A -> Loop St B) (s : St) :
  (m ≫= f) s = match m s with (Ok a, s') => f a s' | (Err e, s') => (Err e, s') end.
Proof. done. Qed.

(** Setting registers, when the hypervisor accepts them. *)
Lemma write_regs_ok s regs v :
  set_regs (ls_vcpu s) regs = (Ok tt, v) -> write_regs regs s = (Ok tt, set_vcpu s v).
Proof. intros E. unfold write_regs, vcpu_call. by rewrite E. Qed.

Lemma advance_rip_ok s regs v len :
  get_regs (ls_vcpu s) = Ok regs -> set_regs (ls_vcpu s) (with_rip regs len) = (Ok tt, v) ->
  advance_rip len s = (Ok tt, set_vcpu s v).
Proof.
  intros E1 E2. unfold advance_rip. rewrite loop_bind_unfold. unfold read_regs. rewrite E1.
  by apply write_regs_ok.
Qed.

Lemma inject_or_defer_cases s irq :
  match irq with
  | None => inject_or_defer irq s = (Ok tt, s)
  | Some vector =>
      let '(r, v) := inject_interrupt (ls_vcpu s) vector in
      if is_ok r then inject_or_defer irq s = (Ok tt, set_vcpu s v)
      else
        let '(r', v') := request_interrupt_window v in
        inject_or_defer irq s = (map_err LHal r', set_pending (set_vcpu s v') (Some vector))
  end.
Proof.
  destruct irq as [vector|]; [|done]. unfold inject_or_defer, vcpu_call, is_err.
  destruct (inject_interrupt _ _) as [[u|e] v]; simpl; [done|].
  by destruct (request_interrupt_window v) as [r' v'].
Qed.

(** *** What every handler keeps: the ranges of the bus *)

Definition keeps_bus {A} (m : Loop (LoopState V U Dev M) A) : Prop :=
  forall s r s', bus_wf (ls_bus s) -> m s = (r, s') ->
    bus_wf (ls_bus s') /\ shape (ls_bus s') = shape (ls_bus s).

Lemma keeps_bus_ret {A} (a : A) : keeps_bus (mret a).
Proof. by intros s r s' Hs [= <- <-]. Qed.

Lemma keeps_bus_bind {A B} (m : Loop (LoopState V U Dev M) A)
    (f : A -> Loop (LoopState V U Dev M) B) :
  keeps_bus m -> (forall a, keeps_bus (f a)) -> keeps_bus (m ≫= f).
Proof.
  intros Hm Hf s r s' Hs. rewrite loop_bind_unfold.
  destruct (m s) as [[a|e] s1] eqn:E; pose proof (Hm _ _ _ Hs E) as [Hs1 E1].
  - intros E2. destruct (Hf a _ _ _ Hs1 E2) as [? ->]. done.
  - by intros [= <- <-].
Qed.

Lemma keeps_bus_vcpu {A} (f : V -> result HalError A * V) : keeps_bus (vcpu_call f).
Proof.
  intros s r s' Hs. unfold vcpu_call. destruct (f _) as [r' v]. by intros [= <- <-].
Qed.

Lemma keeps_bus_regs : keeps_bus read_regs.
Proof. by intros s r s' Hs [= <- <-]. Qed.

Lemma keeps_bus_read gpa n : keeps_bus (bus_read_op overflow_checks gpa n).
Proof.
  intros s r s' Hs. unfold bus_read_op.
  destruct (bus_read _ _ _) as [[b data]|e] eqn:E; [|by intros [= <- <-]].
  intros [= <- <-]. exact (bus_read_shape _ _ _ _ _ _ Hs E).
Qed.

Lemma keeps_bus_write gpa data : keeps_bus (bus_write_op overflow_checks dev_fuel gpa data).
Proof.
  intros s r s' Hs. unfold bus_write_op.
  destruct (bus_write _ _ _ _) as [[[b m] irq]|e] eqn:E; [|by intros [= <- <-]].
  intros [= <- <-]. exact (bus_write_shape _ _ _ _ _ _ _ _ _ Hs E).
Qed.

Lemma keeps_bus_inject irq : keeps_bus (inject_or_defer irq).
Proof.
  intros s r s' Hs E. pose proof (inject_or_defer_cases s irq) as Hc.
  destruct irq as [vector|]; [|rewrite E in Hc; by injection Hc as -> ->].
  destruct (inject_interrupt _ _) as [r1 v]. destruct (is_ok r1).
  - rewrite E in Hc. by injection Hc as -> ->.
  - destruct (request_interrupt_window v) as [r' v']. rewrite E in Hc. by injection Hc as -> ->.
Qed.

Create HintDb keeps.
#[local] Hint Resolve keeps_bus_ret keeps_bus_bind keeps_bus_vcpu keeps_bus_regs keeps_bus_read
  keeps_bus_write keeps_bus_inject : keeps.

Lemma keeps_bus_advance len : keeps_bus (advance_rip len).
Proof. unfold advance_rip, write_regs. auto with keeps. Qed.

Lemma keeps_bus_advance_rax len v : keeps_bus (advance_rip_with_rax len v).
Proof. unfold advance_rip_with_rax, write_regs. auto with keeps. Qed.

Lemma keeps_bus_serial_out p v : keeps_bus (serial_out p v).
Proof. by intros s r s' Hs [= <- <-]. Qed.

Lemma keeps_bus_serial_in p : keeps_bus (serial_in p).
Proof. intros s r s' Hs. unfold serial_in. destruct (pio_read _ _). by intros [= <- <-]. Qed.

#[local] Hint Resolve keeps_bus_advance keeps_bus_advance_rax keeps_bus_serial_out
  keeps_bus_serial_in : keeps.

Lemma keeps_bus_io io : keeps_bus (handle_io_port io).
Proof. unfold handle_io_port. repeat case_on; auto with keeps. Qed.

Lemma keeps_bus_mmio mmio : keeps_bus (handle_mmio mmio).
Proof.
  unfold RunLoop.handle_mmio. destruct (decode_mmio_instruction _) as [d|]; [|auto with keeps].
  destruct (mmio_is_write mmio).
  - unfold handle_mmio_write. apply keeps_bus_bind; [|intros; auto 8 with keeps].
    destruct (immediate d); auto with keeps.
  - unfold handle_mmio_read, write_regs. auto 8 with keeps.
Qed.

#[local] Hint Resolve keeps_bus_io keeps_bus_mmio : keeps.

Lemma keeps_bus_dispatch exit : keeps_bus (dispatch_exit overflow_checks dev_fuel exit).
Proof.
  unfold dispatch_exit. destruct exit; auto with keeps.
  - intros s r s' Hs. destruct (pending_irq s) as [v|]; [|by intros [= <- <-]].
    intros E. eapply keeps_bus_bind in E; [exact E|apply keeps_bus_vcpu|intros; apply keeps_bus_ret|done].
  - intros s r s' Hs. destruct (pending_irq s) as [v|]; [|by intros [= <- <-]].
    intros E. eapply keeps_bus_bind in E; [exact E|apply keeps_bus_vcpu|intros; apply keeps_bus_ret|done].
Qed.

Lemma keeps_bus_poll : keeps_bus loop_poll_devices.
Proof.
  intros s r s' Hs. unfold loop_poll_devices.
  pose proof (bus_poll_shape (ls_bus s) (ls_mem s) Hs) as [Hw Hsh].
  destruct (poll_devices _ _) as [[b m] irq]. simpl in Hw, Hsh. intros E.
  destruct (keeps_bus_inject irq (set_bus s b m) r s' Hw E) as [? E2]. split; [done|].
  rewrite E2. exact Hsh.
Qed.

#[local] Hint Resolve keeps_bus_dispatch keeps_bus_poll : keeps.

Lemma keeps_bus_step stop : keeps_bus (loop_step stop).
Proof. unfold RunLoop.loop_step. destruct stop; auto with keeps. Qed.

(** The instruction bytes of an exit hold the encoding of [i]. *)
Definition exit_of (mmio : MmioExit) (xb : Z) (i : Insn) : Prop :=
  0 <= xb < 4 /\ insn_wf i /\
  exists rest,
    take (Nat.min (Z.to_nat (mmio_instruction_byte_count mmio)) (length (mmio_instruction_bytes mmio)))
      (mmio_instruction_bytes mmio) = encode xb i ++ rest.

Lemma exit_of_decode mmio xb i :
  exit_of mmio xb i ->
  decode_mmio_instruction (take (Nat.min (Z.to_nat (mmio_instruction_byte_count mmio))
    (length (mmio_instruction_bytes mmio))) (mmio_instruction_bytes mmio)) =
  Some (meaning i (zlen (encode xb i))).
Proof. intros (Hx & Hi & rest & ->). by apply decode_meaning. Qed.

(** The value a store puts on the bus. *)
Definition store_value (regs : StandardRegs) (i : Insn) : option Z :=
  match i with
  | Store _ reg _ => Some (register_value regs reg)
  | StoreImm _ imm _ => Some imm
  | LoadReg _ _ _ => None
  end.

Definition insn_width (i : Insn) : Z :=
  match i with Store w _ _ | LoadReg w _ _ | StoreImm w _ _ => width_bytes w end.

Lemma set_bus_vcpu s b m : ls_vcpu (set_bus s b m) = ls_vcpu s.
Proof. done. Qed.

(** ** Properties *)

(** C40: A guest load from a device is emulated as an instruction: the destination
    register receives the device's bytes, zero-extended to 64 bits, RIP moves
    past exactly the instruction's bytes, every other register is kept; the
    device is read once, at the faulting address, with the operand's width. *)
Theorem mmio_load_emulated s mmio xb w reg o regs bus' data v :
  exit_of mmio xb (LoadReg w reg o) -> mmio_is_write mmio = false ->
  bus_read (ls_bus s) (mmio_gpa mmio) (replicate (Z.to_nat (width_bytes w)) 0) = Ok (bus', data) ->
  zlen data = width_bytes w -> get_regs (ls_vcpu s) = Ok regs ->
  let regs' := with_rip (set_register regs reg (from_le data)) (zlen (encode xb (LoadReg w reg o))) in
  set_regs (ls_vcpu s) regs' = (Ok tt, v) ->
  handle_mmio mmio s = (Ok tt, set_vcpu (set_bus s bus' (ls_mem s)) v) /\ get_regs v = Ok regs'.
Proof.
  intros Hx Hw Hrd Hlen Hg. cbv zeta. intros Hs.
  split; [|by eapply get_set_regs]. pose proof (width_bytes_range w).
  unfold RunLoop.handle_mmio. rewrite (exit_of_decode _ _ _ Hx), Hw.
  unfold handle_mmio_read. cbn [meaning size register instruction_len].
  rewrite Z.min_l by lia. rewrite loop_bind_unfold. unfold bus_read_op. rewrite Hrd. cbv beta iota.
  rewrite loop_bind_unfold. unfold read_regs. rewrite set_bus_vcpu, Hg. cbn [map_err].
  replace (from_le (splice 0 data (replicate 8 0))) with (from_le data); [by apply write_regs_ok|].
  unfold splice. rewrite drop_replicate. simpl. by rewrite from_le_zeros.
Qed.

(** A guest store to a device is emulated as an instruction: the device gets,
    once and at the faulting address, the low bytes of the register or the
    immediate, as many as the operand is wide; RIP moves past exactly the
    instruction's bytes; and the interrupt the device asks for is injected, or,
    if the vCPU refuses it, kept pending with an interrupt window requested. *)
Theorem mmio_store_emulated s mmio xb i regs value bus' mem' irq v :
  exit_of mmio xb i -> mmio_is_write mmio = true ->
  get_regs (ls_vcpu s) = Ok regs -> store_value regs i = Some value ->
  bus_write (ls_bus s) (ls_mem s) (mmio_gpa mmio)
    (take (Z.to_nat (insn_width i)) (le_bytes 8 value)) = Ok (bus', mem', irq) ->
  set_regs (ls_vcpu s) (with_rip regs (zlen (encode xb i))) = (Ok tt, v) ->
  let s1 := set_vcpu (set_bus s bus' mem') v in
  match irq with
  | None => handle_mmio mmio s = (Ok tt, s1)
  | Some vector =>
      let '(r, v1) := inject_interrupt v vector in
      if is_ok r then handle_mmio mmio s = (Ok tt, set_vcpu s1 v1)
      else
        let '(r', v2) := request_interrupt_window v1 in
        handle_mmio mmio s = (map_err LHal r', set_pending (set_vcpu s1 v2) (Some vector))
  end.
Proof.
  intros Hx Hw Hg Hv Hbw Hs. cbv zeta.
  assert (E : handle_mmio mmio s = inject_or_defer irq (set_vcpu (set_bus s bus' mem') v)).
  { unfold RunLoop.handle_mmio. rewrite (exit_of_decode _ _ _ Hx), Hw.
    unfold handle_mmio_write. rewrite loop_bind_unfold.
    assert (Hval : (match immediate (meaning i (zlen (encode xb i))) with
      | Some imm => mret imm
      | None => regs ← read_regs; mret (register_value regs (register (meaning i (zlen (encode xb i)))))
      end) s = (Ok value, s)).
    { destruct i; cbn [meaning immediate register store_value] in *; [|done|by injection Hv as ->].
      injection Hv as <-. rewrite loop_bind_unfold. unfold read_regs. by rewrite Hg. }
    rewrite Hval. rewrite loop_bind_unfold.
    assert (Hsz : Z.min (size (meaning i (zlen (encode xb i)))) 8 = insn_width i).
    { destruct i as [w ? ?|w ? ?|w ? ?]; simpl; pose proof (width_bytes_range w); lia. }
    rewrite Hsz. unfold bus_write_op. rewrite Hbw. rewrite loop_bind_unfold.
    replace (instruction_len (meaning i (zlen (encode xb i)))) with (zlen (encode xb i)) by (by destruct i).
    by rewrite (advance_rip_ok (set_bus s bus' mem') regs v). }
  rewrite E. exact (inject_or_defer_cases (set_vcpu (set_bus s bus' mem') v) irq).
Qed.

(** Port I/O: the eight COM1 ports reach the UART register of their offset, the
    PIC ports absorb writes and read zero, any other port reads 0xFF; an OUT
    only moves RIP, an IN also sets RAX, and no other device is touched. *)
Theorem io_port_emulated s io regs :
  0 <= io_port io -> get_regs (ls_vcpu s) = Ok regs ->
  let len := io_instruction_len io in
  let off := io_port io - COM1_BASE in
  let serial := handles_port (io_port io) in
  let u := if serial then
             if io_is_write io then (uart_write (ls_serial s) off (default 0 (io_data io !! 0%nat))).2
             else (uart_read (ls_serial s) off).2
           else ls_serial s in
  let value := if serial then (uart_read (ls_serial s) off).1
               else if bool_decide (io_port io ∈ PIC_PORTS) then 0 else 0xFF in
  let regs' := if io_is_write io then with_rip regs len
               else set_register (with_rip regs len) 0 value in
  (serial = true -> 0 <= off < 8) /\
  forall v, set_regs (ls_vcpu s) regs' = (Ok tt, v) ->
    handle_io_port io s = (Ok tt, set_vcpu (set_serial s u) v).
Proof.
  intros Hp Hg. cbv zeta. split.
  { unfold handles_port, COM1_BASE, UART_PORT_COUNT. intros Hh. b2p. lia. }
  intros v. unfold handle_io_port.
  destruct (handles_port (io_port io)) eqn:Eh.
  - assert (Ew : wrap 8 (io_port io - COM1_BASE) = io_port io - COM1_BASE).
    { apply wrap_small. unfold handles_port, COM1_BASE, UART_PORT_COUNT, in_range in *. b2p. lia. }
    destruct (io_is_write io); intros Hs; rewrite loop_bind_unfold.
    + unfold serial_out, pio_write. rewrite Ew. by apply (advance_rip_ok _ regs).
    + unfold serial_in, pio_read. rewrite Ew. destruct (uart_read _ _) as [x u]. simpl in Hs |- *.
      unfold advance_rip_with_rax. rewrite loop_bind_unfold. unfold read_regs. simpl. rewrite Hg.
      by apply write_regs_ok.
  - replace (set_serial s (ls_serial s)) with s by (by destruct s).
    destruct (bool_decide _), (io_is_write io); intros Hs;
      try (by apply (advance_rip_ok _ regs)); unfold advance_rip_with_rax; rewrite loop_bind_unfold;
      unfold read_regs; rewrite Hg; by apply write_regs_ok.
Qed.

(** Whatever the guest and the hypervisor do, and however the loop ends, the
    MMIO bus stays well-formed and its devices keep their address ranges. *)
Theorem run_loop_keeps_bus fuel stop_flag i s r s' :
  bus_wf (ls_bus s) -> run_vcpu_loop fuel stop_flag i s = Some (r, s') ->
  bus_wf (ls_bus s') /\ shape (ls_bus s') = shape (ls_bus s).
Proof.
  revert i s. induction fuel as [|fuel IH]; intros i s Hs; [done|]. cbn [RunLoop.run_vcpu_loop].
  destruct (loop_step (stop_flag i) s) as [[[reason|]|e] s1] eqn:E;
    destruct (keeps_bus_step _ s _ _ Hs E) as [Hs1 E1].
  - by intros [= <- <-].
  - intros E2. destruct (IH _ _ Hs1 E2) as [? ->]. done.
  - by intros [= <- <-].
Qed.

(** Cancellation: once a load of the stop flag sees it set, the loop has
    returned by that turn, whatever the guest does; and a turn that sees it set
    touches neither devices, memory nor vCPU. *)
Theorem run_loop_stops k fuel stop_flag i s :
  stop_flag (i + k)%nat = true -> (k < fuel)%nat ->
  (exists r s', run_vcpu_loop fuel stop_flag i s = Some (r, s')) /\
  (k = 0%nat -> run_vcpu_loop fuel stop_flag i s = Some (Ok Canceled, s)).
Proof.
  intros Hk Hf. split.
  - revert i s fuel Hk Hf. induction k as [|k IH]; intros i s fuel Hk Hf;
      (destruct fuel as [|fuel]; [lia|]); cbn [RunLoop.run_vcpu_loop].
    + rewrite Nat.add_0_r in Hk. rewrite Hk. simpl. eauto.
    + destruct (loop_step (stop_flag i) s) as [[[reason|]|e] s1]; eauto.
      apply IH; [|lia]. by replace (i + 1 + k)%nat with (i + S k)%nat by lia.
  - intros ->. rewrite Nat.add_0_r in Hk. destruct fuel as [|fuel]; [lia|].
    cbn [RunLoop.run_vcpu_loop]. by rewrite Hk.
Qed.

End RunLoopLemmas.

(** ** An example machine

    A scripted vCPU that takes interrupts only right after an interrupt-window
    exit, and devices that read as their vector and raise it on every write. *)

Record DemoVcpu := {
  dv_script : list VcpuExit;
  dv_regs : StandardRegs;
  dv_open : bool;
  dv_injected : list Z;
  dv_windows : nat;
}.

#[local] Instance demo_vcpu : Vcpu DemoVcpu := {
  vcpu_run v :=
    match dv_script v with
    | [] => (Err (VcpuRun ""), v)
    | e :: rest =>
        (Ok e, {| dv_script := rest; dv_regs := dv_regs v; dv_injected := dv_injected v;
                  dv_open := match e with ExitInterruptWindow => true | _ => false end;
                  dv_windows := dv_windows v |})
    end;
  get_regs v := Ok (dv_regs v);
  set_regs v regs :=
    (Ok tt, {| dv_script := dv_script v; dv_regs := regs; dv_injected := dv_injected v;
               dv_open := dv_open v; dv_windows := dv_windows v |});
  inject_interrupt v vector :=
    if dv_open v then
      (Ok tt, {| dv_script := dv_script v; dv_regs := dv_regs v;
                 dv_injected := dv_injected v ++ [vector]; dv_open := dv_open v;
                 dv_windows := dv_windows v |})
    else (Err (InjectInterrupt ""), v);
  request_interrupt_window v :=
    (Ok tt, {| dv_script := dv_script v; dv_regs := dv_regs v; dv_injected := dv_injected v;
               dv_open := dv_open v; dv_windows := S (dv_windows v) |});
}.

#[local] Instance demo_vcpu_laws : VcpuLaws DemoVcpu.
Proof. constructor. intros v regs v' E. by injection E as <-. Qed.

#[local] Instance demo_uart : Uart (list Z) := {
  uart_write l off v := (true, l ++ [off; v]);
  uart_read l off := (off, l);
}.

#[local] Instance vector_device : MmioDevice Z unit := {
  dev_mmio_read d _ data := (d, replicate (length data) d);
  dev_mmio_write _ d m _ _ := Ok (d, m, Some d);
  dev_poll_rx d m := (d, m, None);
}.

Definition vector_bus : @MmioBus Z :=
  {| slots := [{| slot_base := 0x1000; slot_size := 0x100; slot_device := 5 |};
               {| slot_base := 0x2000; slot_size := 0x100; slot_device := 6 |}] |}.

(** [mov dword \[rax\], ebx] at the given device address; [mov ebx, \[rax\]]. *)
Definition demo_exit (gpa : Z) (write : bool) : MmioExit :=
  {| mmio_gpa := gpa; mmio_data := replicate 8 0; mmio_len := 4; mmio_is_write := write;
     mmio_instruction_len := 0;
     mmio_instruction_bytes := [if write then 0x89 else 0x8B; 0x18] ++ replicate 14 0x90;
     mmio_instruction_byte_count := 16 |}.

Definition demo_state (script : list VcpuExit) : LoopState DemoVcpu (list Z) Z unit :=
  loop_init {| dv_script := script; dv_regs := StandardRegs_default; dv_open := false;
               dv_injected := []; dv_windows := 0 |} [] vector_bus tt.

(** [pending_irq] has room for one vector: when two devices raise interrupts
    while the guest cannot take them, the second displaces the first, which is
    never delivered. *)
Theorem deferred_interrupt_lost :
  let script := [ExitMmio (demo_exit 0x1000 true); ExitMmio (demo_exit 0x2000 true);
                 ExitInterruptWindow; ExitInterruptWindow; ExitHalt] in
  (fun '(r, s) => (r, dv_injected (ls_vcpu s), pending_irq s)) <$>
    run_vcpu_loop true 1 10 (fun _ => false) 0 (demo_state script) = Some (Ok Halt, [6], None).
Proof. vm_compute. reflexivity. Qed.

(** ** Witnesses *)

Lemma vector_bus_wf : bus_wf vector_bus.
Proof.
  eapply (register_wf true {| slots := [{| slot_base := 0x1000; slot_size := 0x100;
    slot_device := 5 |}] |} 0x2000 0x100 6); [|lia|lia|lia|vm_compute; reflexivity].
  eapply (register_wf true bus_new 0x1000 0x100 5); [apply bus_new_wf|lia|lia|lia|].
  vm_compute. reflexivity.
Qed.

Lemma mmio_load_emulated_witness :
  exists s', handle_mmio true 1 (demo_exit 0x2000 false) (demo_state []) = (Ok tt, s') /\
    rbx (dv_regs (ls_vcpu s')) = 0x06060606 /\ rip (dv_regs (ls_vcpu s')) = 2.
Proof.
  destruct (mmio_load_emulated true 1 (demo_state []) (demo_exit 0x2000 false) 0 W32 3 (Base 0)
    StandardRegs_default vector_bus [6; 6; 6; 6]
    (set_regs (ls_vcpu (demo_state []))
       (with_rip (set_register StandardRegs_default 3 0x06060606) 2)).2) as [E _].
  - split; [lia|]. split; [simpl; lia|]. exists (replicate 14 0x90). reflexivity.
  - reflexivity.
  - vm_compute. reflexivity.
  - reflexivity.
  - reflexivity.
  - reflexivity.
  - eexists. split; [exact E|]. split; reflexivity.
Defined.

Lemma mmio_store_emulated_witness :
  exists s', handle_mmio true 1 (demo_exit 0x1000 true) (demo_state []) = (Ok tt, s') /\
    pending_irq s' = Some 5 /\ dv_windows (ls_vcpu s') = 1%nat.
Proof.
  pose proof (mmio_store_emulated true 1 (demo_state []) (demo_exit 0x1000 true) 0
    (Store W32 3 (Base 0)) StandardRegs_default 0 vector_bus tt (Some 5)
    (set_regs (ls_vcpu (demo_state [])) (with_rip StandardRegs_default 2)).2) as E.
  eexists. split.
  - apply E.
    + split; [lia|]. split; [simpl; lia|]. exists (replicate 14 0x90). reflexivity.
    + reflexivity.
    + reflexivity.
    + reflexivity.
    + vm_compute. reflexivity.
    + reflexivity.
  - split; reflexivity.
Defined.

Lemma io_port_emulated_witness :
  exists s', handle_io_port {| io_port := 0x3F8; io_data := [72; 0; 0; 0]; io_len := 1;
      io_is_write := true; io_instruction_len := 1 |} (demo_state []) = (Ok tt, s') /\
    ls_serial s' = [0; 72].
Proof.
  pose proof (io_port_emulated (demo_state []) {| io_port := 0x3F8; io_data := [72; 0; 0; 0];
    io_len := 1; io_is_write := true; io_instruction_len := 1 |} StandardRegs_default) as E.
  specialize (E ltac:(simpl; lia) eq_refl). destruct E as [_ E].
  eexists. split; [apply E; reflexivity|]. reflexivity.
Defined.

Lemma run_loop_keeps_bus_witness :
  match run_vcpu_loop true 1 5 (fun _ => false) 0
          (demo_state [ExitMmio (demo_exit 0x1000 true); ExitHalt]) with
  | Some (r, s') => r = Ok Halt /\ bus_wf (ls_bus s')
  | None => False
  end.
Proof.
  assert (R : fst <$> run_vcpu_loop true 1 5 (fun _ => false) 0
    (demo_state [ExitMmio (demo_exit 0x1000 true); ExitHalt]) = Some (Ok Halt))
    by (vm_compute; reflexivity).
  destruct (run_vcpu_loop true 1 5 (fun _ => false) 0 _) as [[r s']|] eqn:E; [|discriminate R].
  split; [injection R as ->; reflexivity|].
  exact (proj1 (run_loop_keeps_bus true 1 5 (fun _ => false) 0
    (demo_state [ExitMmio (demo_exit 0x1000 true); ExitHalt]) r s' vector_bus_wf E)).
Defined.

Lemma run_loop_stops_witness :
  exists r s', run_vcpu_loop true 1 4 (fun i => Nat.eqb i 3) 0
    (demo_state [ExitCanceled; ExitCanceled; ExitCanceled; ExitCanceled]) = Some (r, s').
Proof.
  exact (proj1 (run_loop_stops true 1 3 4 (fun i => Nat.eqb i 3) 0
    (demo_state [ExitCanceled; ExitCanceled; ExitCanceled; ExitCanceled]) eq_refl ltac:(lia))).
Defined.
