(* ===== verification/PageTables.v ===== *)
(** * Identity-mapped page tables

    [hitz-boot/src/page_tables.rs]: the four-level tables of 2 MiB pages the
    guest boots with.  The specification is a walk of the tables as the
    processor makes it. *)

From Stdlib Require Import String.
From stdpp Require Import strings.
From S2P Require Import Prelude Hal Memory.

(** ** Errors of the boot crate *)

Inductive BootError : Type :=
| InvalidElf (msg : string)
| LoadSegment (gpa size : Z) (reason : string)
| WriteFailed (msg : string)
| InvalidBootParams (msg : string)
| InvalidPageTableConfig (msg : string).

(** ** Constants *)

Record MemWrite := { mw_gpa : Z; mw_data : list Z }.

Definition PML4_GPA : Z := 0x8000.
Definition PDPT_GPA : Z := 0x9000.
Definition PD_BASE_GPA : Z := 0xA000.
Definition PAGE_PRESENT : Z := Z.shiftl 1 0.
Definition PAGE_RW : Z := Z.shiftl 1 1.
Definition PAGE_SIZE_FLAG : Z := Z.shiftl 1 7.
Definition TABLE_FLAGS : Z := Z.lor PAGE_PRESENT PAGE_RW.
Definition HUGE_PAGE_FLAGS : Z := Z.lor (Z.lor PAGE_PRESENT PAGE_RW) PAGE_SIZE_FLAG.
Definition TABLE_SIZE : nat := Z.to_nat 4096.
Definition ENTRIES_PER_TABLE : nat := 512.
Definition HUGE_PAGE_SIZE : Z := 2 * 1024 * 1024.
Definition ONE_GIB : Z := 1024 * 1024 * 1024.
Definition MAX_GIB : Z := 512.

(** ** Construction *)

Definition write_entry (table : list Z) (index : nat) (value : Z) : list Z :=
  splice (index * 8) (le_bytes 8 value) table.

(** A loop [for i in 0..n { write_entry(&mut table, i, f(i)) }] over a zeroed
    table. *)
Definition fill_table (n : nat) (f : nat -> Z) : list Z :=
  foldl (fun t i => write_entry t i (f i)) (replicate TABLE_SIZE 0) (seq 0 n).

Definition pd_gpa (i : nat) : Z := PD_BASE_GPA + Z.of_nat i * 4096.

Definition pml4_table : list Z :=
  write_entry (replicate TABLE_SIZE 0) 0 (Z.lor PDPT_GPA TABLE_FLAGS).

Definition pdpt_table (gib_count : nat) : list Z :=
  fill_table gib_count (fun i => Z.lor (pd_gpa i) TABLE_FLAGS).

Definition pd_table (i : nat) : list Z :=
  fill_table ENTRIES_PER_TABLE (fun j =>
    Z.lor (Z.of_nat i * ONE_GIB + Z.of_nat j * HUGE_PAGE_SIZE) HUGE_PAGE_FLAGS).

Definition build_page_tables (gib_count : Z) : result BootError (Z * list MemWrite) :=
  if (gib_count =? 0) || (MAX_GIB <? gib_count) then
    Err (InvalidPageTableConfig
           ("gib_count must be in 1..=512, got " ++ fmt_dec gib_count)%string)
  else
    let n := Z.to_nat gib_count in
    Ok (PML4_GPA,
        {| mw_gpa := PML4_GPA; mw_data := pml4_table |} ::
        {| mw_gpa := PDPT_GPA; mw_data := pdpt_table n |} ::
        ((fun i => {| mw_gpa := pd_gpa i; mw_data := pd_table i |}) <$> seq 0 n)).

(** The loop of [setup_guest_memory] that puts the pages into guest memory. *)
Fixpoint write_pages (m : GuestMemory) (ws : list MemWrite) : result MemError GuestMemory :=
  match ws with
  | [] => Ok m
  | w :: ws' => m' ← write_slice m (mw_gpa w) (mw_data w); write_pages m' ws'
  end.

(** ** Specification: the processor's walk

    An entry is the quadword at its index; bits 39-47, 30-38 and 21-29 of the
    virtual address select the entries, and the page-directory entry must be a
    writable 2 MiB page. *)
Definition entry_at (m : GuestMemory) (table index : Z) : option Z :=
  res_ok (read_u64 m (table + 8 * index)).

Definition entry_present (e : Z) : bool := Z.testbit e 0 && Z.testbit e 1.

(** The physical address field of an entry, for pages of [2^s] bytes. *)
Definition entry_addr (s e : Z) : Z := (e mod 2 ^ 52) / 2 ^ s * 2 ^ s.

Definition walk (m : GuestMemory) (cr3 v : Z) : option Z :=
  pml4e ← entry_at m cr3 (v / 2 ^ 39 mod 512);
  if negb (entry_present pml4e) then None else
  pdpte ← entry_at m (entry_addr 12 pml4e) (v / 2 ^ 30 mod 512);
  if negb (entry_present pdpte) then None else
  pde ← entry_at m (entry_addr 12 pdpte) (v / 2 ^ 21 mod 512);
  if entry_present pde && Z.testbit pde 7 then Some (entry_addr 21 pde + v mod 2 ^ 21) else None.

(** The end of the area the tables occupy. *)
Definition tables_end (gib : Z) : Z := PD_BASE_GPA + gib * 4096.

(** Where [vm.rs] writes the kernel command line ([boot_params.rs]). *)
Definition CMDLINE_GPA : Z := 0x20000.

(** Demonstration RAM. *)
Definition demo_ram : GuestMemory := ram_at 0 0x40000.

(** The entries, by table and index. *)
Definition read_entry (table : list Z) (index : nat) : Z :=
  from_le (slice (index * 8) (index * 8 + 8) table).

Definition pdpt_entry (i : nat) : Z := Z.lor (pd_gpa i) TABLE_FLAGS.
Definition pd_entry (i j : nat) : Z :=
  Z.lor (Z.of_nat i * ONE_GIB + Z.of_nat j * HUGE_PAGE_SIZE) HUGE_PAGE_FLAGS.

(** All the pages are in memory. *)
Definition tables_loaded (m : GuestMemory) (n : nat) : Prop :=
  read_slice m PML4_GPA TABLE_SIZE = Ok pml4_table /\
  read_slice m PDPT_GPA TABLE_SIZE = Ok (pdpt_table n) /\
  forall i, (i < n)%nat -> read_slice m (pd_gpa i) TABLE_SIZE = Ok (pd_table i).

Definition page_before (w1 w2 : MemWrite) : Prop := mw_gpa w1 + zlen (mw_data w1) <= mw_gpa w2.

Definition page_fits (m : GuestMemory) (w : MemWrite) : Prop :=
  bytes_ok (mw_data w) /\ is_ok (read_slice m (mw_gpa w) (length (mw_data w))) = true.

Definition all_pages (n : nat) : list MemWrite :=
  {| mw_gpa := PML4_GPA; mw_data := pml4_table |} ::
  {| mw_gpa := PDPT_GPA; mw_data := pdpt_table n |} ::
  ((fun i => {| mw_gpa := pd_gpa i; mw_data := pd_table i |}) <$> seq 0 n).

(** ** Lemmas: one table *)

Lemma lor_low w k f : 0 <= w -> 0 <= k -> in_range w f -> Z.lor (k * 2 ^ w) f = k * 2 ^ w + f.
Proof.
  intros Hw Hk Hf. rewrite <- Z.shiftl_mul_pow2, Z.lor_comm by done.
  rewrite lor_shiftl_add by done. rewrite Z.shiftl_mul_pow2 by done. lia.
Qed.

Lemma write_entry_length t i v : (i < 512)%nat -> length t = TABLE_SIZE -> length (write_entry t i v) = TABLE_SIZE.
Proof.
  intros Hi Ht. unfold write_entry. rewrite length_splice; [done|].
  rewrite length_le_bytes, Ht. unfold TABLE_SIZE. lia.
Qed.

Lemma read_write_entry t i j v :
  (i < 512)%nat -> (j < 512)%nat -> length t = TABLE_SIZE -> u64 v ->
  read_entry (write_entry t i v) j = if decide (j = i) then v else read_entry t j.
Proof.
  intros Hi Hj Ht Hv. unfold read_entry, write_entry. unfold TABLE_SIZE in Ht.
  case_decide as E; [subst j|].
  - assert (Hl : length (le_bytes 8 v) = 8%nat) by apply length_le_bytes.
    rewrite <- Hl at 3. rewrite slice_splice_same by (rewrite Hl; lia).
    by apply from_le_le_bytes_id.
  - by rewrite slice_splice_disjoint by (rewrite ?length_le_bytes; lia).
Qed.

Lemma fill_table_spec n f :
  (n <= 512)%nat -> (forall i, (i < n)%nat -> u64 (f i)) ->
  length (fill_table n f) = TABLE_SIZE /\
  forall j, (j < 512)%nat -> read_entry (fill_table n f) j = if decide (j < n)%nat then f j else 0.
Proof.
  intros Hn Hf. unfold fill_table. induction n as [|n IH].
  - split; [apply length_replicate|]. intros j Hj. rewrite decide_False by lia.
    cbn [seq foldl]. unfold read_entry, slice, TABLE_SIZE. rewrite drop_replicate, take_replicate.
    replace (Nat.min _ _) with 8%nat by lia. done.
  - rewrite seq_S, foldl_app. simpl.
    destruct IH as [IH1 IH2]; [lia|intros; apply Hf; lia|].
    split; [apply write_entry_length; [lia|done]|]. intros j Hj.
    rewrite read_write_entry by (lia || done || (apply Hf; lia)).
    repeat case_decide; subst; try lia; rewrite ?IH2 by done; rewrite ?decide_True, ?decide_False by lia; done.
Qed.

Lemma lor_flags_present a f :
  Z.testbit f 0 = true -> Z.testbit f 1 = true -> entry_present (Z.lor a f) = true.
Proof. intros H0 H1. unfold entry_present. by rewrite !Z.lor_spec, H0, H1, !orb_true_r. Qed.

Lemma entry_addr_lor s k f :
  0 <= s -> 0 <= k -> in_range s f -> k * 2 ^ s + 2 ^ s <= 2 ^ 52 ->
  entry_addr s (Z.lor (k * 2 ^ s) f) = k * 2 ^ s.
Proof.
  intros Hs Hk Hf Hr. rewrite lor_low by done. unfold entry_addr, in_range in *.
  rewrite (Z.mod_small _ (2 ^ 52)) by lia.
  rewrite Z.div_add_l by lia. rewrite (Z.div_small f) by done. lia.
Qed.

Lemma bytes_ok_zeroes n : bytes_ok (replicate n 0).
Proof. apply Forall_replicate. unfold in_range. lia. Qed.

Lemma fill_table_bytes n f : bytes_ok (fill_table n f).
Proof.
  unfold fill_table. generalize (bytes_ok_zeroes TABLE_SIZE). generalize (replicate TABLE_SIZE 0).
  induction (seq 0 n) as [|i l IH]; intros t Ht; [done|]. cbn [foldl]. apply IH.
  apply bytes_ok_splice; [apply le_bytes_ok|done].
Qed.

Lemma pd_gpa_page i : pd_gpa i = (10 + Z.of_nat i) * 2 ^ 12.
Proof. unfold pd_gpa, PD_BASE_GPA. lia. Qed.

Lemma pd_frame i j : Z.of_nat i * ONE_GIB + Z.of_nat j * HUGE_PAGE_SIZE = (512 * Z.of_nat i + Z.of_nat j) * 2 ^ 21.
Proof. unfold ONE_GIB, HUGE_PAGE_SIZE. lia. Qed.

Lemma lor_page_u64 s k f :
  0 <= s -> 0 <= k -> in_range s f -> k * 2 ^ s + 2 ^ s <= 2 ^ 52 -> u64 (Z.lor (k * 2 ^ s) f).
Proof. intros. rewrite lor_low by done. unfold in_range in *. lia. Qed.

Lemma pml4_table_spec :
  length pml4_table = TABLE_SIZE /\ bytes_ok pml4_table /\
  forall j, (j < 512)%nat -> read_entry pml4_table j = if decide (j = 0)%nat then Z.lor PDPT_GPA TABLE_FLAGS else 0.
Proof.
  destruct (fill_table_spec 1 (fun _ => Z.lor PDPT_GPA TABLE_FLAGS)) as [Hl Hr]; [lia|by intros|].
  split_and!; [exact Hl|exact (fill_table_bytes 1 (fun _ => Z.lor PDPT_GPA TABLE_FLAGS))|].
  intros j Hj. etrans; [exact (Hr j Hj)|]. repeat case_decide; lia.
Qed.

Lemma pdpt_table_spec n :
  (n <= 512)%nat ->
  length (pdpt_table n) = TABLE_SIZE /\
  forall j, (j < 512)%nat -> read_entry (pdpt_table n) j = if decide (j < n)%nat then pdpt_entry j else 0.
Proof.
  intros Hn. apply fill_table_spec; [done|]. intros i Hi. rewrite pd_gpa_page.
  apply lor_page_u64; [lia..|decided|lia].
Qed.

Lemma pd_table_spec i :
  (i < 512)%nat ->
  length (pd_table i) = TABLE_SIZE /\
  forall j, (j < 512)%nat -> read_entry (pd_table i) j = pd_entry i j.
Proof.
  intros Hi. destruct (fill_table_spec 512 (pd_entry i)) as [Hl Hr]; [done| |].
  - intros j Hj. unfold pd_entry. rewrite pd_frame. apply lor_page_u64; [lia..|decided|lia].
  - split; [exact Hl|]. intros j Hj. etrans; [exact (Hr j Hj)|]. by rewrite decide_True.
Qed.

(** ** Lemmas: the walk *)

Section Walk.
Context (m : GuestMemory) (n : nat).
Hypothesis (Hwf : memory_wf m) (Hn : (1 <= n <= 512)%nat) (Ht : tables_loaded m n).

Lemma entry_at_table g table i :
  read_slice m g TABLE_SIZE = Ok table -> 0 <= i < 512 ->
  entry_at m g i = Some (read_entry table (Z.to_nat i)).
Proof.
  intros Hr Hi. unfold entry_at, read_u64.
  replace (g + 8 * i) with (g + Z.of_nat (Z.to_nat i * 8)) by lia.
  erewrite read_slice_sub; [|done|exact Hr|unfold TABLE_SIZE; lia]. done.
Qed.

Lemma walk_pml4 i :
  0 <= i < 512 -> entry_at m PML4_GPA i = Some (if decide (i = 0) then Z.lor PDPT_GPA TABLE_FLAGS else 0).
Proof.
  intros Hi. destruct pml4_table_spec as (_ & _ & Hr). destruct Ht as (H1 & _).
  rewrite (entry_at_table _ _ _ H1 Hi), Hr by lia. repeat case_decide; lia || done.
Qed.

Lemma walk_pdpt i :
  0 <= i < 512 ->
  entry_at m PDPT_GPA i = Some (if decide (i < Z.of_nat n) then pdpt_entry (Z.to_nat i) else 0).
Proof.
  intros Hi. destruct (pdpt_table_spec n) as (_ & Hr); [lia|]. destruct Ht as (_ & H2 & _).
  rewrite (entry_at_table _ _ _ H2 Hi), Hr by lia. repeat case_decide; lia || done.
Qed.

Lemma walk_pd i j :
  (i < n)%nat -> 0 <= j < 512 -> entry_at m (pd_gpa i) j = Some (pd_entry i (Z.to_nat j)).
Proof.
  intros Hi Hj. destruct (pd_table_spec i) as (_ & Hr); [lia|]. destruct Ht as (_ & _ & H3).
  by rewrite (entry_at_table _ _ _ (H3 i Hi) Hj), Hr by lia.
Qed.

Lemma walk_loaded v :
  0 <= v < 2 ^ 48 ->
  walk m PML4_GPA v = if decide (v < Z.of_nat n * ONE_GIB) then Some v else None.
Proof.
  intros Hv. unfold walk.
  rewrite walk_pml4 by divlia. cbn [mbind option_bind].
  rewrite (Z.mod_small (v / 2 ^ 39)) by divlia.
  destruct (decide (v / 2 ^ 39 = 0)) as [H0|H0].
  2:{ rewrite decide_False; [done|]. unfold ONE_GIB. intros Hlt. apply H0. apply Z.div_small. lia. }
  assert (Hv' : v < 2 ^ 39) by divlia.
  rewrite lor_flags_present by done. cbn [negb].
  replace (entry_addr 12 (Z.lor PDPT_GPA TABLE_FLAGS)) with PDPT_GPA by reflexivity.
  rewrite walk_pdpt by divlia. cbn [mbind option_bind].
  rewrite (Z.mod_small (v / 2 ^ 30)) by divlia.
  destruct (decide (v / 2 ^ 30 < Z.of_nat n)) as [H1|H1].
  2:{ rewrite decide_False; [done|]. unfold ONE_GIB. divlia. }
  rewrite (decide_True (P := v < _)) by (unfold ONE_GIB; divlia).
  unfold pdpt_entry. rewrite lor_flags_present by done. cbn [negb].
  rewrite pd_gpa_page, entry_addr_lor by (divlia || decided). rewrite <- pd_gpa_page.
  rewrite walk_pd by divlia. cbn [mbind option_bind]. unfold pd_entry.
  rewrite lor_flags_present by done. rewrite Z.lor_spec.
  replace (Z.testbit HUGE_PAGE_FLAGS 7) with true by reflexivity. rewrite orb_true_r. cbn [andb].
  rewrite pd_frame, entry_addr_lor by (divlia || decided). f_equal. divlia.
Qed.

End Walk.

(** ** Lemmas: putting the pages in memory *)

Lemma all_pages_bytes n : Forall (fun w => bytes_ok (mw_data w)) (all_pages n).
Proof.
  constructor; [apply pml4_table_spec|]. constructor; [apply fill_table_bytes|].
  apply Forall_fmap, Forall_forall. intros i _. apply fill_table_bytes.
Qed.

#[local] Opaque pml4_table pdpt_table pd_table TABLE_SIZE.

Lemma write_pages_spec ws m :
  memory_wf m -> Forall (page_fits m) ws -> StronglySorted page_before ws ->
  exists m', write_pages m ws = Ok m' /\ memory_wf m' /\ regions m' = regions m /\
    (forall w, w ∈ ws -> read_slice m' (mw_gpa w) (length (mw_data w)) = Ok (mw_data w)) /\
    (forall g k, Forall (fun w => disjoint_range (mw_gpa w) (zlen (mw_data w)) g (Z.of_nat k)) ws ->
       read_slice m' g k = read_slice m g k).
Proof.
  revert m. induction ws as [|w ws IH]; intros m Hwf Hf Hs.
  { exists m. split_and!; [done..| |done]. intros w Hw. by apply elem_of_nil in Hw. }
  apply Forall_cons in Hf as [[Hb Hr] Hf]. apply StronglySorted_inv in Hs as [Hs Hhd].
  cbn [write_pages]. pose proof Hr as Hw. rewrite <- write_slice_is_ok in Hw.
  destruct (write_slice m (mw_gpa w) (mw_data w)) as [m1|] eqn:E; [|done].
  pose proof (write_slice_regions _ _ _ _ E) as Hreg.
  destruct (write_slice_bytes _ _ _ _ Hwf Hb E) as [Hwf1 _].
  destruct (IH m1) as (m' & E' & Hwf' & Hreg' & Hin & Hout); [done| |done|].
  { eapply Forall_impl; [exact Hf|]. intros w' [? ?]. split; [done|].
    by rewrite (read_slice_is_ok m1 m). }
  exists m'. cbn [mbind result_bind]. split_and!; [done|done|congruence| |].
  - intros w' [->|Hw']%elem_of_cons; [|by apply Hin].
    rewrite Hout; [exact (read_slice_write_same _ _ _ _ Hwf Hb E)|].
    eapply Forall_impl; [exact Hhd|]. intros w2 H2. unfold page_before, zlen in H2. right. lia.
  - intros g k [Hd Hds]%Forall_cons. rewrite Hout by done.
    exact (read_slice_write_disjoint _ _ _ _ _ _ Hwf Hb E Hd).
Qed.

Lemma write_pages_app ws1 ws2 m m1 :
  write_pages m ws1 = Ok m1 -> write_pages m (ws1 ++ ws2) = write_pages m1 ws2.
Proof.
  revert m. induction ws1 as [|w ws IH]; intros m; [by intros [= ->]|]. cbn [write_pages app].
  destruct (write_slice m _ _) as [m2|]; [|done]. apply IH.
Qed.

Lemma all_pages_length n : (n <= 512)%nat -> Forall (fun w => length (mw_data w) = TABLE_SIZE) (all_pages n).
Proof.
  intros Hn. constructor; [apply pml4_table_spec|]. constructor; [by apply pdpt_table_spec|].
  apply Forall_fmap, Forall_forall. intros i Hi. apply elem_of_seq in Hi. apply pd_table_spec. lia.
Qed.

Lemma all_pages_sorted n : (n <= 512)%nat -> StronglySorted page_before (all_pages n).
Proof.
  intros Hn.
  assert (H1 : zlen pml4_table = 4096) by (unfold zlen; by rewrite (proj1 pml4_table_spec)).
  assert (H2 : zlen (pdpt_table n) = 4096) by (unfold zlen; by rewrite (proj1 (pdpt_table_spec n Hn))).
  assert (Hpd : forall i, (i < n)%nat -> zlen (pd_table i) = 4096).
  { intros i Hi. unfold zlen. by rewrite (proj1 (pd_table_spec i ltac:(lia))). }
  unfold all_pages. constructor; [constructor|].
  - assert (Hgen : forall a k, (a + k <= n)%nat -> StronglySorted page_before
      ((fun i => {| mw_gpa := pd_gpa i; mw_data := pd_table i |}) <$> seq a k)); [|exact (Hgen 0%nat n (le_n n))].
    intros a k. revert a. induction k as [|k IH]; intros a Hk; [constructor|].
    cbn [seq fmap list_fmap]. constructor; [apply IH; lia|].
    apply Forall_fmap, Forall_forall. intros i Hi%elem_of_seq. unfold page_before. cbn.
    rewrite Hpd by lia. unfold pd_gpa. lia.
  - apply Forall_fmap, Forall_forall. intros i Hi. unfold page_before. cbn.
    rewrite H2. unfold pd_gpa, PDPT_GPA, PD_BASE_GPA. lia.
  - apply Forall_cons. unfold page_before. cbn.
    rewrite H1. split; [unfold PDPT_GPA, PML4_GPA; lia|].
    apply Forall_fmap, Forall_forall. intros i Hi. cbn. unfold pd_gpa, PML4_GPA, PD_BASE_GPA. lia.
Qed.

Lemma all_pages_range n w :
  w ∈ all_pages n -> PML4_GPA <= mw_gpa w /\ mw_gpa w + 4096 <= tables_end (Z.of_nat n).
Proof.
  unfold all_pages, tables_end, PML4_GPA, PD_BASE_GPA, PDPT_GPA.
  intros [->|[->|(i & -> & Hi%elem_of_seq)%list_elem_of_fmap]%elem_of_cons]%elem_of_cons; cbn; [lia..|].
  unfold pd_gpa, PD_BASE_GPA. lia.
Qed.

Lemma build_page_tables_Ok gib :
  1 <= gib <= 512 -> build_page_tables gib = Ok (PML4_GPA, all_pages (Z.to_nat gib)).
Proof.
  intros Hg. unfold build_page_tables, MAX_GIB.
  rewrite (proj2 (Z.eqb_neq gib 0)), (proj2 (Z.ltb_ge 512 gib)) by lia. done.
Qed.

(** Loading the tables of [n] GiB where the area can be written. *)
Lemma write_pages_loaded m n :
  memory_wf m -> (1 <= n <= 512)%nat ->
  (forall g k, PML4_GPA <= g -> g + Z.of_nat k <= tables_end (Z.of_nat n) -> is_ok (read_slice m g k) = true) ->
  exists m', write_pages m (all_pages n) = Ok m' /\ memory_wf m' /\ regions m' = regions m /\
    tables_loaded m' n /\
    (forall g k, disjoint_range PML4_GPA (tables_end (Z.of_nat n) - PML4_GPA) g (Z.of_nat k) ->
       read_slice m' g k = read_slice m g k).
Proof.
  intros Hwf Hn Hm. pose proof (all_pages_length n ltac:(lia)) as HL. rewrite Forall_forall in HL.
  pose proof (all_pages_bytes n) as HB. rewrite Forall_forall in HB.
  assert (HT : Z.of_nat TABLE_SIZE = 4096) by done.
  destruct (write_pages_spec (all_pages n) m) as (m' & E & Hwf' & Hreg & Hin & Hout);
    [done| |apply all_pages_sorted; lia|].
  { apply Forall_forall. intros w Hw. split; [by apply HB|]. rewrite HL by done.
    apply all_pages_range in Hw. apply Hm; lia. }
  exists m'. split_and!; [done..| |].
  - assert (Hin' : forall g d, {| mw_gpa := g; mw_data := d |} ∈ all_pages n -> read_slice m' g TABLE_SIZE = Ok d).
    { intros g d Hw. rewrite <- (HL _ Hw). exact (Hin _ Hw). }
    split_and!; [apply Hin'; unfold all_pages; rewrite !elem_of_cons; tauto..|].
    intros i Hi. apply Hin'. unfold all_pages. rewrite !elem_of_cons, list_elem_of_fmap.
    right. right. exists i. rewrite elem_of_seq. split; [done|lia].
  - intros g k Hd. apply Hout. apply Forall_forall. intros w Hw. unfold zlen. rewrite (HL _ Hw), HT.
    apply all_pages_range in Hw. unfold disjoint_range in *. lia.
Qed.

(** A write beside the tables leaves them loaded. *)
Lemma tables_loaded_frame m n g d m' :
  memory_wf m -> bytes_ok d -> write_slice m g d = Ok m' -> (1 <= n)%nat ->
  disjoint_range g (zlen d) PML4_GPA (tables_end (Z.of_nat n) - PML4_GPA) ->
  tables_loaded m n -> tables_loaded m' n.
Proof.
  intros Hwf Hb Hw Hn Hd (H1 & H2 & H3).
  assert (HT : Z.of_nat TABLE_SIZE = 4096) by done.
  assert (Hk : forall t, PML4_GPA <= t -> t + 4096 <= tables_end (Z.of_nat n) ->
     read_slice m' t TABLE_SIZE = read_slice m t TABLE_SIZE).
  { intros t Ht1 Ht2. apply (read_slice_write_disjoint _ _ _ _ _ _ Hwf Hb Hw).
    unfold disjoint_range in *. lia. }
  split_and!; unfold tables_end, PML4_GPA, PDPT_GPA, PD_BASE_GPA in *; [rewrite Hk by lia; done..|]. intros i Hi.
  rewrite Hk; [by apply H3|unfold pd_gpa, PD_BASE_GPA; lia..].
Qed.

(** Entries beside a write, and the first entry of a page of text. *)
Lemma entry_at_frame m g d m' t i :
  memory_wf m -> bytes_ok d -> write_slice m g d = Ok m' -> t + 8 * i + 8 <= g ->
  entry_at m' t i = entry_at m t i.
Proof.
  intros Hwf Hb Hw Hd. unfold entry_at, read_u64.
  rewrite (read_slice_write_disjoint _ _ _ _ _ _ Hwf Hb Hw); [done|]. right. lia.
Qed.

Lemma entry_at_text m g c d m' :
  memory_wf m -> bytes_ok (c :: d) -> write_slice m g (c :: d) = Ok m' -> 8 <= zlen (c :: d) ->
  c < 128 -> exists e, entry_at m' g 0 = Some e /\ Z.testbit e 7 = false.
Proof.
  intros Hwf Hb Hw Hl Hc. pose proof (read_slice_write_same _ _ _ _ Hwf Hb Hw) as Hr.
  destruct (write_slice_bytes _ _ _ _ Hwf Hb Hw) as [Hwf' _].
  apply (read_slice_sub _ _ _ _ 0 8) in Hr; [|done|unfold zlen in Hl; lia].
  unfold entry_at, read_u64. replace (g + 8 * 0) with (g + Z.of_nat 0) by lia. rewrite Hr.
  eexists. split; [reflexivity|]. apply Forall_cons in Hb as [[Hc0 _] _].
  unfold slice. change (0 + 8 - 0)%nat with 8%nat. cbn [drop take from_le].
  rewrite <- (Z.mod_pow2_bits_low _ 8) by lia. change (2 ^ 8) with 256.
  rewrite Z.mul_comm, Z.mod_add by lia. rewrite Z.mod_small by lia.
  apply (testbit_high 7); [lia|unfold in_range; lia|lia].
Qed.

(** ** Properties *)

(** C30: The tables of a guest with 1 to 512 GiB, loaded into any guest memory that
    can hold them, translate every canonical lower-half address below the
    guest's size to itself and nothing above it; loading them changes no other
    memory. *)
Theorem page_tables_identity m gib :
  memory_wf m -> 1 <= gib <= 512 ->
  (forall g k, PML4_GPA <= g -> g + Z.of_nat k <= tables_end gib -> is_ok (read_slice m g k) = true) ->
  exists ws m',
    build_page_tables gib = Ok (PML4_GPA, ws) /\ write_pages m ws = Ok m' /\ memory_wf m' /\
    (forall v, 0 <= v < 2 ^ 48 ->
       walk m' PML4_GPA v = if decide (v < gib * ONE_GIB) then Some v else None) /\
    (forall g k, disjoint_range PML4_GPA (tables_end gib - PML4_GPA) g (Z.of_nat k) ->
       read_slice m' g k = read_slice m g k).
Proof.
  intros Hwf Hg Hm. rewrite <- (Z2Nat.id gib) in * by lia. set (n := Z.to_nat gib) in *.
  destruct (write_pages_loaded m n) as (m' & E & Hwf' & _ & Ht & Hout); [done|lia|done|].
  exists (all_pages n), m'. split_and!; [|done|done| |done].
  - rewrite build_page_tables_Ok by lia. by rewrite Nat2Z.id.
  - intros v Hv. apply walk_loaded; (done || lia).
Qed.

(** [build_page_tables] refuses exactly the counts a single PDPT cannot map. *)
Theorem page_tables_error gib :
  is_err (build_page_tables gib) = true <-> gib = 0 \/ 512 < gib.
Proof.
  unfold build_page_tables, MAX_GIB. case_on; b2p; [|split; [done|b2p; lia]].
  split; [|done]. intros _. apply orb_true_iff in Heqb as [?|?]; b2p; lia.
Qed.

(** The command line, written at 0x20000 after the tables, leaves the mapping
    as it was for guests of up to 22 GiB. *)
Theorem cmdline_keeps_tables m gib cmdline m' v :
  memory_wf m -> 1 <= gib <= 22 -> tables_loaded m (Z.to_nat gib) -> bytes_ok cmdline ->
  write_slice m CMDLINE_GPA cmdline = Ok m' -> 0 <= v < 2 ^ 48 ->
  walk m' PML4_GPA v = walk m PML4_GPA v.
Proof.
  intros Hwf Hg Ht Hb Hw Hv.
  assert (Ht' : tables_loaded m' (Z.to_nat gib)).
  { eapply tables_loaded_frame; [exact Hwf|exact Hb|exact Hw|lia| |exact Ht].
    unfold disjoint_range, tables_end, CMDLINE_GPA, PML4_GPA, PD_BASE_GPA. lia. }
  destruct (write_slice_bytes _ _ _ _ Hwf Hb Hw) as [Hwf' _].
  by rewrite (walk_loaded m' (Z.to_nat gib)), (walk_loaded m (Z.to_nat gib)) by (done || lia).
Qed.

(** From 23 GiB on, the command line overwrites the page directory of the 23rd
    GiB: any ASCII command line of at least eight bytes leaves the GiB at 22 GiB
    without a translation, although the guest has that memory. *)
Theorem cmdline_unmaps_gib_22 m gib c cmdline m' :
  memory_wf m -> 23 <= gib <= 512 -> tables_loaded m (Z.to_nat gib) ->
  bytes_ok (c :: cmdline) -> c < 128 -> 8 <= zlen (c :: cmdline) ->
  write_slice m CMDLINE_GPA (c :: cmdline) = Ok m' ->
  walk m PML4_GPA (22 * ONE_GIB) = Some (22 * ONE_GIB) /\
  walk m' PML4_GPA (22 * ONE_GIB) = None.
Proof.
  intros Hwf Hg Ht Hb Hc Hl Hw. split.
  - rewrite (walk_loaded m (Z.to_nat gib)) by (done || unfold ONE_GIB; lia).
    by rewrite decide_True by (unfold ONE_GIB; lia).
  - destruct (entry_at_text _ _ _ _ _ Hwf Hb Hw Hl Hc) as (e & He & H7).
    unfold walk. change (22 * ONE_GIB / 2 ^ 39 mod 512) with 0.
    change (22 * ONE_GIB / 2 ^ 30 mod 512) with 22. change (22 * ONE_GIB / 2 ^ 21 mod 512) with 0.
    rewrite (entry_at_frame _ _ _ _ _ _ Hwf Hb Hw) by (unfold PML4_GPA, CMDLINE_GPA; lia).
    rewrite (walk_pml4 m (Z.to_nat gib)), decide_True by (done || lia). cbn [mbind option_bind].
    rewrite lor_flags_present by done. cbn [negb].
    replace (entry_addr 12 (Z.lor PDPT_GPA TABLE_FLAGS)) with PDPT_GPA by reflexivity.
    rewrite (entry_at_frame _ _ _ _ _ _ Hwf Hb Hw) by (unfold PDPT_GPA, CMDLINE_GPA; lia).
    rewrite (walk_pdpt m (Z.to_nat gib)), decide_True by (done || lia). cbn [mbind option_bind].
    unfold pdpt_entry. rewrite lor_flags_present by done. cbn [negb].
    replace (entry_addr 12 _) with CMDLINE_GPA by reflexivity.
    rewrite He. cbn [mbind option_bind]. by rewrite H7, andb_false_r.
Qed.

(** ** Witnesses *)

Lemma demo_ram_wf : memory_wf demo_ram.
Proof. apply ram_at_wf; [lia..|]. vm_compute. reflexivity. Qed.

Lemma demo_ram_regions :
  regions demo_ram = [{| gpa_start := 0; region_size := 0x40000; hva := {| ptr_block := 1; ptr_offset := 0 |} |}].
Proof. vm_compute. reflexivity. Qed.

Lemma demo_readable m g k :
  memory_wf m -> regions m = regions demo_ram -> 0 <= g -> g + Z.of_nat k <= 0x40000 ->
  is_ok (read_slice m g k) = true.
Proof.
  intros Hwf Hr Hg Hk. rewrite <- (is_ok_map_err (fun e => GuestMem g (MemError_to_string e))).
  rewrite demo_ram_regions in Hr.
  eapply in_region_readable; [exact Hwf|rewrite Hr; apply elem_of_cons; by left|exact Hg|simpl; lia].
Qed.

(** Demonstration RAM with the tables of [n] GiB and a command line. *)
Lemma demo_loaded n :
  (1 <= n <= 23)%nat ->
  exists m, memory_wf m /\ tables_loaded m n /\
    forall d, zlen d <= 4096 -> exists m', write_slice m CMDLINE_GPA d = Ok m'.
Proof.
  intros Hn. destruct (write_pages_loaded demo_ram n) as (m & _ & Hwf & Hr & Ht & _);
    [apply demo_ram_wf|lia| |].
  - intros g k Hg Hk. unfold PML4_GPA, tables_end, PD_BASE_GPA in *.
    apply demo_readable; [apply demo_ram_wf|done|lia..].
  - exists m. split_and!; [done..|]. intros d Hd.
    assert (Hok : is_ok (write_slice m CMDLINE_GPA d) = true).
    { rewrite write_slice_is_ok. unfold zlen, CMDLINE_GPA in *. apply demo_readable; [done|done|lia..]. }
    destruct (write_slice m CMDLINE_GPA d) as [m'|]; [by exists m'|done].
Qed.

Lemma page_tables_identity_witness :
  exists ws m', build_page_tables 2 = Ok (PML4_GPA, ws) /\ write_pages demo_ram ws = Ok m' /\
    walk m' PML4_GPA 0x7FFFFFFF = Some 0x7FFFFFFF /\ walk m' PML4_GPA 0x80000000 = None.
Proof.
  destruct (page_tables_identity demo_ram 2) as (ws & m' & Hb & Hw & _ & Hv & _); [apply demo_ram_wf|lia| |].
  - intros g k Hg Hk. unfold PML4_GPA, tables_end, PD_BASE_GPA in *.
    apply demo_readable; [apply demo_ram_wf|done|lia..].
  - exists ws, m'. split_and!; [done..| |]; rewrite Hv by lia; [by rewrite decide_True|by rewrite decide_False].
Defined.

Lemma cmdline_keeps_tables_witness :
  exists m m', write_slice m CMDLINE_GPA [99; 111; 110; 0] = Ok m' /\
    walk m' PML4_GPA 0x40000000 = walk m PML4_GPA 0x40000000.
Proof.
  destruct (demo_loaded 22) as (m & Hwf & Ht & Hw); [lia|].
  destruct (Hw [99; 111; 110; 0]) as [m' Hm']; [by vm_compute|].
  exists m, m'. split; [done|].
  eapply (cmdline_keeps_tables m 22 [99; 111; 110; 0] m'); [done|lia|exact Ht|decided|done|lia].
Defined.

Lemma cmdline_unmaps_gib_22_witness :
  exists m m', write_slice m CMDLINE_GPA [99; 111; 110; 115; 111; 108; 101; 61; 0] = Ok m' /\
    walk m PML4_GPA (22 * ONE_GIB) = Some (22 * ONE_GIB) /\ walk m' PML4_GPA (22 * ONE_GIB) = None.
Proof.
  destruct (demo_loaded 23) as (m & Hwf & Ht & Hw); [lia|].
  destruct (Hw [99; 111; 110; 115; 111; 108; 101; 61; 0]) as [m' Hm']; [by vm_compute|].
  exists m, m'. split; [done|].
  eapply (cmdline_unmaps_gib_22 m 23 99 [111; 110; 115; 111; 108; 101; 61; 0] m');
    [done|lia|exact Ht|decided|lia|by vm_compute|done].
Defined.
