(* ===== verification/Cpio.v ===== *)
(** * The initramfs archive

    [hitz-boot/src/cpio.rs]: the newc archive builder.  The specification is a
    reader of the format, written from its documentation and not from the
    builder. *)

From Stdlib Require Import String.
From stdpp Require Import strings.
From S2P Require Import Prelude.

(** ** Builder *)

Record CpioBuilder := { cpio_data : list Z; cpio_inode : Z }.

Definition cpio_new : CpioBuilder := {| cpio_data := []; cpio_inode := 1 |}.

(** [{:08x}] of a [u32]: eight lower-case hexadecimal digits. *)
Definition hex_char (d : Z) : Z := if d <? 10 then 48 + d else 87 + d.

Fixpoint hex_digits_be (n : nat) (v : Z) : list Z :=
  match n with
  | O => []
  | S n' => hex_digits_be n' (v / 16) ++ [hex_char (v mod 16)]
  end.

Definition hex8 (v : Z) : list Z := hex_digits_be 8 v.

(** ["070701"]. *)
Definition cpio_magic : list Z := [48; 55; 48; 55; 48; 49].

(** ["TRAILER!!!"]. *)
Definition trailer_name : list Z := [84; 82; 65; 73; 76; 69; 82; 33; 33; 33].

(** The thirteen numbers of the [write!] call. *)
Definition header_fields (inode mode filesize32 namesize32 : Z) : list Z :=
  [inode; mode; 0; 0; 1; 0; filesize32; 0; 0; 0; 0; namesize32; 0].

Definition cpio_header (inode mode filesize32 namesize32 : Z) : list Z :=
  cpio_magic ++ concat (hex8 <$> header_fields inode mode filesize32 namesize32).

Definition pad4 (n : nat) : nat := ((4 - n mod 4) mod 4)%nat.

(** [None] is a panic: the failed [assert_eq!], or [inode += 1] out of range
    with overflow checks. *)
Definition append_entry (overflow_checks : bool) (b : CpioBuilder) (name content : list Z) (mode : Z) :
    option CpioBuilder :=
  let namesize := (length name + 1)%nat in
  let filesize := length content in
  let header := cpio_header (cpio_inode b) mode (wrap 32 (Z.of_nat filesize)) (wrap 32 (Z.of_nat namesize)) in
  if negb (length header =? 110)%nat then None else
  inode ← op_add overflow_checks 32 (cpio_inode b) 1;
  Some {| cpio_data := cpio_data b ++ header ++ name ++ [0] ++
                       replicate (pad4 (110 + namesize)) 0 ++ content ++
                       replicate (pad4 filesize) 0;
          cpio_inode := inode |}.

(** [0o100_000 | (mode & 0o7777)]. *)
Definition file_mode (mode : Z) : Z := Z.lor 0x8000 (Z.land mode 0xFFF).

Definition add_file (oc : bool) (b : CpioBuilder) (path content : list Z) (mode : Z) : option CpioBuilder :=
  append_entry oc b path content (file_mode mode).

Definition finish (oc : bool) (b : CpioBuilder) : option (list Z) :=
  cpio_data <$> append_entry oc b trailer_name [] 0.

(** A chain [CpioBuilder::new().add_file(..)...finish()]. *)
Record CpioFile := { cf_path : list Z; cf_content : list Z; cf_mode : Z }.

Definition add_files (oc : bool) (b : CpioBuilder) (fs : list CpioFile) : option CpioBuilder :=
  foldl (fun ob f => b ← ob; add_file oc b (cf_path f) (cf_content f) (cf_mode f)) (Some b) fs.

Definition build_archive (oc : bool) (fs : list CpioFile) : option (list Z) :=
  b ← add_files oc cpio_new fs; finish oc b.

(** [hitz-daemon/src/agent.rs]: the overlay with the guest agent and its init
    script. *)
Definition bytes_of (s : string) : list Z := (fun c => Z.of_nat (Ascii.nat_of_ascii c)) <$> list_ascii_of_string s.

Definition INIT_SCRIPT : list Z :=
  bytes_of "#!/bin/sh" ++ [10] ++ bytes_of "/sbin/hitz-agent &" ++ [10].

Definition build_agent_overlay (oc : bool) (agent_bytes : list Z) : option (list Z) :=
  build_archive oc
    [{| cf_path := bytes_of "sbin/hitz-agent"; cf_content := agent_bytes; cf_mode := 0x1ED |};
     {| cf_path := bytes_of "etc/init.d/S99hitz-agent"; cf_content := INIT_SCRIPT; cf_mode := 0x1ED |}].

(** ** Specification: a reader of newc archives *)

Record CpioEntry := { ce_ino : Z; ce_mode : Z; ce_nlink : Z; ce_name : list Z; ce_data : list Z }.

Definition hex_value (c : Z) : option Z :=
  if (48 <=? c) && (c <=? 57) then Some (c - 48)
  else if (97 <=? c) && (c <=? 102) then Some (c - 87)
  else if (65 <=? c) && (c <=? 70) then Some (c - 55)
  else None.

Definition parse_hex (l : list Z) : option Z :=
  foldl (fun acc c => v ← acc; d ← hex_value c; Some (16 * v + d)) (Some 0) l.

(** The [n] eight-digit numbers at the start of a list. *)
Fixpoint parse_fields (n : nat) (l : list Z) : option (list Z) :=
  match n with
  | O => Some []
  | S n' =>
      if (length l <? 8)%nat then None else
      v ← parse_hex (take 8 l); vs ← parse_fields n' (drop 8 l); Some (v :: vs)
  end.

(** [n] bytes and the padding to the next multiple of four, counted from
    [start] bytes into the entry. *)
Definition take_padded (start n : nat) (l : list Z) : option (list Z * list Z) :=
  if (length l <? n + pad4 (start + n))%nat then None
  else Some (take n l, drop (n + pad4 (start + n)) l).

Definition parse_entry (l : list Z) : option (CpioEntry * list Z) :=
  if negb (bool_decide (take 6 l = cpio_magic)) then None else
  fields ← parse_fields 13 (drop 6 l);
  match fields with
  | [ino; mode; _; _; nlink; _; filesize; _; _; _; _; namesize; _] =>
      '(name, l1) ← take_padded 110 (Z.to_nat namesize) (drop 110 l);
      if negb (bool_decide (last name = Some 0)) then None else
      '(data, l2) ← take_padded 0 (Z.to_nat filesize) l1;
      Some ({| ce_ino := ino; ce_mode := mode; ce_nlink := nlink;
               ce_name := removelast name; ce_data := data |}, l2)
  | _ => None
  end.

(** The entries up to the trailer, and what follows it: the kernel goes on with
    the next archive there. *)
Fixpoint parse_archive (fuel : nat) (l : list Z) : option (list CpioEntry * list Z) :=
  match fuel with
  | O => None
  | S fuel' =>
      '(e, l') ← parse_entry l;
      if bool_decide (ce_name e = trailer_name) then
        Some ([], l')
      else '(es, k) ← parse_archive fuel' l'; Some (e :: es, k)
  end.

(** The entry a file must read back as, the [i]-th of the archive. *)
Definition entry_of (ino : Z) (f : CpioFile) : CpioEntry :=
  {| ce_ino := ino; ce_mode := file_mode (cf_mode f); ce_nlink := 1;
     ce_name := cf_path f; ce_data := cf_content f |}.

Definition entries_of (ino : Z) (fs : list CpioFile) : list CpioEntry :=
  imap (fun i f => entry_of (ino + Z.of_nat i) f) fs.

(** The bytes one entry adds. *)
Definition entry_bytes (ino : Z) (name content : list Z) (mode : Z) : list Z :=
  cpio_header ino mode (wrap 32 (zlen content)) (wrap 32 (Z.of_nat (length name + 1))) ++
  name ++ [0] ++ replicate (pad4 (110 + (length name + 1))) 0 ++ content ++
  replicate (pad4 (length content)) 0.

(** Sizes that fit the format's 32-bit fields, and a name that is not the
    trailer's. *)
Definition file_ok (f : CpioFile) : Prop :=
  zlen (cf_path f) + 1 < 2 ^ 32 /\ zlen (cf_content f) < 2 ^ 32 /\ cf_path f <> trailer_name /\
  0 <= cf_mode f.

(** ** Lemmas: hexadecimal numbers *)

Lemma hex_value_char d : 0 <= d < 16 -> hex_value (hex_char d) = Some d.
Proof.
  intros Hd. unfold hex_char. case_on; b2p; unfold hex_value.
  - rewrite (proj2 (Z.leb_le 48 _)), (proj2 (Z.leb_le _ 57)) by lia. simpl. f_equal. lia.
  - rewrite (proj2 (Z.leb_gt _ 57)), andb_false_r by lia.
    rewrite (proj2 (Z.leb_le 97 _)), (proj2 (Z.leb_le _ 102)) by lia. simpl. f_equal. lia.
Qed.

Lemma length_hex_digits n v : length (hex_digits_be n v) = n.
Proof. revert v. induction n; intros v; simpl; [done|]. rewrite length_app, IHn. simpl. lia. Qed.

Lemma parse_hex_digits n v : 0 <= v < 16 ^ Z.of_nat n -> parse_hex (hex_digits_be n v) = Some v.
Proof.
  revert v. induction n as [|n IH]; intros v Hv; [change (16 ^ Z.of_nat 0) with 1 in Hv; assert (v = 0) as -> by lia; done|].
  rewrite Nat2Z.inj_succ, Z.pow_succ_r in Hv by lia.
  cbn [hex_digits_be]. unfold parse_hex in *. rewrite foldl_app, IH by (divlia). cbn [foldl mbind option_bind].
  rewrite hex_value_char by (divlia). simpl. f_equal.
  divlia.
Qed.

Lemma parse_hex8 v : u32 v -> parse_hex (hex8 v) = Some v.
Proof. intros Hv. apply parse_hex_digits. exact Hv. Qed.

Lemma parse_fields_hex vs l :
  Forall u32 vs -> parse_fields (length vs) (concat (hex8 <$> vs) ++ l) = Some vs.
Proof.
  induction 1 as [|v vs Hv Hvs IH]; [done|].
  cbn [length parse_fields fmap list_fmap concat]. rewrite <- app_assoc.
  assert (Hl : length (hex8 v) = 8%nat) by apply length_hex_digits.
  rewrite length_app, Hl. rewrite (proj2 (Nat.ltb_ge _ _)) by lia.
  rewrite take_app_length', drop_app_length', parse_hex8 by done. cbn [mbind option_bind]. by rewrite IH.
Qed.

Lemma length_header ino mode fs ns : length (cpio_header ino mode fs ns) = 110%nat.
Proof. reflexivity. Qed.

(** ** Lemmas: entries *)

Lemma take_padded_app start l k :
  take_padded start (length l) (l ++ replicate (pad4 (start + length l)) 0 ++ k) = Some (l, k).
Proof.
  unfold take_padded. rewrite !length_app, length_replicate.
  rewrite (proj2 (Nat.ltb_ge _ _)) by lia. f_equal. f_equal.
  - by rewrite take_app_length.
  - rewrite app_assoc. rewrite drop_app_length'; [done|]. rewrite length_app, length_replicate. lia.
Qed.

Lemma file_mode_range mode : 0 <= mode -> u32 (file_mode mode).
Proof.
  intros Hm. unfold file_mode. apply lor_range; [lia|decided|]. rewrite Z.land_comm.
  apply land_range; [lia|decided|done].
Qed.

Lemma parse_appended ino mode name content k :
  u32 ino -> u32 mode -> zlen name + 1 < 2 ^ 32 -> zlen content < 2 ^ 32 ->
  parse_entry (entry_bytes ino name content mode ++ k) =
  Some ({| ce_ino := ino; ce_mode := mode; ce_nlink := 1; ce_name := name; ce_data := content |}, k).
Proof.
  intros Hi Hm Hn Hc. unfold zlen in Hn. unfold entry_bytes. rewrite <- !app_assoc.
  rewrite (wrap_small 32 (zlen content)) by (unfold in_range, zlen in *; lia).
  rewrite (wrap_small 32 (Z.of_nat (length name + 1))) by (unfold in_range; lia).
  unfold parse_entry.
  set (h := cpio_header _ _ _ _). set (r := name ++ _).
  replace (take 6 (h ++ r)) with cpio_magic by reflexivity. rewrite bool_decide_true by done. cbn [negb].
  replace (drop 6 (h ++ r)) with
    (concat (hex8 <$> header_fields ino mode (zlen content) (Z.of_nat (length name + 1))) ++ r) by reflexivity.
  rewrite (parse_fields_hex (header_fields _ _ _ _)).
  2:{ unfold header_fields. repeat constructor; unfold in_range, zlen in *; try lia; apply Hi || apply Hm. }
  cbn [mbind option_bind header_fields]. rewrite (drop_app_length' h r) by reflexivity.
  rewrite Nat2Z.id. subst r. rewrite (app_assoc name).
  replace (length name + 1)%nat with (length (name ++ [0])) by (rewrite length_app; done).
  rewrite take_padded_app. cbn [mbind option_bind].
  rewrite last_snoc, bool_decide_true by done. cbn [negb].
  unfold zlen. rewrite Nat2Z.id. rewrite (take_padded_app 0). cbn [mbind option_bind].
  by rewrite removelast_last.
Qed.

Lemma append_entry_ok oc b name content mode :
  0 <= cpio_inode b -> cpio_inode b + 1 < 2 ^ 32 ->
  append_entry oc b name content mode =
  Some {| cpio_data := cpio_data b ++ entry_bytes (cpio_inode b) name content mode;
          cpio_inode := cpio_inode b + 1 |}.
Proof.
  intros H0 H1. unfold append_entry. rewrite length_header. cbn [negb Nat.eqb].
  replace (op_add oc 32 (cpio_inode b) 1) with (Some (cpio_inode b + 1)); [done|].
  unfold op_add. destruct oc; [by rewrite checked_add_ok|].
  unfold wrapping_add. by rewrite wrap_small by (unfold in_range; lia).
Qed.

Lemma pad4_mult n : ((n + pad4 n) mod 4 = 0)%nat.
Proof. unfold pad4. divlia. Qed.

Lemma entry_bytes_aligned ino name content mode :
  (length (entry_bytes ino name content mode) mod 4 = 0)%nat.
Proof.
  unfold entry_bytes. rewrite !length_app, length_header, !length_replicate. cbn [length].
  pose proof (pad4_mult (110 + (length name + 1))) as H1. pose proof (pad4_mult (length content)) as H2.
  divlia.
Qed.

Lemma entries_of_cons ino f fs : entries_of ino (f :: fs) = entry_of ino f :: entries_of (ino + 1) fs.
Proof.
  unfold entries_of. simpl. f_equal; [by rewrite Z.add_0_r|].
  apply imap_ext. intros i f' _. unfold compose, entry_of. f_equal. lia.
Qed.

(** What [add_files] appends, and that it reads back. *)
Lemma add_files_spec oc fs b :
  Forall file_ok fs -> 0 <= cpio_inode b -> cpio_inode b + zlen fs < 2 ^ 32 ->
  exists l, add_files oc b fs =
      Some {| cpio_data := cpio_data b ++ l; cpio_inode := cpio_inode b + zlen fs |} /\
    (length l mod 4 = 0)%nat /\
    forall fuel k, parse_archive (length fs + fuel) (l ++ k) =
      ('(es, k') ← parse_archive fuel k; Some (entries_of (cpio_inode b) fs ++ es, k')).
Proof.
  intros Hf. revert b. induction Hf as [|f fs Hok Hf IH]; intros b H0 Hn.
  { exists []. split_and!; [|done|].
    - unfold add_files. simpl. destruct b. simpl. by rewrite app_nil_r, zlen_nil, Z.add_0_r.
    - intros fuel k. simpl. by destruct (parse_archive fuel k) as [[]|]. }
  rewrite zlen_cons in *. pose proof (zlen_nonneg fs). destruct Hok as (Hp & Hc & Ht & Hm).
  unfold add_files. cbn [foldl mbind option_bind]. unfold add_file.
  rewrite append_entry_ok by lia.
  set (e := entry_bytes _ _ _ _).
  destruct (IH {| cpio_data := cpio_data b ++ e; cpio_inode := cpio_inode b + 1 |}) as (l & E & Hl & Hr);
    [simpl; lia..|]. unfold add_files, add_file in E. rewrite E. exists (e ++ l). split_and!.
  - simpl. rewrite <- app_assoc. do 2 f_equal. lia.
  - rewrite length_app. pose proof (entry_bytes_aligned (cpio_inode b) (cf_path f) (cf_content f) (file_mode (cf_mode f))).
    fold e in H1. divlia.
  - intros fuel k. rewrite <- app_assoc. cbn [length Nat.add parse_archive]. subst e.
    rewrite parse_appended by (done || apply file_mode_range, Hm || (unfold in_range; lia)).
    cbn [mbind option_bind ce_name]. rewrite bool_decide_false by done. rewrite Hr.
    destruct (parse_archive fuel k) as [[es k']|]; [|done]. by rewrite entries_of_cons.
Qed.

Lemma trailer_reads ino fuel k :
  u32 ino -> parse_archive (S fuel) (entry_bytes ino trailer_name [] 0 ++ k) = Some ([], k).
Proof.
  intros Hi. cbn [parse_archive]. rewrite parse_appended by (done || decided).
  cbn [mbind option_bind ce_name]. by rewrite bool_decide_true.
Qed.

Lemma build_archive_spec oc fs :
  Forall file_ok fs -> zlen fs + 2 < 2 ^ 32 ->
  exists l, build_archive oc fs = Some l /\ (length l mod 4 = 0)%nat /\
    forall k, parse_archive (length fs + 1) (l ++ k) = Some (entries_of 1 fs, k).
Proof.
  intros Hf Hn. pose proof (zlen_nonneg fs).
  destruct (add_files_spec oc fs cpio_new Hf) as (l & E & Hl & Hr); [simpl; lia..|].
  unfold build_archive. rewrite E. cbn [mbind option_bind]. unfold finish.
  rewrite append_entry_ok by (simpl; lia). eexists. split; [reflexivity|]. cbn [cpio_data cpio_inode cpio_new app].
  split.
  - rewrite length_app. pose proof (entry_bytes_aligned (1 + zlen fs) trailer_name [] 0). divlia.
  - intros k. rewrite <- app_assoc, Hr, trailer_reads by (unfold in_range; lia). simpl. by rewrite app_nil_r.
Qed.

(** ** Properties *)

(** C31: Archives round-trip: for files whose sizes fit the format, building never
    panics, the archive is a multiple of four bytes long, and a reader of the
    format gets back every path, content and mode, in order, numbered from 1,
    and stops exactly where an appended archive would begin. *)
Theorem cpio_roundtrip oc fs :
  Forall file_ok fs -> zlen fs + 2 < 2 ^ 32 ->
  exists l, build_archive oc fs = Some l /\ (length l mod 4 = 0)%nat /\
    forall k, parse_archive (length fs + 1) (l ++ k) = Some (entries_of 1 fs, k).
Proof. apply build_archive_spec. Qed.

(** The overlay injected for the guest agent holds the agent under
    [sbin/hitz-agent] and its init script, both executable regular files
    (mode 0o100755), for any agent binary below 4 GiB. *)
Theorem agent_overlay_contents oc agent :
  zlen agent < 2 ^ 32 ->
  exists l, build_agent_overlay oc agent = Some l /\
    parse_archive 3 l =
      Some ([{| ce_ino := 1; ce_mode := 0x81ED; ce_nlink := 1; ce_name := bytes_of "sbin/hitz-agent"; ce_data := agent |};
             {| ce_ino := 2; ce_mode := 0x81ED; ce_nlink := 1; ce_name := bytes_of "etc/init.d/S99hitz-agent";
                ce_data := INIT_SCRIPT |}], []).
Proof.
  intros Ha. unfold build_agent_overlay. edestruct build_archive_spec as (l & E & _ & Hr); [| |].
  3:{ exists l. split; [exact E|]. specialize (Hr []). rewrite app_nil_r in Hr. exact Hr. }
  - repeat constructor; simpl; done || lia.
  - done.
Qed.

(** ** Witnesses *)

Lemma cpio_roundtrip_witness :
  exists l, build_archive true [{| cf_path := [105; 110; 105; 116]; cf_content := [1; 2; 3]; cf_mode := 0x1ED |}] = Some l /\
    parse_archive 2 (l ++ [9]) =
      Some ([{| ce_ino := 1; ce_mode := 0x81ED; ce_nlink := 1; ce_name := [105; 110; 105; 116]; ce_data := [1; 2; 3] |}], [9]).
Proof.
  destruct (cpio_roundtrip true [{| cf_path := [105; 110; 105; 116]; cf_content := [1; 2; 3]; cf_mode := 0x1ED |}])
    as (l & E & _ & Hr); [repeat constructor; simpl; done || lia|by vm_compute|].
  exists l. split; [exact E|exact (Hr [9])].
Defined.

Lemma agent_overlay_contents_witness :
  exists l, build_agent_overlay false [127; 69; 76; 70] = Some l /\
    option_map (fun p => length (fst p)) (parse_archive 3 l) = Some 2%nat.
Proof.
  destruct (agent_overlay_contents false [127; 69; 76; 70]) as (l & E & Hr); [by vm_compute|].
  exists l. split; [exact E|]. by rewrite Hr.
Defined.
