(* ===== verification/Loader.v ===== *)
(** * Loading the kernel and the initramfs

    [hitz-boot/src/loader.rs] and [initramfs.rs]: the ELF loader and the
    placement of the archive after it.  The guest memory is the writer both are
    given; addresses and offsets are [u64] and [usize] is 64 bits wide. *)

From Stdlib Require Import String.
From stdpp Require Import strings.
From S2P Require Import Prelude Hal Memory PageTables.

(** ** The [GuestMemWriter] trait *)

Class GuestMemWriter (W : Type) := {
  writer_bytes : W -> Z -> list Z -> result BootError unit * W;
  writer_zeroes : W -> Z -> Z -> result BootError unit * W;
}.

#[export] Instance GuestMemory_writer : GuestMemWriter GuestMemory := {
  writer_bytes m gpa data :=
    match write_bytes m gpa data with
    | Ok m' => (Ok tt, m')
    | Err e => (Err (WriteFailed e), m)
    end;
  writer_zeroes m gpa len :=
    let '(r, m') := write_zeroes m gpa len in (map_err WriteFailed r, m');
}.

(** ** The loader's effects

    A function that returns a [Result], writes through the writer and may panic
    ([None]). *)
Definition Boot (W A : Type) : Type := W -> option (result BootError A * W).

#[export] Instance boot_ret W : MRet (Boot W) := fun A a w => Some (Ok a, w).
#[export] Instance boot_bind W : MBind (Boot W) :=
  fun A B f m w =>
    match m w with
    | Some (Ok a, w') => f a w'
    | Some (Err e, w') => Some (Err e, w')
    | None => None
    end.

(** Pure steps: an error to propagate, an addition that may panic. *)
Definition try_ {W A} (r : result BootError A) : Boot W A := fun w => Some (r, w).
Definition or_panic {W A} (o : option A) : Boot W A := fun w => (fun a => (Ok a, w)) <$> o.
Definition writes {W A} (f : W -> result BootError A * W) : Boot W A := fun w => Some (f w).

(** ** ELF structures *)

Definition ELF_MAGIC : list Z := [0x7F; 69; 76; 70].
Definition ELFCLASS64 : Z := 2.
Definition ELFDATA2LSB : Z := 1.
Definition EM_X86_64 : Z := 62.
Definition PT_LOAD : Z := 1.
Definition ELF_HEADER_SIZE : Z := 64.
Definition PROGRAM_HEADER_SIZE : Z := 56.

Record Elf64Header := { e_entry : Z; e_phoff : Z; e_phentsize : Z; e_phnum : Z }.
Record Elf64Phdr := { p_type : Z; p_offset : Z; p_paddr : Z; p_filesz : Z; p_memsz : Z }.

Record KernelLoadResult := { kernel_load : Z; kernel_end : Z; entry_point : Z }.

Section Loader.
Context {W : Type} `{GuestMemWriter W}.
Variable overflow_checks : bool.

Notation "'BOOT' A" := (Boot W A) (at level 10, A at level 9).
Notation "a +! b" := (or_panic (op_add overflow_checks 64 a b)) (at level 50).

(** ** Parsing *)

(** [data.get(a..b)]. *)
Definition get_range (data : list Z) (a b : Z) : option (list Z) :=
  if (a <=? b) && (b <=? zlen data) then Some (slice (Z.to_nat a) (Z.to_nat b) data) else None.

(** [read_u16], [read_u32] and [read_u64], which differ in [n] only. *)
Definition elf_read (n : Z) (data : list Z) (offset : Z) : BOOT Z :=
  end_ ← offset +! n;
  bytes ← try_ (ok_or (get_range data offset end_) (InvalidElf ("truncated at offset " ++ fmt_hex offset)%string));
  mret (from_le bytes).

Definition byte_of (data : list Z) (i : nat) : Z := data !!! i.

Definition parse_elf_header (data : list Z) : BOOT Elf64Header :=
  if zlen data <? ELF_HEADER_SIZE then
    try_ (Err (InvalidElf ("file too small (" ++ fmt_dec (zlen data) ++ " bytes, need at least 64)")%string))
  else if negb (bool_decide (slice 0 4 data = ELF_MAGIC)) then
    try_ (Err (InvalidElf "bad ELF magic"))
  else if negb (byte_of data 4 =? ELFCLASS64) then
    try_ (Err (InvalidElf ("not ELF64 (class = " ++ fmt_dec (byte_of data 4) ++ ")")%string))
  else if negb (byte_of data 5 =? ELFDATA2LSB) then
    try_ (Err (InvalidElf ("not little-endian (data = " ++ fmt_dec (byte_of data 5) ++ ")")%string))
  else
    machine ← elf_read 2 data 18;
    if negb (machine =? EM_X86_64) then
      try_ (Err (InvalidElf ("not x86_64 (e_machine = " ++ fmt_dec machine ++ ")")%string))
    else
      entry ← elf_read 8 data 24;
      phoff ← elf_read 8 data 32;
      phentsize ← elf_read 2 data 54;
      phnum ← elf_read 2 data 56;
      mret {| e_entry := entry; e_phoff := phoff; e_phentsize := phentsize; e_phnum := phnum |}.

Definition parse_program_header (data : list Z) (base : Z) : BOOT Elf64Phdr :=
  end_ ← base +! PROGRAM_HEADER_SIZE;
  if zlen data <? end_ then
    try_ (Err (InvalidElf ("program header at " ++ fmt_hex base ++ " extends past end of file")%string))
  else
    ty ← elf_read 4 data base;
    o8 ← base +! 8; offset ← elf_read 8 data o8;
    o24 ← base +! 24; paddr ← elf_read 8 data o24;
    o32 ← base +! 32; filesz ← elf_read 8 data o32;
    o40 ← base +! 40; memsz ← elf_read 8 data o40;
    mret {| p_type := ty; p_offset := offset; p_paddr := paddr; p_filesz := filesz; p_memsz := memsz |}.

(** ** Loading *)

(** The locals [min_addr], [max_addr] and [loaded_any]. *)
Record LoadBounds := { min_addr : option Z; max_addr : Z; loaded_any : bool }.

Definition copy_file_part (kernel : list Z) (ph : Elf64Phdr) : BOOT unit :=
  if 0 <? p_filesz ph then
    end_ ← try_ (ok_or (checked_add 64 (p_offset ph) (p_filesz ph)) (InvalidElf "segment offset overflow"));
    data ← try_ (ok_or (get_range kernel (p_offset ph) end_)
                   (LoadSegment (p_paddr ph) (p_filesz ph) "segment data extends past end of file"));
    writes (fun w => writer_bytes w (p_paddr ph) data)
  else mret tt.

Definition zero_bss (ph : Elf64Phdr) : BOOT unit :=
  if p_filesz ph <? p_memsz ph then
    bss_start ← try_ (ok_or (checked_add 64 (p_paddr ph) (p_filesz ph)) (InvalidElf "segment offset overflow"));
    bss_len ← try_ (ok_or (checked_sub (p_memsz ph) (p_filesz ph)) (InvalidElf "segment offset overflow"));
    writes (fun w => writer_zeroes w bss_start bss_len)
  else mret tt.

(** One turn of [load_elf]'s loop. *)
Definition load_segment (kernel : list Z) (hdr : Elf64Header) (acc : LoadBounds) (i : Z) : BOOT LoadBounds :=
  ph_offset ← try_ (ok_or (checked_add 64 (e_phoff hdr) (i * e_phentsize hdr))
                       (InvalidElf "program header offset overflow"));
  ph ← parse_program_header kernel ph_offset;
  if negb (p_type ph =? PT_LOAD) then mret acc
  else
    _ ← copy_file_part kernel ph;
    _ ← zero_bss ph;
    seg_end ← try_ (ok_or (checked_add 64 (p_paddr ph) (p_memsz ph)) (InvalidElf "segment offset overflow"));
    mret {| min_addr := Some (from_option (fun cur => Z.min cur (p_paddr ph)) (p_paddr ph) (min_addr acc));
            max_addr := if max_addr acc <? seg_end then seg_end else max_addr acc;
            loaded_any := true |}.

Fixpoint load_segments (kernel : list Z) (hdr : Elf64Header) (acc : LoadBounds) (idxs : list nat) :
    BOOT LoadBounds :=
  match idxs with
  | [] => mret acc
  | i :: idxs' => acc' ← load_segment kernel hdr acc (Z.of_nat i); load_segments kernel hdr acc' idxs'
  end.

Definition load_elf (kernel : list Z) : BOOT KernelLoadResult :=
  hdr ← parse_elf_header kernel;
  acc ← load_segments kernel hdr {| min_addr := None; max_addr := 0; loaded_any := false |}
          (seq 0 (Z.to_nat (e_phnum hdr)));
  if negb (loaded_any acc) then try_ (Err (InvalidElf "no PT_LOAD segments found"))
  else
    load_addr ← try_ (ok_or (min_addr acc) (InvalidElf "unreachable"));
    mret {| kernel_load := load_addr; kernel_end := max_addr acc; entry_point := e_entry hdr |}.

(** ** Initramfs *)

Record InitramfsLoadResult := { ir_gpa : Z; ir_size : Z }.

Definition load_initramfs (data : list Z) (kernel_end ram_size : Z) : BOOT InitramfsLoadResult :=
  match data with
  | [] => try_ (Err (InvalidBootParams "initramfs data is empty"))
  | _ =>
      sum ← kernel_end +! 0xFFF;
      let initramfs_gpa := gpa_page_base sum in
      end_gpa ← initramfs_gpa +! zlen data;
      if ram_size <? end_gpa then
        try_ (Err (InvalidBootParams ("initramfs at " ++ fmt_hex initramfs_gpa ++ " + " ++ fmt_hex (zlen data) ++
                                      " bytes exceeds RAM size " ++ fmt_hex ram_size)%string))
      else
        _ ← writes (fun w => writer_bytes w initramfs_gpa data);
        mret {| ir_gpa := initramfs_gpa; ir_size := zlen data |}
  end.

End Loader.

(** ** Specification *)

(** The little-endian number of [n] bytes at an offset of the file. *)
Definition field (n : Z) (data : list Z) (off : Z) : Z :=
  from_le (slice (Z.to_nat off) (Z.to_nat (off + n)) data).

Definition header_ok (kernel : list Z) : bool :=
  (64 <=? zlen kernel) && bool_decide (slice 0 4 kernel = ELF_MAGIC) && (byte_of kernel 4 =? ELFCLASS64) &&
  (byte_of kernel 5 =? ELFDATA2LSB) && (field 2 kernel 18 =? EM_X86_64).

Definition header_of (kernel : list Z) : Elf64Header :=
  {| e_entry := field 8 kernel 24; e_phoff := field 8 kernel 32;
     e_phentsize := field 2 kernel 54; e_phnum := field 2 kernel 56 |}.

Definition phdr_at (kernel : list Z) (base : Z) : Elf64Phdr :=
  {| p_type := field 4 kernel base; p_offset := field 8 kernel (base + 8);
     p_paddr := field 8 kernel (base + 24); p_filesz := field 8 kernel (base + 32);
     p_memsz := field 8 kernel (base + 40) |}.

Definition phdr_base (hdr : Elf64Header) (i : nat) : Z := e_phoff hdr + Z.of_nat i * e_phentsize hdr.

(** The segments to load, in the order of the program headers. *)
Definition segments_of (kernel : list Z) (hdr : Elf64Header) (idxs : list nat) : list Elf64Phdr :=
  filter (fun ph => p_type ph = PT_LOAD) ((fun i => phdr_at kernel (phdr_base hdr i)) <$> idxs).

Definition elf_segments (kernel : list Z) : list Elf64Phdr :=
  segments_of kernel (header_of kernel) (seq 0 (Z.to_nat (e_phnum (header_of kernel)))).

(** The byte at [x] once a segment is loaded over a byte [b]: file contents,
    then zeros up to [memsz]. *)
Definition seg_byte (kernel : list Z) (x : Z) (b : option Z) (ph : Elf64Phdr) : option Z :=
  if (p_paddr ph <=? x) && (x <? p_paddr ph + p_filesz ph) then kernel !! Z.to_nat (p_offset ph + (x - p_paddr ph))
  else if (p_paddr ph + p_filesz ph <=? x) && (x <? p_paddr ph + p_memsz ph) then Some 0
  else b.

(** The memory image: later segments over earlier ones, over what was there. *)
Definition image (kernel : list Z) (segs : list Elf64Phdr) (old : Z -> option Z) (x : Z) : option Z :=
  foldl (seg_byte kernel x) (old x) segs.

Definition seg_end (ph : Elf64Phdr) : Z := p_paddr ph + Z.max (p_filesz ph) (p_memsz ph).

(** A file that loads into a memory with a region [lo, hi): the headers are in
    the file, every segment's bytes are, and its addresses in the region. *)
Definition elf_fits (kernel : list Z) (lo hi : Z) : Prop :=
  header_ok kernel = true /\
  (forall i, (i < Z.to_nat (e_phnum (header_of kernel)))%nat ->
     phdr_base (header_of kernel) i + 56 <= zlen kernel) /\
  elf_segments kernel <> [] /\
  Forall (fun ph => p_offset ph + p_filesz ph <= zlen kernel /\ lo <= p_paddr ph /\ seg_end ph <= hi)
    (elf_segments kernel).

Definition phdr_wf (ph : Elf64Phdr) : Prop :=
  u64 (p_offset ph) /\ u64 (p_paddr ph) /\ u64 (p_filesz ph) /\ u64 (p_memsz ph).

Definition lowest (segs : list Elf64Phdr) (lo : Z) : Prop :=
  Forall (fun ph => lo <= p_paddr ph) segs /\ Exists (fun ph => p_paddr ph = lo) segs.

Definition highest (segs : list Elf64Phdr) (hi : Z) : Prop :=
  Forall (fun ph => p_paddr ph + p_memsz ph <= hi) segs /\ Exists (fun ph => p_paddr ph + p_memsz ph = hi) segs.

(** A file with one program header and [data] after it. *)
Definition demo_elf (phoff paddr filesz memsz : Z) (data : list Z) : list Z :=
  ELF_MAGIC ++ [2; 1] ++ replicate 12 0 ++ le_bytes 2 62 ++ replicate 4 0 ++ le_bytes 8 paddr ++
  le_bytes 8 phoff ++ replicate 14 0 ++ le_bytes 2 56 ++ le_bytes 2 1 ++ replicate 6 0 ++
  le_bytes 4 1 ++ replicate 4 0 ++ le_bytes 8 120 ++ replicate 8 0 ++ le_bytes 8 paddr ++
  le_bytes 8 filesz ++ le_bytes 8 memsz ++ replicate 8 0 ++ data.

(** ** Lemmas: the effect monad *)

Lemma boot_bind_Ok {W A B} (m : Boot W A) (f : A -> Boot W B) w b w' :
  (m ≫= f) w = Some (Ok b, w') <-> exists a w1, m w = Some (Ok a, w1) /\ f a w1 = Some (Ok b, w').
Proof.
  unfold mbind, boot_bind. destruct (m w) as [[[a|e] w1]|]; naive_solver.
Qed.

Lemma boot_bind_run {W A B} (m : Boot W A) (f : A -> Boot W B) w a w1 :
  m w = Some (Ok a, w1) -> (m ≫= f) w = f a w1.
Proof. unfold mbind, boot_bind. by intros ->. Qed.

Lemma try_Ok {W A} (r : result BootError A) (w : W) a w' :
  try_ r w = Some (Ok a, w') <-> r = Ok a /\ w' = w.
Proof. unfold try_. naive_solver. Qed.

Lemma or_panic_Ok {W A} (o : option A) (w : W) a w' :
  or_panic o w = Some (Ok a, w') <-> o = Some a /\ w' = w.
Proof. unfold or_panic. destruct o; naive_solver. Qed.

Lemma ok_or_Ok {A E} (o : option A) (e : E) a : ok_or o e = Ok a <-> o = Some a.
Proof. destruct o; naive_solver. Qed.

Lemma get_range_Some d a b l :
  get_range d a b = Some l <-> a <= b /\ b <= zlen d /\ l = slice (Z.to_nat a) (Z.to_nat b) d.
Proof. unfold get_range. case_on; b2p; naive_solver lia. Qed.

(** Take a successful run apart, step by step. *)
Ltac boot_inv :=
  repeat match goal with
  | H : (_ ≫= _) _ = Some (Ok _, _) |- _ => apply boot_bind_Ok in H as (? & ? & ? & ?)
  | H : try_ _ _ = Some (Ok _, _) |- _ => apply try_Ok in H as [? ->]
  | H : or_panic _ _ = Some (Ok _, _) |- _ => apply or_panic_Ok in H as [? ->]
  | H : ok_or _ _ = Ok _ |- _ => apply ok_or_Ok in H
  | H : mret _ _ = Some (Ok _, _) |- _ => injection H as <- <-
  | H : checked_add _ _ _ = Some _ |- _ => apply checked_add_Some in H as [? ->]
  | H : checked_sub _ _ = Some _ |- _ => apply checked_sub_Some in H as [? ->]
  | H : get_range _ _ _ = Some _ |- _ => apply get_range_Some in H as (? & ? & ->)
  end.

(** ** Lemmas: parsing *)

Section Parsing.
Context {W : Type} (oc : bool) (data : list Z).
Hypothesis (Hlen : zlen data < 2 ^ 63).
Implicit Types (w : W).

Lemma elf_read_ok n off w :
  0 <= n -> 0 <= off -> off + n <= zlen data -> elf_read oc n data off w = Some (Ok (field n data off), w).
Proof.
  intros Hn Ho Hr. unfold elf_read. erewrite boot_bind_run.
  2:{ apply or_panic_Ok. split; [|done]. unfold op_add. destruct oc; [apply checked_add_ok; lia|].
      unfold wrapping_add. by rewrite wrap_small by (unfold in_range; lia). }
  erewrite boot_bind_run; [done|]. apply try_Ok. split; [|done]. apply ok_or_Ok, get_range_Some. split_and!; [lia|lia|reflexivity].
Qed.

Lemma elf_read_inv n off w v w' :
  0 <= n < 2 ^ 63 -> u64 off -> elf_read oc n data off w = Some (Ok v, w') ->
  off + n <= zlen data /\ v = field n data off /\ w' = w.
Proof.
  intros Hn Ho Hr. unfold elf_read in Hr. boot_inv.
  assert (x = off + n) as ->; [|done].
  match goal with E : op_add _ _ _ _ = Some _ |- _ => unfold op_add in E; revert E end.
  destruct oc; [by intros [_ ->]%checked_add_Some|]. intros [= <-]. unfold wrapping_add, wrap, in_range in *.
  destruct (decide (off + n < 2 ^ 64)); [apply Z.mod_small; lia|].
  rewrite <- (Z.mod_add (off + n) (-1)), Z.mod_small in *; lia.
Qed.

Lemma byte_of_in i : bytes_ok data -> (i < length data)%nat -> u8 (byte_of data i).
Proof.
  intros Hb Hi. unfold byte_of. destruct (lookup_lt_is_Some_2 data i Hi) as [v Hv].
  rewrite (list_lookup_total_correct _ _ _ Hv). unfold bytes_ok in Hb. rewrite Forall_lookup in Hb. eauto.
Qed.

Lemma parse_elf_header_ok w :
  header_ok data = true -> parse_elf_header oc data w = Some (Ok (header_of data), w).
Proof.
  intros Hh. unfold header_ok in Hh. b2p. unfold parse_elf_header, ELF_HEADER_SIZE.
  rewrite (proj2 (Z.ltb_ge _ _)) by lia. rewrite H3, (proj2 (Z.eqb_eq _ _) H2), (proj2 (Z.eqb_eq _ _) H1). cbn [negb].
  erewrite boot_bind_run by (apply elf_read_ok; lia).
  rewrite (proj2 (Z.eqb_eq _ _) H0). cbn [negb].
  do 4 (erewrite boot_bind_run by (apply elf_read_ok; lia)). done.
Qed.

Lemma parse_elf_header_inv w h w' :
  parse_elf_header oc data w = Some (Ok h, w') -> header_ok data = true /\ h = header_of data /\ w' = w.
Proof.
  intros Hp. assert (Hh : header_ok data = true).
  { unfold parse_elf_header, ELF_HEADER_SIZE in Hp. unfold header_ok.
    destruct (zlen data <? 64) eqn:H64; [done|].
    destruct (bool_decide _); [|done]. destruct (byte_of data 4 =? _); [|done].
    destruct (byte_of data 5 =? _); [|done]. cbn [negb] in Hp.
    apply boot_bind_Ok in Hp as (mach & w1 & Hm & Hp). apply elf_read_inv in Hm as (_ & -> & ->); [|lia|decided].
    destruct (field 2 data 18 =? _); [|done]. b2p. by rewrite (proj2 (Z.leb_le _ _)) by lia. }
  rewrite parse_elf_header_ok in Hp by done. naive_solver.
Qed.

Lemma parse_program_header_ok base w :
  0 <= base -> base + 56 <= zlen data ->
  parse_program_header oc data base w = Some (Ok (phdr_at data base), w).
Proof.
  intros Hb Hr.
  assert (Hadd : forall k, 0 <= k <= 56 -> or_panic (op_add oc 64 base k) w = Some (Ok (base + k), w)).
  { intros k Hk. apply or_panic_Ok. split; [|done]. unfold op_add.
    destruct oc; [apply checked_add_ok; lia|]. unfold wrapping_add. by rewrite wrap_small by (unfold in_range; lia). }
  unfold parse_program_header, PROGRAM_HEADER_SIZE. rewrite (boot_bind_run _ _ _ _ _ (Hadd 56 ltac:(lia))).
  rewrite (proj2 (Z.ltb_ge _ _)) by lia.
  rewrite (boot_bind_run _ _ _ _ _ (elf_read_ok 4 base w ltac:(lia) ltac:(lia) ltac:(lia))).
  do 4 (erewrite boot_bind_run by (apply Hadd; lia); erewrite boot_bind_run by (apply elf_read_ok; lia)).
  done.
Qed.

Lemma parse_program_header_inv base w ph w' :
  u64 base -> parse_program_header oc data base w = Some (Ok ph, w') ->
  base + 56 <= zlen data /\ ph = phdr_at data base /\ w' = w.
Proof.
  intros Hb Hp. assert (Hr : base + 56 <= zlen data).
  { destruct (decide (base + 56 <= zlen data)) as [|Hn]; [done|]. unfold parse_program_header in Hp.
    apply boot_bind_Ok in Hp as (e & w1 & He & Hp). apply or_panic_Ok in He as [He ->].
    destruct (zlen data <? e) eqn:Hlt; [done|].
    apply boot_bind_Ok in Hp as (ty & w2 & Ht & Hp). apply elf_read_inv in Ht as (Ht & _); [|lia|done].
    unfold op_add in He. unfold PROGRAM_HEADER_SIZE in He. b2p. destruct oc.
    - apply checked_add_Some in He as [_ ->]. lia.
    - injection He as <-. unfold wrapping_add in Hlt. rewrite wrap_small in Hlt; unfold in_range in *; lia. }
  rewrite parse_program_header_ok in Hp by (unfold in_range in *; lia). naive_solver.
Qed.

End Parsing.

(** ** Lemmas: segments *)

Lemma field_bound n data off :
  bytes_ok data -> 0 <= n -> 0 <= off -> off + n <= zlen data -> 0 <= field n data off < 256 ^ n.
Proof.
  intros Hb Hn Ho Hr. unfold field.
  pose proof (from_le_bound _ (bytes_ok_slice (Z.to_nat off) (Z.to_nat (off + n)) _ Hb)) as Hf.
  unfold zlen in *. rewrite length_slice in Hf by lia.
  replace (Z.of_nat _) with n in Hf by lia. done.
Qed.

Lemma phdr_at_wf data base :
  bytes_ok data -> 0 <= base -> base + 56 <= zlen data -> phdr_wf (phdr_at data base).
Proof.
  intros Hb H0 Hr. unfold in_range. split_and!; apply (field_bound 8); done || lia.
Qed.

Lemma phdr_base_u64 data i :
  header_ok data = true -> bytes_ok data -> 0 <= phdr_base (header_of data) i.
Proof.
  intros Hh Hb. unfold header_ok in Hh. b2p. unfold phdr_base, header_of. simpl.
  pose proof (field_bound 8 data 32 Hb). pose proof (field_bound 2 data 54 Hb). lia.
Qed.

Section Segments.
Context (oc : bool) (kernel : list Z).
Hypothesis (Hlen : zlen kernel < 2 ^ 63) (Hk : bytes_ok kernel).
Implicit Types (m : GuestMemory) (ph : Elf64Phdr).

(** What a step that loads part of a segment does to memory. *)
Definition loads (m m' : GuestMemory) (f : Z -> option Z -> option Z) : Prop :=
  memory_wf m' /\ regions m' = regions m /\ forall x, byte_at m' x = f x (byte_at m x).

Lemma copy_file_part_inv ph m u m' :
  memory_wf m -> phdr_wf ph -> copy_file_part kernel ph m = Some (Ok u, m') ->
  loads m m' (fun x b => if (p_paddr ph <=? x) && (x <? p_paddr ph + p_filesz ph)
                         then kernel !! Z.to_nat (p_offset ph + (x - p_paddr ph)) else b).
Proof.
  intros Hwf (Ho & Hp & Hf & _) Hc. unfold copy_file_part in Hc.
  destruct (0 <? p_filesz ph) eqn:Hpos; b2p.
  2:{ boot_inv. split_and!; [done..|]. intros x. case_on; b2p; [lia|done]. }
  boot_inv. unfold writes, writer_bytes, GuestMemory_writer, write_bytes in *.
  set (d := slice _ _ kernel) in *.
  destruct (write_slice m (p_paddr ph) d) as [m1|] eqn:Hw; [|done].
  match goal with E : Some _ = Some _ |- _ => injection E as <- <- end.
  assert (Hd : bytes_ok d) by (by apply bytes_ok_slice).
  destruct (write_slice_bytes _ _ _ _ Hwf Hd Hw) as [Hwf1 Hb].
  split_and!; [done|by eapply write_slice_regions|]. intros x. rewrite Hb.
  assert (Hdl : zlen d = p_filesz ph).
  { unfold d, zlen, in_range in *. rewrite length_slice; lia. }
  rewrite Hdl. case_on; [|done]. b2p. unfold d. unfold in_range in *.
  rewrite slice_lookup by lia. f_equal. lia.
Qed.

Lemma zero_bss_inv ph m u m' :
  memory_wf m -> phdr_wf ph -> zero_bss ph m = Some (Ok u, m') ->
  loads m m' (fun x b => if (p_paddr ph + p_filesz ph <=? x) && (x <? p_paddr ph + p_memsz ph)
                         then Some 0 else b).
Proof.
  intros Hwf _ Hc. unfold zero_bss in Hc.
  destruct (p_filesz ph <? p_memsz ph) eqn:Hpos; b2p.
  2:{ boot_inv. split_and!; [done..|]. intros x. case_on; b2p; [lia|done]. }
  boot_inv. unfold writes, writer_zeroes, GuestMemory_writer in *.
  pose proof (write_zeroes_spec m (p_paddr ph + p_filesz ph) (p_memsz ph - p_filesz ph) Hwf ltac:(lia)) as Hz.
  destruct (write_zeroes m _ _) as [r m1]. destruct Hz as (Hwf1 & Hr & Hb & _).
  match goal with E : Some _ = Some _ |- _ => injection E as E <- end.
  destruct r as [[]|]; [|done]. split_and!; [done..|]. intros x. rewrite Hb by done.
  replace (p_paddr ph + p_filesz ph + (p_memsz ph - p_filesz ph)) with (p_paddr ph + p_memsz ph) by lia. done.
Qed.

(** The bounds after one more segment. *)
Definition bounds_with (acc : LoadBounds) (ph : Elf64Phdr) : LoadBounds :=
  {| min_addr := Some (from_option (fun cur => Z.min cur (p_paddr ph)) (p_paddr ph) (min_addr acc));
     max_addr := Z.max (max_addr acc) (p_paddr ph + p_memsz ph);
     loaded_any := true |}.

Lemma load_segment_inv acc i m acc' m' :
  memory_wf m -> header_ok kernel = true ->
  load_segment oc kernel (header_of kernel) acc (Z.of_nat i) m = Some (Ok acc', m') ->
  let ph := phdr_at kernel (phdr_base (header_of kernel) i) in
  phdr_base (header_of kernel) i + 56 <= zlen kernel /\
  if decide (p_type ph = PT_LOAD)
  then acc' = bounds_with acc ph /\ loads m m' (fun x b => seg_byte kernel x b ph)
  else acc' = acc /\ m' = m.
Proof.
  intros Hwf Hh Hl. cbv zeta. pose proof (phdr_base_u64 kernel i Hh Hk) as Hb.
  unfold load_segment in Hl. boot_inv. fold (phdr_base (header_of kernel) i) in *.
  match goal with E : parse_program_header _ _ _ _ = _ |- _ =>
    apply parse_program_header_inv in E as (Hr & -> & ->); [|done|unfold in_range, phdr_base in *; lia] end.
  split; [done|]. set (ph := phdr_at kernel _) in *. case_decide as Ht.
  2:{ rewrite (proj2 (Z.eqb_neq _ _)) in * by done. cbn [negb] in *. by boot_inv. }
  rewrite (proj2 (Z.eqb_eq _ _)) in * by done. cbn [negb] in *. boot_inv.
  assert (Hph : phdr_wf ph) by (apply phdr_at_wf; done).
  match goal with E : copy_file_part _ _ _ = _ |- _ => apply copy_file_part_inv in E as (Hw1 & Hr1 & B1); [|done..] end.
  match goal with E : zero_bss _ _ = _ |- _ => apply zero_bss_inv in E as (Hw2 & Hr2 & B2); [|done..] end.
  split.
  - unfold bounds_with. f_equal. case_on; b2p; lia.
  - split_and!; [done|congruence|]. intros y. rewrite B2, B1. unfold seg_byte.
    destruct Hph as (_ & _ & ? & _). unfold in_range in *. repeat case_on; b2p; try lia; done.
Qed.

Lemma image_app segs1 segs2 old x :
  image kernel (segs1 ++ segs2) old x = image kernel segs2 (image kernel segs1 old) x.
Proof. unfold image. by rewrite foldl_app. Qed.

Lemma segments_of_app hdr l1 l2 : segments_of kernel hdr (l1 ++ l2) = segments_of kernel hdr l1 ++ segments_of kernel hdr l2.
Proof. unfold segments_of. by rewrite fmap_app, filter_app. Qed.

Lemma segments_of_cons hdr i l :
  segments_of kernel hdr (i :: l) =
  (if decide (p_type (phdr_at kernel (phdr_base hdr i)) = PT_LOAD) then [phdr_at kernel (phdr_base hdr i)] else []) ++
  segments_of kernel hdr l.
Proof. unfold segments_of. cbn [fmap list_fmap]. rewrite filter_cons. by case_decide. Qed.

Lemma load_segments_inv idxs acc m acc' m' :
  memory_wf m -> header_ok kernel = true ->
  load_segments oc kernel (header_of kernel) acc idxs m = Some (Ok acc', m') ->
  let segs := segments_of kernel (header_of kernel) idxs in
  (forall i, i ∈ idxs -> phdr_base (header_of kernel) i + 56 <= zlen kernel) /\
  acc' = foldl bounds_with acc segs /\ loads m m' (fun x b => foldl (seg_byte kernel x) b segs).
Proof.
  cbv zeta. intros Hwf Hh. revert acc m Hwf. induction idxs as [|i idxs IH]; intros acc m Hwf Hl.
  { cbn [load_segments] in Hl. boot_inv. split_and!; [by intros i ?%elem_of_nil|done|done..]. }
  cbn [load_segments] in Hl. apply boot_bind_Ok in Hl as (acc1 & m1 & H1 & H2).
  apply load_segment_inv in H1 as (Hb & H1); [|done..].
  assert (Hwf1 : memory_wf m1) by (case_decide; [by destruct H1 as (_ & ? & _)|by destruct H1 as [_ ->]]).
  destruct (IH _ _ Hwf1 H2) as (Hbs & Hacc & Hwf' & Hr & Hby).
  split; [by intros j [->|?]%elem_of_cons; [|apply Hbs]|].
  rewrite segments_of_cons. case_decide.
  - destruct H1 as (-> & _ & Hr1 & Hb1). split; [done|]. split_and!; [done|congruence|].
    intros x. by rewrite Hby, Hb1.
  - destruct H1 as (-> & ->). done.
Qed.

(** *** The address bounds *)

Definition no_bounds : LoadBounds := {| min_addr := None; max_addr := 0; loaded_any := false |}.

Definition bounds_for (dn : list Elf64Phdr) (acc : LoadBounds) : Prop :=
  (dn = [] /\ acc = no_bounds) \/
  (loaded_any acc = true /\ (exists lo, min_addr acc = Some lo /\ lowest dn lo) /\ highest dn (max_addr acc)).

Lemma bounds_for_snoc dn acc ph :
  phdr_wf ph -> bounds_for dn acc -> bounds_for (dn ++ [ph]) (bounds_with acc ph).
Proof.
  intros (_ & Hp & _ & Hm) Hb. unfold in_range in *. right. unfold bounds_with. simpl.
  destruct Hb as [[-> ->]|(_ & (lo & Hlo & Hall & Hex) & Hhall & Hhex)].
  - simpl. split_and!; [done| |].
    + exists (p_paddr ph). split; [done|]. by repeat constructor.
    + rewrite Z.max_r by lia. by repeat constructor.
  - rewrite Hlo. split_and!; [done| |].
    + exists (Z.min lo (p_paddr ph)). split; [done|]. split.
      * apply Forall_app. split; [eapply Forall_impl; [exact Hall|simpl; lia]|repeat constructor; lia].
      * apply Exists_app. destruct (Z.min_spec lo (p_paddr ph)) as [[_ ->]|[_ ->]]; [by left|right; by constructor].
    + split.
      * apply Forall_app. split; [eapply Forall_impl; [exact Hhall|simpl; lia]|repeat constructor; lia].
      * apply Exists_app.
        destruct (Z.max_spec (max_addr acc) (p_paddr ph + p_memsz ph)) as [[_ ->]|[_ ->]]; [right; by constructor|by left].
Qed.

Lemma bounds_for_fold segs dn acc :
  Forall phdr_wf segs -> bounds_for dn acc -> bounds_for (dn ++ segs) (foldl bounds_with acc segs).
Proof.
  intros Hs. revert dn acc. induction Hs as [|ph segs Hph Hs IH]; intros dn acc Ha; [by rewrite app_nil_r|].
  rewrite cons_middle, app_assoc. apply IH. by apply bounds_for_snoc.
Qed.

Lemma segments_wf idxs :
  header_ok kernel = true ->
  (forall i, i ∈ idxs -> phdr_base (header_of kernel) i + 56 <= zlen kernel) ->
  Forall phdr_wf (segments_of kernel (header_of kernel) idxs).
Proof.
  intros Hh Hb. unfold segments_of. apply Forall_forall. intros ph [_ Hin]%list_elem_of_filter.
  apply list_elem_of_fmap in Hin as (i & -> & Hi).
  apply phdr_at_wf; [done|by apply phdr_base_u64|by apply Hb].
Qed.

(** What a successful [load_elf] has done. *)
Lemma load_elf_inv m r m' :
  memory_wf m -> load_elf oc kernel m = Some (Ok r, m') ->
  header_ok kernel = true /\ elf_segments kernel <> [] /\ Forall phdr_wf (elf_segments kernel) /\
  loads m m' (fun x b => foldl (seg_byte kernel x) b (elf_segments kernel)) /\
  lowest (elf_segments kernel) (kernel_load r) /\ highest (elf_segments kernel) (kernel_end r) /\
  entry_point r = field 8 kernel 24.
Proof.
  intros Hwf Hl. unfold load_elf in Hl. apply boot_bind_Ok in Hl as (h & m1 & Hp & Hl).
  apply parse_elf_header_inv in Hp as (Hh & -> & ->); [|done].
  apply boot_bind_Ok in Hl as (acc & m2 & Hs & Hl).
  apply load_segments_inv in Hs as (Hb & -> & Hld); [|done..].
  fold (elf_segments kernel) in *.
  assert (Hsw : Forall phdr_wf (elf_segments kernel)) by (by apply segments_wf).
  pose proof (bounds_for_fold (elf_segments kernel) [] no_bounds Hsw (or_introl (conj eq_refl eq_refl))) as HB.
  simpl app in HB. fold no_bounds in Hl. set (acc := foldl _ _ _) in *.
  destruct HB as [[HE HB]|HB]; [by rewrite HB in Hl|].
  destruct HB as (Hany & (lo & Hlo & Hlow) & Hhigh). rewrite Hany in Hl. cbn [negb] in Hl.
  rewrite Hlo in Hl. boot_inv. match goal with E : Some _ = Some _ |- _ => injection E as <- end.
  split_and!; try done; try apply Hld. intros E. destruct Hlow as [_ Hex]. rewrite E in Hex. by inv Hex.
Qed.

(** *** Loading what fits succeeds *)

Section Fits.
Context (reg : GuestRegion).

Definition seg_fits (ph : Elf64Phdr) : Prop :=
  p_offset ph + p_filesz ph <= zlen kernel /\ gpa_start reg <= p_paddr ph /\
  seg_end ph <= gpa_start reg + region_size reg.

Lemma write_in_region m g d :
  memory_wf m -> reg ∈ regions m -> gpa_start reg <= g -> g + zlen d <= gpa_start reg + region_size reg ->
  exists m', write_slice m g d = Ok m'.
Proof.
  intros Hwf Hin Hg Hd. pose proof (in_region_readable m reg g (length d) Hwf Hin Hg Hd) as Hr.
  simpl in Hr. rewrite is_ok_map_err, <- write_slice_is_ok in Hr.
  destruct (write_slice m g d) as [m'|]; [by exists m'|done].
Qed.

Lemma region_below m : memory_wf m -> reg ∈ regions m -> gpa_start reg + region_size reg < 2 ^ 64.
Proof. intros (Hall & _) Hin. rewrite Forall_forall in Hall. by destruct (Hall _ Hin) as (_ & _ & ? & _). Qed.

Lemma copy_file_part_ok ph m :
  memory_wf m -> reg ∈ regions m -> phdr_wf ph -> seg_fits ph ->
  exists m', copy_file_part kernel ph m = Some (Ok tt, m').
Proof.
  intros Hwf Hin (Ho & Hp & Hf & Hm) (Hfile & Hlo & Hhi). unfold seg_end, in_range in *.
  unfold copy_file_part. destruct (0 <? p_filesz ph) eqn:Hpos; [|by eexists]. b2p.
  erewrite boot_bind_run by (apply try_Ok; split; [apply ok_or_Ok, checked_add_ok; lia|done]).
  erewrite boot_bind_run.
  2:{ apply try_Ok. split; [|done]. apply ok_or_Ok, get_range_Some. split_and!; [lia|lia|reflexivity]. }
  unfold writes, writer_bytes, GuestMemory_writer, write_bytes.
  set (d := slice _ _ kernel).
  assert (Hd : zlen d = p_filesz ph) by (unfold d, zlen in *; rewrite length_slice; lia).
  destruct (write_in_region m (p_paddr ph) d Hwf Hin) as [m' ->]; [lia..|]. by eexists.
Qed.

Lemma zero_bss_ok ph m :
  memory_wf m -> reg ∈ regions m -> phdr_wf ph -> seg_fits ph -> exists m', zero_bss ph m = Some (Ok tt, m').
Proof.
  intros Hwf Hin (Ho & Hp & Hf & Hm) (_ & Hlo & Hhi). pose proof (region_below m Hwf Hin).
  unfold seg_end, in_range in *. unfold zero_bss. destruct (p_filesz ph <? p_memsz ph) eqn:Hpos; [|by eexists]. b2p.
  erewrite boot_bind_run by (apply try_Ok; split; [apply ok_or_Ok, checked_add_ok; lia|done]).
  erewrite boot_bind_run by (apply try_Ok; split; [apply ok_or_Ok, checked_sub_Some; split; [lia|reflexivity]|done]).
  unfold writes, writer_zeroes, GuestMemory_writer.
  pose proof (write_zeroes_spec m (p_paddr ph + p_filesz ph) (p_memsz ph - p_filesz ph) Hwf ltac:(lia)) as Hz.
  destruct (write_zeroes m _ _) as [r m1]. destruct Hz as (_ & _ & _ & Hok).
  rewrite (Hok reg) by (done || lia). by eexists.
Qed.

Lemma load_segment_ok acc i m :
  memory_wf m -> reg ∈ regions m -> header_ok kernel = true ->
  phdr_base (header_of kernel) i + 56 <= zlen kernel ->
  (p_type (phdr_at kernel (phdr_base (header_of kernel) i)) = PT_LOAD ->
   seg_fits (phdr_at kernel (phdr_base (header_of kernel) i))) ->
  exists acc' m', load_segment oc kernel (header_of kernel) acc (Z.of_nat i) m = Some (Ok acc', m').
Proof.
  intros Hwf Hin Hh Hb Hf. pose proof (phdr_base_u64 kernel i Hh Hk) as H0.
  set (ph := phdr_at kernel _) in *. assert (Hph : phdr_wf ph) by (by apply phdr_at_wf).
  unfold load_segment.
  erewrite boot_bind_run
    by (apply try_Ok; split; [apply ok_or_Ok, checked_add_ok; unfold phdr_base in *; lia|done]).
  erewrite boot_bind_run by (apply parse_program_header_ok; [done|exact H0|exact Hb]).
  fold (phdr_base (header_of kernel) i). fold ph.
  destruct (p_type ph =? PT_LOAD) eqn:Ht; b2p; cbn [negb]; [|by do 2 eexists].
  specialize (Hf Ht). destruct (copy_file_part_ok ph m Hwf Hin Hph Hf) as [m1 H1].
  rewrite (boot_bind_run _ _ _ _ _ H1). apply copy_file_part_inv in H1 as (Hwf1 & Hr1 & _); [|done..].
  rewrite <- Hr1 in Hin. destruct (zero_bss_ok ph m1 Hwf1 Hin Hph Hf) as [m2 H2].
  rewrite (boot_bind_run _ _ _ _ _ H2). pose proof (region_below m1 Hwf1 Hin).
  destruct Hf as (_ & _ & Hhi). unfold seg_end in Hhi.
  erewrite boot_bind_run by (apply try_Ok; split; [apply ok_or_Ok, checked_add_ok; lia|done]).
  by do 2 eexists.
Qed.

Lemma load_segments_ok idxs acc m :
  memory_wf m -> reg ∈ regions m -> header_ok kernel = true ->
  (forall i, i ∈ idxs -> phdr_base (header_of kernel) i + 56 <= zlen kernel) ->
  Forall seg_fits (segments_of kernel (header_of kernel) idxs) ->
  exists acc' m', load_segments oc kernel (header_of kernel) acc idxs m = Some (Ok acc', m').
Proof.
  intros Hwf Hin Hh. revert acc m Hwf Hin. induction idxs as [|i idxs IH]; intros acc m Hwf Hin Hb Hf.
  { by do 2 eexists. }
  rewrite segments_of_cons in Hf. apply Forall_app in Hf as [Hf1 Hf2].
  destruct (load_segment_ok acc i m) as (acc1 & m1 & E); [done|done|done|apply Hb; by left| |].
  { intros Ht. rewrite decide_True in Hf1 by done. by inv Hf1. }
  cbn [load_segments]. rewrite (boot_bind_run _ _ _ _ _ E).
  apply load_segment_inv in E as (_ & E); [|done..].
  assert (memory_wf m1 /\ regions m1 = regions m) as [Hwf1 Hr1]
    by (case_decide; [by destruct E as (_ & ? & ? & _)|by destruct E as [_ ->]]).
  apply IH; [done|by rewrite Hr1| |done]. intros j Hj. apply Hb. by right.
Qed.

Lemma load_elf_ok m :
  memory_wf m -> reg ∈ regions m -> elf_fits kernel (gpa_start reg) (gpa_start reg + region_size reg) ->
  exists r m', load_elf oc kernel m = Some (Ok r, m').
Proof.
  intros Hwf Hin (Hh & Hb & Hne & Hf).
  assert (Hb' : forall i, i ∈ seq 0 (Z.to_nat (e_phnum (header_of kernel))) ->
                phdr_base (header_of kernel) i + 56 <= zlen kernel)
    by (intros i Hi%elem_of_seq; apply Hb; lia).
  destruct (load_segments_ok (seq 0 (Z.to_nat (e_phnum (header_of kernel)))) no_bounds m Hwf Hin Hh Hb')
    as (acc & m1 & E).
  { eapply Forall_impl; [exact Hf|]. intros ph (? & ? & ?). by split_and!. }
  unfold load_elf. erewrite boot_bind_run by (by apply parse_elf_header_ok).
  fold no_bounds. rewrite (boot_bind_run _ _ _ _ _ E).
  apply load_segments_inv in E as (_ & -> & _); [|done..]. fold (elf_segments kernel) in *.
  pose proof (bounds_for_fold (elf_segments kernel) [] no_bounds (segments_wf _ Hh Hb')
               (or_introl (conj eq_refl eq_refl))) as [[HE _]|(Hany & (lo & Hlo & _) & _)]; [done|].
  rewrite Hany, Hlo. cbn [negb ok_or]. by do 2 eexists.
Qed.

End Fits.
End Segments.

(** ** Lemmas: loading again

    What a loader does depends on the memory's regions, not on its contents. *)

Section RegionsOnly.
Context {A B : Type}.

Definition regions_only {C} (f : Boot GuestMemory C) : Prop :=
  forall m1 m2, regions m1 = regions m2 ->
  match f m1, f m2 with
  | Some (r1, m1'), Some (r2, m2') => r1 = r2 /\ regions m1' = regions m2'
  | None, None => True
  | _, _ => False
  end.

Lemma regions_only_bind (f : Boot GuestMemory A) (g : A -> Boot GuestMemory B) :
  regions_only f -> (forall a, regions_only (g a)) -> regions_only (f ≫= g).
Proof.
  intros Hf Hg m1 m2 Hr. specialize (Hf m1 m2 Hr). unfold mbind, boot_bind.
  destruct (f m1) as [[[a|e] m1']|], (f m2) as [[r2 m2']|]; try done.
  - destruct Hf as [<- Hr']. by apply Hg.
  - by destruct Hf as [<- Hr'].
Qed.

Lemma regions_only_ret (a : A) : regions_only (mret a).
Proof. intros m1 m2 Hr. by split. Qed.

Lemma regions_only_try (r : result BootError A) : regions_only (try_ r).
Proof. intros m1 m2 Hr. by split. Qed.

Lemma regions_only_panic (o : option A) : regions_only (or_panic o).
Proof. intros m1 m2 Hr. unfold or_panic. by destruct o. Qed.

End RegionsOnly.

Lemma write_slice_cases m1 m2 g d :
  regions m1 = regions m2 ->
  match write_slice m1 g d, write_slice m2 g d with
  | Ok m1', Ok m2' => regions m1' = regions m2'
  | Err e1, Err e2 => e1 = e2
  | _, _ => False
  end.
Proof.
  intros Hr. unfold write_slice. destruct d; [done|].
  rewrite (find_region_regions m1 m2) by done. by destruct (find_region m2 _ _) as [[]|].
Qed.

Lemma regions_only_bytes g d : regions_only (writes (fun m : GuestMemory => writer_bytes m g d)).
Proof.
  intros m1 m2 Hr. unfold writes. simpl. unfold write_bytes.
  pose proof (write_slice_cases m1 m2 g d Hr) as H.
  destruct (write_slice m1 g d), (write_slice m2 g d); naive_solver.
Qed.

Lemma write_zeroes_cases fuel m1 m2 g n :
  regions m1 = regions m2 ->
  (write_zeroes_loop fuel m1 g n).1 = (write_zeroes_loop fuel m2 g n).1 /\
  regions (write_zeroes_loop fuel m1 g n).2 = regions (write_zeroes_loop fuel m2 g n).2.
Proof.
  revert m1 m2 g n. induction fuel as [|fuel IH]; intros m1 m2 g n Hr; [done|]. cbn [write_zeroes_loop].
  destruct (0 <? n); [|done]. set (d := replicate _ 0). pose proof (write_slice_cases m1 m2 g d Hr) as H.
  destruct (write_slice m1 g d), (write_slice m2 g d); [by apply IH|done..|by rewrite H].
Qed.

Lemma regions_only_zeroes g n : regions_only (writes (fun m : GuestMemory => writer_zeroes m g n)).
Proof.
  intros m1 m2 Hr. unfold writes. simpl. unfold write_zeroes.
  pose proof (write_zeroes_cases (Z.to_nat (n / CHUNK_SIZE + 2)) m1 m2 g n Hr) as [H1 H2].
  destruct (write_zeroes_loop _ m1 _ _), (write_zeroes_loop _ m2 _ _). simpl in *. by subst.
Qed.

#[local] Hint Resolve regions_only_ret regions_only_try regions_only_panic regions_only_bytes regions_only_zeroes : hitz.

Ltac regions_only_tac :=
  repeat first [apply regions_only_bind; [|intros ?] | case_match | solve [auto with hitz]].

Lemma load_segments_regions_only oc kernel hdr acc idxs :
  regions_only (load_segments oc kernel hdr acc idxs).
Proof.
  revert acc. induction idxs as [|i idxs IH]; intros acc; cbn [load_segments]; [auto with hitz|].
  apply regions_only_bind; [|done].
  unfold load_segment, parse_program_header, elf_read, copy_file_part, zero_bss. regions_only_tac.
Qed.

Lemma load_elf_regions_only oc kernel : regions_only (load_elf oc kernel : Boot GuestMemory _).
Proof.
  unfold load_elf. apply regions_only_bind; [unfold parse_elf_header, elf_read; regions_only_tac|].
  intros hdr. apply regions_only_bind; [apply load_segments_regions_only|]. intros acc. regions_only_tac.
Qed.

(** A segment changes nothing beside its addresses. *)
Lemma seg_byte_beside kernel segs x lo hi b :
  Forall (fun ph => 0 <= p_filesz ph <= p_memsz ph /\ lo <= p_paddr ph /\ p_paddr ph + p_memsz ph <= hi) segs ->
  x < lo \/ hi <= x -> foldl (seg_byte kernel x) b segs = b.
Proof.
  intros Hs Hx. revert b. induction Hs as [|ph segs (? & ? & ?) Hs IH]; intros b; [done|]. cbn [foldl].
  rewrite IH. unfold seg_byte. repeat case_on; b2p; lia || done.
Qed.

(** A load leaves what lies beside the kernel as it was. *)
Lemma load_elf_beside oc kernel m r m' :
  zlen kernel < 2 ^ 63 -> bytes_ok kernel -> memory_wf m -> load_elf oc kernel m = Some (Ok r, m') ->
  Forall (fun ph => p_filesz ph <= p_memsz ph) (elf_segments kernel) ->
  memory_wf m' /\ regions m' = regions m /\
  forall g n, g + Z.of_nat n <= kernel_load r \/ kernel_end r <= g -> read_slice m' g n = read_slice m g n.
Proof.
  intros Hlen Hk Hwf E Hsz.
  apply load_elf_inv in E as (_ & _ & Hph & (Hwf4 & Hreg & Hb) & [Hlo _] & [Hhi _] & _); [|done..].
  split_and!; [done..|]. intros g n Hg. apply read_slice_ext; [done..|]. intros i Hi. rewrite Hb.
  apply (seg_byte_beside _ _ _ (kernel_load r) (kernel_end r)); [|lia].
  rewrite !Forall_forall in *. intros ph Hin. specialize (Hph _ Hin). specialize (Hsz _ Hin).
  specialize (Hlo _ Hin). specialize (Hhi _ Hin). destruct Hph as (_ & _ & ? & _).
  unfold in_range in *. simpl in *. lia.
Qed.

(** The same file loads again, into any memory with the same regions. *)
Lemma load_elf_again oc kernel (m0 m3 : GuestMemory) r m1 :
  regions m3 = regions m0 -> load_elf oc kernel m0 = Some (Ok r, m1) ->
  exists m4, load_elf oc kernel m3 = Some (Ok r, m4).
Proof.
  intros Hr Hl. pose proof (load_elf_regions_only oc kernel m3 m0 Hr) as Hro. rewrite Hl in Hro.
  destruct (load_elf oc kernel m3) as [[r3 m4]|]; [|done]. destruct Hro as [-> _]. by exists m4.
Qed.

Lemma lowest_unique segs a b : lowest segs a -> lowest segs b -> a = b.
Proof.
  intros [Ha (pa & Hia & <-)%Exists_exists] [Hb (pb & Hib & <-)%Exists_exists].
  rewrite Forall_forall in Ha, Hb. specialize (Ha _ Hib). specialize (Hb _ Hia). simpl in *. lia.
Qed.

Lemma highest_unique segs a b : highest segs a -> highest segs b -> a = b.
Proof.
  intros [Ha (pa & Hia & <-)%Exists_exists] [Hb (pb & Hib & <-)%Exists_exists].
  rewrite Forall_forall in Ha, Hb. specialize (Ha _ Hib). specialize (Hb _ Hia). simpl in *. lia.
Qed.

(** ** Lemmas: the initramfs *)

Lemma page_up x : 0 <= x -> x + 0xFFF < 2 ^ 64 ->
  gpa_page_base (x + 0xFFF) mod 4096 = 0 /\ x <= gpa_page_base (x + 0xFFF) < x + 4096.
Proof.
  intros H0 H1. destruct (gpa_page_split (x + 0xFFF)) as [Hs Hm]; [unfold in_range; lia|].
  rewrite gpa_page_offset_mod in Hs. split; [done|]. divlia.
Qed.

Lemma op_add_small oc a b : 0 <= a -> 0 <= b -> a + b < 2 ^ 64 -> op_add oc 64 a b = Some (a + b).
Proof.
  intros Ha Hb Hs. unfold op_add. destruct oc; [by apply checked_add_ok|].
  unfold wrapping_add. by rewrite wrap_small by (unfold in_range; lia).
Qed.

(** The function where nothing overflows. *)
Lemma load_initramfs_run oc data ke ram (m : GuestMemory) :
  0 <= ke -> ke + 0xFFF + zlen data < 2 ^ 64 -> data <> [] ->
  load_initramfs oc data ke ram m =
  let gpa := gpa_page_base (ke + 0xFFF) in
  if ram <? gpa + zlen data then
    Some (Err (InvalidBootParams ("initramfs at " ++ fmt_hex gpa ++ " + " ++ fmt_hex (zlen data) ++
                                  " bytes exceeds RAM size " ++ fmt_hex ram)%string), m)
  else match write_slice m gpa data with
       | Ok m' => Some (Ok {| ir_gpa := gpa; ir_size := zlen data |}, m')
       | Err e => Some (Err (WriteFailed (MemError_to_string e)), m)
       end.
Proof.
  intros H0 H1 Hne. pose proof (zlen_nonneg data). destruct (page_up ke) as (_ & Hp); [lia..|].
  unfold load_initramfs. destruct data as [|d0 data']; [done|]. set (data := d0 :: data') in *.
  erewrite boot_bind_run by (apply or_panic_Ok; split; [apply op_add_small; lia|done]). cbv zeta.
  erewrite boot_bind_run by (apply or_panic_Ok; split; [apply op_add_small; lia|done]).
  clearbody data. case_match; [done|]. unfold writes, mbind, boot_bind. simpl. unfold write_bytes.
  by destruct (write_slice m _ data).
Qed.

(** ** Lemmas: panics *)

Lemma boot_bind_None {W A B} (m : Boot W A) (f : A -> Boot W B) w :
  (m ≫= f) w = None -> m w = None \/ exists a w1, m w = Some (Ok a, w1) /\ f a w1 = None.
Proof. unfold mbind, boot_bind. destruct (m w) as [[[a|e] w1]|]; naive_solver. Qed.

Lemma or_panic_add_None {W} oc a b (w : W) :
  or_panic (op_add oc 64 a b) w = None -> oc = true /\ 2 ^ 64 <= a + b.
Proof.
  unfold or_panic, op_add. destruct oc; [|done].
  destruct (checked_add 64 a b) eqn:E; [done|]. by apply checked_add_None in E.
Qed.

Ltac panic_inv :=
  repeat match goal with
  | H : (_ ≫= _) _ = None |- _ => apply boot_bind_None in H as [H|(? & ? & ? & H)]
  | H : try_ _ _ = None |- _ => done
  | H : writes _ _ = None |- _ => done
  | H : mret _ _ = None |- _ => done
  | H : or_panic (op_add _ _ _ _) _ = None |- _ => apply or_panic_add_None in H
  | H : (if ?c then _ else _) _ = None |- _ => destruct c eqn:?
  end.

Section Panics.
Context {W : Type} `{GuestMemWriter W} (oc : bool) (kernel : list Z).
Hypothesis (Hlen : zlen kernel < 2 ^ 63).

Lemma elf_read_None n off (w : W) : elf_read oc n kernel off w = None -> oc = true /\ 2 ^ 64 <= off + n.
Proof. intros Hn. unfold elf_read in Hn. panic_inv. done. Qed.

Lemma parse_elf_header_None (w : W) : parse_elf_header oc kernel w <> None.
Proof.
  intros Hn. unfold parse_elf_header in Hn. panic_inv; apply elf_read_None in Hn; lia.
Qed.

Lemma parse_program_header_None base (w : W) :
  0 <= base -> parse_program_header oc kernel base w = None -> oc = true /\ 2 ^ 64 <= base + 56.
Proof.
  intros H0 Hn. unfold parse_program_header, PROGRAM_HEADER_SIZE in Hn.
  apply boot_bind_None in Hn as [Hn|(e & w1 & He & Hn)]; [exact (or_panic_add_None _ _ _ _ Hn)|].
  apply or_panic_Ok in He as [He ->].
  assert (Hoc : oc = false \/ oc = true /\ base + 56 < 2 ^ 64).
  { unfold op_add in He. destruct oc; [right|by left]. by apply checked_add_Some in He as [? _]. }
  panic_inv; boot_inv; try (apply elf_read_None in Hn); destruct Hoc as [->|[-> ?]]; destruct Hn; try done;
    repeat match goal with E : op_add true _ _ _ = Some _ |- _ => apply checked_add_Some in E as [? ->] end; b2p; lia.
Qed.

Lemma load_segment_None hdr acc i (w : W) :
  0 <= e_phoff hdr + i * e_phentsize hdr -> load_segment oc kernel hdr acc i w = None ->
  oc = true /\ 2 ^ 64 <= e_phoff hdr + i * e_phentsize hdr + 56.
Proof.
  intros H0 Hn. unfold load_segment in Hn.
  apply boot_bind_None in Hn as [Hn|(b & w1 & Hb & Hn)]; [done|]. boot_inv.
  apply boot_bind_None in Hn as [Hn|(ph & w2 & _ & Hn)]; [by apply (parse_program_header_None _ w)|].
  destruct (negb _); [done|]. unfold copy_file_part, zero_bss in Hn.
  apply boot_bind_None in Hn as [Hn|(u & w3 & _ & Hn)]; [case_match; panic_inv|].
  apply boot_bind_None in Hn as [Hn|(u' & w4 & _ & Hn)]; [case_match; panic_inv|]. panic_inv.
Qed.

Lemma load_elf_None (w : W) :
  bytes_ok kernel -> load_elf oc kernel w = None ->
  oc = true /\ exists i, (i < Z.to_nat (e_phnum (header_of kernel)))%nat /\
    2 ^ 64 <= phdr_base (header_of kernel) i + 56.
Proof.
  intros Hk Hn. unfold load_elf in Hn.
  apply boot_bind_None in Hn as [Hn|(h & w1 & Hh & Hn)]; [by apply parse_elf_header_None in Hn|].
  apply parse_elf_header_inv in Hh as (Hok & -> & ->); [|done].
  apply boot_bind_None in Hn as [Hn|(acc & w2 & _ & Hn)]; [|case_match; panic_inv].
  assert (Hgen : forall idxs acc w, load_segments oc kernel (header_of kernel) acc idxs w = None ->
    oc = true /\ exists i, i ∈ idxs /\ 2 ^ 64 <= phdr_base (header_of kernel) i + 56).
  { clear Hn w. induction idxs as [|i idxs IH]; intros acc w Hn; [done|]. cbn [load_segments] in Hn.
    apply boot_bind_None in Hn as [Hn|(acc' & w' & _ & Hn)].
    - apply load_segment_None in Hn as [? ?]; [|by apply phdr_base_u64]. split; [done|].
      exists i. split; [by left|done].
    - destruct (IH _ _ Hn) as (? & j & ? & ?). split; [done|]. exists j. split; [by right|done]. }
  destruct (Hgen _ _ _ Hn) as (? & i & Hi%elem_of_seq & ?). split; [done|]. exists i. split; [lia|done].
Qed.
End Panics.

(** ** Properties *)

(** C29: Loading a kernel does exactly what the ELF program headers say: on success
    the header is a little-endian x86-64 ELF64 one, guest memory is the image of
    the PT_LOAD segments (file contents, then zeros up to [memsz], later segments
    over earlier ones) over what was there, and the result holds the lowest
    load address, the highest end and [e_entry]. *)
Theorem load_elf_image oc kernel (m : GuestMemory) r m' :
  zlen kernel < 2 ^ 63 -> bytes_ok kernel -> memory_wf m -> load_elf oc kernel m = Some (Ok r, m') ->
  header_ok kernel = true /\ elf_segments kernel <> [] /\ memory_wf m' /\
  (forall x, byte_at m' x = image kernel (elf_segments kernel) (byte_at m) x) /\
  lowest (elf_segments kernel) (kernel_load r) /\ highest (elf_segments kernel) (kernel_end r) /\
  entry_point r = field 8 kernel 24.
Proof.
  intros Hlen Hk Hwf Hl. apply load_elf_inv in Hl as (? & ? & _ & (? & _ & ?) & ? & ? & ?); [|done..].
  by split_and!.
Qed.

(** A kernel whose headers and segment data are in the file and whose segments
    lie in one region of guest memory loads successfully. *)
Theorem load_elf_succeeds oc kernel (m : GuestMemory) reg :
  zlen kernel < 2 ^ 63 -> bytes_ok kernel -> memory_wf m -> reg ∈ regions m ->
  elf_fits kernel (gpa_start reg) (gpa_start reg + region_size reg) ->
  exists r m', load_elf oc kernel m = Some (Ok r, m').
Proof. intros Hlen Hk Hwf Hin Hf. exact (load_elf_ok oc kernel Hlen Hk reg m Hwf Hin Hf). Qed.

(** [boot_and_run] loads the kernel a second time, after guest memory was
    filled: the second load succeeds with the same result, and everything below
    the kernel or from its end on (the initramfs, the boot parameters, the
    tables, the command line) keeps its bytes, when no segment has more file
    than memory bytes. *)
Theorem kernel_reload oc kernel (m0 m3 : GuestMemory) r m1 :
  zlen kernel < 2 ^ 63 -> bytes_ok kernel -> memory_wf m0 -> memory_wf m3 -> regions m3 = regions m0 ->
  load_elf oc kernel m0 = Some (Ok r, m1) ->
  Forall (fun ph => p_filesz ph <= p_memsz ph) (elf_segments kernel) ->
  exists m4, load_elf oc kernel m3 = Some (Ok r, m4) /\
    forall g n, g + Z.of_nat n <= kernel_load r \/ kernel_end r <= g ->
      read_slice m4 g n = read_slice m3 g n.
Proof.
  intros Hlen Hk Hwf0 Hwf3 Hr Hl Hsz.
  destruct (load_elf_again oc kernel m0 m3 r m1 Hr Hl) as [m4 E]. exists m4. split; [done|].
  apply (load_elf_beside oc kernel m3 r m4 Hlen Hk Hwf3 E Hsz).
Qed.

(** The initramfs goes to the first page boundary at or after the kernel's end,
    inside RAM, is read back there and changes nothing else; every failure
    leaves memory as it was, and it fails only for an empty archive, one that
    does not fit in RAM, or memory that cannot be written. *)
Theorem load_initramfs_correct oc data ke ram (m : GuestMemory) :
  memory_wf m -> bytes_ok data -> 0 <= ke -> ke + 0xFFF + zlen data < 2 ^ 64 ->
  match load_initramfs oc data ke ram m with
  | Some (Ok r, m') =>
      ir_gpa r mod 4096 = 0 /\ ke <= ir_gpa r < ke + 4096 /\ ir_size r = zlen data /\
      ir_gpa r + ir_size r <= ram /\ memory_wf m' /\ read_slice m' (ir_gpa r) (length data) = Ok data /\
      (forall g n, disjoint_range (ir_gpa r) (ir_size r) g (Z.of_nat n) -> read_slice m' g n = read_slice m g n)
  | Some (Err e, m') =>
      m' = m /\ (data = [] \/ ram < gpa_page_base (ke + 0xFFF) + zlen data \/
                 is_ok (read_slice m (gpa_page_base (ke + 0xFFF)) (length data)) = false)
  | None => False
  end.
Proof.
  intros Hwf Hd H0 H1. destruct (decide (data = [])) as [->|Hne]; [simpl; split; [done|by left]|].
  rewrite load_initramfs_run by done. cbv zeta. pose proof (zlen_nonneg data).
  destruct (page_up ke) as (Hal & Hp); [lia..|].
  destruct (ram <? _) eqn:Hram; b2p; [split; [done|right; left; lia]|].
  destruct (write_slice m _ data) as [m'|e] eqn:E.
  - destruct (write_slice_bytes _ _ _ _ Hwf Hd E) as [Hwf' _].
    split_and!; simpl; try done || lia; [exact (read_slice_write_same _ _ _ _ Hwf Hd E)|].
    intros g n Hdis. exact (read_slice_write_disjoint _ _ _ _ _ _ Hwf Hd E Hdis).
  - split; [done|]. right. right. by rewrite <- write_slice_is_ok, E.
Qed.

(** [load_elf] panics only in a build with overflow checks, and only for a file
    whose program-header table runs past the end of the address space; then the
    build without them returns an error. *)
Theorem load_elf_panic oc kernel (m : GuestMemory) :
  zlen kernel < 2 ^ 63 -> bytes_ok kernel -> load_elf oc kernel m = None ->
  oc = true /\
  (exists i, (i < Z.to_nat (e_phnum (header_of kernel)))%nat /\ 2 ^ 64 <= phdr_base (header_of kernel) i + 56) /\
  (memory_wf m -> exists e m', load_elf false kernel m = Some (Err e, m')).
Proof.
  intros Hlen Hk Hn. destruct (load_elf_None oc kernel Hlen m Hk Hn) as (Hoc & i & Hi & Hb).
  split_and!; [done|by exists i|]. intros Hwf.
  destruct (load_elf false kernel m) as [[[r|e] m']|] eqn:E; [|by exists e, m'|].
  - exfalso. unfold load_elf in E. apply boot_bind_Ok in E as (h & m1 & Hp & E).
    apply parse_elf_header_inv in Hp as (Hh & -> & ->); [|done].
    apply boot_bind_Ok in E as (acc & m2 & Hs & _).
    apply load_segments_inv in Hs as (Hbs & _); [|done..].
    specialize (Hbs i). rewrite elem_of_seq in Hbs. specialize (Hbs ltac:(lia)). lia.
  - by destruct (load_elf_None false kernel Hlen m Hk E) as [? _].
Qed.

(** A kernel may put its end at the top of the address space with an empty
    segment there: it loads, and a build without overflow checks then wraps and
    writes the initramfs at address 0, over the boot structures. *)
Theorem initramfs_wraps_to_zero data ke ram (m m' : GuestMemory) :
  2 ^ 64 - 0xFFF <= ke < 2 ^ 64 -> data <> [] -> zlen data <= ram -> zlen data < 2 ^ 64 ->
  write_slice m 0 data = Ok m' ->
  load_initramfs false data ke ram m = Some (Ok {| ir_gpa := 0; ir_size := zlen data |}, m') /\
  load_initramfs true data ke ram m = None.
Proof.
  intros Hke Hne Hram Hd Hw. pose proof (zlen_nonneg data). unfold load_initramfs.
  destruct data as [|d0 data']; [done|]. set (data := d0 :: data') in *. clearbody data. clear data' d0.
  unfold op_add. split.
  2:{ unfold mbind, boot_bind. rewrite (proj2 (checked_add_None 64 ke 0xFFF)) by lia. done. }
  assert (Hsum : 0 <= wrapping_add 64 ke 0xFFF < 4096).
  { unfold wrapping_add, wrap. rewrite <- (Z.mod_add _ (-1)), Z.mod_small; lia. }
  assert (Hgpa : gpa_page_base (wrapping_add 64 ke 0xFFF) = 0).
  { destruct (gpa_page_split (wrapping_add 64 ke 0xFFF)) as [Hs _]; [unfold in_range; lia|].
    rewrite gpa_page_offset_mod, Z.mod_small in Hs by lia. lia. }
  erewrite boot_bind_run by (apply or_panic_Ok; done). cbv zeta. rewrite Hgpa.
  erewrite boot_bind_run by (apply or_panic_Ok; done).
  unfold wrapping_add at 1. rewrite Z.add_0_l, wrap_small by (unfold in_range; lia).
  rewrite (proj2 (Z.ltb_ge _ _)) by lia.
  unfold writes, mbind, boot_bind. simpl. unfold write_bytes. by rewrite Hw.
Qed.

(** ** Witnesses *)

Definition demo_kernel : list Z := demo_elf 64 0x100 3 8 [7; 8; 9].
Definition demo_mem : GuestMemory := ram_at 0 0x1000.
Definition demo_region : GuestRegion :=
  {| gpa_start := 0; region_size := 0x1000; hva := {| ptr_block := 1; ptr_offset := 0 |} |}.

Lemma demo_mem_wf : memory_wf demo_mem.
Proof. apply ram_at_wf; [lia..|]. vm_compute. reflexivity. Qed.

Lemma demo_segments :
  elf_segments demo_kernel = [{| p_type := 1; p_offset := 120; p_paddr := 0x100; p_filesz := 3; p_memsz := 8 |}].
Proof. vm_compute. reflexivity. Qed.

Lemma demo_kernel_len : zlen demo_kernel < 2 ^ 63.
Proof. vm_compute. reflexivity. Qed.

Lemma demo_kernel_bytes : bytes_ok demo_kernel.
Proof. decided. Qed.

Lemma demo_fits : elf_fits demo_kernel 0 0x1000.
Proof.
  split_and!; [by vm_compute| |by vm_compute|].
  - intros i Hi. replace (Z.to_nat _) with 1%nat in Hi by (by vm_compute). assert (i = 0%nat) as -> by lia.
    by vm_compute.
  - rewrite demo_segments. repeat constructor; by vm_compute.
Qed.

Definition demo_result : KernelLoadResult := {| kernel_load := 0x100; kernel_end := 0x108; entry_point := 0x100 |}.

Lemma demo_loads : exists m', load_elf true demo_kernel demo_mem = Some (Ok demo_result, m').
Proof.
  assert (H : option_map fst (load_elf true demo_kernel demo_mem) = Some (Ok demo_result)) by (vm_compute; reflexivity).
  destruct (load_elf true demo_kernel demo_mem) as [[r m']|]; [|done]. injection H as ->. by exists m'.
Qed.

Lemma load_elf_image_witness :
  exists m', load_elf true demo_kernel demo_mem = Some (Ok demo_result, m') /\
    byte_at m' 0x101 = Some 8 /\ byte_at m' 0x105 = Some 0.
Proof.
  destruct demo_loads as [m' E]. exists m'. split; [exact E|].
  destruct (load_elf_image true demo_kernel demo_mem demo_result m' demo_kernel_len demo_kernel_bytes demo_mem_wf E)
    as (_ & _ & _ & Hb & _).
  rewrite !Hb. unfold image. rewrite demo_segments. split; vm_compute; reflexivity.
Defined.

Lemma load_elf_succeeds_witness : exists r m', load_elf false demo_kernel demo_mem = Some (Ok r, m').
Proof.
  apply (load_elf_succeeds false demo_kernel demo_mem demo_region);
    [exact demo_kernel_len|exact demo_kernel_bytes|exact demo_mem_wf| |exact demo_fits].
  replace (regions demo_mem) with [demo_region] by (vm_compute; reflexivity). apply elem_of_cons. by left.
Defined.

Lemma kernel_reload_witness :
  exists m1 m4, load_elf true demo_kernel demo_mem = Some (Ok demo_result, m1) /\
    load_elf true demo_kernel m1 = Some (Ok demo_result, m4) /\ read_slice m4 0x200 8 = read_slice m1 0x200 8.
Proof.
  destruct demo_loads as [m1 E].
  destruct (load_elf_inv true demo_kernel demo_kernel_len demo_kernel_bytes demo_mem demo_result m1 demo_mem_wf E)
    as (_ & _ & _ & (Hwf1 & Hr1 & _) & _).
  destruct (kernel_reload true demo_kernel demo_mem m1 demo_result m1 demo_kernel_len demo_kernel_bytes
              demo_mem_wf Hwf1 Hr1 E) as (m4 & E4 & Hk).
  { rewrite demo_segments. repeat constructor. simpl. lia. }
  exists m1, m4. split; [exact E|]. split; [exact E4|]. apply Hk. right. simpl. lia.
Defined.

Lemma load_initramfs_correct_witness :
  match load_initramfs true [1; 2; 3] 0x108 0x2000 (ram_at 0 0x2000) with
  | Some (Ok r, m') => ir_gpa r = 0x1000 /\ read_slice m' 0x1000 3 = Ok [1; 2; 3]
  | _ => False
  end.
Proof.
  pose proof (load_initramfs_correct true [1; 2; 3] 0x108 0x2000 (ram_at 0 0x2000)) as H.
  assert (Hf : option_map fst (load_initramfs true [1; 2; 3] 0x108 0x2000 (ram_at 0 0x2000)) =
               Some (Ok {| ir_gpa := 0x1000; ir_size := 3 |})) by (vm_compute; reflexivity).
  destruct (load_initramfs _ _ _ _ _) as [[r m']|]; [|done]. injection Hf as ->.
  destruct H as (_ & _ & _ & _ & _ & Hr & _); [|decided|lia|by vm_compute|by split].
  apply ram_at_wf; [lia..|]. vm_compute. reflexivity.
Defined.

(** The last program header would end past the address space. *)
Lemma load_elf_panic_witness :
  load_elf true (demo_elf (2 ^ 64 - 8) 0x100 3 8 []) demo_mem = None /\
  exists e m', load_elf false (demo_elf (2 ^ 64 - 8) 0x100 3 8 []) demo_mem = Some (Err e, m').
Proof.
  assert (E : load_elf true (demo_elf (2 ^ 64 - 8) 0x100 3 8 []) demo_mem = None) by (vm_compute; reflexivity).
  split; [exact E|].
  destruct (load_elf_panic true (demo_elf (2 ^ 64 - 8) 0x100 3 8 []) demo_mem) as (_ & _ & H);
    [by vm_compute|decided|exact E|exact (H demo_mem_wf)].
Defined.

(** A kernel that loads and ends at the top of the address space. *)
Lemma initramfs_wraps_to_zero_witness :
  option_map (fun p => fst p) (load_elf false (demo_elf 64 (2 ^ 64 - 1) 0 0 []) demo_mem) =
    Some (Ok {| kernel_load := 2 ^ 64 - 1; kernel_end := 2 ^ 64 - 1; entry_point := 2 ^ 64 - 1 |}) /\
  exists m', load_initramfs false [1; 2; 3] (2 ^ 64 - 1) 0x1000 demo_mem = Some (Ok {| ir_gpa := 0; ir_size := 3 |}, m').
Proof.
  split; [vm_compute; reflexivity|].
  assert (Hw : is_ok (write_slice demo_mem 0 [1; 2; 3]) = true) by (vm_compute; reflexivity).
  destruct (write_slice demo_mem 0 [1; 2; 3]) as [m'|] eqn:E; [|done]. exists m'.
  exact (proj1 (initramfs_wraps_to_zero [1; 2; 3] (2 ^ 64 - 1) 0x1000 demo_mem m' ltac:(lia) ltac:(done)
                  ltac:(by vm_compute) ltac:(by vm_compute) E)).
Defined.
