(* ===== verification/BootParams.v ===== *)
(** * The zero page

    [hitz-boot/src/boot_params.rs]: the structure the kernel reads at boot, its
    byte layout ([repr(C, packed)], so fields lie end to end, little-endian) and
    its builders. *)

From Stdlib Require Import String.
From stdpp Require Import strings.
From S2P Require Import Prelude Hal Memory PageTables Loader.

(** ** Data *)

Definition BOOT_PARAMS_GPA : Z := 0x7000.
Definition KERNEL_LOAD_GPA : Z := 0x100000.
Definition E820_RAM : Z := 1.
Definition E820_RESERVED : Z := 2.

Record BootE820Entry := { e820_addr : Z; e820_size : Z; e820_type : Z }.

Definition e820_default : BootE820Entry := {| e820_addr := 0; e820_size := 0; e820_type := 0 |}.

Record SetupHeader := {
  setup_sects : Z; root_flags : Z; syssize : Z; hdr_ram_size : Z; vid_mode : Z; root_dev : Z;
  boot_flag : Z; hdr_jump : Z; header : Z; version : Z; realmode_swtch : Z; start_sys_seg : Z;
  kernel_version : Z; type_of_loader : Z; loadflags : Z; setup_move_size : Z; code32_start : Z;
  ramdisk_image : Z; ramdisk_size : Z; bootsect_kludge : Z; heap_end_ptr : Z; ext_loader_ver : Z;
  ext_loader_type : Z; cmd_line_ptr : Z; initrd_addr_max : Z; kernel_alignment : Z;
  relocatable_kernel : Z; min_alignment : Z; xloadflags : Z; cmdline_size : Z;
}.

Definition setup_header_default : SetupHeader :=
  {| setup_sects := 0; root_flags := 0; syssize := 0; hdr_ram_size := 0; vid_mode := 0; root_dev := 0;
     boot_flag := 0; hdr_jump := 0; header := 0; version := 0; realmode_swtch := 0; start_sys_seg := 0;
     kernel_version := 0; type_of_loader := 0; loadflags := 0; setup_move_size := 0; code32_start := 0;
     ramdisk_image := 0; ramdisk_size := 0; bootsect_kludge := 0; heap_end_ptr := 0; ext_loader_ver := 0;
     ext_loader_type := 0; cmd_line_ptr := 0; initrd_addr_max := 0; kernel_alignment := 0;
     relocatable_kernel := 0; min_alignment := 0; xloadflags := 0; cmdline_size := 0 |}.

(** The padding arrays are constant zeros and have no field. *)
Record BootParams := {
  acpi_rsdp_addr : Z;
  e820_entries : Z;
  hdr : SetupHeader;
  e820_table : list BootE820Entry;
}.

Definition boot_params_default : BootParams :=
  {| acpi_rsdp_addr := 0; e820_entries := 0; hdr := setup_header_default;
     e820_table := replicate 128 e820_default |}.

(** ** Layout *)

Definition PAD2_SIZE : nat := 148.
Definition PAD3_SIZE : nat := 816.

Definition e820_bytes (e : BootE820Entry) : list Z :=
  le_bytes 8 (e820_addr e) ++ le_bytes 8 (e820_size e) ++ le_bytes 4 (e820_type e).

Definition setup_header_bytes (h : SetupHeader) : list Z :=
  le_bytes 1 (setup_sects h) ++ le_bytes 2 (root_flags h) ++ le_bytes 4 (syssize h) ++
  le_bytes 2 (hdr_ram_size h) ++ le_bytes 2 (vid_mode h) ++ le_bytes 2 (root_dev h) ++
  le_bytes 2 (boot_flag h) ++ le_bytes 2 (hdr_jump h) ++ le_bytes 4 (header h) ++
  le_bytes 2 (version h) ++ le_bytes 4 (realmode_swtch h) ++ le_bytes 2 (start_sys_seg h) ++
  le_bytes 2 (kernel_version h) ++ le_bytes 1 (type_of_loader h) ++ le_bytes 1 (loadflags h) ++
  le_bytes 2 (setup_move_size h) ++ le_bytes 4 (code32_start h) ++ le_bytes 4 (ramdisk_image h) ++
  le_bytes 4 (ramdisk_size h) ++ le_bytes 4 (bootsect_kludge h) ++ le_bytes 2 (heap_end_ptr h) ++
  le_bytes 1 (ext_loader_ver h) ++ le_bytes 1 (ext_loader_type h) ++ le_bytes 4 (cmd_line_ptr h) ++
  le_bytes 4 (initrd_addr_max h) ++ le_bytes 4 (kernel_alignment h) ++
  le_bytes 1 (relocatable_kernel h) ++ le_bytes 1 (min_alignment h) ++ le_bytes 2 (xloadflags h) ++
  le_bytes 4 (cmdline_size h).

(** [BootParams::as_bytes]. *)
Definition as_bytes (bp : BootParams) : list Z :=
  replicate 0x70 0 ++ le_bytes 8 (acpi_rsdp_addr bp) ++ replicate 0x170 0 ++
  le_bytes 1 (e820_entries bp) ++ replicate 8 0 ++ setup_header_bytes (hdr bp) ++
  replicate PAD2_SIZE 0 ++ concat (e820_bytes <$> e820_table bp) ++ replicate PAD3_SIZE 0.

(** ** Builders *)

Definition set_hdr (bp : BootParams) (h : SetupHeader) : BootParams :=
  {| acpi_rsdp_addr := acpi_rsdp_addr bp; e820_entries := e820_entries bp; hdr := h;
     e820_table := e820_table bp |}.

Definition build_boot_params (ram_bytes cmdline_gpa : Z) : result BootError BootParams :=
  if ram_bytes <? 0x200000 then
    Err (InvalidBootParams ("ram_bytes (" ++ fmt_hex ram_bytes ++ ") must be at least 2 MiB")%string)
  else
    Ok {| acpi_rsdp_addr := 0;
          e820_entries := 3;
          hdr :=
            {| setup_sects := 0; root_flags := 0; syssize := 0; hdr_ram_size := 0; vid_mode := 0;
               root_dev := 0; boot_flag := 0xAA55; hdr_jump := 0; header := 0x53726448; version := 0;
               realmode_swtch := 0; start_sys_seg := 0; kernel_version := 0; type_of_loader := 0xFF;
               loadflags := 0x81; setup_move_size := 0; code32_start := 0; ramdisk_image := 0;
               ramdisk_size := 0; bootsect_kludge := 0; heap_end_ptr := 0xFE00; ext_loader_ver := 0;
               ext_loader_type := 0; cmd_line_ptr := wrap 32 cmdline_gpa; initrd_addr_max := 0;
               kernel_alignment := 0; relocatable_kernel := 0; min_alignment := 0; xloadflags := 0;
               cmdline_size := 255 |};
          e820_table :=
            [{| e820_addr := 0; e820_size := 0x9FC00; e820_type := E820_RAM |};
             {| e820_addr := 0x9FC00; e820_size := 0x400; e820_type := E820_RESERVED |};
             {| e820_addr := 0x100000; e820_size := ram_bytes - 0x100000; e820_type := E820_RAM |}] ++
            replicate 125 e820_default |}.

(** [bp.hdr.ramdisk_image = ..; bp.hdr.ramdisk_size = ..]. *)
Definition with_ramdisk (h : SetupHeader) (image size : Z) : SetupHeader :=
  {| setup_sects := setup_sects h; root_flags := root_flags h; syssize := syssize h;
     hdr_ram_size := hdr_ram_size h; vid_mode := vid_mode h; root_dev := root_dev h;
     boot_flag := boot_flag h; hdr_jump := hdr_jump h; header := header h; version := version h;
     realmode_swtch := realmode_swtch h; start_sys_seg := start_sys_seg h;
     kernel_version := kernel_version h; type_of_loader := type_of_loader h; loadflags := loadflags h;
     setup_move_size := setup_move_size h; code32_start := code32_start h; ramdisk_image := image;
     ramdisk_size := size; bootsect_kludge := bootsect_kludge h; heap_end_ptr := heap_end_ptr h;
     ext_loader_ver := ext_loader_ver h; ext_loader_type := ext_loader_type h;
     cmd_line_ptr := cmd_line_ptr h; initrd_addr_max := initrd_addr_max h;
     kernel_alignment := kernel_alignment h; relocatable_kernel := relocatable_kernel h;
     min_alignment := min_alignment h; xloadflags := xloadflags h; cmdline_size := cmdline_size h |}.

Definition set_initramfs_params (bp : BootParams) (gpa size : Z) : result BootError unit * BootParams :=
  if 2 ^ 32 - 1 <? gpa then
    (Err (InvalidBootParams ("initramfs GPA " ++ fmt_hex gpa ++ " exceeds 32-bit limit")%string), bp)
  else if 2 ^ 32 - 1 <? size then
    (Err (InvalidBootParams ("initramfs size " ++ fmt_hex size ++ " exceeds 32-bit limit")%string), bp)
  else (Ok tt, set_hdr bp (with_ramdisk (hdr bp) (wrap 32 gpa) (wrap 32 size))).

Definition set_acpi_rsdp (bp : BootParams) (rsdp_gpa : Z) : BootParams :=
  {| acpi_rsdp_addr := rsdp_gpa; e820_entries := e820_entries bp; hdr := hdr bp; e820_table := e820_table bp |}.

(** ** Specification: what the kernel reads

    Offsets from the Linux boot protocol, independent of the structure's
    definition; [field n page off] is the [n]-byte number at an offset. *)
Record ZeroPage := {
  zp_acpi_rsdp : Z; zp_e820_entries : Z; zp_boot_flag : Z; zp_header : Z; zp_type_of_loader : Z;
  zp_loadflags : Z; zp_ramdisk_image : Z; zp_ramdisk_size : Z; zp_heap_end_ptr : Z;
  zp_cmd_line_ptr : Z; zp_cmdline_size : Z;
}.

Definition read_zero_page (page : list Z) : ZeroPage :=
  {| zp_acpi_rsdp := field 8 page 0x70; zp_e820_entries := field 1 page 0x1E8;
     zp_boot_flag := field 2 page 0x1FE; zp_header := field 4 page 0x202;
     zp_type_of_loader := field 1 page 0x210; zp_loadflags := field 1 page 0x211;
     zp_ramdisk_image := field 4 page 0x218; zp_ramdisk_size := field 4 page 0x21C;
     zp_heap_end_ptr := field 2 page 0x224; zp_cmd_line_ptr := field 4 page 0x228;
     zp_cmdline_size := field 4 page 0x238 |}.

(** Entry [i] of the memory map, 20 bytes from offset 0x2D0. *)
Definition read_e820 (page : list Z) (i : nat) : BootE820Entry :=
  {| e820_addr := field 8 page (0x2D0 + 20 * Z.of_nat i);
     e820_size := field 8 page (0x2D0 + 20 * Z.of_nat i + 8);
     e820_type := field 4 page (0x2D0 + 20 * Z.of_nat i + 16) |}.

(** The map the kernel sees, and what it says of an address: the type of the
    entry that covers it. *)
Definition e820_map (page : list Z) : list BootE820Entry :=
  read_e820 page <$> seq 0 (Z.to_nat (zp_e820_entries (read_zero_page page))).

Definition e820_kind (map : list BootE820Entry) (x : Z) : option Z :=
  e820_type ∘ snd <$> list_find (fun e => e820_addr e <= x < e820_addr e + e820_size e) map.

(** Well-formed parameters: every number at its width, 128 entries. *)
Definition e820_wf (e : BootE820Entry) : Prop := u64 (e820_addr e) /\ u64 (e820_size e) /\ u32 (e820_type e).

Definition boot_params_wf (bp : BootParams) : Prop :=
  u64 (acpi_rsdp_addr bp) /\ u8 (e820_entries bp) /\ e820_entries bp <= 128 /\
  u16 (boot_flag (hdr bp)) /\ u32 (header (hdr bp)) /\ u8 (type_of_loader (hdr bp)) /\
  u8 (loadflags (hdr bp)) /\ u32 (ramdisk_image (hdr bp)) /\ u32 (ramdisk_size (hdr bp)) /\
  u16 (heap_end_ptr (hdr bp)) /\ u32 (cmd_line_ptr (hdr bp)) /\ u32 (cmdline_size (hdr bp)) /\
  length (e820_table bp) = 128%nat /\ Forall e820_wf (e820_table bp).

#[export] Instance boot_params_wf_dec bp : Decision (boot_params_wf bp).
Proof. unfold boot_params_wf, e820_wf. apply _. Defined.

(** The zero page's fields as the structure holds them. *)
Definition page_fields (bp : BootParams) : ZeroPage :=
  {| zp_acpi_rsdp := acpi_rsdp_addr bp; zp_e820_entries := e820_entries bp;
     zp_boot_flag := boot_flag (hdr bp); zp_header := header (hdr bp);
     zp_type_of_loader := type_of_loader (hdr bp); zp_loadflags := loadflags (hdr bp);
     zp_ramdisk_image := ramdisk_image (hdr bp); zp_ramdisk_size := ramdisk_size (hdr bp);
     zp_heap_end_ptr := heap_end_ptr (hdr bp); zp_cmd_line_ptr := cmd_line_ptr (hdr bp);
     zp_cmdline_size := cmdline_size (hdr bp) |}.

(** ** Lemmas: layout *)

Lemma field_eq n page off v :
  slice (Z.to_nat off) (Z.to_nat (off + Z.of_nat n)) page = le_bytes n v ->
  0 <= v < 256 ^ Z.of_nat n -> field (Z.of_nat n) page off = v.
Proof. intros Hs Hv. unfold field. rewrite Hs. by apply from_le_le_bytes_id. Qed.

Lemma slice_drop {A} k a b (l : list A) : slice (k + a) (k + b) l = slice a b (drop k l).
Proof. unfold slice. rewrite drop_drop. f_equal. lia. Qed.

Lemma length_e820_bytes e : length (e820_bytes e) = 20%nat.
Proof. reflexivity. Qed.

Lemma drop_e820 i t :
  (i <= length t)%nat -> drop (20 * i) (concat (e820_bytes <$> t)) = concat (e820_bytes <$> drop i t).
Proof.
  revert t. induction i as [|i IH]; intros t Hi; [done|]. destruct t as [|e t]; [simpl in Hi; lia|].
  cbn [fmap list_fmap concat drop]. replace (20 * S i)%nat with (20 + 20 * i)%nat by lia.
  rewrite <- drop_drop, (drop_app_length' (e820_bytes e)) by reflexivity. apply IH. simpl in Hi. lia.
Qed.

Lemma length_e820_table t : length (concat (e820_bytes <$> t)) = (20 * length t)%nat.
Proof. induction t as [|e t IH]; [done|]. cbn [fmap list_fmap concat]. rewrite length_app, IH. simpl. lia. Qed.

Lemma drop_to_e820 bp :
  drop 0x2D0 (as_bytes bp) = concat (e820_bytes <$> e820_table bp) ++ replicate PAD3_SIZE 0.
Proof. reflexivity. Qed.

Lemma read_e820_table bp i e :
  boot_params_wf bp -> e820_table bp !! i = Some e -> read_e820 (as_bytes bp) i = e.
Proof.
  intros Hwf Hi. assert (Hw : e820_wf e).
  { destruct Hwf as (_ & _ & _ & _ & _ & _ & _ & _ & _ & _ & _ & _ & _ & Hf). rewrite Forall_lookup in Hf. eauto. }
  assert (Hd : forall a b, (a <= b <= 20)%nat ->
     slice (0x2D0 + 20 * i + a) (0x2D0 + 20 * i + b) (as_bytes bp) = slice a b (e820_bytes e)).
  { intros a b Hab. pose proof (lookup_lt_Some _ _ _ Hi). rewrite slice_drop, <- drop_drop, drop_to_e820.
    rewrite drop_app_le by (rewrite length_e820_table; lia). rewrite drop_e820 by lia.
    rewrite (drop_S _ _ _ Hi). cbn [fmap list_fmap concat]. rewrite <- app_assoc.
    apply (slice_app_l a b); rewrite ?length_e820_bytes; lia. }
  destruct Hw as (Ha & Hs & Ht). unfold read_e820. destruct e as [a s t]. cbn [e820_addr e820_size e820_type] in *.
  f_equal.
  - apply (field_eq 8); [|exact Ha]. etrans; [|exact (Hd 0%nat 8%nat ltac:(lia))]. f_equal; lia.
  - apply (field_eq 8); [|exact Hs]. etrans; [|exact (Hd 8%nat 16%nat ltac:(lia))]. f_equal; lia.
  - apply (field_eq 4); [|exact Ht]. etrans; [|exact (Hd 16%nat 20%nat ltac:(lia))]. f_equal; lia.
Qed.

Lemma read_fields bp : boot_params_wf bp -> read_zero_page (as_bytes bp) = page_fields bp.
Proof.
  intros (? & ? & _ & ? & ? & ? & ? & ? & ? & ? & ? & ? & _). unfold read_zero_page, page_fields. f_equal.
  all: first [apply (field_eq 8); [reflexivity|done] | apply (field_eq 4); [reflexivity|done]
             | apply (field_eq 2); [reflexivity|done] | apply (field_eq 1); [reflexivity|done]].
Qed.

Lemma length_as_bytes bp : length (e820_table bp) = 128%nat -> length (as_bytes bp) = 4096%nat.
Proof.
  intros Hl. rewrite <- (take_drop 0x2D0 (as_bytes bp)), length_app, drop_to_e820.
  rewrite length_app, length_e820_table, Hl, length_replicate. reflexivity.
Qed.

Lemma as_bytes_ok bp : bytes_ok (as_bytes bp).
Proof.
  unfold as_bytes. repeat apply Forall_app_2; first [apply le_bytes_ok|apply bytes_ok_zeroes|idtac].
  induction (e820_table bp) as [|e t IH]; [constructor|]. cbn [fmap list_fmap concat].
  apply Forall_app_2; [|done]. repeat apply Forall_app_2; apply le_bytes_ok.
Qed.

#[local] Opaque as_bytes.

(** ** Lemmas: the built page *)

Lemma build_boot_params_wf ram cmdline bp :
  u64 ram -> build_boot_params ram cmdline = Ok bp -> boot_params_wf bp.
Proof.
  intros Hr. unfold build_boot_params. case_on; [done|]. b2p. intros [= <-]. unfold boot_params_wf, in_range in *. cbn [acpi_rsdp_addr e820_entries hdr e820_table
    boot_flag header type_of_loader loadflags ramdisk_image ramdisk_size heap_end_ptr cmd_line_ptr cmdline_size].
  pose proof (wrap_range 32 cmdline ltac:(lia)) as Hc. unfold in_range in Hc.
  assert (HF : forall e1 e2 e3, Forall e820_wf [e1; e2; e3] -> Forall e820_wf ([e1; e2; e3] ++ replicate 125 e820_default))
    by (intros; apply Forall_app_2; [done|]; apply Forall_replicate; decided).
  repeat split; try lia; try done. apply HF.
  repeat (apply Forall_cons; split; [unfold e820_wf, in_range, E820_RAM, E820_RESERVED; simpl; lia|]).
  constructor.
Qed.

Lemma set_initramfs_wf bp gpa size bp' :
  boot_params_wf bp -> 0 <= gpa -> 0 <= size -> set_initramfs_params bp gpa size = (Ok tt, bp') ->
  boot_params_wf bp' /\ bp' = set_hdr bp (with_ramdisk (hdr bp) gpa size) /\ u32 gpa /\ u32 size.
Proof.
  intros Hwf Hg Hs. unfold set_initramfs_params. repeat (case_on; [done|]). b2p. intros [= <-].
  assert (Hg' : u32 gpa) by (unfold in_range; lia). assert (Hs' : u32 size) by (unfold in_range; lia).
  rewrite !wrap_small by done. split; [|done].
  destruct Hwf as (? & ? & ? & ? & ? & ? & ? & ? & ? & ? & ? & ? & ? & ?). by split_and!.
Qed.

(** The memory map of a built page, whatever else was set in it. *)
Lemma built_e820_map ram cmdline bp bp' :
  u64 ram -> build_boot_params ram cmdline = Ok bp -> boot_params_wf bp' ->
  e820_entries bp' = e820_entries bp -> e820_table bp' = e820_table bp ->
  e820_map (as_bytes bp') =
    [{| e820_addr := 0; e820_size := 0x9FC00; e820_type := E820_RAM |};
     {| e820_addr := 0x9FC00; e820_size := 0x400; e820_type := E820_RESERVED |};
     {| e820_addr := 0x100000; e820_size := ram - 0x100000; e820_type := E820_RAM |}].
Proof.
  intros Hr Hb Hwf He Ht. unfold e820_map. rewrite read_fields by done. cbn [page_fields zp_e820_entries].
  unfold build_boot_params in Hb. case_on; [done|]. injection Hb as <-. cbn [e820_entries e820_table] in *.
  rewrite He. replace (seq 0 (Z.to_nat 3)) with [0; 1; 2]%nat by reflexivity. cbn [fmap list_fmap].
  rewrite (read_e820_table bp' 0 _ Hwf ltac:(by rewrite Ht)), (read_e820_table bp' 1 _ Hwf ltac:(by rewrite Ht)),
    (read_e820_table bp' 2 _ Hwf ltac:(by rewrite Ht)). done.
Qed.

(** The kind of every address. *)
Definition expected_kind (ram x : Z) : option Z :=
  if decide (0 <= x < 0x9FC00) then Some E820_RAM
  else if decide (0x9FC00 <= x < 0xA0000) then Some E820_RESERVED
  else if decide (0x100000 <= x < ram) then Some E820_RAM
  else None.

Lemma built_kind ram x :
  e820_kind [{| e820_addr := 0; e820_size := 0x9FC00; e820_type := E820_RAM |};
             {| e820_addr := 0x9FC00; e820_size := 0x400; e820_type := E820_RESERVED |};
             {| e820_addr := 0x100000; e820_size := ram - 0x100000; e820_type := E820_RAM |}] x =
  expected_kind ram x.
Proof.
  unfold e820_kind, expected_kind. cbn [list_find e820_addr e820_size]. repeat case_decide; simpl; try lia; done.
Qed.

(** ** Properties *)

(** The structure's bytes are the kernel's zero page: 4096 of them, every field
    the boot protocol defines at its offset, and the 128 memory-map entries from
    0x2D0. *)
Theorem zero_page_layout bp :
  boot_params_wf bp ->
  length (as_bytes bp) = 4096%nat /\ bytes_ok (as_bytes bp) /\ read_zero_page (as_bytes bp) = page_fields bp /\
  forall i e, e820_table bp !! i = Some e -> read_e820 (as_bytes bp) i = e.
Proof.
  intros Hwf. split_and!; [apply length_as_bytes; apply Hwf|apply as_bytes_ok|by apply read_fields|].
  intros i e. by apply read_e820_table.
Qed.

(** C32: The page [setup_guest_memory] writes, with an initramfs and ACPI tables: the
    kernel finds the boot magic, the command line, the archive and the RSDP, and
    a memory map that makes conventional memory below 0x9FC00 and everything from
    1 MiB to the end of RAM usable, the EBDA reserved and the rest unmentioned. *)
Theorem boot_page_for_kernel ram cmdline image size rsdp bp bp' :
  u64 ram -> u32 cmdline -> 0 <= image -> 0 <= size -> u64 rsdp ->
  build_boot_params ram cmdline = Ok bp -> set_initramfs_params bp image size = (Ok tt, bp') ->
  let page := as_bytes (set_acpi_rsdp bp' rsdp) in
  read_zero_page page =
    {| zp_acpi_rsdp := rsdp; zp_e820_entries := 3; zp_boot_flag := 0xAA55; zp_header := 0x53726448;
       zp_type_of_loader := 0xFF; zp_loadflags := 0x81; zp_ramdisk_image := image; zp_ramdisk_size := size;
       zp_heap_end_ptr := 0xFE00; zp_cmd_line_ptr := cmdline; zp_cmdline_size := 255 |} /\
  forall x, e820_kind (e820_map page) x = expected_kind ram x.
Proof.
  cbv zeta. intros Hr Hc Hi Hs Hrs Hb Hset.
  pose proof (build_boot_params_wf _ _ _ Hr Hb) as Hwf.
  destruct (set_initramfs_wf _ _ _ _ Hwf Hi Hs Hset) as (Hwf' & -> & _ & _).
  assert (Hwf2 : boot_params_wf (set_acpi_rsdp (set_hdr bp (with_ramdisk (hdr bp) image size)) rsdp)).
  { destruct Hwf' as (_ & ? & ? & ? & ? & ? & ? & ? & ? & ? & ? & ? & ? & ?). by split_and!. }
  split.
  - rewrite read_fields by done. unfold build_boot_params in Hb. case_on; [done|]. injection Hb as <-.
    unfold page_fields. simpl. by rewrite wrap_small.
  - intros x. rewrite (built_e820_map ram cmdline bp) by done. apply built_kind.
Qed.

(** [build_boot_params] and [set_initramfs_params] fail exactly below 2 MiB of
    RAM and above the 32-bit limits, and a failure changes nothing. *)
Theorem boot_params_errors ram cmdline bp image size :
  0 <= image -> 0 <= size ->
  (is_err (build_boot_params ram cmdline) = true <-> ram < 0x200000) /\
  (is_err (set_initramfs_params bp image size).1 = true <-> 2 ^ 32 <= image \/ 2 ^ 32 <= size) /\
  (is_err (set_initramfs_params bp image size).1 = true -> (set_initramfs_params bp image size).2 = bp).
Proof.
  intros Hi Hs. unfold build_boot_params, set_initramfs_params.
  splits; repeat case_on; b2p; simpl; try done; split; intros; try done; lia.
Qed.

(** The ACPI tables lie in no entry of the memory map, although they are
    documented as placed in a region the map marks as reserved. *)
Theorem acpi_tables_not_reserved ram cmdline bp x :
  u64 ram -> build_boot_params ram cmdline = Ok bp -> 0xE0000 <= x < 0x100000 ->
  e820_kind (e820_map (as_bytes bp)) x = None.
Proof.
  intros Hr Hb Hx. rewrite (built_e820_map ram cmdline bp bp) by (done || by eapply build_boot_params_wf).
  rewrite built_kind. unfold expected_kind. by rewrite !decide_False by lia.
Qed.

(** With more than 3328 MiB of RAM the memory map makes the virtio devices'
    window at 0xD0000000 usable memory. *)
Theorem mmio_window_is_ram ram cmdline bp x :
  u64 ram -> 0xD0000000 < ram -> build_boot_params ram cmdline = Ok bp -> 0xD0000000 <= x < ram ->
  e820_kind (e820_map (as_bytes bp)) x = Some E820_RAM.
Proof.
  intros Hr Hw Hb Hx. rewrite (built_e820_map ram cmdline bp bp) by (done || by eapply build_boot_params_wf).
  rewrite built_kind. unfold expected_kind. rewrite !decide_False by lia. by rewrite decide_True by lia.
Qed.

(** ** Witnesses *)

(** The builders on concrete values. *)
Lemma demo_build : exists bp, build_boot_params 0x8000000 0x20000 = Ok bp.
Proof. eexists. reflexivity. Qed.

Lemma zero_page_layout_witness :
  length (as_bytes boot_params_default) = 4096%nat /\ zp_e820_entries (read_zero_page (as_bytes boot_params_default)) = 0.
Proof.
  assert (Hwf : boot_params_wf boot_params_default) by (apply (bool_decide_unpack _); vm_compute; exact I).
  destruct (zero_page_layout boot_params_default Hwf) as (Hl & _ & Hr & _). split; [exact Hl|by rewrite Hr].
Defined.

Lemma boot_page_for_kernel_witness :
  exists bp bp', build_boot_params 0x8000000 0x20000 = Ok bp /\
    set_initramfs_params bp 0x300000 8192 = (Ok tt, bp') /\
    zp_ramdisk_image (read_zero_page (as_bytes (set_acpi_rsdp bp' 0xE0000))) = 0x300000 /\
    e820_kind (e820_map (as_bytes (set_acpi_rsdp bp' 0xE0000))) 0x7FFFFFF = Some E820_RAM.
Proof.
  destruct demo_build as [bp Hb].
  assert (Hs : set_initramfs_params bp 0x300000 8192 = (Ok tt, set_hdr bp (with_ramdisk (hdr bp) 0x300000 8192)))
    by reflexivity.
  destruct (boot_page_for_kernel 0x8000000 0x20000 0x300000 8192 0xE0000 _ _
              ltac:(decided) ltac:(decided) ltac:(lia) ltac:(lia) ltac:(decided) Hb Hs) as [Hz Hk].
  exists bp, (set_hdr bp (with_ramdisk (hdr bp) 0x300000 8192)). split_and!; [exact Hb|exact Hs| |].
  - by rewrite Hz.
  - rewrite Hk. reflexivity.
Defined.

Lemma boot_params_errors_witness :
  is_err (build_boot_params 0x1FFFFF 0) = true /\ is_err (set_initramfs_params boot_params_default (2 ^ 32) 0).1 = true.
Proof.
  destruct (boot_params_errors 0x1FFFFF 0 boot_params_default (2 ^ 32) 0 ltac:(lia) ltac:(lia)) as (H1 & H2 & _).
  split; [apply H1; lia|apply H2; lia].
Defined.

Lemma acpi_tables_not_reserved_witness :
  exists bp, build_boot_params 0x8000000 0x20000 = Ok bp /\ e820_kind (e820_map (as_bytes bp)) 0xE0000 = None.
Proof.
  destruct demo_build as [bp Hb]. exists bp. split; [exact Hb|].
  exact (acpi_tables_not_reserved 0x8000000 0x20000 bp 0xE0000 ltac:(decided) Hb ltac:(lia)).
Defined.

Lemma mmio_window_is_ram_witness :
  exists bp, build_boot_params 0x100000000 0x20000 = Ok bp /\
    e820_kind (e820_map (as_bytes bp)) 0xD0000000 = Some E820_RAM.
Proof.
  eexists. split; [reflexivity|].
  exact (mmio_window_is_ram 0x100000000 0x20000 _ 0xD0000000 ltac:(decided) ltac:(lia) eq_refl ltac:(lia)).
Defined.
