(* ===== verification/Acpi.v ===== *)
(** * ACPI tables

    [hitz-boot/src/acpi.rs]: the RSDP, XSDT and MADT that tell a multi-processor
    guest about its CPUs. *)

From Stdlib Require Import String.
From stdpp Require Import strings.
From S2P Require Import Prelude Memory PageTables Cpio Loader.

(** ** Constants *)

Definition RSDP_GPA : Z := 0xE0000.
Definition XSDT_GPA : Z := 0xE1000.
Definition MADT_GPA : Z := 0xE2000.
Definition LOCAL_APIC_ADDRESS : Z := 0xFEE00000.
Definition MADT_TYPE_LOCAL_APIC : Z := 0.
Definition MADT_LAPIC_ENTRY_LEN : Z := 8.
Definition MADT_FLAGS_PCAT_COMPAT : Z := 1.
Definition LAPIC_FLAGS_ENABLED : Z := 1.
Definition MAX_CPUS : Z := 255.
Definition SDT_HEADER_LEN : Z := 36.
Definition OEM_ID : list Z := bytes_of "HITZ  ".
Definition OEM_TABLE_ID : list Z := bytes_of "HITZVM  ".
Definition OEM_REVISION : Z := 1.
Definition CREATOR_ID : list Z := bytes_of "HITZ".
Definition CREATOR_REVISION : Z := 1.

(** ** Construction *)

Definition acpi_checksum (data : list Z) : Z :=
  let sum := foldl (wrapping_add 8) 0 data in wrap 8 (0 - sum).

(** The assignments to ranges and bytes of a fixed array. *)
Definition put (off : nat) (new t : list Z) : list Z := splice off new t.

Definition build_rsdp : list Z :=
  let rsdp := replicate 36 0 in
  let rsdp := put 0 (bytes_of "RSD PTR ") rsdp in
  let rsdp := put 9 OEM_ID rsdp in
  let rsdp := put 15 [2] rsdp in
  let rsdp := put 20 (le_bytes 4 36) rsdp in
  let rsdp := put 24 (le_bytes 8 XSDT_GPA) rsdp in
  let rsdp := put 8 [0] rsdp in
  let rsdp := put 8 [acpi_checksum (slice 0 20 rsdp)] rsdp in
  let rsdp := put 32 [0] rsdp in
  put 32 [acpi_checksum rsdp] rsdp.

Definition build_sdt_header (signature : list Z) (total_length : Z) : list Z :=
  let h := replicate (Z.to_nat SDT_HEADER_LEN) 0 in
  let h := put 0 signature h in
  let h := put 4 (le_bytes 4 total_length) h in
  let h := put 8 [1] h in
  let h := put 10 OEM_ID h in
  let h := put 16 OEM_TABLE_ID h in
  let h := put 24 (le_bytes 4 OEM_REVISION) h in
  let h := put 28 CREATOR_ID h in
  put 32 (le_bytes 4 CREATOR_REVISION) h.

(** [t[9] = 0; t[9] = acpi_checksum(&t);]. *)
Definition set_checksum (t : list Z) : list Z :=
  let t := put 9 [0] t in put 9 [acpi_checksum t] t.

Definition build_xsdt : list Z :=
  let total_len := SDT_HEADER_LEN + 8 in
  set_checksum (build_sdt_header (bytes_of "XSDT") (wrap 32 total_len) ++ le_bytes 8 MADT_GPA).

Record MadtLapicEntry := { lapic_type : Z; lapic_length : Z; acpi_processor_id : Z; apic_id : Z; lapic_flags : Z }.

Definition lapic_to_bytes (e : MadtLapicEntry) : list Z :=
  [lapic_type e; lapic_length e; acpi_processor_id e; apic_id e] ++ le_bytes 4 (lapic_flags e).

Definition lapic_entry (i : nat) : MadtLapicEntry :=
  {| lapic_type := MADT_TYPE_LOCAL_APIC; lapic_length := MADT_LAPIC_ENTRY_LEN;
     acpi_processor_id := wrap 8 (Z.of_nat i); apic_id := wrap 8 (Z.of_nat i); lapic_flags := LAPIC_FLAGS_ENABLED |}.

Definition build_madt (cpu_count : Z) : result BootError (list Z) :=
  if cpu_count =? 0 then Err (InvalidBootParams "cpu_count must be at least 1")
  else if MAX_CPUS <? cpu_count then
    Err (InvalidBootParams ("cpu_count (" ++ fmt_dec cpu_count ++ ") exceeds maximum of 255")%string)
  else
    let total_len := SDT_HEADER_LEN + (4 + 4 + cpu_count * 8) in
    Ok (set_checksum
          (build_sdt_header (bytes_of "APIC") (wrap 32 total_len) ++
           le_bytes 4 LOCAL_APIC_ADDRESS ++ le_bytes 4 MADT_FLAGS_PCAT_COMPAT ++
           concat ((fun i => lapic_to_bytes (lapic_entry i)) <$> seq 0 (Z.to_nat cpu_count)))).

(** ** Specification: what the kernel checks and reads *)

Definition byte_sum (t : list Z) : Z := foldr Z.add 0 t mod 256.

(** A system description table: signature, length and checksum agree. *)
Definition sdt_valid (sig t : list Z) : Prop :=
  slice 0 4 t = sig /\ field 4 t 4 = zlen t /\ byte_sum t = 0 /\ bytes_ok t.

(** The processors a MADT lists: ACPI and APIC ids of its enabled local APICs,
    eight bytes each from offset 44. *)
Fixpoint parse_lapics (fuel : nat) (t : list Z) : option (list (Z * Z)) :=
  match fuel, t with
  | _, [] => Some []
  | S fuel', ty :: len :: uid :: apic :: t' =>
      if (ty =? 0) && (len =? 8) && (Z.testbit (from_le (take 4 t')) 0) && (4 <=? length t')%nat then
        rest ← parse_lapics fuel' (drop 4 t'); Some ((uid, apic) :: rest)
      else None
  | _, _ => None
  end.

Definition madt_processors (t : list Z) : option (list (Z * Z)) :=
  parse_lapics (length t) (drop 44 t).

(** ** Lemmas *)

Lemma checksum_sum acc t : foldl (wrapping_add 8) (wrap 8 acc) t = wrap 8 (acc + foldr Z.add 0 t).
Proof.
  revert acc. induction t as [|b t IH]; intros acc; cbn [foldl foldr]; [by rewrite Z.add_0_r|].
  unfold wrapping_add at 2. rewrite wrap_add_l by lia. rewrite IH. f_equal. lia.
Qed.

Lemma acpi_checksum_eq t : acpi_checksum t = wrap 8 (- foldr Z.add 0 t).
Proof.
  unfold acpi_checksum. change (foldl (wrapping_add 8) 0 t) with (foldl (wrapping_add 8) (wrap 8 0) t).
  rewrite checksum_sum, wrap_sub_r by lia. f_equal.
Qed.

Lemma sum_app l k : foldr Z.add 0 (l ++ k) = foldr Z.add 0 l + foldr Z.add 0 k.
Proof. induction l; simpl; lia. Qed.

(** Storing the checksum in a zero byte makes the sum vanish. *)
Lemma checksum_zeroes_sum t i :
  (i < length t)%nat -> byte_sum (put i [acpi_checksum (put i [0] t)] (put i [0] t)) = 0.
Proof.
  intros Hi. set (c := acpi_checksum _).
  assert (Hs : forall v, put i [v] t = take i t ++ [v] ++ drop (i + 1) t) by done.
  assert (Hp : put i [c] (put i [0] t) = put i [c] t).
  { apply list_eq. intros j. unfold put.
    rewrite !splice_lookup by (rewrite ?length_splice; simpl; lia). repeat case_decide; done || lia. }
  rewrite Hp. unfold c. rewrite acpi_checksum_eq, !Hs. unfold byte_sum, wrap.
  rewrite !sum_app. simpl. set (a := foldr _ _ (take i t)). set (b := foldr _ _ (drop _ t)). divlia.
Qed.

Lemma set_checksum_sum t : (9 < length t)%nat -> byte_sum (set_checksum t) = 0.
Proof. intros Ht. by apply checksum_zeroes_sum. Qed.

Lemma length_set_checksum t : (9 < length t)%nat -> length (set_checksum t) = length t.
Proof.
  intros Ht. unfold set_checksum, put. rewrite !length_splice; simpl; rewrite ?length_splice; simpl; lia.
Qed.

Lemma set_checksum_slice t a b :
  (a <= b <= length t)%nat -> (9 < length t)%nat -> (b <= 9 \/ 10 <= a)%nat ->
  slice a b (set_checksum t) = slice a b t.
Proof.
  intros Ha Ht Hab. unfold set_checksum, put.
  assert (Hl : length (splice 9 [0] t) = length t) by (apply length_splice; simpl; lia).
  rewrite !slice_splice_disjoint; rewrite ?Hl; simpl; try lia; done.
Qed.

Lemma set_checksum_bytes t : bytes_ok t -> bytes_ok (set_checksum t).
Proof.
  intros Ht. unfold set_checksum, put. apply bytes_ok_splice.
  - constructor; [|done]. rewrite acpi_checksum_eq. apply wrap_range. lia.
  - apply bytes_ok_splice; [decided|done].
Qed.

(** A table of a 36-byte header and a body. *)
Lemma sdt_table_valid sig body :
  length sig = 4%nat -> bytes_ok sig -> bytes_ok body -> zlen body + 36 < 2 ^ 32 ->
  let t := set_checksum (build_sdt_header sig (wrap 32 (SDT_HEADER_LEN + zlen body)) ++ body) in
  sdt_valid sig t /\ zlen t = 36 + zlen body /\ drop 36 t = body.
Proof.
  intros Hs Hsb Hb Hl. pose proof (zlen_nonneg body).
  rewrite wrap_small by (unfold in_range, SDT_HEADER_LEN; lia). unfold SDT_HEADER_LEN.
  assert (Hh : forall n, length (build_sdt_header sig n) = 36%nat).
  { intros n. do 5 (destruct sig as [|? sig]; try done). }
  set (h := build_sdt_header sig (36 + zlen body)). assert (Hhl : length h = 36%nat) by apply Hh.
  cbv zeta. set (t := h ++ body).
  assert (Htl : length t = (36 + length body)%nat) by (unfold t; rewrite length_app; lia).
  assert (Hlen : zlen (set_checksum t) = 36 + zlen body) by (unfold zlen; rewrite length_set_checksum; lia).
  unfold sdt_valid. split_and!; [| |apply set_checksum_sum; lia|apply set_checksum_bytes|done|].
  - rewrite set_checksum_slice by lia. unfold t. rewrite slice_app_l by lia.
    unfold h. do 5 (destruct sig as [|? sig]; try done).
  - rewrite Hlen. unfold field. change (Z.to_nat 4) with 4%nat. change (Z.to_nat (4 + 4)) with 8%nat.
    rewrite set_checksum_slice by lia. unfold t. rewrite slice_app_l by lia.
    replace (slice 4 8 h) with (le_bytes 4 (36 + zlen body)) by (unfold h; do 5 (destruct sig as [|? sig]; try done)).
    apply from_le_le_bytes_id. lia.
  - unfold t. apply Forall_app_2; [|done]. unfold h.
    do 9 (try apply bytes_ok_splice); try apply le_bytes_ok; try done; decided.
  - transitivity (slice 36 (36 + length body) (set_checksum t)).
    + unfold slice. rewrite take_ge; [done|]. rewrite length_drop, length_set_checksum by lia. lia.
    + rewrite set_checksum_slice by lia. unfold slice, t. rewrite drop_app_length' by lia. apply take_ge. lia.
Qed.

Lemma parse_lapics_entries n i fuel :
  (n <= fuel)%nat -> (i + n <= 256)%nat ->
  parse_lapics fuel (concat ((fun j => lapic_to_bytes (lapic_entry j)) <$> seq i n)) =
  Some ((fun j => (Z.of_nat j, Z.of_nat j)) <$> seq i n).
Proof.
  revert i fuel. induction n as [|n IH]; intros i fuel Hf Hi; [by destruct fuel|].
  destruct fuel as [|fuel]; [lia|]. cbn [seq fmap list_fmap concat].
  unfold lapic_to_bytes at 1. cbn [app parse_lapics lapic_entry lapic_type lapic_length lapic_flags
    acpi_processor_id apic_id]. rewrite take_app_length', drop_app_length' by reflexivity.
  rewrite length_app, length_le_bytes. cbn [Nat.add].
  replace (Z.testbit (from_le (le_bytes 4 LAPIC_FLAGS_ENABLED)) 0) with true by reflexivity. cbn [andb].
  rewrite IH by lia. rewrite !wrap_small by (unfold in_range; lia). done.
Qed.

Lemma length_lapics i n :
  length (concat ((fun j => lapic_to_bytes (lapic_entry j)) <$> seq i n)) = (8 * n)%nat.
Proof.
  revert i. induction n as [|n IH]; intros i; [done|]. cbn [seq fmap list_fmap concat].
  rewrite length_app, IH. change (length (lapic_to_bytes _)) with 8%nat. lia.
Qed.

Lemma lapics_bytes_ok i n : bytes_ok (concat ((fun j => lapic_to_bytes (lapic_entry j)) <$> seq i n)).
Proof.
  revert i. induction n as [|n IH]; intros i; [constructor|]. cbn [seq fmap list_fmap concat].
  apply Forall_app_2; [|apply IH]. apply Forall_app_2; [|apply le_bytes_ok].
  assert (Hw : u8 (wrap 8 (Z.of_nat i))) by (apply wrap_range; lia).
  unfold in_range in Hw. cbn [lapic_entry lapic_type lapic_length acpi_processor_id apic_id].
  repeat constructor; unfold MADT_TYPE_LOCAL_APIC, MADT_LAPIC_ENTRY_LEN; lia.
Qed.

Lemma madt_spec n :
  1 <= n <= 255 ->
  exists t, build_madt n = Ok t /\ sdt_valid (bytes_of "APIC") t /\ zlen t = 44 + 8 * n /\
    field 4 t 36 = LOCAL_APIC_ADDRESS /\
    madt_processors t = Some ((fun j => (Z.of_nat j, Z.of_nat j)) <$> seq 0 (Z.to_nat n)).
Proof.
  intros Hn. unfold build_madt, MAX_CPUS.
  rewrite (proj2 (Z.eqb_neq n 0)), (proj2 (Z.ltb_ge 255 n)) by lia.
  set (ls := concat _). set (body := le_bytes 4 LOCAL_APIC_ADDRESS ++ le_bytes 4 MADT_FLAGS_PCAT_COMPAT ++ ls).
  assert (Hls : length ls = (8 * Z.to_nat n)%nat) by apply length_lapics.
  assert (Hbl : zlen body = 8 + 8 * n).
  { unfold zlen, body. rewrite !length_app, !length_le_bytes, Hls. lia. }
  assert (Hlb : bytes_ok ls) by apply lapics_bytes_ok.
  assert (Hbb : bytes_ok body) by (repeat apply Forall_app_2; try apply le_bytes_ok; done).
  replace (4 + 4 + n * 8) with (zlen body) by lia.
  destruct (sdt_table_valid (bytes_of "APIC") body) as (Hv & Hlen & Hd); [done|decided|done|lia|].
  set (t := set_checksum _) in *. eexists. split; [reflexivity|]. fold t. split_and!; [exact Hv|lia| |].
  - unfold field. replace (slice (Z.to_nat 36) (Z.to_nat (36 + 4)) t) with (slice 0 4 (drop 36 t)) by done.
    rewrite Hd. reflexivity.
  - unfold madt_processors. replace (drop 44 t) with (drop 8 (drop 36 t)) by (by rewrite drop_drop).
    rewrite Hd. unfold body. rewrite app_assoc, drop_app_length' by reflexivity.
    apply parse_lapics_entries; unfold zlen in *; lia.
Qed.

(** ** Properties *)

(** For 1 to 255 CPUs the MADT is a valid table (signature, length and checksum
    agree) of 44 + 8n bytes, names the local APIC's address, and lists exactly
    the processors 0 to n-1, each with its own APIC id; other counts are refused. *)
Theorem madt_correct n :
  0 <= n ->
  match build_madt n with
  | Ok t =>
      1 <= n <= 255 /\ sdt_valid (bytes_of "APIC") t /\ zlen t = 44 + 8 * n /\
      field 4 t 36 = LOCAL_APIC_ADDRESS /\
      madt_processors t = Some ((fun j => (Z.of_nat j, Z.of_nat j)) <$> seq 0 (Z.to_nat n))
  | Err _ => n = 0 \/ 255 < n
  end.
Proof.
  intros Hn. destruct (decide (1 <= n <= 255)) as [Hr|Hr].
  - destruct (madt_spec n Hr) as (t & -> & ?). tauto.
  - unfold build_madt, MAX_CPUS. destruct (n =? 0) eqn:H0; b2p; [by left|].
    rewrite (proj2 (Z.ltb_lt 255 n)) by lia. right. lia.
Qed.

(** The chain the kernel follows is intact: the RSDP has both checksums and
    points to the XSDT, which is a valid table and points to the MADT; and the
    three tables do not overlap. *)
Theorem acpi_chain n t :
  build_madt n = Ok t -> 0 <= n ->
  slice 0 8 build_rsdp = bytes_of "RSD PTR " /\ zlen build_rsdp = 36 /\
  byte_sum (slice 0 20 build_rsdp) = 0 /\ byte_sum build_rsdp = 0 /\
  field 4 build_rsdp 20 = zlen build_rsdp /\ field 8 build_rsdp 24 = XSDT_GPA /\
  sdt_valid (bytes_of "XSDT") build_xsdt /\ field 8 build_xsdt 36 = MADT_GPA /\
  RSDP_GPA + zlen build_rsdp <= XSDT_GPA /\ XSDT_GPA + zlen build_xsdt <= MADT_GPA /\
  MADT_GPA + zlen t <= 0x100000.
Proof.
  intros Ht Hn.
  destruct (sdt_table_valid (bytes_of "XSDT") (le_bytes 8 MADT_GPA)) as (Hv & _ & _);
    [done|decided|apply le_bytes_ok|done|].
  assert (Htl : zlen t <= 0x1E000).
  { destruct (decide (1 <= n <= 255)) as [Hr|Hr].
    - destruct (madt_spec n Hr) as (t' & Ht' & _ & Hl & _). rewrite Ht' in Ht. injection Ht as ->. lia.
    - unfold build_madt, MAX_CPUS in Ht. destruct (n =? 0) eqn:H0; [done|]. b2p.
      rewrite (proj2 (Z.ltb_lt 255 n)) in Ht by lia. done. }
  splits; [vm_compute; reflexivity..|exact Hv|vm_compute; reflexivity|by vm_compute|by vm_compute|].
  unfold MADT_GPA. lia.
Qed.

(** ** Witnesses *)

Lemma acpi_chain_witness : exists t, build_madt 4 = Ok t /\ MADT_GPA + zlen t <= 0x100000.
Proof.
  eexists. split; [reflexivity|].
  destruct (acpi_chain 4 _ eq_refl ltac:(lia)) as (_ & _ & _ & _ & _ & _ & _ & _ & _ & _ & H). exact H.
Defined.

Lemma madt_correct_witness : exists t, build_madt 3 = Ok t /\ madt_processors t = Some [(0, 0); (1, 1); (2, 2)].
Proof.
  pose proof (madt_correct 3 ltac:(lia)) as H. destruct (build_madt 3) as [t|e] eqn:E.
  - exists t. split; [done|]. destruct H as (_ & _ & _ & _ & H). exact H.
  - exfalso. lia.
Defined.
