(* ===== verification/BootRegs.v ===== *)
(** * Boot registers

    [hitz-vmm/src/boot_regs.rs]: the GDT and TSS descriptor in guest memory and
    the system and general registers the first vCPU starts with; and, apart from
    that code, how the processor reads a descriptor, as its manual lays one out. *)

From S2P Require Import Prelude Hal Memory PageTables RunLoop.

(** ** Registers ([hitz-hal/src/types.rs]) *)

Record SegmentDescriptor := {
  seg_base : Z; seg_limit : Z; seg_selector : Z; seg_type : Z; seg_present : Z; seg_dpl : Z;
  seg_db : Z; seg_granularity : Z; seg_long_mode : Z; seg_s : Z;
}.

Record DescriptorTable := { dt_base : Z; dt_limit : Z }.

Record SpecialRegs := {
  cr0 : Z; cr3 : Z; cr4 : Z; efer : Z;
  cs : SegmentDescriptor; ds : SegmentDescriptor; es : SegmentDescriptor; fs : SegmentDescriptor;
  gs : SegmentDescriptor; ss : SegmentDescriptor; tr : SegmentDescriptor; ldt : SegmentDescriptor;
  gdt : DescriptorTable; idt : DescriptorTable;
}.

(** The vCPU's [set_sregs]. *)
Class VcpuSregs (V : Type) := set_sregs : V -> SpecialRegs -> result HalError unit * V.

(** ** Constants *)

Definition GDT_GPA : Z := 0x500.
Definition GDT_NULL : Z := 0.
Definition GDT_CODE64 : Z := 0x00AF9B000000FFFF.
Definition GDT_DATA64 : Z := 0x00CF93000000FFFF.
Definition CS_SELECTOR : Z := 0x08.
Definition DS_SELECTOR : Z := 0x10.
Definition TR_SELECTOR : Z := 0x18.
Definition GDT_ENTRY_COUNT : Z := 5.
Definition GDT_ENTRY_SIZE : Z := 8.
Definition TSS_GPA : Z := GDT_GPA + GDT_ENTRY_COUNT * GDT_ENTRY_SIZE.
Definition TSS_SIZE : Z := 0x68.
Definition lor_bits (l : list Z) : Z := foldr (fun b acc => Z.lor (Z.shiftl 1 b) acc) 0 l.
Definition CR0_LONG_MODE : Z := lor_bits [0; 1; 4; 5; 16; 18; 31].
Definition CR4_LONG_MODE : Z := lor_bits [5; 9; 10].
Definition EFER_LONG_MODE : Z := lor_bits [8; 10].
Definition RFLAGS_INIT : Z := 0x2.

(** ** Descriptors *)

Definition decode_gdt_entry (raw selector : Z) : SegmentDescriptor :=
  let base_low := Z.land (Z.shiftr raw 16) 0xFFFF in
  let base_mid := Z.land (Z.shiftr raw 32) 0xFF in
  let base_high := Z.land (Z.shiftr raw 56) 0xFF in
  let base := Z.lor (Z.lor (Z.shiftl base_high 24) (Z.shiftl base_mid 16)) base_low in
  let limit_low := Z.land raw 0xFFFF in
  let limit_high := Z.land (Z.shiftr raw 48) 0x0F in
  let granularity := wrap 8 (Z.land (Z.shiftr raw 55) 1) in
  let limit_raw := Z.lor (Z.shiftl limit_high 16) limit_low in
  let limit := if granularity =? 1 then wrap 32 (Z.lor (Z.shiftl limit_raw 12) 0xFFF) else wrap 32 limit_raw in
  let access := wrap 8 (Z.land (Z.shiftr raw 40) 0xFF) in
  let flags := wrap 8 (Z.land (Z.shiftr raw 52) 0x0F) in
  {| seg_base := base; seg_limit := limit; seg_selector := selector;
     seg_type := Z.land access 0x0F; seg_s := Z.land (Z.shiftr access 4) 1;
     seg_dpl := Z.land (Z.shiftr access 5) 3; seg_present := Z.land (Z.shiftr access 7) 1;
     seg_long_mode := Z.land (Z.shiftr flags 1) 1; seg_db := Z.land (Z.shiftr flags 2) 1;
     seg_granularity := granularity |}.

Definition null_segment (selector : Z) : SegmentDescriptor :=
  {| seg_base := 0; seg_limit := 0; seg_selector := selector; seg_type := 0; seg_s := 0; seg_dpl := 0;
     seg_present := 0; seg_long_mode := 0; seg_db := 0; seg_granularity := 0 |}.

Definition build_tss_descriptor (base limit : Z) : Z * Z :=
  let base_lo := Z.land base 0xFFFF in
  let base_mid := Z.land (Z.shiftr base 16) 0xFF in
  let base_hi := Z.land (Z.shiftr base 24) 0xFF in
  let base_upper := Z.shiftr base 32 in
  let limit_lo := Z.land limit 0xFFFF in
  let limit_hi := Z.land (Z.shiftr limit 16) 0xF in
  (Z.lor (Z.lor (Z.lor (Z.lor (Z.lor limit_lo (Z.shiftl base_lo 16)) (Z.shiftl base_mid 32)) (Z.shiftl 0x89 40))
            (Z.shiftl limit_hi 48)) (Z.shiftl base_hi 56),
   base_upper).

(** ** Setting up *)

Definition gdt_entries : list Z :=
  let '(tss_low, tss_high) := build_tss_descriptor TSS_GPA (TSS_SIZE - 1) in
  [GDT_NULL; GDT_CODE64; GDT_DATA64; tss_low; tss_high].

Fixpoint write_entries (m : GuestMemory) (i : Z) (entries : list Z) : result MemError GuestMemory :=
  match entries with
  | [] => Ok m
  | e :: entries' => m' ← write_u64 m (GDT_GPA + i * GDT_ENTRY_SIZE) e; write_entries m' (i + 1) entries'
  end.

Definition write_gdt (m : GuestMemory) : result MemError GuestMemory := write_entries m 0 gdt_entries.

Definition boot_sregs (pml4_gpa : Z) : SpecialRegs :=
  let data := decode_gdt_entry GDT_DATA64 DS_SELECTOR in
  {| cr0 := CR0_LONG_MODE; cr3 := pml4_gpa; cr4 := CR4_LONG_MODE; efer := EFER_LONG_MODE;
     cs := decode_gdt_entry GDT_CODE64 CS_SELECTOR; ds := data; es := data; fs := data; gs := data; ss := data;
     tr := {| seg_base := TSS_GPA; seg_limit := wrap 32 (TSS_SIZE - 1); seg_selector := TR_SELECTOR;
              seg_type := 0xB; seg_s := 0; seg_dpl := 0; seg_present := 1; seg_long_mode := 0; seg_db := 0;
              seg_granularity := 0 |};
     ldt := null_segment 0;
     gdt := {| dt_base := GDT_GPA; dt_limit := wrap 16 (GDT_ENTRY_COUNT * GDT_ENTRY_SIZE - 1) |};
     idt := {| dt_base := 0; dt_limit := 0xFFFF |} |}.

Definition configure_sregs {V} `{VcpuSregs V} (vcpu : V) (pml4_gpa : Z) : result HalError unit * V :=
  set_sregs vcpu (boot_sregs pml4_gpa).

Definition boot_std_regs (entry_point boot_params_gpa : Z) : StandardRegs :=
  {| rip := entry_point; rsi := boot_params_gpa; rsp := 0; rflags := RFLAGS_INIT;
     rax := 0; rbx := 0; rcx := 0; rdx := 0; rdi := 0; rbp := 0; r8 := 0; r9 := 0; r10 := 0; r11 := 0;
     r12 := 0; r13 := 0; r14 := 0; r15 := 0 |}.

Definition configure_regs {V} `{Vcpu V} (vcpu : V) (entry_point boot_params_gpa : Z) : result HalError unit * V :=
  set_regs vcpu (boot_std_regs entry_point boot_params_gpa).

(** ** Specification: the processor's descriptor format

    A descriptor is the sum of its fields at their bit positions; [lim] is the
    20-bit limit, in pages when [g] is set. *)
Definition encode_descriptor (base lim type s dpl p avl l db g : Z) : Z :=
  lim mod 2 ^ 16 + base mod 2 ^ 16 * 2 ^ 16 + base / 2 ^ 16 mod 2 ^ 8 * 2 ^ 32 + type * 2 ^ 40 + s * 2 ^ 44 +
  dpl * 2 ^ 45 + p * 2 ^ 47 + lim / 2 ^ 16 * 2 ^ 48 + avl * 2 ^ 52 + l * 2 ^ 53 + db * 2 ^ 54 + g * 2 ^ 55 +
  base / 2 ^ 24 * 2 ^ 56.

(** The fields of a quadword where the processor's manual has them: base and limit
    in parts, the limit in units of 4 KiB when the granularity bit is set. *)
Definition bits (q lo n : Z) : Z := q / 2 ^ lo mod 2 ^ n.

Definition segment_of (q selector : Z) : SegmentDescriptor :=
  let lim := bits q 0 16 + bits q 48 4 * 0x10000 in
  {| seg_base := bits q 16 16 + bits q 32 8 * 0x10000 + bits q 56 8 * 0x1000000;
     seg_limit := if bits q 55 1 =? 1 then lim * 0x1000 + 0xFFF else lim;
     seg_selector := selector; seg_type := bits q 40 4; seg_s := bits q 44 1; seg_dpl := bits q 45 2;
     seg_present := bits q 47 1; seg_long_mode := bits q 53 1; seg_db := bits q 54 1; seg_granularity := bits q 55 1 |}.

(** What the processor loads for a selector: a quadword of the table, and for a
    system segment the upper half of its base from the next; a TSS is marked busy. *)
Definition load_segment_from (m : GuestMemory) (table : DescriptorTable) (selector : Z) : option SegmentDescriptor :=
  if dt_limit table <? selector + 7 then None
  else q ← res_ok (read_u64 m (dt_base table + selector)); Some (segment_of q selector).

Definition load_tss_from (m : GuestMemory) (table : DescriptorTable) (selector : Z) : option SegmentDescriptor :=
  if dt_limit table <? selector + 15 then None
  else
    q ← res_ok (read_u64 m (dt_base table + selector));
    high ← res_ok (read_u64 m (dt_base table + selector + 8));
    let d := segment_of q selector in
    Some {| seg_base := seg_base d + high mod 2 ^ 32 * 2 ^ 32; seg_limit := seg_limit d; seg_selector := selector;
            seg_type := seg_type d + (if Z.testbit (seg_type d) 1 then 0 else 2); seg_present := seg_present d;
            seg_dpl := seg_dpl d; seg_db := seg_db d; seg_granularity := seg_granularity d;
            seg_long_mode := seg_long_mode d; seg_s := seg_s d |}.

(** A present segment of the kernel over the whole 32-bit space: bit 3 of its type
    tells code from data, bit 1 that code can be read, and data written. *)
Definition flat (code : bool) (d : SegmentDescriptor) : bool :=
  (seg_base d =? 0) && (seg_limit d =? 0xFFFFFFFF) && (seg_present d =? 1) && (seg_s d =? 1) && (seg_dpl d =? 0) &&
  Bool.eqb (Z.testbit (seg_type d) 3) code && Z.testbit (seg_type d) 1.

(** 64-bit mode: protection, paging, PAE and the long-mode bits; a flat 64-bit code
    segment; flat data segments; a busy 64-bit TSS. *)
Definition in_long_mode (s : SpecialRegs) : bool :=
  Z.testbit (cr0 s) 0 && Z.testbit (cr0 s) 31 && Z.testbit (cr4 s) 5 && Z.testbit (efer s) 8 &&
  Z.testbit (efer s) 10 && flat true (cs s) && (seg_long_mode (cs s) =? 1) && (seg_db (cs s) =? 0) &&
  forallb (flat false) [ds s; es s; fs s; gs s; ss s] &&
  (seg_type (tr s) =? 0xB) && (seg_s (tr s) =? 0) && (seg_present (tr s) =? 1) && (0x67 <=? seg_limit (tr s)).

(** Once the entries are in memory, the processor loads the caches from them. *)
Definition gdt_loads (m : GuestMemory) (s : SpecialRegs) : Prop :=
  load_segment_from m (gdt s) CS_SELECTOR = Some (cs s) /\
  Forall (fun d => load_segment_from m (gdt s) DS_SELECTOR = Some d) [ds s; es s; fs s; gs s; ss s] /\
  load_tss_from m (gdt s) TR_SELECTOR = Some (tr s).

(** ** Lemmas: bit fields *)

Lemma land_mod x w : 0 <= w -> Z.land x (Z.ones w) = x mod 2 ^ w.
Proof. intros. by apply Z.land_ones. Qed.

(** The field of [w] bits at position [k]. *)
Lemma field_extract x lo f hi k w :
  0 <= k -> 0 <= w -> 0 <= lo < 2 ^ k -> in_range w f -> x = lo + f * 2 ^ k + hi * (2 ^ k * 2 ^ w) ->
  Z.land (Z.shiftr x k) (Z.ones w) = f.
Proof.
  intros Hk Hw Hlo Hf ->. rewrite land_mod, Z.shiftr_div_pow2 by done. unfold in_range in Hf.
  replace (lo + f * 2 ^ k + hi * (2 ^ k * 2 ^ w)) with (lo + (f + hi * 2 ^ w) * 2 ^ k) by lia.
  rewrite Z.div_add, Z.div_small, Z.add_0_l by lia. rewrite Z.mod_add, Z.mod_small by lia. done.
Qed.

Section Encode.
Context (b0 b1 b2 l0 l1 type s dpl p avl l db g : Z).
Hypothesis (Hb0 : u16 b0) (Hb1 : u8 b1) (Hb2 : u8 b2) (Hl0 : u16 l0) (Hl1 : in_range 4 l1).
Hypothesis (Ht : in_range 4 type) (Hs : in_range 1 s) (Hd : in_range 2 dpl) (Hp : in_range 1 p).
Hypothesis (Ha : in_range 1 avl) (Hl : in_range 1 l) (Hdb : in_range 1 db) (Hg : in_range 1 g).

Definition raw_of : Z :=
  l0 + b0 * 2 ^ 16 + b1 * 2 ^ 32 + type * 2 ^ 40 + s * 2 ^ 44 + dpl * 2 ^ 45 + p * 2 ^ 47 + l1 * 2 ^ 48 +
  avl * 2 ^ 52 + l * 2 ^ 53 + db * 2 ^ 54 + g * 2 ^ 55 + b2 * 2 ^ 56.

Ltac extract lo hi := apply (field_extract _ lo _ hi); unfold in_range, raw_of in *; lia.

Lemma extract_access :
  Z.land (Z.shiftr raw_of 40) (Z.ones 8) = type + s * 16 + dpl * 32 + p * 128.
Proof.
  extract (l0 + b0 * 2 ^ 16 + b1 * 2 ^ 32) (l1 + avl * 16 + l * 32 + db * 64 + g * 128 + b2 * 256).
Qed.

Lemma extract_flags : Z.land (Z.shiftr raw_of 52) (Z.ones 4) = avl + l * 2 + db * 4 + g * 8.
Proof.
  extract (l0 + b0 * 2 ^ 16 + b1 * 2 ^ 32 + type * 2 ^ 40 + s * 2 ^ 44 + dpl * 2 ^ 45 + p * 2 ^ 47 + l1 * 2 ^ 48) b2.
Qed.

Lemma extract_g : Z.land (Z.shiftr raw_of 55) (Z.ones 1) = g.
Proof.
  extract (l0 + b0 * 2 ^ 16 + b1 * 2 ^ 32 + type * 2 ^ 40 + s * 2 ^ 44 + dpl * 2 ^ 45 + p * 2 ^ 47 + l1 * 2 ^ 48 +
    avl * 2 ^ 52 + l * 2 ^ 53 + db * 2 ^ 54) b2.
Qed.

Lemma extract_base :
  Z.lor (Z.lor (Z.shiftl (Z.land (Z.shiftr raw_of 56) (Z.ones 8)) 24)
               (Z.shiftl (Z.land (Z.shiftr raw_of 32) (Z.ones 8)) 16)) (Z.land (Z.shiftr raw_of 16) (Z.ones 16)) =
  b0 + b1 * 2 ^ 16 + b2 * 2 ^ 24.
Proof.
  assert (H2 : Z.land (Z.shiftr raw_of 56) (Z.ones 8) = b2).
  { extract (l0 + b0 * 2 ^ 16 + b1 * 2 ^ 32 + type * 2 ^ 40 + s * 2 ^ 44 + dpl * 2 ^ 45 + p * 2 ^ 47 + l1 * 2 ^ 48 +
      avl * 2 ^ 52 + l * 2 ^ 53 + db * 2 ^ 54 + g * 2 ^ 55) 0. }
  assert (H1 : Z.land (Z.shiftr raw_of 32) (Z.ones 8) = b1).
  { extract (l0 + b0 * 2 ^ 16) (type + s * 2 ^ 4 + dpl * 2 ^ 5 + p * 2 ^ 7 + l1 * 2 ^ 8 + avl * 2 ^ 12 + l * 2 ^ 13 +
      db * 2 ^ 14 + g * 2 ^ 15 + b2 * 2 ^ 16). }
  assert (H0 : Z.land (Z.shiftr raw_of 16) (Z.ones 16) = b0).
  { extract l0 (b1 + type * 2 ^ 8 + s * 2 ^ 12 + dpl * 2 ^ 13 + p * 2 ^ 15 + l1 * 2 ^ 16 + avl * 2 ^ 20 + l * 2 ^ 21 +
      db * 2 ^ 22 + g * 2 ^ 23 + b2 * 2 ^ 24). }
  rewrite H0, H1, H2. unfold in_range in *.
  replace (Z.shiftl b2 24) with (Z.shiftl (Z.shiftl b2 8) 16) by (by rewrite Z.shiftl_shiftl).
  rewrite <- Z.shiftl_lor, (Z.lor_comm (Z.shiftl b2 8)), (lor_shiftl_add 8) by (unfold in_range; lia).
  rewrite Z.lor_comm, lor_shiftl_add by (unfold in_range; lia). lia.
Qed.

Lemma extract_limit :
  Z.lor (Z.shiftl (Z.land (Z.shiftr raw_of 48) (Z.ones 4)) 16) (Z.land raw_of (Z.ones 16)) = l0 + l1 * 2 ^ 16.
Proof.
  assert (H1 : Z.land (Z.shiftr raw_of 48) (Z.ones 4) = l1).
  { extract (l0 + b0 * 2 ^ 16 + b1 * 2 ^ 32 + type * 2 ^ 40 + s * 2 ^ 44 + dpl * 2 ^ 45 + p * 2 ^ 47)
      (avl + l * 2 + db * 4 + g * 8 + b2 * 16). }
  assert (H0 : Z.land raw_of (Z.ones 16) = l0).
  { rewrite <- (Z.shiftr_0_r raw_of). extract 0 (b0 + b1 * 2 ^ 16 + type * 2 ^ 24 + s * 2 ^ 28 + dpl * 2 ^ 29 + p * 2 ^ 31 +
      l1 * 2 ^ 32 + avl * 2 ^ 36 + l * 2 ^ 37 + db * 2 ^ 38 + g * 2 ^ 39 + b2 * 2 ^ 40). }
  rewrite H0, H1, Z.lor_comm. unfold in_range in *. rewrite lor_shiftl_add by (unfold in_range; lia). lia.
Qed.

Lemma decode_raw sel :
  decode_gdt_entry raw_of sel =
  {| seg_base := b0 + b1 * 2 ^ 16 + b2 * 2 ^ 24;
     seg_limit := if g =? 1 then (l0 + l1 * 2 ^ 16) * 4096 + 4095 else l0 + l1 * 2 ^ 16;
     seg_selector := sel; seg_type := type; seg_present := p; seg_dpl := dpl; seg_db := db;
     seg_granularity := g; seg_long_mode := l; seg_s := s |}.
Proof.
  unfold decode_gdt_entry.
  change 0xFFFF with (Z.ones 16). change 0xFF with (Z.ones 8). change 0x0F with (Z.ones 4).
  change 3 with (Z.ones 2) at 1. change (Z.land (Z.shiftr raw_of 55) 1) with (Z.land (Z.shiftr raw_of 55) (Z.ones 1)).
  rewrite extract_base, extract_limit, extract_access, extract_flags, extract_g.
  unfold in_range in *. rewrite !(wrap_small 8) by (unfold in_range; lia).
  f_equal.
  - case_on; [|by rewrite wrap_small by (unfold in_range; lia)]. b2p. change 0xFFF with (Z.ones 12).
    rewrite Z.lor_comm, lor_shiftl_add by (decided || lia). change (Z.ones 12) with 4095.
    rewrite wrap_small by (unfold in_range; lia). lia.
  - change 15 with (Z.ones 4). rewrite <- (Z.shiftr_0_r (type + _ + _ + _)). extract 0 (s + dpl * 2 + p * 8).
  - change 1 with (Z.ones 1). extract (type + s * 16 + dpl * 32) 0.
  - change 3 with (Z.ones 2). extract (type + s * 16) p.
  - change 1 with (Z.ones 1) at 1. extract (avl + l * 2) g.
  - change 1 with (Z.ones 1) at 2. extract avl (db + g * 2).
  - change 1 with (Z.ones 1). extract type (dpl + p * 4).
Qed.

End Encode.

Lemma encode_raw base lim type s dpl p avl l db g :
  encode_descriptor base lim type s dpl p avl l db g =
  raw_of (base mod 2 ^ 16) (base / 2 ^ 16 mod 2 ^ 8) (base / 2 ^ 24) (lim mod 2 ^ 16) (lim / 2 ^ 16) type s dpl p avl l db g.
Proof. unfold encode_descriptor, raw_of. lia. Qed.

Lemma decoded_descriptor base lim type s dpl p avl l db g sel :
  u32 base -> in_range 20 lim -> in_range 4 type -> in_range 1 s -> in_range 2 dpl -> in_range 1 p ->
  in_range 1 avl -> in_range 1 l -> in_range 1 db -> in_range 1 g ->
  decode_gdt_entry (encode_descriptor base lim type s dpl p avl l db g) sel =
  {| seg_base := base; seg_limit := if g =? 1 then lim * 4096 + 4095 else lim; seg_selector := sel;
     seg_type := type; seg_present := p; seg_dpl := dpl; seg_db := db; seg_granularity := g;
     seg_long_mode := l; seg_s := s |}.
Proof.
  intros Hb Hl Ht Hs Hd Hp Ha Hlm Hdb Hg. rewrite encode_raw.
  assert (Eb : base mod 2 ^ 16 + base / 2 ^ 16 mod 2 ^ 8 * 2 ^ 16 + base / 2 ^ 24 * 2 ^ 24 = base)
    by (unfold in_range in *; divlia).
  assert (El : lim mod 2 ^ 16 + lim / 2 ^ 16 * 2 ^ 16 = lim) by (unfold in_range in *; divlia).
  rewrite decode_raw; try done; try (unfold in_range in *; divlia). by rewrite Eb, El.
Qed.

(** *** Every quadword *)

Lemma bits_range q lo n : 0 <= n -> in_range n (bits q lo n).
Proof. intros Hn. unfold in_range, bits. apply Z.mod_pos_bound. lia. Qed.

Lemma bits_split q lo n hi : hi = lo + n -> 0 <= lo -> 0 <= n -> q / 2 ^ lo = bits q lo n + 2 ^ n * (q / 2 ^ hi).
Proof. intros -> ? ?. unfold bits. rewrite Z.pow_add_r, <- Z.div_div by lia. pose proof (Z.div_mod (q / 2 ^ lo) (2 ^ n)). lia. Qed.

Lemma quadword_fields q : u64 q ->
  q = raw_of (bits q 16 16) (bits q 32 8) (bits q 56 8) (bits q 0 16) (bits q 48 4) (bits q 40 4) (bits q 44 1) (bits q 45 2)
        (bits q 47 1) (bits q 52 1) (bits q 53 1) (bits q 54 1) (bits q 55 1).
Proof.
  intros Hq. unfold raw_of, in_range in *.
  pose proof (bits_split q 0 16 16 eq_refl ltac:(lia) ltac:(lia)) as H0.
  pose proof (bits_split q 16 16 32 eq_refl ltac:(lia) ltac:(lia)) as H1.
  pose proof (bits_split q 32 8 40 eq_refl ltac:(lia) ltac:(lia)) as H2.
  pose proof (bits_split q 40 4 44 eq_refl ltac:(lia) ltac:(lia)) as H3.
  pose proof (bits_split q 44 1 45 eq_refl ltac:(lia) ltac:(lia)) as H4.
  pose proof (bits_split q 45 2 47 eq_refl ltac:(lia) ltac:(lia)) as H5.
  pose proof (bits_split q 47 1 48 eq_refl ltac:(lia) ltac:(lia)) as H6.
  pose proof (bits_split q 48 4 52 eq_refl ltac:(lia) ltac:(lia)) as H7.
  pose proof (bits_split q 52 1 53 eq_refl ltac:(lia) ltac:(lia)) as H8.
  pose proof (bits_split q 53 1 54 eq_refl ltac:(lia) ltac:(lia)) as H9.
  pose proof (bits_split q 54 1 55 eq_refl ltac:(lia) ltac:(lia)) as H10.
  pose proof (bits_split q 55 1 56 eq_refl ltac:(lia) ltac:(lia)) as H11.
  pose proof (bits_split q 56 8 64 eq_refl ltac:(lia) ltac:(lia)) as H12.
  rewrite Z.div_1_r in H0. assert (Htop : q / 2 ^ 64 = 0) by (by apply Z.div_small). rewrite Htop in H12. lia.
Qed.

Lemma decode_segment_of q selector : u64 q -> decode_gdt_entry q selector = segment_of q selector.
Proof.
  intros Hq. rewrite (quadword_fields q Hq) at 1. rewrite decode_raw by (apply bits_range; lia).
  unfold segment_of. f_equal; lia.
Qed.

Lemma tss_descriptor_encoded base limit :
  u64 base -> in_range 20 limit ->
  build_tss_descriptor base limit = (encode_descriptor (base mod 2 ^ 32) limit 9 0 0 1 0 0 0 0, base / 2 ^ 32).
Proof.
  intros Hb Hl. unfold build_tss_descriptor. rewrite Z.shiftr_div_pow2 with (n := 32) by lia. f_equal.
  change 0xFFFF with (Z.ones 16). change 0xFF with (Z.ones 8). change 0xF with (Z.ones 4).
  rewrite !land_mod, !Z.shiftr_div_pow2 by lia. unfold in_range in *.
  set (l0 := limit mod 2 ^ 16). set (l1 := limit / 2 ^ 16 mod 2 ^ 4). set (b0 := base mod 2 ^ 16).
  set (b1 := base / 2 ^ 16 mod 2 ^ 8). set (b2 := base / 2 ^ 24 mod 2 ^ 8).
  assert (0 <= l0 < 2 ^ 16) by (apply Z.mod_pos_bound; lia). assert (0 <= l1 < 2 ^ 4) by (apply Z.mod_pos_bound; lia).
  assert (0 <= b0 < 2 ^ 16) by (apply Z.mod_pos_bound; lia). assert (0 <= b1 < 2 ^ 8) by (apply Z.mod_pos_bound; lia).
  assert (0 <= b2 < 2 ^ 8) by (apply Z.mod_pos_bound; lia).
  rewrite (lor_shiftl_add 16 l0), (lor_shiftl_add 32), (lor_shiftl_add 40), (lor_shiftl_add 48), (lor_shiftl_add 56)
    by (unfold in_range; lia). rewrite encode_raw. unfold raw_of.
  assert (E0 : base mod 2 ^ 32 mod 2 ^ 16 = b0) by (unfold b0; divlia).
  assert (E1 : base mod 2 ^ 32 / 2 ^ 16 mod 2 ^ 8 = b1) by (unfold b1; divlia).
  assert (E2 : base mod 2 ^ 32 / 2 ^ 24 = b2) by (unfold b2; divlia).
  assert (E3 : limit / 2 ^ 16 = l1) by (unfold l1; divlia).
  rewrite E0, E1, E2, E3. fold l0. lia.
Qed.

(** ** Lemmas: the table in memory *)

Lemma write_entries_spec entries i m :
  memory_wf m -> 0 <= i -> Forall u64 entries ->
  (forall k, (k < length entries)%nat -> is_ok (read_slice m (GDT_GPA + (i + Z.of_nat k) * 8) 8) = true) ->
  exists m', write_entries m i entries = Ok m' /\ memory_wf m' /\ regions m' = regions m /\
    (forall k e, entries !! k = Some e -> read_u64 m' (GDT_GPA + (i + Z.of_nat k) * 8) = Ok e) /\
    (forall g n, disjoint_range (GDT_GPA + i * 8) (8 * zlen entries) g (Z.of_nat n) ->
       read_slice m' g n = read_slice m g n).
Proof.
  revert i m. induction entries as [|e entries IH]; intros i m Hwf Hi He Hr.
  { exists m. split_and!; [done..| |done]. intros k e Hk. by rewrite lookup_nil in Hk. }
  apply Forall_cons in He as [He Hes]. cbn [write_entries]. unfold write_u64, GDT_ENTRY_SIZE.
  assert (Hok : is_ok (write_slice m (GDT_GPA + i * 8) (le_bytes 8 e)) = true).
  { rewrite write_slice_is_ok, length_le_bytes. specialize (Hr 0%nat ltac:(simpl; lia)). by rewrite Z.add_0_r in Hr. }
  destruct (write_slice m (GDT_GPA + i * 8) (le_bytes 8 e)) as [m1|] eqn:E; [|done].
  pose proof (write_slice_regions _ _ _ _ E) as Hreg.
  destruct (write_slice_bytes _ _ _ _ Hwf (le_bytes_ok 8 e) E) as [Hwf1 _].
  assert (Hz : zlen (le_bytes 8 e) = 8) by (unfold zlen; by rewrite length_le_bytes).
  destruct (IH (i + 1) m1 Hwf1 ltac:(lia) Hes) as (m' & E' & Hwf' & Hreg' & Hin & Hout).
  { intros k Hk. rewrite (read_slice_is_ok m1 m) by done. specialize (Hr (S k) ltac:(simpl; lia)).
    replace (i + 1 + Z.of_nat k) with (i + Z.of_nat (S k)) by lia. done. }
  exists m'. cbn [mbind result_bind]. rewrite zlen_cons. split_and!; [done|done|congruence| |].
  - intros [|k] e' Hk.
    + injection Hk as <-. rewrite Z.add_0_r. unfold read_u64.
      rewrite Hout by (right; lia). rewrite <- (length_le_bytes 8 e) at 1.
      rewrite (read_slice_write_same _ _ _ _ Hwf (le_bytes_ok 8 e) E). cbn [mbind result_bind].
      by rewrite from_le_le_bytes_id.
    + specialize (Hin k e' Hk). by replace (i + Z.of_nat (S k)) with (i + 1 + Z.of_nat k) by lia.
  - intros g n Hd. pose proof (zlen_nonneg entries). unfold disjoint_range in *.
    rewrite Hout by lia. apply (read_slice_write_disjoint _ _ _ _ _ _ Hwf (le_bytes_ok 8 e) E).
    unfold disjoint_range. rewrite Hz. lia.
Qed.

Lemma gdt_entries_load m pml4 :
  (forall k e, gdt_entries !! k = Some e -> read_u64 m (GDT_GPA + (0 + Z.of_nat k) * 8) = Ok e) ->
  gdt_loads m (boot_sregs pml4).
Proof.
  intros Hin.
  pose proof (Hin 1%nat GDT_CODE64 eq_refl) as H1. pose proof (Hin 2%nat GDT_DATA64 eq_refl) as H2.
  pose proof (Hin 3%nat _ eq_refl) as H3. pose proof (Hin 4%nat _ eq_refl) as H4.
  change (GDT_GPA + (0 + Z.of_nat 1) * 8) with (dt_base (gdt (boot_sregs pml4)) + CS_SELECTOR) in H1.
  change (GDT_GPA + (0 + Z.of_nat 2) * 8) with (dt_base (gdt (boot_sregs pml4)) + DS_SELECTOR) in H2.
  change (GDT_GPA + (0 + Z.of_nat 3) * 8) with (dt_base (gdt (boot_sregs pml4)) + TR_SELECTOR) in H3.
  change (GDT_GPA + (0 + Z.of_nat 4) * 8) with (dt_base (gdt (boot_sregs pml4)) + TR_SELECTOR + 8) in H4.
  unfold gdt_loads. rewrite !Forall_cons, Forall_nil. split_and!; try done; unfold load_segment_from, load_tss_from;
    (replace (dt_limit _ <? _) with false by reflexivity); [rewrite H1|rewrite H2..|rewrite H3, H4];
    (vm_compute; reflexivity).
Qed.

(** ** Properties *)

(** [decode_gdt_entry] inverts the processor's descriptor format, for every
    base, limit, type, privilege level and flag combination. *)
Theorem descriptor_roundtrip base lim type s dpl p avl l db g sel :
  u32 base -> in_range 20 lim -> in_range 4 type -> in_range 1 s -> in_range 2 dpl -> in_range 1 p ->
  in_range 1 avl -> in_range 1 l -> in_range 1 db -> in_range 1 g ->
  decode_gdt_entry (encode_descriptor base lim type s dpl p avl l db g) sel =
  {| seg_base := base; seg_limit := if g =? 1 then lim * 4096 + 4095 else lim; seg_selector := sel;
     seg_type := type; seg_present := p; seg_dpl := dpl; seg_db := db; seg_granularity := g;
     seg_long_mode := l; seg_s := s |}.
Proof. apply decoded_descriptor. Qed.

(** C33: After [write_gdt] the descriptor caches [configure_sregs] sets are the ones
    the processor would load from the table in memory, field by field as its manual
    lays a descriptor out (the TSS marked busy); with the control registers they put
    it in 64-bit mode over flat segments, and no other memory changed.  Whatever is
    in a table, [decode_gdt_entry] reads it as the processor does. *)
Theorem gdt_matches_sregs m pml4 :
  memory_wf m -> (forall k, (k < 5)%nat -> is_ok (read_slice m (0x500 + Z.of_nat k * 8) 8) = true) ->
  let s := boot_sregs pml4 in
  in_long_mode s = true /\ cr3 s = pml4 /\ gdt s = {| dt_base := 0x500; dt_limit := 39 |} /\
  (exists m', write_gdt m = Ok m' /\ memory_wf m' /\ gdt_loads m' s /\
    (forall g n, disjoint_range 0x500 40 g (Z.of_nat n) -> read_slice m' g n = read_slice m g n)) /\
  forall q selector, u64 q -> decode_gdt_entry q selector = segment_of q selector.
Proof.
  cbv zeta. intros Hwf Hr. split_and!; [by vm_compute|done|done| |apply decode_segment_of].
  destruct (write_entries_spec gdt_entries 0 m Hwf) as (m' & E & Hwf' & _ & Hin & Hout); [lia|decided|exact Hr|].
  exists m'. split_and!; [done|done|by apply gdt_entries_load|done].
Qed.

(** ** Witnesses *)

Lemma descriptor_roundtrip_witness :
  seg_limit (decode_gdt_entry (encode_descriptor 0 0xFFFFF 0xB 1 0 1 0 1 0 1) 8) = 0xFFFFFFFF.
Proof.
  rewrite (descriptor_roundtrip 0 0xFFFFF 0xB 1 0 1 0 1 0 1 8); [reflexivity|decided..].
Defined.

Lemma gdt_matches_sregs_witness :
  exists m', write_gdt demo_ram = Ok m' /\
    load_segment_from m' {| dt_base := 0x500; dt_limit := 39 |} 0x10 =
      Some {| seg_base := 0; seg_limit := 0xFFFFFFFF; seg_selector := 0x10; seg_type := 3; seg_present := 1; seg_dpl := 0;
              seg_db := 1; seg_granularity := 1; seg_long_mode := 0; seg_s := 1 |} /\
    decode_gdt_entry 0x1234567890ABCDEF 8 = segment_of 0x1234567890ABCDEF 8.
Proof.
  destruct (gdt_matches_sregs demo_ram PML4_GPA demo_ram_wf) as (_ & _ & Eg & (m' & E & _ & (_ & Hd & _) & _) & Hq).
  - intros k Hk. apply demo_readable; [apply demo_ram_wf|done|lia..].
  - exists m'. split; [exact E|]. split; [|apply Hq; decided]. apply Forall_inv in Hd. rewrite Eg in Hd. exact Hd.
Defined.
