(* ===== verification/Ethernet.v ===== *)
(** * Ethernet frames and addresses

    [hitz-net/src/ethernet.rs]: frame headers, the gateway's ARP replies, MAC and
    CIDR texts.  Texts are byte strings; a random MAC's seed is an argument. *)

From Stdlib Require Import String Ascii.
From stdpp Require Import strings.
From S2P Require Import Prelude Memory.

(** ** Frames *)

Definition ETH_HEADER_LEN : nat := 14.
Definition ETHERTYPE_IPV4 : Z := 0x0800.
Definition ETHERTYPE_IPV6 : Z := 0x86DD.
Definition ETHERTYPE_ARP : Z := 0x0806.
Definition ARP_OP_REQUEST : Z := 1.
Definition ARP_OP_REPLY : Z := 2.

Record EthHeader := { dst_mac : list Z; src_mac : list Z; ethertype : Z }.

(** [u16::to_be_bytes] and [u16::from_be_bytes]. *)
Definition be16 (v : Z) : list Z := [v / 256; v mod 256].
Definition from_be16 (hi lo : Z) : Z := hi * 256 + lo.

(** [frame[i]], in range. *)
Definition at_ (l : list Z) (i : nat) : Z := l !!! i.

Definition parse_eth_header (frame : list Z) : option EthHeader :=
  if (length frame <? ETH_HEADER_LEN)%nat then None
  else Some {| dst_mac := slice 0 6 frame; src_mac := slice 6 12 frame;
               ethertype := from_be16 (at_ frame 12) (at_ frame 13) |}.

Definition build_eth_frame (src dst : list Z) (ethertype : Z) (payload : list Z) : list Z :=
  dst ++ src ++ be16 ethertype ++ payload.

Definition strip_eth_header (frame : list Z) : option (list Z) :=
  if (length frame <? ETH_HEADER_LEN)%nat then None else Some (drop ETH_HEADER_LEN frame).

Definition ethertype_from_ip (packet : list Z) : Z :=
  match packet with
  | [] => ETHERTYPE_IPV4
  | b :: _ => if Z.shiftr b 4 =? 6 then ETHERTYPE_IPV6 else ETHERTYPE_IPV4
  end.

Definition build_arp_reply (request_frame gateway_mac gateway_ip : list Z) : option (list Z) :=
  if (length request_frame <? 42)%nat then None else
  eth ← parse_eth_header request_frame;
  if negb (ethertype eth =? ETHERTYPE_ARP) then None else
  let arp := drop ETH_HEADER_LEN request_frame in
  let hw_type := from_be16 (at_ arp 0) (at_ arp 1) in
  let proto_type := from_be16 (at_ arp 2) (at_ arp 3) in
  let hw_len := at_ arp 4 in
  let proto_len := at_ arp 5 in
  let op := from_be16 (at_ arp 6) (at_ arp 7) in
  if negb (hw_type =? 1) || negb (proto_type =? 0x0800) || negb (hw_len =? 6) || negb (proto_len =? 4) then None
  else if negb (op =? ARP_OP_REQUEST) then None
  else
    let sender_mac := slice 8 14 arp in
    let sender_ip := slice 14 18 arp in
    let target_ip := slice 24 28 arp in
    if negb (bool_decide (target_ip = gateway_ip)) then None
    else
      let r := replicate 28 0 in
      let r := splice 0 (be16 1) r in
      let r := splice 2 (be16 0x0800) r in
      let r := splice 4 [6] r in
      let r := splice 5 [4] r in
      let r := splice 6 (be16 ARP_OP_REPLY) r in
      let r := splice 8 gateway_mac r in
      let r := splice 14 gateway_ip r in
      let r := splice 18 sender_mac r in
      let r := splice 24 sender_ip r in
      Some (build_eth_frame gateway_mac sender_mac ETHERTYPE_ARP r).

(** ** Random addresses *)

(** One round of xorshift64 on a [u64]. *)
Definition xorshift (state : Z) : Z :=
  let state := Z.lxor state (wrap 64 (Z.shiftl state 13)) in
  let state := Z.lxor state (Z.shiftr state 7) in
  Z.lxor state (wrap 64 (Z.shiftl state 17)).

Fixpoint random_bytes (n : nat) (state : Z) : list Z :=
  match n with
  | O => []
  | S n' => let state := xorshift state in wrap 8 state :: random_bytes n' state
  end.

Definition random_mac (seed : Z) : list Z :=
  match random_bytes 6 seed with
  | b :: bs => Z.lor (Z.land b 0xFC) 0x02 :: bs
  | [] => []
  end.

(** ** Texts *)

(** [str::split] on a character, and [splitn(2, _)]. *)
Fixpoint split_on (c : ascii) (s : string) : list string :=
  match s with
  | EmptyString => [EmptyString]
  | String a s' =>
      if Ascii.eqb a c then EmptyString :: split_on c s'
      else match split_on c s' with
           | h :: t => String a h :: t
           | [] => [String a EmptyString]
           end
  end.

Fixpoint splitn2 (c : ascii) (s : string) : string * option string :=
  match s with
  | EmptyString => (EmptyString, None)
  | String a s' =>
      if Ascii.eqb a c then (EmptyString, Some s')
      else let '(h, t) := splitn2 c s' in (String a h, t)
  end.

(** [u8::from_str_radix] (and [str::parse::<u8>], radix 10): an optional plus
    sign, then digits, checked for overflow as they come. *)
Inductive ParseIntError := Empty | InvalidDigit | PosOverflow.

Definition parse_error_text (e : ParseIntError) : string :=
  match e with
  | Empty => "cannot parse integer from empty string"
  | InvalidDigit => "invalid digit found in string"
  | PosOverflow => "number too large to fit in target type"
  end.

Definition to_digit (radix : Z) (a : ascii) : option Z :=
  let c := Z.of_nat (nat_of_ascii a) in
  let d :=
    if (48 <=? c) && (c <=? 57) then c - 48
    else if (97 <=? c) && (c <=? 122) then c - 87
    else if (65 <=? c) && (c <=? 90) then c - 55
    else 99 in
  if d <? radix then Some d else None.

Fixpoint digits_loop (w radix acc : Z) (s : string) : result ParseIntError Z :=
  match s with
  | EmptyString => Ok acc
  | String a s' =>
      match to_digit radix a with
      | None => Err InvalidDigit
      | Some d =>
          match checked_mul w acc radix with
          | None => Err PosOverflow
          | Some m =>
              match checked_add w m d with
              | None => Err PosOverflow
              | Some v => digits_loop w radix v s'
              end
          end
      end
  end.

Definition from_str_radix (w radix : Z) (s : string) : result ParseIntError Z :=
  match s with
  | EmptyString => Err Empty
  | String "+" EmptyString | String "-" EmptyString => Err InvalidDigit
  | String "+" s' => digits_loop w radix 0 s'
  | _ => digits_loop w radix 0 s
  end.

(** The loop [for (i, byte) in mac.iter_mut().enumerate()]: [n] parts to go. *)
Fixpoint mac_loop (n : nat) (i : nat) (parts : list string) : result string (list Z) :=
  match n with
  | O => match parts with
         | [] => Ok []
         | _ => Err "expected 6 colon-separated octets, got >6"
         end
  | S n' =>
      match parts with
      | [] => Err ("expected 6 colon-separated octets, got " ++ fmt_dec (Z.of_nat i))%string
      | part :: parts' =>
          b ← map_err (fun e => ("invalid hex octet '" ++ part ++ "': " ++ parse_error_text e)%string)
                (from_str_radix 8 16 part);
          bs ← mac_loop n' (S i) parts'; Ok (b :: bs)
      end
  end.

Definition parse_mac (s : string) : result string (list Z) :=
  if (17 <? String.length s)%nat then
    Err ("input too long for MAC address (len " ++ fmt_dec (Z.of_nat (String.length s)) ++ ")")%string
  else mac_loop 6 0 (split_on ":" s).

Fixpoint octet_loop (n : nat) (i : nat) (parts : list string) : result string (list Z) :=
  match n with
  | O => match parts with
         | [] => Ok []
         | _ => Err "expected 4 octets, got >4"
         end
  | S n' =>
      match parts with
      | [] => Err ("expected 4 octets, got " ++ fmt_dec (Z.of_nat i))%string
      | part :: parts' =>
          b ← map_err (fun e => ("invalid octet '" ++ part ++ "': " ++ parse_error_text e)%string)
                (from_str_radix 8 10 part);
          bs ← octet_loop n' (S i) parts'; Ok (b :: bs)
      end
  end.

Definition parse_cidr (s : string) : result string (list Z * Z) :=
  if (18 <? String.length s)%nat then
    Err ("input too long for CIDR (len " ++ fmt_dec (Z.of_nat (String.length s)) ++ ")")%string
  else
    let '(ip_str, rest) := splitn2 "/" s in
    prefix_str ← ok_or rest "expected format: A.B.C.D/prefix";
    ip ← octet_loop 4 0 (split_on "." ip_str);
    prefix ← map_err (fun e => ("invalid prefix length '" ++ prefix_str ++ "': " ++ parse_error_text e)%string)
               (from_str_radix 8 10 prefix_str);
    if 32 <? prefix then Err ("prefix length " ++ fmt_dec prefix ++ " exceeds 32")%string
    else Ok (ip, prefix).

(** ** Specification *)

(** Texts as the documentation gives them: "AA:BB:CC:DD:EE:FF", "A.B.C.D/p". *)
Definition upper_hex (d : Z) : ascii := ascii_of_nat (Z.to_nat (if d <? 10 then 48 + d else 55 + d)).
Definition hex_octet (b : Z) : string := String (upper_hex (b / 16)) (String (upper_hex (b mod 16)) "").

Definition dec_char (d : Z) : ascii := ascii_of_nat (Z.to_nat (48 + d)).
Definition dec_octet (b : Z) : string :=
  if b <? 10 then String (dec_char b) ""
  else if b <? 100 then String (dec_char (b / 10)) (String (dec_char (b mod 10)) "")
  else String (dec_char (b / 100)) (String (dec_char (b / 10 mod 10)) (String (dec_char (b mod 10)) "")).

Fixpoint join (c : ascii) (l : list string) : string :=
  match l with
  | [] => ""
  | [s] => s
  | s :: l' => (s ++ String c (join c l'))%string
  end.

Definition format_mac (mac : list Z) : string := join ":" (hex_octet <$> mac).
Definition format_cidr (ip : list Z) (prefix : Z) : string :=
  (join "." (dec_octet <$> ip) ++ String "/" (dec_octet prefix))%string.

(** An ARP packet for Ethernet and IPv4, and its frame. *)
Record ArpPacket := { arp_op : Z; arp_sha : list Z; arp_spa : list Z; arp_tha : list Z; arp_tpa : list Z }.

Definition arp_bytes (a : ArpPacket) : list Z :=
  be16 1 ++ be16 0x0800 ++ [6; 4] ++ be16 (arp_op a) ++ arp_sha a ++ arp_spa a ++ arp_tha a ++ arp_tpa a.

Definition arp_wf (a : ArpPacket) : Prop :=
  u16 (arp_op a) /\ length (arp_sha a) = 6%nat /\ length (arp_spa a) = 4%nat /\
  length (arp_tha a) = 6%nat /\ length (arp_tpa a) = 4%nat.

(** A frame that carries an ARP request for [ip]: the header, the packet, and
    any padding after it. *)
Definition arp_request_for (frame ip : list Z) (sha spa : list Z) : Prop :=
  exists dst src tha pad,
    length dst = 6%nat /\ length src = 6%nat /\ length sha = 6%nat /\ length spa = 4%nat /\ length tha = 6%nat /\
    frame = build_eth_frame src dst ETHERTYPE_ARP
              (arp_bytes {| arp_op := ARP_OP_REQUEST; arp_sha := sha; arp_spa := spa; arp_tha := tha; arp_tpa := ip |} ++ pad).

(** ** Lemmas: frames *)

Lemma from_be16_be16 v : u16 v -> from_be16 (v / 256) (v mod 256) = v.
Proof. intros Hv. unfold from_be16. pose proof (Z.div_mod v 256 ltac:(lia)). lia. Qed.

Lemma be16_from_be16 a b : u8 b -> be16 (from_be16 a b) = [a; b].
Proof. intros Hb. unfold be16, from_be16, in_range in *. f_equal; [divlia|f_equal; divlia]. Qed.

Lemma list_of_length {A} n (l : list A) :
  length l = S n -> exists x l', l = x :: l' /\ length l' = n.
Proof. destruct l; intros [=]; eauto. Qed.

(** Name the elements of a list of known length. *)
Ltac explode l :=
  repeat match goal with
  | H : length l = S _ |- _ =>
      let x := fresh "b" in let l' := fresh "l" in
      apply list_of_length in H as (x & l' & -> & H); explode l'
  | H : length l = 0%nat |- _ => apply nil_length_inv in H as ->
  end.

Lemma parse_build_eth src dst et payload :
  length src = 6%nat -> length dst = 6%nat -> u16 et ->
  parse_eth_header (build_eth_frame src dst et payload) =
    Some {| dst_mac := dst; src_mac := src; ethertype := et |} /\
  strip_eth_header (build_eth_frame src dst et payload) = Some payload.
Proof.
  intros Hs Hd He. explode src. explode dst. unfold parse_eth_header, strip_eth_header, build_eth_frame.
  cbn -[Z.div Z.modulo from_be16]. split; [|done]. do 2 f_equal. by apply from_be16_be16.
Qed.

Lemma build_parse_eth frame h payload :
  bytes_ok frame -> parse_eth_header frame = Some h -> strip_eth_header frame = Some payload ->
  frame = build_eth_frame (src_mac h) (dst_mac h) (ethertype h) payload /\
  length (src_mac h) = 6%nat /\ length (dst_mac h) = 6%nat.
Proof.
  intros Hb Hp Hs. unfold parse_eth_header, strip_eth_header, ETH_HEADER_LEN in *.
  destruct (length frame <? 14)%nat eqn:Hl; [done|]. b2p. injection Hp as <-. injection Hs as <-.
  do 14 (destruct frame as [|? frame]; [simpl in Hl; lia|]).
  unfold build_eth_frame, at_. cbn -[from_be16 be16]. split; [|done].
  rewrite be16_from_be16; [done|]. do 13 (apply Forall_cons in Hb as [_ Hb]). by apply Forall_cons in Hb as [? _].
Qed.

Lemma strip_of_parse frame h : parse_eth_header frame = Some h -> strip_eth_header frame = Some (drop 14 frame).
Proof. unfold parse_eth_header, strip_eth_header. by case_on. Qed.

(** The reply that answers a request. *)
Definition arp_reply_for (gm gi sha spa : list Z) : list Z :=
  build_eth_frame gm sha ETHERTYPE_ARP
    (arp_bytes {| arp_op := ARP_OP_REPLY; arp_sha := gm; arp_spa := gi; arp_tha := sha; arp_tpa := spa |}).

Definition reply_array (gm gi sha spa : list Z) : list Z :=
  splice 24 spa (splice 18 sha (splice 14 gi (splice 8 gm (splice 6 (be16 ARP_OP_REPLY) (splice 5 [4]
    (splice 4 [6] (splice 2 (be16 0x0800) (splice 0 (be16 1) (replicate 28 0))))))))).

Lemma reply_array_eq gm gi sha spa :
  length gm = 6%nat -> length gi = 4%nat -> length sha = 6%nat -> length spa = 4%nat ->
  reply_array gm gi sha spa =
  arp_bytes {| arp_op := ARP_OP_REPLY; arp_sha := gm; arp_spa := gi; arp_tha := sha; arp_tpa := spa |}.
Proof. intros H1 H2 H3 H4. explode gm. explode gi. explode sha. explode spa. reflexivity. Qed.

(** The packet in the bytes after the header, when its fixed fields are right. *)
Lemma arp_packet_eq arp :
  bytes_ok arp -> (28 <= length arp)%nat ->
  from_be16 (at_ arp 0) (at_ arp 1) = 1 -> from_be16 (at_ arp 2) (at_ arp 3) = 0x0800 ->
  at_ arp 4 = 6 -> at_ arp 5 = 4 -> from_be16 (at_ arp 6) (at_ arp 7) = ARP_OP_REQUEST ->
  arp = arp_bytes {| arp_op := ARP_OP_REQUEST; arp_sha := slice 8 14 arp; arp_spa := slice 14 18 arp;
                     arp_tha := slice 18 24 arp; arp_tpa := slice 24 28 arp |} ++ drop 28 arp.
Proof.
  intros Hb Hl. do 28 (destruct arp as [|? arp]; [simpl in Hl; lia|]).
  do 8 (apply Forall_cons in Hb as [? Hb]). unfold at_. cbn -[from_be16 be16]. intros E0 E2 -> -> E6.
  unfold arp_bytes. cbn [arp_op arp_sha arp_spa arp_tha arp_tpa].
  rewrite <- E0, <- E2, <- E6, !be16_from_be16 by done. reflexivity.
Qed.

Lemma arp_reply_Some frame gm gi r :
  bytes_ok frame -> length gm = 6%nat -> length gi = 4%nat -> build_arp_reply frame gm gi = Some r ->
  exists sha spa, arp_request_for frame gi sha spa /\ r = arp_reply_for gm gi sha spa.
Proof.
  intros Hb Hgm Hgi Hr. unfold build_arp_reply in Hr. destruct (length frame <? 42)%nat eqn:Hl; [done|]. b2p.
  destruct (parse_eth_header frame) as [h|] eqn:Hp; [|done]. cbn [mbind option_bind] in Hr.
  destruct (build_parse_eth _ _ _ Hb Hp (strip_of_parse _ _ Hp)) as (Hf & Hs & Hd).
  destruct (ethertype h =? ETHERTYPE_ARP) eqn:He; [|done]. b2p. cbn [negb] in Hr. rewrite He in Hf.
  change (drop 14 frame) with (drop ETH_HEADER_LEN frame) in Hf. set (arp := drop ETH_HEADER_LEN frame) in *.
  assert (Hab : bytes_ok arp) by (by apply Forall_drop).
  assert (Hal : (28 <= length arp)%nat) by (unfold arp, ETH_HEADER_LEN; rewrite length_drop; lia).
  clearbody arp. destruct (_ || _) eqn:Hfix in Hr; [done|]. b2p.
  destruct (_ =? ARP_OP_REQUEST) eqn:Hop in Hr; [|done]. b2p. cbn [negb] in Hr.
  destruct (bool_decide _) eqn:Ht in Hr; [|done]. apply bool_decide_eq_true in Ht. cbn [negb] in Hr.
  assert (Hn : forall a b, (a <= b <= 28)%nat -> length (slice a b arp) = (b - a)%nat)
    by (intros; apply length_slice; lia).
  exists (slice 8 14 arp), (slice 14 18 arp). split.
  - exists (dst_mac h), (src_mac h), (slice 18 24 arp), (drop 28 arp). rewrite !Hn by lia. split_and!; try done.
    rewrite Hf at 1. f_equal. rewrite <- Ht. by apply arp_packet_eq.
  - injection Hr as <-. unfold arp_reply_for. f_equal. apply reply_array_eq; [done|done|by rewrite Hn by lia..].
Qed.

Lemma arp_reply_answers frame gm gi sha spa :
  length gm = 6%nat -> length gi = 4%nat -> arp_request_for frame gi sha spa ->
  build_arp_reply frame gm gi = Some (arp_reply_for gm gi sha spa).
Proof.
  intros Hgm Hgi (dst & src & tha & pad & Hd & Hs & Hsha & Hspa & Htha & ->).
  unfold arp_reply_for. rewrite <- reply_array_eq by done.
  explode dst. explode src. explode sha. explode spa. explode tha. explode gi.
  unfold build_arp_reply, build_eth_frame, arp_bytes, at_. cbn -[splice bool_decide].
  rewrite bool_decide_true by done. reflexivity.
Qed.

(** ** Lemmas: texts *)

(** A check of all 256 bytes decides a property of bytes. *)
Lemma u8_forall (p : Z -> bool) :
  forallb (fun n => p (Z.of_nat n)) (seq 0 256) = true -> forall b, u8 b -> p b = true.
Proof.
  intros Hp b Hb. rewrite forallb_forall in Hp. unfold in_range in Hb.
  rewrite <- (Z2Nat.id b) by lia. apply Hp. apply in_seq. lia.
Qed.

Fixpoint contains (c : ascii) (s : string) : bool :=
  match s with
  | EmptyString => false
  | String a s' => Ascii.eqb a c || contains c s'
  end.

Lemma split_on_none c s : contains c s = false -> split_on c s = [s].
Proof.
  induction s as [|a s IH]; [done|]. cbn [contains split_on]. intros [-> Hs]%orb_false_iff. by rewrite IH.
Qed.

Lemma split_on_cons c s t : contains c s = false -> split_on c (s ++ String c t)%string = s :: split_on c t.
Proof.
  induction s as [|a s IH]; intros Hs.
  - change ("" ++ String c t)%string with (String c t). cbn [split_on]. by rewrite Ascii.eqb_refl.
  - cbn [contains] in Hs. apply orb_false_iff in Hs as [Ha Hs].
    change (String a s ++ String c t)%string with (String a (s ++ String c t)). cbn [split_on]. by rewrite Ha, IH.
Qed.

Lemma split_join c l :
  l <> [] -> Forall (fun s => contains c s = false) l -> split_on c (join c l) = l.
Proof.
  intros Hne Hl. induction Hl as [|s l Hs Hl IH]; [done|]. destruct l as [|s' l].
  - by apply split_on_none.
  - change (join c (s :: s' :: l)) with (s ++ String c (join c (s' :: l)))%string.
    rewrite split_on_cons by done. by rewrite IH.
Qed.

Lemma splitn2_cons c s t : contains c s = false -> splitn2 c (s ++ String c t)%string = (s, Some t).
Proof.
  induction s as [|a s IH]; intros Hs.
  - change ("" ++ String c t)%string with (String c t). cbn [splitn2]. by rewrite Ascii.eqb_refl.
  - cbn [contains] in Hs. apply orb_false_iff in Hs as [Ha Hs].
    change (String a s ++ String c t)%string with (String a (s ++ String c t)). cbn [splitn2]. by rewrite Ha, IH.
Qed.

Lemma contains_app c s t : contains c (s ++ t)%string = contains c s || contains c t.
Proof.
  induction s as [|a s IH]; [done|]. change (String a s ++ t)%string with (String a (s ++ t)).
  cbn [contains]. by rewrite IH, orb_assoc.
Qed.

Lemma length_app_string s t : String.length (s ++ t)%string = (String.length s + String.length t)%nat.
Proof. induction s as [|a s IH]; [done|]. change (String a s ++ t)%string with (String a (s ++ t)). simpl. by rewrite IH. Qed.

Definition octet_ok (radix : Z) (f : Z -> string) (b : Z) : bool :=
  match from_str_radix 8 radix (f b) with Ok v => v =? b | Err _ => false end &&
  negb (contains ":" (f b)) && negb (contains "." (f b)) && negb (contains "/" (f b)) &&
  (String.length (f b) <=? 3)%nat.

Lemma octet_ok_spec radix f b :
  octet_ok radix f b = true ->
  from_str_radix 8 radix (f b) = Ok b /\ contains ":" (f b) = false /\ contains "." (f b) = false /\
  contains "/" (f b) = false /\ (String.length (f b) <= 3)%nat.
Proof.
  unfold octet_ok. intros H. b2p. destruct (from_str_radix _ _ _); [|done]. b2p. by subst.
Qed.

Lemma hex_octet_ok b : u8 b -> octet_ok 16 hex_octet b = true.
Proof. apply u8_forall. vm_compute. reflexivity. Qed.

Lemma dec_octet_ok b : u8 b -> octet_ok 10 dec_octet b = true.
Proof. apply u8_forall. vm_compute. reflexivity. Qed.

Lemma hex_octet_length b : String.length (hex_octet b) = 2%nat.
Proof. reflexivity. Qed.

Lemma mac_loop_ok n i mac :
  length mac = n -> bytes_ok mac -> mac_loop n i (hex_octet <$> mac) = Ok mac.
Proof.
  intros Hl Hb. revert n i Hl. induction Hb as [|b mac Hb Hm IH]; intros n i <-; [done|].
  cbn [length fmap list_fmap mac_loop]. destruct (octet_ok_spec _ _ _ (hex_octet_ok b Hb)) as [-> _].
  cbn [map_err mbind result_bind]. by rewrite IH.
Qed.

Lemma octet_loop_ok n i ip :
  length ip = n -> bytes_ok ip -> octet_loop n i (dec_octet <$> ip) = Ok ip.
Proof.
  intros Hl Hb. revert n i Hl. induction Hb as [|b mac Hb Hm IH]; intros n i <-; [done|].
  cbn [length fmap list_fmap octet_loop]. destruct (octet_ok_spec _ _ _ (dec_octet_ok b Hb)) as [-> _].
  cbn [map_err mbind result_bind]. by rewrite IH.
Qed.

Lemma contains_join c d l :
  Ascii.eqb d c = false -> Forall (fun s => contains c s = false) l -> contains c (join d l) = false.
Proof.
  intros Hd Hl. induction Hl as [|s l Hs Hl IH]; [done|]. destruct l as [|s' l]; [done|].
  change (join d (s :: s' :: l)) with (s ++ String d (join d (s' :: l)))%string.
  rewrite contains_app, Hs. cbn [contains orb]. by rewrite Hd.
Qed.

Lemma length_join_le c l k :
  l <> [] -> Forall (fun s => (String.length s <= k)%nat) l ->
  (String.length (join c l) + 1 <= length l * (k + 1))%nat.
Proof.
  intros Hne Hl. induction Hl as [|s l Hs Hl IH]; [done|]. destruct l as [|s' l]; [simpl in *; lia|].
  change (join c (s :: s' :: l)) with (s ++ String c (join c (s' :: l)))%string.
  rewrite length_app_string. specialize (IH ltac:(done)). cbn [String.length length] in *. lia.
Qed.

Lemma parse_format_mac mac : length mac = 6%nat -> bytes_ok mac -> parse_mac (format_mac mac) = Ok mac.
Proof.
  intros Hl Hb. unfold parse_mac, format_mac.
  assert (Hne : hex_octet <$> mac <> []) by (by destruct mac).
  pose proof (length_join_le ":" (hex_octet <$> mac) 2 Hne) as Hlen.
  rewrite length_fmap, Hl in Hlen. rewrite (proj2 (Nat.ltb_ge _ _)).
  2:{ enough (String.length (join ":" (hex_octet <$> mac)) + 1 <= 6 * (2 + 1))%nat by lia.
      apply Hlen. apply Forall_fmap, Forall_true. intros b. unfold compose. by rewrite hex_octet_length. }
  rewrite split_join; [by apply mac_loop_ok|done|].
  apply Forall_fmap. eapply Forall_impl; [exact Hb|]. intros b Hu. by destruct (octet_ok_spec _ _ _ (hex_octet_ok b Hu)) as (_ & ? & _).
Qed.

Lemma parse_format_cidr ip prefix :
  length ip = 4%nat -> bytes_ok ip -> 0 <= prefix <= 32 -> parse_cidr (format_cidr ip prefix) = Ok (ip, prefix).
Proof.
  intros Hl Hb Hp. unfold parse_cidr, format_cidr. assert (Hpu : u8 prefix) by (unfold in_range; lia).
  destruct (octet_ok_spec _ _ _ (dec_octet_ok prefix Hpu)) as (Hpp & _).
  assert (Hok : Forall (fun s => contains "." s = false /\ contains "/" s = false /\ (String.length s <= 3)%nat) (dec_octet <$> ip)).
  { apply Forall_fmap. eapply Forall_impl; [exact Hb|]. intros b Hu. simpl.
    destruct (octet_ok_spec _ _ _ (dec_octet_ok b Hu)) as (_ & _ & ? & ? & ?). done. }
  apply Forall_and in Hok as [Hdot Hok]. apply Forall_and in Hok as [Hsl Hlen].
  assert (Hne : dec_octet <$> ip <> []) by (by destruct ip).
  pose proof (length_join_le "." (dec_octet <$> ip) 3 Hne Hlen) as HL. rewrite length_fmap, Hl in HL.
  rewrite (proj2 (Nat.ltb_ge _ _)).
  2:{ rewrite length_app_string. cbn [String.length].
      assert (String.length (dec_octet prefix) <= 2)%nat; [|lia].
      unfold dec_octet. repeat case_on; b2p; simpl; lia. }
  rewrite splitn2_cons by (by apply contains_join). cbn [ok_or mbind result_bind].
  rewrite split_join by done. rewrite octet_loop_ok by done. cbn [mbind result_bind].
  rewrite Hpp. cbn [map_err mbind result_bind]. by rewrite (proj2 (Z.ltb_ge _ _)) by lia.
Qed.

Lemma digits_loop_range w radix acc s v : 
  0 < radix -> in_range w acc -> digits_loop w radix acc s = Ok v -> in_range w v.
Proof.
  intros Hr. revert acc. induction s as [|a s IH]; intros acc Ha; cbn [digits_loop]; [by intros [= <-]|].
  destruct (to_digit radix a) as [d|] eqn:Hd; [|done].
  destruct (checked_mul w acc radix) as [m|] eqn:Hm; [|done].
  destruct (checked_add w m d) as [x|] eqn:Hx; [|done]. apply IH.
  apply checked_add_Some in Hx as [Hx ->]. unfold checked_mul in Hm. destruct (_ <? _); [|done].
  injection Hm as <-. unfold in_range in *. split; [|done].
  assert (0 <= d); [|lia]. unfold to_digit in Hd. revert Hd. repeat case_on; intros [= <-]; b2p; lia.
Qed.

Lemma from_str_radix_range w radix s v : 0 < radix -> 0 <= w -> from_str_radix w radix s = Ok v -> in_range w v.
Proof.
  intros Hr Hw. assert (H0 : in_range w 0) by (unfold in_range; lia).
  unfold from_str_radix. intros Hv.
  repeat (case_match; try discriminate Hv; try (by eapply digits_loop_range in Hv)).
Qed.

Lemma mac_loop_range n i parts mac : mac_loop n i parts = Ok mac -> length mac = n /\ bytes_ok mac.
Proof.
  revert i parts mac. induction n as [|n IH]; intros i parts mac; cbn [mac_loop].
  { case_match; [|done]. intros [= <-]. split; [done|constructor]. }
  destruct parts as [|part parts]; [done|].
  intros (b & Hb & (bs & Hbs & [= <-])%bind_Ok)%bind_Ok. apply map_err_Ok in Hb.
  apply IH in Hbs as [Hl Hok]. split; [simpl; lia|]. constructor; [|done].
  by eapply from_str_radix_range in Hb.
Qed.

Lemma octet_loop_range n i parts ip : octet_loop n i parts = Ok ip -> length ip = n /\ bytes_ok ip.
Proof.
  revert i parts ip. induction n as [|n IH]; intros i parts ip; cbn [octet_loop].
  { case_match; [|done]. intros [= <-]. split; [done|constructor]. }
  destruct parts as [|part parts]; [done|].
  intros (b & Hb & (bs & Hbs & [= <-])%bind_Ok)%bind_Ok. apply map_err_Ok in Hb.
  apply IH in Hbs as [Hl Hok]. split; [simpl; lia|]. constructor; [|done].
  by eapply from_str_radix_range in Hb.
Qed.

(** ** Properties *)

(** Building and parsing frames are inverse: a built frame parses to its header
    and payload, and a frame that parses is rebuilt from them; only frames of
    fewer than 14 bytes are refused. *)
Theorem eth_frame_roundtrip frame :
  bytes_ok frame ->
  (forall src dst et payload, length src = 6%nat -> length dst = 6%nat -> u16 et ->
     parse_eth_header (build_eth_frame src dst et payload) =
       Some {| dst_mac := dst; src_mac := src; ethertype := et |} /\
     strip_eth_header (build_eth_frame src dst et payload) = Some payload) /\
  match parse_eth_header frame, strip_eth_header frame with
  | Some h, Some payload => frame = build_eth_frame (src_mac h) (dst_mac h) (ethertype h) payload
  | None, None => (length frame < 14)%nat
  | _, _ => False
  end.
Proof.
  intros Hb. split; [intros; by apply parse_build_eth|].
  destruct (parse_eth_header frame) as [h|] eqn:Hp.
  - rewrite (strip_of_parse _ _ Hp). by apply (build_parse_eth _ _ _ Hb Hp (strip_of_parse _ _ Hp)).
  - unfold parse_eth_header in Hp. unfold strip_eth_header. destruct (_ <? _)%nat eqn:E; [|done]. by b2p.
Qed.

(** The gateway answers exactly the ARP requests for its address (padding after
    the packet allowed), with a reply from its MAC to the requester, and nothing
    else. *)
Theorem arp_reply_correct frame gateway_mac gateway_ip r :
  bytes_ok frame -> length gateway_mac = 6%nat -> length gateway_ip = 4%nat ->
  build_arp_reply frame gateway_mac gateway_ip = Some r <->
  exists sha spa, arp_request_for frame gateway_ip sha spa /\ r = arp_reply_for gateway_mac gateway_ip sha spa.
Proof.
  intros Hb Hm Hi. split; [by apply arp_reply_Some|].
  intros (sha & spa & Hr & ->). by apply arp_reply_answers.
Qed.

(** The documented texts parse to the address they denote, and whatever parses
    is an address: six or four bytes, a prefix of at most 32. *)
Theorem address_texts_roundtrip :
  (forall mac, length mac = 6%nat -> bytes_ok mac -> parse_mac (format_mac mac) = Ok mac) /\
  (forall ip prefix, length ip = 4%nat -> bytes_ok ip -> 0 <= prefix <= 32 ->
     parse_cidr (format_cidr ip prefix) = Ok (ip, prefix)) /\
  (forall s mac, parse_mac s = Ok mac -> length mac = 6%nat /\ bytes_ok mac) /\
  (forall s ip prefix, parse_cidr s = Ok (ip, prefix) -> length ip = 4%nat /\ bytes_ok ip /\ 0 <= prefix <= 32).
Proof.
  split_and!; [apply parse_format_mac|apply parse_format_cidr| |].
  - intros s mac. unfold parse_mac. case_match; [done|]. apply mac_loop_range.
  - intros s ip prefix. unfold parse_cidr. case_match; [done|]. destruct (splitn2 _ _) as [h t].
    intros (p & _ & (i & Hi & (pr & Hpr & Hf)%bind_Ok)%bind_Ok)%bind_Ok.
    apply map_err_Ok in Hpr. apply from_str_radix_range in Hpr; [|lia..]. destruct (32 <? pr) eqn:E; [done|]. b2p.
    injection Hf as <- <-. apply octet_loop_range in Hi as [? ?]. unfold in_range in Hpr. split_and!; done || lia.
Qed.

(** A random MAC is six bytes, unicast and locally administered, for any seed. *)
Theorem random_mac_local seed :
  u64 seed -> length (random_mac seed) = 6%nat /\ bytes_ok (random_mac seed) /\
  exists b bs, random_mac seed = b :: bs /\ Z.testbit b 0 = false /\ Z.testbit b 1 = true.
Proof.
  intros Hs. unfold random_mac. cbn [random_bytes].
  assert (Hw : forall x, u8 (wrap 8 x)) by (intros; apply wrap_range; lia).
  set (b0 := wrap 8 (xorshift seed)). assert (Hb0 : u8 b0) by apply Hw.
  split_and!; [done| |].
  - constructor; [apply lor_range; [lia|apply land_range; [lia|done|lia]|decided]|].
    repeat (constructor; [apply Hw|]). constructor.
  - eexists _, _. split; [reflexivity|]. split.
    + by rewrite Z.lor_spec, Z.land_spec, andb_false_r.
    + by rewrite Z.lor_spec, orb_true_r.
Qed.

(** The texts accepted are more than the documented formats: signs and short
    octets pass. *)
Theorem address_texts_signs :
  parse_mac "+1:2:3:+4:5:6" = Ok [1; 2; 3; 4; 5; 6] /\ parse_cidr "+1.02.3.4/+8" = Ok ([1; 2; 3; 4], 8).
Proof. split; vm_compute; reflexivity. Qed.

(** ** Witnesses *)

Lemma eth_frame_roundtrip_witness :
  parse_eth_header (build_eth_frame [1; 2; 3; 4; 5; 6] [7; 8; 9; 10; 11; 12] 0x806 [1]) =
    Some {| dst_mac := [7; 8; 9; 10; 11; 12]; src_mac := [1; 2; 3; 4; 5; 6]; ethertype := 0x806 |}.
Proof.
  exact (proj1 (proj1 (eth_frame_roundtrip [] (Forall_nil_2 _)) [1; 2; 3; 4; 5; 6] [7; 8; 9; 10; 11; 12] 0x806 [1]
                  eq_refl eq_refl ltac:(decided))).
Defined.

Definition demo_request : list Z :=
  build_eth_frame [1; 2; 3; 4; 5; 6] (replicate 6 255) ETHERTYPE_ARP
    (arp_bytes {| arp_op := ARP_OP_REQUEST; arp_sha := [1; 2; 3; 4; 5; 6]; arp_spa := [10; 0; 0; 2];
                  arp_tha := replicate 6 0; arp_tpa := [10; 0; 0; 1] |}).

Lemma arp_reply_correct_witness :
  exists r sha spa, build_arp_reply demo_request [9; 9; 9; 9; 9; 9] [10; 0; 0; 1] = Some r /\
    r = arp_reply_for [9; 9; 9; 9; 9; 9] [10; 0; 0; 1] sha spa.
Proof.
  destruct (build_arp_reply demo_request [9; 9; 9; 9; 9; 9] [10; 0; 0; 1]) as [r|] eqn:E; [|discriminate E].
  destruct (proj1 (arp_reply_correct demo_request [9; 9; 9; 9; 9; 9] [10; 0; 0; 1] r ltac:(decided) eq_refl eq_refl) E)
    as (sha & spa & _ & Hr).
  exists r, sha, spa. split; [reflexivity|exact Hr].
Defined.

Lemma random_mac_local_witness : length (random_mac 0x123456789ABCDEF0) = 6%nat.
Proof. exact (proj1 (random_mac_local 0x123456789ABCDEF0 ltac:(decided))). Defined.
