(* ===== verification/NetIo.v ===== *)
(** * The network I/O thread

    [hitz-net/src/wintun_io.rs]: the bridge between the channels of the network
    device and the host's adapter.  A turn of the loop finds what the guest sent
    since the last one, and what the adapter gives; the Wintun driver is what its
    calls return, the allocation of a packet that fails included, and sleeps and log
    lines are left out. *)

From Stdlib Require Import String Ascii.
From stdpp Require Import strings list.
From S2P Require Import Prelude Hal Memory Queue Transport Net Ethernet.

(** ** Addresses *)

Definition prefix_to_ipv4_mask (prefix : Z) : list Z :=
  let bits :=
    if prefix =? 0 then 0
    else if 32 <=? prefix then 0xFFFFFFFF
    else Z.lxor (Z.shiftl 1 (32 - prefix) - 1) 0xFFFFFFFF in
  [Z.shiftr bits 24 mod 256; Z.shiftr bits 16 mod 256; Z.shiftr bits 8 mod 256; bits mod 256].

Definition ipv4_text (ip : list Z) : string := join "." (dec_octet <$> ip).
Definition prefix_to_mask (prefix : Z) : string := ipv4_text (prefix_to_ipv4_mask prefix).

Inductive NetIoError := WinTun (text : string) | Io (text : string) | ConfigError (text : string).

(** ** Starting

    The driver's calls: loading the library, creating the adapter, its address and
    netmask, the session, and the thread. *)
Record Driver := {
  load : result string (); create_adapter : string -> result string (); set_address : list Z -> result string ();
  set_netmask : list Z -> result string (); start_session : result string (); spawn : string -> result string ();
}.

Definition wintun (what : string) (r : result string ()) : result NetIoError () :=
  map_err (fun e => WinTun (what ++ ": " ++ e)) r.

Definition configure_host_ip (d : Driver) (cidr : string) : result NetIoError (list Z * list Z) :=
  '(ip, prefix) ← map_err ConfigError (parse_cidr cidr);
  let mask := prefix_to_ipv4_mask prefix in
  _ ← wintun ("set adapter address " ++ ipv4_text ip) (set_address d ip);
  _ ← wintun ("set adapter netmask " ++ ipv4_text mask) (set_netmask d mask);
  Ok (ip, mask).

(** The address and mask the adapter has when the thread runs. *)
Definition start_net_io (d : Driver) (adapter_name host_ip : string) : result NetIoError (list Z * list Z) :=
  _ ← wintun "load wintun.dll" (load d);
  _ ← wintun ("create adapter '" ++ adapter_name ++ "'") (create_adapter d adapter_name);
  configured ← configure_host_ip d host_ip;
  _ ← wintun "start session" (start_session d);
  _ ← map_err Io (spawn d ("hitz-net-" ++ adapter_name));
  Ok configured.

(** ** The loop *)

(** The thread's ends of the two channels, the packets given to the adapter, and
    whether the next allocations of a packet succeed. *)
Record NetIo := { tx_receiver : list (list Z); rx_sender : list (list Z); adapter : list (list Z); allocations : list bool }.

(** What [try_receive] gives. *)
Inductive Received := Packet (bytes : list Z) | NoPacket | SessionError.

(** What a turn finds: the stop flag, the frames sent since the last turn, and the
    adapter's answer. *)
Record IoTurn := { stop_seen : bool; arrived : list (list Z); received : Received }.

Definition U16_MAX : nat := Z.to_nat 65535.

Definition send_to_wintun (ip_packet : list Z) (s : NetIo) : NetIo :=
  let size := Nat.min (length ip_packet) U16_MAX in
  {| tx_receiver := tx_receiver s; rx_sender := rx_sender s;
     adapter := if default true (head (allocations s)) then adapter s ++ [take (Nat.min size (length ip_packet)) ip_packet] else adapter s;
     allocations := tail (allocations s) |}.

Definition send_to_guest (frame : list Z) (s : NetIo) : NetIo :=
  {| tx_receiver := tx_receiver s; rx_sender := rx_sender s ++ [frame]; adapter := adapter s; allocations := allocations s |}.

Section Loop.
Variables guest_mac gateway_mac gateway_ip : list Z.

Definition handle_frame (s : NetIo) (frame : list Z) : NetIo :=
  match parse_eth_header frame with
  | Some hdr =>
      if ethertype hdr =? ETHERTYPE_ARP then
        match build_arp_reply frame gateway_mac gateway_ip with Some reply => send_to_guest reply s | None => s end
      else if (ethertype hdr =? ETHERTYPE_IPV4) || (ethertype hdr =? ETHERTYPE_IPV6) then
        match strip_eth_header frame with Some ip_packet => send_to_wintun ip_packet s | None => s end
      else s
  | None => s
  end.

(** [while let Ok(frame) = tx_receiver.try_recv()]. *)
Definition take_all (s : NetIo) : NetIo :=
  {| tx_receiver := []; rx_sender := rx_sender s; adapter := adapter s; allocations := allocations s |}.
Definition drain_tx (s : NetIo) : NetIo := foldl handle_frame (take_all s) (tx_receiver s).

Definition wrap_packet (ip_data : list Z) : list Z := build_eth_frame gateway_mac guest_mac (ethertype_from_ip ip_data) ip_data.

Definition arrive (frames : list (list Z)) (s : NetIo) : NetIo :=
  {| tx_receiver := tx_receiver s ++ frames; rx_sender := rx_sender s; adapter := adapter s; allocations := allocations s |}.

(** One turn, and whether the loop goes on. *)
Definition io_turn (t : IoTurn) (s : NetIo) : NetIo * bool :=
  let s := arrive (arrived t) s in
  if stop_seen t then (s, false)
  else
    let s := drain_tx s in
    match received t with
    | Packet ip_data => (send_to_guest (wrap_packet ip_data) s, true)
    | NoPacket => (s, true)
    | SessionError => (s, false)
    end.

Fixpoint net_io_loop (turns : list IoTurn) (s : NetIo) : NetIo * bool :=
  match turns with
  | [] => (s, true)
  | t :: turns' => let '(s, go_on) := io_turn t s in if go_on then net_io_loop turns' s else (s, false)
  end.

(** ** Specification *)

(** The packet a frame brings to the adapter, and the reply it gets. *)
Definition to_adapter (frame : list Z) : option (list Z) :=
  hdr ← parse_eth_header frame;
  if (ethertype hdr =? ETHERTYPE_IPV4) || (ethertype hdr =? ETHERTYPE_IPV6) then Some (take U16_MAX (drop ETH_HEADER_LEN frame)) else None.

Definition arp_answer (frame : list Z) : option (list Z) :=
  hdr ← parse_eth_header frame;
  if ethertype hdr =? ETHERTYPE_ARP then build_arp_reply frame gateway_mac gateway_ip else None.

(** The packet in an Ethernet frame of type 0x0800 or 0x86DD, as long as the adapter
    takes them. *)
Definition ip_packet_of (frame : list Z) : option (list Z) :=
  match drop 12 frame with
  | t1 :: t2 :: packet =>
      if (t1 =? 0x08) && (t2 =? 0x00) || (t1 =? 0x86) && (t2 =? 0xDD) then Some (take U16_MAX packet) else None
  | _ => None
  end.

(** The packets the adapter has room for: one answer to each request, and yes when
    the answers are exhausted. *)
Fixpoint granted (allocs : list bool) (packets : list (list Z)) : list (list Z) :=
  match packets with
  | [] => []
  | p :: ps => (if default true (head allocs) then [p] else []) ++ granted (tail allocs) ps
  end.

Definition to_guest (r : Received) : list (list Z) := match r with Packet p => [wrap_packet p] | _ => [] end.

Definition going_on (t : IoTurn) : Prop := stop_seen t = false /\ received t <> SessionError.

(** ** Lemmas *)

Lemma take_clamped {A} n (l : list A) : take (Nat.min (Nat.min (length l) n) (length l)) l = take n l.
Proof.
  rewrite <- !take_take, (take_ge l (length l)) by done. rewrite take_ge; [done|]. rewrite length_take. lia.
Qed.

Lemma omap_head {A B} (f : A -> option B) x l : omap f (x :: l) = option_list (f x) ++ omap f l.
Proof. cbn. by destruct (f x). Qed.

Lemma granted_app allocs ps ps' : granted allocs (ps ++ ps') = granted allocs ps ++ granted (drop (length ps) allocs) ps'.
Proof.
  revert allocs. induction ps as [|p ps IH]; intros allocs; [done|]. cbn [app granted length]. rewrite IH, <- (assoc_L (++)).
  destruct allocs as [|a allocs]; cbn [tail drop]; by rewrite ?drop_nil.
Qed.

Lemma handle_frame_spec s frame :
  handle_frame s frame = {| tx_receiver := tx_receiver s; rx_sender := rx_sender s ++ option_list (arp_answer frame);
    adapter := adapter s ++ granted (allocations s) (option_list (to_adapter frame));
    allocations := drop (length (option_list (to_adapter frame))) (allocations s) |}.
Proof.
  unfold handle_frame, arp_answer, to_adapter. destruct (parse_eth_header frame) as [h|] eqn:E; simpl.
  - rewrite (strip_of_parse frame h E). destruct (ethertype h =? ETHERTYPE_ARP) eqn:EA.
    + apply Z.eqb_eq in EA. rewrite EA. simpl. rewrite !app_nil_r. destruct (build_arp_reply _ _ _); [done|]. simpl.
      rewrite app_nil_r. by destruct s.
    + rewrite app_nil_r. destruct (_ || _); simpl; [|rewrite app_nil_r; by destruct s].
      unfold send_to_wintun. rewrite take_clamped, app_nil_r. destruct s as [? ? ? [|[] ?]]; cbn; by rewrite ?app_nil_r, ?drop_0.
  - rewrite !app_nil_r. by destruct s.
Qed.

Lemma handle_frames_spec frames s :
  foldl handle_frame s frames = {| tx_receiver := tx_receiver s; rx_sender := rx_sender s ++ omap arp_answer frames;
    adapter := adapter s ++ granted (allocations s) (omap to_adapter frames);
    allocations := drop (length (omap to_adapter frames)) (allocations s) |}.
Proof.
  revert s. induction frames as [|f frames IH]; intros s; [destruct s; simpl; by rewrite !app_nil_r, drop_0|].
  cbn [foldl]. rewrite IH, handle_frame_spec. cbn [tx_receiver rx_sender adapter allocations]. rewrite !omap_head.
  by rewrite granted_app, drop_drop, length_app, <- !(assoc_L (++)).
Qed.

Lemma io_turn_spec t s : going_on t -> io_turn t s =
  ({| tx_receiver := []; rx_sender := rx_sender s ++ omap arp_answer (tx_receiver s ++ arrived t) ++ to_guest (received t);
      adapter := adapter s ++ granted (allocations s) (omap to_adapter (tx_receiver s ++ arrived t));
      allocations := drop (length (omap to_adapter (tx_receiver s ++ arrived t))) (allocations s) |}, true).
Proof.
  intros [Hs Hr]. unfold io_turn. rewrite Hs. unfold drain_tx. rewrite handle_frames_spec. cbn.
  destruct (received t); [|by rewrite app_nil_r|done]. unfold send_to_guest. cbn. by rewrite <- (assoc_L (++)).
Qed.

(** What a turn sends to the guest. *)
Definition turn_output (t : IoTurn) : list (list Z) := omap arp_answer (arrived t) ++ to_guest (received t).

Lemma net_io_loop_spec turns s : Forall going_on turns -> tx_receiver s = [] -> exists left, net_io_loop turns s =
  ({| tx_receiver := []; rx_sender := rx_sender s ++ concat (turn_output <$> turns);
      adapter := adapter s ++ granted (allocations s) (omap to_adapter (concat (arrived <$> turns))); allocations := left |}, true).
Proof.
  intros H. revert s. induction H as [|t turns Ht _ IH]; intros s Hx.
  { exists (allocations s). destruct s; simpl in *; by rewrite !app_nil_r, Hx. }
  cbn [net_io_loop]. rewrite io_turn_spec, Hx by done. cbn [app]. edestruct IH as [left ->]; [done|]. exists left.
  cbn [rx_sender adapter allocations].
  rewrite !fmap_cons, !concat_cons, omap_app, granted_app. unfold turn_output at 2. by rewrite <- !(assoc_L (++)).
Qed.

(** The code's reading of a frame is the standard's. *)
Lemma to_adapter_standard frame : bytes_ok frame -> to_adapter frame = ip_packet_of frame.
Proof.
  intros Hb. unfold to_adapter, parse_eth_header, ip_packet_of, ETH_HEADER_LEN.
  destruct (Nat.ltb_spec (length frame) 14) as [Hl|Hl].
  - destruct (drop 12 frame) as [|t1 [|t2 rest]] eqn:E; try done.
    assert (length (drop 12 frame) = (2 + length rest)%nat) as F by (by rewrite E). rewrite length_drop in F. lia.
  - do 14 (destruct frame as [|? frame]; [cbn in Hl; lia|]). cbn -[from_be16 Z.eqb take]. unfold bytes_ok in Hb. rewrite !Forall_cons in Hb.
    destruct Hb as (_ & _ & _ & _ & _ & _ & _ & _ & _ & _ & _ & _ & H1 & H2 & _). unfold from_be16, ETHERTYPE_IPV4, ETHERTYPE_IPV6, in_range in *.
    match goal with |- (if ?a then _ else _) = (if ?b then _ else _) => assert (a = b) as -> end; [|done].
    apply eq_iff_eq_true. rewrite !orb_true_iff, !andb_true_iff, !Z.eqb_eq. lia.
Qed.

Lemma wrapped_packet p : bytes_ok p -> wrap_packet p =
  guest_mac ++ gateway_mac ++ (if match p with b :: _ => b / 16 =? 6 | [] => false end then [0x86; 0xDD] else [0x08; 0x00]) ++ p.
Proof.
  intros Hp. unfold wrap_packet, build_eth_frame, ethertype_from_ip. destruct p as [|b p]; [done|]. apply Forall_cons in Hp as [Hb _].
  rewrite Z.shiftr_div_pow2 by lia. change (2 ^ 4) with 16. by destruct (b / 16 =? 6).
Qed.

Lemma arp_request_type frame ip sha spa : arp_request_for frame ip sha spa -> length ip = 4%nat ->
  exists h, parse_eth_header frame = Some h /\ ethertype h = ETHERTYPE_ARP.
Proof.
  intros (dst & src & tha & pad & Hd & Hs & _ & _ & _ & ->) _. eexists. split; [apply parse_build_eth; done|done].
Qed.
End Loop.

(** The number four octets are, most significant first. *)
Definition octets_value (ip : list Z) : Z := foldl (fun acc b => acc * 256 + b) 0 ip.

(** ** Properties *)

(** The guest put a frame into a chain: the bytes of its readable buffers are a
    virtio-net header of twelve bytes and the frame. *)
Definition offers `{GuestMemAccess M} (mem : M) (q : VirtQueue) (h : Z) (frame : list Z) : Prop :=
  exists hdr, length hdr = 12%nat /\ readable_bytes mem (descriptors (chain_of q h) mem) = Some (hdr ++ frame) /\
    bytes_ok frame /\ (0 < length frame)%nat /\ 12 + zlen frame <= 65536.

Lemma offered_frames `{GuestMemLaws M} q (mem : M) hs frames : queue_wf q -> mem_wf mem -> Forall u16 hs ->
  Forall2 (offers mem q) hs frames -> omap (fun h => tx_frame mem (chain_of q h)) hs = frames.
Proof.
  intros Hq Hm Hu. induction 1 as [|h f hs frames (hdr & Hl & Hr & _ & Hp & Hmax) _ IH]; [done|].
  apply Forall_cons in Hu as [Hh Hu]. rewrite omap_head, IH by done.
  rewrite (tx_frame_exact mem (chain_of q h) Hm (chain_of_wf _ _ Hq Hh) (hdr ++ f) Hr).
  - rewrite length_app, Hl. unfold VIRTIO_NET_HDR_SIZE. rewrite (proj2 (Nat.leb_gt _ _)) by lia. by rewrite <- Hl, drop_app_length.
  - unfold zlen in *. rewrite length_app, Hl. unfold MAX_TX_FRAME. lia.
Qed.

(** C37: From the guest's queue to the host's adapter: one notification and the turns of
    the I/O thread that find its frames give the adapter exactly the IP packets in the
    frames the guest put into the chains, in order and once each, less those for which
    the adapter has no room when they are taken to it; and the guest the replies to
    its ARP requests for the gateway, and only those, and the host's packets in frames
    from the gateway. *)
Theorem guest_packets_bridged `{GuestMemLaws M} fuel d q (mem : M) hs frames u gm gw gip turns s :
  queue_wf q -> mem_wf mem -> q_ready q = true -> layout_ok q mem -> tx_connected d = true -> tx_sent d = [] ->
  pending q mem = Some <$> hs -> Forall u16 hs -> used_idx q mem = Some u -> (length hs < fuel)%nat ->
  Forall (fun h => Forall (fun ds => off_used q (d_gpa ds) (d_len ds) /\ 0 <= d_len ds) (descriptors (chain_of q h) mem)) hs ->
  Forall2 (offers mem q) hs frames ->
  Forall going_on turns -> tx_receiver s = [] -> length gm = 6%nat -> length gw = 6%nat -> length gip = 4%nat ->
  exists d' q' mem', net_process_queue fuel d TX_QUEUE q mem = Ok (d', q', mem') /\ tx_sent d' = frames /\
    (concat (arrived <$> turns) = frames ->
     exists s', net_io_loop gm gw gip turns s = (s', true) /\
       adapter s' = adapter s ++ granted (allocations s) (omap ip_packet_of frames) /\
       rx_sender s' = rx_sender s ++ concat (turn_output gm gw gip <$> turns)) /\
    (forall frame reply, bytes_ok frame -> arp_answer gw gip frame = Some reply <->
       exists sha spa, arp_request_for frame gip sha spa /\ reply = arp_reply_for gw gip sha spa) /\
    (forall p, bytes_ok p -> wrap_packet gm gw p =
       gm ++ gw ++ (if match p with b :: _ => b / 16 =? 6 | [] => false end then [0x86; 0xDD] else [0x08; 0x00]) ++ p).
Proof.
  intros Hq Hm Hr Hlay Hcon Hsent Hp Hh Hu Hf Hbuf Hof Ht Hx Hgm Hgw Hgip.
  destruct (net_tx_drains fuel d q mem hs u Hq Hm Hr Hlay Hcon Hp Hu Hf Hbuf) as (d' & q' & mem' & E & Es & _).
  rewrite Hsent, (offered_frames q mem hs frames Hq Hm Hh Hof) in Es.
  exists d', q', mem'. split; [exact E|]. split; [exact Es|]. split_and!.
  - intros Hfr. destruct (net_io_loop_spec gm gw gip turns s Ht Hx) as [left El]. eexists. split; [exact El|]. cbn. split; [|done].
    rewrite Hfr. do 2 f_equal. assert (Forall bytes_ok frames) as Hb by (clear -Hof; induction Hof as [|? ? ? ? (? & _ & _ & ? & _)]; by constructor).
    clear -Hb. induction Hb as [|f l Hf _ IH]; [done|]. by rewrite !omap_head, IH, to_adapter_standard.
  - intros frame reply Hb. split.
    + unfold arp_answer. intros (h & _ & Ha)%bind_Some. destruct (_ =? _); [|done]. by apply arp_reply_Some.
    + intros (sha & spa & Hreq & ->). destruct (arp_request_type frame gip sha spa Hreq Hgip) as (h & Eh & Et).
      unfold arp_answer. rewrite Eh. simpl. rewrite Et. simpl. by apply arp_reply_answers.
  - intros p Hpb. by apply wrapped_packet.
Qed.

(** A netmask has a one for every bit of the prefix and zeros after, as four
    octets; so two addresses agree under it exactly when they have the prefix's
    bits in common. *)
Theorem netmask_correct p : 0 <= p <= 32 ->
  let mask := octets_value (prefix_to_ipv4_mask p) in
  length (prefix_to_ipv4_mask p) = 4%nat /\ bytes_ok (prefix_to_ipv4_mask p) /\
  (forall i, 0 <= i < 32 -> Z.testbit mask i = (32 - p <=? i)) /\
  (forall a b, u32 a -> u32 b -> Z.land a mask = Z.land b mask <-> (forall i, 32 - p <= i < 32 -> Z.testbit a i = Z.testbit b i)).
Proof.
  intros Hp. cbv zeta. set (ok p := let m := prefix_to_ipv4_mask p in bool_decide (length m = 4%nat) && bool_decide (bytes_ok m) &&
    forallb (fun i => eqb (Z.testbit (octets_value m) (Z.of_nat i)) (32 - p <=? Z.of_nat i)) (seq 0 32) && (octets_value m <? 2 ^ 32) && (0 <=? octets_value m)).
  assert (forallb (fun k => ok (Z.of_nat k)) (seq 0 33) = true) as H by (vm_compute; reflexivity).
  rewrite forallb_forall in H. specialize (H (Z.to_nat p) ltac:(apply in_seq; lia)). rewrite Z2Nat.id in H by lia.
  unfold ok in H. rewrite !andb_true_iff, !bool_decide_eq_true, Z.ltb_lt, Z.leb_le, forallb_forall in H.
  destruct H as ((((H1 & H2) & H3) & H4) & H5). set (mask := octets_value (prefix_to_ipv4_mask p)) in *. clearbody mask.
  assert (forall i, 0 <= i < 32 -> Z.testbit mask i = (32 - p <=? i)) as HB.
  { intros i Hi. specialize (H3 (Z.to_nat i) ltac:(apply in_seq; lia)). rewrite Z2Nat.id in H3 by lia. by apply eqb_prop in H3. }
  split; [done|]. split; [done|]. split; [done|]. intros a b Ha Hb. split.
  - intros E i Hi. assert (Z.testbit (Z.land a mask) i = Z.testbit (Z.land b mask) i) as Ei by by rewrite E.
    rewrite !Z.land_spec, HB in Ei by lia. rewrite (proj2 (Z.leb_le (32 - p) i)), !andb_true_r in Ei by lia. done.
  - intros E. apply Z.bits_inj'. intros i Hi. rewrite !Z.land_spec. destruct (Z.leb_spec 32 i).
    + assert (forall x, 0 <= x < 2 ^ 32 -> Z.testbit x i = false) as HZ.
      { intros x Hx. destruct (Z.eq_dec x 0) as [->|]; [apply Z.bits_0|]. apply Z.bits_above_log2; [lia|].
        assert (Z.log2 x < 32) by (apply Z.log2_lt_pow2; lia). lia. }
      by rewrite !HZ.
    + rewrite HB by lia. destruct (Z.leb_spec (32 - p) i); [by rewrite E by lia|by rewrite !andb_false_r].
Qed.

(** ** Witnesses *)

Definition demo_gateway : list Z := [2; 0; 0; 0; 0; 2].
Definition demo_guest : list Z := [2; 0; 0; 0; 0; 1].
Definition io_new : NetIo := {| tx_receiver := []; rx_sender := []; adapter := []; allocations := [] |}.

(** A frame of IPv4 in two buffers, its header apart, and one of IPv6 in one. *)
Definition demo_v4 : list Z := demo_gateway ++ demo_guest ++ [8; 0] ++ [0x45; 1; 2].
Definition demo_v6 : list Z := demo_gateway ++ demo_guest ++ [0x86; 0xDD] ++ [0x60; 9].

Definition frames_memory : GuestMemory :=
  let w m a d := write_guest_ignore m a d in
  let m := ram_at 0 4096 in
  let m := w m 0x402 (le_bytes 2 2 ++ le_bytes 2 5 ++ le_bytes 2 7) in
  let m := w m (5 * 16) (le_bytes 8 0x800 ++ le_bytes 4 12 ++ le_bytes 2 1 ++ le_bytes 2 6) in
  let m := w m (6 * 16) (le_bytes 8 0x900 ++ le_bytes 4 17 ++ le_bytes 2 0 ++ le_bytes 2 0) in
  let m := w m (7 * 16) (le_bytes 8 0xA00 ++ le_bytes 4 28 ++ le_bytes 2 0 ++ le_bytes 2 0) in
  w (w m 0x900 demo_v4) 0xA0C demo_v6.

Lemma frames_memory_wf : mem_wf frames_memory.
Proof. unfold frames_memory. repeat (apply write_ignore_wf; [|decided]). apply ram_at_wf; decided. Qed.

(** One frame a turn, and a packet from the host; the adapter has no room for the
    first packet. *)
Definition demo_turns : list IoTurn :=
  [{| stop_seen := false; arrived := [demo_v4]; received := Packet [0x45; 0] |};
   {| stop_seen := false; arrived := [demo_v6]; received := NoPacket |}].

Lemma guest_packets_bridged_witness : exists d' q' mem' s' s'',
  net_process_queue 3 demo_net TX_QUEUE demo_queue frames_memory = Ok (d', q', mem') /\ tx_sent d' = [demo_v4; demo_v6] /\
  net_io_loop demo_guest demo_gateway [10; 0; 0; 1] demo_turns io_new = (s', true) /\
  adapter s' = [[0x45; 1; 2]; [0x60; 9]] /\ rx_sender s' = [demo_guest ++ demo_gateway ++ [8; 0] ++ [0x45; 0]] /\
  net_io_loop demo_guest demo_gateway [10; 0; 0; 1] demo_turns
    {| tx_receiver := []; rx_sender := []; adapter := []; allocations := [false] |} = (s'', true) /\ adapter s'' = [[0x60; 9]].
Proof.
  assert (forall s, tx_receiver s = [] -> exists d' q' mem', net_process_queue 3 demo_net TX_QUEUE demo_queue frames_memory = Ok (d', q', mem') /\
    tx_sent d' = [demo_v4; demo_v6] /\ exists s', net_io_loop demo_guest demo_gateway [10; 0; 0; 1] demo_turns s = (s', true) /\
      adapter s' = adapter s ++ granted (allocations s) [[0x45; 1; 2]; [0x60; 9]] /\
      rx_sender s' = rx_sender s ++ [demo_guest ++ demo_gateway ++ [8; 0] ++ [0x45; 0]]) as Hrun.
  { intros s Hs.
    destruct (guest_packets_bridged 3 demo_net demo_queue frames_memory [5; 7] [demo_v4; demo_v6] 0 demo_guest demo_gateway [10; 0; 0; 1] demo_turns s
      demo_queue_wf frames_memory_wf eq_refl) as (d' & q' & m' & E & Ed & H & _).
    - split; [right; vm_compute; intros F; discriminate F|].
      split; [right; vm_compute; intros F; discriminate F|].
      split; [reflexivity|]. exists 0. vm_compute. reflexivity.
    - reflexivity.
    - reflexivity.
    - vm_compute. reflexivity.
    - decided.
    - vm_compute. reflexivity.
    - simpl. lia.
    - apply (bool_decide_unpack _). vm_compute. exact I.
    - repeat (constructor; [exists (replicate 12 0); split_and!; [reflexivity|vm_compute; reflexivity|decided|simpl; lia|vm_compute; discriminate]|]).
      constructor.
    - repeat constructor; discriminate.
    - exact Hs.
    - reflexivity.
    - reflexivity.
    - reflexivity.
    - destruct (H eq_refl) as (s' & E1 & E2 & E3). exists d', q', m'. split; [exact E|]. split; [exact Ed|].
      exists s'. split; [exact E1|]. split; [exact E2|]. rewrite E3. reflexivity. }
  destruct (Hrun io_new eq_refl) as (d' & q' & m' & E & Ed & s' & E1 & E2 & E3).
  destruct (Hrun {| tx_receiver := []; rx_sender := []; adapter := []; allocations := [false] |} eq_refl) as (_ & _ & _ & _ & _ & s'' & F1 & F2 & _).
  exists d', q', m', s', s''. split; [exact E|]. split; [exact Ed|]. split; [exact E1|]. split; [exact E2|]. split; [exact E3|].
  split; [exact F1|exact F2].
Defined.

Lemma netmask_correct_witness : prefix_to_mask 20 = "255.255.240.0"%string /\ Z.testbit (octets_value (prefix_to_ipv4_mask 20)) 12 = true.
Proof.
  split; [vm_compute; reflexivity|]. destruct (netmask_correct 20 ltac:(lia)) as (_ & _ & H & _). by rewrite H by lia.
Defined.
