(* ===== verification/Config.v ===== *)
(** * Virtual machine configurations

    [hitz-api/src/config.rs] and [api.rs]: the configuration and states of a
    virtual machine; [validate_config] of [hitz-vmm/src/vm.rs] and its errors. *)

From Stdlib Require Import String Ascii.
From stdpp Require Import strings.
From S2P Require Import Prelude Hal Memory PageTables Ethernet.

(** ** Configuration *)

Definition DEFAULT_CMDLINE : string := "console=ttyS0 earlyprintk=serial".
Definition DEFAULT_RAM_MIB : Z := 256.
Definition DEFAULT_CPUS : Z := 1.
Definition DEFAULT_GUEST_CID : Z := 3.

Record NetConfig := { net_mac : option string; host_ip : string; guest_ip : string; adapter_name : option string }.
Record PortForward := { host_port : Z; guest_port : Z }.

Inductive GuestAgentMode := AgentAuto | AgentCustom (path : string) | AgentDisabled.

(** [GuestAgentMode::default()]. *)
Definition GuestAgentMode_default : GuestAgentMode := AgentAuto.

Record VmConfig := {
  kernel_path : string; initramfs_path : option string; disk_path : option string; ram_mib : Z; cpus : Z;
  cmdline : option string; net : option NetConfig; ports : list PortForward; guest_cid : Z;
  guest_agent : GuestAgentMode;
}.

#[export] Instance NetConfig_eq_dec : EqDecision NetConfig.
Proof. solve_decision. Defined.
#[export] Instance PortForward_eq_dec : EqDecision PortForward.
Proof. solve_decision. Defined.
#[export] Instance GuestAgentMode_eq_dec : EqDecision GuestAgentMode.
Proof. solve_decision. Defined.
#[export] Instance VmConfig_eq_dec : EqDecision VmConfig.
Proof. solve_decision. Defined.

Definition effective_cmdline (c : VmConfig) : string := default DEFAULT_CMDLINE (cmdline c).

Inductive VmState := Created | Running | Stopped | Failed.
#[export] Instance VmState_eq_dec : EqDecision VmState.
Proof. solve_decision. Defined.

(** ** Errors of the monitor *)

Inductive VmError :=
| VmIo (msg : string)
| VmMem (e : MemError)
| VmHal (e : HalError)
| VmBoot (e : BootError)
| VmConfigErr (msg : string).

(** ** Validation *)

Definition MIN_RAM_MIB : Z := 2.

Section Validate.
(** The file system, and what the platform takes as a path separator. *)
Variables (path_exists : string -> bool) (is_separator : ascii -> bool).

(** The components of a path between separators. *)
Fixpoint components (cur : string) (s : string) : list string :=
  match s with
  | EmptyString => [cur]
  | String a s' => if is_separator a then cur :: components EmptyString s' else components (cur ++ String a "")%string s'
  end.

Definition has_parent_dir (path : string) : bool := existsb (String.eqb "..") (components EmptyString path).

Definition safe_path (path : string) : result VmError unit :=
  if has_parent_dir path then Err (VmConfigErr ("path traversal detected: " ++ path)%string) else Ok tt.

Definition safe_path_opt (path : option string) : result VmError unit :=
  match path with Some p => safe_path p | None => Ok tt end.

Definition must_exist (what : string) (path : option string) : result VmError unit :=
  match path with
  | Some p => if path_exists p then Ok tt else Err (VmConfigErr (what ++ " not found: " ++ p)%string)
  | None => Ok tt
  end.

Definition agent_path (m : GuestAgentMode) : option string :=
  match m with AgentCustom p => Some p | _ => None end.

Definition validate_config (c : VmConfig) : result VmError unit :=
  _ ← safe_path (kernel_path c);
  _ ← safe_path_opt (initramfs_path c);
  _ ← safe_path_opt (disk_path c);
  _ ← safe_path_opt (agent_path (guest_agent c));
  _ ← must_exist "kernel" (Some (kernel_path c));
  _ ← must_exist "initramfs" (initramfs_path c);
  _ ← must_exist "disk image" (disk_path c);
  if ram_mib c <? MIN_RAM_MIB then
    Err (VmConfigErr ("RAM must be at least 2 MiB, got " ++ fmt_dec (ram_mib c))%string)
  else if (cpus c =? 0) || (255 <? cpus c) then
    Err (VmConfigErr ("cpus must be 1..=255, got " ++ fmt_dec (cpus c))%string)
  else Ok tt.

(** ** Specification: what an accepted configuration guarantees *)

Definition files_of (c : VmConfig) : list string :=
  kernel_path c :: option_list (initramfs_path c) ++ option_list (disk_path c).

Definition config_ok (c : VmConfig) : Prop :=
  Forall (fun p => has_parent_dir p = false) (files_of c ++ option_list (agent_path (guest_agent c))) /\
  Forall (fun p => path_exists p = true) (files_of c) /\
  2 <= ram_mib c /\ 1 <= cpus c <= 255.

Lemma safe_path_Ok p u : safe_path p = Ok u <-> has_parent_dir p = false.
Proof. unfold safe_path. destruct u. by destruct (has_parent_dir p). Qed.

Lemma safe_path_opt_Ok p u : safe_path_opt p = Ok u <-> Forall (fun p => has_parent_dir p = false) (option_list p).
Proof.
  destruct u, p as [p|]; simpl; [|by split]. rewrite safe_path_Ok. split; [by repeat constructor|by intros ?%Forall_inv].
Qed.

Lemma must_exist_Ok w p u : must_exist w p = Ok u <-> Forall (fun p => path_exists p = true) (option_list p).
Proof.
  destruct u, p as [p|]; simpl; [|by split].
  destruct (path_exists p) eqn:E; split; try done; [by repeat constructor|intros H%Forall_inv; simpl in H; congruence].
Qed.

(** A configuration is accepted exactly when none of its paths leaves its
    directory with a [..], its files exist, it has at least 2 MiB of memory and
    1 to 255 processors. *)
Theorem validate_config_correct c :
  0 <= cpus c -> validate_config c = Ok tt <-> config_ok c.
Proof.
  intros Hc. unfold validate_config, config_ok, files_of. rewrite !Forall_app, !Forall_cons, !Forall_app.
  split.
  - intros H. repeat (apply bind_Ok in H as (? & ?%safe_path_Ok & H) || apply bind_Ok in H as (? & ?%safe_path_opt_Ok & H)
                      || apply bind_Ok in H as (? & ?%must_exist_Ok & H)).
    repeat (case_on; try done). b2p. unfold MIN_RAM_MIB in *.
    match goal with H' : Forall _ (option_list (Some _)) |- _ => apply Forall_inv in H' end.
    split_and!; done || lia.
  - intros (((? & ? & ?) & ?) & (? & ? & ?) & ? & ?).
    repeat (apply bind_Ok; exists tt; split;
      [apply safe_path_Ok || apply safe_path_opt_Ok || apply must_exist_Ok; first [done|by repeat constructor]|]).
    unfold MIN_RAM_MIB. rewrite (proj2 (Z.ltb_ge _ _)), (proj2 (Z.eqb_neq _ _)), (proj2 (Z.ltb_ge _ _)) by lia. done.
Qed.

End Validate.

Lemma validate_config_correct_witness :
  let c := {| kernel_path := "/boot/vmlinux"; initramfs_path := Some "/boot/../x"%string; disk_path := None;
              ram_mib := 256; cpus := 1; cmdline := None; net := None; ports := []; guest_cid := 3;
              guest_agent := AgentDisabled |} in
  is_err (validate_config (fun _ => true) (Ascii.eqb "/") c) = true /\
  ~ config_ok (fun _ => true) (Ascii.eqb "/") c.
Proof.
  cbv zeta. split; [vm_compute; reflexivity|]. intros H.
  apply (validate_config_correct (fun _ => true) (Ascii.eqb "/")) in H; [|simpl; lia]. vm_compute in H. discriminate H.
Defined.
