(* ===== verification/Analytics.v ===== *)
(** * Analytics of snapshots

    The optional modules of [hitz-api] over the measurements of [GuestProc.v]:
    [diff.rs], [health.rs], [sentinel.rs], [classifier.rs], [rightsizer.rs],
    [efficiency.rs], [imbalance.rs], [fingerprint.rs], [carbon.rs] and
    [simulator.rs].  Floats are those of [FloatOrder.v]; [f64::log10], which the
    platform's library computes, is a parameter. *)

From Stdlib Require Import String Ascii Floats.SpecFloat.
From stdpp Require Import list.
From S2P Require Import Prelude Hal Memory PageTables Cpio Ethernet Config.
From S2P Require Import Float Text FloatOrder Format GuestProc.

(** Literals. *)
Definition f32 (n : Z) : spec_float := float_of_int F32 n.
Definition f64 (n : Z) : spec_float := float_of_int F64 n.
(** [d / 10 ^ k]. *)
Definition dec32 (d k : Z) : spec_float := decimal_to_float F32 false d (- k).
Definition dec64 (d k : Z) : spec_float := decimal_to_float F64 false d (- k).
Definition from_f32 (x : spec_float) : spec_float := float_cast F64 x.

(** Sums of [u64]s, left to right. *)
Definition sum_u64 (oc : bool) (l : list (result Stop Z)) : result Stop Z :=
  foldl (fun acc x => a ← acc; b ← x; add_u64 oc a b) (Ok 0) l.

(** ** Rates between two snapshots *)

Record DiskRate := { dr_name : text; reads_per_sec : spec_float; writes_per_sec : spec_float;
                     read_bytes_per_sec : spec_float; write_bytes_per_sec : spec_float }.
Record NetRate := { nr_interface : text; rx_bytes_per_sec : spec_float; tx_bytes_per_sec : spec_float;
                    rx_packets_per_sec : spec_float; tx_packets_per_sec : spec_float }.
Record MetricsDiff := { elapsed_secs : spec_float; disk_rates : list DiskRate; net_rates : list NetRate }.

Definition per_sec (elapsed : spec_float) (curr prev : Z) : spec_float :=
  fdiv F64 (f64 (saturating_sub curr prev)) elapsed.

Definition disk_rate (elapsed : spec_float) (previous : list DiskMetrics) (c : DiskMetrics) : option DiskRate :=
  p ← List.find (fun d => bool_decide (disk_name d = disk_name c)) previous;
  Some {| dr_name := disk_name c;
          reads_per_sec := per_sec elapsed (reads_total c) (reads_total p);
          writes_per_sec := per_sec elapsed (writes_total c) (writes_total p);
          read_bytes_per_sec := per_sec elapsed (read_bytes c) (read_bytes p);
          write_bytes_per_sec := per_sec elapsed (write_bytes c) (write_bytes p) |}.

Definition net_rate (elapsed : spec_float) (previous : list NetMetrics) (c : NetMetrics) : option NetRate :=
  p ← List.find (fun n => bool_decide (interface n = interface c)) previous;
  Some {| nr_interface := interface c;
          rx_bytes_per_sec := per_sec elapsed (rx_bytes c) (rx_bytes p);
          tx_bytes_per_sec := per_sec elapsed (tx_bytes c) (tx_bytes p);
          rx_packets_per_sec := per_sec elapsed (rx_packets c) (rx_packets p);
          tx_packets_per_sec := per_sec elapsed (tx_packets c) (tx_packets p) |}.

Definition diff (curr previous : MetricsSnapshot) : option MetricsDiff :=
  if timestamp_ms curr <=? timestamp_ms previous then None
  else
    let elapsed := fdiv F64 (f64 (timestamp_ms curr - timestamp_ms previous)) (f64 1000) in
    Some {| elapsed_secs := elapsed;
            disk_rates := omap (disk_rate elapsed (disks previous)) (disks curr);
            net_rates := omap (net_rate elapsed (networks previous)) (networks curr) |}.

(** ** Health *)

Inductive HealthStatus := Healthy | Warning | Critical.

Definition severity (s : HealthStatus) : Z := match s with Healthy => 0 | Warning => 1 | Critical => 2 end.
(** The derived [Ord::max]: the second where they are equal. *)
Definition status_max (a b : HealthStatus) : HealthStatus := if severity b <? severity a then a else b.

Record SystemHealth := { health : HealthStatus; reasons : list text }.

(** One evaluation: the status so far with the reasons. *)
Definition raise (h : SystemHealth) (s : HealthStatus) (reason : text) : SystemHealth :=
  {| health := status_max (health h) s; reasons := reasons h ++ [reason] |}.

(** [if v > critical ... else if v > warning ...]. *)
Definition evaluate (above : spec_float -> bool) (critical warning : spec_float) (c w : text) (h : SystemHealth) : SystemHealth :=
  if above critical then raise h Critical c else if above warning then raise h Warning w else h.

(** [(used as f64 / total as f64) * 100.0]. *)
Definition used_pct (used total : Z) : spec_float := percent64 used total.

Definition pct_reason (what : string) (pct : spec_float) : text := str what ++ fixed1 pct ++ str "%".

Definition assess_cpu (snap : MetricsSnapshot) (h : SystemHealth) : SystemHealth :=
  let pct := total_pct (cpu snap) in
  evaluate (fgt pct) (f32 90) (f32 75) (pct_reason "Critical CPU usage: " pct) (pct_reason "High CPU usage: " pct) h.

Definition assess_memory (snap : MetricsSnapshot) (h : SystemHealth) : SystemHealth :=
  let m := memory snap in
  if 0 <? total_bytes m then
    let pct := used_pct (used_bytes m) (total_bytes m) in
    evaluate (fgt pct) (f64 90) (f64 75) (pct_reason "Critical memory usage: " pct) (pct_reason "High memory usage: " pct) h
  else h.

Definition assess_swap (snap : MetricsSnapshot) (h : SystemHealth) : SystemHealth :=
  let m := memory snap in
  if 0 <? swap_total m then
    let pct := used_pct (swap_used m) (swap_total m) in
    evaluate (fgt pct) (f64 50) (f64 20) (pct_reason "Critical swap usage: " pct) (pct_reason "High swap usage: " pct) h
  else h.

Definition net_errors (oc : bool) (snap : MetricsSnapshot) : result Stop Z :=
  sum_u64 oc ((fun n => add_u64 oc (rx_errors n) (tx_errors n)) <$> networks snap).

Definition assess_network (errors : Z) (h : SystemHealth) : SystemHealth :=
  if 100 <? errors then raise h Critical (str "Critical network errors: " ++ digits errors)
  else if 10 <? errors then raise h Warning (str "Elevated network errors: " ++ digits errors)
  else h.

Definition assess_health (oc : bool) (snap : MetricsSnapshot) : result Stop SystemHealth :=
  let h := assess_swap snap (assess_memory snap (assess_cpu snap {| health := Healthy; reasons := [] |})) in
  errors ← net_errors oc snap;
  Ok (assess_network errors h).

(** ** Sentinel rules *)

Inductive ConditionOperator := GreaterThan | LessThan | Equals.
Inductive MetricTarget := CpuTotalPct | MemoryUsedBytes.
Record SentinelCondition := { target : MetricTarget; operator : ConditionOperator; threshold : spec_float }.
Record SentinelRule := { rule_name : text; condition : SentinelCondition }.

Definition target_value (t : MetricTarget) (snap : MetricsSnapshot) : spec_float :=
  match t with CpuTotalPct => total_pct (cpu snap) | MemoryUsedBytes => f32 (used_bytes (memory snap)) end.

Definition evaluate_rule (r : SentinelRule) (snap : MetricsSnapshot) : bool :=
  let value := target_value (target (condition r)) snap in
  let limit := threshold (condition r) in
  match operator (condition r) with
  | GreaterThan => fgt value limit
  | LessThan => SFltb value limit
  | Equals => SFltb (SFabs (fsub F32 value limit)) F32_EPSILON
  end.

(** ** Workload classes *)

Inductive WorkloadClass := ComputeBound | MemoryBound | IoHeavy | Idle.

Definition busy_disk (d : DiskRate) : bool := fgt (reads_per_sec d) (f64 500) || fgt (writes_per_sec d) (f64 500).
Definition busy_net (n : NetRate) : bool :=
  fgt (rx_bytes_per_sec n) (f64 10000000) || fgt (tx_bytes_per_sec n) (f64 10000000).

Definition memory_bound (m : MemoryMetrics) : bool :=
  (0 <? total_bytes m) && fgt (used_pct (used_bytes m) (total_bytes m)) (f64 80).

Definition classify_workload (snap : MetricsSnapshot) (d : MetricsDiff) : WorkloadClass :=
  if fgt (total_pct (cpu snap)) (f32 80) then ComputeBound
  else if memory_bound (memory snap) then MemoryBound
  else
    let disk_io_heavy := foldl (fun heavy r => if busy_disk r then true else heavy) false (disk_rates d) in
    let net_io_heavy := foldl (fun heavy r => if busy_net r then true else heavy) false (net_rates d) in
    if disk_io_heavy || net_io_heavy then IoHeavy else Idle.

(** ** Sizing *)

Inductive ResizeRecommendation :=
| ScaleUpCpu (current suggested : Z) (reason : text)
| ScaleDownCpu (current suggested : Z) (reason : text)
| ScaleUpRam (current_mib suggested_mib : Z) (reason : text)
| ScaleDownRam (current_mib suggested_mib : Z) (reason : text).

Definition size_cpu (snap : MetricsSnapshot) (config : VmConfig) : list ResizeRecommendation :=
  let pct := total_pct (cpu snap) in
  if fgt pct (f32 90) then
    [ScaleUpCpu (cpus config) (saturating_add 32 (cpus config) 1) (pct_reason "CPU utilization is critically high at " pct)]
  else if SFltb pct (f32 10) && (1 <? cpus config) then
    [ScaleDownCpu (cpus config) (Z.max (saturating_sub (cpus config) 1) 1) (pct_reason "CPU utilization is very low at " pct)]
  else [].

Definition size_ram (used : Z) (mib : Z) : list ResizeRecommendation :=
  let ram_bytes := mib * 1024 * 1024 in
  if 0 <? ram_bytes then
    let pct := used_pct used ram_bytes in
    if fgt pct (f64 90) then
      [ScaleUpRam mib (saturating_mul 32 mib 2) (pct_reason "Memory utilization is critically high at " pct)]
    else if SFltb pct (f64 20) && (128 <? mib) then
      [ScaleDownRam mib (Z.max (mib / 2) 128) (pct_reason "Memory utilization is very low at " pct)]
    else []
  else [].

Definition recommend_sizing (snap : MetricsSnapshot) (config : VmConfig) : list ResizeRecommendation :=
  size_cpu snap config ++ size_ram (used_bytes (memory snap)) (ram_mib config).

(** ** Efficiency *)

Record EfficiencyScore := { score : spec_float; insights : list text }.

(** Score and insights after the CPU's evaluation, and after the memory's. *)
Definition score_cpu (snap : MetricsSnapshot) : EfficiencyScore :=
  let cpu_usage := from_f32 (total_pct (cpu snap)) in
  if SFltb cpu_usage (f64 40) then
    {| score := fsub F64 (f64 100) (fmul F64 (fsub F64 (f64 40) cpu_usage) (dec64 125 2));
       insights := [str "CPU underutilized: " ++ fixed1 cpu_usage ++ str "%. Consider reducing vCPU count."] |}
  else {| score := f64 100; insights := [] |}.

Definition score_memory (m : MemoryMetrics) (e : EfficiencyScore) : EfficiencyScore :=
  if 0 <? total_bytes m then
    let pct := used_pct (used_bytes m) (total_bytes m) in
    if SFltb pct (f64 50) then
      {| score := fsub F64 (score e) (fsub F64 (f64 50) pct);
         insights := insights e ++ [str "Memory underutilized: " ++ fixed1 pct ++ str "%. Consider reducing allocated RAM."] |}
    else e
  else e.

Definition calculate_efficiency (snap : MetricsSnapshot) : EfficiencyScore :=
  let e := score_memory (memory snap) (score_cpu snap) in
  {| score := clamp_float (score e) (S754_zero false) (f64 100); insights := insights e |}.

(** ** Core imbalance *)

Record ImbalanceResult := { std_dev : spec_float; imbalance_score : spec_float; is_imbalanced : bool }.

(** [Iterator::sum] of [f64]s, which starts at minus zero. *)
Definition sum_f64 (l : list spec_float) : spec_float := foldl (fadd F64) (S754_zero true) l.

Definition max_std_dev (n : spec_float) : spec_float :=
  fmul F64 (f64 100) (fsqrt F64 (fdiv F64 (fsub F64 n (f64 1)) (fmul F64 n n))).

Definition std_dev_of (cores : list spec_float) : spec_float :=
  let n := f64 (zlen cores) in
  let mean := fdiv F64 (sum_f64 (from_f32 <$> cores)) n in
  let square c := let diff := fsub F64 (from_f32 c) mean in fmul F64 diff diff in
  fsqrt F64 (fdiv F64 (sum_f64 (square <$> cores)) n).

Definition analyze_imbalance (snap : MetricsSnapshot) : ImbalanceResult :=
  let cores := per_core (cpu snap) in
  if zlen cores <=? 1 then {| std_dev := S754_zero false; imbalance_score := S754_zero false; is_imbalanced := false |}
  else
    let sd := std_dev_of cores in
    let limit := max_std_dev (f64 (zlen cores)) in
    let score := if fgt limit (S754_zero false) then clamp_float (fdiv F64 sd limit) (S754_zero false) (f64 1) else S754_zero false in
    {| std_dev := sd; imbalance_score := score; is_imbalanced := fgt score (dec64 5 1) |}.

(** ** Fingerprints *)

Section Fingerprint.
Variable log10 : spec_float -> spec_float.

Definition cpu_bucket (pct : spec_float) : Z :=
  float_to_uint 32 (clamp_float (fdiv F32 pct (f32 10)) (S754_zero false) (f32 10)).

Definition ram_bucket (m : MemoryMetrics) : Z :=
  if 0 <? total_bytes m then
    float_to_uint 32 (clamp_float (fdiv F64 (used_pct (used_bytes m) (total_bytes m)) (f64 10)) (S754_zero false) (f64 10))
  else 0.

Definition volume_bucket (bytes : Z) : Z :=
  if 0 <? bytes then float_to_uint 32 (clamp_float (log10 (f64 bytes)) (S754_zero false) (f64 9)) else 0.

(** The four buckets, and the text they make. *)
Definition buckets (oc : bool) (snap : MetricsSnapshot) : result Stop (Z * Z * Z * Z) :=
  let c := cpu_bucket (total_pct (cpu snap)) in
  let r := ram_bucket (memory snap) in
  disk_bytes ← sum_u64 oc ((fun d => add_u64 oc (read_bytes d) (write_bytes d)) <$> disks snap);
  let d := volume_bucket disk_bytes in
  net_bytes ← sum_u64 oc ((fun n => add_u64 oc (rx_bytes n) (tx_bytes n)) <$> networks snap);
  Ok (c, r, d, volume_bucket net_bytes).

Definition generate_fingerprint (oc : bool) (snap : MetricsSnapshot) : result Stop text :=
  '(c, r, d, n) ← buckets oc snap;
  Ok (str "FP-C" ++ digits c ++ str "-R" ++ digits r ++ str "-D" ++ digits d ++ str "-N" ++ digits n).
End Fingerprint.

(** ** Carbon *)

Record EmissionFactors := {
  grid_intensity_g_per_kwh : spec_float; cpu_power_watts_max : spec_float; cpu_power_watts_idle : spec_float;
  ram_power_watts_per_gb : spec_float; pue : spec_float;
}.

Definition emission_factors (grid : spec_float) : EmissionFactors :=
  {| grid_intensity_g_per_kwh := grid; cpu_power_watts_max := f64 10; cpu_power_watts_idle := f64 2;
     ram_power_watts_per_gb := dec64 5 1; pue := dec64 15 1 |}.

Definition estimate_carbon (snap : MetricsSnapshot) (f : EmissionFactors) (vcpus : Z) : spec_float :=
  let cpu_utilization := fdiv F64 (clamp_float (from_f32 (total_pct (cpu snap))) (S754_zero false) (f64 100)) (f64 100) in
  let vcpus := f64 vcpus in
  let cpu_power_watts :=
    mul_add F64 vcpus (cpu_power_watts_idle f)
      (fmul F64 (fmul F64 (fsub F64 (cpu_power_watts_max f) (cpu_power_watts_idle f)) vcpus) cpu_utilization) in
  let ram_gb := fdiv F64 (f64 (total_bytes (memory snap))) (fmul F64 (fmul F64 (f64 1024) (f64 1024)) (f64 1024)) in
  let ram_power_watts := fmul F64 ram_gb (ram_power_watts_per_gb f) in
  let total_power_watts := fmul F64 (fadd F64 cpu_power_watts ram_power_watts) (pue f) in
  let power_kw := fdiv F64 total_power_watts (f64 1000) in
  let emissions_g_per_hour := fmul F64 power_kw (grid_intensity_g_per_kwh f) in
  fdiv F64 (fmul F64 emissions_g_per_hour (f64 1000)) (f64 3600).

(** ** The simulator *)

Inductive WorkloadProfile := CpuSpike | MemoryLeak | IdleLoad.
Record VmSimulator := { profile : WorkloadProfile; iteration : Z }.

Definition simulator_new (p : WorkloadProfile) : VmSimulator := {| profile := p; iteration := 0 |}.

Section Simulator.
Variable overflow_checks : bool.

Definition sub_u64 (a b : Z) : result Stop Z := ok_or (op_sub overflow_checks 64 a b) Panic.

Definition BASE_MEMORY : Z := 100 * 1024 * 1024.
Definition GUEST_MEMORY : Z := 1024 * 1024 * 1024.

Definition leaked (i : Z) : result Stop Z :=
  a ← mul_u64 overflow_checks i 50; b ← mul_u64 overflow_checks a 1024; c ← mul_u64 overflow_checks b 1024;
  add_u64 overflow_checks BASE_MEMORY c.

Definition simulator_next (s : VmSimulator) : result Stop (MetricsSnapshot * VmSimulator) :=
  '(pct, mem_used) ← match profile s with
                     | CpuSpike => Ok (fmin (fmul F32 (f32 (iteration s)) (f32 15)) (f32 95), BASE_MEMORY)
                     | MemoryLeak => m ← leaked (iteration s); Ok (f32 10, m)
                     | IdleLoad => Ok (f32 5, BASE_MEMORY)
                     end;
  i ← add_u64 overflow_checks (iteration s) 1;
  ts ← mul_u64 overflow_checks i 1000;
  free ← sub_u64 GUEST_MEMORY mem_used;
  Ok ({| timestamp_ms := ts;
         cpu := {| total_pct := pct; per_core := [pct]; load_avg := [dec32 1 1; dec32 1 1; dec32 1 1] |};
         memory := {| total_bytes := GUEST_MEMORY; used_bytes := mem_used; free_bytes := free;
                      buffers_bytes := 0; cached_bytes := 0; swap_total := 0; swap_used := 0 |};
         disks := []; networks := []; processes := [] |}, {| profile := profile s; iteration := i |}).

(** The first [n] snapshots, or those before a panic. *)
Fixpoint simulate (n : nat) (s : VmSimulator) : list MetricsSnapshot * result Stop VmSimulator :=
  match n with
  | O => ([], Ok s)
  | S n' => match simulator_next s with
            | Ok (snap, s') => let '(l, r) := simulate n' s' in (snap :: l, r)
            | Err e => ([], Err e)
            end
  end.
End Simulator.

(** ** Lemmas: comparisons *)

#[local] Notation scaled64 := (scaled 53 1024).
#[local] Notation canonical64 := (canonical 53 1024).

Lemma compare_flip x y : SFcompare y x = CompOpp <$> SFcompare x y.
Proof.
  destruct x as [[]|[]| |[] m e], y as [[]|[]| |[] m' e']; try done; simpl; rewrite (Z.compare_antisym e e');
    destruct (e ?= e'); try done; simpl; do 2 f_equal; rewrite Pos.compare_cont_antisym; simpl; try done;
    by rewrite CompOpp_involutive.
Qed.

Lemma ltb_asym x y : SFltb x y = true -> SFltb y x = false.
Proof. unfold SFltb. rewrite (compare_flip x y). by destruct (SFcompare x y) as [[]|]. Qed.

Lemma not_ltb_leb x y : is_nan x = false -> is_nan y = false -> SFltb x y = false -> SFleb y x = true.
Proof.
  unfold SFltb, SFleb. rewrite (compare_flip x y). intros Hx Hy.
  assert (is_Some (SFcompare x y)) as [c ->] by (destruct x as [|[]| |[]], y as [|[]| |[]]; done).
  by destruct c.
Qed.

Lemma clamp_range x lo hi : is_nan x = false -> is_nan lo = false -> is_nan hi = false -> SFltb hi lo = false -> SFleb lo lo = true ->
  SFleb hi hi = true -> SFleb lo (clamp_float x lo hi) = true /\ SFleb (clamp_float x lo hi) hi = true.
Proof.
  intros Hx Hl Hh Hlh Rl Rh. unfold clamp_float. destruct (SFltb x lo) eqn:E1; [split; [done|by apply not_ltb_leb]|].
  destruct (SFltb hi x) eqn:E2; [split; [by apply not_ltb_leb|done]|]. by split; apply not_ltb_leb.
Qed.

Lemma int_scaled b : 0 <= b < 2 ^ 53 -> canonical64 (f64 b) /\ scaled64 (f64 b) = b * 2 ^ 1074.
Proof.
  intros Hb. destruct (decide (b = 0)) as [->|]; [done|]. split; [apply f64_of_u64; lia|apply f64_exact; lia].
Qed.

(** ** Lemmas: percentages *)

Lemma pct_zero r : 0 < r < 2 ^ 53 -> used_pct 0 r = S754_zero false.
Proof. intros. unfold used_pct, percent64. by destruct (float_of_int_number F64 r ltac:(by right) ltac:(lia)) as (p & e & ->). Qed.

Section Percentages.
Context (u r : Z) (Hu : 0 <= u < 2 ^ 64) (Hr : 0 < r < 2 ^ 53).
#[local] Notation U := (scaled64 (float_of_int F64 u)).

Lemma total_scaled : scaled64 (float_of_int F64 r) = r * 2 ^ 1074.
Proof. apply f64_exact. lia. Qed.

(** At most [k] per cent is not above [b > k]. *)
Lemma pct_not_above k b : 0 <= k < b -> b <= 2 ^ 10 -> 100 * U <= k * (r * 2 ^ 1074) -> fgt (used_pct u r) (f64 b) = false.
Proof.
  intros Hk Hb H. destruct (int_scaled b ltac:(lia)) as [Cb Eb]. unfold fgt. destruct (decide (u = 0)) as [->|].
  { rewrite pct_zero by done. rewrite (ltb_scaled 53 1024) by done. rewrite Eb. apply Z.ltb_ge. simpl scaled. assert (0 < 2 ^ 1074) by done. nia. }
  destruct (percent_le u r ltac:(lia) ltac:(lia) k ltac:(lia)) as [C L]; [by rewrite total_scaled|].
  rewrite (ltb_scaled 53 1024) by done. apply Z.ltb_ge. rewrite Eb. etrans; [exact L|]. assert (0 < 2 ^ 1074) by done. nia.
Qed.

Lemma pct_lower k : u <> 0 -> 2 <= k <= 2 ^ 10 -> 2 ^ 20 <= r -> k * (r * 2 ^ 1074) <= 100 * U ->
  canonical64 (used_pct u r) /\ (k - 1) * 2 ^ 1074 <= scaled64 (used_pct u r).
Proof.
  intros Hu0 Hk Hr20 H. destruct (f64_of_u64 u ltac:(lia)) as [_ [_ U2]].
  assert (U <= 2 ^ 45 * scaled64 (float_of_int F64 r)) as HU.
  { rewrite total_scaled. etrans; [exact U2|]. change (2 ^ 1138) with (2 ^ 45 * (2 ^ 19 * 2 ^ 1074)).
    apply Z.mul_le_mono_nonneg_l; [done|]. apply Z.mul_le_mono_nonneg_r; lia. }
  pose proof (percent_ge u r ltac:(lia) ltac:(lia) k ltac:(lia)) as HG. rewrite total_scaled in HG at 1.
  split; [by apply percent_canonical; lia|by apply HG].
Qed.

(** At least [k] per cent is not below [b < k]. *)
Lemma pct_not_below k b : 0 <= b < k -> 2 <= k <= 2 ^ 10 -> 2 ^ 20 <= r -> k * (r * 2 ^ 1074) <= 100 * U -> SFltb (used_pct u r) (f64 b) = false.
Proof.
  intros Hb Hk Hr20 H. destruct (int_scaled b ltac:(lia)) as [Cb Eb]. assert (0 < 2 ^ 1074) as P by done.
  destruct (decide (u = 0)) as [->|]; [simpl scaled in H; nia|].
  destruct (pct_lower k ltac:(done) Hk Hr20 H) as [C HG].
  rewrite (ltb_scaled 53 1024) by done. apply Z.ltb_ge. rewrite Eb. etrans; [|exact HG]. nia.
Qed.

Lemma pct_below k b : 0 <= k < b - 1 -> b <= 2 ^ 10 -> 100 * U <= k * (r * 2 ^ 1074) -> SFltb (used_pct u r) (f64 b) = true.
Proof.
  intros Hk Hb H. destruct (int_scaled b ltac:(lia)) as [Cb Eb]. assert (0 < 2 ^ 1074) as P by done. destruct (decide (u = 0)) as [->|].
  { rewrite pct_zero by done. rewrite (ltb_scaled 53 1024) by done. rewrite Eb. apply Z.ltb_lt. simpl scaled. nia. }
  destruct (percent_le u r ltac:(lia) ltac:(lia) k ltac:(lia)) as [C L]; [by rewrite total_scaled|].
  rewrite (ltb_scaled 53 1024) by done. apply Z.ltb_lt. rewrite Eb. eapply Z.le_lt_trans; [exact L|]. nia.
Qed.

Lemma pct_above k b : 0 <= b < k - 1 -> 2 <= k <= 2 ^ 10 -> 2 ^ 20 <= r -> k * (r * 2 ^ 1074) <= 100 * U -> fgt (used_pct u r) (f64 b) = true.
Proof.
  intros Hb Hk Hr20 H. destruct (int_scaled b ltac:(lia)) as [Cb Eb]. assert (0 < 2 ^ 1074) as P by done.
  destruct (decide (u = 0)) as [->|]; [simpl scaled in H; nia|].
  destruct (pct_lower k ltac:(done) ltac:(lia) ltac:(lia) H) as [C HG].
  unfold fgt. rewrite (ltb_scaled 53 1024) by done. apply Z.ltb_lt. rewrite Eb. eapply Z.lt_le_trans; [|exact HG]. nia.
Qed.

(** The float of the used bytes and their number. *)
Lemma used_le k : 0 <= k < 2 ^ 53 -> u <= k -> U <= k * 2 ^ 1074.
Proof.
  intros Hk Huk. assert (0 < 2 ^ 1074) by done. destruct (decide (u = 0)) as [->|]; [simpl scaled; nia|].
  rewrite <- (f64_exact k) by lia. apply f64_mono; lia.
Qed.

Lemma used_ge k : 0 < k < 2 ^ 53 -> k <= u -> k * 2 ^ 1074 <= U.
Proof. intros Hk Huk. rewrite <- (f64_exact k) by lia. apply f64_mono; lia. Qed.
End Percentages.

(** ** Properties: sizing *)

Definition with_ram (c : VmConfig) (mib : Z) : VmConfig :=
  {| kernel_path := kernel_path c; initramfs_path := initramfs_path c; disk_path := disk_path c; ram_mib := mib;
     cpus := cpus c; cmdline := cmdline c; net := net c; ports := ports c; guest_cid := guest_cid c; guest_agent := guest_agent c |}.

Definition ram_rec (r : ResizeRecommendation) : bool := match r with ScaleUpRam _ _ _ | ScaleDownRam _ _ _ => true | _ => false end.

Lemma ram_recs snap c : List.filter ram_rec (recommend_sizing snap c) = size_ram (used_bytes (memory snap)) (ram_mib c).
Proof.
  unfold recommend_sizing. rewrite List.filter_app.
  replace (List.filter ram_rec (size_cpu snap c)) with (@nil ResizeRecommendation)
    by (unfold size_cpu; destruct (fgt _ _); [done|]; by destruct (_ && _)).
  unfold size_ram. destruct (0 <? _); [|done]. destruct (fgt _ _); [done|]. by destruct (_ && _).
Qed.

Lemma ram_rec_in snap c r : r ∈ recommend_sizing snap c -> ram_rec r = true -> r ∈ size_ram (used_bytes (memory snap)) (ram_mib c).
Proof. intros Hin Hr. rewrite <- ram_recs. apply list_elem_of_In, filter_In. split; [by apply list_elem_of_In|done]. Qed.

Section Sizing.
Context (used mib : Z) (Hu : 0 <= used < 2 ^ 64) (Hm : 0 < mib < 2 ^ 32).
#[local] Notation U := (scaled64 (float_of_int F64 used)).
#[local] Notation bytes := (mib * 1024 * 1024).

Lemma ram_bytes_ok : 0 < bytes < 2 ^ 53 /\ 2 ^ 20 <= bytes.
Proof. lia. Qed.

(** A recommendation to grow: more than 89 per cent are used. *)
Lemma scale_up cur sug why : ScaleUpRam cur sug why ∈ size_ram used mib ->
  cur = mib /\ sug = saturating_mul 32 mib 2 /\ 89 * (bytes * 2 ^ 1074) < 100 * U.
Proof.
  unfold size_ram. rewrite (proj2 (Z.ltb_lt 0 bytes)) by lia. destruct (fgt _ _) eqn:E; [|destruct (_ && _); set_solver].
  intros Hin. apply list_elem_of_singleton in Hin. injection Hin as -> -> _. split_and!; [done..|]. apply Z.nle_gt. intros HL.
  rewrite (pct_not_above used bytes Hu ltac:(lia) 89 90) in E; done.
Qed.

(** A recommendation to shrink: less than 21 per cent are used. *)
Lemma scale_down cur sug why : ScaleDownRam cur sug why ∈ size_ram used mib ->
  cur = mib /\ 128 < mib /\ sug = Z.max (mib / 2) 128 /\ 100 * U < 21 * (bytes * 2 ^ 1074).
Proof.
  unfold size_ram. rewrite (proj2 (Z.ltb_lt 0 bytes)) by lia. destruct (fgt _ _); [set_solver|].
  destruct (SFltb _ _) eqn:E; [|set_solver]. destruct (128 <? mib) eqn:E2; [|set_solver]. apply Z.ltb_lt in E2.
  intros Hin. apply list_elem_of_singleton in Hin. injection Hin as -> -> _. split_and!; [done..|]. apply Z.nle_gt. intros HL.
  rewrite (pct_not_below used bytes Hu ltac:(lia) 21 20) in E; done || lia.
Qed.
End Sizing.

(** A recommendation once followed is not taken back: where more memory was
    recommended, the same use of the suggested memory does not call for less, and
    where less was recommended it does not call for more, whatever is rounded in
    the percentages. *)
Theorem sizing_stable snap config cur sug why :
  0 <= used_bytes (memory snap) < 2 ^ 64 -> 0 <= ram_mib config < 2 ^ 32 ->
  (ScaleUpRam cur sug why ∈ recommend_sizing snap config ->
     forall cur' sug' why', ScaleDownRam cur' sug' why' ∉ recommend_sizing snap (with_ram config sug)) /\
  (ScaleDownRam cur sug why ∈ recommend_sizing snap config ->
     forall cur' sug' why', ScaleUpRam cur' sug' why' ∉ recommend_sizing snap (with_ram config sug)).
Proof.
  intros Hu Hm. set (used := used_bytes (memory snap)) in *. assert (0 < 2 ^ 1074) as P by done.
  destruct (decide (ram_mib config = 0)) as [E0|].
  { split; intros Hin%ram_rec_in; try done; rewrite E0 in Hin; unfold size_ram in Hin; simpl in Hin; set_solver. }
  split; intros Hin%ram_rec_in cur' sug' why' Hin'%ram_rec_in; try done; simpl ram_mib in Hin'; fold used in Hin, Hin'.
  - apply scale_up in Hin as (-> & -> & H1); [|done|lia]. unfold saturating_mul in Hin'.
    apply scale_down in Hin' as (_ & _ & _ & H2); [|done|lia]. nia.
  - apply scale_down in Hin as (-> & H128 & -> & H1); [|done|lia].
    pose proof (Z.div_mod (ram_mib config) 2 ltac:(done)). pose proof (Z.mod_pos_bound (ram_mib config) 2 ltac:(done)).
    apply scale_up in Hin' as (_ & _ & H2); [|done|lia]. nia.
Qed.

Section SizingThresholds.
Context (used mib : Z) (Hu : 0 <= used < 2 ^ 64) (Hm : 0 < mib < 2 ^ 32).
#[local] Notation U := (scaled64 (float_of_int F64 used)).
#[local] Notation bytes := (mib * 1024 * 1024).

(** Percentages of the bytes used and of their float. *)
Lemma percent_used_le k : 0 <= k <= 100 -> 100 * used <= k * bytes -> 100 * U <= k * (bytes * 2 ^ 1074).
Proof.
  intros Hk H. pose proof (Z.div_mod (k * bytes) 100 ltac:(done)). pose proof (Z.mod_pos_bound (k * bytes) 100 ltac:(done)).
  assert (0 <= k * bytes <= 100 * bytes) by nia.
  pose proof (used_le used Hu (k * bytes / 100) ltac:(lia) ltac:(lia)) as HU. assert (0 < 2 ^ 1074) by done.
  transitivity (100 * (k * bytes / 100) * 2 ^ 1074); [lia|]. rewrite (Z.mul_assoc k bytes). apply Z.mul_le_mono_nonneg_r; lia.
Qed.

Lemma percent_used_ge k : 0 < k <= 100 -> k * bytes <= 100 * used -> k * (bytes * 2 ^ 1074) <= 100 * U.
Proof.
  intros Hk H. set (q := - (- (k * bytes) / 100)).
  pose proof (Z.div_mod (- (k * bytes)) 100 ltac:(done)). pose proof (Z.mod_pos_bound (- (k * bytes)) 100 ltac:(done)).
  assert (0 < k * bytes <= 100 * bytes) by nia. assert (k * bytes <= 100 * q < k * bytes + 100) by lia.
  pose proof (used_ge used Hu q ltac:(lia) ltac:(lia)) as HU. assert (0 < 2 ^ 1074) by done.
  transitivity (100 * q * 2 ^ 1074); [|lia]. rewrite (Z.mul_assoc k bytes). apply Z.mul_le_mono_nonneg_r; lia.
Qed.

Lemma grows : 92 * bytes <= 100 * used -> exists why, size_ram used mib = [ScaleUpRam mib (saturating_mul 32 mib 2) why].
Proof.
  intros H%percent_used_ge; [|done]. unfold size_ram. rewrite (proj2 (Z.ltb_lt 0 bytes)) by lia.
  rewrite (pct_above used bytes Hu ltac:(lia) 92 90) by (done || lia). by eexists.
Qed.

Lemma shrinks : 100 * used <= 18 * bytes -> 128 < mib -> exists why, size_ram used mib = [ScaleDownRam mib (Z.max (mib / 2) 128) why].
Proof.
  intros H%percent_used_le H128; [|done]. unfold size_ram. rewrite (proj2 (Z.ltb_lt 0 bytes)) by lia.
  rewrite (pct_not_above used bytes Hu ltac:(lia) 18 90), (pct_below used bytes Hu ltac:(lia) 18 20) by (done || lia).
  rewrite (proj2 (Z.ltb_lt 128 mib)) by done. by eexists.
Qed.

Lemma keeps : 21 * bytes <= 100 * used <= 89 * bytes -> size_ram used mib = [].
Proof.
  intros [H1%percent_used_ge H2%percent_used_le]; try done. unfold size_ram. rewrite (proj2 (Z.ltb_lt 0 bytes)) by lia.
  by rewrite (pct_not_above used bytes Hu ltac:(lia) 89 90), (pct_not_below used bytes Hu ltac:(lia) 21 20) by (done || lia).
Qed.
End SizingThresholds.

(** What is recommended for the memory, up to a point or two of rounding and the
    limits: doubling from 92 per cent of use, nothing from 21 to 89, halving (but
    not to less than 128 MiB) up to 18; whatever is suggested is a change in its
    direction that fits the setting. *)
Theorem sizing_recommended snap config (used := used_bytes (memory snap)) (mib := ram_mib config)
    (recs := List.filter ram_rec (recommend_sizing snap config)) :
  0 <= used < 2 ^ 64 -> 0 < mib < 2 ^ 32 ->
  (92 * (mib * 2 ^ 20) <= 100 * used -> exists why, recs = [ScaleUpRam mib (Z.min (2 * mib) (2 ^ 32 - 1)) why]) /\
  (21 * (mib * 2 ^ 20) <= 100 * used <= 89 * (mib * 2 ^ 20) -> recs = []) /\
  (100 * used <= 18 * (mib * 2 ^ 20) -> 128 < mib -> exists why, recs = [ScaleDownRam mib (Z.max (mib / 2) 128) why]) /\
  Forall (fun r => match r with
          | ScaleUpRam cur sug _ => cur = mib /\ (cur < sug \/ cur = 2 ^ 32 - 1) /\ sug < 2 ^ 32
          | ScaleDownRam cur sug _ => cur = mib /\ 128 <= sug < cur
          | _ => False
          end) recs.
Proof.
  intros Hu Hm. unfold recs. rewrite ram_recs. fold used mib. replace (mib * 2 ^ 20) with (mib * 1024 * 1024) by lia. split_and!.
  - intros [why ->]%grows; [|done..]. exists why. unfold saturating_mul. do 2 f_equal. lia.
  - by apply keeps.
  - intros H H128. by apply shrinks.
  - apply Forall_forall. intros r Hin. destruct r as [| |cur sug why|cur sug why];
      try (unfold size_ram in Hin; destruct (0 <? _); [destruct (fgt _ _); [|destruct (_ && _)]|]; set_solver).
    + apply scale_up in Hin as (-> & -> & _); [|done..]. unfold saturating_mul. lia.
    + apply scale_down in Hin as (-> & H128 & -> & _); [|done..].
      pose proof (Z.div_mod mib 2 ltac:(done)). pose proof (Z.mod_pos_bound mib 2 ltac:(done)). lia.
Qed.

(** ** Properties: rates *)

(** Zero, a positive number or positive infinity. *)
Definition nonneg (x : spec_float) : Prop :=
  match x with S754_zero false | S754_finite false _ _ | S754_infinity false => True | _ => False end.

Lemma round_aux_nonneg prec emax m e l : 0 <= m -> nonneg (binary_round_aux prec emax false m e l).
Proof.
  intros Hm. pose proof (round_aux_number prec emax false m e l Hm) as HN. unfold binary_round_aux in *.
  destruct (shr_fexp prec emax m e l) as [r1 e1]. cbv beta iota in *.
  destruct (shr_fexp prec emax _ e1 loc_Exact) as [r2 e2]. cbv beta iota in *.
  destruct (shr_m r2); [done|by destruct (_ <=? _)|done].
Qed.

Lemma fdiv_nonneg t x p e : nonneg x -> nonneg (fdiv t x (S754_finite false p e)).
Proof.
  intros Hx. unfold fdiv, SFdiv. destruct x as [[]|[]| |[] m f]; try done.
  destruct (SFdiv_core_binary _ _ _ _ _ _) as [[q e'] l] eqn:E. apply round_aux_nonneg.
  unfold SFdiv_core_binary in E. rewrite (surjective_pairing (Z.div_eucl _ _)) in E. injection E as <- _ _.
  apply (Z.div_pos _ (Zpos p)); [|done]. destruct (_ - _ - _); [done|by apply Z.shiftl_nonneg|done].
Qed.

Lemma f64_nonneg n : 0 <= n < 2 ^ 64 -> nonneg (f64 n).
Proof.
  intros Hn. destruct (decide (n = 0)) as [->|]; [done|]. unfold f64.
  by destruct (float_of_int_number F64 n ltac:(by right) ltac:(lia)) as (p & e & ->).
Qed.

(** The elapsed time is a positive number. *)
Lemma elapsed_positive ms : 0 < ms < 2 ^ 64 -> exists p e, fdiv F64 (f64 ms) (f64 1000) = S754_finite false p e.
Proof.
  intros Hms. destruct (f64_of_u64 ms Hms) as [C [L1 L2]]. destruct (f64_of_u64 1000 ltac:(done)) as [C' _].
  pose proof (f64_exact 1000 ltac:(done)) as E1000. set (y := float_of_int F64 1000) in *.
  apply (div_positive 53 1024 ltac:(done) (float_of_int F64 ms) y 64 (-10) C C' (f64_no_underflow ms 1000 Hms ltac:(done)));
    change (SpecFloat.emin 53 1024) with (-1074); [lia..| |]; rewrite E1000.
  - etrans; [exact L2|]. change (2 ^ 1138) with (2 ^ 64 * 2 ^ 1074). apply Z.mul_le_mono_nonneg_l; [done|]. lia.
  - transitivity (2 ^ 1074 * 2 ^ 10); [lia|]. apply Z.mul_le_mono_nonneg_r; [done|exact L1].
Qed.

Definition disk_ok (d : DiskMetrics) : Prop :=
  Forall (fun n => 0 <= n < 2 ^ 64) [reads_total d; writes_total d; read_bytes d; write_bytes d].
Definition net_ok (n : NetMetrics) : Prop :=
  Forall (fun n => 0 <= n < 2 ^ 64) [rx_bytes n; tx_bytes n; rx_packets n; tx_packets n].

Lemma per_sec_rate p e c q : 0 <= c < 2 ^ 64 -> 0 <= q ->
  nonneg (per_sec (S754_finite false p e) c q) /\ (c <= q -> per_sec (S754_finite false p e) c q = S754_zero false).
Proof.
  intros Hc Hq. unfold per_sec, saturating_sub. split; [apply fdiv_nonneg, f64_nonneg; lia|].
  intros Hle. rewrite Z.max_l by lia. done.
Qed.

(** What [omap] of a lookup by name keeps. *)
Lemma find_name {A} (name : A -> text) (x : A) l :
  is_Some (List.find (fun y => bool_decide (name y = name x)) l) <-> name x ∈ (name <$> l).
Proof.
  split.
  - intros [y Hy]. apply find_some in Hy as [Hin Hn]. apply bool_decide_eq_true in Hn. rewrite <- Hn.
    apply list_elem_of_fmap. exists y. split; [done|by apply list_elem_of_In].
  - intros (y & Hy & Hin)%list_elem_of_fmap. destruct (List.find _ l) as [z|] eqn:E; [done|].
    apply list_elem_of_In in Hin. pose proof (find_none _ _ E y Hin) as HN. simpl in HN. by rewrite bool_decide_true in HN.
Qed.

Lemma omap_names {A B} (name : A -> text) (name' : B -> text) (f : A -> option B) (known : list text) l :
  (forall x y, f x = Some y -> name' y = name x) -> (forall x, is_Some (f x) <-> name x ∈ known) ->
  name' <$> omap f l = name <$> List.filter (fun x => bool_decide (name x ∈ known)) l.
Proof.
  intros Hn Hs. induction l as [|x l IH]; [done|]. csimpl. destruct (f x) as [y|] eqn:E; case_bool_decide as HD.
  - csimpl. by rewrite IH, (Hn _ _ E).
  - destruct HD. apply Hs. by rewrite E.
  - apply Hs in HD as [y Hy]. by rewrite E in Hy.
  - done.
Qed.

(** Two snapshots give rates exactly when the second is later.  There is one for
    each disk and interface of the later that the earlier has by the same name, in
    the later's order; every rate is a number, not negative, and zero where the
    counter has not grown (or has gone back). *)
Theorem diff_rates curr prev :
  0 <= timestamp_ms prev -> timestamp_ms curr < 2 ^ 64 ->
  Forall disk_ok (disks curr) -> Forall disk_ok (disks prev) -> Forall net_ok (networks curr) -> Forall net_ok (networks prev) ->
  (diff curr prev = None <-> timestamp_ms curr <= timestamp_ms prev) /\
  forall d, diff curr prev = Some d ->
    dr_name <$> disk_rates d = disk_name <$> List.filter (fun c => bool_decide (disk_name c ∈ (disk_name <$> disks prev))) (disks curr) /\
    nr_interface <$> net_rates d = interface <$> List.filter (fun c => bool_decide (interface c ∈ (interface <$> networks prev))) (networks curr) /\
    Forall (fun r => nonneg (reads_per_sec r) /\ nonneg (writes_per_sec r) /\ nonneg (read_bytes_per_sec r) /\ nonneg (write_bytes_per_sec r)) (disk_rates d) /\
    Forall (fun r => nonneg (rx_bytes_per_sec r) /\ nonneg (tx_bytes_per_sec r) /\ nonneg (rx_packets_per_sec r) /\ nonneg (tx_packets_per_sec r)) (net_rates d) /\
    (forall c p, c ∈ disks curr -> List.find (fun q => bool_decide (disk_name q = disk_name c)) (disks prev) = Some p ->
       read_bytes c <= read_bytes p -> exists r, r ∈ disk_rates d /\ dr_name r = disk_name c /\ read_bytes_per_sec r = S754_zero false).
Proof.
  intros T1 T2 Dc Dp Nc Np. unfold diff. destruct (timestamp_ms curr <=? timestamp_ms prev) eqn:E.
  { apply Z.leb_le in E. split; [by split|done]. }
  apply Z.leb_gt in E. destruct (elapsed_positive (timestamp_ms curr - timestamp_ms prev) ltac:(lia)) as (p & e & ->).
  split; [split; [done|lia]|]. intros d [= <-]. cbn [disk_rates net_rates elapsed_secs].
  rewrite Forall_forall in Dc, Dp. rewrite Forall_forall in Nc, Np. split_and!.
  - apply omap_names.
    + intros x y H. unfold disk_rate in H. destruct (List.find _ _); [by injection H as <-|done].
    + intros x. rewrite <- find_name. unfold disk_rate. destruct (List.find _ _); simpl; by split; intros [].
  - apply omap_names.
    + intros x y H. unfold net_rate in H. destruct (List.find _ _); [by injection H as <-|done].
    + intros x. rewrite <- find_name. unfold net_rate. destruct (List.find _ _); simpl; by split; intros [].
  - apply Forall_forall. intros r (c & Hc & Hr)%list_elem_of_omap. unfold disk_rate in Hr.
    destruct (List.find _ _) as [q|] eqn:EF; [|done]. injection Hr as <-. apply find_some in EF as [Hq%list_elem_of_In _].
    specialize (Dc _ Hc). specialize (Dp _ Hq). unfold disk_ok in *. rewrite !Forall_cons in Dc, Dp. cbn. split_and!; apply per_sec_rate; tauto || lia.
  - apply Forall_forall. intros r (c & Hc & Hr)%list_elem_of_omap. unfold net_rate in Hr.
    destruct (List.find _ _) as [q|] eqn:EF; [|done]. injection Hr as <-. apply find_some in EF as [Hq%list_elem_of_In _].
    specialize (Nc _ Hc). specialize (Np _ Hq). unfold net_ok in *. rewrite !Forall_cons in Nc, Np. cbn. split_and!; apply per_sec_rate; tauto || lia.
  - intros c q Hc Hf Hle. pose proof (find_some _ _ Hf) as [Hq%list_elem_of_In _].
    assert (disk_rate (S754_finite false p e) (disks prev) c = Some (default (Build_DiskRate (disk_name c) S754_nan S754_nan S754_nan S754_nan)
      (disk_rate (S754_finite false p e) (disks prev) c))) as Hr by (unfold disk_rate; by rewrite Hf).
    eexists. split; [apply list_elem_of_omap; by exists c|]. unfold disk_rate. rewrite Hf. cbn. split; [done|].
    specialize (Dc _ Hc). specialize (Dp _ Hq). unfold disk_ok in *. rewrite !Forall_cons in Dc, Dp. apply per_sec_rate; lia.
Qed.

(** ** Properties: health *)

(** The status goes with the reasons given. *)
Definition critical_reason (t : text) : bool := starts_with (str "Critical") t.

Definition explained (n : nat) (h : SystemHealth) : Prop :=
  (length (reasons h) <= n)%nat /\
  health h = (if existsb critical_reason (reasons h) then Critical else if bool_decide (reasons h = []) then Healthy else Warning).

Lemma raise_explained n h s why : explained n h -> (s = Critical /\ critical_reason why = true \/ s = Warning /\ critical_reason why = false) ->
  explained (S n) (raise h s why).
Proof.
  intros [Hn Hs] Hw. split; [cbn; rewrite length_app; simpl; lia|]. cbn [raise health reasons]. rewrite existsb_app, Hs. simpl.
  destruct Hw as [[-> ->]|[-> ->]]; destruct (existsb critical_reason (reasons h)); simpl; try done;
    rewrite ?(bool_decide_false (reasons h ++ [why] = [])) by (intros H; by destruct (reasons h)); by destruct (bool_decide _).
Qed.

Lemma evaluate_explained n above c w cr wr h : critical_reason cr = true -> critical_reason wr = false -> explained n h ->
  explained (S n) (evaluate above c w cr wr h).
Proof.
  intros Hc Hw Hh. unfold evaluate. destruct (above c); [apply raise_explained; [done|by left]|].
  destruct (above w); [apply raise_explained; [done|by right]|]. destruct Hh. split; [lia|done].
Qed.

Lemma explained_weaken n h : explained n h -> explained (S n) h.
Proof. intros []. split; [lia|done]. Qed.

(** An additive overflow of the error counters. *)
Lemma sum_u64_exact oc l : Forall (fun n => 0 <= n) l -> forall acc, 0 <= acc -> acc + foldr Z.add 0 l < 2 ^ 64 ->
  foldl (fun a x => a ← a; b ← x; add_u64 oc a b) (Ok acc) (Ok <$> l) = Ok (acc + foldr Z.add 0 l).
Proof.
  intros Hl. induction Hl as [|n l Hn Hl IH]; intros acc Ha Hlt; [simpl; by rewrite Z.add_0_r|].
  assert (0 <= foldr Z.add 0 l) by (clear -Hl; induction Hl; simpl; lia). csimpl in Hlt. csimpl. unfold add_u64 at 2. simpl.
  rewrite op_add_fits by lia. simpl. rewrite IH by lia. f_equal. lia.
Qed.

Definition error_counts (snap : MetricsSnapshot) : list Z := (fun n => rx_errors n + tx_errors n) <$> networks snap.

Lemma net_errors_total oc snap : Forall (fun n => 0 <= rx_errors n /\ 0 <= tx_errors n) (networks snap) ->
  foldr Z.add 0 (error_counts snap) < 2 ^ 64 -> net_errors oc snap = Ok (foldr Z.add 0 (error_counts snap)).
Proof.
  intros Hn Hlt. unfold net_errors, sum_u64, error_counts in *.
  assert (Forall (fun n => 0 <= n) ((fun n => rx_errors n + tx_errors n) <$> networks snap)) as Hp.
  { clear Hlt. induction Hn as [|? ? []]; csimpl; constructor; [lia|done]. }
  rewrite <- (Z.add_0_l (foldr _ _ _)), <- (sum_u64_exact oc _ Hp 0) by (done || lia). f_equal. clear Hp.
  induction Hn as [|n l [H1 H2] Hl IH]; [done|]. csimpl in Hlt. csimpl.
  assert (0 <= foldr Z.add 0 ((fun n => rx_errors n + tx_errors n) <$> l)) by (clear -Hl; induction Hl as [|? ? [] ? ?]; csimpl; lia).
  f_equal; [unfold add_u64; by rewrite op_add_fits by lia|apply IH; lia].
Qed.

(** The first three evaluations, and reasons stay. *)
Definition assessed (snap : MetricsSnapshot) : SystemHealth :=
  assess_swap snap (assess_memory snap (assess_cpu snap {| health := Healthy; reasons := [] |})).

Lemma assessed_explained snap total : explained 4 (assess_network total (assessed snap)).
Proof.
  assert (explained 3 (assessed snap)) as X.
  { unfold assessed, assess_swap, assess_memory, assess_cpu.
    destruct (0 <? swap_total _), (0 <? total_bytes _); repeat first [apply evaluate_explained; [done..|]|apply explained_weaken]; done. }
  unfold assess_network. destruct (100 <? total); [apply raise_explained; [done|by left]|].
  destruct (10 <? total); [apply raise_explained; [done|by right]|by apply explained_weaken].
Qed.

Lemma evaluate_reasons a b c d e k : reasons k `prefix_of` reasons (evaluate a b c d e k).
Proof. unfold evaluate. destruct (a b); [by eexists|]. by destruct (a c); [eexists|]. Qed.

Lemma assessed_reasons snap total : reasons (assess_cpu snap {| health := Healthy; reasons := [] |}) `prefix_of`
  reasons (assess_network total (assessed snap)).
Proof.
  transitivity (reasons (assessed snap)).
  - unfold assessed. generalize (assess_cpu snap {| health := Healthy; reasons := [] |}). intros h1. unfold assess_swap, assess_memory.
    destruct (0 <? swap_total _), (0 <? total_bytes _); repeat (etrans; [|apply evaluate_reasons]); done.
  - unfold assess_network. destruct (100 <? total); [by eexists|]. by destruct (10 <? total); [eexists|].
Qed.

(** The status is the worst of the evaluations: critical when a reason says so,
    healthy when there is none, and a warning otherwise; there are at most four
    reasons; a CPU above 90 per cent is critical, and so are more than 100 network
    errors, by their total over all interfaces as long as that fits. *)
Theorem health_explained oc snap :
  Forall (fun n => 0 <= rx_errors n /\ 0 <= tx_errors n) (networks snap) -> foldr Z.add 0 (error_counts snap) < 2 ^ 64 ->
  exists h, assess_health oc snap = Ok h /\ (length (reasons h) <= 4)%nat /\
    (health h = Critical <-> exists why, why ∈ reasons h /\ critical_reason why = true) /\
    (health h = Healthy <-> reasons h = []) /\
    (100 < foldr Z.add 0 (error_counts snap) -> health h = Critical) /\
    (fgt (total_pct (cpu snap)) (f32 90) = true -> health h = Critical).
Proof.
  intros Hn Hlt. set (total := foldr Z.add 0 (error_counts snap)) in *.
  exists (assess_network total (assessed snap)). unfold assess_health. rewrite (net_errors_total oc snap Hn Hlt).
  destruct (assessed_explained snap total) as [L4 X4]. pose proof (assessed_reasons snap total) as HR.
  set (h := assess_network total (assessed snap)) in *.
  assert (forall why, why ∈ reasons h -> critical_reason why = true -> health h = Critical) as HC.
  { intros why Hin Hw. rewrite X4, (proj2 (existsb_exists critical_reason (reasons h))); [done|]. exists why. split; [by apply list_elem_of_In|done]. }
  split; [done|]. split; [done|]. split_and!.
  - split; [|intros (why & H1 & H2); by eapply HC]. intros Hh. rewrite X4 in Hh. destruct (existsb _ _) eqn:E; [|by destruct (bool_decide _)].
    apply existsb_exists in E as (why & Hin & Hw). exists why. by rewrite list_elem_of_In.
  - rewrite X4. split; [|intros Hr; by rewrite Hr]. destruct (existsb _ _); [done|]. case_bool_decide as Hr; [by intros _|done].
  - intros Hgt. unfold h, assess_network. rewrite (proj2 (Z.ltb_lt _ _)) by done. cbn. by destruct (health (assessed snap)).
  - intros Hp. apply (HC (pct_reason "Critical CPU usage: " (total_pct (cpu snap)))); [|done].
    destruct HR as [l ->]. unfold assess_cpu, evaluate. rewrite Hp. cbn. set_solver.
Qed.

(** ** Properties: rules and classes *)

(** A rule above and a rule below the same limit never fire together, and none
    fires on a value or a limit that is not a number. *)
Theorem rules_consistent name t limit snap :
  let rule op := {| rule_name := name; condition := {| target := t; operator := op; threshold := limit |} |} in
  (evaluate_rule (rule GreaterThan) snap = true -> evaluate_rule (rule LessThan) snap = false) /\
  (is_nan limit || is_nan (target_value t snap) = true -> forall op, evaluate_rule (rule op) snap = false).
Proof.
  cbv zeta. unfold evaluate_rule. cbn [condition target operator threshold]. split; [by apply ltb_asym|].
  intros H. set (v := target_value t snap) in *. clearbody v. assert (SFcompare v limit = None /\ SFcompare limit v = None) as [E1 E2].
  { destruct limit as [| | |], v as [| | |]; done. }
  intros []; unfold fgt, SFltb; [by rewrite E2|by rewrite E1|].
  assert (fsub F32 v limit = S754_nan) as -> by (destruct limit as [| | |], v as [| | |]; done). done.
Qed.

Lemma foldl_exists {A} (f : A -> bool) l b : foldl (fun heavy r => if f r then true else heavy) b l = b || existsb f l.
Proof. revert b. induction l as [|x l IH]; intros b; simpl; [by rewrite orb_false_r|]. rewrite IH. by destruct (f x), b. Qed.

(** The classes in their order: CPU before memory before traffic, where one busy
    disk or interface is enough; idle is what is left. *)
Theorem classes_ordered snap d :
  let hot := fgt (total_pct (cpu snap)) (f32 80) in
  let full := memory_bound (memory snap) in
  let traffic := existsb busy_disk (disk_rates d) || existsb busy_net (net_rates d) in
  (classify_workload snap d = ComputeBound <-> hot = true) /\
  (classify_workload snap d = MemoryBound <-> hot = false /\ full = true) /\
  (classify_workload snap d = IoHeavy <-> hot = false /\ full = false /\ traffic = true) /\
  (classify_workload snap d = Idle <-> hot = false /\ full = false /\ traffic = false).
Proof.
  cbv zeta. unfold classify_workload. rewrite !foldl_exists, !orb_false_l.
  destruct (fgt _ _), (memory_bound _), (existsb busy_disk _ || existsb busy_net _); repeat split; try done; by intros (? & ? & ?) || by intros (? & ?).
Qed.

(** ** Properties: the simulator *)

(** A simulated snapshot adds up, and comes a second after the one before. *)
Definition adds_up (snap : MetricsSnapshot) : Prop :=
  used_bytes (memory snap) + free_bytes (memory snap) = total_bytes (memory snap) /\ 0 <= free_bytes (memory snap).

(** The leak outgrows the guest's memory: nineteen snapshots add up; for the
    twentieth a build with overflow checks panics and the other reports more memory
    used than there is, and free memory next to 2 ^ 64.  The other profiles never
    run out. *)
Theorem simulator_leak :
  (exists l s, simulate true 19 (simulator_new MemoryLeak) = (l, Ok s) /\ Forall adds_up l /\
     simulate true 20 (simulator_new MemoryLeak) = (l, Err Panic)) /\
  (exists l snap s, simulate false 20 (simulator_new MemoryLeak) = (l ++ [snap], Ok s) /\
     total_bytes (memory snap) < used_bytes (memory snap) /\ free_bytes (memory snap) = 2 ^ 64 - 26 * 2 ^ 20) /\
  (forall oc p i, p <> MemoryLeak -> 0 <= i < 2 ^ 54 -> exists snap,
     simulator_next oc {| profile := p; iteration := i |} = Ok (snap, {| profile := p; iteration := i + 1 |}) /\
     adds_up snap /\ timestamp_ms snap = (i + 1) * 1000).
Proof.
  split; [|split].
  - exists (fst (simulate true 19 (simulator_new MemoryLeak))). eexists. split; [vm_compute; reflexivity|]. split; [|vm_compute; reflexivity].
    apply Forall_forall. intros x Hx. apply list_elem_of_In in Hx. revert x Hx. apply List.Forall_forall. vm_compute. repeat constructor; discriminate.
  - set (r := simulate false 20 (simulator_new MemoryLeak)).
    exists (take 19 r.1), (default (Build_MetricsSnapshot 0 (Build_CpuMetrics S754_nan [] []) no_memory [] [] []) (r.1 !! 19%nat)). eexists.
    vm_compute. done.
  - intros oc p i Hp Hi. unfold simulator_next, add_u64, mul_u64, sub_u64. cbn [iteration profile].
    assert (op_sub oc 64 GUEST_MEMORY BASE_MEMORY = Some (GUEST_MEMORY - BASE_MEMORY)) as Es by by destruct oc.
    pose proof (op_add_fits oc i 1 ltac:(lia)) as Ea. pose proof (op_mul_fits oc (i + 1) 1000 ltac:(lia)) as Em.
    destruct p; [|done|]; cbn -[f32 fmul fmin op_add op_mul op_sub]; rewrite Ea; cbn -[f32 fmul fmin op_mul op_sub];
      rewrite Em; cbn -[f32 fmul fmin op_sub]; rewrite Es; cbn -[f32 fmul fmin]; eexists; by split.
Qed.

(** ** Properties: imbalance *)

(** The limit the score is measured against is documented as the greatest
    deviation possible, that of one core at work and the others idle.  Of four
    cores two at work deviate more: their score is cut to one. *)
Theorem imbalance_beyond_limit :
  let cores n := replicate n (f32 100) ++ replicate (4 - n) (f32 0) in
  let result n := analyze_imbalance {| timestamp_ms := 0; cpu := {| total_pct := f32 50; per_core := cores n; load_avg := [] |};
                                       memory := no_memory; disks := []; networks := []; processes := [] |} in
  imbalance_score (result 1%nat) = f64 1 /\ imbalance_score (result 2%nat) = f64 1 /\
  SFltb (std_dev (result 1%nat)) (std_dev (result 2%nat)) = true /\ std_dev (result 2%nat) = f64 50 /\
  SFltb (max_std_dev (f64 4)) (f64 50) = true.
Proof. vm_compute. done. Qed.

(** ** Witnesses *)

Definition demo_load (pct used : Z) : MetricsSnapshot :=
  {| timestamp_ms := 5000; cpu := {| total_pct := f32 pct; per_core := []; load_avg := [] |};
     memory := {| total_bytes := 2 ^ 30; used_bytes := used; free_bytes := 0; buffers_bytes := 0; cached_bytes := 0; swap_total := 0; swap_used := 0 |};
     disks := [{| disk_name := str "vda"; read_bytes := 4096; write_bytes := 0; reads_total := 1; writes_total := 0 |}];
     networks := [{| interface := str "eth0"; rx_bytes := 1; tx_bytes := 1; rx_packets := 1; tx_packets := 1; rx_errors := 60; tx_errors := 50 |}];
     processes := [] |}.

Definition demo_config (mib : Z) : VmConfig :=
  {| kernel_path := "k"; initramfs_path := None; disk_path := None; ram_mib := mib; cpus := 2; cmdline := None; net := None;
     ports := []; guest_cid := 3; guest_agent := AgentAuto |}.

Lemma sizing_stable_witness :
  exists why, ScaleUpRam 256 512 why ∈ recommend_sizing (demo_load 50 (250 * 2 ^ 20)) (demo_config 256) /\
    forall cur sug why', ScaleDownRam cur sug why' ∉ recommend_sizing (demo_load 50 (250 * 2 ^ 20)) (demo_config 512).
Proof.
  exists (str "Memory utilization is critically high at 97.7%").
  assert (ScaleUpRam 256 512 (str "Memory utilization is critically high at 97.7%") ∈
          recommend_sizing (demo_load 50 (250 * 2 ^ 20)) (demo_config 256)) as H.
  { apply list_elem_of_In. vm_compute. by left. }
  split; [exact H|].
  exact (proj1 (sizing_stable (demo_load 50 (250 * 2 ^ 20)) (demo_config 256) 256 512 _ ltac:(by split) ltac:(by split)) H).
Defined.

Lemma sizing_recommended_witness :
  exists why, List.filter ram_rec (recommend_sizing (demo_load 50 (10 * 2 ^ 20)) (demo_config 200)) = [ScaleDownRam 200 128 why].
Proof.
  destruct (sizing_recommended (demo_load 50 (10 * 2 ^ 20)) (demo_config 200) ltac:(by split) ltac:(by split)) as (_ & _ & H & _).
  exact (H ltac:(vm_compute; discriminate) ltac:(done)).
Defined.

Definition earlier_load : MetricsSnapshot :=
  {| timestamp_ms := 1000; cpu := cpu (demo_load 10 0); memory := memory (demo_load 10 0);
     disks := disks (demo_load 10 0); networks := networks (demo_load 10 0); processes := [] |}.

Lemma diff_rates_witness :
  exists d, diff (demo_load 50 0) earlier_load = Some d /\ (dr_name <$> disk_rates d) = [str "vda"].
Proof.
  destruct (diff_rates (demo_load 50 0) earlier_load ltac:(done) ltac:(done) ltac:(by repeat constructor) ltac:(by repeat constructor)
    ltac:(by repeat constructor) ltac:(by repeat constructor)) as [_ H].
  eexists. split; [vm_compute; reflexivity|]. refine (eq_trans (proj1 (H _ _)) _); [vm_compute; reflexivity|vm_compute; reflexivity].
Defined.

Lemma health_explained_witness :
  exists h, assess_health true (demo_load 10 0) = Ok h /\ health h = Critical.
Proof.
  destruct (health_explained true (demo_load 10 0) ltac:(by repeat constructor) ltac:(done)) as (h & E & _ & _ & _ & H & _).
  exists h. split; [exact E|]. apply H. vm_compute. done.
Defined.
