(* ===== verification/Exposition.v ===== *)
(** * Text forms of measurements and configurations

    [hitz-api/src/prometheus.rs], the Prometheus exposition of a snapshot, and
    [terraform.rs], the Terraform resource of a configuration.  The specification
    of the first is a reader of the exposition format. *)

From Stdlib Require Import String Ascii Floats.SpecFloat.
From stdpp Require Import list.
From S2P Require Import Prelude Hal Memory PageTables Cpio Ethernet Config.
From S2P Require Import Float Text FloatOrder Format GuestProc.

(** ** The exposition *)

Definition QUOTE : Z := 34.
Definition BACKSLASH : Z := 92.
Definition COMMA : Z := 44.

(** One use of the [metric!] macro. *)
Record Metric := { x_name : string; x_type : string; x_help : string; x_labels : list (string * text); x_value : text }.

Definition label_text (l : string * text) : text := str l.1 ++ str "=" ++ [QUOTE] ++ l.2 ++ [QUOTE].

Fixpoint labels_text (l : list (string * text)) : text :=
  match l with [] => [] | [x] => label_text x | x :: l' => label_text x ++ COMMA :: labels_text l' end.

Definition help_line (m : Metric) : text := str "# HELP " ++ str (x_name m) ++ str " " ++ str (x_help m).
Definition type_line (m : Metric) : text := str "# TYPE " ++ str (x_name m) ++ str " " ++ str (x_type m).
Definition sample_line (vm_id : text) (ts : Z) (m : Metric) : text :=
  str (x_name m) ++ str "{" ++ labels_text (("vm_id"%string, vm_id) :: x_labels m) ++ str "} " ++ x_value m ++ str " " ++ digits ts.

Definition metric_lines (vm_id : text) (ts : Z) (m : Metric) : list text := [help_line m; type_line m; sample_line vm_id ts m].

Definition gauge32 (name help : string) (labels : list (string * text)) (v : spec_float) : Metric :=
  {| x_name := name; x_type := "gauge"; x_help := help; x_labels := labels; x_value := display_float F32 v |}.
Definition gauge (name help : string) (labels : list (string * text)) (v : Z) : Metric :=
  {| x_name := name; x_type := "gauge"; x_help := help; x_labels := labels; x_value := digits v |}.
Definition counter (name help : string) (labels : list (string * text)) (v : Z) : Metric :=
  {| x_name := name; x_type := "counter"; x_help := help; x_labels := labels; x_value := digits v |}.

Definition cpu_metrics (c : CpuMetrics) : list Metric :=
  gauge32 "hitz_cpu_total_pct" "Overall CPU utilisation percentage" [] (total_pct c) ::
  imap (fun i pct => gauge32 "hitz_cpu_core_pct" "Per-core CPU utilisation percentage" [("core"%string, digits (Z.of_nat i))] pct) (per_core c) ++
  [gauge32 "hitz_cpu_load_avg" "System load average over 1 minute" [("window"%string, str "1m")] (default (S754_zero false) (load_avg c !! 0%nat));
   gauge32 "hitz_cpu_load_avg" "System load average over 5 minutes" [("window"%string, str "5m")] (default (S754_zero false) (load_avg c !! 1%nat));
   gauge32 "hitz_cpu_load_avg" "System load average over 15 minutes" [("window"%string, str "15m")] (default (S754_zero false) (load_avg c !! 2%nat))].

Definition memory_metrics (m : MemoryMetrics) : list Metric :=
  [gauge "hitz_memory_total_bytes" "Total physical memory in bytes" [] (total_bytes m);
   gauge "hitz_memory_used_bytes" "Memory in use in bytes" [] (used_bytes m);
   gauge "hitz_memory_free_bytes" "Free memory in bytes" [] (free_bytes m);
   gauge "hitz_memory_buffers_bytes" "Memory used for buffers in bytes" [] (buffers_bytes m);
   gauge "hitz_memory_cached_bytes" "Memory used for page cache in bytes" [] (cached_bytes m);
   gauge "hitz_memory_swap_total_bytes" "Total swap space in bytes" [] (swap_total m);
   gauge "hitz_memory_swap_used_bytes" "Swap space in use in bytes" [] (swap_used m)].

Definition disk_metrics (d : DiskMetrics) : list Metric :=
  let device := [("device"%string, disk_name d)] in
  [counter "hitz_disk_reads_total" "Total completed read operations" device (reads_total d);
   counter "hitz_disk_writes_total" "Total completed write operations" device (writes_total d);
   counter "hitz_disk_read_bytes_total" "Total bytes read" device (read_bytes d);
   counter "hitz_disk_write_bytes_total" "Total bytes written" device (write_bytes d)].

Definition net_metrics (n : NetMetrics) : list Metric :=
  let iface := [("interface"%string, interface n)] in
  [counter "hitz_net_rx_bytes_total" "Total bytes received" iface (rx_bytes n);
   counter "hitz_net_tx_bytes_total" "Total bytes transmitted" iface (tx_bytes n);
   counter "hitz_net_rx_packets_total" "Total packets received" iface (rx_packets n);
   counter "hitz_net_tx_packets_total" "Total packets transmitted" iface (tx_packets n);
   counter "hitz_net_rx_errors_total" "Total receive errors" iface (rx_errors n);
   counter "hitz_net_tx_errors_total" "Total transmit errors" iface (tx_errors n)].

Definition process_metrics (p : ProcMetrics) : list Metric :=
  let labels := [("pid"%string, digits (pid p)); ("name"%string, proc_name p)] in
  [gauge32 "hitz_process_cpu_pct" "CPU utilisation percentage for process" labels (proc_cpu_pct p);
   gauge "hitz_process_rss_bytes" "Resident set size in bytes for process" labels (rss_bytes p)].

Definition snapshot_metrics (snap : MetricsSnapshot) : list Metric :=
  cpu_metrics (cpu snap) ++ memory_metrics (memory snap) ++ concat (disk_metrics <$> disks snap) ++
  concat (net_metrics <$> networks snap) ++ concat (process_metrics <$> processes snap).

Definition to_prometheus (vm_id : text) (snap : MetricsSnapshot) : text :=
  unlines (concat (metric_lines vm_id (timestamp_ms snap) <$> snapshot_metrics snap)).

(** ** Terraform *)

(** [  key = value]. *)
Definition attribute (key : string) (value : text) : text := str "  " ++ str key ++ str " = " ++ value.
Definition quoted (s : string) : text := [QUOTE] ++ str s ++ [QUOTE].

Definition to_terraform (c : VmConfig) (resource_name : string) : text :=
  let opt key v := match v with Some s => [attribute key (quoted s)] | None => [] end in
  unlines ([str "resource " ++ quoted "hitz_vm" ++ str " " ++ quoted resource_name ++ str " {";
            attribute "kernel_path" (quoted (kernel_path c))] ++
           opt "initramfs_path"%string (initramfs_path c) ++ opt "disk_path"%string (disk_path c) ++
           [attribute "ram_mib" (digits (ram_mib c)); attribute "cpus" (digits (cpus c))] ++
           opt "cmdline"%string (cmdline c) ++
           [attribute "guest_cid" (digits (guest_cid c)); str "}"]).

(** ** Specification: a reader of the exposition format *)

(** A label's value up to its closing quote, with the escapes of the format. *)
Fixpoint read_value (s : text) : option (text * text) :=
  match s with
  | [] => None
  | c :: s' =>
      if c =? QUOTE then Some ([], s')
      else if c =? BACKSLASH then
        match s' with
        | d :: s'' => '(v, rest) ← read_value s'';
                      Some ((if d =? 110 then NL else d) :: v, rest)
        | [] => None
        end
      else '(v, rest) ← read_value s'; Some (c :: v, rest)
  end.

Fixpoint read_labels (fuel : nat) (s : text) : option (list (text * text) * text) :=
  match fuel with
  | O => None
  | S f =>
      '(key, s) ← split_once 61 s;
      match s with
      | 34 :: s =>
          '(v, s) ← read_value s;
          match s with
          | 44 :: s => '(ls, rest) ← read_labels f s; Some ((key, v) :: ls, rest)
          | 125 :: s => Some ([(key, v)], s)
          | _ => None
          end
      | _ => None
      end
  end.

Record Sample := { s_name : text; s_labels : list (text * text); s_value : text; s_timestamp : Z }.

Definition read_sample (line : text) : option Sample :=
  '(name, s) ← split_once 123 line;
  '(labels, s) ← read_labels (length s) s;
  match words s with
  | [v; t] => ts ← parse_uint 64 t; Some {| s_name := name; s_labels := labels; s_value := v; s_timestamp := ts |}
  | _ => None
  end.

(** All samples; comments and empty lines are skipped. *)
Definition read_exposition (s : text) : option (list Sample) :=
  mapM read_sample (List.filter (fun l => negb (starts_with (str "#") l) && nonempty l) (lines s)).

(** ** Lemmas *)

(** A label value that needs no escaping. *)
Definition clean (v : text) : Prop := Forall (fun c => c <> QUOTE /\ c <> BACKSLASH /\ c <> NL) v.

Lemma read_value_clean v rest : clean v -> read_value (v ++ QUOTE :: rest) = Some (v, rest).
Proof.
  induction 1 as [|c v (H1 & H2 & _) Hv IH]; [done|]. simpl.
  by rewrite (proj2 (Z.eqb_neq c QUOTE)), (proj2 (Z.eqb_neq c BACKSLASH)), IH by done.
Qed.

(** A label's name: no equals sign. *)
Definition key_ok (k : string) : Prop := Forall (fun c => c <> 61) (str k).

Lemma split_once_free c a b : Forall (fun d => d <> c) a -> split_once c (a ++ c :: b) = Some (a, b).
Proof. intros H. apply split_once_app. intros Hc. by eapply Forall_forall in H. Qed.

Definition label_ok (l : string * text) : Prop := key_ok l.1 /\ clean l.2.

Lemma read_labels_text l rest : l <> [] -> Forall label_ok l -> forall fuel, (length l <= fuel)%nat ->
  read_labels fuel (labels_text l ++ str "}" ++ rest) = Some ((fun x => (str x.1, x.2)) <$> l, rest).
Proof.
  induction l as [|[k v] l IH]; [done|]. intros _ [[Hk Hv] Hl]%Forall_cons fuel Hf. destruct fuel as [|f]; [simpl in Hf; lia|].
  assert (labels_text ((k, v) :: l) ++ str "}" ++ rest = str k ++ 61 :: QUOTE :: v ++ QUOTE ::
    match l with [] => 125 :: rest | _ => COMMA :: labels_text l ++ str "}" ++ rest end) as ->.
  { change (str "}") with [125]. destruct l; cbn [labels_text]; unfold label_text; change (str "=") with [61]; cbn [fst snd];
      rewrite <- !(assoc_L (++)); cbn [app]; by rewrite <- ?(assoc_L (++)). }
  cbn [read_labels]. rewrite split_once_free by done. cbn [mbind option_bind]. rewrite read_value_clean by done. cbn [mbind option_bind].
  destruct l as [|x l]; [done|]. rewrite IH by (done || simpl in *; lia). done.
Qed.

(** *** Numbers are words *)

Lemma digits_no_ws n : 0 <= n -> no_ws (digits n).
Proof. intros Hn. by apply digits_word. Qed.

Lemma shortest_from_nonneg k t x num den p n : 0 <= num -> 0 < den -> 0 <= (shortest_from k t x num den p n).1.
Proof.
  intros Hn Hd. revert n. induction k as [|k IH]; intros n; [by apply Z.div_pos|]. cbn [shortest_from].
  destruct (candidate t x num den (p - n)) as [d|] eqn:E; [|apply IH]. cbn. unfold candidate in E.
  set (num' := num * _) in E. set (den' := den * _) in E.
  assert (0 <= num' / den') as H.
  { apply Z.div_pos; [apply Z.mul_nonneg_nonneg; [done|apply Z.pow_nonneg; lia]|apply Z.mul_pos_pos; [done|apply Z.pow_pos_nonneg; lia]]. }
  destruct (bool_decide _ && _); [by injection E as <-|]. destruct (bool_decide _); [injection E as <-; lia|done].
Qed.

Lemma render_word d e10 : 0 <= d -> word_ok (render d e10).
Proof.
  intros Hd. pose proof (digits_word d Hd) as [Hn Hw]. unfold render. assert (forall k, no_ws (replicate k 48)) as Hz.
  { intros k. apply Forall_replicate. done. }
  destruct (0 <=? e10); [split|].
  - by destruct (digits d).
  - apply Forall_app_2; [done|apply Hz].
  - destruct (_ <? _)%nat eqn:E.
    + apply Nat.ltb_lt in E. split; [|by repeat apply Forall_app_2; [apply Forall_take|repeat constructor|apply Forall_drop]].
      destruct (take _ (digits d)) as [|c l] eqn:ET; [done|done].
    + split; [done|]. repeat apply Forall_app_2; [by repeat constructor|apply Hz|done].
Qed.

Lemma sign_word s w : word_ok w -> word_ok (sign_text s ++ w).
Proof. intros [Hn Hw]. destruct s; [|done]. split; [done|]. apply Forall_app_2; [by repeat constructor|done]. Qed.

Lemma display_word t x : word_ok (display_float t x).
Proof.
  destruct x as [s|s| |s m e]; cbn [display_float]; [..|unfold shortest].
  1, 2: apply sign_word; split; [done|by repeat constructor].
  - split; [done|by repeat constructor].
  - assert (0 < value_den e) as Hd by (apply Z.pow_pos_nonneg; lia).
    assert (0 <= value_num (Zpos m) e) as Hn by (apply Z.mul_nonneg_nonneg; [done|apply Z.pow_nonneg; lia]).
    pose proof (shortest_from_nonneg 17 t (S754_finite false (Z.to_pos (Zpos m)) e) _ _ (decimal_exponent (value_num (Zpos m) e) (value_den e)) 1 Hn Hd) as H.
    destruct (shortest_from _ _ _ _ _ _ _) as [d e10]. by apply sign_word, render_word.
Qed.

(** *** Lines *)

(** The fixed texts of a metric: a name that is no comment and has no brace, and
    single lines. *)
Definition plain_char (c : Z) : bool := negb (c =? NL) && negb (c =? CR).
Definition fixed_ok (m : Metric) : bool :=
  forallb (fun c => negb (c =? 123) && negb (c =? NL)) (str (x_name m)) &&
  match str (x_name m) with c :: _ => negb (c =? 35) | [] => false end &&
  forallb plain_char (str (x_help m)) && forallb plain_char (str (x_type m)).

Definition metric_ok (m : Metric) : Prop :=
  fixed_ok m = true /\ Forall (fun l => label_ok l /\ no_nl (str l.1)) (x_labels m) /\ word_ok (x_value m).

Lemma fixed_name m : fixed_ok m = true -> Forall (fun c => c <> 123 /\ c <> NL) (str (x_name m)) /\
  exists c l, str (x_name m) = c :: l /\ c <> 35.
Proof.
  unfold fixed_ok. rewrite !andb_true_iff, forallb_forall. intros [[[H1 H2] _] _]. split.
  - apply Forall_forall. intros c Hc%list_elem_of_In. apply H1 in Hc. rewrite andb_true_iff, !negb_true_iff, !Z.eqb_neq in Hc. done.
  - destruct (str (x_name m)) as [|c l]; [done|]. exists c, l. split; [done|]. by apply negb_true_iff, Z.eqb_neq in H2.
Qed.

Lemma plain_line l : forallb plain_char l = true -> plain l.
Proof.
  rewrite forallb_forall. intros H. apply Forall_forall. intros c Hc%list_elem_of_In. apply H in Hc. unfold plain_char in Hc.
  by rewrite andb_true_iff, !negb_true_iff, !Z.eqb_neq in Hc.
Qed.

Definition sample_of (vm_id : text) (ts : Z) (m : Metric) : Sample :=
  {| s_name := str (x_name m); s_labels := (str "vm_id", vm_id) :: ((fun x => (str x.1, x.2)) <$> x_labels m);
     s_value := x_value m; s_timestamp := ts |}.

Lemma labels_text_length l : (length l <= length (labels_text l))%nat.
Proof.
  induction l as [|x l IH]; [done|]. destruct l as [|y l].
  - simpl. unfold label_text. rewrite !length_app. simpl. lia.
  - change (labels_text (x :: y :: l)) with (label_text x ++ COMMA :: labels_text (y :: l)). rewrite length_app. simpl in *. lia.
Qed.

Lemma sample_read vm_id ts m : clean vm_id -> 0 <= ts < 2 ^ 64 -> metric_ok m ->
  read_sample (sample_line vm_id ts m) = Some (sample_of vm_id ts m).
Proof.
  intros Hv Ht (Hf & Hl & Hw). pose proof (fixed_name m Hf) as [Hn _]. unfold read_sample, sample_line.
  change (str "{") with [123]. cbn [app]. rewrite split_once_free by (eapply Forall_impl; [exact Hn|]; by intros c []).
  cbn [mbind option_bind]. set (ls := ("vm_id"%string, vm_id) :: x_labels m).
  change (str "} ") with (str "}" ++ [SP]). rewrite <- (assoc_L (++)). rewrite read_labels_text; [|done| |].
  - cbn [mbind option_bind]. change (str " ") with [SP]. cbn [app].
    rewrite words_ws, words_word, words_last by (done || apply digits_word; lia). by rewrite parse_uint_digits.
  - constructor; [split; [by repeat constructor|done]|]. eapply Forall_impl; [exact Hl|]. by intros x [].
  - rewrite length_app. pose proof (labels_text_length ls). lia.
Qed.

Lemma word_no_nl w : no_ws w -> no_nl w.
Proof. intros H. eapply Forall_impl; [exact H|]. by intros c Hc ->. Qed.

Lemma labels_no_nl l : Forall (fun l => label_ok l /\ no_nl (str l.1)) l -> no_nl (labels_text l).
Proof.
  assert (forall x, label_ok x /\ no_nl (str x.1) -> no_nl (label_text x)) as H.
  { intros x [[_ Hv] Hk]. unfold label_text. repeat apply Forall_app_2; [done|by repeat constructor..| |by repeat constructor].
    eapply Forall_impl; [exact Hv|]. by intros c (_ & _ & ?). }
  induction 1 as [|x l Hx Hl IH]; [constructor|]. destruct l as [|y l]; [by apply H|].
  change (labels_text (x :: y :: l)) with (label_text x ++ COMMA :: labels_text (y :: l)). apply Forall_app_2; [by apply H|by constructor].
Qed.

Lemma fixed_lines m : fixed_ok m = true -> line_ok (help_line m) /\ line_ok (type_line m).
Proof.
  intros Hf. pose proof (fixed_name m Hf) as [Hn _]. unfold fixed_ok in Hf. rewrite !andb_true_iff in Hf. destruct Hf as [[_ Hh] Ht].
  apply plain_line in Hh, Ht. assert (forall a, Forall (fun c => c <> NL) a -> forall b, plain b -> line_ok (a ++ SP :: b)) as L.
  { intros a Ha b Hb. split.
    - apply Forall_app_2; [done|]. constructor; [done|]. eapply Forall_impl; [exact Hb|]. by intros c [].
    - rewrite last_app. destruct b as [|c b _] using rev_ind; [done|]. change (SP :: b ++ [c]) with ((SP :: b) ++ [c]).
      rewrite last_snoc. apply Forall_app in Hb as [_ Hb]. apply Forall_cons in Hb as [[_ Hc] _]. by intros [= ->]. }
  assert (no_nl (str (x_name m))) as Hn' by (eapply Forall_impl; [exact Hn|]; by intros c []).
  assert (help_line m = (str "# HELP " ++ str (x_name m)) ++ SP :: str (x_help m) /\
          type_line m = (str "# TYPE " ++ str (x_name m)) ++ SP :: str (x_type m)) as [-> ->].
  { unfold help_line, type_line. by rewrite <- !(assoc_L (++)). }
  split; apply L; try done; (apply Forall_app_2; [by repeat constructor|done]).
Qed.

Lemma sample_line_ok vm_id ts m : clean vm_id -> 0 <= ts -> metric_ok m -> line_ok (sample_line vm_id ts m).
Proof.
  intros Hv Ht (Hf & Hl & Hw). pose proof (fixed_name m Hf) as [Hn _]. split.
  - unfold sample_line. repeat apply Forall_app_2; try (by repeat constructor).
    + eapply Forall_impl; [exact Hn|]. by intros c [].
    + apply labels_no_nl. constructor; [split; [split; [by repeat constructor|done]|by repeat constructor]|done].
    + by apply word_no_nl, Hw.
    + by apply word_no_nl, digits_word.
  - unfold sample_line. rewrite !(assoc_L (++)), last_app. pose proof (digits_word ts Ht) as [Hd Hw'].
    destruct (digits ts) as [|c l _] using rev_ind; [done|]. rewrite last_snoc. apply Forall_app in Hw' as [_ Hw']. 
    apply Forall_cons in Hw' as [Hc _]. by intros [= ->].
Qed.

Lemma filter_third {A} (f : A -> bool) a b c l : f a = false -> f b = false -> f c = true ->
  List.filter f (a :: b :: c :: l) = c :: List.filter f l.
Proof. intros Ha Hb Hc. simpl. by rewrite Ha, Hb, Hc. Qed.

Lemma exposition_lines vm_id ts ms : clean vm_id -> 0 <= ts < 2 ^ 64 -> Forall metric_ok ms ->
  read_exposition (unlines (concat (metric_lines vm_id ts <$> ms))) = Some (sample_of vm_id ts <$> ms).
Proof.
  intros Hv Ht Hms. unfold read_exposition. rewrite lines_unlines.
  - induction Hms as [|m ms Hm Hms IH]; [done|]. rewrite !fmap_cons, concat_cons. change (metric_lines vm_id ts m) with [help_line m; type_line m; sample_line vm_id ts m].
    destruct Hm as (Hf & Hl & Hw). pose proof (fixed_name m Hf) as [_ (c & l & Ec & Hc)]. cbn [app]. rewrite filter_third; [|done|done|].
    2: { unfold sample_line. rewrite Ec. change (str "#") with [35]. cbn [starts_with app]. rewrite (proj2 (Z.eqb_neq 35 c)) by congruence. done. }
    cbn [mapM]. rewrite sample_read by done. cbn [mbind option_bind]. by rewrite IH.
  - apply Forall_concat, Forall_fmap. eapply Forall_impl; [exact Hms|]. intros m Hm. destruct (fixed_lines m ltac:(by destruct Hm)).
    constructor; [done|]. constructor; [done|]. constructor; [by apply sample_line_ok; lia || done|constructor].
Qed.

(** ** Properties *)

(** The measurements fit their types and the names need no escaping. *)
Record expositable (snap : MetricsSnapshot) : Prop := {
  ex_time : 0 <= timestamp_ms snap < 2 ^ 64;
  ex_memory : let m := memory snap in Forall (fun n => 0 <= n)
    [total_bytes m; used_bytes m; free_bytes m; buffers_bytes m; cached_bytes m; swap_total m; swap_used m];
  ex_disks : Forall (fun d => clean (disk_name d) /\ Forall (fun n => 0 <= n) [reads_total d; writes_total d; read_bytes d; write_bytes d]) (disks snap);
  ex_nets : Forall (fun n => clean (interface n) /\
    Forall (fun n => 0 <= n) [rx_bytes n; tx_bytes n; rx_packets n; tx_packets n; rx_errors n; tx_errors n]) (networks snap);
  ex_procs : Forall (fun p => clean (proc_name p) /\ 0 <= pid p /\ 0 <= rss_bytes p) (processes snap);
}.

Lemma word_clean w : no_ws w -> Forall (fun c => is_digit c = true) w -> clean w.
Proof. intros _ H. eapply Forall_impl; [exact H|]. intros c Hc. unfold is_digit in Hc. b2p. repeat split; unfold QUOTE, BACKSLASH, NL; lia. Qed.

Lemma digits_clean n : 0 <= n -> clean (digits n).
Proof. intros Hn. apply word_clean; [by apply digits_word|by apply digits_fuel_digits]. Qed.

(** Metrics with fixed texts that are fine, whatever the labels and the value. *)
Lemma gauge32_ok name help labels v : fixed_ok (gauge32 name help [] (S754_zero false)) = true ->
  Forall (fun l => label_ok l /\ no_nl (str l.1)) labels -> metric_ok (gauge32 name help labels v).
Proof. intros Hf Hl. split; [exact Hf|]. split; [done|apply display_word]. Qed.

Lemma gauge_ok name help labels v : fixed_ok (gauge name help [] 0) = true ->
  Forall (fun l => label_ok l /\ no_nl (str l.1)) labels -> 0 <= v -> metric_ok (gauge name help labels v).
Proof. intros Hf Hl Hv. split; [exact Hf|]. split; [done|by apply digits_word]. Qed.

Lemma counter_ok name help labels v : fixed_ok (counter name help [] 0) = true ->
  Forall (fun l => label_ok l /\ no_nl (str l.1)) labels -> 0 <= v -> metric_ok (counter name help labels v).
Proof. intros Hf Hl Hv. split; [exact Hf|]. split; [done|by apply digits_word]. Qed.

Lemma one_label k v : forallb (fun c => negb (c =? 61) && negb (c =? NL)) (str k) = true -> clean v ->
  label_ok (k, v) /\ no_nl (str k).
Proof.
  rewrite forallb_forall. intros Hk Hv. assert (Forall (fun c => c <> 61 /\ c <> NL) (str k)) as H.
  { apply Forall_forall. intros c Hc%list_elem_of_In. apply Hk in Hc. by rewrite andb_true_iff, !negb_true_iff, !Z.eqb_neq in Hc. }
  split; [split; [|done]|]; (eapply Forall_impl; [exact H|]; by intros c []).
Qed.

Ltac metric_ok :=
  lazymatch goal with
  | |- metric_ok (gauge32 _ _ _ _) => apply gauge32_ok
  | |- metric_ok (gauge _ _ _ _) => apply gauge_ok
  | |- metric_ok (counter _ _ _ _) => apply counter_ok
  end;
  [reflexivity|repeat (apply Forall_cons_2; [apply one_label; [reflexivity|]|]); try apply Forall_nil_2|..]; try done;
  try (repeat constructor; discriminate).

Lemma cpu_metrics_ok c : Forall metric_ok (cpu_metrics c).
Proof.
  unfold cpu_metrics. constructor; [metric_ok|]. apply Forall_app_2.
  - apply Forall_lookup_2. intros i x (y & _ & ->)%list_lookup_imap_Some. apply gauge32_ok; [reflexivity|].
    constructor; [|done]. apply one_label; [done|]. apply digits_clean. lia.
  - constructor; [metric_ok|]. constructor; [metric_ok|]. constructor; [metric_ok|done].
Qed.

Lemma memory_metrics_ok m : Forall (fun n => 0 <= n)
    [total_bytes m; used_bytes m; free_bytes m; buffers_bytes m; cached_bytes m; swap_total m; swap_used m] -> Forall metric_ok (memory_metrics m).
Proof. rewrite !Forall_cons. intros (? & ? & ? & ? & ? & ? & ? & _). unfold memory_metrics. repeat (constructor; [metric_ok|]). constructor. Qed.

Lemma disk_metrics_ok d : clean (disk_name d) -> Forall (fun n => 0 <= n) [reads_total d; writes_total d; read_bytes d; write_bytes d] ->
  Forall metric_ok (disk_metrics d).
Proof. rewrite !Forall_cons. intros Hc (? & ? & ? & ? & _). unfold disk_metrics. repeat (constructor; [metric_ok|]). constructor. Qed.

Lemma net_metrics_ok n : clean (interface n) ->
  Forall (fun n => 0 <= n) [rx_bytes n; tx_bytes n; rx_packets n; tx_packets n; rx_errors n; tx_errors n] -> Forall metric_ok (net_metrics n).
Proof. rewrite !Forall_cons. intros Hc (? & ? & ? & ? & ? & ? & _). unfold net_metrics. repeat (constructor; [metric_ok|]). constructor. Qed.

Lemma process_metrics_ok p : clean (proc_name p) -> 0 <= pid p -> 0 <= rss_bytes p -> Forall metric_ok (process_metrics p).
Proof.
  intros Hc Hp Hr. pose proof (digits_clean _ Hp). unfold process_metrics. repeat (constructor; [metric_ok|]). constructor.
Qed.

(** Every measurement of a snapshot is read back from its exposition: in order,
    under the machine's id and its labels, with the text of its value and the
    snapshot's time, provided that no name has a quote, a backslash or a line
    feed. *)
Theorem exposition_roundtrip vm_id snap : clean vm_id -> expositable snap ->
  read_exposition (to_prometheus vm_id snap) = Some (sample_of vm_id (timestamp_ms snap) <$> snapshot_metrics snap).
Proof.
  intros Hv []. apply exposition_lines; [done|done|]. unfold snapshot_metrics. repeat apply Forall_app_2.
  - apply cpu_metrics_ok.
  - by apply memory_metrics_ok.
  - apply Forall_concat, Forall_fmap. eapply Forall_impl; [exact ex_disks0|]. intros d []. by apply disk_metrics_ok.
  - apply Forall_concat, Forall_fmap. eapply Forall_impl; [exact ex_nets0|]. intros n []. by apply net_metrics_ok.
  - apply Forall_concat, Forall_fmap. eapply Forall_impl; [exact ex_procs0|]. intros p (? & ? & ?). by apply process_metrics_ok.
Qed.

Definition small_snapshot (name : text) : MetricsSnapshot :=
  {| timestamp_ms := 5000; cpu := {| total_pct := S754_zero false; per_core := [float_of_int F32 7]; load_avg := [] |}; memory := no_memory;
     disks := []; networks := []; processes := [{| pid := 7; proc_name := name; proc_cpu_pct := S754_zero false; rss_bytes := 4096; proc_state := 82 |}] |}.

(** Names are not escaped.  A process of the guest that is called
    [x",vm_id="db] has its samples under the id of another machine as well. *)
Theorem labels_injected :
  let name := str "x" ++ [QUOTE] ++ str ",vm_id=" ++ [QUOTE] ++ str "db" in
  last <$> ((fun l => s_labels <$> l) <$> read_exposition (to_prometheus (str "web") (small_snapshot name))) =
  Some (Some [(str "vm_id", str "web"); (str "pid", str "7"); (str "name", str "x"); (str "vm_id", str "db")]).
Proof. vm_compute. reflexivity. Qed.

(** ** Witnesses *)

Lemma exposition_roundtrip_witness :
  length <$> read_exposition (to_prometheus (str "web") (small_snapshot (str "init"))) = Some 14%nat.
Proof.
  rewrite (exposition_roundtrip (str "web") (small_snapshot (str "init"))); [vm_compute; reflexivity| |].
  - repeat constructor; discriminate.
  - constructor; simpl; repeat constructor; discriminate || done.
Defined.
