(* ===== verification/VmSetup.v ===== *)
(** * Preparing a guest's memory

    [hitz-vmm/src/vm.rs]: [setup_guest_memory], [build_kernel_cmdline] and the
    order in which [boot_and_run] fills guest memory before the first vCPU runs:
    tables, kernel, zero page, initramfs, ACPI tables, command line, GDT, and the
    kernel once more. *)

From Stdlib Require Import String Ascii.
From stdpp Require Import strings.
From S2P Require Import Prelude Hal Memory PageTables Cpio Loader BootParams Acpi BootRegs Ethernet Config.

(** ** Constants *)

Definition VIRTIO_MMIO_BASE : Z := 0xD0000000.
Definition VIRTIO_MMIO_SIZE : Z := 0x1000.
Definition VIRTIO_IRQ_BASE : Z := 5.
Definition VIRTIO_IRQ_NET : Z := 6.
Definition VIRTIO_IRQ_VSOCK : Z := 7.

(** ** Effects: guest memory, the monitor's errors, panics

    [boot_and_run] drops the memory on an error, so what a failed loop wrote
    before it failed is not kept. *)

Definition Setup (A : Type) : Type := GuestMemory -> option (result VmError A * GuestMemory).

#[export] Instance setup_ret : MRet Setup := fun A a m => Some (Ok a, m).
#[export] Instance setup_bind : MBind Setup :=
  fun A B f s m =>
    match s m with
    | Some (Ok a, m') => f a m'
    | Some (Err e, m') => Some (Err e, m')
    | None => None
    end.

Definition lift {A} (r : result VmError A) : Setup A := fun m => Some (r, m).

(** [?] on the results of the boot crate and of the memory manager. *)
Definition boot_call {A} (f : Boot GuestMemory A) : Setup A := fun m =>
  match f m with
  | Some (r, m') => Some (map_err VmBoot r, m')
  | None => None
  end.

Definition mem_call (f : GuestMemory -> result MemError GuestMemory) : Setup unit := fun m =>
  match f m with
  | Ok m' => Some (Ok tt, m')
  | Err e => Some (Err (VmMem e), m)
  end.

Section Boot.
Context `{HostAlloc}.
Variable overflow_checks : bool.
(** [fs::read]. *)
Variable read_file : string -> result string (list Z).

Definition fs_read (path : string) : Setup (list Z) := lift (map_err VmIo (read_file path)).

Definition write_at (gpa : Z) (data : list Z) : Setup unit := mem_call (fun m => write_slice m gpa data).

Definition add_ram (size : Z) : Setup unit := fun m =>
  let '(r, m') := add_region m 0 size in Some (map_err VmMem r, m').

Definition ram_bytes_of (c : VmConfig) : Z := ram_mib c * 1024 * 1024.
Definition gib_count_of (c : VmConfig) : Z := Z.max ((ram_mib c + 1023) / 1024) 1.

(** The initramfs, when there is one: load it and put it in the zero page. *)
Definition setup_initramfs (c : VmConfig) (kernel_end ram_bytes : Z) (bp : BootParams) : Setup BootParams :=
  match initramfs_path c with
  | None => mret bp
  | Some path =>
      data ← fs_read path;
      r ← boot_call (load_initramfs overflow_checks data kernel_end ram_bytes);
      let '(res, bp') := set_initramfs_params bp (ir_gpa r) (ir_size r) in
      _ ← lift (map_err VmBoot res); mret bp'
  end.

Definition setup_acpi (c : VmConfig) (bp : BootParams) : Setup unit :=
  if 1 <? cpus c then
    _ ← write_at RSDP_GPA build_rsdp;
    _ ← write_at XSDT_GPA build_xsdt;
    madt ← lift (map_err VmBoot (build_madt (cpus c)));
    _ ← write_at MADT_GPA madt;
    write_at BOOT_PARAMS_GPA (as_bytes (set_acpi_rsdp bp RSDP_GPA))
  else mret tt.

Definition setup_guest_memory (c : VmConfig) (ram_bytes gib_count : Z) : Setup Z :=
  _ ← add_ram ram_bytes;
  tables ← lift (map_err VmBoot (build_page_tables gib_count));
  let '(pml4_gpa, page_table_writes) := tables in
  _ ← mem_call (fun m => write_pages m page_table_writes);
  kernel_bytes ← fs_read (kernel_path c);
  load_result ← boot_call (load_elf overflow_checks kernel_bytes);
  bp0 ← lift (map_err VmBoot (build_boot_params ram_bytes CMDLINE_GPA));
  bp ← setup_initramfs c (kernel_end load_result) ram_bytes bp0;
  _ ← write_at BOOT_PARAMS_GPA (as_bytes bp);
  _ ← setup_acpi c bp;
  mret pml4_gpa.

(** *** The command line *)

(** [{:x}]. *)
Definition hex_text (v : Z) : string := hex_digits 16 v "".

Definition device_arg (base irq : Z) : string :=
  (" virtio_mmio.device=0x" ++ hex_text VIRTIO_MMIO_SIZE ++ "@0x" ++ hex_text base ++ ":" ++ fmt_dec irq)%string.

Definition dotted (ip : list Z) : string := join "." (fmt_dec <$> ip).

Definition ip_arg (n : NetConfig) : result VmError string :=
  g ← map_err VmConfigErr (parse_cidr (guest_ip n));
  h ← map_err VmConfigErr (parse_cidr (host_ip n));
  Ok (" ip=" ++ dotted g.1 ++ "::" ++ dotted h.1 ++ ":255.255.255.0::eth0:off")%string.

Definition kernel_cmdline (c : VmConfig) (has_vsock : bool) : result VmError string :=
  net_args ← (match net c with
              | None => Ok ""%string
              | Some n => a ← ip_arg n; Ok (device_arg (VIRTIO_MMIO_BASE + VIRTIO_MMIO_SIZE) VIRTIO_IRQ_NET ++ a)%string
              end);
  Ok (effective_cmdline c ++ net_args ++
      (if has_vsock then device_arg (VIRTIO_MMIO_BASE + VIRTIO_MMIO_SIZE * 2) VIRTIO_IRQ_VSOCK else ""))%string.

Definition build_kernel_cmdline (c : VmConfig) (has_vsock : bool) : Setup unit :=
  text ← lift (kernel_cmdline c has_vsock);
  write_at CMDLINE_GPA (bytes_of text ++ [0]).

(** *** Steps 2 to 11 of [boot_and_run]: guest memory and the entry point

    The partition's creation and mapping, between the GDT and the second load,
    do not touch guest memory. *)
Definition prepare_memory (c : VmConfig) (has_vsock : bool) : Setup (Z * Z) :=
  pml4_gpa ← setup_guest_memory c (ram_bytes_of c) (gib_count_of c);
  _ ← build_kernel_cmdline c has_vsock;
  _ ← mem_call write_gdt;
  kernel_bytes ← fs_read (kernel_path c);
  load_result ← boot_call (load_elf overflow_checks kernel_bytes);
  mret (pml4_gpa, entry_point load_result).

End Boot.

(** ** Specification: the memory the guest starts in *)

(** [bs] is in memory at [g]. *)
Definition holds (m : GuestMemory) (fact : Z * list Z) : Prop :=
  read_slice m fact.1 (length fact.2) = Ok fact.2.

Definition apart (f1 f2 : Z * list Z) : Prop := disjoint_range f1.1 (zlen f1.2) f2.1 (zlen f2.2).

(** The zero page for a configuration: memory map, initramfs, ACPI. *)
Definition final_zero_page (c : VmConfig) (initrd : option (Z * list Z)) : result BootError BootParams :=
  bp ← build_boot_params (ram_bytes_of c) CMDLINE_GPA;
  bp ← (match initrd with
        | None => Ok bp
        | Some (g, d) =>
            let '(r, bp') := set_initramfs_params bp g (zlen d) in _ ← r; Ok bp'
        end);
  Ok (if 1 <? cpus c then set_acpi_rsdp bp RSDP_GPA else bp).

(** Where the initramfs goes: the first page boundary at or after [ke]. *)
Definition initrd_at (ke : Z) (d : list Z) : Z * list Z := (gpa_page_base (ke + 0xFFF), d).

(** A covered address belongs to a segment's memory image. *)
Definition covered (kernel : list Z) (x : Z) : Prop :=
  Exists (fun ph => p_paddr ph <= x < p_paddr ph + p_memsz ph) (elf_segments kernel).

(** A machine that can be booted: its kernel lies above 1 MiB and in RAM, with no
    segment that has more file than memory bytes; the initramfs fits after it
    within 4 GiB; the command line ends before the ACPI tables; and there is at
    most 22 GiB of memory. *)
Record bootable (read_file : string -> result string (list Z)) (c : VmConfig) (kernel : list Z)
    (initrd : option (list Z)) (text : string) : Prop := {
  b_kernel : read_file (kernel_path c) = Ok kernel;
  b_kernel_len : zlen kernel < 2 ^ 63;
  b_kernel_bytes : bytes_ok kernel;
  b_fits : elf_fits kernel 0x100000 (ram_bytes_of c);
  b_memsz : Forall (fun ph => p_filesz ph <= p_memsz ph) (elf_segments kernel);
  b_initrd :
    match initramfs_path c, initrd with
    | None, None => True
    | Some p, Some d =>
        read_file p = Ok d /\ d <> [] /\ bytes_ok d /\
        forall ke, highest (elf_segments kernel) ke ->
          gpa_page_base (ke + 0xFFF) + zlen d <= ram_bytes_of c /\
          gpa_page_base (ke + 0xFFF) < 2 ^ 32 /\ zlen d < 2 ^ 32
    | _, _ => False
    end;
  b_text_bytes : bytes_ok (bytes_of text);
  b_text_len : zlen (bytes_of text) < 0xC0000;
  b_ram : 2 <= ram_mib c <= 22 * 1024;
  b_cpus : 1 <= cpus c <= 255;
}.

(** ** Lemmas: steps that keep what memory holds *)

Lemma setup_bind_run {A B} (s : Setup A) (f : A -> Setup B) m a m' :
  s m = Some (Ok a, m') -> (s ≫= f) m = f a m'.
Proof. unfold mbind, setup_bind. by intros ->. Qed.

Lemma lift_run {A} (r : result VmError A) a m : r = Ok a -> lift r m = Some (Ok a, m).
Proof. by intros ->. Qed.

Lemma boot_call_run {A} (f : Boot GuestMemory A) m a m' :
  f m = Some (Ok a, m') -> boot_call f m = Some (Ok a, m').
Proof. unfold boot_call. by intros ->. Qed.

Section Steps.
Context (reg : GuestRegion).
Implicit Types (m : GuestMemory) (L : list (Z * list Z)).

(** Well-formed memory whose RAM is the region, with some facts. *)
Definition state_ok (L : list (Z * list Z)) (m : GuestMemory) : Prop :=
  memory_wf m /\ regions m = [reg] /\ Forall (holds m) L.

Lemma holds_keep m m' L :
  (forall f, f ∈ L -> read_slice m' f.1 (length f.2) = read_slice m f.1 (length f.2)) ->
  Forall (holds m) L -> Forall (holds m') L.
Proof.
  intros Hk HL. rewrite Forall_forall in *. intros f Hf. unfold holds. rewrite Hk by done. by apply HL.
Qed.

Lemma step_write L m g d :
  state_ok L m -> bytes_ok d -> gpa_start reg <= g -> g + zlen d <= gpa_start reg + region_size reg ->
  Forall (apart (g, d)) L ->
  exists m', write_at g d m = Some (Ok tt, m') /\ state_ok ((g, d) :: L) m'.
Proof.
  intros (Hwf & Hr & HL) Hd Hg He Hap.
  destruct (write_in_region reg m g d Hwf) as [m' E]; [rewrite Hr; apply elem_of_cons; by left|done..|].
  exists m'. unfold write_at, mem_call. rewrite E. split; [done|].
  destruct (write_slice_bytes _ _ _ _ Hwf Hd E) as [Hwf' _].
  split_and!; [done|rewrite <- Hr; by eapply write_slice_regions|]. constructor.
  - exact (read_slice_write_same _ _ _ _ Hwf Hd E).
  - eapply (holds_keep m); [|exact HL]. intros f Hf.
    rewrite Forall_forall in Hap. exact (read_slice_write_disjoint _ _ _ _ _ _ Hwf Hd E (Hap f Hf)).
Qed.

(** Forgetting facts. *)
Lemma state_ok_sub L L' m : L' ⊆ L -> state_ok L m -> state_ok L' m.
Proof. intros HL (? & ? & Hh). split_and!; [done..|]. rewrite Forall_forall in *. eauto. Qed.

Lemma step_load_elf oc kernel L m :
  zlen kernel < 2 ^ 63 -> bytes_ok kernel -> state_ok L m ->
  elf_fits kernel (gpa_start reg) (gpa_start reg + region_size reg) ->
  Forall (fun ph => p_filesz ph <= p_memsz ph) (elf_segments kernel) ->
  (forall lo hi, lowest (elf_segments kernel) lo -> highest (elf_segments kernel) hi ->
     Forall (fun f => f.1 + zlen f.2 <= lo \/ hi <= f.1) L) ->
  exists r m', boot_call (load_elf oc kernel) m = Some (Ok r, m') /\ state_ok L m' /\
    lowest (elf_segments kernel) (kernel_load r) /\ highest (elf_segments kernel) (kernel_end r) /\
    entry_point r = field 8 kernel 24 /\ Forall phdr_wf (elf_segments kernel) /\
    forall x, byte_at m' x = image kernel (elf_segments kernel) (byte_at m) x.
Proof.
  intros Hlen Hk (Hwf & Hr & HL) Hf Hsz Hap.
  destruct (load_elf_ok oc kernel Hlen Hk reg m Hwf) as (r & m' & E); [rewrite Hr; apply elem_of_cons; by left|done|].
  pose proof (load_elf_inv oc kernel Hlen Hk m r m' Hwf E) as (_ & _ & Hph & (_ & _ & Hb) & Hlo & Hhi & He).
  destruct (load_elf_beside oc kernel m r m' Hlen Hk Hwf E Hsz) as (Hwf' & Hr' & Hkeep).
  exists r, m'. split_and!; [by apply boot_call_run| |done..].
  split_and!; [done|congruence|]. eapply (holds_keep m); [|exact HL]. intros f Hin.
  apply Hkeep. specialize (Hap _ _ Hlo Hhi). rewrite Forall_forall in Hap. exact (Hap f Hin).
Qed.

Lemma elf_fits_weaken kernel lo lo' hi : lo' <= lo -> elf_fits kernel lo hi -> elf_fits kernel lo' hi.
Proof.
  intros Hlo (? & ? & ? & Hf). split_and!; [done..|]. eapply Forall_impl; [exact Hf|].
  cbn beta. intros ph (? & ? & ?). split_and!; lia.
Qed.

Lemma kernel_bounds kernel lo hi a b :
  elf_fits kernel a b -> Forall phdr_wf (elf_segments kernel) ->
  lowest (elf_segments kernel) lo -> highest (elf_segments kernel) hi -> a <= lo <= hi /\ hi <= b.
Proof.
  intros (_ & _ & _ & Hf) Hw [_ (p1 & H1 & <-)%Exists_exists] [Hh (p2 & H2 & <-)%Exists_exists].
  rewrite Forall_forall in *. pose proof (Hf _ H1). pose proof (Hf _ H2). pose proof (Hh _ H1).
  pose proof (Hw _ H1) as Hw1. unfold phdr_wf, seg_end, in_range in *. cbn beta in *. lia.
Qed.

(** The tables' pages as facts. *)
Definition page_facts (n : nat) : list (Z * list Z) := (fun w => (mw_gpa w, mw_data w)) <$> all_pages n.

Lemma page_facts_range n f :
  (n <= 512)%nat -> f ∈ page_facts n -> PML4_GPA <= f.1 /\ f.1 + zlen f.2 <= tables_end (Z.of_nat n).
Proof.
  intros Hn (w & -> & Hw)%list_elem_of_fmap. pose proof (all_pages_length n Hn) as HL. rewrite Forall_forall in HL.
  cbn [fst snd]. replace (zlen (mw_data w)) with 4096 by (unfold zlen; by rewrite (HL w Hw)). by apply all_pages_range.
Qed.

Lemma page_facts_loaded n m : (n <= 512)%nat -> Forall (holds m) (page_facts n) -> tables_loaded m n.
Proof.
  intros Hn Hf. pose proof (all_pages_length n Hn) as HL. rewrite Forall_forall in HL.
  unfold page_facts in Hf. rewrite Forall_fmap, Forall_forall in Hf.
  assert (Hin : forall g d, {| mw_gpa := g; mw_data := d |} ∈ all_pages n -> read_slice m g TABLE_SIZE = Ok d).
  { intros g d Hw. rewrite <- (HL _ Hw). exact (Hf _ Hw). }
  split_and!; [apply Hin; unfold all_pages; rewrite !elem_of_cons; tauto..|].
  intros i Hi. apply Hin. unfold all_pages. rewrite !elem_of_cons, list_elem_of_fmap.
  right. right. exists i. rewrite elem_of_seq. split; [done|lia].
Qed.

Lemma step_pages n m :
  state_ok [] m -> (1 <= n <= 512)%nat -> gpa_start reg = 0 -> tables_end (Z.of_nat n) <= region_size reg ->
  exists m', mem_call (fun m => write_pages m (all_pages n)) m = Some (Ok tt, m') /\ state_ok (page_facts n) m'.
Proof.
  intros (Hwf & Hr & _) Hn Hs He. pose proof (all_pages_length n ltac:(lia)) as HL. rewrite Forall_forall in HL.
  pose proof (all_pages_bytes n) as HB. rewrite Forall_forall in HB.
  destruct (write_pages_spec (all_pages n) m) as (m' & E & Hwf' & Hreg & Hin & _);
    [done| |apply all_pages_sorted; lia|].
  { apply Forall_forall. intros w Hw. split; [by apply HB|]. apply all_pages_range in Hw as Hrange.
    assert (Hok : is_ok (read_guest m (mw_gpa w) (length (mw_data w))) = true).
    { apply (in_region_readable m reg); [done|rewrite Hr; apply elem_of_cons; by left| |].
      - rewrite Hs. unfold PML4_GPA in Hrange. lia.
      - rewrite (HL w Hw). change (Z.of_nat TABLE_SIZE) with 4096. lia. }
    simpl in Hok. by rewrite is_ok_map_err in Hok. }
  exists m'. unfold mem_call. rewrite E. split; [done|]. split_and!; [done|congruence|].
  apply Forall_fmap, Forall_forall. intros w Hw. exact (Hin w Hw).
Qed.

Lemma step_initrd oc ke d ram L m :
  state_ok L m -> bytes_ok d -> d <> [] -> 0x100000 <= ke -> ke + 0xFFF + zlen d < 2 ^ 64 ->
  gpa_start reg = 0 -> ram = region_size reg -> (initrd_at ke d).1 + zlen d <= ram ->
  Forall (fun f => f.1 + zlen f.2 <= 0x100000) L ->
  exists m', boot_call (load_initramfs oc d ke ram) m =
      Some (Ok {| ir_gpa := (initrd_at ke d).1; ir_size := zlen d |}, m') /\
    state_ok (initrd_at ke d :: L) m'.
Proof.
  intros Hst Hd Hne Hke Hov Hs -> Hram HL. destruct (page_up ke) as (_ & Hp); [pose proof (zlen_nonneg d); lia..|].
  cbn [initrd_at fst] in *.
  destruct (step_write L m (gpa_page_base (ke + 0xFFF)) d Hst Hd) as (m' & E & Hst'); [lia|lia| |].
  { eapply Forall_impl; [exact HL|]. intros f Hf. unfold apart, disjoint_range. cbn [fst snd] in *. lia. }
  exists m'. split; [|exact Hst']. apply boot_call_run. rewrite load_initramfs_run by (done || lia). cbv zeta.
  rewrite (proj2 (Z.ltb_ge _ _)) by lia. unfold write_at, mem_call in E.
  destruct (write_slice m _ d); [|done]. injection E as ->. done.
Qed.

(** A write at a place of the first megabyte that no fact is about. *)
Lemma step_write_low L m g d :
  state_ok L m -> bytes_ok d -> gpa_start reg = 0 -> 0x200000 <= region_size reg -> 0 <= g -> g + zlen d <= 0x100000 ->
  Forall (apart (g, d)) L -> exists m', write_at g d m = Some (Ok tt, m') /\ state_ok ((g, d) :: L) m'.
Proof. intros. apply step_write; [done|done|lia|lia|done]. Qed.

(** The GDT, entry by entry. *)
Fixpoint entry_facts (i : Z) (entries : list Z) (L : list (Z * list Z)) : list (Z * list Z) :=
  match entries with
  | [] => L
  | e :: entries' => entry_facts (i + 1) entries' ((GDT_GPA + i * 8, le_bytes 8 e) :: L)
  end.

Lemma step_entries entries i L m :
  state_ok L m -> gpa_start reg = 0 -> 0x200000 <= region_size reg -> 0 <= i -> i + zlen entries <= 5 ->
  Forall (fun f => f.1 + zlen f.2 <= GDT_GPA + i * 8 \/ GDT_GPA + 40 <= f.1) L ->
  exists m', write_entries m i entries = Ok m' /\ state_ok (entry_facts i entries L) m'.
Proof.
  revert i L m. induction entries as [|e entries IH]; intros i L m Hst Hs Hr Hi Hn HL; [by exists m|].
  rewrite zlen_cons in Hn. pose proof (zlen_nonneg entries).
  assert (Hz : zlen (le_bytes 8 e) = 8) by (unfold zlen; by rewrite length_le_bytes).
  destruct (step_write_low L m (GDT_GPA + i * 8) (le_bytes 8 e) Hst (le_bytes_ok 8 e) Hs Hr) as (m1 & E & Hst1);
    [unfold GDT_GPA; lia|rewrite Hz; unfold GDT_GPA; lia| |].
  { eapply Forall_impl; [exact HL|]. intros f Hf. unfold apart, disjoint_range. cbn [fst snd] in *. rewrite Hz. lia. }
  destruct (IH (i + 1) _ _ Hst1) as (m' & E' & Hst'); [done|done|lia|lia| |].
  { constructor; [cbn [fst snd]; rewrite Hz; lia|].
    eapply Forall_impl; [exact HL|]. intros f Hf. cbn beta in *. lia. }
  exists m'. split; [|exact Hst']. cbn [write_entries]. unfold write_at, mem_call in E.
  unfold write_u64, GDT_ENTRY_SIZE. destruct (write_slice m _ (le_bytes 8 e)); [|done].
  injection E as ->. exact E'.
Qed.

Lemma entry_facts_super entries i L : L ⊆ entry_facts i entries L.
Proof.
  revert i L. induction entries as [|e entries IH]; intros i L; [done|]. cbn [entry_facts].
  etrans; [|apply IH]. set_solver.
Qed.

Lemma entry_facts_in entries i L k e :
  entries !! k = Some e -> (GDT_GPA + (i + Z.of_nat k) * 8, le_bytes 8 e) ∈ entry_facts i entries L.
Proof.
  revert i L k. induction entries as [|e0 entries IH]; intros i L [|k] Hk; try done; cbn [entry_facts].
  - injection Hk as ->. rewrite Z.add_0_r. apply entry_facts_super, elem_of_cons. by left.
  - replace (i + Z.of_nat (S k)) with (i + 1 + Z.of_nat k) by lia. by apply IH.
Qed.

(** The zero page and the ACPI tables. *)
Definition beside (a b : Z) (f : Z * list Z) : Prop := f.1 + zlen f.2 <= a \/ b <= f.1.

Lemma apart_beside a b g d L :
  a <= g -> g + zlen d <= b -> Forall (beside a b) L -> Forall (apart (g, d)) L.
Proof.
  intros Ha Hb HL. eapply Forall_impl; [exact HL|]. intros f Hf.
  unfold apart, disjoint_range, beside in *. cbn [fst snd]. lia.
Qed.

Lemma step_zero_page bp L m :
  state_ok L m -> gpa_start reg = 0 -> 0x200000 <= region_size reg -> length (e820_table bp) = 128%nat ->
  Forall (beside 0x7000 0x8000) L ->
  exists m', write_at BOOT_PARAMS_GPA (as_bytes bp) m = Some (Ok tt, m') /\
    state_ok ((BOOT_PARAMS_GPA, as_bytes bp) :: L) m'.
Proof.
  intros Hst Hs Hr Hl HL. assert (Hz : zlen (as_bytes bp) = 4096) by (unfold zlen; by rewrite length_as_bytes).
  apply step_write_low; try done; [apply as_bytes_ok|unfold BOOT_PARAMS_GPA; lia..|].
  eapply apart_beside; [| |exact HL]; unfold BOOT_PARAMS_GPA; lia.
Qed.

Definition acpi_facts (c : VmConfig) : list (Z * list Z) :=
  if 1 <? cpus c then
    match build_madt (cpus c) with
    | Ok madt => [(MADT_GPA, madt); (XSDT_GPA, build_xsdt); (RSDP_GPA, build_rsdp)]
    | Err _ => []
    end
  else [].

Definition with_acpi (c : VmConfig) (bp : BootParams) : BootParams :=
  if 1 <? cpus c then set_acpi_rsdp bp RSDP_GPA else bp.

Lemma step_acpi c bp L m :
  state_ok ((BOOT_PARAMS_GPA, as_bytes bp) :: L) m -> gpa_start reg = 0 -> 0x200000 <= region_size reg ->
  1 <= cpus c <= 255 -> length (e820_table bp) = 128%nat ->
  Forall (beside 0x7000 0x8000) L -> Forall (beside 0xE0000 0x100000) L ->
  exists m', setup_acpi c bp m = Some (Ok tt, m') /\
    state_ok ((BOOT_PARAMS_GPA, as_bytes (with_acpi c bp)) :: acpi_facts c ++ L) m'.
Proof.
  intros Hst Hs Hr Hc Hl H7 HE. unfold setup_acpi, with_acpi, acpi_facts.
  destruct (1 <? cpus c); [|by exists m].
  apply (state_ok_sub _ L) in Hst; [|set_solver].
  destruct (madt_spec (cpus c) Hc) as (t & Et & (_ & _ & _ & Hb) & Ht & _). rewrite Et.
  assert (Hz1 : zlen build_rsdp = 36) by (by vm_compute). assert (Hz2 : zlen build_xsdt = 44) by (by vm_compute).
  destruct (step_write_low L m RSDP_GPA build_rsdp Hst) as (m1 & E1 & S1); [decided|done|done|unfold RSDP_GPA; lia..| |].
  { apply (apart_beside 0xE0000 0x100000); [unfold RSDP_GPA; lia..|done]. }
  destruct (step_write_low _ m1 XSDT_GPA build_xsdt S1) as (m2 & E2 & S2); [decided|done|done|unfold XSDT_GPA; lia..| |].
  { constructor; [unfold apart, disjoint_range, XSDT_GPA, RSDP_GPA; cbn [fst snd]; lia|].
    apply (apart_beside 0xE0000 0x100000); [unfold XSDT_GPA; lia..|done]. }
  destruct (step_write_low _ m2 MADT_GPA t S2) as (m3 & E3 & S3); [done|done|done|unfold MADT_GPA; lia..| |].
  { do 2 (constructor; [unfold apart, disjoint_range, MADT_GPA, XSDT_GPA, RSDP_GPA; cbn [fst snd]; lia|]).
    apply (apart_beside 0xE0000 0x100000); [unfold MADT_GPA; lia..|done]. }
  destruct (step_zero_page (set_acpi_rsdp bp RSDP_GPA) _ m3 S3) as (m4 & E4 & S4); [done..| |].
  { do 3 (constructor; [unfold beside, MADT_GPA, XSDT_GPA, RSDP_GPA; cbn [fst snd]; lia|]). done. }
  exists m4. split; [|exact S4]. rewrite (setup_bind_run _ _ _ _ _ E1), (setup_bind_run _ _ _ _ _ E2).
  erewrite setup_bind_run by (by apply lift_run). by rewrite (setup_bind_run _ _ _ _ _ E3).
Qed.

(** The initramfs, and what it makes of the zero page. *)
Definition initrd_facts (ke : Z) (initrd : option (list Z)) : list (Z * list Z) :=
  match initrd with Some d => [initrd_at ke d] | None => [] end.

Lemma step_setup_initramfs oc rf c kernel initrd text ke L m bp0 :
  bootable rf c kernel initrd text -> state_ok L m -> gpa_start reg = 0 -> region_size reg = ram_bytes_of c ->
  highest (elf_segments kernel) ke -> 0x100000 <= ke <= ram_bytes_of c ->
  build_boot_params (ram_bytes_of c) CMDLINE_GPA = Ok bp0 ->
  Forall (fun f => f.1 + zlen f.2 <= 0x100000) L ->
  exists bp m', setup_initramfs oc rf c ke (ram_bytes_of c) bp0 m = Some (Ok bp, m') /\
    length (e820_table bp) = 128%nat /\ final_zero_page c (initrd_at ke <$> initrd) = Ok (with_acpi c bp) /\
    state_ok (initrd_facts ke initrd ++ L) m'.
Proof.
  intros Hb Hst Hs Hrs Hke Hker Hbp HL. pose proof (b_initrd _ _ _ _ _ Hb) as Hi. pose proof (b_ram _ _ _ _ _ Hb) as Hram.
  assert (Hu : u64 (ram_bytes_of c)) by (unfold in_range, ram_bytes_of; lia).
  pose proof (build_boot_params_wf _ _ _ Hu Hbp) as Hwf.
  assert (Hl0 : length (e820_table bp0) = 128%nat) by apply Hwf.
  unfold setup_initramfs, final_zero_page. rewrite Hbp.
  destruct (initramfs_path c) as [path|], initrd as [d|]; try done.
  2: { exists bp0, m. by split_and!. }
  destruct Hi as (Hrd & Hne & Hd & Hfit). specialize (Hfit ke Hke) as (Hf1 & Hf2 & Hf3).
  destruct (step_initrd oc ke d (ram_bytes_of c) L m Hst) as (m' & E & Hst');
    [done..|lia|unfold ram_bytes_of in *; lia|done|done|done|done|].
  assert (Hgpa : 0 <= gpa_page_base (ke + 0xFFF)) by (destruct (page_up ke); unfold ram_bytes_of in *; lia).
  pose proof (zlen_nonneg d).
  destruct (set_initramfs_params bp0 (gpa_page_base (ke + 0xFFF)) (zlen d)) as [res bp] eqn:Eset.
  assert (Hres : res = Ok tt).
  { unfold set_initramfs_params in Eset. rewrite !(proj2 (Z.ltb_ge _ _)) in Eset by lia. by injection Eset. }
  subst res. destruct (set_initramfs_wf _ _ _ _ Hwf Hgpa ltac:(done) Eset) as (Hwf' & _).
  exists bp, m'. split_and!; [|apply Hwf'| |exact Hst'].
  - unfold fs_read. erewrite setup_bind_run by (apply lift_run; by rewrite Hrd).
    rewrite (setup_bind_run _ _ _ _ _ E). cbn [ir_gpa ir_size initrd_at fst]. by rewrite Eset.
  - cbn [initrd_at option_fmap option_map fmap mbind result_bind]. by rewrite Eset.
Qed.
End Steps.

Lemma entry_facts_range lo hi entries i L :
  0x100000 <= lo -> 0 <= i -> i + zlen entries <= 5 ->
  Forall (fun f => f.1 + zlen f.2 <= lo \/ hi <= f.1) L ->
  Forall (fun f => f.1 + zlen f.2 <= lo \/ hi <= f.1) (entry_facts i entries L).
Proof.
  intros Hlo. revert i L. induction entries as [|e entries IH]; intros i L Hi Hn HL; [done|].
  rewrite zlen_cons in Hn. pose proof (zlen_nonneg entries). apply IH; [lia..|]. constructor; [|done].
  cbn [fst snd]. replace (zlen (le_bytes 8 e)) with 8 by (unfold zlen; by rewrite length_le_bytes).
  unfold GDT_GPA. lia.
Qed.

Lemma gdt_entries_u64 e : e ∈ gdt_entries -> 0 <= e < 256 ^ Z.of_nat 8.
Proof.
  intros He. assert (HF : Forall u64 gdt_entries) by decided. rewrite Forall_forall in HF. exact (HF e He).
Qed.

(** A covered address does not depend on what was there. *)
Lemma image_covered kernel old old' x :
  covered kernel x -> image kernel (elf_segments kernel) old x = image kernel (elf_segments kernel) old' x.
Proof.
  unfold covered, image. generalize (old x) (old' x).
  induction (elf_segments kernel) as [|ph segs IH]; intros b b' Hx; [by apply Exists_nil in Hx|].
  cbn [foldl]. apply Exists_cons in Hx as [Hx|Hx]; [|by apply IH].
  f_equal. unfold seg_byte. repeat case_on; b2p; done || lia.
Qed.

(** ** Lemmas: the whole sequence *)

Section Sequence.
Context `{HostAllocLaws} (oc has_vsock : bool) (rf : string -> result string (list Z)).
Context (c : VmConfig) (kernel : list Z) (initrd : option (list Z)) (text : string).
Hypothesis Hboot : bootable rf c kernel initrd text.

Lemma ram_pages : align_up (ram_bytes_of c) PAGE_SIZE = Some (ram_bytes_of c).
Proof.
  pose proof (b_ram _ _ _ _ _ Hboot) as Hr. assert (Hn : 0 <= ram_bytes_of c < 2 ^ 40) by (unfold ram_bytes_of; lia).
  destruct (align_up (ram_bytes_of c) PAGE_SIZE) as [a|] eqn:E; [|apply align_up_None in E; lia].
  f_equal. apply align_up_page in E as (-> & _); [|lia]. unfold ram_bytes_of in *. divlia.
Qed.

Lemma add_ram_new b :
  host_alloc ∅ (ram_bytes_of c) = Some b ->
  exists reg m, add_ram (ram_bytes_of c) guest_memory_new = Some (Ok tt, m) /\
    gpa_start reg = 0 /\ region_size reg = ram_bytes_of c /\ state_ok reg [] m.
Proof.
  intros Hb. pose proof (b_ram _ _ _ _ _ Hboot) as Hr.
  assert (Hn : 0 < ram_bytes_of c < 2 ^ 40) by (unfold ram_bytes_of; lia).
  unfold add_ram. destruct (add_region guest_memory_new 0 (ram_bytes_of c)) as [res m] eqn:E.
  assert (Hres : res = Ok tt).
  { unfold add_region in E. rewrite ram_pages in E. rewrite checked_add_ok in E by lia.
    cbn [regions guest_memory_new existsb heap] in E. unfold virtual_alloc in E.
    rewrite Hb in E. by injection E. }
  subst res. pose proof (add_region_wf _ 0 _ _ guest_memory_new_wf ltac:(lia) (proj1 Hn) E) as Hwf.
  apply add_region_Ok in E as (a & b' & Ha & _ & _ & _ & _ & Hreg). rewrite ram_pages in Ha. injection Ha as <-.
  eexists _, m. split; [done|].
  split; [|split; [|split; [exact Hwf|split; [exact Hreg|constructor]]]]; done.
Qed.

Lemma gib_count_bounds : 1 <= gib_count_of c <= 22 /\ gib_count_of c * 1024 < ram_mib c + 1024.
Proof. pose proof (b_ram _ _ _ _ _ Hboot). unfold gib_count_of. divlia. Qed.

Definition setup_facts (zp : BootParams) (ke : Z) : list (Z * list Z) :=
  (BOOT_PARAMS_GPA, as_bytes zp) ::
  acpi_facts c ++ initrd_facts ke initrd ++ page_facts (Z.to_nat (gib_count_of c)).

Lemma tables_in_ram : tables_end (gib_count_of c) <= 0x20000.
Proof. pose proof gib_count_bounds. unfold tables_end, PD_BASE_GPA. lia. Qed.

Lemma setup_guest_memory_spec b :
  host_alloc ∅ (ram_bytes_of c) = Some b ->
  exists reg m zp ke, setup_guest_memory oc rf c (ram_bytes_of c) (gib_count_of c) guest_memory_new =
      Some (Ok PML4_GPA, m) /\
    gpa_start reg = 0 /\ region_size reg = ram_bytes_of c /\
    highest (elf_segments kernel) ke /\ 0x100000 <= ke <= ram_bytes_of c /\
    final_zero_page c (initrd_at ke <$> initrd) = Ok zp /\ state_ok reg (setup_facts zp ke) m.
Proof.
  intros Hb. destruct (add_ram_new b Hb) as (reg & m0 & E0 & Hs & Hr & S0).
  pose proof (b_ram _ _ _ _ _ Hboot) as Hram. pose proof gib_count_bounds as Hg. pose proof tables_in_ram as Ht.
  set (n := Z.to_nat (gib_count_of c)) in *. assert (Hn : gib_count_of c = Z.of_nat n) by lia.
  assert (Hmin : 0x200000 <= region_size reg) by (rewrite Hr; unfold ram_bytes_of; lia).
  destruct (step_pages reg n m0 S0) as (m1 & E1 & S1); [lia|done|rewrite <- Hn; lia|].
  destruct Hboot as [Hk Hkl Hkb Hf Hms Hi Htb Htl _ Hc].
  assert (Hlow : Forall (fun f => PML4_GPA <= f.1 /\ f.1 + zlen f.2 <= 0x20000) (page_facts n)).
  { apply Forall_forall. intros f Hin. apply page_facts_range in Hin; [|lia]. rewrite <- Hn in Hin. lia. }
  destruct (step_load_elf reg oc kernel _ m1 Hkl Hkb S1) as (r & m2 & E2 & S2 & Hlo & Hhi & _ & Hph & _); [|done| |].
  { rewrite Hs, Hr. by apply (elf_fits_weaken _ 0x100000). }
  { intros lo hi Hlo Hhi. eapply Forall_impl; [exact Hlow|]. cbn beta. intros f Hfr. left.
    destruct Hlo as [_ (p1 & H1 & <-)%Exists_exists]. destruct Hf as (_ & _ & _ & Hf).
    rewrite Forall_forall in Hf. specialize (Hf _ H1). cbn beta in Hf. lia. }
  pose proof (kernel_bounds _ _ _ _ _ Hf Hph Hlo Hhi) as Hkr.
  destruct (build_boot_params (ram_bytes_of c) CMDLINE_GPA) as [bp0|e] eqn:Ebp;
    [|unfold build_boot_params in Ebp; rewrite (proj2 (Z.ltb_ge _ _)) in Ebp by (unfold ram_bytes_of; lia); done].
  destruct (step_setup_initramfs reg oc rf c kernel initrd text (kernel_end r) _ m2 bp0 Hboot S2)
    as (bp & m3 & E3 & Hl & Hzp & S3); [done|done|done|lia|done| |].
  { eapply Forall_impl; [exact Hlow|]. cbn beta. intros f ?. lia. }
  assert (Hbes : forall a b', b' <= PML4_GPA \/ 0x20000 <= a -> b' <= 0x100000 ->
            Forall (beside a b') (initrd_facts (kernel_end r) initrd ++ page_facts n)).
  { intros a b' Hab Hb'. apply Forall_app. split.
    - unfold initrd_facts. destruct initrd; constructor; [|done]. unfold beside. cbn [initrd_at fst].
      destruct (page_up (kernel_end r)) as (_ & ?); unfold ram_bytes_of in *; lia.
    - eapply Forall_impl; [exact Hlow|]. cbn beta. intros f ?. unfold beside. lia. }
  destruct (step_zero_page reg bp _ m3 S3) as (m4 & E4 & S4); [done..|apply Hbes; unfold PML4_GPA; lia|].
  destruct (step_acpi reg c bp _ m4 S4) as (m5 & E5 & S5); [done..|apply Hbes; unfold PML4_GPA; lia|apply Hbes; lia|].
  exists reg, m5, (with_acpi c bp), (kernel_end r). split_and!; [|done..|lia|lia|done|exact S5].
  unfold setup_guest_memory. rewrite (setup_bind_run _ _ _ _ _ E0).
  erewrite setup_bind_run by (apply lift_run; by rewrite build_page_tables_Ok by lia).
  cbn beta iota. rewrite (setup_bind_run _ _ _ _ _ E1). unfold fs_read.
  erewrite setup_bind_run by (apply lift_run; by rewrite Hk).
  rewrite (setup_bind_run _ _ _ _ _ E2). erewrite setup_bind_run by (apply lift_run; by rewrite Ebp).
  rewrite (setup_bind_run _ _ _ _ _ E3), (setup_bind_run _ _ _ _ _ E4), (setup_bind_run _ _ _ _ _ E5). done.
Qed.

Lemma setup_facts_range zp ke :
  length (e820_table zp) = 128%nat -> 0x100000 <= ke <= ram_bytes_of c ->
  Forall (fun f => 0x7000 <= f.1 /\ (f.1 + zlen f.2 <= 0x20000 \/
            0xE0000 <= f.1 /\ (f.1 + zlen f.2 <= 0x100000 \/ ke <= f.1))) (setup_facts zp ke).
Proof.
  intros Hl Hke. pose proof (b_ram _ _ _ _ _ Hboot) as Hram. pose proof (b_cpus _ _ _ _ _ Hboot) as Hc.
  constructor; [|apply Forall_app; split; [|apply Forall_app; split]].
  - cbn [fst snd]. replace (zlen (as_bytes zp)) with 4096 by (unfold zlen; by rewrite length_as_bytes).
    unfold BOOT_PARAMS_GPA. lia.
  - unfold acpi_facts. destruct (1 <? cpus c); [|constructor].
    destruct (madt_spec (cpus c) Hc) as (t & Et & _ & Ht & _). rewrite Et.
    assert (Hz1 : zlen build_rsdp = 36) by (by vm_compute). assert (Hz2 : zlen build_xsdt = 44) by (by vm_compute).
    repeat constructor; cbn [fst snd]; unfold MADT_GPA, XSDT_GPA, RSDP_GPA; lia.
  - unfold initrd_facts. destruct initrd; constructor; [|done]. cbn [initrd_at fst].
    destruct (page_up ke) as (_ & ?); unfold ram_bytes_of in *; lia.
  - pose proof tables_in_ram. pose proof gib_count_bounds. apply Forall_forall. intros f Hin.
    apply page_facts_range in Hin; [|lia]. rewrite Z2Nat.id in Hin by lia. unfold PML4_GPA in Hin. lia.
Qed.

Lemma final_table o zp : final_zero_page c o = Ok zp -> length (e820_table zp) = 128%nat.
Proof.
  unfold final_zero_page, build_boot_params. destruct (ram_bytes_of c <? _); [done|]. cbn [mbind result_bind].
  destruct o as [[g d]|]; cbn [mbind result_bind].
  - unfold set_initramfs_params. destruct (_ <? g); [done|]. destruct (_ <? zlen d); [done|].
    cbn [mbind result_bind]. intros [= <-]. by destruct (1 <? cpus c).
  - intros [= <-]. by destruct (1 <? cpus c).
Qed.
End Sequence.

Lemma memory_staged `{HostAllocLaws} oc has_vsock rf c kernel initrd text b :
  bootable rf c kernel initrd text -> kernel_cmdline c has_vsock = Ok text ->
  host_alloc ∅ (ram_bytes_of c) = Some b ->
  exists m zp ke,
    prepare_memory oc rf c has_vsock guest_memory_new = Some (Ok (PML4_GPA, field 8 kernel 24), m) /\
    memory_wf m /\ highest (elf_segments kernel) ke /\
    (forall v, 0 <= v < 2 ^ 48 ->
       walk m PML4_GPA v = if decide (v < gib_count_of c * ONE_GIB) then Some v else None) /\
    final_zero_page c (initrd_at ke <$> initrd) = Ok zp /\ holds m (BOOT_PARAMS_GPA, as_bytes zp) /\
    holds m (CMDLINE_GPA, bytes_of text ++ [0]) /\ gdt_loads m (boot_sregs PML4_GPA) /\
    Forall (holds m) (acpi_facts c) /\ Forall (holds m) (initrd_facts ke initrd) /\
    (forall x, covered kernel x -> byte_at m x = image kernel (elf_segments kernel) (fun _ => None) x) /\
    exists reg m1 m2 m3, regions m = [reg] /\ gpa_start reg = 0 /\ region_size reg = ram_bytes_of c /\
      setup_guest_memory oc rf c (ram_bytes_of c) (gib_count_of c) guest_memory_new = Some (Ok PML4_GPA, m1) /\
      build_kernel_cmdline c has_vsock m1 = Some (Ok tt, m2) /\ mem_call write_gdt m2 = Some (Ok tt, m3) /\ regions m3 = [reg].
Proof.
  intros Hboot Ht Hb.
  destruct (setup_guest_memory_spec oc rf c kernel initrd text Hboot b Hb)
    as (reg & m1 & zp & ke & E1 & Hs & Hr & Hhi & Hke & Hzp & S1).
  pose proof (setup_facts_range rf c kernel initrd text Hboot zp ke (final_table _ _ _ Hzp) Hke) as Hrange.
  pose proof Hboot as [Hk Hkl Hkb Hf Hms _ Htb Htl Hram Hc].
  assert (Hmin : 0x200000 <= region_size reg) by (rewrite Hr; unfold ram_bytes_of; lia).
  assert (Hz : zlen (bytes_of text ++ [0]) = zlen (bytes_of text) + 1) by (by rewrite zlen_app).
  destruct (step_write_low reg _ m1 CMDLINE_GPA (bytes_of text ++ [0]) S1) as (m2 & E2 & S2);
    [apply Forall_app; split; [done|decided]|done|done|unfold CMDLINE_GPA; lia..| |].
  { eapply Forall_impl; [exact Hrange|]. cbn beta. intros f ?. unfold apart, disjoint_range, CMDLINE_GPA. cbn [fst snd]. lia. }
  destruct (step_entries reg gdt_entries 0 _ m2 S2) as (m3 & E3 & S3); [done|done|lia|by vm_compute| |].
  { constructor; [unfold CMDLINE_GPA, GDT_GPA; cbn [fst snd]; lia|].
    eapply Forall_impl; [exact Hrange|]. cbn beta. intros f ?. unfold GDT_GPA. lia. }
  assert (E3' : mem_call write_gdt m2 = Some (Ok tt, m3)) by (unfold mem_call, write_gdt; by rewrite E3).
  assert (Hlow : forall lo, lowest (elf_segments kernel) lo -> 0x100000 <= lo).
  { intros lo [_ (p1 & H1 & <-)%Exists_exists]. destruct Hf as (_ & _ & _ & Hf).
    rewrite Forall_forall in Hf. specialize (Hf _ H1). cbn beta in Hf. lia. }
  destruct (step_load_elf reg oc kernel _ m3 Hkl Hkb S3) as (r & m4 & E4 & S4 & _ & _ & He & Hph & Himg); [|done| |].
  { rewrite Hs, Hr. by apply (elf_fits_weaken _ 0x100000). }
  { intros lo hi Hlo Hhi'. rewrite (highest_unique _ _ _ Hhi' Hhi). specialize (Hlow _ Hlo).
    apply entry_facts_range; [lia|lia|by vm_compute|]. constructor.
    - unfold CMDLINE_GPA. cbn [fst snd]. lia.
    - eapply Forall_impl; [exact Hrange|]. cbn beta. intros f ?. lia. }
  destruct S4 as (Hwf & Hrm & Hh). pose proof S3 as (_ & Hrm3 & _). exists m4, zp, ke.
  assert (Hin : Forall (holds m4) ((CMDLINE_GPA, bytes_of text ++ [0]) :: setup_facts c initrd zp ke))
    by (rewrite Forall_forall in Hh |- *; intros f Hin; apply Hh; by apply entry_facts_super).
  unfold setup_facts in Hin. rewrite !Forall_cons, !Forall_app in Hin.
  destruct Hin as (Hcmd & Hzpf & Hacpi & Hird & Hpages). pose proof (gib_count_bounds rf c kernel initrd text Hboot).
  split_and!; try done.
  - unfold prepare_memory. rewrite (setup_bind_run _ _ _ _ _ E1). unfold build_kernel_cmdline.
    assert (E2' : (text ← lift (kernel_cmdline c has_vsock); write_at CMDLINE_GPA (bytes_of text ++ [0])) m1 = Some (Ok tt, m2))
      by (by erewrite setup_bind_run by (apply lift_run; exact Ht)).
    rewrite (setup_bind_run _ _ _ _ _ E2'), (setup_bind_run _ _ _ _ _ E3'). unfold fs_read.
    erewrite setup_bind_run by (apply lift_run; by rewrite Hk).
    rewrite (setup_bind_run _ _ _ _ _ E4). by rewrite He.
  - intros v Hv. rewrite (walk_loaded m4 (Z.to_nat (gib_count_of c))) by (done || lia || (apply page_facts_loaded; [lia|done])).
    by rewrite Z2Nat.id by lia.
  - apply gdt_entries_load. intros k e Hke'. rewrite Forall_forall in Hh.
    specialize (Hh _ (entry_facts_in gdt_entries 0 _ k e Hke')). unfold holds in Hh. cbn [fst snd] in Hh.
    rewrite length_le_bytes in Hh. unfold read_u64. rewrite Hh. cbn [mbind result_bind]. f_equal.
    apply from_le_le_bytes_id. apply gdt_entries_u64. by eapply list_elem_of_lookup_2.
  - intros x Hx. rewrite Himg. by apply image_covered.
  - exists reg, m1, m2, m3. split_and!; try done. unfold build_kernel_cmdline.
    by erewrite setup_bind_run by (apply lift_run; exact Ht).
Qed.

(** ** Property *)

(** C2: A machine that can be booted gets, whatever the host allocator returns, a
    memory from which it can start: the entry point and page tables handed to the
    first vCPU; the tables map exactly the guest's gibibytes, each address to
    itself; the zero page, command line, GDT, ACPI tables, initramfs and kernel
    image are all in place, none overwritten by a later step. *)
Theorem guest_memory_prepared `{HostAllocLaws} oc has_vsock rf c kernel initrd text b :
  bootable rf c kernel initrd text -> kernel_cmdline c has_vsock = Ok text ->
  host_alloc ∅ (ram_bytes_of c) = Some b ->
  exists m zp ke,
    prepare_memory oc rf c has_vsock guest_memory_new = Some (Ok (PML4_GPA, field 8 kernel 24), m) /\
    memory_wf m /\ highest (elf_segments kernel) ke /\
    (forall v, 0 <= v < 2 ^ 48 ->
       walk m PML4_GPA v = if decide (v < gib_count_of c * ONE_GIB) then Some v else None) /\
    final_zero_page c (initrd_at ke <$> initrd) = Ok zp /\ holds m (BOOT_PARAMS_GPA, as_bytes zp) /\
    holds m (CMDLINE_GPA, bytes_of text ++ [0]) /\ gdt_loads m (boot_sregs PML4_GPA) /\
    Forall (holds m) (acpi_facts c) /\ Forall (holds m) (initrd_facts ke initrd) /\
    (forall x, covered kernel x -> byte_at m x = image kernel (elf_segments kernel) (fun _ => None) x).
Proof.
  intros Hboot Ht Hb. destruct (memory_staged oc has_vsock rf c kernel initrd text b Hboot Ht Hb)
    as (m & zp & ke & ? & ? & ? & ? & ? & ? & ? & ? & ? & ? & ? & _). exists m, zp, ke. by split_and!.
Qed.

(** ** Witness: two processors, an initramfs and a network device *)

Definition demo_boot_kernel : list Z := demo_elf 64 0x100000 3 8 [7; 8; 9].
Definition demo_initrd : list Z := [1; 2; 3; 4; 5].

Definition demo_files (path : string) : result string (list Z) :=
  if String.eqb path "vmlinux" then Ok demo_boot_kernel
  else if String.eqb path "initrd" then Ok demo_initrd
  else Err "not found"%string.

Definition demo_config : VmConfig :=
  {| kernel_path := "vmlinux"; initramfs_path := Some "initrd"%string; disk_path := None; ram_mib := 2; cpus := 2;
     cmdline := Some "console=ttyS0"%string;
     net := Some {| net_mac := None; host_ip := "10.0.0.1/24"; guest_ip := "10.0.0.2/24"; adapter_name := None |};
     ports := []; guest_cid := DEFAULT_GUEST_CID; guest_agent := AgentAuto |}.

Definition demo_text : string :=
  "console=ttyS0 virtio_mmio.device=0x1000@0xd0001000:6 ip=10.0.0.2::10.0.0.1:255.255.255.0::eth0:off virtio_mmio.device=0x1000@0xd0002000:7".

Lemma demo_boot_segments :
  elf_segments demo_boot_kernel = [{| p_type := 1; p_offset := 120; p_paddr := 0x100000; p_filesz := 3; p_memsz := 8 |}].
Proof. vm_compute. reflexivity. Qed.

Lemma demo_highest ke : highest (elf_segments demo_boot_kernel) ke -> ke = 0x100008.
Proof.
  rewrite demo_boot_segments. intros [_ Hke].
  apply Exists_cons in Hke as [<-|Hke]; [reflexivity|by apply Exists_nil in Hke].
Qed.

Lemma demo_bootable : bootable demo_files demo_config demo_boot_kernel (Some demo_initrd) demo_text.
Proof.
  split.
  - reflexivity.
  - by vm_compute.
  - decided.
  - split_and!; [by vm_compute| |by vm_compute|].
    + intros i Hi. replace (Z.to_nat _) with 1%nat in Hi by (by vm_compute). assert (i = 0%nat) as -> by lia.
      by vm_compute.
    + rewrite demo_boot_segments. repeat constructor; by vm_compute.
  - rewrite demo_boot_segments. repeat constructor; by vm_compute.
  - cbn [demo_config initramfs_path]. split_and!; [by vm_compute|done|decided|].
    intros ke ->%demo_highest. by vm_compute.
  - decided.
  - by vm_compute.
  - cbn. lia.
  - cbn. lia.
Qed.

Lemma guest_memory_prepared_witness :
  exists m zp, @prepare_memory vec_alloc true demo_files demo_config true guest_memory_new =
      Some (Ok (PML4_GPA, 0x100000), m) /\
    holds m (CMDLINE_GPA, bytes_of demo_text ++ [0]) /\ holds m (0x101000, demo_initrd) /\
    holds m (BOOT_PARAMS_GPA, as_bytes zp) /\ walk m PML4_GPA 0x123456 = Some 0x123456.
Proof.
  destruct (@guest_memory_prepared vec_alloc vec_alloc_laws true true demo_files demo_config demo_boot_kernel
              (Some demo_initrd) demo_text 1%positive demo_bootable) as (m & zp & ke & E & _ & Hke & Hw & _ & Hz & Hc & _ & _ & Hi & _);
    [by vm_compute|by vm_compute|].
  apply demo_highest in Hke. exists m, zp. split; [exact E|]. split; [exact Hc|].
  split; [|split; [exact Hz|]].
  - apply Forall_inv in Hi. rewrite Hke in Hi. exact Hi.
  - rewrite Hw by lia. reflexivity.
Defined.
