(* ===== verification/VmThreads.v ===== *)
(** * The threads of a machine

    [run_single_vcpu] and [run_multi_vcpu] of [hitz-vmm/src/vm.rs]: the vCPU
    threads, the cancel watchdog and the thread that collects their ends, over the
    stop flag, the cancellations pending at the hypervisor and the exit channel.
    A turn of a vCPU thread is a turn of [RunLoop.run_vcpu_loop], cut where the
    thread takes and gives back the lock of the devices; what the guest and the
    devices do is their choice, and a device may keep its thread for ever. *)

From Stdlib Require Import String.
From stdpp Require Import list relations.
From S2P Require Import Prelude Hal Memory PageTables Cpio Ethernet Config RunLoop Loader BootParams Acpi BootRegs VmSetup.

(** ** The state *)

(** How [catch_unwind(run_vcpu_loop)] ended: with its result, or by a panic with
    its message if it is a string. *)
Inductive LoopEnd := LoopReturned (r : result HalError ExitReason) | LoopPanicked (payload : option string).

(** What the lock of the devices is taken for: [poll_devices], and the emulation of
    an exit. *)
Inductive Use := Polling | Emulating.

(** Where a vCPU thread is: before the check of the flag, waiting for the devices,
    holding them, about to enter the guest, in [vcpu.run()], after the loop, telling
    the [k]-th vCPU on, sending, and over. *)
Inductive Phase :=
| Looping | Waiting (a : Use) | Inside (a : Use) | Entering | InGuest
| Leaving (e : LoopEnd) | TellingOthers (k : nat) (e : LoopEnd) | Sending (e : LoopEnd) | Over (e : LoopEnd).

Inductive Watchdog := Watching | CancelingAll (k : nat) | WatchdogOver.

(** The calling thread: the messages still wanted and the reason so far. *)
Inductive Collector :=
| Collecting (more : nat) (final : ExitReason)
| JoiningWatchdog (final : ExitReason)
| JoiningVcpus (final : ExitReason)
| Returned (final : ExitReason).

Record Machine := {
  flag : bool;
  clock : Z;
  deadline : Z;
  phases : list Phase;
  pendings : list bool;
  dog : Watchdog;
  exits : list (result HalError ExitReason);
  caller : Collector;
}.

(** *** Updates *)

Definition set_flag_up (w : Machine) : Machine :=
  {| flag := true; clock := clock w; deadline := deadline w; phases := phases w; pendings := pendings w;
     dog := dog w; exits := exits w; caller := caller w |}.
Definition set_clock (w : Machine) (t : Z) : Machine :=
  {| flag := flag w; clock := t; deadline := deadline w; phases := phases w; pendings := pendings w;
     dog := dog w; exits := exits w; caller := caller w |}.
Definition set_phase (w : Machine) (i : nat) (p : Phase) : Machine :=
  {| flag := flag w; clock := clock w; deadline := deadline w; phases := <[i := p]> (phases w); pendings := pendings w;
     dog := dog w; exits := exits w; caller := caller w |}.
Definition set_pend (w : Machine) (i : nat) (b : bool) : Machine :=
  {| flag := flag w; clock := clock w; deadline := deadline w; phases := phases w; pendings := <[i := b]> (pendings w);
     dog := dog w; exits := exits w; caller := caller w |}.
Definition set_dog (w : Machine) (d : Watchdog) : Machine :=
  {| flag := flag w; clock := clock w; deadline := deadline w; phases := phases w; pendings := pendings w;
     dog := d; exits := exits w; caller := caller w |}.
Definition set_caller (w : Machine) (l : list (result HalError ExitReason)) (c : Collector) : Machine :=
  {| flag := flag w; clock := clock w; deadline := deadline w; phases := phases w; pendings := pendings w;
     dog := dog w; exits := l; caller := c |}.

(** ** The code *)

Section Threads.
(** Whether a cancellation of a vCPU that is not in the guest is kept for its
    next [run]; [format!("{e}")] of an error. *)
Variables (latched : bool) (hal_text : HalError -> string).

(** [cancel_via] on the [k]-th handle. *)
Definition cancel_via (w : Machine) (k : nat) : Machine :=
  if latched || match phases w !! k with Some InGuest => true | _ => false end then set_pend w k true else w.

(** The ends after which a vCPU thread stops the whole machine. *)
Definition terminal (e : LoopEnd) : bool :=
  match e with
  | LoopReturned (Ok Canceled) => false
  | _ => true
  end.

Definition exit_message (idx : nat) (e : LoopEnd) : result HalError ExitReason :=
  match e with
  | LoopReturned r => r
  | LoopPanicked payload =>
      Ok (Unexpected ("vCPU " ++ fmt_dec (Z.of_nat idx) ++ " panicked: " ++ default "unknown panic" payload)%string)
  end.

(** One turn of the collecting loop on a message. *)
Definition collect (final : ExitReason) (message : result HalError ExitReason) : ExitReason :=
  match final with
  | Canceled => match message with Ok reason => reason | Err e => Unexpected ("vCPU error: " ++ hal_text e)%string end
  | _ => final
  end.

Definition SHUTDOWN_MS : Z := 3000.

Definition multi_init (n : nat) (t0 : Z) : Machine :=
  {| flag := false; clock := t0; deadline := t0 + SHUTDOWN_MS; phases := replicate n Looping; pendings := replicate n false;
     dog := Watching; exits := []; caller := Collecting n Canceled |}.

(** The steps the host takes by itself. *)
Inductive host_step (w : Machine) : Machine -> Prop :=
(* a vCPU thread *)
| check_flag i :
    phases w !! i = Some Looping ->
    host_step w (set_phase w i (if flag w then Leaving (LoopReturned (Ok Canceled)) else Waiting Polling))
| lock_devices i a :
    phases w !! i = Some (Waiting a) -> (forall j b, phases w !! j <> Some (Inside b)) ->
    host_step w (set_phase w i (Inside a))
| enter_guest i : phases w !! i = Some Entering -> host_step w (set_phase w i InGuest)
| run_canceled i :
    phases w !! i = Some InGuest -> pendings w !! i = Some true ->
    host_step w (set_phase (set_pend w i false) i Looping)
| leave_loop i e :
    phases w !! i = Some (Leaving e) ->
    host_step w (if terminal e then set_flag_up (set_phase w i (TellingOthers 0 e)) else set_phase w i (Sending e))
| tell_other i k e :
    phases w !! i = Some (TellingOthers k e) -> (k < length (phases w))%nat ->
    host_step w (set_phase (cancel_via w k) i (TellingOthers (S k) e))
| told_all i k e :
    phases w !! i = Some (TellingOthers k e) -> (length (phases w) <= k)%nat -> host_step w (set_phase w i (Sending e))
| send_exit i e :
    phases w !! i = Some (Sending e) ->
    host_step w (set_phase (set_caller w (exits w ++ [exit_message i e]) (caller w)) i (Over e))
(* the watchdog *)
| dog_sees_flag : dog w = Watching -> flag w = true -> host_step w (set_dog w (CancelingAll 0))
| dog_cancels k :
    dog w = CancelingAll k -> (k < length (phases w))%nat -> host_step w (set_dog (cancel_via w k) (CancelingAll (S k)))
| dog_ends k : dog w = CancelingAll k -> (length (phases w) <= k)%nat -> host_step w (set_dog w WatchdogOver)
(* the calling thread; its loop ends by a timeout, or when every sender is gone *)
| take_exit n final r rest :
    caller w = Collecting (S n) final -> exits w = r :: rest ->
    host_step w (set_caller w rest (Collecting n (collect final r)))
| stop_collecting n final :
    caller w = Collecting n final ->
    n = 0%nat \/ (exits w = [] /\ (deadline w <= clock w \/ Forall (fun p => exists e, p = Over e) (phases w))) ->
    host_step w (set_flag_up (set_caller w (exits w) (JoiningWatchdog final)))
| watchdog_joined final :
    caller w = JoiningWatchdog final -> dog w = WatchdogOver -> host_step w (set_caller w (exits w) (JoiningVcpus final))
| vcpus_joined final :
    caller w = JoiningVcpus final -> Forall (fun p => exists e, p = Over e) (phases w) ->
    host_step w (set_caller w (exits w) (Returned final)).

(** The code of the devices comes to its end and gives the lock back.  Nothing says
    that it does: the queue of a device can keep it for ever. *)
Inductive device_returns (w : Machine) : Machine -> Prop :=
| device_done i a :
    phases w !! i = Some (Inside a) ->
    device_returns w (set_phase w i (match a with Polling => Entering | Emulating => Looping end)).

(** An exit of the guest that needs no device, one that does, and one that ends the
    loop (or an error or a panic on the way, a poisoned lock included):
    [run_vcpu_loop] returns [Canceled] only from its check of the flag. *)
Inductive guest_exit (w : Machine) : Machine -> Prop :=
| exit_handled i : phases w !! i = Some InGuest -> guest_exit w (set_phase w i Looping)
| exit_emulated i : phases w !! i = Some InGuest -> guest_exit w (set_phase w i (Waiting Emulating)).

Definition may_end (p : Phase) : Prop := match p with Inside _ | Entering | InGuest => True | _ => False end.

Inductive guest_end (w : Machine) : Machine -> Prop :=
| loop_ends i e p :
    phases w !! i = Some p -> may_end p -> terminal e = true -> guest_end w (set_phase w i (Leaving e)).

Inductive time_passes (w : Machine) : Machine -> Prop :=
| tick t : clock w <= t -> time_passes w (set_clock w t).

(** [stop_vm], from outside. *)
Inductive stop_requested (w : Machine) : Machine -> Prop :=
| request : stop_requested w (set_flag_up w).

(** What the machine does by itself, the guest's choices apart. *)
Definition own_step (w w' : Machine) : Prop := host_step w w' \/ device_returns w w'.
Definition move (w w' : Machine) : Prop := own_step w w' \/ guest_exit w w' \/ guest_end w w'.
Definition any_step (w w' : Machine) : Prop := move w w' \/ time_passes w w' \/ stop_requested w w'.
(** The guest runs on, and nobody asks it to stop. *)
Definition quiet_step (w w' : Machine) : Prop := own_step w w' \/ guest_exit w w' \/ time_passes w w'.

(** *** One vCPU

    [run_single_vcpu] runs the loop itself: [Sending] stands for waiting for the
    watchdog, [result] is what it returned. *)

Record Single := {
  s_flag : bool;
  s_phase : Phase;
  s_pending : bool;
  s_dog : Watchdog;
  s_result : option (result HalError ExitReason);
}.

Definition single_init : Single :=
  {| s_flag := false; s_phase := Looping; s_pending := false; s_dog := Watching; s_result := None |}.

Definition with_phase (w : Single) (p : Phase) : Single :=
  {| s_flag := s_flag w; s_phase := p; s_pending := s_pending w; s_dog := s_dog w; s_result := s_result w |}.
Definition with_dog (w : Single) (d : Watchdog) (pending : bool) : Single :=
  {| s_flag := s_flag w; s_phase := s_phase w; s_pending := pending; s_dog := d; s_result := s_result w |}.

Inductive single_step (w : Single) : Single -> Prop :=
| single_checks :
    s_phase w = Looping ->
    single_step w (with_phase w (if s_flag w then Leaving (LoopReturned (Ok Canceled)) else Waiting Polling))
| single_locks a : s_phase w = Waiting a -> single_step w (with_phase w (Inside a))
| single_device a :
    s_phase w = Inside a -> single_step w (with_phase w (match a with Polling => Entering | Emulating => Looping end))
| single_enters : s_phase w = Entering -> single_step w (with_phase w InGuest)
| single_canceled :
    s_phase w = InGuest -> s_pending w = true -> single_step w (with_phase (with_dog w (s_dog w) false) Looping)
| single_exit : s_phase w = InGuest -> single_step w (with_phase w Looping)
| single_emulated : s_phase w = InGuest -> single_step w (with_phase w (Waiting Emulating))
| single_ends e : may_end (s_phase w) -> terminal e = true -> single_step w (with_phase w (Leaving e))
(* the [?] of the loop's result, and the flag raised after it *)
| single_fails x :
    s_phase w = Leaving (LoopReturned (Err x)) ->
    single_step w {| s_flag := s_flag w; s_phase := Over (LoopReturned (Err x)); s_pending := s_pending w; s_dog := s_dog w;
                     s_result := Some (Err x) |}
| single_unwinds p : s_phase w = Leaving (LoopPanicked p) -> single_step w (with_phase w (Over (LoopPanicked p)))
| single_raises r :
    s_phase w = Leaving (LoopReturned (Ok r)) ->
    single_step w {| s_flag := true; s_phase := Sending (LoopReturned (Ok r)); s_pending := s_pending w; s_dog := s_dog w;
                     s_result := s_result w |}
| single_joins r :
    s_phase w = Sending (LoopReturned (Ok r)) -> s_dog w = WatchdogOver ->
    single_step w {| s_flag := s_flag w; s_phase := Over (LoopReturned (Ok r)); s_pending := s_pending w; s_dog := s_dog w;
                     s_result := Some (Ok r) |}
(* the watchdog *)
| single_dog_sees : s_dog w = Watching -> s_flag w = true -> single_step w (with_dog w (CancelingAll 0) (s_pending w))
| single_dog_cancels :
    s_dog w = CancelingAll 0 ->
    single_step w (with_dog w (CancelingAll 1) (latched || match s_phase w with InGuest => true | _ => s_pending w end))
| single_dog_ends : s_dog w = CancelingAll 1 -> single_step w (with_dog w WatchdogOver (s_pending w)).

Inductive single_stop (w : Single) : Single -> Prop :=
| single_request :
    single_stop w {| s_flag := true; s_phase := s_phase w; s_pending := s_pending w; s_dog := s_dog w; s_result := s_result w |}.

Definition single_any (w w' : Single) : Prop := single_step w w' \/ single_stop w w'.

(** ** Specification *)

(** The turns left to a machine told to stop. *)
Definition phase_work (n : nat) (p : Phase) : nat :=
  match p with
  | Waiting Polling => n + 10
  | Inside Polling => n + 9
  | Entering => n + 8
  | InGuest => n + 7
  | Waiting Emulating => n + 6
  | Inside Emulating => n + 5
  | Looping => n + 4
  | Leaving _ => n + 3
  | TellingOthers k _ => 2 + (n - k)
  | Sending _ => 1
  | Over _ => 0
  end.

Definition dog_work (n : nat) (d : Watchdog) : nat :=
  match d with Watching => n + 2 | CancelingAll k => 1 + (n - k) | WatchdogOver => 0 end.

Definition caller_work (c : Collector) : nat :=
  match c with Collecting more _ => more + 3 | JoiningWatchdog _ => 2 | JoiningVcpus _ => 1 | Returned _ => 0 end.

Definition work (w : Machine) : nat :=
  sum_list (phase_work (length (phases w)) <$> phases w) + dog_work (length (phases w)) (dog w) + caller_work (caller w).

Definition is_over (p : Phase) : Prop := exists e, p = Over e.

(** The reasons the calling thread may give: that of a vCPU that ended, or
    [Canceled]. *)
Definition reason_of (ps : list Phase) (r : ExitReason) : Prop :=
  r = Canceled \/ exists i e, ps !! i = Some (Over e) /\ collect Canceled (exit_message i e) = r.

Definition final_of (c : Collector) : ExitReason :=
  match c with Collecting _ f | JoiningWatchdog f | JoiningVcpus f | Returned f => f end.

(** The vCPUs the watchdog has canceled. *)
Definition told (n : nat) (d : Watchdog) : nat :=
  match d with Watching => 0 | CancelingAll k => k | WatchdogOver => n end.

(** On the way into the guest. *)
Definition heading (p : Phase) : Prop :=
  match p with Waiting Polling | Inside Polling | Entering | InGuest => True | _ => False end.

Record machine_ok (w : Machine) : Prop := {
  mo_len : length (pendings w) = length (phases w);
  mo_dog : dog w <> Watching -> flag w = true;
  mo_told : forall i p, phases w !! i = Some p -> (i < told (length (phases w)) (dog w))%nat ->
    heading p -> pendings w !! i = Some true;
  mo_exits : forall r, r ∈ exits w -> exists i e, phases w !! i = Some (Over e) /\ r = exit_message i e;
  mo_final : reason_of (phases w) (final_of (caller w));
  mo_caller :
    match caller w with
    | Collecting _ _ => True
    | JoiningWatchdog _ => flag w = true
    | JoiningVcpus _ => flag w = true /\ dog w = WatchdogOver
    | Returned _ => flag w = true /\ dog w = WatchdogOver /\ Forall is_over (phases w)
    end;
}.

(** No vCPU has ended by itself. *)
Definition canceled_end (p : Phase) : Prop :=
  match p with
  | Looping | Waiting _ | Inside _ | Entering | InGuest => True
  | Leaving e | Sending e | Over e => e = LoopReturned (Ok Canceled)
  | TellingOthers _ _ => False
  end.

Definition in_loop (p : Phase) : Prop := match p with Looping | Waiting _ | Inside _ | Entering | InGuest => True | _ => False end.

(** What a result of [run_single_vcpu] says of its watchdog. *)
Record single_ok (w : Single) : Prop := {
  so_phase : forall e, s_phase w = Over e ->
    s_result w = match e with LoopReturned r => Some r | LoopPanicked _ => None end;
  so_result : forall r, s_result w = Some r -> exists e, s_phase w = Over e;
  so_joined : forall r, s_result w = Some (Ok r) -> s_dog w = WatchdogOver;
  so_dog : s_dog w <> Watching -> s_flag w = true;
}.

Record undisturbed (w : Machine) : Prop := {
  un_ends : Forall canceled_end (phases w);
  un_exits : Forall (fun r => r = Ok Canceled) (exits w);
  un_final : final_of (caller w) = Canceled;
  un_flag : flag w = false -> Forall in_loop (phases w) /\ exits w = [];
}.

End Threads.

(** ** Lemmas *)

Lemma sum_list_set {A} (f : A -> nat) l i x y :
  l !! i = Some x -> (sum_list (f <$> <[i := y]> l) + f x = sum_list (f <$> l) + f y)%nat.
Proof.
  revert i. induction l as [|a l IH]; intros [|i] Hi; try done; cbn in *; [injection Hi as ->; lia|].
  specialize (IH i Hi). unfold fmap, insert in *. lia.
Qed.

Lemma inside_or_free (ps : list Phase) : (exists i a, ps !! i = Some (Inside a)) \/ forall i a, ps !! i <> Some (Inside a).
Proof.
  induction ps as [|p ps [(i & a & Hi)|Hno]]; [right; by intros []|left; by exists (S i), a|].
  destruct p; try (right; intros [|i] b; [done|apply Hno]). left. by exists 0%nat, a.
Qed.

Section Lemmas.
Variables (latched : bool) (hal_text : HalError -> string).
Notation host_step := (host_step latched hal_text).
Notation own_step := (own_step latched hal_text).
Notation move := (move latched hal_text).
Notation any_step := (any_step latched hal_text).
Notation quiet_step := (quiet_step latched hal_text).
Notation machine_ok := (machine_ok hal_text).

Lemma cancel_via_frame w k :
  flag (cancel_via latched w k) = flag w /\ phases (cancel_via latched w k) = phases w /\
  length (pendings (cancel_via latched w k)) = length (pendings w) /\ dog (cancel_via latched w k) = dog w /\
  exits (cancel_via latched w k) = exits w /\ caller (cancel_via latched w k) = caller w.
Proof. unfold cancel_via. destruct (latched || _); cbn; by rewrite ?length_insert. Qed.

Lemma cancel_via_keeps w k i : pendings w !! i = Some true -> pendings (cancel_via latched w k) !! i = Some true.
Proof.
  intros Hi. unfold cancel_via. destruct (latched || _); [|done]. cbn. apply list_lookup_insert_Some.
  destruct (decide (k = i)) as [->|]; [left; split_and!; [done..|by eapply lookup_lt_Some]|by right].
Qed.

(** Every step but the ticks and the requests uses up work, once the flag is up. *)
Lemma move_works w w' :
  flag w = true -> move w w' ->
  (work w' < work w)%nat /\ flag w' = true /\ length (phases w') = length (phases w).
Proof.
  intros Hf Hm. pose proof (cancel_via_frame w) as Hc. set (n := length (phases w)).
  assert (Hset : forall (w1 : Machine) i p q, phases w !! i = Some p -> phases w1 = <[i := q]> (phases w) ->
            dog w1 = dog w -> caller w1 = caller w -> (phase_work n q < phase_work n p)%nat -> (work w1 < work w)%nat).
  { intros w1 i p q Hi Hp Hd Hcl Hlt. unfold work. rewrite Hp, Hd, Hcl, length_insert. fold n.
    pose proof (sum_list_set (phase_work n) _ _ _ q Hi). lia. }
  destruct Hm as [[Hh|Hh]|[Hh|Hh]]; destruct Hh; unfold is_over in *;
    try (destruct (Hc k) as (Hcf & Hcp & _ & Hcd & _ & Hcc));
    try (rewrite Hf in * ); try (split; [|by cbn; rewrite ?Hcf, ?Hcp, ?length_insert]).
  all: try (eapply Hset; [done|cbn; rewrite ?Hcp; reflexivity|done|done|]; cbn; try (destruct a); cbn; lia).
  - split; [|by destruct (terminal e); cbn; rewrite ?length_insert].
    destruct (terminal e); (eapply Hset; [done|done|done|done|]); cbn; lia.
  - unfold work. cbn. match goal with H : dog w = _ |- _ => rewrite H end. cbn. lia.
  - unfold work. cbn. rewrite Hcp, Hcc. match goal with H : dog w = _ |- _ => rewrite H end. cbn. lia.
  - unfold work. cbn. match goal with H : dog w = _ |- _ => rewrite H end. cbn. lia.
  - unfold work. cbn. match goal with H : caller w = _ |- _ => rewrite H end. cbn. lia.
  - unfold work. cbn. match goal with H : caller w = _ |- _ => rewrite H end. cbn. lia.
  - unfold work. cbn. match goal with H : caller w = _ |- _ => rewrite H end. cbn. lia.
  - unfold work. cbn. match goal with H : caller w = _ |- _ => rewrite H end. cbn. lia.
  - eapply Hset; [done|done|done|done|]. destruct p as [| |[]| | | | | |]; cbn; try done; lia.
Qed.
Lemma ok_phase w w1 i p q :
  machine_ok w -> phases w !! i = Some p -> (forall e, p <> Over e) -> phases w1 = <[i := q]> (phases w) ->
  (flag w = true -> flag w1 = true) -> length (pendings w1) = length (pendings w) ->
  (forall j, j <> i -> pendings w !! j = Some true -> pendings w1 !! j = Some true) ->
  dog w1 = dog w -> caller w1 = caller w ->
  exits w1 = exits w \/ (exists e, q = Over e /\ exits w1 = exits w ++ [exit_message i e]) ->
  (heading q -> flag w = false \/ (heading p /\ pendings w1 !! i = pendings w !! i)) ->
  machine_ok w1.
Proof.
  intros [H1 H2 H3 H4 H5 H6] Hi Hp Hph Hfl Hlen Hpend Hd Hc Hex Hin.
  assert (Hkeep : forall j e, phases w !! j = Some (Over e) -> phases w1 !! j = Some (Over e)).
  { intros j e Hj. rewrite Hph, list_lookup_insert_ne; [done|]. intros <-. rewrite Hi in Hj. injection Hj as ->. by eapply Hp. }
  assert (Hlt : (i < length (phases w))%nat) by (by eapply lookup_lt_Some).
  split.
  - by rewrite Hlen, Hph, length_insert.
  - rewrite Hd. auto.
  - rewrite Hd, Hph, length_insert. intros j pj Hj Ht Hor. destruct (decide (i = j)) as [<-|Hne].
    + rewrite list_lookup_insert_eq in Hj by done. injection Hj as <-. destruct (Hin Hor) as [Hf|[Hh ->]]; [|by eapply H3].
      rewrite H2 in Hf; [done|]. intros Hw. rewrite Hw in Ht. cbn in Ht. lia.
    + rewrite list_lookup_insert_ne in Hj by done. apply Hpend; [done|]. by eapply H3.
  - intros r Hr. assert (Hold : r ∈ exits w -> exists j e, phases w1 !! j = Some (Over e) /\ r = exit_message j e).
    { intros Hold. destruct (H4 r Hold) as (j & e & Hj & ->). eauto. }
    destruct Hex as [E|(e & -> & E)]; rewrite E in Hr; [auto|].
    apply elem_of_app in Hr as [Hr| ->%list_elem_of_singleton]; [auto|]. exists i, e.
    by rewrite Hph, list_lookup_insert_eq.
  - rewrite Hc. destruct H5 as [?|(j & e & Hj & ?)]; [by left|right; eauto].
  - rewrite Hc, Hd. destruct (caller w); [done|naive_solver..|].
    destruct H6 as (_ & _ & Ho). rewrite Forall_lookup in Ho. destruct (Ho _ _ Hi) as [e ->]. by destruct (Hp e).
Qed.

Ltac phase_step w :=
  eapply (ok_phase w); [eassumption|eassumption|done|reflexivity|..]; cbn; rewrite ?length_insert; try done; try (by left);
    try (by destruct (flag w); [|left]); try (by intros ?; right).

Lemma machine_ok_step w w' : latched = true -> any_step w w' -> machine_ok w -> machine_ok w'.
Proof.
  intros Hl Hs Hok. pose proof Hok as [H1 H2 H3 H4 H5 H6]. pose proof (cancel_via_frame w) as Hc.
  destruct Hs as [[[Hs|Hs]|[Hs|Hs]]|[Hs|Hs]]; destruct Hs; try (destruct (Hc k) as (Hcf & Hcp & Hcl & Hcd & Hce & Hcc)).
  - phase_step w.
  - phase_step w.
  - phase_step w.
  - phase_step w. intros j Hj Ht. by rewrite list_lookup_insert_ne.
  - destruct (terminal e); phase_step w.
  - eapply (ok_phase w); [eassumption|eassumption|done|cbn; rewrite Hcp; reflexivity|..]; cbn; rewrite ?Hcf; try done; [|by left].
    intros j _. apply cancel_via_keeps.
  - phase_step w.
  - phase_step w. right. by eexists.
  - match goal with H : dog w = _ |- _ => rewrite H in H6 end.
    split; cbn; try done; [intros; lia|]. destruct (caller w); naive_solver.
  - split; cbn; rewrite ?Hcp, ?Hcl, ?Hcf, ?Hce, ?Hcc; try done; [by intros _; apply H2; congruence| |].
    + intros i p Hi Ht Hor. destruct (decide (i = k)) as [->|Hne].
      * unfold cancel_via. rewrite Hl. cbn. apply list_lookup_insert_eq. rewrite H1. by eapply lookup_lt_Some.
      * apply cancel_via_keeps. eapply H3; [done| |done]. match goal with H : dog w = _ |- _ => rewrite H end. cbn. lia.
    + match goal with H : dog w = _ |- _ => rewrite H in H6 end. destruct (caller w); naive_solver.
  - split; cbn; try done; [by intros _; apply H2; congruence| |].
    + intros i p Hi Ht Hor. eapply H3; [done| |done]. match goal with H : dog w = _ |- _ => rewrite H end. cbn. lia.
    + match goal with H : dog w = _ |- _ => rewrite H in H6 end. destruct (caller w); naive_solver.
  - match goal with H : caller w = _ |- _ => rewrite H in H5 end. match goal with H : exits w = _ |- _ => rewrite H in H4 end.
    split; cbn; try done; [intros r' Hr; apply H4; by right|]. destruct final; cbn in *; try done.
    destruct (H4 r) as (i & e & Hi & ->); [left|]. right. by exists i, e.
  - match goal with H : caller w = _ |- _ => rewrite H in H5 end. by split; cbn.
  - match goal with H : caller w = _ |- _ => rewrite H in H5, H6 end. split; cbn; try done.
  - match goal with H : caller w = _ |- _ => rewrite H in H5, H6 end. split; cbn; try done. naive_solver.
  - destruct a; phase_step w.
  - phase_step w.
  - phase_step w.
  - eapply (ok_phase w); [eassumption|eassumption|by destruct p|reflexivity|..]; try done; by left.
  - by split.
  - split; cbn; try done. destruct (caller w); naive_solver.
Qed.

Lemma machine_ok_init n t0 : machine_ok (multi_init n t0).
Proof.
  split; cbn; [by rewrite !length_replicate|done|intros; lia|by intros r Hr%elem_of_nil|by left|done].
Qed.

(** *** Progress *)

(** A machine told to stop can move by itself, unless a device has one of its
    threads; and then all that is missing is that the device returns. *)
Lemma host_progress w :
  machine_ok w -> flag w = true -> (forall final, caller w <> Returned final) ->
  (exists w', host_step w w') \/ exists i a, phases w !! i = Some (Inside a).
Proof.
  intros [H1 H2 H3 H4 H5 H6] Hf Hc.
  assert (Hdog : dog w <> WatchdogOver -> exists w', host_step w w').
  { destruct (dog w) as [|k|] eqn:Hd; [|..|done]; intros _.
    - eexists. by apply dog_sees_flag.
    - destruct (decide (k < length (phases w))%nat); eexists; [by apply dog_cancels|apply (dog_ends _ _ _ k); [done|lia]]. }
  assert (Hd : dog w = WatchdogOver \/ dog w <> WatchdogOver) by (destruct (dog w); [by right|by right|by left]).
  destruct Hd as [Hd|Hd]; [|left; by apply Hdog]. clear Hdog.
  assert (Hover : Forall is_over (phases w) \/ exists i p, phases w !! i = Some p /\ ~ is_over p).
  { clear. induction (phases w) as [|p l IH]; [by left|].
    destruct IH as [IH|(i & q & Hi & Hp)]; [|right; by exists (S i), q].
    destruct p; try (right; exists 0%nat; eexists; split; [reflexivity|by intros []]).
    left. constructor; [by eexists|done]. }
  destruct Hover as [Hover|(i & p & Hi & Hp)].
  - left. destruct (caller w) as [[|n] final|final|final|final] eqn:Ecl.
    + eexists. eapply stop_collecting; [done|by left].
    + destruct (exits w) as [|r rest] eqn:Ee; eexists.
      * eapply stop_collecting; [done|]. right. split; [done|by right].
      * by eapply take_exit.
    + eexists. by eapply watchdog_joined.
    + eexists. by eapply vcpus_joined.
    + by destruct (Hc final).
  - destruct p as [|a|a| | |e|k e|e|e]; [|..|by destruct Hp; eexists].
    + left. eexists. by apply check_flag.
    + destruct (inside_or_free (phases w)) as [Hin|Hfree]; [by right|left]. eexists. by apply (lock_devices _ _ _ i a).
    + right. by exists i, a.
    + left. eexists. by apply enter_guest.
    + left. eexists. apply (run_canceled _ _ _ i Hi). eapply H3; [done| |done]. rewrite Hd. cbn. by eapply lookup_lt_Some.
    + left. eexists. by apply leave_loop.
    + left. destruct (decide (k < length (phases w))%nat); eexists; [by eapply tell_other|eapply told_all; [done|lia]].
    + left. eexists. by eapply send_exit.
Qed.

Lemma own_progress w :
  machine_ok w -> flag w = true -> (forall final, caller w <> Returned final) -> exists w', own_step w w'.
Proof.
  intros Hok Hf Hc. destruct (host_progress w Hok Hf Hc) as [[w' Hs]|(i & a & Hi)]; eexists; [left; exact Hs|right].
  by apply device_done.
Qed.

Lemma host_runs_out n w :
  latched = true -> machine_ok w -> flag w = true -> (work w < n)%nat ->
  exists w' final, rtc own_step w w' /\ caller w' = Returned final.
Proof.
  intros Hl. revert w. induction n as [|n IH]; intros w Hok Hf Hn; [lia|].
  destruct (caller w) as [m f|f|f|f] eqn:Hc; [..|by exists w, f];
    (destruct (own_progress w) as [w1 Hs]; [done|done|by rewrite Hc|];
     destruct (move_works w w1 Hf) as (Hw & Hf1 & _); [by left|];
     destruct (IH w1) as (w' & f' & Hr & Hc'); [eapply machine_ok_step; [done|left; by left|done]|done|lia|];
     exists w', f'; split; [by eapply rtc_l|done]).
Qed.

Lemma moves_work k w w' :
  latched = true -> machine_ok w -> flag w = true -> nsteps move k w w' ->
  (k + work w' <= work w)%nat /\ machine_ok w' /\ flag w' = true.
Proof.
  intros Hl Hok Hf Hk. induction Hk as [w|k w w1 w2 Hm _ IH]; [split; [lia|done]|].
  destruct (move_works _ _ Hf Hm) as (Hw & Hf1 & _).
  destruct IH as (Hw1 & ? & ?); [apply (machine_ok_step w); [done|by left|done]|done|]. split; [lia|done].
Qed.

(** *** Machines left alone *)

Lemma undisturbed_phase w w1 i q :
  undisturbed w -> phases w1 = <[i := q]> (phases w) -> canceled_end q -> (flag w = false -> in_loop q) -> flag w1 = flag w ->
  exits w1 = exits w -> caller w1 = caller w -> undisturbed w1.
Proof.
  intros [H1 H2 H3 H4] Hp Hq Hl Hf He Hc. split; rewrite ?Hp, ?He, ?Hc, ?Hf; [by apply Forall_insert|done|done|].
  intros Hfl. destruct (H4 Hfl) as [Hin ->]. split; [apply Forall_insert; auto|done].
Qed.

Ltac undisturbed_at i w Hun :=
  eapply (undisturbed_phase w _ i _ Hun); [reflexivity|..]; cbn; try done.

Lemma undisturbed_step w w' : quiet_step w w' -> undisturbed w -> undisturbed w'.
Proof.
  intros Hs Hun. pose proof Hun as [H1 H2 H3 H4]. pose proof (cancel_via_frame w) as Hc. rewrite Forall_lookup in H1.
  destruct Hs as [[Hs|Hs]|[Hs|Hs]]; destruct Hs; try (destruct (Hc k) as (Hcf & Hcp & Hcl & Hcd & Hce & Hcc));
    try match goal with H : phases w !! ?j = Some _ |- _ => pose proof (H1 _ _ H) as Hend; cbn in Hend; try done end.
  - undisturbed_at i w Hun; by destruct (flag w).
  - undisturbed_at i w Hun.
  - undisturbed_at i w Hun.
  - undisturbed_at i w Hun.
  - subst e. undisturbed_at i w Hun. intros Hf.
    destruct (H4 Hf) as [Hin _]. rewrite Forall_lookup in Hin. by specialize (Hin _ _ H).
  - subst e. assert (Hf : flag w = true).
    { destruct (flag w) eqn:Hf; [done|]. destruct (H4 eq_refl) as [Hin _]. rewrite Forall_lookup in Hin. by specialize (Hin _ _ H). }
    split; cbn; [apply Forall_insert; [by apply Forall_lookup|done]|by apply Forall_app; split; [|constructor]|done|congruence].
  - split; cbn; try done. by apply Forall_lookup.
  - split; cbn; rewrite ?Hcp, ?Hce, ?Hcc, ?Hcf; try done. by apply Forall_lookup.
  - split; cbn; try done. by apply Forall_lookup.
  - rewrite H in H3. cbn in H3. rewrite H0 in H2. apply Forall_cons in H2 as [-> H2]. subst final.
    split; cbn; try done; [by apply Forall_lookup|]. intros Hf. destruct (H4 Hf) as [_ He]. by rewrite He in H0.
  - rewrite H in H3. split; cbn; try done. by apply Forall_lookup.
  - rewrite H in H3. split; cbn; try done. by apply Forall_lookup.
  - rewrite H in H3. split; cbn; try done. by apply Forall_lookup.
  - undisturbed_at i w Hun; by destruct a.
  - undisturbed_at i w Hun.
  - undisturbed_at i w Hun.
  - split; cbn; try done. by apply Forall_lookup.
Qed.

Lemma quiet_deadline w w' : rtc quiet_step w w' -> deadline w' = deadline w.
Proof.
  assert (Hv : forall w k, deadline (cancel_via latched w k) = deadline w) by (intros w0 k; unfold cancel_via; by destruct (latched || _)).
  intros Hs. induction Hs as [|w1 w2 w3 H _ IH]; [done|]. rewrite IH.
  destruct H as [[H|H]|[H|H]]; destruct H; cbn; rewrite ?Hv; try done. by destruct (terminal e).
Qed.

Lemma undisturbed_init n t0 : undisturbed (multi_init n t0).
Proof.
  split; cbn; [by apply Forall_replicate|done|done|]. intros _. split; [by apply Forall_replicate|done].
Qed.

Lemma machine_ok_reachable w w' : latched = true -> rtc any_step w w' -> machine_ok w -> machine_ok w'.
Proof. intros Hl Hs. induction Hs as [|w1 w2 w3 H _ IH]; [done|]. intros Hok. apply IH. by eapply machine_ok_step. Qed.

Lemma quiet_any w w' : quiet_step w w' -> any_step w w'.
Proof. intros [H|[H|H]]; [left; by left|left; right; by left|right; by left]. Qed.

Lemma rtc_impl {A} (R S : relation A) x y : (forall a b, R a b -> S a b) -> rtc R x y -> rtc S x y.
Proof. intros HRS. induction 1 as [|a b c H _ IH]; [apply rtc_refl|]. eapply rtc_l; [by apply HRS|done]. Qed.

Lemma undisturbed_reachable w w' : rtc quiet_step w w' -> undisturbed w -> undisturbed w'.
Proof. intros Hs. induction Hs as [|w1 w2 w3 H _ IH]; [done|]. intros Hu. apply IH. by eapply undisturbed_step. Qed.
End Lemmas.

(** *** One vCPU *)

Section SingleLemmas.
Variable latched : bool.
Notation single_step := (single_step latched).
Notation single_any := (single_any latched).

Lemma single_ok_step w w' : single_any w w' -> single_ok w -> single_ok w'.
Proof.
  intros Hs [H1 H2 H3 H4].
  destruct Hs as [Hs|Hs]; destruct Hs; split; cbn in *; intros; simplify_eq; try done; try congruence; eauto;
    try (match goal with H : s_result w = Some ?r |- _ => destruct (H2 r H) as [? ?]; congruence end).
  - by destruct (s_flag w).
  - by destruct a.
  - match goal with Hr : s_result w = Some ?r, Hm : may_end _ |- _ => destruct (H2 r Hr) as [? E]; by rewrite E in Hm end.
  - destruct (s_result w) as [r|] eqn:Hr; [|done]. destruct (H2 r eq_refl). congruence.
  - match goal with Hr : s_result w = Some (Ok ?r) |- _ => specialize (H3 r Hr) end. congruence.
  - match goal with Hr : s_result w = Some (Ok ?r) |- _ => specialize (H3 r Hr) end. congruence.
  - apply H4. congruence.
  - apply H4. congruence.
Qed.
End SingleLemmas.

(** ** Properties *)

Section Properties.
Variables (latched : bool) (hal_text : HalError -> string).

(** C17: A machine of several vCPUs that is told to stop stops, whatever its guest
    does, unless a device keeps one of its threads: from any state with the flag up,
    at most [work] steps of the guest, the devices and the host's threads can follow,
    and until the machine has returned the host can take one of them by itself,
    without waiting for the guest or the clock, or a thread is inside the code of the
    devices; a machine that has returned has left no thread behind.  The exception is
    real: as long as a device does not give a thread back, the machine does not
    return.  Hypervisors that drop a cancellation meant for a vCPU outside the guest
    are excluded. *)
Theorem stop_terminates n t0 w k w' :
  latched = true -> rtc (any_step latched hal_text) (multi_init n t0) w -> flag w = true ->
  nsteps (move latched hal_text) k w w' ->
  (k <= work w)%nat /\
  match caller w' with
  | Returned _ => dog w' = WatchdogOver /\ Forall is_over (phases w')
  | _ => (exists w'', host_step latched hal_text w' w'') \/ exists i a, phases w' !! i = Some (Inside a)
  end /\
  forall i a w'', phases w' !! i = Some (Inside a) ->
    rtc (fun u v => any_step latched hal_text u v /\ phases v !! i = Some (Inside a)) w' w'' ->
    forall final, caller w'' <> Returned final.
Proof.
  intros Hl Hs Hf Hk. eapply machine_ok_reachable in Hs; [|done|apply machine_ok_init].
  destruct (moves_work latched hal_text k w w' Hl Hs Hf Hk) as (Hw & Hok & Hf'). split; [lia|]. split.
  - pose proof (mo_caller _ _ Hok) as Hcl.
    destruct (caller w') eqn:E; [..|tauto]; apply (host_progress latched hal_text w' Hok Hf'); by rewrite E.
  - intros i a w'' Hi Hr final Hc. assert (Hin : machine_ok hal_text w'' /\ phases w'' !! i = Some (Inside a)).
    { clear Hc Hk Hw Hf'. induction Hr as [u|u v x [Hst Hv] _ IH]; [done|]. apply IH; [exact (machine_ok_step latched hal_text u v Hl Hst Hok)|done]. }
    destruct Hin as [Hok2 Hi2]. pose proof (mo_caller _ _ Hok2) as Hcl. rewrite Hc in Hcl. destruct Hcl as (_ & _ & Hall).
    rewrite Forall_lookup in Hall. by destruct (Hall _ _ Hi2).
Qed.

(** The reason a machine of several vCPUs returns is the reason of a vCPU that
    ended by itself, or [Canceled]; it returns only with the flag raised and all
    its threads over. *)
Theorem multi_vcpu_result n t0 w r :
  latched = true -> rtc (any_step latched hal_text) (multi_init n t0) w -> caller w = Returned r ->
  flag w = true /\ dog w = WatchdogOver /\ Forall is_over (phases w) /\
  (r = Canceled \/ exists i e, phases w !! i = Some (Over e) /\ terminal e = true /\
    r = match e with
        | LoopReturned (Ok reason) => reason
        | LoopReturned (Err x) => Unexpected ("vCPU error: " ++ hal_text x)%string
        | LoopPanicked p => Unexpected ("vCPU " ++ fmt_dec (Z.of_nat i) ++ " panicked: " ++ default "unknown panic" p)%string
        end).
Proof.
  intros Hl Hs Hr. eapply machine_ok_reachable in Hs; [|done|apply machine_ok_init].
  destruct Hs as [_ _ _ _ H5 H6]. rewrite Hr in H5, H6. destruct H6 as (? & ? & ?). split_and!; [done..|].
  destruct H5 as [?|(i & e & Hi & He)]; [by left|]. cbn in He.
  destruct e as [[[]|x]|p]; cbn in He; try (right; exists i; eexists; split_and!; [done|done|by rewrite <- He]). by left.
Qed.

(** A machine of several vCPUs does not outlive three seconds: whatever its guest
    does, short of ending by itself, and with nobody asking it to stop, once the
    clock is past the deadline set when its threads were started the host stops
    it by itself and reports it canceled, as soon as the devices give back the threads
    they have. *)
Theorem multi_vcpu_time_limit n t0 w :
  latched = true -> rtc (quiet_step latched hal_text) (multi_init n t0) w -> t0 + 3000 <= clock w ->
  exists w', rtc (own_step latched hal_text) w w' /\ caller w' = Returned Canceled.
Proof.
  intros Hl Hs Ht.
  assert (Hok : machine_ok hal_text w).
  { eapply machine_ok_reachable; [done| |apply machine_ok_init]. eapply rtc_impl; [|exact Hs]. apply quiet_any. }
  assert (Hun : undisturbed w) by (eapply undisturbed_reachable; [exact Hs|apply undisturbed_init]).
  assert (Hmain : forall w1, machine_ok hal_text w1 -> undisturbed w1 -> flag w1 = true ->
            exists w', rtc (own_step latched hal_text) w1 w' /\ caller w' = Returned Canceled).
  { intros w1 Hok1 Hun1 Hf. destruct (host_runs_out latched hal_text (S (work w1)) w1) as (w' & f & Hr & Hc); [done..|lia|].
    exists w'. split; [done|]. assert (Hu : undisturbed w').
    { eapply undisturbed_reachable; [|exact Hun1]. eapply rtc_impl; [|exact Hr]. by left. }
    apply un_final in Hu. rewrite Hc in Hu. cbn in Hu. by subst f. }
  destruct (flag w) eqn:Hf; [by apply Hmain|].
  pose proof (mo_caller _ _ Hok) as Hcl. destruct (un_flag _ Hun Hf) as [_ He].
  destruct (caller w) as [m final|final|final|final] eqn:Ec; [|naive_solver congruence..].
  assert (Hstep : host_step latched hal_text w (set_flag_up (set_caller w (exits w) (JoiningWatchdog final)))).
  { eapply stop_collecting; [done|]. right. split; [done|left]. by rewrite (quiet_deadline _ _ _ _ Hs). }
  destruct (Hmain (set_flag_up (set_caller w (exits w) (JoiningWatchdog final)))) as (w' & Hr & Hc); [| |done|].
  - eapply machine_ok_step; [done|left; left; by left|done].
  - eapply undisturbed_step; [left; by left|done].
  - exists w'. split; [eapply rtc_l; [by left|done]|done].
Qed.
End Properties.

(** [run_single_vcpu] that returns a reason has stopped its watchdog; one that
    returns an error has not, and nothing but a later request to stop ends it: its
    thread keeps polling, and keeps the partition of its cancel handle alive. *)
Theorem single_vcpu_watchdog latched w r :
  rtc (single_any latched) single_init w -> s_result w = Some r ->
  match r with
  | Ok _ => s_flag w = true /\ s_dog w = WatchdogOver
  | Err _ => s_flag w = false -> forall w', rtc (single_step latched) w w' -> s_dog w' = Watching
  end.
Proof.
  intros Hs Hr. assert (Hok : single_ok w).
  { assert (H0 : single_ok single_init) by (by split). clear Hr. induction Hs as [|w1 w2 w3 H _ IH]; [done|].
    apply IH. by eapply single_ok_step. }
  destruct r as [r|x].
  - pose proof (so_joined _ Hok _ Hr) as Hd. split; [|done]. apply (so_dog _ Hok). by rewrite Hd.
  - intros Hf w' Hs'. destruct (so_result _ Hok _ Hr) as [e He].
    assert (Hd : s_dog w = Watching) by (pose proof (so_dog _ Hok); destruct (s_dog w); [done|naive_solver congruence..]).
    clear Hs Hr Hok. induction Hs' as [w|w w1 w2 H _ IH]; [done|].
    destruct H; cbn in *; try congruence; try (match goal with Hm : may_end _ |- _ => by rewrite He in Hm end); naive_solver congruence.
Qed.

(** One vCPU passed its check of the flag before the request, and the other has been
    canceled before it was. *)
Definition lost_at (e : bool) (p : list Phase) (d : Watchdog) (t : Z) (l : list (result HalError ExitReason)) (c : Collector) : Machine :=
  {| flag := e; clock := t; deadline := 3000; phases := p; pendings := [false; false]; dog := d; exits := l; caller := c |}.

Definition canceled_over : Phase := Over (LoopReturned (Ok Canceled)).

Lemma lost_request hal_text : rtc (any_step false hal_text) (multi_init 2 0) (lost_at true [Entering; InGuest] Watching 0 [] (Collecting 2 Canceled)).
Proof.
  eapply rtc_l; [left; left; left; by eapply (check_flag _ _ _ 0)|cbn].
  eapply rtc_l; [left; left; left; eapply (lock_devices _ _ _ 0); [done|by intros [|[|?]] ?]|cbn].
  eapply rtc_l; [left; left; right; by eapply (device_done _ 0)|cbn].
  eapply rtc_l; [left; left; left; by eapply (check_flag _ _ _ 1)|cbn].
  eapply rtc_l; [left; left; left; eapply (lock_devices _ _ _ 1); [done|by intros [|[|?]] ?]|cbn].
  eapply rtc_l; [left; left; right; by eapply (device_done _ 1)|cbn].
  eapply rtc_l; [left; left; left; by eapply (enter_guest _ _ _ 1)|cbn].
  eapply rtc_l; [right; right; apply request|cbn]. apply rtc_refl.
Qed.

Lemma lost_told hal_text : rtc (any_step false hal_text) (lost_at true [Entering; InGuest] Watching 0 [] (Collecting 2 Canceled))
  (lost_at true [Entering; Looping] WatchdogOver 0 [] (Collecting 2 Canceled)).
Proof.
  eapply rtc_l; [left; left; left; by eapply dog_sees_flag|cbn].
  eapply rtc_l; [left; left; left; eapply (dog_cancels _ _ _ 0); cbn; [done|lia]|cbn].
  eapply rtc_l; [left; left; left; eapply (dog_cancels _ _ _ 1); cbn; [done|lia]|cbn].
  eapply rtc_l; [left; left; left; eapply (dog_ends _ _ _ 2); cbn; [done|lia]|cbn].
  eapply rtc_l; [left; left; left; by eapply (run_canceled _ _ _ 1)|cbn]. apply rtc_refl.
Qed.

Lemma lost_joining hal_text : rtc (any_step false hal_text) (lost_at true [Entering; Looping] WatchdogOver 0 [] (Collecting 2 Canceled))
  (lost_at true [InGuest; canceled_over] WatchdogOver 3000 [] (JoiningVcpus Canceled)).
Proof.
  eapply rtc_l; [left; left; left; by eapply (check_flag _ _ _ 1)|cbn].
  eapply rtc_l; [left; left; left; by eapply (leave_loop _ _ _ 1)|cbn].
  eapply rtc_l; [left; left; left; by eapply (send_exit _ _ _ 1)|cbn].
  eapply rtc_l; [left; left; left; by eapply (enter_guest _ _ _ 0)|cbn].
  eapply rtc_l; [left; left; left; by eapply take_exit|cbn].
  eapply rtc_l; [right; left; apply (tick _ 3000); cbn; lia|cbn].
  eapply rtc_l; [left; left; left; eapply stop_collecting; cbn; [done|right; split; [done|left; vm_compute; done]]|cbn].
  eapply rtc_l; [left; left; left; by eapply watchdog_joined|cbn]. apply rtc_refl.
Qed.

(** The hypothesis is needed: with a hypervisor that drops a cancellation that
    comes between the check of the flag and the entry to the guest, a machine told
    to stop may wait for its guest for ever. *)
Theorem lost_cancel_hangs hal_text :
  exists w, rtc (any_step false hal_text) (multi_init 2 0) w /\ flag w = true /\
    (forall final, caller w <> Returned final) /\ forall w', ~ own_step false hal_text w w'.
Proof.
  eexists. split.
  - transitivity (lost_at true [Entering; InGuest] Watching 0 [] (Collecting 2 Canceled)); [apply lost_request|].
    transitivity (lost_at true [Entering; Looping] WatchdogOver 0 [] (Collecting 2 Canceled)); [apply lost_told|apply lost_joining].
  - split; [done|]. split; [done|]. intros w' [Hs|Hs]; [|by inversion Hs as [[|[|i]] a Hi]; cbn in Hi; simplify_eq].
    inversion Hs as
      [i Hi|i a Hi ?|i Hi|i Hi Hp|i e Hi|i k e Hi ?|i k e Hi ?|i e Hi|Hd|k Hd ?|k Hd ?|n f r rest Hc|n f Hc|f Hc|f Hc Hall]; subst;
      try done; try (destruct i as [|[|i]]; cbn in Hi; simplify_eq; try done; fail).
    cbn in Hall. apply Forall_cons in Hall as [[e He] _]. done.
Qed.

(** ** Witnesses *)

Definition no_text (e : HalError) : string := "".

(** Two vCPUs; the first halts, or is kept by a device while the flag is up. *)
Definition two : Machine := multi_init 2 0.
Definition polling : Machine := set_phase (set_phase two 0 (Waiting Polling)) 0 (Inside Polling).
Definition halted : Machine :=
  set_flag_up (set_phase (set_phase polling 0 (Leaving (LoopReturned (Ok Halt)))) 0 (TellingOthers 0 (LoopReturned (Ok Halt)))).
Definition kept : Machine := set_flag_up polling.

Lemma polling_reachable : rtc (any_step true no_text) two polling.
Proof.
  eapply rtc_l; [left; left; left; by apply (check_flag _ _ two 0)|]. apply rtc_once. left; left; left.
  apply (lock_devices _ _ _ 0); [done|]. by intros [|[|?]] ?.
Qed.

Lemma halted_reachable : rtc (any_step true no_text) two halted.
Proof.
  transitivity polling; [exact polling_reachable|].
  eapply rtc_l; [left; right; right; by eapply (loop_ends _ 0 (LoopReturned (Ok Halt)) (Inside Polling))|].
  apply rtc_once. left; left; left. by apply (leave_loop _ _ _ 0 (LoopReturned (Ok Halt))).
Qed.

Lemma kept_reachable : rtc (any_step true no_text) two kept.
Proof. transitivity polling; [exact polling_reachable|]. apply rtc_once. right; right. apply request. Qed.

Lemma stop_terminates_witness :
  (exists w', nsteps (move true no_text) 1 halted w' /\ (1 <= work halted)%nat /\
     ((exists w'', host_step true no_text w' w'') \/ exists i a, phases w' !! i = Some (Inside a))) /\
  (forall w'' final, rtc (fun u v => any_step true no_text u v /\ phases v !! 0%nat = Some (Inside Polling)) kept w'' -> caller w'' <> Returned final).
Proof.
  split.
  - exists (set_dog halted (CancelingAll 0)).
    assert (Hk : nsteps (move true no_text) 1 halted (set_dog halted (CancelingAll 0))).
    { eapply nsteps_l; [left; left; by apply dog_sees_flag|apply nsteps_O]. }
    split; [exact Hk|].
    destruct (stop_terminates true no_text 2 0 halted 1 _ eq_refl halted_reachable eq_refl Hk) as (H1 & H2 & _).
    split; [exact H1|exact H2].
  - intros w'' final Hr.
    exact (proj2 (proj2 (stop_terminates true no_text 2 0 kept 0 kept eq_refl kept_reachable eq_refl (nsteps_O _ _))) 0%nat Polling w'' eq_refl Hr final).
Defined.

Lemma multi_vcpu_result_witness :
  exists w r, rtc (any_step true no_text) two w /\ caller w = Returned r /\ flag w = true /\ dog w = WatchdogOver.
Proof.
  destruct (host_runs_out true no_text (S (work halted)) halted) as (w & r & Hs & Hc);
    [done|exact (machine_ok_reachable true no_text two halted eq_refl halted_reachable (machine_ok_init no_text 2 0))|done|lia|].
  assert (Hr : rtc (any_step true no_text) two w).
  { transitivity halted; [exact halted_reachable|]. eapply rtc_impl; [|exact Hs]. intros a b H. left; by left. }
  exists w, r. split; [exact Hr|]. split; [exact Hc|].
  destruct (multi_vcpu_result true no_text 2 0 w r eq_refl Hr Hc) as (Hf & Hd & _). split; [exact Hf|exact Hd].
Defined.

Lemma multi_vcpu_time_limit_witness :
  exists w', rtc (own_step true no_text) (set_clock two 3000) w' /\ caller w' = Returned Canceled.
Proof.
  apply (multi_vcpu_time_limit true no_text 2 0 (set_clock two 3000)); [reflexivity| |cbn; lia].
  apply rtc_once. right; right. apply tick. cbn. lia.
Defined.

Definition failed_single : Single :=
  {| s_flag := false; s_phase := Over (LoopReturned (Err (VcpuRun "no"))); s_pending := false; s_dog := Watching;
     s_result := Some (Err (VcpuRun "no")) |}.

Lemma single_vcpu_watchdog_witness : forall w', rtc (single_step true) failed_single w' -> s_dog w' = Watching.
Proof.
  refine (single_vcpu_watchdog true failed_single (Err (VcpuRun "no")) _ eq_refl eq_refl).
  eapply rtc_l; [left; by apply single_checks|]. eapply rtc_l; [left; by apply (single_locks _ _ Polling)|]. eapply rtc_l; [left; by apply (single_device _ _ Polling)|].
  eapply rtc_l; [left; by apply single_enters|].
  eapply rtc_l; [left; apply (single_ends _ _ (LoopReturned (Err (VcpuRun "no")))); [exact I|reflexivity]|].
  apply rtc_once. left. by apply single_fails.
Defined.
