(* ===== verification/Machine.v ===== *)
(** * The machine: devices, vCPUs and the run

    [setup_devices] and [boot_and_run] of [hitz-vmm/src/vm.rs]: the bus with its
    three kinds of device, the partition and its vCPUs, and, for one vCPU, the
    run loop over them.  The hypervisor, the disk file, the network adapter and
    the serial port are the environment; [HypervisorLaws] says what is documented of
    the hypervisor: a vCPU is numbered, sees the memory that was mapped before it was
    made, and keeps the special registers it was given. *)

From Stdlib Require Import String Ascii.
From stdpp Require Import gmap strings.
From S2P Require Import Prelude Hal Memory Queue Bus Transport Block Net Vsock MmioDecode.
From S2P Require Import RunLoop PageTables Cpio Loader BootParams Acpi BootRegs Ethernet Config VmSetup.

(** ** The devices on the bus *)

(** [Box<dyn MmioDevice>]: what [setup_devices] registers. *)
Inductive MachineDevice :=
| DiskDevice (t : VirtioMmioTransport VirtioBlockDevice)
| NetDevice (t : VirtioMmioTransport VirtioNetDevice)
| VsockDevice (t : VirtioMmioTransport VirtioVsockDevice).

Section Dispatch.
Context {M : Type} `{GuestMemAccess M}.

Definition machine_read (d : MachineDevice) (offset : Z) (data : list Z) : MachineDevice * list Z :=
  match d with
  | DiskDevice t => let '(t, r) := dev_mmio_read (M := M) t offset data in (DiskDevice t, r)
  | NetDevice t => let '(t, r) := dev_mmio_read (M := M) t offset data in (NetDevice t, r)
  | VsockDevice t => let '(t, r) := dev_mmio_read (M := M) t offset data in (VsockDevice t, r)
  end.

Definition machine_write (fuel : nat) (d : MachineDevice) (mem : M) (offset : Z) (data : list Z) :
    result Stop (MachineDevice * M * option Z) :=
  match d with
  | DiskDevice t => '(t, m, irq) ← dev_mmio_write fuel t mem offset data; Ok (DiskDevice t, m, irq)
  | NetDevice t => '(t, m, irq) ← dev_mmio_write fuel t mem offset data; Ok (NetDevice t, m, irq)
  | VsockDevice t => '(t, m, irq) ← dev_mmio_write fuel t mem offset data; Ok (VsockDevice t, m, irq)
  end.

Definition machine_poll (d : MachineDevice) (mem : M) : MachineDevice * M * option Z :=
  match d with
  | DiskDevice t => let '(t, m, irq) := dev_poll_rx t mem in (DiskDevice t, m, irq)
  | NetDevice t => let '(t, m, irq) := dev_poll_rx t mem in (NetDevice t, m, irq)
  | VsockDevice t => let '(t, m, irq) := dev_poll_rx t mem in (VsockDevice t, m, irq)
  end.

#[export] Instance machine_device : MmioDevice MachineDevice M := {
  dev_mmio_read := machine_read;
  dev_mmio_write := machine_write;
  dev_poll_rx := machine_poll;
}.
End Dispatch.

(** ** The hypervisor *)

(** [Hypervisor] and [Partition]; [PartitionMap] is [map_memory]. *)
Class Hypervisor (H P V : Type) := {
  create_partition : H -> Z -> Z -> result HalError P;
  create_vcpu : P -> Z -> result HalError (P * V);
}.

(** ** Devices *)

Section Devices.
Variable overflow_checks : bool.
(** [fs::File::open], which opens for reading, and [start_net_io]; the seed of a
    random MAC. *)
Variables (open_disk : string -> result string File)
          (start_net_io : string -> string -> list Z -> list Z -> list Z -> result string unit) (mac_seed : Z).

Definition register_at (bus : @MmioBus MachineDevice) (base : Z) (d : MachineDevice) : Setup (@MmioBus MachineDevice) :=
  fun m => match Bus.register overflow_checks bus base VIRTIO_MMIO_SIZE d with
           | Ok bus' => Some (Ok bus', m)
           | Err _ => None
           end.

Definition setup_disk (c : VmConfig) (bus : @MmioBus MachineDevice) : Setup (@MmioBus MachineDevice) :=
  match disk_path c with
  | None => mret bus
  | Some path =>
      f ← lift (map_err VmIo (open_disk path));
      d ← lift (ok_or (block_new f) (VmIo "metadata"));
      register_at bus VIRTIO_MMIO_BASE (DiskDevice (transport_new (M := GuestMemory) d VIRTIO_IRQ_BASE))
  end.

Definition gateway_mac : list Z := [0xAA; 0xBB; 0xCC; 0; 0; 1].

(** The bus, and whether there is a [NetIoHandle]. *)
Definition setup_net (c : VmConfig) (bus : @MmioBus MachineDevice) : Setup (@MmioBus MachineDevice * bool) :=
  match net c with
  | None => mret (bus, false)
  | Some n =>
      guest_mac ← (match net_mac n with
                   | Some s => lift (map_err VmConfigErr (parse_mac s))
                   | None => mret (random_mac mac_seed)
                   end);
      gateway ← lift (map_err VmConfigErr (parse_cidr (host_ip n)));
      bus ← register_at bus (VIRTIO_MMIO_BASE + VIRTIO_MMIO_SIZE)
              (NetDevice (transport_new (M := GuestMemory) (net_new guest_mac) VIRTIO_IRQ_NET));
      _ ← lift (map_err (fun e => VmConfigErr ("network setup: " ++ e)%string)
              (start_net_io (default "hitz-net"%string (adapter_name n)) (host_ip n) guest_mac gateway_mac gateway.1));
      mret (bus, true)
  end.

(** [extras]: the packets in the receiving channel and the room of the other. *)
Definition setup_vsock (c : VmConfig) (extras : option (list VsockPacket * option nat)) (bus : @MmioBus MachineDevice) :
    Setup (@MmioBus MachineDevice) :=
  match extras with
  | None => mret bus
  | Some (rx, room) =>
      register_at bus (VIRTIO_MMIO_BASE + VIRTIO_MMIO_SIZE * 2)
        (VsockDevice (transport_new (M := GuestMemory) (with_channels (Config.guest_cid c) rx room) VIRTIO_IRQ_VSOCK))
  end.

Definition setup_devices (c : VmConfig) (extras : option (list VsockPacket * option nat)) :
    Setup (@MmioBus MachineDevice * bool) :=
  bus ← setup_disk c bus_new;
  '(bus, net_io) ← setup_net c bus;
  bus ← setup_vsock c extras bus;
  mret (bus, net_io).

End Devices.

(** ** Booting *)

Section Boot.
Context `{HostAlloc} {Hv P V : Type} `{Hypervisor Hv P V} `{PartitionMap P} `{Vcpu V} `{VcpuSregs V}.
Variables (overflow_checks : bool) (read_file : string -> result string (list Z))
          (path_exists : string -> bool) (is_separator : ascii -> bool)
          (open_disk : string -> result string File)
          (start_net_io : string -> string -> list Z -> list Z -> list Z -> result string unit) (mac_seed : Z).
Variable hv : Hv.

Definition hal_call {A} (r : result HalError A) : Setup A := lift (map_err VmHal r).

(** [map_to_partition(&mut partition, READ_WRITE_EXEC)?]. *)
Definition map_ram (part : P) : Setup P := fun m =>
  match map_to_partition m part READ_WRITE_EXEC with
  | (Ok _, part') => Some (Ok part', m)
  | (Err e, _) => Some (Err (VmMem e), m)
  end.

Definition configure_first (vcpu : V) (pml4_gpa entry_point : Z) : Setup V :=
  let '(r, vcpu) := configure_sregs vcpu pml4_gpa in
  _ ← hal_call r;
  let '(r, vcpu) := configure_regs vcpu entry_point BOOT_PARAMS_GPA in
  _ ← hal_call r;
  mret vcpu.

(** [for i in 0..config.cpus]: [count] vCPUs from the [i]-th on. *)
Fixpoint create_vcpus (count : nat) (i : Z) (part : P) (pml4_gpa entry_point : Z) : Setup (list V) :=
  match count with
  | O => mret []
  | S count' =>
      '(part, vcpu) ← hal_call (create_vcpu part i);
      vcpu ← (if i =? 0 then configure_first vcpu pml4_gpa entry_point else mret vcpu);
      vcpus ← create_vcpus count' (i + 1) part pml4_gpa entry_point;
      mret (vcpu :: vcpus)
  end.

(** Steps 1 to 13 of [boot_and_run]: what is ready when the vCPUs start. *)
Definition boot (c : VmConfig) (extras : option (list VsockPacket * option nat)) :
    Setup (list V * @MmioBus MachineDevice) :=
  let has_vsock := bool_decide (is_Some extras) in
  _ ← lift (validate_config path_exists is_separator c);
  pml4_gpa ← setup_guest_memory overflow_checks read_file c (ram_bytes_of c) (gib_count_of c);
  _ ← build_kernel_cmdline c has_vsock;
  _ ← mem_call write_gdt;
  part ← hal_call (create_partition hv (cpus c) (ram_mib c));
  part ← map_ram part;
  kernel_bytes ← fs_read read_file (kernel_path c);
  load_result ← boot_call (load_elf overflow_checks kernel_bytes);
  vcpus ← create_vcpus (Z.to_nat (cpus c)) 0 part pml4_gpa (entry_point load_result);
  '(bus, _) ← setup_devices overflow_checks open_disk start_net_io mac_seed c extras;
  mret (vcpus, bus).

(** [boot_and_run] of a machine of one vCPU, the run bounded by [fuel] turns; the
    threads of a larger one are in [VmThreads]. *)
Inductive BootOutcome {U : Type} :=
| BootPanicked
| BootFailed (e : VmError)
| RanLoop (r : option (result LoopErr ExitReason * LoopState V U MachineDevice GuestMemory))
| RunsThreads (vcpus : list V).
#[global] Arguments BootOutcome : clear implicits.

Definition boot_and_run {U} `{Uart U} (dev_fuel fuel : nat) (stop_flag : nat -> bool) (serial : U)
    (c : VmConfig) (extras : option (list VsockPacket * option nat)) : BootOutcome U :=
  match boot c extras guest_memory_new with
  | None => BootPanicked
  | Some (Err e, _) => BootFailed e
  | Some (Ok ([vcpu], bus), mem) =>
      RanLoop (run_vcpu_loop overflow_checks dev_fuel fuel stop_flag 0 (loop_init vcpu serial bus mem))
  | Some (Ok (vcpus, _), _) => RunsThreads vcpus
  end.

End Boot.

(** ** Specification *)

(** The slots of the bus, in the order of their addresses. *)
Definition disk_slot (d : VirtioBlockDevice) : MmioSlot :=
  {| slot_base := 0xD0000000; slot_size := 0x1000; slot_device := DiskDevice (transport_new (M := GuestMemory) d 5) |}.
Definition net_slot (mac : list Z) : MmioSlot :=
  {| slot_base := 0xD0001000; slot_size := 0x1000;
     slot_device := NetDevice (transport_new (M := GuestMemory) (net_new mac) 6) |}.
Definition vsock_slot (cid : Z) (e : list VsockPacket * option nat) : MmioSlot :=
  {| slot_base := 0xD0002000; slot_size := 0x1000;
     slot_device := VsockDevice (transport_new (M := GuestMemory) (with_channels cid e.1 e.2) 7) |}.

(** What the configuration asks of the host. *)
Record devices_available (open_disk : string -> result string File)
    (start_net_io : string -> string -> list Z -> list Z -> list Z -> result string unit) (seed : Z)
    (c : VmConfig) (disk : option VirtioBlockDevice) (mac : option (list Z)) : Prop := {
  da_disk :
    match disk_path c, disk with
    | None, None => True
    | Some path, Some d => exists f, open_disk path = Ok f /\ block_new f = Some d
    | _, _ => False
    end;
  da_net :
    match net c, mac with
    | None, None => True
    | Some n, Some m =>
        match net_mac n with Some s => parse_mac s = Ok m | None => m = random_mac seed end /\
        exists gw, parse_cidr (host_ip n) = Ok gw /\
          start_net_io (default "hitz-net"%string (adapter_name n)) (host_ip n) m [0xAA; 0xBB; 0xCC; 0; 0; 1] gw.1 = Ok tt
    | _, _ => False
    end;
}.

Definition machine_slots (c : VmConfig) (disk : option VirtioBlockDevice) (mac : option (list Z))
    (extras : option (list VsockPacket * option nat)) : list (@MmioSlot MachineDevice) :=
  option_list (disk_slot <$> disk) ++ option_list (net_slot <$> mac) ++
  option_list (vsock_slot (Config.guest_cid c) <$> extras).

(** A hypervisor none of whose calls fails. *)
Class WorkingHypervisor (Hv P V : Type) `{Hypervisor Hv P V} `{PartitionMap P} `{Vcpu V} `{VcpuSregs V} := {
  partition_created : forall (hv : Hv) n mib, is_ok (create_partition hv n mib : result HalError P) = true;
  memory_mapped : forall (p : P) g h s f, is_ok (map_memory p g h s f) = true;
  vcpu_created : forall (p : P) i, is_ok (create_vcpu p i : result HalError (P * V)) = true;
  sregs_set : forall (v : V) s, is_ok (set_sregs v s).1 = true;
  regs_set : forall (v : V) r, is_ok (set_regs v r).1 = true;
}.

(** What is documented of a hypervisor: a partition has the memory mapped into it,
    its vCPUs see that memory and have the number they were created with, and keep
    the registers they are given. *)
Definition Mapping : Type := Z * ptr * Z * MemFlags.

Class HypervisorLaws (Hv P V : Type) `{Hypervisor Hv P V} `{PartitionMap P} `{Vcpu V} `{VcpuSregs V} := {
  mapped : P -> list Mapping;
  seen : V -> list Mapping;
  number : V -> Z;
  sregs_of : V -> option SpecialRegs;
  partition_law (hv : Hv) n mib (p : P) : create_partition hv n mib = Ok p -> mapped p = [];
  mapping_law (p : P) g h s f p' : map_memory p g h s f = Ok p' -> mapped p' = mapped p ++ [(g, h, s, f)];
  vcpu_law (p : P) i p' (v : V) : create_vcpu p i = Ok (p', v) -> mapped p' = mapped p /\ seen v = mapped p /\ number v = i;
  sregs_law (v : V) s v' : set_sregs v s = (Ok tt, v') -> sregs_of v' = Some s /\ seen v' = seen v /\ number v' = number v;
  regs_law (v : V) r v' : set_regs v r = (Ok tt, v') -> sregs_of v' = sregs_of v /\ seen v' = seen v /\ number v' = number v;
}.

(** Every region of the memory, readable, writable and executable. *)
Definition whole_memory (m : GuestMemory) : list Mapping :=
  (fun r => (gpa_start r, hva r, region_size r, READ_WRITE_EXEC)) <$> regions m.

(** The processor as the boot protocol wants it: in 64-bit mode with its tables and
    descriptors, at the kernel's entry, the zero page's address in RSI, interrupts
    off. *)
Definition protocol_regs (entry : Z) (rs : StandardRegs) : Prop :=
  rip rs = entry /\ rsi rs = 0x7000 /\ Z.testbit (rflags rs) 9 = false.

Definition protocol_sregs (m : GuestMemory) (s : SpecialRegs) : Prop :=
  in_long_mode s = true /\ cr3 s = 0x8000 /\ gdt_loads m s.

(** ** Lemmas *)

(** Each window ends before the next begins. *)
Lemma register_disk oc d m : register_at oc bus_new VIRTIO_MMIO_BASE (DiskDevice (transport_new (M := GuestMemory) d VIRTIO_IRQ_BASE)) m =
  Some (Ok {| slots := [disk_slot d] |}, m).
Proof. by destruct oc. Qed.

Lemma register_net oc disk mac m :
  register_at oc {| slots := option_list (disk_slot <$> disk) |} (VIRTIO_MMIO_BASE + VIRTIO_MMIO_SIZE)
    (NetDevice (transport_new (M := GuestMemory) (net_new mac) VIRTIO_IRQ_NET)) m =
  Some (Ok {| slots := option_list (disk_slot <$> disk) ++ [net_slot mac] |}, m).
Proof. by destruct oc, disk. Qed.

Lemma register_vsock oc disk mac cid e m :
  register_at oc {| slots := option_list (disk_slot <$> disk) ++ option_list (net_slot <$> mac) |}
    (VIRTIO_MMIO_BASE + VIRTIO_MMIO_SIZE * 2)
    (VsockDevice (transport_new (M := GuestMemory) (with_channels cid e.1 e.2) VIRTIO_IRQ_VSOCK)) m =
  Some (Ok {| slots := option_list (disk_slot <$> disk) ++ option_list (net_slot <$> mac) ++ [vsock_slot cid e] |}, m).
Proof. by destruct oc, disk, mac. Qed.

Section Lemmas.
Variables (overflow_checks : bool) (open_disk : string -> result string File)
          (start_net_io : string -> string -> list Z -> list Z -> list Z -> result string unit) (mac_seed : Z).
Notation setup_devices := (setup_devices overflow_checks open_disk start_net_io mac_seed).

Lemma setup_disk_cases c m :
  (exists e, setup_disk overflow_checks open_disk c bus_new m = Some (Err e, m)) \/
  exists disk, setup_disk overflow_checks open_disk c bus_new m = Some (Ok {| slots := option_list (disk_slot <$> disk) |}, m).
Proof.
  unfold setup_disk. destruct (disk_path c) as [path|]; [|right; by exists None].
  destruct (open_disk path) as [f|e] eqn:Ef; [|left; by eexists].
  erewrite setup_bind_run by (by apply lift_run).
  destruct (block_new f) as [d|] eqn:Ed; [|left; by eexists].
  erewrite setup_bind_run by (by apply lift_run). right. exists (Some d). apply register_disk.
Qed.

Lemma setup_net_cases c disk m :
  let bus := {| slots := option_list (disk_slot <$> disk) |} in
  (exists e, setup_net overflow_checks start_net_io mac_seed c bus m = Some (Err e, m)) \/
  exists mac, setup_net overflow_checks start_net_io mac_seed c bus m =
    Some (Ok ({| slots := option_list (disk_slot <$> disk) ++ option_list (net_slot <$> mac) |}, bool_decide (is_Some (net c))), m).
Proof.
  cbv zeta. unfold setup_net. destruct (net c) as [n|]; [|right; exists None; by rewrite app_nil_r].
  set (get := match net_mac n with Some s => _ | None => _ end).
  assert (Hget : (exists e, get m = Some (Err e, m)) \/ exists mac, get m = Some (Ok mac, m)).
  { unfold get. destruct (net_mac n) as [s|]; [|right; by eexists]. unfold lift. destruct (parse_mac s); [right|left]; by eexists. }
  destruct Hget as [[e E]|[mac E]]; [left; exists e; unfold mbind at 1, setup_bind; by rewrite E|].
  rewrite (setup_bind_run _ _ _ _ _ E). clear E get.
  destruct (parse_cidr (host_ip n)) as [gw|e] eqn:Eg; [|left; by eexists].
  erewrite setup_bind_run by (apply lift_run; reflexivity).
  erewrite setup_bind_run by (apply register_net).
  destruct (start_net_io _ _ _ _ _) as [[]|e] eqn:En; [|left; by eexists].
  erewrite setup_bind_run by (apply lift_run; reflexivity). right. by exists (Some mac).
Qed.

Lemma setup_vsock_run c extras disk mac m :
  setup_vsock overflow_checks c extras {| slots := option_list (disk_slot <$> disk) ++ option_list (net_slot <$> mac) |} m =
  Some (Ok {| slots := machine_slots c disk mac extras |}, m).
Proof.
  unfold setup_vsock, machine_slots. destruct extras as [[rx room]|]; [|cbn; by rewrite app_nil_r].
  exact (register_vsock overflow_checks disk mac (Config.guest_cid c) (rx, room) m).
Qed.

Lemma setup_devices_cases c extras m :
  (exists e, setup_devices c extras m = Some (Err e, m)) \/
  exists disk mac, setup_devices c extras m =
    Some (Ok ({| slots := machine_slots c disk mac extras |}, bool_decide (is_Some (net c))), m).
Proof.
  unfold Machine.setup_devices.
  destruct (setup_disk_cases c m) as [[e E]|[disk E]]; [left; exists e; unfold mbind at 1, setup_bind; by rewrite E|].
  rewrite (setup_bind_run _ _ _ _ _ E).
  destruct (setup_net_cases c disk m) as [[e En]|[mac En]]; [left; exists e; unfold mbind at 1, setup_bind; by rewrite En|].
  rewrite (setup_bind_run _ _ _ _ _ En). cbv beta iota.
  rewrite (setup_bind_run _ _ _ _ _ (setup_vsock_run c extras disk mac m)). right. by exists disk, mac.
Qed.

Lemma setup_devices_run c extras disk mac m :
  devices_available open_disk start_net_io mac_seed c disk mac ->
  setup_devices c extras m =
    Some (Ok ({| slots := machine_slots c disk mac extras |}, bool_decide (is_Some (net c))), m).
Proof.
  intros [Hd Hn]. unfold Machine.setup_devices.
  assert (E : setup_disk overflow_checks open_disk c bus_new m = Some (Ok {| slots := option_list (disk_slot <$> disk) |}, m)).
  { unfold setup_disk. destruct (disk_path c) as [path|], disk as [d|]; try done. destruct Hd as (f & Hf & Hb).
    erewrite setup_bind_run by (apply lift_run; by rewrite Hf). erewrite setup_bind_run by (apply lift_run; by rewrite Hb).
    apply register_disk. }
  rewrite (setup_bind_run _ _ _ _ _ E).
  assert (En : setup_net overflow_checks start_net_io mac_seed c {| slots := option_list (disk_slot <$> disk) |} m =
    Some (Ok ({| slots := option_list (disk_slot <$> disk) ++ option_list (net_slot <$> mac) |}, bool_decide (is_Some (net c))), m)).
  { unfold setup_net. destruct (net c) as [n|], mac as [mac|]; try done; [|by rewrite app_nil_r].
    destruct Hn as (Hm & gw & Hg & Hs). destruct (net_mac n) as [s|].
    - erewrite setup_bind_run by (apply lift_run; by rewrite Hm). erewrite setup_bind_run by (apply lift_run; by rewrite Hg).
      erewrite setup_bind_run by (apply register_net). erewrite setup_bind_run by (apply lift_run; unfold gateway_mac; by rewrite Hs). done.
    - subst mac. erewrite setup_bind_run by reflexivity. erewrite setup_bind_run by (apply lift_run; by rewrite Hg).
      erewrite setup_bind_run by (apply register_net). erewrite setup_bind_run by (apply lift_run; unfold gateway_mac; by rewrite Hs). done. }
  rewrite (setup_bind_run _ _ _ _ _ En). cbv beta iota.
  by rewrite (setup_bind_run _ _ _ _ _ (setup_vsock_run c extras disk mac m)).
Qed.

Lemma machine_slots_wf c disk mac extras : bus_wf {| slots := machine_slots c disk mac extras |}.
Proof.
  unfold machine_slots, bus_wf, sorted_by, slot_ok, slots_disjoint, disjoint_range.
  destruct disk as [d|], mac as [a|], extras as [e|]; cbn; split_and!;
    try (repeat constructor; cbn; lia); try (apply NoDup_ListNoDup; repeat constructor; cbn; lia);
    try (intros s1 s2; rewrite ?elem_of_cons, ?elem_of_nil; intros H1 H2 Hne;
         repeat match goal with H : _ \/ _ |- _ => destruct H | H : False |- _ => destruct H end; subst; cbn in *; lia).
Qed.
End Lemmas.

(** *** Booting *)

Section BootLemmas.
Context `{HostAllocLaws} {Hv P V : Type} `{WorkingHypervisor Hv P V} `{!HypervisorLaws Hv P V} `{!VcpuLaws V}.
Variables (overflow_checks : bool) (read_file : string -> result string (list Z))
          (path_exists : string -> bool) (is_separator : ascii -> bool)
          (open_disk : string -> result string File)
          (start_net_io : string -> string -> list Z -> list Z -> list Z -> result string unit) (mac_seed : Z).
Variable hv : Hv.

Lemma map_ram_run (part : P) m : exists part', map_ram part m = Some (Ok part', m) /\
  mapped (Hv := Hv) (V := V) part' = mapped (Hv := Hv) (V := V) part ++ whole_memory m.
Proof.
  unfold map_ram, map_to_partition, whole_memory. revert part. induction (regions m) as [|r rs IH]; intros part.
  { exists part. by rewrite app_nil_r. }
  cbn [map_regions]. pose proof (memory_mapped part (gpa_start r) (hva r) (region_size r) READ_WRITE_EXEC) as Hm.
  destruct (map_memory part _ _ _ _) as [p1|e] eqn:E; [|done]. destruct (IH p1) as (part' & E' & Hp). exists part'. split; [done|].
  rewrite Hp, (mapping_law (Hv := Hv) (V := V) _ _ _ _ _ _ E), <- (assoc_L (++)). done.
Qed.

Lemma configure_first_run (v : V) pml4 entry m :
  exists v', configure_first v pml4 entry m = Some (Ok v', m) /\ get_regs v' = Ok (boot_std_regs entry BOOT_PARAMS_GPA) /\
    sregs_of (Hv := Hv) (P := P) v' = Some (boot_sregs pml4) /\ seen (Hv := Hv) (P := P) v' = seen (Hv := Hv) (P := P) v /\
    number (Hv := Hv) (P := P) v' = number (Hv := Hv) (P := P) v.
Proof.
  unfold configure_first, configure_sregs, configure_regs.
  pose proof (sregs_set v (boot_sregs pml4)) as Hs. destruct (set_sregs v _) as [[[]|e] v1] eqn:E1; [|done].
  apply (sregs_law (Hv := Hv) (P := P)) in E1 as (S1 & S2 & S3).
  pose proof (regs_set v1 (boot_std_regs entry BOOT_PARAMS_GPA)) as Hr.
  erewrite setup_bind_run by (apply lift_run; reflexivity).
  destruct (set_regs v1 _) as [[[]|e] v2] eqn:E; [|done]. pose proof E as E2. apply (regs_law (Hv := Hv) (P := P)) in E2 as (R1 & R2 & R3).
  erewrite setup_bind_run by (apply lift_run; reflexivity). exists v2. split_and!; [done|by eapply get_set_regs|congruence..].
Qed.

Lemma create_vcpus_run n i (part : P) pml4 entry m :
  exists vs, create_vcpus n i part pml4 entry m = Some (Ok vs, m) /\ length vs = n /\
    (forall k v, vs !! k = Some v -> number (Hv := Hv) (P := P) v = i + Z.of_nat k /\
       seen (Hv := Hv) (P := P) v = mapped (Hv := Hv) (V := V) part) /\
    (i = 0 -> forall v, head vs = Some v -> get_regs v = Ok (boot_std_regs entry BOOT_PARAMS_GPA) /\
       sregs_of (Hv := Hv) (P := P) v = Some (boot_sregs pml4)).
Proof.
  revert i part. induction n as [|n IH]; intros i part; [by exists []|]. cbn [create_vcpus].
  pose proof (vcpu_created (V := V) part i) as Hc. destruct (create_vcpu part i) as [[part' v]|e] eqn:E; [|done].
  apply vcpu_law in E as (M1 & M2 & M3).
  erewrite setup_bind_run by (apply lift_run; reflexivity). cbv beta iota.
  destruct (IH (i + 1) part') as (vs & Evs & Hlen & Hall & _).
  assert (Hrest : forall v0, seen (Hv := Hv) (P := P) v0 = seen (Hv := Hv) (P := P) v ->
            number (Hv := Hv) (P := P) v0 = number (Hv := Hv) (P := P) v -> forall k x, (v0 :: vs) !! k = Some x ->
            number (Hv := Hv) (P := P) x = i + Z.of_nat k /\ seen (Hv := Hv) (P := P) x = mapped (Hv := Hv) (V := V) part).
  { intros v0 S0 N0 [|k] x Hk; cbn in Hk.
    - injection Hk as <-. rewrite S0, N0, M2, M3. split; [lia|done].
    - destruct (Hall k x Hk) as [-> ->]. split; [lia|done]. }
  destruct (i =? 0) eqn:Ei.
  - destruct (configure_first_run v pml4 entry m) as (v' & Ev & Hv' & Hs' & Se & Nu). rewrite (setup_bind_run _ _ _ _ _ Ev).
    rewrite (setup_bind_run _ _ _ _ _ Evs). exists (v' :: vs). split_and!; [done|cbn; by rewrite Hlen|by apply Hrest|].
    by intros _ v0 [= <-].
  - erewrite setup_bind_run by reflexivity. rewrite (setup_bind_run _ _ _ _ _ Evs). exists (v :: vs).
    split_and!; [done|cbn; by rewrite Hlen|by apply Hrest|]. intros ->. done.
Qed.

Lemma setup_bind_inv {A B} (s : Setup A) (f : A -> Setup B) m b m' :
  (s ≫= f) m = Some (Ok b, m') -> exists a m1, s m = Some (Ok a, m1) /\ f a m1 = Some (Ok b, m').
Proof. unfold mbind, setup_bind. destruct (s m) as [[[a|e] m1]|]; try done. eauto. Qed.

Lemma boot_run c extras m1 m2 m3 m disk mac entry :
  validate_config path_exists is_separator c = Ok tt ->
  devices_available open_disk start_net_io mac_seed c disk mac ->
  prepare_memory overflow_checks read_file c (bool_decide (is_Some extras)) guest_memory_new = Some (Ok (PML4_GPA, entry), m) ->
  setup_guest_memory overflow_checks read_file c (ram_bytes_of c) (gib_count_of c) guest_memory_new = Some (Ok PML4_GPA, m1) ->
  build_kernel_cmdline c (bool_decide (is_Some extras)) m1 = Some (Ok tt, m2) -> mem_call write_gdt m2 = Some (Ok tt, m3) ->
  exists vcpus,
    boot overflow_checks read_file path_exists is_separator open_disk start_net_io mac_seed hv c extras guest_memory_new =
      Some (Ok (vcpus, {| slots := machine_slots c disk mac extras |}), m) /\
    length vcpus = Z.to_nat (cpus c) /\
    (forall k v, vcpus !! k = Some v -> number (Hv := Hv) (P := P) v = Z.of_nat k /\ seen (Hv := Hv) (P := P) v = whole_memory m3) /\
    forall v, head vcpus = Some v -> get_regs v = Ok (boot_std_regs entry BOOT_PARAMS_GPA) /\
      sregs_of (Hv := Hv) (P := P) v = Some (boot_sregs PML4_GPA).
Proof.
  intros Hval Hd Hp E1 E2 E3. unfold prepare_memory in Hp.
  rewrite (setup_bind_run _ _ _ _ _ E1), (setup_bind_run _ _ _ _ _ E2), (setup_bind_run _ _ _ _ _ E3) in Hp.
  apply setup_bind_inv in Hp as (kb & m4 & E4 & Hp).
  apply setup_bind_inv in Hp as (lr & m5 & E5 & Hp). injection Hp as <- ->.
  unfold boot. erewrite setup_bind_run by (by apply lift_run).
  rewrite (setup_bind_run _ _ _ _ _ E1), (setup_bind_run _ _ _ _ _ E2), (setup_bind_run _ _ _ _ _ E3).
  pose proof (partition_created hv (cpus c) (ram_mib c)) as Hc.
  destruct (create_partition hv _ _) as [part|e] eqn:Ep; [|done]. apply (partition_law (V := V)) in Ep.
  erewrite setup_bind_run by (apply lift_run; reflexivity).
  destruct (map_ram_run part m3) as (part' & Em & Hm). rewrite (setup_bind_run _ _ _ _ _ Em). rewrite Ep in Hm.
  rewrite (setup_bind_run _ _ _ _ _ E4), (setup_bind_run _ _ _ _ _ E5).
  destruct (create_vcpus_run (Z.to_nat (cpus c)) 0 part' PML4_GPA (entry_point lr) m) as (vs & Ev & Hl & Hall & Hh).
  rewrite (setup_bind_run _ _ _ _ _ Ev).
  rewrite (setup_bind_run _ _ _ _ _ (setup_devices_run overflow_checks open_disk start_net_io mac_seed c extras disk mac m Hd)).
  exists vs. split_and!; [done|done| |by apply Hh]. intros k v Hk. destruct (Hall k v Hk) as [Hn Hs]. split; [exact Hn|].
  by rewrite Hs, Hm.
Qed.
End BootLemmas.

(** ** Properties *)

(** C6: [setup_devices] never trips the overlap assertion, whatever the host answers;
    where the host provides what the configuration asks for, the bus holds
    exactly the configured devices, each in its own window and with its own
    interrupt, and routes every address of a window to it. *)
Theorem devices_assembled oc open_disk start_net_io seed c extras m :
  setup_devices oc open_disk start_net_io seed c extras m <> None /\
  forall disk mac, devices_available open_disk start_net_io seed c disk mac ->
    exists bus, setup_devices oc open_disk start_net_io seed c extras m = Some (Ok (bus, bool_decide (is_Some (net c))), m) /\
      bus_wf bus /\ slots bus = machine_slots c disk mac extras /\
      (forall gpa i s, 0 <= gpa -> slots bus !! i = Some s -> in_slot gpa s -> find_slot oc bus gpa = Ok (Some (i, s))) /\
      (forall gpa, 0 <= gpa -> (forall s, s ∈ slots bus -> ~ in_slot gpa s) -> find_slot oc bus gpa = Ok None).
Proof.
  split.
  - destruct (setup_devices_cases oc open_disk start_net_io seed c extras m) as [[e ->]|(disk & mac & ->)]; done.
  - intros disk mac Ha. eexists. split; [by apply setup_devices_run|]. pose proof (machine_slots_wf c disk mac extras) as Hw.
    split; [exact Hw|]. split; [done|]. split.
    + intros gpa i s Hg Hi Hin. rewrite find_slot_route by done. f_equal. by apply route_Some.
    + intros gpa Hg Hno. rewrite find_slot_route by done. f_equal. unfold route. apply list_find_None.
      apply Forall_forall. intros s Hs. by apply Hno.
Qed.

(** C1: A configuration that can be booted boots, on a host that provides what it asks
    for.  All vCPUs are there, numbered from zero, and see the guest's memory: one
    region of the size configured, from address zero, with all rights.  The first
    stands at the kernel's entry with the zero page in RSI, in 64-bit mode over page
    tables that map each address of the guest to itself, its descriptors those of the
    table in memory.  The zero page is the one of the configuration, its initramfs
    and its ACPI tables are where it says, the command line and the kernel in place.
    The bus has exactly the devices the configuration names, and a machine of one
    vCPU enters the run loop in that state. *)
Theorem machine_boots `{HostAllocLaws} {Hv P V} `{WorkingHypervisor Hv P V} `{!HypervisorLaws Hv P V} `{!VcpuLaws V}
    oc rf path_exists is_separator open_disk start_net_io seed (hv : Hv) c kernel initrd text b extras disk mac :
  bootable rf c kernel initrd text -> kernel_cmdline c (bool_decide (is_Some extras)) = Ok text ->
  host_alloc ∅ (ram_bytes_of c) = Some b -> validate_config path_exists is_separator c = Ok tt ->
  devices_available open_disk start_net_io seed c disk mac ->
  exists m vcpus zp ke reg,
    let bus := {| slots := machine_slots c disk mac extras |} in
    boot (V := V) oc rf path_exists is_separator open_disk start_net_io seed hv c extras guest_memory_new =
      Some (Ok (vcpus, bus), m) /\
    length vcpus = Z.to_nat (cpus c) /\
    (forall k v, vcpus !! k = Some v -> number (Hv := Hv) (P := P) v = Z.of_nat k /\
       seen (Hv := Hv) (P := P) v = [(0, hva reg, ram_bytes_of c, READ_WRITE_EXEC)]) /\
    regions m = [reg] /\ gpa_start reg = 0 /\ region_size reg = ram_bytes_of c /\
    (forall v, head vcpus = Some v -> exists rs s, get_regs v = Ok rs /\ protocol_regs (field 8 kernel 24) rs /\
       sregs_of (Hv := Hv) (P := P) v = Some s /\ protocol_sregs m s) /\
    memory_wf m /\ bus_wf bus /\
    (forall x, 0 <= x < 2 ^ 48 -> walk m 0x8000 x = if decide (x < gib_count_of c * ONE_GIB) then Some x else None) /\
    highest (elf_segments kernel) ke /\ final_zero_page c (initrd_at ke <$> initrd) = Ok zp /\
    holds m (0x7000, as_bytes zp) /\ holds m (CMDLINE_GPA, bytes_of text ++ [0]) /\
    Forall (holds m) (acpi_facts c) /\ Forall (holds m) (initrd_facts ke initrd) /\
    (forall x, covered kernel x -> byte_at m x = image kernel (elf_segments kernel) (fun _ => None) x) /\
    (cpus c = 1 -> forall U (HU : Uart U) dev_fuel fuel stop_flag (serial : U), exists v,
       vcpus = [v] /\
       boot_and_run oc rf path_exists is_separator open_disk start_net_io seed hv dev_fuel fuel stop_flag serial c extras =
         RanLoop (run_vcpu_loop oc dev_fuel fuel stop_flag 0 (loop_init v serial bus m))).
Proof.
  intros Hboot Htext Hb Hval Hdev.
  destruct (memory_staged oc _ rf c kernel initrd text b Hboot Htext Hb)
    as (m & zp & ke & Ep & Hwf & Hke & Hwalk & Hfin & Hzp & Hcmd & Hgdt & Hacpi & Hird & Himg & reg & m1 & m2 & m3 & Hr & Hg & Hsz & E1 & E2 & E3 & Hr3).
  destruct (boot_run oc rf path_exists is_separator open_disk start_net_io seed hv c extras m1 m2 m3 m disk mac _ Hval Hdev Ep E1 E2 E3)
    as (vs & Eb & Hlen & Hall & Hfirst).
  exists m, vs, zp, ke, reg. cbv zeta. split_and!; try done; [| |apply machine_slots_wf|].
  - intros k v Hk. destruct (Hall k v Hk) as [-> ->]. split; [done|]. unfold whole_memory. rewrite Hr3. cbn. by rewrite Hg, Hsz.
  - intros v Hhd. destruct (Hfirst v Hhd) as [Er Es]. eexists _, _. split; [exact Er|]. split; [done|]. split; [exact Es|].
    split; [by vm_compute|]. split; [done|exact Hgdt].
  - intros Hc U HU dev_fuel fuel stop_flag serial. rewrite Hc in Hlen. destruct vs as [|v [|]]; try done.
    exists v. split; [done|]. unfold boot_and_run. by rewrite Eb.
Qed.

(** The disk is on the bus at 0xD0000000 but the command line never says so:
    nothing in the text names that address, so a guest started with the default
    command line has no way to find it. *)
Theorem disk_not_announced oc open_disk start_net_io seed c extras disk m text :
  net c = None -> cmdline c = None -> devices_available open_disk start_net_io seed c (Some disk) None ->
  kernel_cmdline c (bool_decide (is_Some extras)) = Ok text ->
  exists bus, setup_devices oc open_disk start_net_io seed c extras m = Some (Ok (bus, false), m) /\
    find_slot oc bus 0xD0000000 = Ok (Some (0%nat, disk_slot disk)) /\ String.index 0 "d0000000" text = None.
Proof.
  intros Hn Hc Ha Ht. eexists. split; [rewrite (setup_devices_run _ _ _ _ _ _ _ _ _ Ha); by rewrite Hn|]. split.
  - rewrite find_slot_route by apply machine_slots_wf. done.
  - unfold kernel_cmdline, effective_cmdline in Ht. rewrite Hn, Hc in Ht. injection Ht as <-.
    by destruct (bool_decide (is_Some extras)).
Qed.

(** ** Witnesses *)

Section Demo.

(** A hypervisor whose partitions keep what is mapped, and whose vCPUs keep their
    number, that memory and the registers they are given, and halt. *)
Record DemoVcpu := { dv_number : Z; dv_memory : list Mapping; dv_regs : StandardRegs; dv_sregs : option SpecialRegs }.

#[local] Instance demo_vcpu : Vcpu DemoVcpu := {
  vcpu_run v := (Ok Hal.ExitHalt, v);
  get_regs v := Ok (dv_regs v);
  set_regs v r := (Ok tt, {| dv_number := dv_number v; dv_memory := dv_memory v; dv_regs := r; dv_sregs := dv_sregs v |});
  inject_interrupt v _ := (Ok tt, v);
  request_interrupt_window v := (Ok tt, v);
}.
#[local] Instance demo_vcpu_laws : VcpuLaws DemoVcpu.
Proof. split. by intros v r v' [= <-]. Defined.
#[local] Instance demo_sregs : VcpuSregs DemoVcpu := fun v s =>
  (Ok tt, {| dv_number := dv_number v; dv_memory := dv_memory v; dv_regs := dv_regs v; dv_sregs := Some s |}).
#[local] Instance demo_partition : PartitionMap (list Mapping) := fun p g h s f => Ok (p ++ [(g, h, s, f)]).
#[local] Instance demo_hypervisor : Hypervisor unit (list Mapping) DemoVcpu := {
  create_partition _ _ _ := Ok [];
  create_vcpu p i := Ok (p, {| dv_number := i; dv_memory := p; dv_regs := StandardRegs_default; dv_sregs := None |});
}.
#[local] Instance demo_working : WorkingHypervisor unit (list Mapping) DemoVcpu.
Proof. by split. Defined.
#[local] Instance demo_hypervisor_laws : HypervisorLaws unit (list Mapping) DemoVcpu.
Proof.
  refine (@Build_HypervisorLaws unit (list Mapping) DemoVcpu _ _ _ _ id dv_memory dv_number dv_sregs _ _ _ _ _).
  - by intros [] n mib p [= <-].
  - by intros p g h s f p' [= <-].
  - by intros p i p' v [= <- <-].
  - by intros v s v' [= <-].
  - by intros v r v' [= <-].
Defined.

Definition no_disk (path : string) : result string File := Err "not found"%string.
Definition demo_adapter (name ip : string) (mac gw_mac gw : list Z) : result string unit := Ok tt.

Lemma demo_devices : devices_available no_disk demo_adapter 7 demo_config None (Some (random_mac 7)).
Proof. split; cbn; [done|]. split; [done|]. exists ([10; 0; 0; 1], 24). split; vm_compute; reflexivity. Qed.

Lemma devices_assembled_witness :
  exists bus, setup_devices true no_disk demo_adapter 7 demo_config (Some ([], None)) guest_memory_new =
      Some (Ok (bus, true), guest_memory_new) /\ shape bus = [(0xD0001000, 0x1000); (0xD0002000, 0x1000)].
Proof.
  destruct (proj2 (devices_assembled true no_disk demo_adapter 7 demo_config (Some ([], None)) guest_memory_new)
    None (Some (random_mac 7)) demo_devices) as (bus & E & _ & Hs & _).
  exists bus. split; [exact E|]. unfold shape. rewrite Hs. reflexivity.
Defined.

Lemma machine_boots_witness :
  exists m vcpus bus first second rs,
    @boot vec_alloc unit (list Mapping) DemoVcpu _ _ _ _ true demo_files (fun _ => true) (fun a => Ascii.eqb a "/") no_disk
      demo_adapter 7 tt demo_config (Some ([], None)) guest_memory_new = Some (Ok (vcpus, bus), m) /\
    vcpus = [first; second] /\ dv_number second = 1 /\ ((fun x : Mapping => (x.1.1.1, x.1.2)) <$> dv_memory second) = [(0, 0x200000)] /\
    get_regs first = Ok rs /\ rip rs = 0x100000 /\ rsi rs = 0x7000 /\
    (exists s, dv_sregs first = Some s /\ in_long_mode s = true) /\
    holds m (CMDLINE_GPA, bytes_of demo_text ++ [0]) /\ holds m (0x101000, demo_initrd).
Proof.
  destruct (@machine_boots vec_alloc vec_alloc_laws unit (list Mapping) DemoVcpu _ _ _ _ demo_working demo_hypervisor_laws demo_vcpu_laws
    true demo_files (fun _ => true) (fun a => Ascii.eqb a "/") no_disk demo_adapter 7 tt demo_config demo_boot_kernel (Some demo_initrd)
    demo_text 1%positive (Some ([], None)) None (Some (random_mac 7)) demo_bootable)
    as (m & vs & zp & ke & reg & E & Hl & Hall & _ & _ & _ & Hfirst & _ & _ & _ & Hke & _ & _ & Hc & _ & Hi & _);
    [by vm_compute|by vm_compute|by vm_compute|exact demo_devices|].
  destruct vs as [|first [|second [|]]]; [discriminate Hl|discriminate Hl| |discriminate Hl].
  destruct (Hfirst first eq_refl) as (rs & s & Hrs & (Hrip & Hrsi & _) & Hs & Hlong & _).
  destruct (Hall 1%nat second eq_refl) as [Hn Hm]. apply demo_highest in Hke.
  exists m, [first; second]. eexists. exists first, second, rs. split; [exact E|]. split; [reflexivity|]. split; [exact Hn|].
  split; [change (dv_memory second) with (seen (Hv := unit) (P := list Mapping) second); rewrite Hm; reflexivity|].
  split; [exact Hrs|]. split; [exact Hrip|]. split; [exact Hrsi|]. split; [exists s; split; [exact Hs|exact Hlong]|].
  split; [exact Hc|]. apply Forall_inv in Hi. rewrite Hke in Hi. exact Hi.
Defined.

Definition disk_config : VmConfig :=
  {| kernel_path := "vmlinux"; initramfs_path := None; disk_path := Some "disk"%string; ram_mib := 64; cpus := 1;
     cmdline := None; net := None; ports := []; guest_cid := DEFAULT_GUEST_CID; guest_agent := AgentDisabled |}.

Definition disk_file : File := {| f_data := replicate 512 7; f_pos := 0; f_writable := false; f_faults := [] |}.

Lemma disk_not_announced_witness :
  exists bus, setup_devices true (fun _ => Ok disk_file) demo_adapter 7 disk_config None guest_memory_new =
      Some (Ok (bus, false), guest_memory_new) /\ length (slots bus) = 1%nat.
Proof.
  destruct (disk_not_announced true (fun _ => Ok disk_file) demo_adapter 7 disk_config None
    {| disk := disk_file; capacity := 1 |} guest_memory_new DEFAULT_CMDLINE) as (bus & E & _);
    [reflexivity|reflexivity|split; [by exists disk_file|done]|vm_compute; reflexivity|].
  exists bus. split; [exact E|]. clear -E. vm_compute in E. injection E as <-. reflexivity.
Defined.
End Demo.
