(* ===== verification/Whp.v ===== *)
(** * The Windows Hypervisor Platform backend

    [hitz-whp]: the conversions between the registers and exits of [hitz-hal] and
    those of WHP ([convert.rs]), the virtual processor ([vcpu.rs]) and the
    partition ([partition.rs]).  WHP itself is a parameter: [WhpVp] and
    [WhpPlatform] have its calls, [WhpVpLaws] what the backend relies on.  The
    processor discharges the laws the run loop asks of a vCPU, and the partition is
    an instance of the machine's hypervisor.  The [Drop]s, which only delete, are
    not modelled. *)

From Stdlib Require Import String.
From stdpp Require Import strings list.
From S2P Require Import Prelude Hal Memory MmioDecode Bus RunLoop PageTables Cpio Loader BootParams.
From S2P Require Import Acpi BootRegs Queue Transport Block Net Vsock Ethernet Config VmSetup Machine.

(** ** Register values

    [WHV_REGISTER_VALUE]: 16 bytes, as their two little-endian halves, read
    through the variants of the union. *)
Record RegValue := { low64 : Z; high64 : Z }.

Inductive RegName :=
| NRip | NRflags | NRax | NRbx | NRcx | NRdx | NRsi | NRdi | NRsp | NRbp
| NR8 | NR9 | NR10 | NR11 | NR12 | NR13 | NR14 | NR15
| NCr0 | NCr3 | NCr4 | NEfer | NCs | NDs | NEs | NFs | NGs | NSs | NTr | NLdtr | NGdtr | NIdtr
| NPendingInterruption | NDeliverabilityNotifications.

#[export] Instance RegName_eq_dec : EqDecision RegName.
Proof. solve_decision. Defined.

(** [WHV_X64_SEGMENT_REGISTER]: [Base] is the low half; [Limit], [Selector] and
    [Attributes] follow.  [WHV_X64_TABLE_REGISTER]: three words of padding and
    [Limit], then [Base]. *)
Record WhpSegment := { ws_base : Z; ws_limit : Z; ws_selector : Z; ws_attributes : Z }.
Record WhpTable := { wt_limit : Z; wt_base : Z }.

Definition segment_of (v : RegValue) : WhpSegment :=
  {| ws_base := low64 v; ws_limit := Z.land (high64 v) (Z.ones 32);
     ws_selector := Z.land (Z.shiftr (high64 v) 32) (Z.ones 16); ws_attributes := Z.land (Z.shiftr (high64 v) 48) (Z.ones 16) |}.
Definition segment_value (s : WhpSegment) : RegValue :=
  {| low64 := ws_base s; high64 := ws_limit s + ws_selector s * 2 ^ 32 + ws_attributes s * 2 ^ 48 |}.
Definition table_of (v : RegValue) : WhpTable :=
  {| wt_limit := Z.land (Z.shiftr (low64 v) 48) (Z.ones 16); wt_base := high64 v |}.
Definition table_value (t : WhpTable) : RegValue := {| low64 := wt_limit t * 2 ^ 48; high64 := wt_base t |}.

Definition reg64_val (val : Z) : RegValue := {| low64 := val; high64 := 0 |}.

(** ** Standard registers *)

Definition STANDARD_REG_NAMES : list RegName :=
  [NRip; NRflags; NRax; NRbx; NRcx; NRdx; NRsi; NRdi; NRsp; NRbp; NR8; NR9; NR10; NR11; NR12; NR13; NR14; NR15].

(** The [i]-th value as [Reg64]; the arrays have 18 elements. *)
Definition reg_at (v : list RegValue) (i : nat) : Z := low64 (default (reg64_val 0) (v !! i)).

Definition values_to_standard_regs (v : list RegValue) : StandardRegs :=
  {| rip := reg_at v 0; rflags := reg_at v 1; rax := reg_at v 2; rbx := reg_at v 3; rcx := reg_at v 4; rdx := reg_at v 5;
     rsi := reg_at v 6; rdi := reg_at v 7; rsp := reg_at v 8; rbp := reg_at v 9; r8 := reg_at v 10; r9 := reg_at v 11;
     r10 := reg_at v 12; r11 := reg_at v 13; r12 := reg_at v 14; r13 := reg_at v 15; r14 := reg_at v 16; r15 := reg_at v 17 |}.

Definition standard_regs_to_values (regs : StandardRegs) : list RegValue :=
  reg64_val <$> [rip regs; rflags regs; rax regs; rbx regs; rcx regs; rdx regs; rsi regs; rdi regs; rsp regs; rbp regs;
                 r8 regs; r9 regs; r10 regs; r11 regs; r12 regs; r13 regs; r14 regs; r15 regs].

(** ** Segments and tables *)

Definition whp_seg_to_hal (seg : WhpSegment) : SegmentDescriptor :=
  let attrs := ws_attributes seg in
  {| seg_base := ws_base seg; seg_limit := ws_limit seg; seg_selector := ws_selector seg;
     seg_type := Z.land attrs 0xF; seg_s := Z.land (Z.shiftr attrs 4) 1; seg_dpl := Z.land (Z.shiftr attrs 5) 3;
     seg_present := Z.land (Z.shiftr attrs 7) 1; seg_long_mode := Z.land (Z.shiftr attrs 13) 1;
     seg_db := Z.land (Z.shiftr attrs 14) 1; seg_granularity := Z.land (Z.shiftr attrs 15) 1 |}.

Definition seg_attributes (seg : SegmentDescriptor) : Z :=
  Z.lor (Z.lor (Z.lor (Z.lor (Z.lor (Z.lor
    (Z.land (seg_type seg) 0xF)
    (Z.shiftl (Z.land (seg_s seg) 1) 4))
    (Z.shiftl (Z.land (seg_dpl seg) 3) 5))
    (Z.shiftl (Z.land (seg_present seg) 1) 7))
    (Z.shiftl (Z.land (seg_long_mode seg) 1) 13))
    (Z.shiftl (Z.land (seg_db seg) 1) 14))
    (Z.shiftl (Z.land (seg_granularity seg) 1) 15).

Definition hal_seg_to_whp (seg : SegmentDescriptor) : WhpSegment :=
  {| ws_base := seg_base seg; ws_limit := seg_limit seg; ws_selector := seg_selector seg; ws_attributes := seg_attributes seg |}.

Definition whp_table_to_hal (t : WhpTable) : DescriptorTable := {| dt_base := wt_base t; dt_limit := wt_limit t |}.
Definition hal_table_to_whp (t : DescriptorTable) : WhpTable := {| wt_limit := dt_limit t; wt_base := dt_base t |}.

(** ** Special registers *)

Definition SPECIAL_REG_NAMES : list RegName :=
  [NCr0; NCr3; NCr4; NEfer; NCs; NDs; NEs; NFs; NGs; NSs; NTr; NLdtr; NGdtr; NIdtr].

Definition seg_at (v : list RegValue) (i : nat) : SegmentDescriptor :=
  whp_seg_to_hal (segment_of (default (reg64_val 0) (v !! i))).
Definition table_at (v : list RegValue) (i : nat) : DescriptorTable :=
  whp_table_to_hal (table_of (default (reg64_val 0) (v !! i))).

Definition values_to_special_regs (v : list RegValue) : SpecialRegs :=
  {| cr0 := reg_at v 0; cr3 := reg_at v 1; cr4 := reg_at v 2; efer := reg_at v 3;
     cs := seg_at v 4; ds := seg_at v 5; es := seg_at v 6; fs := seg_at v 7; gs := seg_at v 8; ss := seg_at v 9;
     tr := seg_at v 10; ldt := seg_at v 11; gdt := table_at v 12; idt := table_at v 13 |}.

Definition special_regs_to_values (sregs : SpecialRegs) : list RegValue :=
  let seg s := segment_value (hal_seg_to_whp s) in
  let table t := table_value (hal_table_to_whp t) in
  [reg64_val (cr0 sregs); reg64_val (cr3 sregs); reg64_val (cr4 sregs); reg64_val (efer sregs);
   seg (cs sregs); seg (ds sregs); seg (es sregs); seg (fs sregs); seg (gs sregs); seg (ss sregs);
   seg (tr sregs); seg (ldt sregs); table (gdt sregs); table (idt sregs)].

(** ** Exits *)

(** [WHV_RUN_VP_EXIT_CONTEXT], its union as the views of it that are read. *)
Record ExitContext := {
  ec_reason : Z;
  ec_vp_bitfield : Z;
  ec_mem_info : Z; ec_mem_gpa : Z; ec_mem_byte_count : Z; ec_mem_bytes : list Z;
  ec_io_info : Z; ec_io_port : Z; ec_io_rax : Z;
}.

(** The exit reasons of the platform's headers. *)
Record ExitReasons := {
  rs_memory : Z; rs_io_port : Z; rs_halt : Z; rs_window : Z; rs_canceled : Z; rs_unrecoverable : Z;
}.

Definition is_memory_write (info : Z) : bool := Z.land info 3 =? 1.
Definition is_io_write (info : Z) : bool := negb (Z.land info 1 =? 0).
Definition io_access_size (info : Z) : Z := Z.land (Z.shiftr info 1) 7.

Section Exits.
Variable rs : ExitReasons.

Definition exit_context_to_hal (ctx : ExitContext) : result HalError VcpuExit :=
  let instruction_len := Z.land (ec_vp_bitfield ctx) 0x0F in
  if ec_reason ctx =? rs_memory rs then
    let count := Nat.min (Z.to_nat (ec_mem_byte_count ctx)) 16 in
    Ok (ExitMmio {| mmio_gpa := ec_mem_gpa ctx; mmio_data := replicate 8 0; mmio_len := 0;
                    mmio_is_write := is_memory_write (ec_mem_info ctx); mmio_instruction_len := instruction_len;
                    mmio_instruction_bytes := splice 0 (take count (ec_mem_bytes ctx)) (replicate 16 0);
                    mmio_instruction_byte_count := ec_mem_byte_count ctx |})
  else if ec_reason ctx =? rs_io_port rs then
    let is_write := is_io_write (ec_io_info ctx) in
    let access_size := io_access_size (ec_io_info ctx) in
    if 4 <? access_size then Err (VcpuRun ("invalid I/O port access size: " ++ fmt_dec access_size)%string)
    else
      let copy_len := Nat.min (Z.to_nat access_size) 4 in
      let data := if is_write then splice 0 (take copy_len (le_bytes 8 (ec_io_rax ctx))) (replicate 4 0) else replicate 4 0 in
      Ok (ExitIoPort {| io_port := ec_io_port ctx; io_data := data; io_len := access_size; io_is_write := is_write;
                        io_instruction_len := instruction_len |})
  else if ec_reason ctx =? rs_halt rs then Ok ExitHalt
  else if ec_reason ctx =? rs_window rs then Ok ExitInterruptWindow
  else if ec_reason ctx =? rs_canceled rs then Ok ExitCanceled
  else if ec_reason ctx =? rs_unrecoverable rs then Ok ExitShutdown
  else Ok (ExitUnknown (wrap 32 (ec_reason ctx))).
End Exits.

(** ** The platform's calls *)

(** What is behind the index of a virtual processor. *)
Class WhpVp (W : Type) := {
  whv_get : W -> list RegName -> result string (list RegValue);
  whv_set : W -> list (RegName * RegValue) -> result string unit * W;
  whv_run : W -> result string ExitContext * W;
}.

(** What is behind the handle of a partition, and how one comes about. *)
Class WhpPlatform (H Q W : Type) := {
  whv_create_partition : H -> result string Q;
  whv_set_processor_count : Q -> Z -> result string Q;
  whv_set_xapic : Q -> result string Q;
  whv_setup : Q -> result string Q;
  whv_map : Q -> ptr -> Z -> Z -> Z -> result string Q;
  whv_unmap : Q -> Z -> Z -> result string Q;
  whv_create_vp : Q -> Z -> result string (Q * W);
  whv_cancel : Q -> Z -> result string Q;
}.

(** A register that was set reads as it was set, the others as before; and where
    registers could be set they can be read. *)
Class WhpVpLaws (W : Type) `{WhpVp W} := {
  reg_file : W -> RegName -> RegValue;
  get_file w names vs : whv_get w names = Ok vs -> vs = reg_file w <$> names;
  set_file w nvs w' n :
    whv_set w nvs = (Ok tt, w') -> NoDup nvs.*1 ->
    reg_file w' n = default (reg_file w n) (snd <$> find (fun p => bool_decide (p.1 = n)) nvs);
  get_after_set w nvs w' names : whv_set w nvs = (Ok tt, w') -> is_ok (whv_get w' names) = true;
}.

(** ** The virtual processor *)

Section Vp.
Context {W : Type} `{WhpVp W}.
Variable rs : ExitReasons.
(** The platform's number of a register. *)
Variable name_code : RegName -> Z.

Definition api_err {A} (wrap_err : string -> HalError) (what : string) (r : result string A) : result HalError A :=
  map_err (fun e => wrap_err (what ++ e)%string) r.

Definition whp_run (v : W) : result HalError VcpuExit * W :=
  let '(r, v) := whv_run v in
  (ctx ← api_err VcpuRun "WHvRunVirtualProcessor: " r; exit_context_to_hal rs ctx, v).

Definition whp_get_regs (v : W) : result HalError StandardRegs :=
  values ← api_err RegisterAccess "get standard regs: " (whv_get v STANDARD_REG_NAMES);
  Ok (values_to_standard_regs values).

Definition whp_set_regs (v : W) (regs : StandardRegs) : result HalError unit * W :=
  let '(r, v) := whv_set v (zip STANDARD_REG_NAMES (standard_regs_to_values regs)) in
  (api_err RegisterAccess "set standard regs: " r, v).

Definition whp_get_sregs (v : W) : result HalError SpecialRegs :=
  values ← api_err RegisterAccess "get special regs: " (whv_get v SPECIAL_REG_NAMES);
  Ok (values_to_special_regs values).

Definition pending_interruption (vector : Z) : Z := Z.lor 1 (Z.shiftl vector 16).

Definition whp_inject_interrupt (v : W) (vector : Z) : result HalError unit * W :=
  let '(r, v) := whv_set v [(NPendingInterruption, reg64_val (pending_interruption vector))] in
  (api_err InjectInterrupt "WHvSetVirtualProcessorRegisters: " r, v).

Definition whp_request_interrupt_window (v : W) : result HalError unit * W :=
  let '(r, v) := whv_set v [(NDeliverabilityNotifications, reg64_val 1)] in
  (api_err RegisterAccess "set DeliverabilityNotifications: " r, v).

(** The loop of [set_sregs]: one call per register. *)
Fixpoint set_each (v : W) (nvs : list (RegName * RegValue)) : result HalError unit * W :=
  match nvs with
  | [] => (Ok tt, v)
  | (n, x) :: nvs' =>
      match whv_set v [(n, x)] with
      | (Ok _, v) => set_each v nvs'
      | (Err e, v) => (Err (RegisterAccess ("set special reg " ++ fmt_dec (name_code n) ++ ": " ++ e)%string), v)
      end
  end.

Definition whp_set_sregs (v : W) (sregs : SpecialRegs) : result HalError unit * W :=
  set_each v (zip SPECIAL_REG_NAMES (special_regs_to_values sregs)).

#[export] Instance whp_vcpu : Vcpu W := {
  vcpu_run := whp_run;
  get_regs := whp_get_regs;
  set_regs := whp_set_regs;
  inject_interrupt := whp_inject_interrupt;
  request_interrupt_window := whp_request_interrupt_window;
}.
#[export] Instance whp_vcpu_sregs : VcpuSregs W := whp_set_sregs.
End Vp.

(** ** The partition *)

Record WhpPartition (Q : Type) := { wp_handle : Q; wp_vcpu_count : Z }.
Arguments wp_handle {Q}. Arguments wp_vcpu_count {Q}.

Definition mem_flags_to_whp (flags : MemFlags) : Z :=
  let bits := if mf_read flags then Z.lor 0 1 else 0 in
  let bits := if mf_write flags then Z.lor bits 2 else bits in
  if mf_execute flags then Z.lor bits 4 else bits.

Section Partition.
Context {H Q W : Type} `{WhpPlatform H Q W}.

Definition partition_new (hv : H) (vcpu_count memory_mib : Z) : result HalError (WhpPartition Q) :=
  q ← api_err CreatePartition "WHvCreatePartition: " (whv_create_partition hv);
  q ← api_err SetupPartition "set ProcessorCount: " (whv_set_processor_count q vcpu_count);
  q ← api_err SetupPartition "set LocalApicEmulationMode: " (whv_set_xapic q);
  q ← api_err SetupPartition "WHvSetupPartition: " (whv_setup q);
  Ok {| wp_handle := q; wp_vcpu_count := vcpu_count |}.

Definition whp_map_memory (p : WhpPartition Q) (gpa : Z) (hva : ptr) (size : Z) (flags : MemFlags) :
    result HalError (WhpPartition Q) :=
  q ← api_err (fun e => MapMemory gpa size e) "WHvMapGpaRange: " (whv_map (wp_handle p) hva gpa size (mem_flags_to_whp flags));
  Ok {| wp_handle := q; wp_vcpu_count := wp_vcpu_count p |}.

Definition whp_create_vcpu (p : WhpPartition Q) (id : Z) : result HalError (WhpPartition Q * W) :=
  if wp_vcpu_count p <=? id then
    Err (CreateVcpu id ("vCPU index " ++ fmt_dec id ++ " exceeds partition limit " ++ fmt_dec (wp_vcpu_count p))%string)
  else
    '(q, w) ← api_err (fun e => CreateVcpu id e) "WHvCreateVirtualProcessor: " (whv_create_vp (wp_handle p) id);
    Ok ({| wp_handle := q; wp_vcpu_count := wp_vcpu_count p |}, w).

Definition whp_unmap_memory (p : WhpPartition Q) (gpa size : Z) : result HalError (WhpPartition Q) :=
  q ← api_err (fun e => UnmapMemory gpa e) "WHvUnmapGpaRange: " (whv_unmap (wp_handle p) gpa size);
  Ok {| wp_handle := q; wp_vcpu_count := wp_vcpu_count p |}.

(** [cancel_via], and the partition's [request_interrupt], which is the same call
    and does nothing with the vector. *)
Definition whp_cancel_via (q : Q) (index : Z) : result HalError Q :=
  api_err VcpuCancel "WHvCancelRunVirtualProcessor: " (whv_cancel q index).

Definition whp_request_interrupt (p : WhpPartition Q) (id vector : Z) : result HalError (WhpPartition Q) :=
  q ← api_err InterruptRequest "WHvCancelRunVirtualProcessor: " (whv_cancel (wp_handle p) id);
  Ok {| wp_handle := q; wp_vcpu_count := wp_vcpu_count p |}.

#[export] Instance whp_hypervisor : Hypervisor H (WhpPartition Q) W := {
  create_partition := partition_new;
  create_vcpu := whp_create_vcpu;
}.
#[export] Instance whp_partition_map : PartitionMap (WhpPartition Q) := whp_map_memory.
End Partition.

(** ** Lemmas: values *)

(** The ranges of the fields' types, and of the bit fields a descriptor has. *)
Definition segment_wf (s : SegmentDescriptor) : Prop :=
  in_range 32 (seg_limit s) /\ in_range 16 (seg_selector s) /\ in_range 4 (seg_type s) /\ in_range 1 (seg_s s) /\
  in_range 2 (seg_dpl s) /\ in_range 1 (seg_present s) /\ in_range 1 (seg_long_mode s) /\ in_range 1 (seg_db s) /\
  in_range 1 (seg_granularity s).

Definition table_wf (t : DescriptorTable) : Prop := in_range 16 (dt_limit t).

Definition sregs_segments (s : SpecialRegs) : list SegmentDescriptor :=
  [cs s; ds s; es s; fs s; gs s; ss s; tr s; ldt s].

Definition sregs_wf (s : SpecialRegs) : Prop :=
  Forall segment_wf (sregs_segments s) /\ table_wf (gdt s) /\ table_wf (idt s).

Lemma seg_attributes_sum s : segment_wf s ->
  seg_attributes s = seg_type s + seg_s s * 2 ^ 4 + seg_dpl s * 2 ^ 5 + seg_present s * 2 ^ 7 +
                     seg_long_mode s * 2 ^ 13 + seg_db s * 2 ^ 14 + seg_granularity s * 2 ^ 15.
Proof.
  intros (_ & _ & Ht & Hs & Hd & Hp & Hl & Hb & Hg). unfold seg_attributes, in_range in *.
  change 0xF with (Z.ones 4). change 3 with (Z.ones 2).
  repeat match goal with |- context [Z.land ?x 1] => change (Z.land x 1) with (Z.land x (Z.ones 1)) end.
  rewrite !land_mod, !Z.mod_small by lia.
  rewrite (lor_shiftl_add 4), (lor_shiftl_add 5), (lor_shiftl_add 7), (lor_shiftl_add 13), (lor_shiftl_add 14),
    (lor_shiftl_add 15) by (unfold in_range; lia); done.
Qed.

Ltac field lo hi := apply (field_extract _ lo _ hi); unfold in_range in *; lia.

Lemma seg_attributes_fields s (A := seg_attributes s) : segment_wf s ->
  in_range 16 A /\ Z.land A (Z.ones 4) = seg_type s /\ Z.land (Z.shiftr A 4) (Z.ones 1) = seg_s s /\
  Z.land (Z.shiftr A 5) (Z.ones 2) = seg_dpl s /\ Z.land (Z.shiftr A 7) (Z.ones 1) = seg_present s /\
  Z.land (Z.shiftr A 13) (Z.ones 1) = seg_long_mode s /\ Z.land (Z.shiftr A 14) (Z.ones 1) = seg_db s /\
  Z.land (Z.shiftr A 15) (Z.ones 1) = seg_granularity s.
Proof.
  intros H. subst A. rewrite seg_attributes_sum by done.
  destruct H as (_ & _ & ? & ? & ? & ? & ? & ? & ?), s as [b lim sel ty p dpl db g l ns]; simpl in *.
  split_and!; [unfold in_range in *; lia| | | | | | |].
  - rewrite <- (Z.shiftr_0_r (_ + _)).
    field 0 (ns + dpl * 2 + p * 8 + l * 2 ^ 9 + db * 2 ^ 10 + g * 2 ^ 11).
  - field ty (dpl + p * 4 + l * 2 ^ 8 + db * 2 ^ 9 + g * 2 ^ 10).
  - field (ty + ns * 16) (p + l * 2 ^ 6 + db * 2 ^ 7 + g * 2 ^ 8).
  - field (ty + ns * 16 + dpl * 32) (l * 2 ^ 5 + db * 2 ^ 6 + g * 2 ^ 7).
  - field (ty + ns * 16 + dpl * 32 + p * 128) (db + g * 2).
  - field (ty + ns * 16 + dpl * 32 + p * 128 + l * 2 ^ 13) g.
  - field (ty + ns * 16 + dpl * 32 + p * 128 + l * 2 ^ 13 + db * 2 ^ 14) 0.
Qed.

Lemma segment_value_roundtrip s : segment_wf s -> whp_seg_to_hal (segment_of (segment_value (hal_seg_to_whp s))) = s.
Proof.
  intros H. pose proof (seg_attributes_fields s H) as (HA & E1 & E2 & E3 & E4 & E5 & E6 & E7).
  destruct H as (Hl & Hs & _). unfold segment_of, segment_value, hal_seg_to_whp, whp_seg_to_hal; simpl.
  set (A := seg_attributes s) in *.
  set (hi := seg_limit s + seg_selector s * 2 ^ 32 + A * 2 ^ 48).
  assert (Z.land (Z.shiftr hi 48) (Z.ones 16) = A) as -> by field (seg_limit s + seg_selector s * 2 ^ 32) 0.
  assert (Z.land (Z.shiftr hi 32) (Z.ones 16) = seg_selector s) as -> by field (seg_limit s) A.
  assert (Z.land hi (Z.ones 32) = seg_limit s) as ->
    by (rewrite <- (Z.shiftr_0_r hi); field 0 (seg_selector s + A * 2 ^ 16)).
  change (Z.ones 4) with 15 in E1. change (Z.ones 2) with 3 in E3. change (Z.ones 1) with 1 in *.
  rewrite E1, E2, E3, E4, E5, E6, E7. by destruct s.
Qed.

Lemma table_value_roundtrip t : table_wf t -> whp_table_to_hal (table_of (table_value (hal_table_to_whp t))) = t.
Proof.
  intros H. destruct t as [b lim]; unfold table_wf in H; simpl in *.
  unfold whp_table_to_hal, table_of, table_value, hal_table_to_whp; simpl. f_equal. field 0 0.
Qed.

Lemma special_values_roundtrip s : sregs_wf s -> values_to_special_regs (special_regs_to_values s) = s.
Proof.
  intros (HF & Hg & Hi). unfold sregs_segments in HF. rewrite !Forall_cons in HF.
  destruct HF as (? & ? & ? & ? & ? & ? & ? & ? & _).
  unfold values_to_special_regs, special_regs_to_values, seg_at, table_at, reg_at; simpl.
  rewrite !segment_value_roundtrip, !table_value_roundtrip by done. by destruct s.
Qed.

(** The boot registers are in their fields' ranges. *)
Lemma boot_sregs_wf pml4 : sregs_wf (boot_sregs pml4).
Proof.
  split; [|split; vm_compute; done].
  unfold sregs_segments. rewrite !Forall_cons, Forall_nil. split_and!; vm_compute; repeat split; done.
Qed.

(** ** Lemmas: the processor's registers *)

Section VpLemmas.
Context {W : Type} `{WhpVpLaws W}.
Variables (rs : ExitReasons) (name_code : RegName -> Z).
Implicit Types v : W.

Lemma api_err_ok {A} f w (r : result string A) a : api_err f w r = Ok a -> r = Ok a.
Proof. by destruct r as [x|e]; intros [= ->]. Qed.

(** A batch of registers that was set reads back. *)
Lemma batch_set v nvs v' : whv_set v nvs = (Ok tt, v') -> NoDup nvs.*1 -> whv_get v' nvs.*1 = Ok nvs.*2.
Proof.
  intros E ND. pose proof (get_after_set v nvs v' nvs.*1 E) as G.
  destruct (whv_get v' nvs.*1) as [vs|e] eqn:EG; [|done]. f_equal.
  rewrite (get_file _ _ _ EG).
  assert (forall n x, (n, x) ∈ nvs -> reg_file v' n = x) as R.
  { intros n x Hin. rewrite (set_file v nvs v' n E ND). clear -Hin ND.
    induction nvs as [|[m y] nvs IH]; [by apply elem_of_nil in Hin|].
    simpl in *. apply NoDup_cons in ND as [Hm ND]. case_bool_decide as Hmn; simpl in *.
    - subst m. apply elem_of_cons in Hin as [[= ->]|Hin]; [done|].
      destruct Hm. apply list_elem_of_fmap. by exists (n, x).
    - apply elem_of_cons in Hin as [[= -> ->]|Hin]; [done|auto]. }
  clear -R. induction nvs as [|[m y] nvs IH]; [done|]. simpl. f_equal.
  - apply R. by left.
  - apply IH. intros n x Hin. apply R. by right.
Qed.

Lemma standard_regs_set v regs v' : whp_set_regs v regs = (Ok tt, v') -> whp_get_regs v' = Ok regs.
Proof.
  intros E. unfold whp_set_regs in E.
  destruct (whv_set v _) as [[[]|e] v1] eqn:ES; [|done]. injection E as ->.
  apply batch_set in ES; [|vm_compute; repeat constructor; set_solver].
  unfold whp_get_regs. change (zip STANDARD_REG_NAMES (standard_regs_to_values regs)).*1 with STANDARD_REG_NAMES in ES.
  rewrite ES. by destruct regs.
Qed.

#[export] Instance whp_vcpu_laws : @VcpuLaws W (whp_vcpu rs).
Proof. constructor. apply standard_regs_set. Qed.

(** One call per register sets what one call for all would. *)
Lemma set_each_file v nvs v' :
  set_each name_code v nvs = (Ok tt, v') -> NoDup nvs.*1 ->
  (forall n x, (n, x) ∈ nvs -> reg_file v' n = x) /\ (forall n, n ∉ nvs.*1 -> reg_file v' n = reg_file v n) /\
  (nvs <> [] -> forall names, is_ok (whv_get v' names) = true).
Proof.
  revert v. induction nvs as [|[m y] nvs IH]; intros v E ND; simpl in *.
  - injection E as <-. split_and!; [by intros n x ?%elem_of_nil|done|done].
  - destruct (whv_set v [(m, y)]) as [[[]|e] v1] eqn:ES; [|done]. apply NoDup_cons in ND as [Hm ND].
    assert (NoDup [(m, y)].*1) as ND1 by (repeat constructor; set_solver).
    destruct (IH _ E ND) as (I1 & I2 & I3). split_and!.
    + intros n x [[= -> ->]|Hin]%elem_of_cons; [|by apply I1].
      rewrite (I2 _ Hm), (set_file v _ v1 _ ES ND1). simpl. by rewrite bool_decide_true.
    + intros n Hn. apply not_elem_of_cons in Hn as [Hnm Hn].
      rewrite (I2 _ Hn), (set_file v _ v1 _ ES ND1). simpl. by rewrite bool_decide_false by congruence.
    + intros _ names. destruct nvs as [|nv nvs]; [|by apply I3].
      injection E as <-. by apply (get_after_set v [(m, y)]).
Qed.

Lemma special_regs_set v sregs v' :
  whp_set_sregs name_code v sregs = (Ok tt, v') -> sregs_wf sregs -> whp_get_sregs v' = Ok sregs.
Proof.
  intros E Hwf. unfold whp_set_sregs in E. set (nvs := zip _ _) in E.
  assert (nvs.*1 = SPECIAL_REG_NAMES /\ nvs.*2 = special_regs_to_values sregs) as [N1 N2] by done.
  apply set_each_file in E as (E1 & _ & E3); [|rewrite N1; vm_compute; repeat constructor; set_solver].
  unfold whp_get_sregs. specialize (E3 ltac:(done) SPECIAL_REG_NAMES).
  destruct (whv_get v' SPECIAL_REG_NAMES) as [vs|e] eqn:EG; [|done]. simpl. f_equal.
  rewrite (get_file _ _ _ EG), <- N1, <- (special_values_roundtrip sregs Hwf), <- N2. f_equal.
  clearbody nvs. clear -E1. induction nvs as [|[m y] nvs IH]; [done|]. simpl. f_equal.
  - apply E1. by left.
  - apply IH. intros n x Hin. apply E1. by right.
Qed.

End VpLemmas.

(** ** Lemmas: exits *)

(** The reasons of the platform are different. *)
Definition reasons_distinct (rs : ExitReasons) : Prop :=
  NoDup [rs_memory rs; rs_io_port rs; rs_halt rs; rs_window rs; rs_canceled rs; rs_unrecoverable rs].

(** The general form of an I/O exit. *)
Lemma io_exit rs ctx : reasons_distinct rs -> ec_reason ctx = rs_io_port rs ->
  let n := io_access_size (ec_io_info ctx) in
  exit_context_to_hal rs ctx =
    if 4 <? n then Err (VcpuRun ("invalid I/O port access size: " ++ fmt_dec n)%string)
    else Ok (ExitIoPort {|
      io_port := ec_io_port ctx;
      io_data := if is_io_write (ec_io_info ctx)
                 then le_bytes (Z.to_nat n) (ec_io_rax ctx) ++ replicate (4 - Z.to_nat n) 0 else replicate 4 0;
      io_len := n; io_is_write := is_io_write (ec_io_info ctx);
      io_instruction_len := Z.land (ec_vp_bitfield ctx) 0x0F |}).
Proof.
  intros HD HR n. unfold exit_context_to_hal. rewrite HR.
  unfold reasons_distinct in HD. rewrite !NoDup_cons in HD. destruct HD as (H1 & _).
  rewrite (proj2 (Z.eqb_neq (rs_io_port rs) (rs_memory rs))), Z.eqb_refl by (intros E; apply H1; rewrite E; by left).
  fold n. destruct (4 <? n) eqn:E4; [done|]. do 2 f_equal. destruct (is_io_write _); [|done].
  assert (0 <= n) by (apply Z.land_nonneg; by right).
  assert (n = 0 \/ n = 1 \/ n = 2 \/ n = 3 \/ n = 4) as D by (clearbody n; lia).
  clearbody n. by destruct D as [->|[->|[->|[->| ->]]]].
Qed.

(** ** Properties *)

Section Theorems.
Context {W U Dev M : Type} `{WhpVpLaws W} `{Uart U} `{MmioDevice Dev M}.
Variables (rs : ExitReasons) (name_code : RegName -> Z) (overflow_checks : bool) (dev_fuel : nat).
Implicit Types s : LoopState W U Dev M.

(** C8: Every register the backend sets reads back as the value of [hitz-hal] it was
    set from: the 18 general registers in one call, and the 14 system registers
    (control registers, segments with the platform's attribute bits, tables), set
    one call at a time; in particular the registers the guest boots with. *)
Theorem whp_registers_roundtrip (v v' : W) regs sregs pml4 :
  (whp_set_regs v regs = (Ok tt, v') -> whp_get_regs v' = Ok regs) /\
  (whp_set_sregs name_code v sregs = (Ok tt, v') -> sregs_wf sregs -> whp_get_sregs v' = Ok sregs) /\
  (configure_sregs (H := whp_vcpu_sregs name_code) v pml4 = (Ok tt, v') -> whp_get_sregs v' = Ok (boot_sregs pml4)).
Proof.
  split_and!.
  - apply standard_regs_set.
  - apply special_regs_set.
  - intros E. by apply (special_regs_set name_code v), boot_sregs_wf.
Qed.

(** From the platform's exit to the serial port: when the guest writes AL, AX or
    EAX to a port of COM1, the turn of the run loop sends the low byte of the RAX
    in the exit context to the UART register of the port's offset, and the guest
    goes on past the instruction, whose length is that of the exit's processor
    context; no other register is different. *)
Theorem whp_out_reaches_uart s ctx v1 v2 regs b m :
  reasons_distinct rs -> whv_run (ls_vcpu s) = (Ok ctx, v1) ->
  ec_reason ctx = rs_io_port rs -> is_io_write (ec_io_info ctx) = true -> 1 <= io_access_size (ec_io_info ctx) <= 4 ->
  COM1_BASE <= ec_io_port ctx < COM1_BASE + UART_PORT_COUNT ->
  poll_devices (ls_bus s) (ls_mem s) = (b, m, None) ->
  whp_get_regs v1 = Ok regs ->
  let regs' := with_rip regs (ec_vp_bitfield ctx mod 16) in
  whp_set_regs v1 regs' = (Ok tt, v2) ->
  loop_step (H := whp_vcpu rs) overflow_checks dev_fuel false s =
    (Ok None, set_vcpu (set_serial (set_bus s b m)
       (uart_write (ls_serial s) (ec_io_port ctx - COM1_BASE) (ec_io_rax ctx mod 256)).2) v2) /\
  whp_get_regs v2 = Ok regs'.
Proof.
  intros HD HR HE HW HN HP HB HG regs' HS. split; [|by apply (standard_regs_set v1)].
  assert (handles_port (ec_io_port ctx) = true) as HC.
  { unfold handles_port. apply andb_true_intro. split; [apply Z.leb_le|apply Z.ltb_lt]; lia. }
  assert (Z.land (ec_vp_bitfield ctx) 15 = ec_vp_bitfield ctx mod 16) as HL by (apply (land_mod _ 4); done).
  unfold loop_step, loop_poll_devices. rewrite loop_bind_unfold, HB. simpl.
  rewrite loop_bind_unfold. unfold vcpu_call. simpl. unfold whp_run. rewrite HR. simpl.
  rewrite (io_exit rs ctx HD HE), (proj2 (Z.ltb_ge _ _)) by lia. simpl.
  rewrite loop_bind_unfold. unfold handle_io_port. simpl. rewrite HC, HW, loop_bind_unfold. unfold serial_out. simpl.
  rewrite HL, (advance_rip_ok (H := whp_vcpu rs) _ regs v2); [|done|done]. simpl.
  unfold pio_write. rewrite (wrap_small 8 (ec_io_port ctx - _)) by (unfold in_range, UART_PORT_COUNT in *; lia).
  destruct (Z.to_nat (io_access_size (ec_io_info ctx))) eqn:EN; [lia|]. done.
Qed.
End Theorems.

(** ** Witnesses *)

(** A processor that is a register file and the exits to come. *)
Definition DemoVp : Type := (RegName -> RegValue) * list ExitContext.

#[local] Instance demo_vp : WhpVp DemoVp := {
  whv_get v names := Ok (v.1 <$> names);
  whv_set v nvs := (Ok tt, (fun n => default (v.1 n) (snd <$> find (fun p => bool_decide (p.1 = n)) nvs), v.2));
  whv_run v := match v.2 with c :: cs => (Ok c, (v.1, cs)) | [] => (Err "none"%string, v) end;
}.

#[local] Instance demo_vp_laws : WhpVpLaws DemoVp.
Proof.
  refine {| reg_file := fst |}.
  - intros w names vs [= <-]. done.
  - intros w nvs w' n [= <-] _. done.
  - done.
Defined.

Definition demo_reasons : ExitReasons :=
  {| rs_memory := 1; rs_io_port := 2; rs_halt := 8; rs_window := 7; rs_canceled := 0x2001; rs_unrecoverable := 4 |}.

(** [out dx, al] at COM1 with AL = 65 and an instruction of one byte. *)
Definition demo_out : ExitContext :=
  {| ec_reason := 2; ec_vp_bitfield := 0x31; ec_mem_info := 0; ec_mem_gpa := 0; ec_mem_byte_count := 0; ec_mem_bytes := [];
     ec_io_info := 3; ec_io_port := 0x3F8; ec_io_rax := 0x1241 |}.

Definition demo_vp_state : DemoVp := (fun _ => reg64_val 0x1000, [demo_out]).

Definition demo_configured : DemoVp := (configure_sregs (H := whp_vcpu_sregs (fun _ => 0)) demo_vp_state 0x9000).2.

Lemma whp_registers_roundtrip_witness : whp_get_sregs demo_configured = Ok (boot_sregs 0x9000).
Proof.
  apply (proj2 (proj2 (whp_registers_roundtrip (fun _ => 0) demo_vp_state demo_configured StandardRegs_default
    (boot_sregs 0) 0x9000))).
  vm_compute. reflexivity.
Defined.

#[local] Instance demo_bytes_uart : Uart (list Z) := {
  uart_write l off v := (true, l ++ [off; v]);
  uart_read l off := (off, l);
}.

#[local] Instance no_device : MmioDevice Empty_set unit := {
  dev_mmio_read d _ data := (d, data);
  dev_mmio_write _ d m _ _ := Ok (d, m, None);
  dev_poll_rx d m := (d, m, None);
}.

Lemma whp_out_reaches_uart_witness :
  exists v, loop_step (H := whp_vcpu demo_reasons) true 1 false
      (loop_init demo_vp_state [] (bus_new (Dev := Empty_set)) tt) =
    (Ok None, loop_init v [0; 65] bus_new tt) /\
    whp_get_regs v = Ok (with_rip (values_to_standard_regs (replicate 18 (reg64_val 0x1000))) 1).
Proof.
  eexists. split.
  - refine (proj1 (whp_out_reaches_uart demo_reasons true 1 (loop_init demo_vp_state [] bus_new tt) demo_out _ _
      (values_to_standard_regs (replicate 18 (reg64_val 0x1000))) bus_new tt _ _ _ _ _ _ _ _ _)); try reflexivity.
    + repeat constructor; set_solver.
    + vm_compute. split; congruence.
    + vm_compute. split; congruence.
  - reflexivity.
Defined.
