(* ===== verification/SerialBuf.v ===== *)
(** * The serial output buffer

    [hitz-vmm/src/serial_buf.rs]: a ring of the last bytes a guest printed, its
    independent readers, and the watch channel that wakes them.  The ring is
    specified by the unbounded stream of everything written; the wake-up protocol
    is a step relation of writers, closers and one reader. *)

From stdpp Require Import relations.
From S2P Require Import Prelude.

(** ** Data *)

(** [Inner]: what the mutex guards. *)
Record Inner := { ring : list Z; write_pos : nat; total_written : Z; closed : bool }.

Definition DEFAULT_CAPACITY : nat := 64 * 1024.

(** ** Operations *)

(** [SerialBuf::with_capacity]: [None] is the panic on an empty ring. *)
Definition with_capacity (capacity : nat) : option Inner :=
  if (0 <? capacity)%nat then
    Some {| ring := replicate capacity 0; write_pos := 0; total_written := 0; closed := false |}
  else None.

Definition serial_new : option Inner := with_capacity DEFAULT_CAPACITY.

(** [buf[a..a + data.len()].copy_from_slice(data)]: [None] is the panic out of range. *)
Definition copy_into (buf : list Z) (a : nat) (data : list Z) : option (list Z) :=
  if (a + length data <=? length buf)%nat then Some (splice a data buf) else None.

(** [Write::write]; [len] is always returned. *)
Definition serial_write (overflow_checks : bool) (b : Inner) (data : list Z) : option Inner :=
  let cap := length (ring b) in
  let len := length data in
  let data_to_write := if (cap <? len)%nat then drop (len - cap) data else data in
  let write_len := length data_to_write in
  let skipped := (len - cap)%nat in
  let pos := ((write_pos b + skipped) mod cap)%nat in
  let space_to_end := (cap - pos)%nat in
  '(buf, wp) ← (if (write_len <=? space_to_end)%nat then
                  buf ← copy_into (ring b) pos data_to_write;
                  Some (buf, ((pos + write_len) mod cap)%nat)
                else
                  buf ← copy_into (ring b) pos (take space_to_end data_to_write);
                  buf ← copy_into buf 0 (drop space_to_end data_to_write);
                  Some (buf, (write_len - space_to_end)%nat));
  total ← op_add overflow_checks 64 (total_written b) (Z.of_nat len);
  Some {| ring := buf; write_pos := wp; total_written := total; closed := closed b |}.

Definition serial_close (b : Inner) : Inner :=
  {| ring := ring b; write_pos := write_pos b; total_written := total_written b; closed := true |}.

(** [SerialBuf::reader]: a cursor at the end of what was written. *)
Definition reader_pos (b : Inner) : Z := total_written b.

(** What one turn of [read_chunk]'s loop finds under the lock. *)
Inductive ReadTurn := Chunk (bytes : list Z) | EndOfStream | Park.

Definition read_turn (b : Inner) (read_pos : Z) : ReadTurn * Z :=
  if read_pos <? total_written b then
    let cap := length (ring b) in
    let available := total_written b - read_pos in
    let read_pos := if Z.of_nat cap <? available then total_written b - Z.of_nat cap else read_pos in
    let to_read := Z.to_nat (total_written b - read_pos) in
    let start := ((write_pos b + cap - to_read mod cap) mod cap)%nat in
    let result :=
      if (start + to_read <=? cap)%nat then slice start (start + to_read) (ring b)
      else drop start (ring b) ++ take (to_read - (cap - start)) (ring b) in
    (Chunk result, total_written b)
  else if closed b then (EndOfStream, read_pos)
  else (Park, read_pos).

(** Many writes, as the guest makes them. *)
Fixpoint serial_writes (overflow_checks : bool) (b : Inner) (ds : list (list Z)) : option Inner :=
  match ds with
  | [] => Some b
  | d :: ds' => b' ← serial_write overflow_checks b d; serial_writes overflow_checks b' ds'
  end.

(** ** The wake-up protocol

    [tokio::sync::watch]: a version counter; [changed] returns when the receiver's
    last seen version is not the channel's, and fails once the senders are gone.
    Writers and closers notify after they release the lock.  The 64-bit count of
    bytes is taken not to be exhausted. *)

Inductive ReaderPhase := Checking | Parked | Finished.

Record SerialState := {
  inner : Inner;
  version : nat;
  senders_alive : bool;
  to_notify : nat;             (** writers between the unlock and [notify_tx.send] *)
  cursor : Z; seen : nat; phase : ReaderPhase;
  received : list (list Z);    (** chunks returned so far *)
}.

Definition set_inner (s : SerialState) (b : Inner) (n : nat) : SerialState :=
  {| inner := b; version := version s; senders_alive := senders_alive s; to_notify := n;
     cursor := cursor s; seen := seen s; phase := phase s; received := received s |}.

Definition set_reader (s : SerialState) (pos : Z) (sn : nat) (p : ReaderPhase) (r : list (list Z)) : SerialState :=
  {| inner := inner s; version := version s; senders_alive := senders_alive s; to_notify := to_notify s;
     cursor := pos; seen := sn; phase := p; received := r |}.

Inductive serial_step (oc : bool) (s : SerialState) : SerialState -> Prop :=
| step_serial_write d b :
    senders_alive s = true -> total_written (inner s) + zlen d < 2 ^ 64 ->
    serial_write oc (inner s) d = Some b ->
    serial_step oc s (set_inner s b (S (to_notify s)))
| step_serial_close :
    senders_alive s = true -> serial_step oc s (set_inner s (serial_close (inner s)) (S (to_notify s)))
| step_notify n :
    to_notify s = S n ->
    serial_step oc s
      {| inner := inner s; version := S (version s); senders_alive := senders_alive s; to_notify := n;
         cursor := cursor s; seen := seen s; phase := phase s; received := received s |}
| step_drop_senders :
    to_notify s = 0%nat ->
    serial_step oc s
      {| inner := inner s; version := version s; senders_alive := false; to_notify := 0;
         cursor := cursor s; seen := seen s; phase := phase s; received := received s |}
| step_check t pos :
    phase s = Checking -> read_turn (inner s) (cursor s) = (t, pos) ->
    serial_step oc s
      (match t with
       | Chunk bs => set_reader s pos (seen s) Checking (received s ++ [bs])
       | EndOfStream => set_reader s pos (seen s) Finished (received s)
       | Park => set_reader s pos (seen s) Parked (received s)
       end)
| step_changed :
    phase s = Parked -> seen s <> version s ->
    serial_step oc s (set_reader s (cursor s) (version s) Checking (received s))
| step_hangup :
    phase s = Parked -> seen s = version s -> senders_alive s = false ->
    serial_step oc s (set_reader s (cursor s) (seen s) Finished (received s)).

(** A buffer with some output and a reader created on it; the reader's receiver
    is a clone of one that has seen no notification. *)
Definition serial_init (b : Inner) (v : nat) : SerialState :=
  {| inner := b; version := v; senders_alive := true; to_notify := 0; cursor := reader_pos b; seen := 0;
     phase := Checking; received := [] |}.

(** ** Specification: the stream *)

(** [b] holds the end of the stream [h]. *)
Record holds_stream (b : Inner) (h : list Z) : Prop := {
  hs_cap : (0 < length (ring b))%nat;
  hs_total : total_written b = zlen h;
  hs_pos : write_pos b = (length h mod length (ring b))%nat;
  hs_bytes : forall p, (length h - length (ring b) <= p < length h)%nat ->
    ring b !! (p mod length (ring b))%nat = h !! p;
}.

(** What a reader at [p] is to receive: the unread bytes still in the ring. *)
Definition unread (cap : nat) (h : list Z) (p : Z) : list Z :=
  drop (Nat.max (Z.to_nat p) (length h - cap)) h.

(** ** Lemmas: positions in the ring *)

Lemma mod_add (c l k : nat) :
  (0 < c)%nat -> (k <= c)%nat ->
  ((l + k) mod c = if l mod c + k <? c then l mod c + k else l mod c + k - c)%nat.
Proof.
  intros Hc Hk. pose proof (Nat.mod_upper_bound l c ltac:(lia)). pose proof (Nat.div_mod_eq l c).
  case_on; b2p; symmetry.
  - apply (Nat.mod_unique _ _ (l / c)); lia.
  - apply (Nat.mod_unique _ _ (l / c + 1)); lia.
Qed.

Lemma copy_into_ok buf a data :
  (a + length data <= length buf)%nat -> copy_into buf a data = Some (splice a data buf).
Proof. intros H. unfold copy_into. by rewrite (proj2 (Nat.leb_le _ _)). Qed.

(** The two copies of a write, byte by byte: the new bytes from [pos] on, around
    the end, and the old ones elsewhere. *)
Definition ring_put (buf : list Z) (pos : nat) (w : list Z) : list Z :=
  let space := (length buf - pos)%nat in
  if (length w <=? space)%nat then splice pos w buf else splice 0 (drop space w) (splice pos (take space w) buf).

Lemma ring_put_length buf pos w :
  (pos < length buf)%nat -> (length w <= length buf)%nat -> length (ring_put buf pos w) = length buf.
Proof.
  intros Hp Hw. unfold ring_put. case_on; b2p; [by apply length_splice; lia|].
  assert (Hl : length (splice pos (take (length buf - pos) w) buf) = length buf)
    by (apply length_splice; rewrite length_take; lia).
  rewrite length_splice; [done|]. rewrite length_drop. lia.
Qed.

Lemma ring_put_lookup buf pos w i :
  (pos < length buf)%nat -> (length w <= length buf)%nat -> (i < length buf)%nat ->
  ring_put buf pos w !! i =
    if decide (pos <= i < pos + length w)%nat then w !! (i - pos)%nat
    else if decide (i + length buf < pos + length w)%nat then w !! (i + length buf - pos)%nat
    else buf !! i.
Proof.
  intros Hp Hw Hi. unfold ring_put. case_on; b2p.
  - rewrite splice_lookup by lia. repeat case_decide; done || lia.
  - assert (Hl : length (splice pos (take (length buf - pos) w) buf) = length buf)
      by (apply length_splice; rewrite length_take; lia).
    rewrite splice_lookup by (rewrite ?length_drop, ?Hl; lia).
    rewrite length_drop. case_decide as Hd.
    + rewrite lookup_drop, decide_False, decide_True by lia. f_equal. lia.
    + rewrite splice_lookup by (rewrite length_take; lia). rewrite length_take. repeat case_decide; try lia; [|done].
      rewrite lookup_take_lt by lia. done.
Qed.

Lemma serial_write_run oc b h d :
  holds_stream b h -> zlen h + zlen d < 2 ^ 64 ->
  let cap := length (ring b) in
  let pos := ((write_pos b + (length d - cap)) mod cap)%nat in
  let w := drop (length d - cap) d in
  serial_write oc b d =
    Some {| ring := ring_put (ring b) pos w; write_pos := ((pos + length w) mod cap)%nat;
            total_written := zlen h + zlen d; closed := closed b |}.
Proof.
  intros [Hc Ht Hp _] Hu. cbv zeta. unfold serial_write. cbv zeta.
  set (cap := length (ring b)) in *. set (pos := ((write_pos b + (length d - cap)) mod cap)%nat).
  assert (Hpos : (pos < cap)%nat) by (apply Nat.mod_upper_bound; lia).
  replace (if (cap <? length d)%nat then drop (length d - cap) d else d) with (drop (length d - cap) d).
  2: { case_on; b2p; [done|]. by replace (length d - cap)%nat with 0%nat by lia. }
  set (w := drop (length d - cap) d). assert (Hw : (length w <= cap)%nat) by (unfold w; rewrite length_drop; lia).
  assert (Ha : op_add oc 64 (total_written b) (Z.of_nat (length d)) = Some (zlen h + zlen d)).
  { rewrite Ht. unfold op_add, wrapping_add. fold (zlen d). pose proof (zlen_nonneg h). pose proof (zlen_nonneg d).
    destruct oc; [by apply checked_add_ok|]. by rewrite wrap_small by (unfold in_range; lia). }
  unfold ring_put. fold cap. case_on; b2p.
  - rewrite copy_into_ok by (fold cap; lia). simpl. by rewrite Ha.
  - rewrite copy_into_ok by (rewrite length_take; fold cap; lia). simpl.
    rewrite copy_into_ok by (rewrite length_drop, length_splice; rewrite ?length_take; fold cap; lia). simpl.
    rewrite Ha. simpl. do 2 f_equal. rewrite (mod_add cap pos (length w)) by lia.
    rewrite (Nat.mod_small pos) by lia. case_on; b2p; lia.
Qed.

Lemma serial_write_stream oc b h d :
  holds_stream b h -> zlen h + zlen d < 2 ^ 64 ->
  exists b', serial_write oc b d = Some b' /\ holds_stream b' (h ++ d) /\ closed b' = closed b /\
    length (ring b') = length (ring b).
Proof.
  intros Hh Hu. eexists. split; [by eapply serial_write_run|].
  destruct Hh as [Hc Ht Hp Hb]. set (cap := length (ring b)) in *.
  set (k := (length d - cap)%nat). set (pos := ((write_pos b + k) mod cap)%nat).
  assert (Hpos : (pos < cap)%nat) by (apply Nat.mod_upper_bound; lia).
  assert (Hpk : pos = ((length h + k) mod cap)%nat) by (unfold pos; rewrite Hp, Nat.Div0.add_mod_idemp_l; done).
  set (w := drop k d). assert (Hw : length w = (length d - k)%nat) by (unfold w; by rewrite length_drop).
  assert (HL : length (ring_put (ring b) pos w) = cap) by (apply ring_put_length; fold cap; lia).
  split; [|split; [done|exact HL]]. split; cbn [ring write_pos total_written].
  - lia.
  - by rewrite zlen_app.
  - rewrite HL, length_app, Hw, Hpk, Nat.Div0.add_mod_idemp_l. f_equal. lia.
  - intros p Hr. rewrite HL in *. rewrite length_app in Hr.
    assert (Hi : (p mod cap < cap)%nat) by (apply Nat.mod_upper_bound; lia).
    rewrite ring_put_lookup by (fold cap; lia). fold cap. destruct (decide (length h + k <= p)%nat) as [Hn|Hn].
    + (* a new byte *)
      replace p with (length h + k + (p - (length h + k)))%nat in Hi |- * by lia.
      set (j := (p - (length h + k))%nat) in *. rewrite (mod_add cap (length h + k) j) in * by lia. rewrite <- Hpk in *.
      assert (Hd : (h ++ d) !! (length h + k + j)%nat = w !! j).
      { rewrite lookup_app_r by lia. unfold w. rewrite lookup_drop. f_equal. lia. }
      rewrite Hd. case_on; b2p.
      * rewrite decide_True by lia. f_equal. lia.
      * rewrite decide_False, decide_True by lia. f_equal. lia.
    + (* an old byte *)
      assert (k = 0%nat) as Hk0 by lia. rewrite lookup_app_l by lia.
      pose proof (mod_add cap p (length h - p) ltac:(lia) ltac:(lia)) as Hm.
      replace (p + (length h - p))%nat with (length h) in Hm by lia.
      rewrite Hk0, Nat.add_0_r in Hpk. rewrite <- Hpk in Hm.
      rewrite !decide_False by (case_on; b2p; lia). apply Hb. lia.
Qed.

Lemma serial_writes_stream oc ds b h :
  holds_stream b h -> zlen h + zlen (concat ds) < 2 ^ 64 ->
  exists b', serial_writes oc b ds = Some b' /\ holds_stream b' (h ++ concat ds) /\ closed b' = closed b /\
    length (ring b') = length (ring b).
Proof.
  revert b h. induction ds as [|d ds IH]; intros b h Hh Hu; cbn [serial_writes concat].
  { exists b. by rewrite app_nil_r. }
  cbn [concat] in Hu. rewrite zlen_app in Hu. pose proof (zlen_nonneg (concat ds)).
  destruct (serial_write_stream oc b h d Hh) as (b1 & -> & H1 & Hc1 & Hl1); [lia|].
  destruct (IH b1 (h ++ d) H1) as (b' & E & H' & Hc' & Hl'); [rewrite zlen_app; lia|].
  exists b'. simpl. rewrite E, app_assoc. split_and!; [done|done|congruence|congruence].
Qed.

Lemma with_capacity_stream cap b : with_capacity cap = Some b -> holds_stream b [] /\ length (ring b) = cap /\ closed b = false.
Proof.
  unfold with_capacity. case_on; [|done]. b2p. intros [= <-]. cbn [ring]. rewrite length_replicate. split; [|done].
  split; cbn [ring total_written write_pos]; rewrite ?length_replicate; try done.
  - by rewrite Nat.Div0.mod_0_l.
  - intros p Hp. simpl in Hp. lia.
Qed.

(** ** Lemmas: reading *)

Lemma read_turn_stream b h p :
  holds_stream b h -> 0 <= p <= zlen h ->
  read_turn b p =
    if p <? zlen h then (Chunk (unread (length (ring b)) h p), zlen h)
    else (if closed b then EndOfStream else Park, p).
Proof.
  intros [Hc Ht Hp Hb] Hr. unfold read_turn. rewrite Ht. destruct (p <? zlen h) eqn:E; b2p; [|by destruct (closed b)].
  cbv zeta. set (cap := length (ring b)) in *. f_equal. f_equal.
  set (p' := if Z.of_nat cap <? zlen h - p then zlen h - Z.of_nat cap else p).
  set (q := Nat.max (Z.to_nat p) (length h - cap)).
  assert (Hq : Z.to_nat (zlen h - p') = (length h - q)%nat).
  { unfold p', q, zlen in *. case_on; b2p; lia. }
  rewrite Hq. set (n := (length h - q)%nat).
  assert (Hn : (0 < n <= cap)%nat) by (unfold n, q, zlen in *; lia).
  assert (Hq' : (q + n = length h)%nat) by (unfold n, q, zlen in *; lia).
  assert (Hst : ((write_pos b + cap - n mod cap) mod cap = q mod cap)%nat).
  { rewrite Hp. pose proof (mod_add cap q n ltac:(lia) ltac:(lia)) as Hm. rewrite Hq' in Hm.
    pose proof (Nat.mod_upper_bound q cap ltac:(lia)).
    destruct (decide (n = cap)) as [->|Hne].
    - rewrite Nat.Div0.mod_same, Nat.sub_0_r. rewrite mod_add by lia. rewrite Nat.Div0.mod_mod.
      rewrite Hm. repeat case_on; b2p; lia.
    - rewrite (Nat.mod_small n) by lia. rewrite Hm.
      case_on; b2p.
      + replace (q mod cap + n + cap - n)%nat with (q mod cap + cap)%nat by lia.
        rewrite mod_add by lia. rewrite Nat.Div0.mod_mod. case_on; b2p; lia.
      + replace (q mod cap + n - cap + cap - n)%nat with (q mod cap)%nat by lia. apply Nat.Div0.mod_mod. }
  rewrite Hst. set (st := (q mod cap)%nat). assert (Hs : (st < cap)%nat) by (apply Nat.mod_upper_bound; lia).
  assert (Hbyte : forall i, (i < n)%nat ->
    ring b !! (if st + i <? cap then st + i else st + i - cap)%nat = h !! (q + i)%nat).
  { intros i Hi. rewrite <- Hb by (unfold q in *; lia). f_equal. unfold st. by rewrite <- mod_add by lia. }
  unfold unread. fold q. apply list_eq. intros i. rewrite lookup_drop.
  destruct (decide (i < n)%nat) as [Hi|Hi].
  2: { rewrite (lookup_ge_None_2 h) by lia. apply lookup_ge_None_2. case_on; b2p.
       - rewrite length_slice by (fold cap; lia). lia.
       - rewrite length_app, length_drop, length_take. fold cap. lia. }
  rewrite <- Hbyte by done. destruct (st + n <=? cap)%nat eqn:Ew; b2p.
  - rewrite slice_lookup by lia. by rewrite (proj2 (Nat.ltb_lt _ _)) by lia.
  - destruct (st + i <? cap)%nat eqn:Ei; b2p.
    + rewrite lookup_app_l by (rewrite length_drop; fold cap; lia). by rewrite lookup_drop.
    + rewrite lookup_app_r by (rewrite length_drop; fold cap; lia). rewrite length_drop. fold cap.
      rewrite lookup_take_lt by lia. f_equal. lia.
Qed.

(** ** Lemmas: the protocol *)

(** What every reachable state satisfies: the ring holds a stream, the reader's
    cursor is in it, the chunks it got are a subsequence of what was written
    after its start, and it parks only with nothing to do or a wake-up due. *)
Record protocol_ok (cap : nat) (start : Z) (s : SerialState) (h : list Z) : Prop := {
  po_ring : holds_stream (inner s) h;
  po_cap : length (ring (inner s)) = cap;
  po_cursor : 0 <= start <= cursor s /\ cursor s <= zlen h;
  po_got : sublist (concat (received s)) (slice (Z.to_nat start) (Z.to_nat (cursor s)) h);
  po_exact : (length h <= cap)%nat -> concat (received s) = slice (Z.to_nat start) (Z.to_nat (cursor s)) h;
  po_seen : (seen s <= version s)%nat;
  po_parked : phase s = Parked -> seen s = version s -> to_notify s = 0%nat ->
    cursor s = zlen h /\ closed (inner s) = false;
}.

Lemma slice_extend (h : list Z) (a b : nat) : (a <= b <= length h)%nat -> slice a b h ++ drop b h = drop a h.
Proof.
  intros Hab. unfold slice. rewrite <- (take_drop (b - a) (drop a h)) at 2. rewrite drop_drop.
  do 2 f_equal. lia.
Qed.

Lemma slice_to_end (h : list Z) (a : nat) : slice a (length h) h = drop a h.
Proof. unfold slice. apply take_ge. by rewrite length_drop. Qed.

Lemma protocol_step oc cap start s s' h :
  serial_step oc s s' -> protocol_ok cap start s h -> exists d, protocol_ok cap start s' (h ++ d).
Proof.
  intros Hst [Hr Hc Hcur Hg He Hs Hp]. pose proof (zlen_nonneg h) as Hz.
  assert (Hzn : forall d, slice (Z.to_nat start) (Z.to_nat (cursor s)) (h ++ d) = slice (Z.to_nat start) (Z.to_nat (cursor s)) h).
  { intros d. apply slice_app_l. unfold zlen in *. lia. }
  destruct Hst as [d b Ha Hu Hw|Ha|n Hn|Hn|t pos Hph Ht|Hph Hv|Hph Hv Ha].
  - rewrite (hs_total _ _ Hr) in Hu. destruct (serial_write_stream oc _ _ _ Hr Hu) as (b' & Hb & Hr' & Hcl & Hl).
    rewrite Hw in Hb. injection Hb as <-. exists d. split; cbn; rewrite ?Hzn; try done; [by rewrite Hl|rewrite zlen_app; pose proof (zlen_nonneg d); lia|].
    intros Hle. apply He. rewrite length_app in Hle. lia.
  - exists []. rewrite app_nil_r. assert (holds_stream (serial_close (inner s)) h) by (destruct Hr; by split).
    by split; cbn.
  - exists []. rewrite app_nil_r. split; cbn; try done; lia.
  - exists []. rewrite app_nil_r. split; cbn; try done. intros H1 H2 _. by apply Hp.
  - exists []. rewrite app_nil_r. rewrite (read_turn_stream _ h) in Ht by (done || lia).
    destruct (cursor s <? zlen h) eqn:E; b2p.
    + injection Ht as <- <-. split; cbn; try done; [lia| |].
      * rewrite concat_app. cbn [concat]. rewrite app_nil_r. unfold zlen. rewrite Nat2Z.id, slice_to_end.
        rewrite <- (slice_extend h (Z.to_nat start) (Z.to_nat (cursor s))) by (unfold zlen in *; lia).
        apply sublist_app; [done|]. unfold unread.
        replace (Nat.max (Z.to_nat (cursor s)) (length h - length (ring (inner s))))
          with (Z.to_nat (cursor s) + (Nat.max (Z.to_nat (cursor s)) (length h - length (ring (inner s))) - Z.to_nat (cursor s)))%nat by lia.
        rewrite <- drop_drop. apply sublist_drop.
      * intros Hle. rewrite concat_app. cbn [concat]. rewrite app_nil_r. unfold zlen. rewrite Nat2Z.id, slice_to_end.
        rewrite <- (slice_extend h (Z.to_nat start) (Z.to_nat (cursor s))) by (unfold zlen in *; lia).
        rewrite He by done. unfold unread. by rewrite Hc, Nat.max_l by lia.
    + destruct (closed (inner s)) eqn:Ecl; injection Ht as <- <-; split; cbn; try done.
      intros _ _ _. split; [lia|done].
  - exists []. rewrite app_nil_r. by split; cbn.
  - exists []. rewrite app_nil_r. by split; cbn.
Qed.

Lemma protocol_reachable oc cap start s s' h :
  rtc (serial_step oc) s s' -> protocol_ok cap start s h -> exists d, protocol_ok cap start s' (h ++ d).
Proof.
  intros Hs. revert h. induction Hs as [s|s s1 s' H1 _ IH]; intros h Hp; [exists []; by rewrite app_nil_r|].
  destruct (protocol_step _ _ _ _ _ _ H1 Hp) as [d1 H2]. destruct (IH _ H2) as [d2 H3].
  exists (d1 ++ d2). by rewrite app_assoc.
Qed.

(** ** Properties *)

(** C25: Whatever is written to a new buffer, in however many pieces and with whatever
    laps around the ring, no write panics, and a reader at any position gets the
    unread bytes of the stream, from the oldest one still kept, or parks, or is
    told the stream is over. *)
Theorem serial_ring_refines_stream oc cap b0 ds :
  with_capacity cap = Some b0 -> zlen (concat ds) < 2 ^ 64 ->
  exists b, serial_writes oc b0 ds = Some b /\
    forall p, 0 <= p <= zlen (concat ds) ->
      read_turn b p = (if p <? zlen (concat ds) then (Chunk (unread cap (concat ds) p), zlen (concat ds)) else (Park, p)) /\
      (read_turn (serial_close b) p).1 =
        (if p <? zlen (concat ds) then Chunk (unread cap (concat ds) p) else EndOfStream).
Proof.
  intros (Hs & Hl & Hc)%with_capacity_stream Hu.
  destruct (serial_writes_stream oc ds b0 [] Hs Hu) as (b & E & Hb & Hcl & Hlen). exists b. split; [exact E|].
  simpl in Hb. intros p Hp. split.
  - rewrite (read_turn_stream b (concat ds)) by done. by rewrite Hcl, Hc, Hlen, Hl.
  - assert (Hb' : holds_stream (serial_close b) (concat ds)) by (destruct Hb; by split).
    rewrite (read_turn_stream _ (concat ds)) by done. cbn [serial_close ring closed]. rewrite Hlen, Hl. by case_on.
Qed.

(** However writers, closers and the reader interleave, the reader is never left
    asleep with work to do: when it is parked with no notification due, it has
    read everything and the buffer is not closed.  What it received is, in
    order, a part of what was written after it started, and all of it as long
    as the output fits the ring. *)
Theorem serial_no_lost_wakeup oc cap b v h s :
  holds_stream b h -> length (ring b) = cap -> rtc (serial_step oc) (serial_init b v) s ->
  exists d, holds_stream (inner s) (h ++ d) /\
    (phase s = Parked -> seen s = version s -> to_notify s = 0%nat ->
       cursor s = zlen (h ++ d) /\ closed (inner s) = false) /\
    sublist (concat (received s)) d /\
    ((length (h ++ d) <= cap)%nat -> cursor s = zlen (h ++ d) -> concat (received s) = d).
Proof.
  intros Hb Hc Hs. assert (Hi : protocol_ok cap (zlen h) (serial_init b v) h).
  { split; cbn; try done; [unfold reader_pos; rewrite (hs_total _ _ Hb); pose proof (zlen_nonneg h); lia|apply sublist_nil_l| |lia].
    intros _. unfold reader_pos. rewrite (hs_total _ _ Hb). unfold slice. by rewrite Nat.sub_diag. }
  destruct (protocol_reachable _ _ _ _ _ _ Hs Hi) as (d & [Hr _ Hcur Hg He _ Hp]). exists d.
  assert (Hd : slice (Z.to_nat (zlen h)) (length (h ++ d)) (h ++ d) = d).
  { rewrite slice_to_end. unfold zlen. by rewrite Nat2Z.id, drop_app_length. }
  split_and!; [done|done| |].
  - etrans; [exact Hg|]. rewrite <- Hd at 2. unfold slice.
    replace (take (Z.to_nat (cursor s) - Z.to_nat (zlen h)) (drop (Z.to_nat (zlen h)) (h ++ d)))
      with (take (Z.to_nat (cursor s) - Z.to_nat (zlen h)) (take (length (h ++ d) - Z.to_nat (zlen h)) (drop (Z.to_nat (zlen h)) (h ++ d)))).
    + apply sublist_take.
    + rewrite take_take. f_equal. unfold zlen in *. lia.
  - intros Hle Hcu. rewrite He by done. rewrite Hcu. unfold zlen at 2. by rewrite Nat2Z.id.
Qed.

(** ** Witnesses *)

Definition demo_chunks : list (list Z) := [[1; 2; 3]; [4; 5; 6; 7; 8; 9]; [10; 11]].

Lemma serial_ring_refines_stream_witness :
  exists b0 b, with_capacity 4 = Some b0 /\ serial_writes true b0 demo_chunks = Some b /\
    read_turn b 2 = (Chunk [8; 9; 10; 11], 11) /\ read_turn b 10 = (Chunk [11], 11) /\ read_turn b 11 = (Park, 11).
Proof.
  eexists. destruct (serial_ring_refines_stream true 4 _ demo_chunks eq_refl) as (b & E & Hr); [by vm_compute|].
  exists b. split; [reflexivity|]. split; [exact E|].
  split_and!; [rewrite (proj1 (Hr 2 ltac:(vm_compute; split; discriminate)))
              |rewrite (proj1 (Hr 10 ltac:(vm_compute; split; discriminate)))
              |rewrite (proj1 (Hr 11 ltac:(vm_compute; split; discriminate)))]; reflexivity.
Defined.

Lemma serial_no_lost_wakeup_witness :
  exists s d, holds_stream (inner s) ([1; 2] ++ d) /\ phase s = Parked.
Proof.
  set (b := {| ring := [1; 2; 0; 0]; write_pos := 2; total_written := 2; closed := false |}).
  assert (Hb : holds_stream b [1; 2]).
  { split; cbn; try done; try lia. intros [|[|p]] Hp; [done..|simpl in Hp; lia]. }
  destruct (serial_no_lost_wakeup true 4 b 0 [1; 2] (set_reader (serial_init b 0) 2 0 Parked []) Hb eq_refl) as (d & H1 & _).
  - apply rtc_once. exact (step_check true (serial_init b 0) Park 2 eq_refl eq_refl).
  - exists (set_reader (serial_init b 0) 2 0 Parked []), d. split; [exact H1|reflexivity].
Defined.
