(* ===== verification/StateStore.v ===== *)
(** * The persistent state store

    [hitz-daemon/src/state_store.rs] and [error.rs]: the configuration and state of
    each virtual machine as two JSON files in a directory of its own, what is
    read back when the daemon starts, and what failing I/O leaves behind. *)

From Stdlib Require Import String Ascii.
From stdpp Require Import gmap strings.
From S2P Require Import Prelude Hal Memory PageTables Ethernet Config.

(** ** Errors of the daemon *)

Inductive DaemonError :=
| NotFound (id : string)
| AlreadyExists (id : string)
| InvalidState (id : string) (state : VmState) (expected : string)
| Vmm (e : VmError)
| Io (msg : string)
| Internal (msg : string).

(** ** JSON

    [serde_json]: a value prints as a text, or fails (a path that is not UTF-8),
    and a text may parse.  The law is what the daemon relies on. *)
Class Json (A : Type) := { to_json : A -> result string string; from_json : string -> option A }.
Class JsonLaws (A : Type) `{Json A} := json_roundtrip (a : A) s : to_json a = Ok s -> from_json s = Some a.

Record PersistedState := { ps_state : VmState; created_at : Z; updated_at : Z }.

(** ** The file system below the daemon

    A virtual machine's directory and its two files.  [base_dir.join(id)] is the
    base directory itself for an empty id and for a dot, replaces it for an id
    with a prefix of its own (a drive letter on Windows), and is a child of it
    otherwise.  Names are compared exactly. *)

Record VmDir := { config_json : option string; state_json : option string }.
Inductive Location := BaseDir | Child (name : string) | Outside (path : string).

#[export] Instance VmDir_eq_dec : EqDecision VmDir.
Proof. solve_decision. Defined.
#[export] Instance Location_eq_dec : EqDecision Location.
Proof. solve_decision. Defined.
#[export] Instance Location_countable : Countable Location.
Proof.
  refine (inj_countable' (fun l => match l with BaseDir => inl () | Child n => inr (inl n) | Outside p => inr (inr p) end)
            (fun x => match x with inl _ => BaseDir | inr (inl n) => Child n | inr (inr p) => Outside p end) _).
  by intros [].
Defined.

(** What the next system call does: it works, or fails with a message; a failed
    write leaves [written] bytes of the new text in place of the file, or the
    old file; a failed removal leaves the files it did not reach. *)
Record Fault := { reason : string; written : option nat; kept_config : bool; kept_state : bool }.

Record StateStore := { files : gmap Location VmDir; outcomes : list (option Fault) }.

Definition empty_dir : VmDir := {| config_json := None; state_json := None |}.

Definition set_files (s : StateStore) (f : gmap Location VmDir) : StateStore :=
  {| files := f; outcomes := outcomes s |}.

(** ** Effects *)

Definition Store (A : Type) : Type := StateStore -> result DaemonError A * StateStore.

#[export] Instance store_ret : MRet Store := fun A a s => (Ok a, s).
#[export] Instance store_bind : MBind Store :=
  fun A B f m s => let '(r, s') := m s in match r with Ok a => f a s' | Err e => (Err e, s') end.

Definition lift_result {A} (r : result DaemonError A) : Store A := fun s => (r, s).

(** [.ok()]. *)
Definition attempt {A} (m : Store A) : Store (option A) := fun s =>
  let '(r, s') := m s in (Ok (res_ok r), s').

(** A system call: its effect when it works, and when it fails. *)
Definition system_call {A} (works : StateStore -> result DaemonError A * StateStore)
    (fails : Fault -> StateStore -> StateStore) : Store A := fun s =>
  match outcomes s with
  | Some f :: l => let s' := fails f {| files := files s; outcomes := l |} in (Err (Io (reason f)), s')
  | None :: l => works {| files := files s; outcomes := l |}
  | [] => works s
  end.

Definition dir_at (s : StateStore) (l : Location) : option VmDir := files s !! l.

(** [fs::create_dir_all]: the base directory comes with its children. *)
Definition create_dirs (l : Location) (f : gmap Location VmDir) : gmap Location VmDir :=
  let mk l f := match f !! l with Some _ => f | None => <[l := empty_dir]> f end in
  match l with Child _ => mk l (mk BaseDir f) | _ => mk l f end.

Definition create_dir_all (l : Location) : Store unit :=
  system_call (fun s => (Ok tt, set_files s (create_dirs l (files s)))) (fun _ s => s).

(** The two files of a directory. *)
Inductive FileName := ConfigFile | StateFile.

Definition file_of (n : FileName) (d : VmDir) : option string :=
  match n with ConfigFile => config_json d | StateFile => state_json d end.

Definition set_file (n : FileName) (text : string) (d : VmDir) : VmDir :=
  match n with
  | ConfigFile => {| config_json := Some text; state_json := state_json d |}
  | StateFile => {| config_json := config_json d; state_json := Some text |}
  end.

Definition no_such_file : DaemonError := Io "No such file or directory".

(** [fs::write]. *)
Definition write_file (l : Location) (n : FileName) (text : string) : Store unit :=
  system_call
    (fun s => match dir_at s l with
              | Some d => (Ok tt, set_files s (<[l := set_file n text d]> (files s)))
              | None => (Err no_such_file, s)
              end)
    (fun f s => match written f with
                | Some k => set_files s (alter (set_file n (substring 0 k text)) l (files s))
                | None => s
                end).

(** [fs::read_to_string]. *)
Definition read_file (l : Location) (n : FileName) : Store string :=
  system_call
    (fun s => (match dir_at s l with
               | Some d => ok_or (file_of n d) no_such_file
               | None => Err no_such_file
               end, s))
    (fun _ s => s).

Definition below (l l' : Location) : bool :=
  match l, l' with
  | BaseDir, BaseDir => true
  | BaseDir, Child _ => true
  | _, _ => bool_decide (l = l')
  end.

(** [fs::remove_dir_all]; a directory that is not there is no error for the store. *)
Definition remove_dir_all (l : Location) : Store unit :=
  system_call
    (fun s => (Ok tt, set_files s (filter (fun p => below l p.1 = false) (files s))))
    (fun f s => set_files s
       (map_imap (fun l' d =>
          Some (if below l l' then
                  {| config_json := if kept_config f then config_json d else None;
                     state_json := if kept_state f then state_json d else None |}
                else d)) (files s))).

(** ** Operations *)

Section Ops.
Context {Jc : Json VmConfig} {Jp : Json PersistedState}.
(** The platform: an id with a prefix replaces the path it is joined to. *)
Variable has_prefix : string -> bool.

Definition vm_dir (id : string) : Location :=
  if String.eqb id "" || String.eqb id "." then BaseDir
  else if has_prefix id then Outside id else Child id.

(** [StateStore::new]. *)
Definition store_new : Store unit := create_dir_all BaseDir.

Definition print_json {A} `{Json A} (a : A) : Store string :=
  lift_result (map_err Internal (to_json a)).

Definition save_config (id : string) (c : VmConfig) : Store unit :=
  let dir := vm_dir id in
  _ ← create_dir_all dir;
  json ← print_json c;
  write_file dir ConfigFile json.

Definition load_raw_state (id : string) : Store (option PersistedState) :=
  text ← attempt (read_file (vm_dir id) StateFile);
  mret (text ≫= from_json).

(** [now] is [now_ms()]. *)
Definition save_state (id : string) (state : VmState) (now : Z) : Store unit :=
  let dir := vm_dir id in
  _ ← create_dir_all dir;
  old ← load_raw_state id;
  let persisted := {| ps_state := state; created_at := default now (created_at <$> old); updated_at := now |} in
  json ← print_json persisted;
  write_file dir StateFile json.

Definition store_delete (id : string) : Store unit := remove_dir_all (vm_dir id).

(** A running machine did not survive the daemon. *)
Definition clamp (s : VmState) : VmState := if decide (s = Running) then Stopped else s.

(** One entry of the base directory; [None] is [continue]. *)
Definition load_entry (name : string) : Store (option (string * VmConfig * VmState)) :=
  found ← attempt (system_call (fun s => (Ok tt, s)) (fun _ s => s));
  match found with
  | None => mret None
  | Some _ =>
      text ← attempt (read_file (Child name) ConfigFile);
      match text ≫= from_json with
      | None => mret None
      | Some c => raw ← load_raw_state name; mret (Some (name, c, from_option (clamp ∘ ps_state) Created raw))
      end
  end.

Fixpoint load_entries (names : list string) : Store (list (string * VmConfig * VmState)) :=
  match names with
  | [] => mret []
  | n :: names' =>
      e ← load_entry n;
      es ← load_entries names';
      mret (option_list e ++ es)
  end.

Definition child_name (l : Location) : option string := match l with Child n => Some n | _ => None end.

(** The directories in the base directory, in the order [read_dir] gives. *)
Definition child_names (s : StateStore) : list string := omap (fun p => child_name p.1) (map_to_list (files s)).

Definition load_all : Store (list (string * VmConfig * VmState)) :=
  names ← system_call (fun s => (Ok (match dir_at s BaseDir with Some _ => child_names s | None => [] end), s))
            (fun _ s => s);
  load_entries names.

(** ** Specification: what is recovered from a directory *)

Definition recover (d : VmDir) : option (VmConfig * VmState) :=
  c ← config_json d ≫= from_json;
  Some (c, from_option (clamp ∘ ps_state) Created (state_json d ≫= from_json)).

Definition recovered (s : StateStore) (id : string) : option (VmConfig * VmState) := dir_at s (Child id) ≫= recover.

(** A file system on which every call works. *)
Definition reliable (s : StateStore) : Prop := outcomes s = [].

(** Children live in the base directory, and their names are plain. *)
Definition store_wf (s : StateStore) : Prop :=
  forall n, is_Some (files s !! Child n) -> is_Some (files s !! BaseDir) /\ vm_dir n = Child n.

(** [s'] differs from [s] only in one directory, and in that the base exists. *)
Definition only_dir (l : Location) (s s' : StateStore) : Prop :=
  forall l', l' <> l -> l' <> BaseDir -> files s' !! l' = files s !! l'.

End Ops.

(** ** Lemmas: effects *)

Lemma store_bind_run {A B} (m : Store A) (f : A -> Store B) s a s' :
  m s = (Ok a, s') -> (m ≫= f) s = f a s'.
Proof. intros E. unfold mbind, store_bind. by rewrite E. Qed.

Lemma attempt_run {A} (m : Store A) s r s' : m s = (r, s') -> attempt m s = (Ok (res_ok r), s').
Proof. intros E. unfold attempt. by rewrite E. Qed.

Lemma system_call_reliable {A} works fails s : reliable s -> @system_call A works fails s = works s.
Proof. intros Hr. unfold system_call. by rewrite Hr. Qed.

Lemma create_dirs_same l f : create_dirs l f !! l = Some (default empty_dir (f !! l)).
Proof.
  destruct l as [|n|p]; cbn [create_dirs]; repeat case_match; simplify_map_eq; try done;
    rewrite ?lookup_insert_ne in * by done; simplify_eq; done.
Qed.

Lemma create_dirs_other l f l' : l' <> l -> l' <> BaseDir -> create_dirs l f !! l' = f !! l'.
Proof.
  intros H1 H2. destruct l as [|n|p]; cbn [create_dirs]; repeat case_match; by rewrite ?lookup_insert_ne by congruence.
Qed.

Lemma create_dirs_base l f : l <> BaseDir -> create_dirs l f !! BaseDir = 
  match l with Child _ => Some (default empty_dir (f !! BaseDir)) | _ => f !! BaseDir end.
Proof.
  intros Hl. destruct l as [|n|p]; cbn [create_dirs]; [done| |]; repeat case_match; simplify_map_eq; done.
Qed.

#[global] Arguments create_dirs : simpl never.

(** ** Lemmas: one directory at a time *)

Lemma only_dir_refl l s : only_dir l s s.
Proof. by intros l'. Qed.

Lemma only_dir_trans l s1 s2 s3 : only_dir l s1 s2 -> only_dir l s2 s3 -> only_dir l s1 s3.
Proof. intros H1 H2 l' ? ?. by rewrite H2, H1. Qed.

Definition local {A} (l : Location) (m : Store A) : Prop := forall s, only_dir l s (m s).2.

Lemma local_bind {A B} l (m : Store A) (f : A -> Store B) :
  local l m -> (forall a, local l (f a)) -> local l (m ≫= f).
Proof.
  intros Hm Hf s. unfold mbind, store_bind. specialize (Hm s). destruct (m s) as [[a|e] s']; [|done].
  eapply only_dir_trans; [exact Hm|apply Hf].
Qed.

Lemma local_ret {A} l (a : A) : local l (mret a).
Proof. intros s. apply only_dir_refl. Qed.

Lemma local_result {A} l (r : result DaemonError A) : local l (lift_result r).
Proof. intros s. apply only_dir_refl. Qed.

Lemma local_attempt {A} l (m : Store A) : local l m -> local l (attempt m).
Proof. intros Hm s. unfold attempt. specialize (Hm s). by destruct (m s). Qed.

Lemma local_call {A} l works fails :
  (forall s, only_dir l s (works s).2) -> (forall f s, only_dir l s (fails f s)) -> local l (@system_call A works fails).
Proof.
  intros Hw Hf s. unfold system_call. destruct (outcomes s) as [|[f|] o]; [apply Hw| |].
  - intros l' H1 H2. exact (Hf f {| files := files s; outcomes := o |} l' H1 H2).
  - intros l' H1 H2. exact (Hw {| files := files s; outcomes := o |} l' H1 H2).
Qed.

#[local] Hint Resolve local_ret local_result local_attempt only_dir_refl : hitz.

Lemma local_create l : local l (create_dir_all l).
Proof. apply local_call; [|auto with hitz]. intros s l' H1 H2. by apply create_dirs_other. Qed.

Lemma local_write l n text : local l (write_file l n text).
Proof.
  apply local_call.
  - intros s. case_match; [|apply only_dir_refl]. intros l' H1 _. cbn. by rewrite lookup_insert_ne by congruence.
  - intros f s. case_match; [|apply only_dir_refl]. intros l' H1 _. cbn. by rewrite lookup_alter_ne by congruence.
Qed.

Lemma local_read l l' n : local l (read_file l' n).
Proof. apply local_call; auto with hitz. Qed.

Lemma below_child n l : below (Child n) l = bool_decide (Child n = l).
Proof. by destruct l. Qed.

Lemma local_remove n : local (Child n) (remove_dir_all (Child n)).
Proof.
  apply local_call.
  - intros s l' H1 _. cbn. rewrite map_lookup_filter. destruct (files s !! l') as [d|]; [|done].
    simpl. rewrite option_guard_True; [done|]. by case_bool_decide.
  - intros f s l' H1 _. cbn. rewrite map_lookup_imap. destruct (files s !! l') as [d|]; [|done].
    simpl. by rewrite bool_decide_eq_false_2 by congruence.
Qed.

#[export] Hint Resolve local_create local_write local_read local_remove : hitz.

Section Lemmas.
Context {Jc : Json VmConfig} {Lc : JsonLaws VmConfig} {Jp : Json PersistedState} {Lp : JsonLaws PersistedState}.
Variable has_prefix : string -> bool.
Notation vm_dir := (vm_dir has_prefix).
Notation save_config := (save_config has_prefix).
Notation save_state := (save_state has_prefix).
Notation load_raw_state := (load_raw_state has_prefix).

Lemma vm_dir_child id : id <> ""%string -> id <> "."%string -> has_prefix id = false -> vm_dir id = Child id.
Proof.
  intros H1 H2 H3. unfold StateStore.vm_dir.
  by rewrite (proj2 (String.eqb_neq _ _) H1), (proj2 (String.eqb_neq _ _) H2), H3.
Qed.

(** *** Calls that work *)

Definition put_file (s : StateStore) (l : Location) (n : FileName) (text : string) : StateStore :=
  set_files s (<[l := set_file n text (default empty_dir (files s !! l))]> (create_dirs l (files s))).

Lemma create_reliable l s : reliable s -> create_dir_all l s = (Ok tt, set_files s (create_dirs l (files s))).
Proof. intros. unfold create_dir_all. by rewrite system_call_reliable. Qed.

Lemma write_reliable l n text s d :
  reliable s -> files s !! l = Some d ->
  write_file l n text s = (Ok tt, set_files s (<[l := set_file n text d]> (files s))).
Proof. intros Hr Hd. unfold write_file. rewrite system_call_reliable by done. unfold dir_at. by rewrite Hd. Qed.

Lemma read_reliable l n s :
  reliable s -> exists r, read_file l n s = (r, s) /\ res_ok r = (files s !! l ≫= file_of n).
Proof.
  intros Hr. unfold read_file. rewrite system_call_reliable by done. unfold dir_at. eexists. split; [done|].
  destruct (files s !! l) as [d|]; [|done]. simpl. by destruct (file_of n d).
Qed.

Lemma raw_state_reliable id s :
  reliable s -> load_raw_state id s = (Ok ((files s !! vm_dir id ≫= state_json) ≫= from_json), s).
Proof.
  intros Hr. unfold StateStore.load_raw_state. destruct (read_reliable (vm_dir id) StateFile s Hr) as (r & E & Er).
  erewrite store_bind_run by (by apply attempt_run). rewrite Er. done.
Qed.

Lemma save_config_reliable id c s j :
  reliable s -> to_json c = Ok j -> save_config id c s = (Ok tt, put_file s (vm_dir id) ConfigFile j).
Proof.
  intros Hr Hj. unfold StateStore.save_config. cbv zeta.
  erewrite store_bind_run by (by apply create_reliable).
  erewrite store_bind_run by (unfold print_json, lift_result; by rewrite Hj).
  erewrite write_reliable by (done || apply create_dirs_same). done.
Qed.

Definition persisted (s : StateStore) (id : string) (st : VmState) (now : Z) : PersistedState :=
  {| ps_state := st; created_at := default now (created_at <$> ((files s !! vm_dir id ≫= state_json) ≫= from_json));
     updated_at := now |}.

Lemma save_state_reliable id st now s j :
  reliable s -> to_json (persisted s id st now) = Ok j ->
  save_state id st now s = (Ok tt, put_file s (vm_dir id) StateFile j).
Proof.
  intros Hr Hj. unfold StateStore.save_state. cbv zeta.
  erewrite store_bind_run by (by apply create_reliable).
  erewrite store_bind_run by (by apply raw_state_reliable). cbn [set_files files].
  rewrite create_dirs_same.
  assert (Hp : {| ps_state := st; created_at := default now
      (created_at <$> ((Some (default empty_dir (files s !! vm_dir id)) ≫= state_json) ≫= from_json));
      updated_at := now |} = persisted s id st now).
  { unfold persisted. by destruct (files s !! vm_dir id). }
  rewrite Hp. erewrite store_bind_run by (unfold print_json, lift_result; by rewrite Hj).
  erewrite write_reliable by (done || apply create_dirs_same). done.
Qed.

Lemma put_file_same s l n text :
  files (put_file s l n text) !! l = Some (set_file n text (default empty_dir (files s !! l))).
Proof. apply lookup_insert_eq. Qed.

Lemma put_file_other s l n text l' : l' <> l -> l' <> BaseDir -> files (put_file s l n text) !! l' = files s !! l'.
Proof. intros H1 H2. cbn. rewrite lookup_insert_ne by done. by apply create_dirs_other. Qed.

Lemma vm_dir_Child id n : vm_dir id = Child n -> id = n.
Proof. unfold StateStore.vm_dir. repeat case_match; congruence. Qed.

Lemma put_file_wf s id n text : store_wf has_prefix s -> store_wf has_prefix (put_file s (vm_dir id) n text).
Proof.
  intros Hw m Hm. destruct (decide (vm_dir id = Child m)) as [E|Hne].
  - apply vm_dir_Child in E as Em. subst m. rewrite E in *. split; [|done].
    cbn [put_file set_files files]. rewrite lookup_insert_ne by done. by rewrite create_dirs_base.
  - rewrite put_file_other in Hm by congruence. destruct (Hw m Hm) as [Hb Hn]. split; [|done]. cbn.
    destruct (decide (vm_dir id = BaseDir)) as [->|Hb']; [by rewrite lookup_insert_eq|].
    rewrite lookup_insert_ne by done. rewrite create_dirs_base by done. by destruct (vm_dir id).
Qed.

Lemma delete_reliable l s : reliable s ->
  remove_dir_all l s = (Ok tt, set_files s (filter (fun p => below l p.1 = false) (files s))).
Proof. intros. unfold remove_dir_all. by rewrite system_call_reliable. Qed.

Lemma deleted_lookup l s l' :
  files (set_files s (filter (fun p => below l p.1 = false) (files s))) !! l' =
  if below l l' then None else files s !! l'.
Proof.
  cbn. rewrite map_lookup_filter. destruct (files s !! l') as [d|]; simpl; [|by destruct (below l l')].
  case_guard as Hg; simpl in Hg; [by rewrite Hg|]. by destruct (below l l').
Qed.

(** *** Loading everything *)

Lemma load_entry_reliable name s :
  reliable s -> vm_dir name = Child name ->
  load_entry has_prefix name s = (Ok ((fun p => (name, p.1, p.2)) <$> recovered s name), s).
Proof.
  intros Hr Hv. unfold load_entry.
  erewrite store_bind_run by (apply attempt_run; by apply system_call_reliable). cbn [res_ok].
  destruct (read_reliable (Child name) ConfigFile s Hr) as (r & E & Er).
  erewrite store_bind_run by (by apply attempt_run). rewrite Er.
  unfold recovered, recover, dir_at. destruct (files s !! Child name) as [d|] eqn:Ed; [|done]. cbn [mbind option_bind file_of].
  destruct (config_json d ≫= from_json) as [c|]; [|done].
  erewrite store_bind_run by (by apply raw_state_reliable). rewrite Hv, Ed. done.
Qed.

Lemma load_entries_reliable names s :
  reliable s -> Forall (fun n => vm_dir n = Child n) names ->
  load_entries has_prefix names s = (Ok (omap (fun n => (fun p => (n, p.1, p.2)) <$> recovered s n) names), s).
Proof.
  intros Hr Hn. induction Hn as [|n names Hv _ IH]; [done|]. cbn [load_entries].
  erewrite store_bind_run by (by apply load_entry_reliable). rewrite (store_bind_run _ _ _ _ _ IH).
  cbn [omap list_omap]. by destruct (recovered s n).
Qed.

Lemma child_names_spec s n : n ∈ child_names s <-> is_Some (files s !! Child n).
Proof.
  unfold child_names. rewrite list_elem_of_omap. split.
  - intros ([l d] & Hin & Hl). apply elem_of_map_to_list in Hin. destruct l; simplify_eq/=. by eexists.
  - intros [d Hd]. exists (Child n, d). split; [by apply elem_of_map_to_list|done].
Qed.

Lemma load_all_reliable s :
  reliable s -> store_wf has_prefix s ->
  exists l, load_all has_prefix s = (Ok l, s) /\
    forall id c st, (id, c, st) ∈ l <-> recovered s id = Some (c, st).
Proof.
  intros Hr Hw. unfold load_all.
  erewrite store_bind_run by (rewrite system_call_reliable by done; reflexivity). set (names := match dir_at s BaseDir with Some _ => _ | None => _ end).
  assert (Hnames : forall n, n ∈ names <-> is_Some (files s !! Child n)).
  { intros n. unfold names, dir_at. destruct (files s !! BaseDir) as [d|] eqn:E; [apply child_names_spec|].
    split; [by intros ?%elem_of_nil|]. intros [[? Hb] _]%Hw. congruence. }
  eexists. split.
  - apply load_entries_reliable; [done|]. apply Forall_forall. intros n Hn. by apply Hnames, Hw in Hn as [_ ?].
  - intros id c st. rewrite list_elem_of_omap. split.
    + intros (n & _ & Hn). destruct (recovered s n) as [[c' st']|] eqn:E; simplify_eq/=. done.
    + intros Hrec. exists id. rewrite Hrec. split; [|done]. apply Hnames. unfold recovered, dir_at in Hrec.
      destruct (files s !! Child id); [by eexists|done].
Qed.

(** *** What recovery makes of a saved machine *)

Lemma recover_saved d c st p jc js :
  to_json c = Ok jc -> to_json p = Ok js -> ps_state p = st ->
  recover (set_file StateFile js (set_file ConfigFile jc d)) = Some (c, clamp st).
Proof.
  intros Hc Hp <-. unfold recover. cbn [set_file config_json state_json mbind option_bind].
  by rewrite (json_roundtrip c jc Hc), (json_roundtrip p js Hp).
Qed.
End Lemmas.

(** ** A concrete JSON, for witnesses

    One configuration with a text of its own, and an injective text for states. *)

#[export] Instance VmState_countable : Countable VmState.
Proof.
  refine (inj_countable' (fun s => match s with Created => 0 | Running => 1 | Stopped => 2 | Failed => 3 end)
            (fun n => if n =? 0 then Created else if n =? 1 then Running else if n =? 2 then Stopped else Failed) _).
  by intros [].
Defined.
#[export] Instance PersistedState_eq_dec : EqDecision PersistedState.
Proof. solve_decision. Defined.
#[export] Instance PersistedState_countable : Countable PersistedState.
Proof.
  refine (inj_countable' (fun p => (ps_state p, created_at p, updated_at p))
            (fun '(a, b, c) => {| ps_state := a; created_at := b; updated_at := c |}) _).
  by intros [].
Defined.

Fixpoint pos_text (p : positive) : string :=
  match p with xH => "]" | xO q => String "0" (pos_text q) | xI q => String "1" (pos_text q) end.

Fixpoint text_pos (s : string) : option positive :=
  match s with
  | String "]" "" => Some xH
  | String "0" s' => xO <$> text_pos s'
  | String "1" s' => xI <$> text_pos s'
  | _ => None
  end.

Lemma text_pos_text p : text_pos (pos_text p) = Some p.
Proof. induction p as [p IH|p IH|]; cbn [pos_text text_pos]; by rewrite ?IH. Qed.

Definition demo_vm : VmConfig :=
  {| kernel_path := "vmlinux"; initramfs_path := None; disk_path := None; ram_mib := 256; cpus := 1; cmdline := None;
     net := None; ports := []; guest_cid := DEFAULT_GUEST_CID; guest_agent := AgentDisabled |}.

Definition config_json_demo : Json VmConfig :=
  {| to_json := fun c => if decide (c = demo_vm) then Ok "{vm}"%string else Err "not UTF-8"%string;
     from_json := fun s => if String.eqb s "{vm}" then Some demo_vm else None |}.

Lemma config_json_demo_laws : @JsonLaws VmConfig config_json_demo.
Proof. intros c s. cbn. case_decide as Hc; [|done]. intros [= <-]. by rewrite Hc. Qed.

Definition state_json_demo : Json PersistedState :=
  {| to_json := fun p => Ok (pos_text (encode p)); from_json := fun s => p ← text_pos s; decode p |}.

Lemma state_json_demo_laws : @JsonLaws PersistedState state_json_demo.
Proof. intros p s [= <-]. cbn. rewrite text_pos_text. simpl. by rewrite decode_encode. Qed.

Definition no_prefix (id : string) : bool := false.

Definition new_store : StateStore := {| files := {[BaseDir := empty_dir]}; outcomes := [] |}.

Lemma new_store_wf hp : store_wf hp new_store.
Proof. intros n [d Hd]. cbn in Hd. by apply lookup_singleton_Some in Hd as [? _]. Qed.

(** ** Properties *)

Section Properties.
Context {Jc : Json VmConfig} {Lc : JsonLaws VmConfig} {Jp : Json PersistedState} {Lp : JsonLaws PersistedState}.
Variable hp : string -> bool.

(** C38: On a store where no call fails, for a name that is its own directory and
    records that serialise: a machine saved is recovered when the daemon starts again,
    with its configuration and its state (a running one as stopped), next to every
    other machine as it would have been recovered before; and its state file keeps the
    time of its first creation. *)
Theorem store_roundtrip s id c st now jc :
  reliable s -> store_wf hp s -> vm_dir hp id = Child id -> to_json c = Ok jc ->
  (forall p : PersistedState, is_ok (to_json p) = true) ->
  exists s' l,
    (_ ← save_config hp id c; save_state hp id st now) s = (Ok tt, s') /\ reliable s' /\ store_wf hp s' /\
    load_all hp s' = (Ok l, s') /\
    (forall id' c' st', (id', c', st') ∈ l <->
       if decide (id' = id) then c' = c /\ st' = (if decide (st = Running) then Stopped else st)
       else recovered s id' = Some (c', st')) /\
    load_raw_state hp id s' = (Ok (Some (persisted hp s id st now)), s').
Proof.
  intros Hr Hw Hv Hc Hp. set (s1 := put_file s (vm_dir hp id) ConfigFile jc).
  assert (H1 : reliable s1) by done.
  destruct (to_json (persisted hp s1 id st now)) as [js|e] eqn:Ej; [|specialize (Hp (persisted hp s1 id st now)); by rewrite Ej in Hp].
  set (s' := put_file s1 (vm_dir hp id) StateFile js). assert (Hr' : reliable s') by done.
  assert (Hps : persisted hp s1 id st now = persisted hp s id st now).
  { unfold persisted, s1. rewrite put_file_same. simpl. by destruct (files s !! vm_dir hp id). }
  assert (Hd : files s' !! Child id = Some (set_file StateFile js (set_file ConfigFile jc (default empty_dir (files s !! Child id))))).
  { unfold s', s1. rewrite Hv. rewrite put_file_same. f_equal. by rewrite put_file_same. }
  destruct (load_all_reliable hp s' Hr') as (l & El & Hl); [by apply put_file_wf, put_file_wf|].
  exists s', l. split_and!; [|done|by apply put_file_wf, put_file_wf|done| |].
  - erewrite store_bind_run by (by apply save_config_reliable). by apply save_state_reliable.
  - intros id' c' st'. rewrite Hl. case_decide as Hid.
    + subst id'. unfold recovered, dir_at. rewrite Hd. cbn [mbind option_bind].
      rewrite (recover_saved _ c st (persisted hp s id st now) jc js Hc) by (done || by rewrite <- Hps).
      split; [by intros [= <- <-]|by intros [-> ->]].
    + unfold recovered, dir_at, s', s1. by rewrite !put_file_other by (rewrite ?Hv; congruence).
  - rewrite raw_state_reliable by done. rewrite Hv, Hd. cbn [mbind option_bind set_file state_json].
    by rewrite (json_roundtrip _ js Ej), Hps.
Qed.

(** Whatever fails while one machine's files are written or removed, the others
    are recovered as before. *)
Theorem store_failures_contained s id id' c st now :
  vm_dir hp id = Child id -> id' <> id ->
  recovered (save_config hp id c s).2 id' = recovered s id' /\
  recovered (save_state hp id st now s).2 id' = recovered s id' /\
  recovered (store_delete hp id s).2 id' = recovered s id'.
Proof.
  intros Hv Hne. assert (Hl : forall (m : Store unit), local (Child id) m -> recovered (m s).2 id' = recovered s id').
  { intros m Hm. unfold recovered, dir_at. by rewrite (Hm s) by congruence. }
  split_and!; apply Hl; unfold save_config, save_state, store_delete, load_raw_state, print_json; cbv zeta; rewrite ?Hv;
    repeat first [apply local_bind; [|intros] | solve [auto with hitz]].
Qed.

(** An empty id, or a dot, names the base directory: deleting that machine
    removes every machine's files. *)
Theorem delete_dot_wipes_store s id :
  reliable s -> id = ""%string \/ id = "."%string ->
  exists s', store_delete hp id s = (Ok tt, s') /\ load_all hp s' = (Ok [], s') /\ forall n, files s' !! Child n = None.
Proof.
  intros Hr Hid. assert (Hv : vm_dir hp id = BaseDir) by (by destruct Hid as [-> | ->]).
  unfold store_delete. rewrite Hv, delete_reliable by done. eexists. split; [reflexivity|].
  assert (Hb : forall l, below BaseDir l = true -> files (set_files s (filter (fun p => below BaseDir p.1 = false) (files s))) !! l = None).
  { intros l Hl. rewrite deleted_lookup. by rewrite Hl. }
  split; [|intros n; by apply Hb]. unfold load_all.
  erewrite store_bind_run by (rewrite system_call_reliable by done; reflexivity).
  unfold dir_at. by rewrite Hb.
Qed.

(** A write of the state that the disk cuts short loses the state that was there:
    the machine is recovered as created, and can be started again. *)
Theorem torn_state_is_created s id c jc d st now f k js :
  outcomes s = [None; None; Some f] -> written f = Some k -> vm_dir hp id = Child id ->
  files s !! Child id = Some d -> config_json d = Some jc -> to_json c = Ok jc ->
  to_json (persisted hp s id st now) = Ok js -> (from_json (substring 0 k js) : option PersistedState) = None ->
  exists s', save_state hp id st now s = (Err (Io (reason f)), s') /\ recovered s' id = Some (c, Created).
Proof.
  intros Ho Hw Hv Hd Hc Hjc Hjs Hn. unfold save_state, load_raw_state. cbv zeta. rewrite Hv.
  set (fs := create_dirs (Child id) (files s)).
  assert (Hmk : fs !! Child id = Some d) by (unfold fs; by rewrite create_dirs_same, Hd).
  assert (E1 : create_dir_all (Child id) s = (Ok tt, {| files := fs; outcomes := [None; Some f] |}))
    by (unfold create_dir_all, system_call; by rewrite Ho).
  assert (E2 : attempt (read_file (Child id) StateFile) {| files := fs; outcomes := [None; Some f] |} =
               (Ok (state_json d), {| files := fs; outcomes := [Some f] |})).
  { erewrite attempt_run by (unfold read_file, system_call; cbn [outcomes]; reflexivity).
    unfold dir_at. cbn [files]. rewrite Hmk. cbn [file_of]. by destruct (state_json d). }
  rewrite (store_bind_run _ _ _ _ _ E1). erewrite store_bind_run by (by rewrite (store_bind_run _ _ _ _ _ E2)).
  unfold persisted in Hjs. rewrite Hv, Hd in Hjs. cbn [mbind option_bind] in Hjs.
  erewrite store_bind_run by (unfold print_json, lift_result; by rewrite Hjs).
  unfold write_file, system_call. cbn [outcomes]. rewrite Hw. eexists. split; [reflexivity|].
  unfold recovered, dir_at. cbn [set_files files]. rewrite lookup_alter_eq, Hmk.
  cbn [fmap option_fmap option_map mbind option_bind]. unfold recover. cbn [set_file config_json state_json].
  rewrite Hc. cbn [mbind option_bind]. rewrite (json_roundtrip c jc Hjc). cbn [mbind option_bind]. by rewrite Hn.
Qed.
End Properties.

(** ** Witnesses *)

Definition saved_store : StateStore :=
  (@save_state state_json_demo no_prefix "web" Running 1000 (@save_config config_json_demo no_prefix "web" demo_vm new_store).2).2.

Lemma store_roundtrip_witness :
  exists s' l, @load_all config_json_demo state_json_demo no_prefix s' = (Ok l, s') /\ (("web"%string, demo_vm, Stopped) ∈ l).
Proof.
  destruct (@store_roundtrip config_json_demo config_json_demo_laws state_json_demo state_json_demo_laws no_prefix new_store "web" demo_vm Running 1000
              _ eq_refl (new_store_wf _) eq_refl eq_refl (fun _ => eq_refl)) as (s' & l & _ & _ & _ & El & Hl & _).
  exists s', l. split; [exact El|]. apply Hl. rewrite decide_True by done. split; reflexivity.
Defined.

Lemma store_failures_contained_witness :
  @recovered config_json_demo state_json_demo (@save_state state_json_demo no_prefix "db" Running 5
    {| files := files saved_store; outcomes := [None; Some {| reason := "disk full"; written := Some 3%nat; kept_config := true; kept_state := true |}] |}).2 "web"
  = Some (demo_vm, Stopped).
Proof.
  rewrite (proj1 (proj2 (@store_failures_contained config_json_demo state_json_demo no_prefix _ "db" "web" demo_vm Running 5 eq_refl ltac:(discriminate)))).
  vm_compute. reflexivity.
Defined.

Lemma delete_dot_wipes_store_witness :
  @recovered config_json_demo state_json_demo saved_store "web" = Some (demo_vm, Stopped) /\
  exists s', store_delete no_prefix "." saved_store = (Ok tt, s') /\ @load_all config_json_demo state_json_demo no_prefix s' = (Ok [], s').
Proof.
  split; [vm_compute; reflexivity|].
  destruct (@delete_dot_wipes_store config_json_demo state_json_demo no_prefix saved_store "." eq_refl (or_intror eq_refl)) as (s' & E & El & _).
  exists s'. split; [exact E|exact El].
Defined.

Definition torn : Fault := {| reason := "no space left on device"; written := Some 5%nat; kept_config := true; kept_state := true |}.

Lemma torn_state_is_created_witness :
  exists s', @save_state state_json_demo no_prefix "web" Stopped 2000 {| files := files saved_store; outcomes := [None; None; Some torn] |}
    = (Err (Io "no space left on device"), s') /\ @recovered config_json_demo state_json_demo s' "web" = Some (demo_vm, Created).
Proof.
  eapply (@torn_state_is_created config_json_demo config_json_demo_laws state_json_demo no_prefix
    {| files := files saved_store; outcomes := [None; None; Some torn] |} "web" demo_vm _ _ Stopped 2000 torn 5%nat);
    vm_compute; reflexivity.
Defined.
