(* ===== verification/VmManager.v ===== *)
(** * The manager of virtual machines

    [hitz-daemon/src/vm_manager.rs]: the table of machines, the operations of
    [VmManager] and what the task of a machine does when it exits.  Every
    operation is composed of segments that run without interruption: one critical
    section on the table, or one call of the state store.  [Daemon.v] interleaves
    the same segments; here they are composed as one caller runs them. *)

From Stdlib Require Import String Ascii.
From stdpp Require Import gmap strings.
From S2P Require Import Prelude Hal Memory PageTables Cpio Ethernet Config RunLoop SerialBuf StateStore.

(** ** Data *)

(** [VmEntry]; flags and buffers are shared, so an entry holds their addresses.
    [vsock_handle] is never anything but [None]. *)
Record VmEntry := {
  e_config : VmConfig;
  e_state : VmState;
  e_exit_reason : option string;
  e_stop_flag : option nat;
  e_serial_buf : option nat;
}.

Record VmInfo := { i_id : string; i_state : VmState; i_config : VmConfig; i_exit_reason : option string }.

Definition to_info (e : VmEntry) (id : string) : VmInfo :=
  {| i_id := id; i_state := e_state e; i_config := e_config e; i_exit_reason := e_exit_reason e |}.

(** The manager with what it shares with its tasks: the table behind the mutex,
    the store, the heap of stop flags and serial buffers, the completion channel
    and the lock on its receiver, the running-machine counter, and the clock. *)
Record VmManager := {
  vms : gmap string VmEntry;
  store : StateStore;
  stop_flags : gmap nat bool;
  serial_bufs : gmap nat Inner;
  next_object : nat;
  completions : list string;
  receiver_locked : bool;
  vm_count : Z;
  now_ms : Z;
}.

(** How [boot_and_run] ended: with a reason, with an error ([e.to_string()]), or
    by a panic of its thread. *)
Inductive RunOutcome := RanTo (r : ExitReason) | RunFailed (text : string) | TaskPanicked (text : string).

(** *** Field updates *)

Definition set_vms (m : VmManager) (v : gmap string VmEntry) : VmManager :=
  {| vms := v; store := store m; stop_flags := stop_flags m; serial_bufs := serial_bufs m;
     next_object := next_object m; completions := completions m; receiver_locked := receiver_locked m;
     vm_count := vm_count m; now_ms := now_ms m |}.

Definition set_store (m : VmManager) (s : StateStore) : VmManager :=
  {| vms := vms m; store := s; stop_flags := stop_flags m; serial_bufs := serial_bufs m;
     next_object := next_object m; completions := completions m; receiver_locked := receiver_locked m;
     vm_count := vm_count m; now_ms := now_ms m |}.

Definition set_heap (m : VmManager) (f : gmap nat bool) (b : gmap nat Inner) (n : nat) : VmManager :=
  {| vms := vms m; store := store m; stop_flags := f; serial_bufs := b;
     next_object := n; completions := completions m; receiver_locked := receiver_locked m;
     vm_count := vm_count m; now_ms := now_ms m |}.

Definition set_channel (m : VmManager) (c : list string) (l : bool) : VmManager :=
  {| vms := vms m; store := store m; stop_flags := stop_flags m; serial_bufs := serial_bufs m;
     next_object := next_object m; completions := c; receiver_locked := l;
     vm_count := vm_count m; now_ms := now_ms m |}.

Definition set_count (m : VmManager) (n : Z) : VmManager :=
  {| vms := vms m; store := store m; stop_flags := stop_flags m; serial_bufs := serial_bufs m;
     next_object := next_object m; completions := completions m; receiver_locked := receiver_locked m;
     vm_count := n; now_ms := now_ms m |}.

Definition set_now (m : VmManager) (t : Z) : VmManager :=
  {| vms := vms m; store := store m; stop_flags := stop_flags m; serial_bufs := serial_bufs m;
     next_object := next_object m; completions := completions m; receiver_locked := receiver_locked m;
     vm_count := vm_count m; now_ms := t |}.

(** A store call made by the manager. *)
Definition on_store {A} (op : Store A) (m : VmManager) : result DaemonError A * VmManager :=
  let '(r, s) := op (store m) in (r, set_store m s).

Definition set_flag (f : option nat) (m : VmManager) : VmManager :=
  match f with
  | Some a => set_heap m (<[a := true]> (stop_flags m)) (serial_bufs m) (next_object m)
  | None => m
  end.

(** ** Segments *)

(** [id.contains("..")]. *)
Fixpoint has_dotdot (s : string) : bool :=
  match s with
  | String "." (String "." _) => true
  | String _ s' => has_dotdot s'
  | EmptyString => false
  end.

Definition bad_id (id : string) : bool := contains "/" id || contains "\" id || has_dotdot id.

Definition new_entry (c : VmConfig) (st : VmState) : VmEntry :=
  {| e_config := c; e_state := st; e_exit_reason := None; e_stop_flag := None; e_serial_buf := None |}.

Section Segments.
Context {Jc : Json VmConfig} {Jp : Json PersistedState}.
Variables (has_prefix : string -> bool) (path_exists : string -> bool) (is_separator : ascii -> bool).

(** *** Creation *)

Definition create_insert (id : string) (c : VmConfig) (m : VmManager) : result DaemonError VmInfo * VmManager :=
  if bad_id id then (Err (Internal "Invalid VM ID"), m)
  else match validate_config path_exists is_separator c with
       | Err e => (Err (Vmm e), m)
       | Ok _ =>
           match vms m !! id with
           | Some _ => (Err (AlreadyExists id), m)
           | None => let entry := new_entry c Created in
                     (Ok (to_info entry id), set_vms m (<[id := entry]> (vms m)))
           end
       end.

Definition create_rollback (id : string) (m : VmManager) : VmManager := set_vms m (delete id (vms m)).

Definition persist_config (id : string) (c : VmConfig) : VmManager -> result DaemonError unit * VmManager :=
  on_store (save_config has_prefix id c).

Definition persist_state (id : string) (st : VmState) (m : VmManager) : result DaemonError unit * VmManager :=
  on_store (save_state has_prefix id st (now_ms m)) m.

(** *** Starting *)

Definition not_in_state (id : string) (e : VmEntry) (expected : string) : DaemonError :=
  InvalidState id (e_state e) expected.

(** The first critical section of [start_vm]: the machine becomes running, with
    a new stop flag and a new serial buffer. *)
Definition start_claim (id : string) (m : VmManager) :
    result DaemonError (VmConfig * nat * nat * VmInfo) * VmManager :=
  match vms m !! id with
  | None => (Err (NotFound id), m)
  | Some e =>
      if decide (e_state e = Created) then
        let flag := next_object m in
        let buf := S (next_object m) in
        let e' := {| e_config := e_config e; e_state := Running; e_exit_reason := e_exit_reason e;
                     e_stop_flag := Some flag; e_serial_buf := Some buf |} in
        let m' := set_heap m (<[flag := false]> (stop_flags m))
                    (match serial_new with Some b => <[buf := b]> (serial_bufs m) | None => serial_bufs m end)
                    (S (S (next_object m))) in
        (Ok (e_config e, flag, buf, to_info e' id), set_vms m' (<[id := e']> (vms m)))
      else (Err (not_in_state id e "Created"), m)
  end.

Definition start_count (m : VmManager) : VmManager := set_count m (vm_count m + 1).

(** *** The end of a machine's task *)

Definition exit_count (m : VmManager) : VmManager := set_count m (vm_count m - 1).

Definition reason_text (r : ExitReason) : string :=
  match r with Halt => "Halt" | Shutdown => "Shutdown" | Canceled => "Canceled" | Unexpected t => t end.

Definition outcome_state (o : RunOutcome) : VmState * string :=
  match o with
  | RanTo (Unexpected t) => (Failed, t)
  | RanTo r => (Stopped, reason_text r)
  | RunFailed t => (Failed, t)
  | TaskPanicked t => (Failed, ("task panicked: " ++ t)%string)
  end.

Definition close_buf (b : option nat) (m : VmManager) : VmManager :=
  match b with
  | Some a => set_heap m (stop_flags m) (alter serial_close a (serial_bufs m)) (next_object m)
  | None => m
  end.

(** The critical section after [boot_and_run]: the state to persist, if the
    machine is still listed. *)
Definition exit_update (id : string) (o : RunOutcome) (m : VmManager) : option VmState * VmManager :=
  match vms m !! id with
  | None => (None, m)
  | Some e =>
      let '(st, why) := outcome_state o in
      let e' := {| e_config := e_config e; e_state := st; e_exit_reason := Some why;
                   e_stop_flag := None; e_serial_buf := e_serial_buf e |} in
      (Some st, close_buf (e_serial_buf e) (set_vms m (<[id := e']> (vms m))))
  end.

Definition exit_send (id : string) (m : VmManager) : VmManager :=
  set_channel m (completions m ++ [id]) (receiver_locked m).

(** *** Deletion *)

Definition delete_remove (id : string) (m : VmManager) : result DaemonError unit * VmManager :=
  match vms m !! id with
  | None => (Err (NotFound id), m)
  | Some e =>
      if decide (e_state e = Running) then (Err (not_in_state id e "Created, Stopped, or Failed"), m)
      else (Ok tt, set_vms m (delete id (vms m)))
  end.

Definition delete_persist (id : string) : VmManager -> result DaemonError unit * VmManager :=
  on_store (store_delete has_prefix id).

(** *** Operations of one segment *)

Definition stop_vm (id : string) (m : VmManager) : result DaemonError VmInfo * VmManager :=
  match vms m !! id with
  | None => (Err (NotFound id), m)
  | Some e =>
      if decide (e_state e = Running) then (Ok (to_info e id), set_flag (e_stop_flag e) m)
      else (Err (not_in_state id e "Running"), m)
  end.

Definition get_vm (id : string) (m : VmManager) : result DaemonError VmInfo :=
  match vms m !! id with
  | None => Err (NotFound id)
  | Some e => Ok (to_info e id)
  end.

(** In the order of the hash map. *)
Definition list_vms (m : VmManager) : list VmInfo := (fun p => to_info p.2 p.1) <$> map_to_list (vms m).

(** A reader of a machine's output: the buffer and the position it starts at. *)
Definition serial_reader (id : string) (m : VmManager) : result DaemonError (nat * Z) :=
  match vms m !! id with
  | None => Err (NotFound id)
  | Some e =>
      match e_serial_buf e ≫= (fun a => (fun b => (a, reader_pos b)) <$> serial_bufs m !! a) with
      | Some r => Ok r
      | None => Err (not_in_state id e "Running (with serial buffer)")
      end
  end.

Definition clone_config (src_id : string) (m : VmManager) : result DaemonError VmConfig :=
  match vms m !! src_id with
  | None => Err (NotFound src_id)
  | Some e => Ok (e_config e)
  end.

Definition request_metrics_snapshot (id : string) (m : VmManager) : option string := None.

(** The loop over the table of [stop_all] and [stop_all_and_wait]. *)
Definition running (e : VmEntry) : bool := bool_decide (e_state e = Running).

Definition running_entries (m : VmManager) : list VmEntry := filter running (snd <$> map_to_list (vms m)).

Definition stop_all (m : VmManager) : VmManager :=
  foldl (fun m e => set_flag (e_stop_flag e) m) m (running_entries m).

Definition running_count (m : VmManager) : nat := length (running_entries m).

(** ** Operations *)

Definition create_vm (id : string) (c : VmConfig) (m : VmManager) : result DaemonError VmInfo * VmManager :=
  let '(r, m) := create_insert id c m in
  match r with
  | Err e => (Err e, m)
  | Ok info =>
      let '(r, m) := persist_config id c m in
      let '(r, m) := match r with Ok _ => persist_state id Created m | Err e => (Err e, m) end in
      match r with
      | Ok _ => (Ok info, m)
      | Err e => (Err e, create_rollback id m)
      end
  end.

Definition clone_vm (src_id dest_id : string) (m : VmManager) : result DaemonError VmInfo * VmManager :=
  match clone_config src_id m with
  | Err e => (Err e, m)
  | Ok c => create_vm dest_id c m
  end.

(** [start_vm]: the answer and the state with the task spawned, the machine's
    configuration, stop flag and serial buffer. *)
Definition start_vm (id : string) (m : VmManager) :
    result DaemonError (VmInfo * (VmConfig * nat * nat)) * VmManager :=
  let '(r, m) := start_claim id m in
  match r with
  | Err e => (Err e, m)
  | Ok (c, flag, buf, info) =>
      let '(r, m) := persist_state id Running m in
      match r with
      | Err e => (Err e, m)
      | Ok _ => (Ok (info, (c, flag, buf)), start_count m)
      end
  end.

(** The end of a machine's task, when nothing comes between. *)
Definition exit_vm (id : string) (o : RunOutcome) (m : VmManager) : VmManager :=
  let m := exit_count m in
  let '(st, m) := exit_update id o m in
  let m := match st with Some st => (persist_state id st m).2 | None => m end in
  exit_send id m.

Definition delete_vm (id : string) (m : VmManager) : result DaemonError unit * VmManager :=
  let '(r, m) := delete_remove id m in
  match r with
  | Err e => (Err e, m)
  | Ok _ => delete_persist id m
  end.

(** [restart_vm]: [others i] is what the rest of the daemon does during the
    [i]-th sleep. *)
Section Restart.
Variable others : nat -> VmManager -> VmManager.

Fixpoint await_stop (id : string) (turns i : nat) (m : VmManager) : result DaemonError bool * VmManager :=
  match turns with
  | O => (Ok false, m)
  | S turns' =>
      let m := others i m in
      match get_vm id m with
      | Err e => (Err e, m)
      | Ok info =>
          if bool_decide (i_state info = Stopped \/ i_state info = Failed) then (Ok true, m)
          else await_stop id turns' (S i) m
      end
  end.

Definition restart_vm (id : string) (m : VmManager) :
    result DaemonError (VmInfo * (VmConfig * nat * nat)) * VmManager :=
  let '(r, m) := stop_vm id m in
  match r with
  | Err e => (Err e, m)
  | Ok _ =>
      let '(r, m) := await_stop id 50 0 m in
      match r with
      | Err e => (Err e, m)
      | Ok false => (Err (Internal ("VM " ++ id ++ " failed to stop within 5 seconds for restart")%string), m)
      | Ok true => start_vm id m
      end
  end.
End Restart.

(** *** The manager a daemon starts with *)

Definition recovered_entry (p : string * VmConfig * VmState) : string * VmEntry :=
  let '(id, c, st) := p in (id, new_entry c st).

Definition manager_new : StateStore -> result DaemonError VmManager := fun s =>
  let '(r, s) := (_ ← store_new; load_all has_prefix) s in
  existing ← r;
  Ok {| vms := list_to_map (recovered_entry <$> reverse existing); store := s; stop_flags := ∅; serial_bufs := ∅;
        next_object := 0; completions := []; receiver_locked := false; vm_count := 0; now_ms := 0 |}.

End Segments.

(** ** Guest agent injection *)

Section Agent.
(** The agent linked into the daemon, and [fs::read] and [fs::write] as seen here. *)
Variables (AGENT_BYTES : list Z) (fs_read : string -> option (list Z)) (fs_write : string -> list Z -> bool)
          (temp_file : string -> string) (overflow_checks : bool).

Definition resolve_agent_bytes (m : GuestAgentMode) : option (list Z) :=
  match m with
  | AgentDisabled => None
  | AgentAuto => match AGENT_BYTES with [] => None | _ => Some AGENT_BYTES end
  | AgentCustom path => fs_read path
  end.

Definition with_initramfs (c : VmConfig) (p : string) : VmConfig :=
  {| kernel_path := kernel_path c; initramfs_path := Some p; disk_path := disk_path c; ram_mib := ram_mib c;
     cpus := cpus c; cmdline := cmdline c; net := net c; ports := ports c; guest_cid := guest_cid c;
     guest_agent := guest_agent c |}.

(** What is written to the temporary file, and the configuration booted; [None]
    is a panic of [build_agent_overlay]. *)
Definition combined_initramfs (c : VmConfig) (overlay : list Z) : list Z :=
  match initramfs_path c with Some path => default [] (fs_read path) | None => [] end ++ overlay.

Definition inject_guest_agent (c : VmConfig) (id : string) : option VmConfig :=
  match resolve_agent_bytes (guest_agent c) with
  | None => Some c
  | Some agent_bytes =>
      overlay ← build_agent_overlay overflow_checks agent_bytes;
      let tmp := temp_file ("hitz-initrd-" ++ id ++ ".cpio")%string in
      Some (if fs_write tmp (combined_initramfs c overlay) then with_initramfs c tmp else c)
  end.
End Agent.

(** ** Specification *)

Section Spec.
Context {Jc : Json VmConfig} {Jp : Json PersistedState}.
Variables (has_prefix : string -> bool) (path_exists : string -> bool) (is_separator : ascii -> bool).
Notation plain id := (vm_dir has_prefix id = Child id).

(** The machine, if listed, has been started. *)
Definition not_created (id : string) (m : VmManager) : Prop :=
  forall e, vms m !! id = Some e -> e_state e <> Created.

(** What a daemon started now would recover is what the table holds, running
    machines as stopped. *)
Record synced (m : VmManager) : Prop := {
  sy_reliable : reliable (store m);
  sy_store : store_wf has_prefix (store m);
  sy_plain : forall id, is_Some (vms m !! id) -> plain id;
  sy_same : forall id, recovered (store m) id = (fun e => (e_config e, clamp (e_state e))) <$> vms m !! id;
}.

(** One caller at a time, and exits of running machines in between. *)
Inductive call_step (m : VmManager) : VmManager -> Prop :=
| call_create id c : plain id -> call_step m (create_vm has_prefix path_exists is_separator id c m).2
| call_clone src id : plain id -> call_step m (clone_vm has_prefix path_exists is_separator src id m).2
| call_start id : call_step m (start_vm has_prefix id m).2
| call_stop id : call_step m (stop_vm id m).2
| call_stop_all : call_step m (stop_all m)
| call_delete id : call_step m (delete_vm has_prefix id m).2
| call_exit id o e : vms m !! id = Some e -> e_state e = Running -> call_step m (exit_vm has_prefix id o m)
| call_time t : call_step m (set_now m t).
End Spec.

(** ** Lemmas *)

Lemma set_flag_vms f m : vms (set_flag f m) = vms m.
Proof. by destruct f. Qed.

Lemma set_flag_store f m : store (set_flag f m) = store m.
Proof. by destruct f. Qed.

Lemma close_buf_vms b m : vms (close_buf b m) = vms m.
Proof. by destruct b. Qed.

Lemma close_buf_store b m : store (close_buf b m) = store m.
Proof. by destruct b. Qed.

Lemma on_store_vms {A} (op : Store A) m : vms (on_store op m).2 = vms m.
Proof. unfold on_store. by destruct (op (store m)). Qed.

Lemma on_store_store {A} (op : Store A) m r s : op (store m) = (r, s) -> on_store op m = (r, set_store m s).
Proof. intros E. unfold on_store. by rewrite E. Qed.

Lemma stop_all_fold l m :
  vms (foldl (fun m e => set_flag (e_stop_flag e) m) m l) = vms m /\
  store (foldl (fun m e => set_flag (e_stop_flag e) m) m l) = store m.
Proof.
  revert m. induction l as [|e l IH]; intros m; [done|]. cbn [foldl].
  destruct (IH (set_flag (e_stop_flag e) m)) as [-> ->]. by rewrite set_flag_vms, set_flag_store.
Qed.

Lemma stop_all_flags l m f :
  stop_flags (foldl (fun m e => set_flag (e_stop_flag e) m) m l) !! f =
  if bool_decide (Some f ∈ e_stop_flag <$> l) then Some true else stop_flags m !! f.
Proof.
  revert m. induction l as [|e l IH]; intros m; [done|]. cbn [foldl]. rewrite IH. rewrite fmap_cons.
  destruct (decide (Some f ∈ e_stop_flag <$> l)) as [Hin|Hin].
  - rewrite !bool_decide_eq_true_2; [done|set_solver|done].
  - rewrite (bool_decide_eq_false_2 (Some f ∈ e_stop_flag <$> l)) by done.
    destruct (decide (e_stop_flag e = Some f)) as [He|He].
    + rewrite bool_decide_eq_true_2 by (rewrite He; set_solver). rewrite He. cbn. by rewrite lookup_insert_eq.
    + rewrite bool_decide_eq_false_2 by (rewrite elem_of_cons; naive_solver).
      destruct (e_stop_flag e) as [a|]; [|done]. cbn. rewrite lookup_insert_ne by congruence. done.
Qed.

Section Lemmas.
Context {Jc : Json VmConfig} {Lc : JsonLaws VmConfig} {Jp : Json PersistedState} {Lp : JsonLaws PersistedState}.
Variables (hp : string -> bool) (path_exists : string -> bool) (is_separator : ascii -> bool).
Hypothesis states_print : forall p : PersistedState, is_ok (to_json p) = true.
Notation synced := (synced hp).
Notation plain id := (vm_dir hp id = Child id).

(** A new table and a new store that agree. *)
Lemma synced_change m m' id :
  synced m -> reliable (store m') -> store_wf hp (store m') -> plain id ->
  (forall id', id' <> id -> vms m' !! id' = vms m !! id') ->
  (forall id', id' <> id -> recovered (store m') id' = recovered (store m) id') ->
  recovered (store m') id = (fun e => (e_config e, clamp (e_state e))) <$> vms m' !! id ->
  synced m'.
Proof.
  intros [Hr Hw Hp Hs] Hr' Hw' Hpl Hv Ho Hi. split; [done..| |].
  - intros id' Hid. destruct (decide (id' = id)) as [->|Hne]; [done|]. apply Hp. by rewrite <- Hv.
  - intros id'. destruct (decide (id' = id)) as [->|Hne]; [done|]. by rewrite Ho, Hs, Hv.
Qed.

Lemma synced_same m m' : synced m -> vms m' = vms m -> store m' = store m -> synced m'.
Proof. intros [] Hv Hs. split; by rewrite ?Hv, ?Hs. Qed.

(** Saving a state, of a machine whose configuration is or is not there. *)
Lemma persist_state_run id st m :
  reliable (store m) -> store_wf hp (store m) -> plain id ->
  exists s, persist_state hp id st m = (Ok tt, set_store m s) /\ reliable s /\ store_wf hp s /\
    (forall id', id' <> id -> recovered s id' = recovered (store m) id') /\
    recovered s id = (fun p => (p.1, clamp st)) <$> recovered (store m) id.
Proof.
  intros Hr Hw Hpl. unfold persist_state.
  destruct (to_json (persisted hp (store m) id st (now_ms m))) as [js|e] eqn:Ej;
    [|specialize (states_print (persisted hp (store m) id st (now_ms m))); by rewrite Ej in states_print].
  exists (put_file (store m) (vm_dir hp id) StateFile js). split_and!; [|done|by apply put_file_wf| |].
  - apply on_store_store. by apply save_state_reliable.
  - intros id' Hne. unfold recovered, dir_at. by rewrite put_file_other by (rewrite ?Hpl; congruence).
  - unfold recovered, dir_at. rewrite Hpl, put_file_same.
    destruct (files (store m) !! Child id) as [d|]; cbn [default mbind option_bind]; [|done].
    unfold recover. simpl. destruct (config_json d ≫= from_json) as [c|]; simpl; [|done].
    by rewrite (json_roundtrip _ js Ej).
Qed.

Lemma persist_config_run id c m jc :
  reliable (store m) -> store_wf hp (store m) -> plain id -> to_json c = Ok jc ->
  exists s, persist_config hp id c m = (Ok tt, set_store m s) /\ reliable s /\ store_wf hp s /\
    (forall id', id' <> id -> recovered s id' = recovered (store m) id') /\
    fst <$> recovered s id = Some c.
Proof.
  intros Hr Hw Hpl Hj. exists (put_file (store m) (vm_dir hp id) ConfigFile jc).
  split_and!; [|done|by apply put_file_wf| |].
  - unfold persist_config. apply on_store_store. by apply save_config_reliable.
  - intros id' Hne. unfold recovered, dir_at. by rewrite put_file_other by (rewrite ?Hpl; congruence).
  - unfold recovered, dir_at. rewrite Hpl, put_file_same. unfold recover. cbn [mbind option_bind set_file config_json].
    by rewrite (json_roundtrip c jc Hj).
Qed.

(** A configuration that does not print leaves at most an empty directory. *)
Lemma persist_config_fails id c m e :
  reliable (store m) -> store_wf hp (store m) -> plain id -> to_json c = Err e ->
  exists s, persist_config hp id c m = (Err (Internal e), set_store m s) /\ reliable s /\ store_wf hp s /\
    forall id', recovered s id' = recovered (store m) id'.
Proof.
  intros Hr Hw Hpl Hj. exists (set_files (store m) (create_dirs (Child id) (files (store m)))). split_and!; [|done| |].
  - unfold persist_config. apply on_store_store. unfold save_config. cbv zeta. rewrite Hpl.
    erewrite store_bind_run by (by apply create_reliable).
    unfold print_json, lift_result, mbind, store_bind. by rewrite Hj.
  - intros n Hn. cbn [set_files files] in *. destruct (decide (n = id)) as [->|Hne].
    + split; [|done]. by rewrite create_dirs_base.
    + rewrite create_dirs_other in Hn by congruence. destruct (Hw n Hn) as [Hb ?]. split; [|done]. by rewrite create_dirs_base.
  - intros id'. unfold recovered, dir_at. cbn [set_files files]. destruct (decide (id' = id)) as [->|Hne].
    + rewrite create_dirs_same. by destruct (files (store m) !! Child id).
    + by rewrite create_dirs_other by congruence.
Qed.

Lemma exit_update_Some id o m e :
  vms m !! id = Some e ->
  exists m', exit_update id o m = (Some (outcome_state o).1, m') /\ store m' = store m /\
    vms m' = <[id := {| e_config := e_config e; e_state := (outcome_state o).1; e_exit_reason := Some (outcome_state o).2;
                       e_stop_flag := None; e_serial_buf := e_serial_buf e |}]> (vms m).
Proof.
  intros He. unfold exit_update. rewrite He. destruct (outcome_state o) as [st why]. eexists.
  split; [reflexivity|]. by rewrite close_buf_store, close_buf_vms.
Qed.

Lemma outcome_not_running o : clamp (outcome_state o).1 = (outcome_state o).1.
Proof. by destruct o as [[]| |]. Qed.

Lemma create_vm_synced id c m :
  synced m -> plain id -> synced (create_vm hp path_exists is_separator id c m).2.
Proof.
  intros Hm Hpl. unfold create_vm, create_insert. destruct (bad_id id); [done|].
  destruct (validate_config _ _ c); [|done]. destruct (vms m !! id) as [e|] eqn:He; [done|]. cbv zeta.
  set (m1 := set_vms m _). pose proof Hm as [Hr Hw _ Hs].
  destruct (to_json c) as [jc|e] eqn:Ej.
  - destruct (persist_config_run id c m1 jc Hr Hw Hpl Ej) as (s1 & -> & Hr1 & Hw1 & Ho1 & Hi1).
    destruct (persist_state_run id Created (set_store m1 s1) Hr1 Hw1 Hpl) as (s2 & -> & Hr2 & Hw2 & Ho2 & Hi2).
    apply (synced_change m _ id); try done.
    + intros id' Hne. cbn. by rewrite lookup_insert_ne by congruence.
    + intros id' Hne. cbn. by rewrite Ho2, Ho1 by done.
    + cbn. rewrite lookup_insert_eq, Hi2. cbn. by destruct (recovered s1 id) as [[c' st]|]; simplify_eq/=.
  - destruct (persist_config_fails id c m1 e Hr Hw Hpl Ej) as (s1 & -> & Hr1 & Hw1 & Ho1).
    apply (synced_change m _ id); try done.
    + intros id' Hne. cbn. by rewrite lookup_delete_ne, lookup_insert_ne by congruence.
    + cbn. rewrite lookup_delete_eq, Ho1, Hs, He. done.
Qed.

Lemma start_vm_synced id m : synced m -> synced (start_vm hp id m).2.
Proof.
  intros Hm. unfold start_vm, start_claim. destruct (vms m !! id) as [e|] eqn:He; [|done].
  destruct (decide (e_state e = Created)) as [Hc|]; [|done]. cbv zeta.
  pose proof Hm as [Hr Hw Hp Hs]. assert (Hpl : plain id) by (apply Hp; by rewrite He).
  match goal with |- context [set_vms (set_heap ?a ?b ?d ?n) ?v] => set (m1 := set_vms (set_heap a b d n) v) end.
  destruct (persist_state_run id Running m1 Hr Hw Hpl) as (s1 & -> & Hr1 & Hw1 & Ho1 & Hi1).
  apply (synced_change m _ id); try done.
  - intros id' Hne. cbn. by rewrite lookup_insert_ne by congruence.
  - cbn. rewrite lookup_insert_eq, Hi1. cbn. by rewrite Hs, He.
Qed.

Lemma delete_vm_synced id m : synced m -> synced (delete_vm hp id m).2.
Proof.
  intros Hm. unfold delete_vm, delete_remove. destruct (vms m !! id) as [e|] eqn:He; [|done].
  destruct (decide (e_state e = Running)) as [|_]; [done|].
  pose proof Hm as [Hr Hw Hp Hs]. assert (Hpl : plain id) by (apply Hp; by rewrite He).
  unfold delete_persist. erewrite on_store_store by (unfold store_delete; rewrite Hpl; by apply delete_reliable).
  cbn [snd]. apply (synced_change m _ id); try done.
  - intros n Hn. cbn [set_store store set_vms] in *. rewrite deleted_lookup in Hn. rewrite deleted_lookup.
    destruct (below (Child id) (Child n)); [by destruct Hn|]. by apply Hw.
  - intros id' Hne. cbn. by rewrite lookup_delete_ne by congruence.
  - intros id' Hne. unfold recovered, dir_at. cbn [set_store store set_vms]. rewrite deleted_lookup, below_child.
    by rewrite bool_decide_eq_false_2 by congruence.
  - unfold recovered, dir_at. cbn [set_store store set_vms vms]. rewrite deleted_lookup, below_child, lookup_delete_eq.
    by rewrite bool_decide_eq_true_2.
Qed.

Lemma exit_vm_synced id o m e : vms m !! id = Some e -> synced m -> synced (exit_vm hp id o m).
Proof.
  intros He Hm. unfold exit_vm. pose proof Hm as [Hr Hw Hp Hs]. assert (Hpl : plain id) by (apply Hp; by rewrite He).
  destruct (exit_update_Some id o (exit_count m) e He) as (m1 & -> & Hst & Hv). cbn [exit_count set_count store vms] in *.
  destruct (persist_state_run id (outcome_state o).1 m1) as (s1 & -> & Hr1 & Hw1 & Ho1 & Hi1); [by rewrite Hst..|done|].
  apply (synced_change m _ id); try done.
  - intros id' Hne. cbn. by rewrite Hv, lookup_insert_ne by congruence.
  - intros id' Hne. cbn. by rewrite Ho1, Hst.
  - cbn. rewrite Hv, lookup_insert_eq, Hi1, Hst, Hs, He. simpl. done.
Qed.

Lemma call_synced m m' : call_step hp path_exists is_separator m m' -> synced m -> synced m'.
Proof.
  intros [id c Hpl|src id Hpl|id|id| |id|id o e He _|t] Hm.
  - by apply create_vm_synced.
  - unfold clone_vm. destruct (clone_config src m); [|done]. by apply create_vm_synced.
  - by apply start_vm_synced.
  - unfold stop_vm. destruct (vms m !! id); [|done]. case_decide; [|done].
    apply (synced_same m); [done|apply set_flag_vms|apply set_flag_store].
  - destruct (stop_all_fold (running_entries m) m). by apply (synced_same m).
  - by apply delete_vm_synced.
  - by eapply exit_vm_synced.
  - by apply (synced_same m).
Qed.

Lemma manager_new_recovers s :
  reliable s -> store_wf hp s ->
  exists m, manager_new hp s = Ok m /\
    forall id, vms m !! id = (fun p => new_entry p.1 p.2) <$> recovered s id.
Proof.
  intros Hr Hw. set (s1 := set_files s (create_dirs BaseDir (files s))).
  assert (Hsame : forall l, l <> BaseDir -> files s1 !! l = files s !! l) by (intros l Hl; by apply create_dirs_other).
  assert (Hw1 : store_wf hp s1).
  { intros n Hn. rewrite Hsame in Hn by done. split; [|by apply Hw]. unfold s1. cbn [set_files files]. by rewrite create_dirs_same. }
  destruct (load_all_reliable hp s1 Hr Hw1) as (l & El & Hl).
  unfold manager_new. erewrite store_bind_run by (unfold store_new; by apply create_reliable). fold s1. rewrite El.
  eexists. split; [reflexivity|]. intros id. cbn [vms].
  assert (Hrec : recovered s1 id = recovered s id) by (unfold recovered, dir_at; by rewrite Hsame).
  assert (Hin : forall e, (id, e) ∈ recovered_entry <$> reverse l <-> exists p, recovered s id = Some p /\ e = new_entry p.1 p.2).
  { intros e. rewrite list_elem_of_fmap. split.
    - intros ([[i c] st] & [= -> ->] & H1). rewrite elem_of_reverse, Hl, Hrec in H1. by exists (c, st).
    - intros ([c st] & H1 & ->). exists (id, c, st). split; [done|]. by rewrite elem_of_reverse, Hl, Hrec. }
  destruct (recovered s id) as [p|] eqn:E; cbn [fmap option_fmap option_map].
  - apply elem_of_list_to_map_1'; [|apply Hin; by exists p].
    intros e (p' & [= <-] & ->)%Hin. done.
  - apply not_elem_of_list_to_map_1. rewrite list_elem_of_fmap. intros ([i e] & -> & H1). cbn in *.
    apply Hin in H1 as (p & ? & _). done.
Qed.

Lemma await_stop_not_created others id turns i m r m' :
  (forall j m, not_created id m -> not_created id (others j m)) ->
  not_created id m -> await_stop others id turns i m = (r, m') -> not_created id m'.
Proof.
  intros Ho. revert i m. induction turns as [|n IH]; intros i m Hm E; cbn [await_stop] in E; [by injection E as _ <-|].
  specialize (Ho i m Hm). destruct (get_vm id (others i m)) as [info|e]; [|by injection E as _ <-].
  destruct (bool_decide _); [by injection E as _ <-|]. exact (IH _ _ Ho E).
Qed.

Lemma start_claim_created id m r m' :
  start_claim id m = (Ok r, m') -> exists e, vms m !! id = Some e /\ e_state e = Created.
Proof.
  unfold start_claim. destruct (vms m !! id) as [e|]; [|done]. case_decide; [|done]. intros _. by exists e.
Qed.
End Lemmas.

(** ** Properties *)

Section Properties.
Context {Jc : Json VmConfig} {Lc : JsonLaws VmConfig} {Jp : Json PersistedState} {Lp : JsonLaws PersistedState}.
Variables (hp : string -> bool) (path_exists : string -> bool) (is_separator : ascii -> bool).

(** C15: From a manager in step with its store, on a disk where no call of the store
    fails, after any calls and exits, one at a time, on machines whose names name their
    own directory, the daemon can be stopped and started again: the new manager lists
    exactly the machines of the old one, with their configurations, and their states
    but for running machines, which are stopped.  The name "." is accepted and is no
    such name: its deletion empties the store ([delete_dot_wipes_store]). *)
Theorem recovery_after_calls m0 m :
  (forall p : PersistedState, is_ok (to_json p) = true) ->
  synced hp m0 -> rtc (call_step hp path_exists is_separator) m0 m ->
  exists m', manager_new hp (store m) = Ok m' /\
    forall id, vms m' !! id = (fun e => new_entry (e_config e) (clamp (e_state e))) <$> vms m !! id.
Proof.
  intros Hp H0 Hc. assert (Hm : synced hp m).
  { induction Hc as [|m1 m2 m3 Hs _ IH]; [done|]. apply IH. by eapply call_synced. }
  destruct (manager_new_recovers hp (store m)) as (m' & E & Hv); [apply Hm..|].
  exists m'. split; [exact E|]. intros id. rewrite Hv, (sy_same _ _ Hm). by destruct (vms m !! id).
Qed.

(** A call of [create_vm] that fails, whatever I/O failed, leaves the table as it
    was; one that succeeds adds the machine, created and not yet run, under an id
    that was free and a configuration that is valid. *)
Theorem create_vm_all_or_nothing id c m r m' :
  create_vm hp path_exists is_separator id c m = (r, m') ->
  match r with
  | Err _ => vms m' = vms m
  | Ok info =>
      vms m !! id = None /\ bad_id id = false /\ validate_config path_exists is_separator c = Ok tt /\
      vms m' = <[id := new_entry c Created]> (vms m) /\ info = to_info (new_entry c Created) id
  end.
Proof.
  unfold create_vm, create_insert. destruct (bad_id id); [by intros [= <- <-]|].
  destruct (validate_config path_exists is_separator c) as [[]|e]; [|by intros [= <- <-]].
  destruct (vms m !! id) as [e|] eqn:He; [by intros [= <- <-]|]. cbv zeta.
  destruct (persist_config hp id c _) as [r1 m1] eqn:E1.
  assert (Hv1 : vms m1 = <[id := new_entry c Created]> (vms m)).
  { apply (f_equal (fun p => vms p.2)) in E1. cbn in E1. rewrite <- E1. unfold persist_config. by rewrite on_store_vms. }
  assert (Hroll : delete id (vms m1) = vms m) by (rewrite Hv1; by apply delete_insert_id).
  destruct r1 as [u|e1]; [|by intros [= <- <-]].
  destruct (persist_state hp id Created m1) as [r2 m2] eqn:E2.
  assert (Hv2 : vms m2 = vms m1).
  { apply (f_equal (fun p => vms p.2)) in E2. cbn in E2. rewrite <- E2. unfold persist_state. by rewrite on_store_vms. }
  destruct r2 as [u2|e2]; intros [= <- <-]; [|cbn; by rewrite Hv2]. by rewrite Hv2, Hv1.
Qed.

(** [restart_vm] never succeeds: whatever the rest of the daemon does while it
    waits, short of deleting the machine and creating it anew, the machine is
    not in the state [start_vm] asks for. *)
Theorem restart_never_succeeds others id m :
  (forall i m, not_created id m -> not_created id (others i m)) ->
  is_err (restart_vm hp others id m).1 = true.
Proof.
  intros Ho. unfold restart_vm, stop_vm. destruct (vms m !! id) as [e|] eqn:He; [|done].
  case_decide as Hr; [|done].
  assert (Hm : not_created id (set_flag (e_stop_flag e) m)).
  { intros e' He'. rewrite set_flag_vms, He in He'. injection He' as <-. by rewrite Hr. }
  destruct (await_stop others id 50 0 _) as [r m'] eqn:E.
  pose proof (await_stop_not_created _ _ _ _ _ _ _ Ho Hm E) as Hm'. destruct r as [[]|]; [|done..].
  unfold start_vm. destruct (start_claim id m') as [[r|] m2] eqn:Ec; [|done].
  apply start_claim_created in Ec as (e' & He' & Hc). by destruct (Hm' e' He').
Qed.

(** [stop_all] raises the stop flag of every running machine, no other flag, and
    changes nothing else. *)
Theorem stop_all_raises_flags m f :
  vms (stop_all m) = vms m /\ store (stop_all m) = store m /\
  let raised := exists id e, vms m !! id = Some e /\ e_state e = Running /\ e_stop_flag e = Some f in
  (raised -> stop_flags (stop_all m) !! f = Some true) /\
  (~ raised -> stop_flags (stop_all m) !! f = stop_flags m !! f).
Proof.
  cbv zeta. destruct (stop_all_fold (running_entries m) m) as [Hv Hs]. split; [done|]. split; [done|].
  assert (Hin : Some f ∈ e_stop_flag <$> running_entries m <->
                exists id e, vms m !! id = Some e /\ e_state e = Running /\ e_stop_flag e = Some f).
  { unfold running_entries. rewrite list_elem_of_fmap. split.
    - intros (e & Hf & [Hr ([i e'] & -> & Hin)%list_elem_of_fmap]%list_elem_of_filter).
      apply elem_of_map_to_list in Hin. exists i, e'. split; [done|]. split; [|done].
      by apply Is_true_true, bool_decide_eq_true in Hr.
    - intros (i & e & He & Hr & Hf). exists e. split; [done|]. apply list_elem_of_filter.
      split; [by apply Is_true_true, bool_decide_eq_true|]. apply list_elem_of_fmap.
      exists (i, e). split; [done|]. by apply elem_of_map_to_list. }
  rewrite <- Hin. unfold stop_all. rewrite stop_all_flags.
  split; intros H; [by rewrite bool_decide_eq_true_2|by rewrite bool_decide_eq_false_2].
Qed.
End Properties.

(** ** Witnesses *)

Definition any_path (p : string) : bool := true.
Definition slash (a : ascii) : bool := Ascii.eqb a "/".

Definition empty_manager (s : StateStore) : VmManager :=
  {| vms := ∅; store := s; stop_flags := ∅; serial_bufs := ∅; next_object := 0; completions := [];
     receiver_locked := false; vm_count := 0; now_ms := 1000 |}.

Definition demo_create (id : string) (m : VmManager) : VmManager :=
  (@create_vm config_json_demo state_json_demo no_prefix any_path slash id demo_vm m).2.
Definition demo_start (id : string) (m : VmManager) : VmManager := (@start_vm state_json_demo no_prefix id m).2.

(** Two machines, one of them running. *)
Definition demo_manager : VmManager := demo_start "web" (demo_create "db" (demo_create "web" (empty_manager new_store))).

Lemma empty_manager_synced : @synced config_json_demo state_json_demo no_prefix (empty_manager new_store).
Proof.
  split; [done|apply new_store_wf|by intros id []|]. intros id. unfold recovered, dir_at. cbn.
  by rewrite lookup_singleton_ne.
Qed.

Lemma recovery_after_calls_witness :
  exists m', @manager_new config_json_demo state_json_demo no_prefix (store demo_manager) = Ok m' /\
    e_state <$> vms m' !! "web"%string = Some Stopped /\ e_state <$> vms m' !! "db"%string = Some Created.
Proof.
  destruct (@recovery_after_calls config_json_demo config_json_demo_laws state_json_demo state_json_demo_laws
              no_prefix any_path slash (empty_manager new_store) demo_manager (fun _ => eq_refl) empty_manager_synced)
    as (m' & E & Hv).
  - eapply rtc_l; [by eapply (call_create no_prefix any_path slash _ "web" demo_vm)|].
    eapply rtc_l; [by eapply (call_create no_prefix any_path slash _ "db" demo_vm)|].
    apply rtc_once. apply (call_start no_prefix any_path slash _ "web").
  - exists m'. split; [exact E|]. rewrite !Hv. split; vm_compute; reflexivity.
Defined.

Definition full_disk : VmManager :=
  empty_manager {| files := files new_store; outcomes := [None; None; None; None; Some torn] |}.

Lemma create_vm_all_or_nothing_witness :
  let p := @create_vm config_json_demo state_json_demo no_prefix any_path slash "web" demo_vm full_disk in
  p.1 = Err (Io "no space left on device") /\ vms p.2 = ∅.
Proof.
  cbv zeta. split; [vm_compute; reflexivity|].
  exact (@create_vm_all_or_nothing config_json_demo state_json_demo no_prefix any_path slash "web" demo_vm full_disk
    (Err (Io "no space left on device")) _ ltac:(apply injective_projections; [vm_compute; reflexivity|reflexivity])).
Defined.

(** The machine stops during the first sleep. *)
Definition machine_exits (i : nat) (m : VmManager) : VmManager :=
  match i with O => @exit_vm state_json_demo no_prefix "web" (RanTo Canceled) m | _ => m end.

Lemma machine_exits_ok i m : not_created "web" m -> not_created "web" (machine_exits i m).
Proof.
  intros Hm e. destruct i as [|i]; [|by apply Hm]. cbn [machine_exits]. unfold exit_vm.
  destruct (vms (exit_count m) !! "web"%string) as [e0|] eqn:E0.
  - destruct (exit_update_Some "web" (RanTo Canceled) (exit_count m) e0 E0) as (m1 & -> & _ & Hv).
    cbn [exit_send set_channel vms]. unfold persist_state. rewrite on_store_vms, Hv, lookup_insert_eq. by intros [= <-].
  - unfold exit_update. rewrite E0. cbn [exit_send set_channel vms]. rewrite E0. done.
Qed.

Lemma restart_never_succeeds_witness :
  (@restart_vm state_json_demo no_prefix machine_exits "web" demo_manager).1 =
    Err (InvalidState "web" Stopped "Created") /\
  is_err (@restart_vm state_json_demo no_prefix machine_exits "web" demo_manager).1 = true.
Proof.
  split; [vm_compute; reflexivity|].
  exact (@restart_never_succeeds state_json_demo no_prefix machine_exits "web" demo_manager machine_exits_ok).
Defined.
