(* ===== verification/Reports.v ===== *)
(** * Reports on snapshots

    What [hitz-cli/src] computes from measurements before it prints them: the
    insights of [analyzer.rs], and of [main.rs] the health timeline of a recording
    ([handle_vm_timeline]), a table of transitions here as its rows, and the bars of
    a utilisation ([make_bar]).  Counts of samples are not bounded; the source's are
    [i32]s. *)

From Stdlib Require Import String Ascii Floats.SpecFloat.
From stdpp Require Import list.
From S2P Require Import Prelude Hal Memory PageTables Cpio Ethernet Config RunLoop SerialBuf StateStore VmManager.
From S2P Require Import Float Text FloatOrder Format GuestProc Analytics.

(** ** Insights *)

Inductive WarningLevel := LevelInfo | LevelWarning | LevelCritical.
#[export] Instance WarningLevel_eq_dec : EqDecision WarningLevel.
Proof. solve_decision. Defined.

Definition level_name (l : WarningLevel) : text :=
  match l with LevelInfo => str "INFO" | LevelWarning => str "WARN" | LevelCritical => str "CRIT" end.

Record ResourceInsight := { level : WarningLevel; message : text }.

Definition analyze_cpu (pct : spec_float) : ResourceInsight :=
  if fgt pct (f32 90) then {| level := LevelCritical; message := str "High CPU utilization: " ++ fixed1 pct ++ str "%" |}
  else if fgt pct (f32 75) then {| level := LevelWarning; message := str "Elevated CPU utilization: " ++ fixed1 pct ++ str "%" |}
  else {| level := LevelInfo; message := str "Healthy CPU utilization: " ++ fixed1 pct ++ str "%" |}.

Definition memory_insight (pct : spec_float) : ResourceInsight :=
  if fgt pct (f64 90) then
    {| level := LevelCritical; message := str "High Memory utilization: " ++ fixed1 pct ++ str "% (OOM Risk)" |}
  else if fgt pct (f64 75) then
    {| level := LevelWarning; message := str "Elevated Memory utilization: " ++ fixed1 pct ++ str "%" |}
  else {| level := LevelInfo; message := str "Healthy Memory utilization: " ++ fixed1 pct ++ str "%" |}.

Definition over_provisioned : ResourceInsight :=
  {| level := LevelInfo; message := str "VM may be over-provisioned for memory (using <10% of >512 MiB)" |}.

Definition analyze_memory (mib : Z) (m : MemoryMetrics) : list ResourceInsight :=
  if 0 <? total_bytes m then
    let pct := used_pct (used_bytes m) (total_bytes m) in
    memory_insight pct :: (if SFltb pct (f64 10) && (512 <? mib) then [over_provisioned] else [])
  else [].

Definition analyze_processes (l : list ProcMetrics) : list ResourceInsight :=
  match l with
  | p :: _ =>
      if fgt (proc_cpu_pct p) (f32 80) then
        [{| level := LevelWarning;
            message := str "Process '" ++ proc_name p ++ str "' (PID " ++ digits (pid p) ++ str ") is consuming " ++
                       fixed1 (proc_cpu_pct p) ++ str "% CPU" |}]
      else []
  | [] => []
  end.

Definition analyze_network (rx tx : Z) : list ResourceInsight :=
  if (0 <? rx) || (0 <? tx) then
    [{| level := LevelWarning; message := str "Network errors detected (RX: " ++ digits rx ++ str ", TX: " ++ digits tx ++ str ")" |}]
  else [].

#[export] Instance HealthStatus_eq_dec : EqDecision HealthStatus.
Proof. solve_decision. Defined.

Section Reports.
Variable overflow_checks : bool.

Definition analyze_vm (info : VmInfo) (metrics : MetricsSnapshot) : result Stop (list ResourceInsight) :=
  let insights := analyze_cpu (total_pct (cpu metrics)) ::
                  analyze_memory (ram_mib (i_config info)) (memory metrics) ++ analyze_processes (processes metrics) in
  rx ← sum_u64 overflow_checks ((fun n => Ok (rx_errors n)) <$> networks metrics);
  tx ← sum_u64 overflow_checks ((fun n => Ok (tx_errors n)) <$> networks metrics);
  Ok (insights ++ analyze_network rx tx).

(** ** The timeline *)

Record TimelineRow := { row_time : text; row_status : HealthStatus; row_added : text; row_removed : text }.

Record Timeline := {
  current_status : option HealthStatus; current_reasons : list text; line_count : Z; initial_timestamp : option Z;
  rows : list TimelineRow;
}.

Definition timeline_new : Timeline :=
  {| current_status := None; current_reasons := []; line_count := 0; initial_timestamp := None; rows := [] |}.

(** [{:02}]. *)
Definition pad2 (n : Z) : text := replicate (2 - length (digits n)) 48 ++ digits n.

Definition time_text (ts start : Z) : text :=
  let elapsed_secs := saturating_sub ts start / 1000 in
  str "T+" ++ pad2 (elapsed_secs / 60) ++ str ":" ++ pad2 (elapsed_secs mod 60).

(** The fold over the reasons: each after its sign, and between them a line feed. *)
Definition add_reason (sign : Z) (acc reason : text) : text :=
  (if nonempty acc then acc ++ [NL] else acc) ++ [sign; SP] ++ reason.
Definition reasons_text (sign : Z) (l : list text) : text := foldl (add_reason sign) [] l.

Definition PLUS : Z := 43.
Definition MINUS : Z := 45.

Definition has_reason (l : list text) (reason : text) : bool := bool_decide (reason ∈ l).

Definition timeline_step (t : Timeline) (snap : MetricsSnapshot) : result Stop Timeline :=
  let start := default (timestamp_ms snap) (initial_timestamp t) in
  h ← assess_health overflow_checks snap;
  let status_changed := negb (bool_decide (current_status t = Some (health h))) in
  let reasons_changed := negb (bool_decide (current_reasons t = reasons h)) in
  let counted r := {| current_status := Some (health h); current_reasons := reasons h; line_count := line_count t + 1;
                      initial_timestamp := Some start; rows := r |} in
  if status_changed || reasons_changed then
    let added := reasons_text PLUS (List.filter (fun r => negb (has_reason (current_reasons t) r)) (reasons h)) in
    let removed := reasons_text MINUS (List.filter (fun r => negb (has_reason (reasons h) r)) (current_reasons t)) in
    Ok (counted (if status_changed || nonempty added || nonempty removed
                 then rows t ++ [{| row_time := time_text (timestamp_ms snap) start; row_status := health h;
                                    row_added := added; row_removed := removed |}]
                 else rows t))
  else Ok {| current_status := current_status t; current_reasons := current_reasons t; line_count := line_count t + 1;
             initial_timestamp := Some start; rows := rows t |}.

(** The samples of a recording, one after another. *)
Definition timeline_run (snaps : list MetricsSnapshot) : result Stop Timeline :=
  foldl (fun acc snap => t ← acc; timeline_step t snap) (Ok timeline_new) snaps.

(** A line of the file and its number, from zero: nothing for a blank one, a
    message for one that is not a snapshot. *)
Variable parse_snapshot : text -> result text MetricsSnapshot.

Definition invalid_line (line_num : Z) (e : text) : text :=
  [0x2717] ++ str " Invalid or corrupted metrics data on line " ++ digits (line_num + 1) ++ str ": " ++ e.

Definition timeline_line (line_num : Z) (line : text) (t : Timeline) : result Stop (Timeline * option text) :=
  if nonempty (trim line) then
    match parse_snapshot line with
    | Ok snap => t ← timeline_step t snap; Ok (t, None)
    | Err e => Ok (t, Some (invalid_line line_num e))
    end
  else Ok (t, None).

Fixpoint timeline_lines (line_num : Z) (l : list text) (t : Timeline) : result Stop (Timeline * list text) :=
  match l with
  | [] => Ok (t, [])
  | line :: l' =>
      '(t, w) ← timeline_line line_num line t;
      '(t, ws) ← timeline_lines (line_num + 1) l' t;
      Ok (t, option_list w ++ ws)
  end.
End Reports.

(** ** Bars *)

Inductive Colour := Red | Yellow | Green | Cyan.

Definition color_for_pct (pct : spec_float) : Colour :=
  if fgt pct (f64 90) then Red else if fgt pct (f64 75) then Yellow else Green.

(** [x.round() as usize]: half away from zero, saturating, and zero for what is
    negative or not a number. *)
Definition round_to_usize (x : spec_float) : Z :=
  match x with
  | S754_finite false m e => Z.min ((2 * value_num (Zpos m) e + value_den e) / (2 * value_den e)) (2 ^ 64 - 1)
  | S754_infinity false => 2 ^ 64 - 1
  | _ => 0
  end.

Definition make_bar (pct : spec_float) (width : Z) : text :=
  let filled_chars := Z.min (round_to_usize (fmul F64 (fdiv F64 pct (f64 100)) (f64 width))) width in
  let empty_chars := width - filled_chars in
  [91] ++ replicate (Z.to_nat filled_chars) 0x2588 ++ replicate (Z.to_nat empty_chars) 0x2591 ++ [93].

(** ** Reading a timeline back *)

Definition read_reason (sign : Z) (line : text) : option text :=
  match line with c :: d :: r => if (c =? sign) && (d =? SP) then Some r else None | _ => None end.

Definition read_reasons (sign : Z) (cell : text) : list text := omap (read_reason sign) (split_by (fun c => c =? NL) cell).

(** The status and reasons a reader of the rows arrives at. *)
Definition replay_row (s : option HealthStatus * list text) (row : TimelineRow) : option HealthStatus * list text :=
  (Some (row_status row),
   List.filter (fun r => negb (has_reason (read_reasons MINUS (row_removed row)) r)) s.2 ++ read_reasons PLUS (row_added row)).

Definition replay (l : list TimelineRow) : option HealthStatus * list text := foldl replay_row (None, []) l.

(** ** Lemmas: reasons *)

Lemma digits_no_nl n : 0 <= n -> no_nl (digits n).
Proof.
  intros Hn. eapply Forall_impl; [apply digits_fuel_digits, Hn|]. intros c Hc ->. by vm_compute in Hc.
Qed.

Lemma no_nl_app a b : no_nl a -> no_nl b -> no_nl (a ++ b).
Proof. intros. by apply Forall_app. Qed.

Lemma str_no_nl s : forallb (fun c => negb (c =? NL)) (str s) = true -> no_nl (str s).
Proof. intros H. apply Forall_forall. intros c Hc ->. eapply forallb_forall in H; [|by apply list_elem_of_In]. by vm_compute in H. Qed.

Create HintDb text.
#[export] Hint Resolve digits_no_nl no_nl_app str_no_nl : text.

Lemma fixed1_no_nl x : no_nl (fixed1 x).
Proof.
  assert (forall s, no_nl (sign_text s)) as HS by (intros []; [by apply str_no_nl|constructor]).
  destruct x as [s|s| |s m e]; cbn [fixed1]; [by apply no_nl_app, str_no_nl|by apply no_nl_app, str_no_nl|by apply str_no_nl|].
  set (n := div_half_even _ _). assert (0 <= n) as Hn.
  { unfold n, div_half_even, value_num, value_den.
    assert (0 < 2 ^ Z.max 0 (- e)) by (apply Z.pow_pos_nonneg; lia). assert (0 < 2 ^ Z.max 0 e) by (apply Z.pow_pos_nonneg; lia).
    assert (0 <= Z.pos m * 2 ^ Z.max 0 e * 10 / 2 ^ Z.max 0 (- e)) by (apply Z.div_pos; lia).
    destruct (Z.compare _ _); [destruct (Z.even _)|..]; lia. }
  repeat apply no_nl_app; auto; try by apply str_no_nl.
  - apply digits_no_nl, Z.div_pos; lia.
  - apply digits_no_nl. apply Z.mod_pos_bound. lia.
Qed.

Lemma pct_reason_no_nl what pct : no_nl (str what) -> no_nl (pct_reason what pct).
Proof. intros H. unfold pct_reason. repeat apply no_nl_app; auto using fixed1_no_nl. by apply str_no_nl. Qed.

Lemma raise_no_nl h s r : Forall no_nl (reasons h) -> no_nl r -> Forall no_nl (reasons (raise h s r)).
Proof. intros. simpl. apply Forall_app. auto. Qed.

Lemma evaluate_no_nl a b c d e h : Forall no_nl (reasons h) -> no_nl d -> no_nl e -> Forall no_nl (reasons (evaluate a b c d e h)).
Proof. intros. unfold evaluate. destruct (a b); [by apply raise_no_nl|]. by destruct (a c); [apply raise_no_nl|]. Qed.

Definition counters_ok (snap : MetricsSnapshot) : Prop :=
  Forall (fun n => 0 <= rx_errors n /\ 0 <= tx_errors n) (networks snap).

Lemma add_u64_nonneg oc a b n : 0 <= a -> 0 <= b -> add_u64 oc a b = Ok n -> 0 <= n.
Proof.
  intros Ha Hb. unfold add_u64, op_add, checked_add, wrapping_add, wrap. destruct oc; simpl.
  - destruct (_ <? _); simpl; [intros [= <-]; lia|done].
  - intros [= <-]. apply Z.mod_pos_bound. done.
Qed.

Lemma sum_u64_nonneg oc l n : Forall (fun x => forall a, x = Ok a -> 0 <= a) l -> sum_u64 oc l = Ok n -> 0 <= n.
Proof.
  unfold sum_u64. intros Hl. assert (forall a, (Ok 0 : result Stop Z) = Ok a -> 0 <= a) as H0 by (intros a [= <-]; done).
  revert H0. generalize (Ok 0 : result Stop Z). induction Hl as [|x l Hx Hl IH]; intros acc Hacc; simpl; [apply Hacc|].
  apply IH. intros a. destruct acc as [p|], x as [q|]; simpl; try done. apply add_u64_nonneg; auto.
Qed.

Lemma health_no_nl oc snap h : counters_ok snap -> assess_health oc snap = Ok h -> Forall no_nl (reasons h).
Proof.
  intros Hc. unfold assess_health. destruct (net_errors oc snap) as [errors|] eqn:E; [|done]. intros [= <-].
  assert (0 <= errors) as He.
  { eapply sum_u64_nonneg, E. apply Forall_fmap, (Forall_impl _ _ _ Hc). intros n [H1 H2] a. by apply add_u64_nonneg. }
  assert (Forall no_nl (reasons (assess_swap snap (assess_memory snap (assess_cpu snap {| health := Healthy; reasons := [] |}))))) as H.
  { unfold assess_swap, assess_memory, assess_cpu.
    destruct (0 <? swap_total _), (0 <? total_bytes _);
      repeat (apply evaluate_no_nl; [|(by apply pct_reason_no_nl, str_no_nl)..]); constructor. }
  unfold assess_network. destruct (100 <? errors); [|destruct (10 <? errors); [|done]];
    apply raise_no_nl; try done; apply no_nl_app; (by apply str_no_nl) || by apply digits_no_nl.
Qed.

(** ** Lemmas: rows *)

Lemma reasons_text_acc sign l acc : nonempty acc = true ->
  foldl (add_reason sign) acc l = acc ++ concat ((fun r => NL :: sign :: SP :: r) <$> l).
Proof.
  revert acc. induction l as [|r l IH]; intros acc Ha; [by rewrite app_nil_r|]. cbn [foldl]. rewrite fmap_cons, concat_cons, IH.
  - unfold add_reason. rewrite Ha. by rewrite <- !(assoc_L (++)).
  - unfold add_reason. rewrite Ha. by destruct acc.
Qed.

Lemma reasons_text_cons sign r l : reasons_text sign (r :: l) = (sign :: SP :: r) ++ concat ((fun r => NL :: sign :: SP :: r) <$> l).
Proof. unfold reasons_text. cbn [foldl]. by rewrite reasons_text_acc. Qed.

(** What was folded into a cell is read back from it. *)
Lemma read_reasons_text sign l : sign <> NL -> Forall no_nl l -> read_reasons sign (reasons_text sign l) = l.
Proof.
  intros Hs Hl. destruct Hl as [|r l Hr Hl]; [done|]. rewrite reasons_text_cons.
  assert (forall w, no_nl w -> Forall (fun c => (c =? NL) = false) (sign :: SP :: w)) as HF.
  { intros w Hw. repeat constructor; [by apply Z.eqb_neq|]. eapply Forall_impl; [exact Hw|]. intros c. apply Z.eqb_neq. }
  revert r Hr. induction Hl as [|r' l Hr' Hl IH]; intros r Hr; unfold read_reasons.
  - rewrite app_nil_r, split_by_last by by apply HF. cbn [omap list_omap read_reason]. by rewrite !Z.eqb_refl.
  - rewrite fmap_cons, concat_cons. change ((NL :: sign :: SP :: r') ++ ?x) with (NL :: (sign :: SP :: r') ++ x).
    rewrite split_by_app by (done || by apply HF).
    cbn [omap list_omap read_reason]. rewrite !Z.eqb_refl. cbn [andb]. f_equal. by apply IH.
Qed.

Lemma reasons_text_empty sign l : nonempty (reasons_text sign l) = false <-> l = [].
Proof.
  split; [|by intros ->]. destruct l as [|r l]; [done|]. by rewrite reasons_text_cons.
Qed.

Lemma contains_spec l r : has_reason l r = true <-> r ∈ l.
Proof. apply bool_decide_eq_true. Qed.

Lemma elem_of_minus r a b : r ∈ List.filter (fun x => negb (has_reason b x)) a <-> r ∈ a /\ r ∉ b.
Proof.
  rewrite !list_elem_of_In, filter_In, negb_true_iff, <- !list_elem_of_In. unfold has_reason. by rewrite bool_decide_eq_false.
Qed.

(** The reasons a row's two cells lead to. *)
Definition same_reasons (a b : list text) : Prop := forall r, r ∈ a <-> r ∈ b.

Lemma replay_row_reasons s old new row : same_reasons s.2 old ->
  read_reasons PLUS (row_added row) = List.filter (fun r => negb (has_reason old r)) new ->
  read_reasons MINUS (row_removed row) = List.filter (fun r => negb (has_reason new r)) old ->
  same_reasons (replay_row s row).2 new.
Proof.
  intros Hs E1 E2 r. unfold replay_row. cbn [snd]. rewrite E1, E2, elem_of_app, !elem_of_minus. rewrite (Hs r).
  destruct (decide (r ∈ old)), (decide (r ∈ new)); tauto.
Qed.

(** What holds of a timeline between samples. *)
Definition timeline_ok (t : Timeline) : Prop :=
  (replay (rows t)).1 = current_status t /\ same_reasons (replay (rows t)).2 (current_reasons t) /\
  Forall no_nl (current_reasons t).

Lemma replay_snoc l row : replay (l ++ [row]) = replay_row (replay l) row.
Proof. unfold replay. by rewrite foldl_app. Qed.

Lemma filter_no_nl f (l : list text) : Forall no_nl l -> Forall no_nl (List.filter f l).
Proof. rewrite !Forall_forall. intros H x Hx. apply H. apply list_elem_of_In, filter_In in Hx as [Hx _]. by apply list_elem_of_In. Qed.

Lemma same_reasons_minus a b : same_reasons a b -> List.filter (fun r => negb (has_reason b r)) a = [].
Proof.
  intros H. destruct (List.filter _ a) as [|r l] eqn:E; [done|]. assert (r ∈ List.filter (fun r => negb (has_reason b r)) a) as Hr by (rewrite E; set_solver).
  apply elem_of_minus in Hr as [H1 H2]. by destruct H2; apply H.
Qed.

(** A row that says what changed keeps the rows in step. *)
Lemma timeline_ok_row t status time new n start : timeline_ok t -> Forall no_nl new ->
  timeline_ok {| current_status := Some status; current_reasons := new; line_count := n; initial_timestamp := start;
    rows := rows t ++ [{| row_time := time; row_status := status;
      row_added := reasons_text PLUS (List.filter (fun r => negb (has_reason (current_reasons t) r)) new);
      row_removed := reasons_text MINUS (List.filter (fun r => negb (has_reason new r)) (current_reasons t)) |}] |}.
Proof.
  intros (H1 & H2 & H3) Hn. unfold timeline_ok. cbn [rows current_status current_reasons]. rewrite replay_snoc. split_and!; try done.
  eapply replay_row_reasons; [exact H2|..]; (apply read_reasons_text; [done|by apply filter_no_nl]).
Qed.

Lemma snoc_neq {A} (l : list A) x : l ++ [x] <> l.
Proof. intros H. apply (f_equal length) in H. rewrite length_app in H. simpl in H. lia. Qed.

Lemma minus_both_empty a b : List.filter (fun r => negb (has_reason a r)) b = [] ->
  List.filter (fun r => negb (has_reason b r)) a = [] -> same_reasons a b.
Proof.
  intros E1 E2 r. split; intros Hr.
  - destruct (decide (r ∈ b)); [done|]. assert (r ∈ (@nil text)) as Hx by (rewrite <- E2; by apply elem_of_minus). set_solver.
  - destruct (decide (r ∈ a)); [done|]. assert (r ∈ (@nil text)) as Hx by (rewrite <- E1; by apply elem_of_minus). set_solver.
Qed.

(** One sample: the rows lead to its health, and there is a new row exactly when
    the status or the set of reasons is new. *)
Lemma timeline_step_ok oc t snap t' h : counters_ok snap -> timeline_ok t -> timeline_step oc t snap = Ok t' ->
  assess_health oc snap = Ok h ->
  timeline_ok t' /\ current_status t' = Some (health h) /\ current_reasons t' = reasons h /\ line_count t' = line_count t + 1 /\
  (rows t' = rows t <-> current_status t = Some (health h) /\ same_reasons (current_reasons t) (reasons h)).
Proof.
  intros Hc Ht E Eh. pose proof (health_no_nl oc snap h Hc Eh) as Hn. unfold timeline_step in E. rewrite Eh in E.
  cbn [mbind result_bind] in E. destruct (bool_decide (current_status t = _)) eqn:Es; cbn [negb orb] in E.
  - apply bool_decide_eq_true in Es. destruct (bool_decide (current_reasons t = _)) eqn:Er; cbn [negb] in E.
    + apply bool_decide_eq_true in Er. injection E as <-. split; [exact Ht|]. cbn. split_and!; try done. split; [|done]. intros _. by rewrite Er.
    + destruct (nonempty _ || nonempty _) eqn:En; injection E as <-; cbn.
      * split; [by apply timeline_ok_row|]. split_and!; try done. split; [by intros []%snoc_neq|]. intros [_ Hsame].
        by rewrite !same_reasons_minus in En by (done || (intros r; by rewrite (Hsame r))).
      * apply orb_false_iff in En as [Ea%reasons_text_empty Em%reasons_text_empty]. pose proof (minus_both_empty _ _ Ea Em) as Hsame.
        destruct Ht as (H1 & H2 & H3). unfold timeline_ok. cbn. split_and!; try done; [by rewrite <- Es|]. intros r. rewrite <- (Hsame r). apply H2.
  - apply bool_decide_eq_false in Es. injection E as <-. cbn. split; [by apply timeline_ok_row|]. split_and!; try done.
    split; [by intros []%snoc_neq|by intros []].
Qed.

Lemma timeline_step_total oc t snap h : assess_health oc snap = Ok h -> exists t', timeline_step oc t snap = Ok t'.
Proof. intros E. unfold timeline_step. rewrite E. cbn [mbind result_bind]. destruct (_ || _); by eexists. Qed.

Lemma timeline_run_snoc oc snaps snap : timeline_run oc (snaps ++ [snap]) = (t ← timeline_run oc snaps; timeline_step oc t snap).
Proof. unfold timeline_run. by rewrite foldl_app. Qed.

(** Samples whose error counters are counters and do not overflow together. *)
Definition sample_ok (snap : MetricsSnapshot) : Prop := counters_ok snap /\ foldr Z.add 0 (error_counts snap) < 2 ^ 64.

Lemma sample_health oc snap : sample_ok snap -> exists h, assess_health oc snap = Ok h.
Proof. intros [Hc Hs]. unfold assess_health. rewrite net_errors_total by done. by eexists. Qed.

Lemma timeline_run_ok oc snaps : Forall sample_ok snaps ->
  exists t, timeline_run oc snaps = Ok t /\ timeline_ok t /\ line_count t = zlen snaps.
Proof.
  induction snaps as [|snap snaps IH] using rev_ind; intros H.
  - exists timeline_new. split_and!; done.
  - apply Forall_app in H as [H [Hs _]%Forall_cons]. destruct (IH H) as (t & Et & Ht & Hl). destruct (sample_health oc snap Hs) as [h Eh].
    destruct (timeline_step_total oc t snap h Eh) as [t' E]. exists t'. rewrite timeline_run_snoc, Et. split; [done|].
    destruct (timeline_step_ok oc t snap t' h (proj1 Hs) Ht E Eh) as (Ht' & _ & _ & Hn & _). split; [done|].
    unfold zlen in *. rewrite length_app. simpl. lia.
Qed.

(** ** Lemmas: the lines of a recording *)

Section Recording.
Variables (oc : bool) (print_snapshot : MetricsSnapshot -> text) (parse_snapshot : text -> result text MetricsSnapshot).

(** A snapshot whose text is a line that reads back. *)
Definition reads_back (snap : MetricsSnapshot) : Prop :=
  parse_snapshot (print_snapshot snap) = Ok snap /\ line_ok (print_snapshot snap) /\ nonempty (trim (print_snapshot snap)) = true.

Lemma timeline_lines_printed snaps n t t' : Forall reads_back snaps -> foldl (fun acc snap => t ← acc; timeline_step oc t snap) (Ok t) snaps = Ok t' ->
  timeline_lines oc parse_snapshot n (print_snapshot <$> snaps) t = Ok (t', []).
Proof.
  assert (forall e l, foldl (fun acc snap => t ← acc; timeline_step oc t snap) (Err e) l = Err e) as HE by (intros e l; by induction l).
  intros HR. revert n t. induction HR as [|snap snaps (Hp & _ & Hb) HR IH]; intros n t E; [by injection E as ->|].
  rewrite fmap_cons. cbn [timeline_lines]. unfold timeline_line. rewrite Hb, Hp. cbn [foldl mbind result_bind] in E |- *.
  destruct (timeline_step oc t snap) as [t1|e]; cbn [mbind result_bind] in E |- *; [|by rewrite HE in E]. by rewrite (IH _ _ E).
Qed.
End Recording.

(** ** Lemmas: the analysis *)

(** What both judgements call critical of CPU and memory. *)
Definition overloaded (snap : MetricsSnapshot) : bool :=
  fgt (total_pct (cpu snap)) (f32 90) ||
  (0 <? total_bytes (memory snap)) && fgt (used_pct (used_bytes (memory snap)) (total_bytes (memory snap))) (f64 90).

Definition is_critical (i : ResourceInsight) : bool := bool_decide (level i = LevelCritical).

Lemma critical_insight oc info snap ins : analyze_vm oc info snap = Ok ins -> existsb is_critical ins = overloaded snap.
Proof.
  unfold analyze_vm. destruct (sum_u64 oc ((fun n => Ok (rx_errors n)) <$> _)) as [rx|]; [|done].
  destruct (sum_u64 oc ((fun n => Ok (tx_errors n)) <$> _)) as [tx|]; [|done]. intros [= <-].
  assert (existsb is_critical (analyze_network rx tx) = false) as N by (unfold analyze_network; by destruct (_ || _)).
  assert (existsb is_critical (analyze_processes (processes snap)) = false) as P.
  { unfold analyze_processes. destruct (processes snap) as [|p l]; [done|]. by destruct (fgt _ _). }
  cbn [app existsb]. rewrite !existsb_app, N, P, !orb_false_r. unfold overloaded. f_equal.
  - unfold analyze_cpu. destruct (fgt _ (f32 90)); [done|]. by destruct (fgt _ _).
  - unfold analyze_memory, memory_insight. destruct (0 <? _); [|done]. set (pct := used_pct _ _). clearbody pct.
    destruct (fgt pct (f64 90)); [done|]. destruct (fgt pct _), (SFltb pct _ && _); done.
Qed.

Lemma evaluate_health above c w a b h : health (evaluate above c w a b h) = Critical <-> health h = Critical \/ above c = true.
Proof. unfold evaluate. destruct (above c); simpl; [by destruct (health h); naive_solver|]. destruct (above w); simpl; destruct (health h); naive_solver. Qed.

Lemma assessed_critical errors snap :
  health (assess_network errors (assess_swap snap (assess_memory snap (assess_cpu snap {| health := Healthy; reasons := [] |})))) = Critical <->
  overloaded snap = true \/
  (0 < swap_total (memory snap) /\ fgt (used_pct (swap_used (memory snap)) (swap_total (memory snap))) (f64 50) = true) \/ 100 < errors.
Proof.
  assert (forall h, health (assess_network errors h) = Critical <-> health h = Critical \/ 100 < errors) as ->.
  { intros h. unfold assess_network. destruct (100 <? errors) eqn:E; [apply Z.ltb_lt in E; simpl; destruct (health h); naive_solver|].
    apply Z.ltb_ge in E. destruct (10 <? errors); simpl; destruct (health h); simpl; intuition (done || lia). }
  unfold assess_swap, assess_memory, assess_cpu, overloaded. rewrite orb_true_iff, andb_true_iff, Z.ltb_lt.
  destruct (0 <? swap_total _) eqn:Es; [apply Z.ltb_lt in Es|apply Z.ltb_ge in Es];
    (destruct (0 <? total_bytes _) eqn:Et; [apply Z.ltb_lt in Et|apply Z.ltb_ge in Et]); rewrite ?evaluate_health; simpl; intuition (done || lia).
Qed.

(** ** Lemmas: signs *)

(** Not a number, or of sign [s]. *)
Definition signed (s : bool) (x : spec_float) : bool :=
  match x with S754_nan => true | S754_zero s' | S754_infinity s' | S754_finite s' _ _ => eqb s' s end.

Lemma round_aux_signed prec emax s m e l : signed s (binary_round_aux prec emax s m e l) = true.
Proof.
  unfold binary_round_aux. destruct (shr_fexp _ _ _ _ _) as [r e1]. destruct (shr_fexp _ _ _ _ _) as [r2 e2].
  destruct (shr_m r2); [by destruct s| |done]. destruct (e2 <=? _); by destruct s.
Qed.

Lemma fmul_signed t s1 s2 x y : signed s1 x = true -> signed s2 y = true -> signed (xorb s1 s2) (fmul t x y) = true.
Proof.
  destruct x as [a|a| |a m e], y as [b|b| |b m' e']; cbn [signed]; try done; intros ->%eqb_prop ->%eqb_prop; cbn;
    try done; (by destruct s1, s2) || apply round_aux_signed.
Qed.

Lemma fdiv_signed t s1 s2 x y : signed s1 x = true -> signed s2 y = true -> signed (xorb s1 s2) (fdiv t x y) = true.
Proof.
  destruct x as [a|a| |a m e], y as [b|b| |b m' e']; cbn [signed]; try done; intros ->%eqb_prop ->%eqb_prop; cbn;
    try done; try by destruct s1, s2.
  unfold fdiv. cbn. destruct (SFdiv_core_binary _ _ _ _ _ _) as [[q e2] l]. apply round_aux_signed.
Qed.

Lemma f64_signed n : 0 <= n -> signed false (f64 n) = true.
Proof.
  intros Hn. unfold f64, float_of_int, binary_normalize. destruct n as [|p|p]; [done| |lia].
  unfold binary_round. case_match. apply round_aux_signed.
Qed.

Lemma round_to_usize_neg x : signed true x = true -> round_to_usize x = 0.
Proof. by destruct x as [|[]| |[]]. Qed.

(** ** Properties *)

(** C35: Of any recording the rows of the timeline tell the whole course: replayed they
    give the status and the set of reasons of the last sample, whatever came
    before, and a sample adds a row exactly when it changes one of the two. *)
Theorem timeline_replays oc snaps snap : Forall sample_ok (snaps ++ [snap]) ->
  exists t t' h, timeline_run oc snaps = Ok t /\ timeline_run oc (snaps ++ [snap]) = Ok t' /\ assess_health oc snap = Ok h /\
    (replay (rows t')).1 = Some (health h) /\ same_reasons (replay (rows t')).2 (reasons h) /\
    line_count t' = zlen (snaps ++ [snap]) /\
    (rows t' = rows t <-> (replay (rows t)).1 = Some (health h) /\ same_reasons (replay (rows t)).2 (reasons h)).
Proof.
  intros H. destruct (timeline_run_ok oc _ H) as (t' & E' & (R1 & R2 & _) & HL). apply Forall_app in H as [H [Hs _]%Forall_cons].
  destruct (timeline_run_ok oc _ H) as (t & Et & Ht & _). destruct (sample_health oc snap Hs) as [h Eh]. exists t, t', h.
  pose proof E' as E. rewrite timeline_run_snoc, Et in E. cbn [mbind result_bind] in E.
  destruct (timeline_step_ok oc t snap t' h (proj1 Hs) Ht E Eh) as (_ & C1 & C2 & _ & HR). split_and!; try done.
  - by rewrite R1.
  - by rewrite <- C2.
  - destruct Ht as (-> & H2 & _). rewrite HR. unfold same_reasons in *. split; intros [? Hx]; (split; [done|]); intros r; by rewrite <- (Hx r), (H2 r).
Qed.

(** The two judgements of a machine agree: its analysis, which is never empty, has
    a critical insight only when its health is critical, and when neither swap nor
    network errors are what makes it so it has one. *)
Theorem analysis_agrees oc info snap ins h errors :
  analyze_vm oc info snap = Ok ins -> assess_health oc snap = Ok h -> net_errors oc snap = Ok errors ->
  let critical := exists i, i ∈ ins /\ level i = LevelCritical in
  ins <> [] /\ (critical -> health h = Critical) /\
  (health h = Critical -> fgt (used_pct (swap_used (memory snap)) (swap_total (memory snap))) (f64 50) = false -> errors <= 100 -> critical).
Proof.
  intros EA EH EN. cbv zeta. unfold assess_health in EH. rewrite EN in EH. injection EH as <-.
  assert ((exists i, i ∈ ins /\ level i = LevelCritical) <-> overloaded snap = true) as HC.
  { rewrite <- (critical_insight oc info snap ins EA), existsb_exists. unfold is_critical.
    by setoid_rewrite bool_decide_eq_true; setoid_rewrite list_elem_of_In. }
  rewrite HC, assessed_critical. split_and!; [|by left|].
  - intros ->. unfold analyze_vm in EA. by destruct (sum_u64 oc _), (sum_u64 oc _).
  - intros [?|[[_ H]|?]]; [done| |lia]. by intros H2; rewrite H in H2.
Qed.

(** A bar is as wide as asked for, whatever the utilisation: its filled cells come
    first and are none of a value that is negative or not a number. *)
Theorem bar_width pct width : 0 <= width ->
  exists filled, 0 <= filled <= width /\
    make_bar pct width = [91] ++ replicate (Z.to_nat filled) 0x2588 ++ replicate (Z.to_nat (width - filled)) 0x2591 ++ [93] /\
    (SFltb pct (S754_zero false) = true \/ is_nan pct = true -> filled = 0).
Proof.
  intros Hw. unfold make_bar. set (x := fmul F64 _ _). exists (Z.min (round_to_usize x) width).
  assert (0 <= round_to_usize x) as Hx.
  { unfold round_to_usize. destruct x as [| | |[] m e]; try lia; [by destruct s|].
    apply Z.min_glb; [|lia]. unfold value_num, value_den. apply Z.div_pos; nia. }
  split; [lia|]. split; [done|]. intros Hp. rewrite round_to_usize_neg; [lia|].
  assert (signed true pct = true) as Hs by (destruct pct as [[]|[]| |[]], Hp; done).
  by apply (fmul_signed F64 true false), f64_signed; [apply (fdiv_signed F64 true false)|].
Qed.

(** ** Witnesses *)

(** A machine whose CPU load rises to 95 per cent over eight samples. *)
Definition spike : list MetricsSnapshot := (simulate true 8 (simulator_new CpuSpike)).1.
Definition spike_end : MetricsSnapshot := default (Build_MetricsSnapshot 0 (Build_CpuMetrics S754_nan [] []) (Build_MemoryMetrics 0 0 0 0 0 0 0) [] [] []) (last spike).

Lemma spike_ok : Forall sample_ok spike.
Proof.
  apply Forall_forall. intros s Hs. assert (networks s = []) as E.
  { assert (Forall (fun s => networks s = []) spike) as H by (vm_compute; repeat constructor). by eapply Forall_forall in H. }
  unfold sample_ok, counters_ok, error_counts. rewrite E. split; [constructor|done].
Qed.

Lemma timeline_replays_witness :
  exists t h, timeline_run true spike = Ok t /\ assess_health true spike_end = Ok h /\ health h = Critical /\
    (replay (rows t)).1 = Some Critical /\ same_reasons (replay (rows t)).2 (reasons h) /\
    row_time <$> rows t = [str "T+00:00"; str "T+00:06"; str "T+00:07"].
Proof.
  destruct (timeline_replays true (removelast spike) spike_end spike_ok) as (t & t' & h & _ & E' & Eh & R1 & R2 & _).
  assert (health h = Critical) as Hh by (vm_compute in Eh; by injection Eh as <-).
  exists t', h. rewrite Hh in R1. split; [exact E'|]. split; [exact Eh|]. split; [exact Hh|]. split; [exact R1|]. split; [exact R2|].
  assert (row_time <$> (default [] (rows <$> res_ok (timeline_run true spike))) = [str "T+00:00"; str "T+00:06"; str "T+00:07"]) as R by (vm_compute; reflexivity).
  change spike with (removelast spike ++ [spike_end]) in R. rewrite E' in R. exact R.
Defined.

Definition spike_info : VmInfo := {| i_id := "web"; i_state := Running; i_config := demo_vm; i_exit_reason := None |}.

Lemma analysis_agrees_witness : exists ins h,
  analyze_vm true spike_info spike_end = Ok ins /\ assess_health true spike_end = Ok h /\ health h = Critical /\
  exists i, i ∈ ins /\ level i = LevelCritical.
Proof.
  destruct (analyze_vm true spike_info spike_end) as [ins|] eqn:EA; [|by vm_compute in EA].
  destruct (assess_health true spike_end) as [h|] eqn:EH; [|by vm_compute in EH].
  assert (net_errors true spike_end = Ok 0) as EN by (vm_compute; reflexivity).
  destruct (analysis_agrees true spike_info spike_end ins h 0 EA EH EN) as (_ & _ & H).
  assert (health h = Critical) as Hh by (vm_compute in EH; by injection EH as <-).
  exists ins, h. split; [done|]. split; [done|]. split; [done|]. apply H; [done|vm_compute; reflexivity|done].
Defined.

Lemma bar_width_witness :
  make_bar (f64 50) 4 = [91; 0x2588; 0x2588; 0x2591; 0x2591; 93] /\ length (make_bar S754_nan 15) = 17%nat.
Proof.
  split; [vm_compute; reflexivity|]. destruct (bar_width S754_nan 15 ltac:(done)) as (f & Hf & -> & H0).
  rewrite (H0 (or_intror eq_refl)). reflexivity.
Defined.
