(* ===== verification/Router.v ===== *)
(** * The HTTP interface of the daemon

    [hitz-daemon/src/router.rs]: from a request to an operation of the manager and
    from its result to a response.  JSON is the codec of [StateStore.v]; hyper's
    reading of a body (of at most 1 MiB) gives a text or an error.  A handler runs
    its operation as [VmManager.v] composes it; [Daemon.v] interleaves the same
    operations. *)

From Stdlib Require Import String Ascii.
From stdpp Require Import gmap strings.
From S2P Require Import Prelude Hal Memory PageTables Cpio Ethernet Config RunLoop SerialBuf StateStore VmManager.

(** ** Requests and responses *)

Inductive Method := GET | PUT | POST | DELETE | OtherMethod (name : string).

Record HttpRequest := { r_method : Method; r_path : string; r_body : result string string }.

Inductive VmAction := ActStart | ActStop | ActRestart.

(** The message of an [ApiError]: a text, or the [to_string] of an error. *)
Inductive Message := Text (s : string) | TextOf (e : DaemonError).

(** What a response carries; a stream is a reader of a machine's output. *)
Inductive Content := NoBody | Json_ (text : string) | ErrorBody (m : Message) | SerialStream (buf : nat) (pos : Z).

Record Response := { status : Z; content : Content }.

Definition OK : Z := 200.
Definition CREATED : Z := 201.
Definition NO_CONTENT : Z := 204.
Definition BAD_REQUEST : Z := 400.
Definition NOT_FOUND : Z := 404.
Definition METHOD_NOT_ALLOWED : Z := 405.
Definition CONFLICT : Z := 409.
Definition INTERNAL_SERVER_ERROR : Z := 500.
Definition SERVICE_UNAVAILABLE : Z := 503.

Definition error_response (st : Z) (message : Message) : Response := {| status := st; content := ErrorBody message |}.

Definition error_status (e : DaemonError) : Z :=
  match e with
  | NotFound _ => NOT_FOUND
  | AlreadyExists _ | InvalidState _ _ _ => CONFLICT
  | Vmm (VmConfigErr _) => BAD_REQUEST
  | _ => INTERNAL_SERVER_ERROR
  end.

Definition daemon_error_response (e : DaemonError) : Response := error_response (error_status e) (TextOf e).

(** ** Paths *)

Fixpoint str_split (c : ascii) (s : string) : option (string * string) :=
  match s with
  | EmptyString => None
  | String d s' => if Ascii.eqb d c then Some (EmptyString, s') else '(a, b) ← str_split c s'; Some (String d a, b)
  end.

Fixpoint splitn (n : nat) (c : ascii) (s : string) : list string :=
  match n with
  | O => []
  | S O => [s]
  | S n' => match str_split c s with Some (a, b) => a :: splitn n' c b | None => [s] end
  end.

Definition slash : ascii := "/"%char.

(** ** Handlers *)

Section Router.
Context {Jc : Json VmConfig} {Jp : Json PersistedState} {Ji : Json VmInfo} {Jl : Json (list VmInfo)}.
(** The bodies of requests, as they parse. *)
Variables (parse_create : string -> result string VmConfig) (parse_action : string -> result string VmAction)
          (parse_clone : string -> result string string).
Variables (hp : string -> bool) (path_exists : string -> bool) (is_separator : ascii -> bool).
(** What the rest of the daemon does while [restart_vm] sleeps. *)
Variable others : nat -> VmManager -> VmManager.

(** A machine's task, when one is spawned. *)
Definition Spawned : Type := option (VmConfig * nat * nat).

Definition json_response {A} `{Json A} (st : Z) (a : A) : result DaemonError Response :=
  match to_json a with
  | Ok s => Ok {| status := st; content := Json_ s |}
  | Err e => Err (Internal ("JSON serialize: " ++ e)%string)
  end.

Definition read_body (r : HttpRequest) : result DaemonError string :=
  map_err (fun e => Internal ("failed to read request body: " ++ e)%string) (r_body r).

Definition read_json {A} (parse : string -> result string A) (r : HttpRequest) : result DaemonError A :=
  body ← read_body r; map_err (fun e => Internal ("invalid JSON: " ++ e)%string) (parse body).

Definition handle_create (r : HttpRequest) (id : string) (m : VmManager) : result DaemonError Response * VmManager :=
  match read_json parse_create r with
  | Err e => (Err e, m)
  | Ok config => let '(info, m) := create_vm hp path_exists is_separator id config m in
                 (info ← info; json_response CREATED info, m)
  end.

Definition handle_get (id : string) (m : VmManager) : result DaemonError Response :=
  info ← get_vm id m; json_response OK info.

Definition handle_list (m : VmManager) : result DaemonError Response := json_response OK (list_vms m).

Definition handle_delete (id : string) (m : VmManager) : result DaemonError Response * VmManager :=
  let '(r, m) := delete_vm hp id m in (_ ← r; Ok {| status := NO_CONTENT; content := NoBody |}, m).

Definition handle_action (r : HttpRequest) (id : string) (m : VmManager) :
    result DaemonError Response * VmManager * Spawned :=
  match read_json parse_action r with
  | Err e => (Err e, m, None)
  | Ok ActStop => let '(info, m) := stop_vm id m in (info ← info; json_response OK info, m, None)
  | Ok a =>
      let '(started, m) := match a with ActRestart => restart_vm hp others id m | _ => start_vm hp id m end in
      (p ← started; json_response OK p.1, m, p ← res_ok started; Some p.2)
  end.

Definition handle_clone (r : HttpRequest) (id : string) (m : VmManager) : result DaemonError Response * VmManager :=
  match read_json parse_clone r with
  | Err e => (Err e, m)
  | Ok dest => let '(info, m) := clone_vm hp path_exists is_separator id dest m in
               (info ← info; json_response CREATED info, m)
  end.

Definition handle_serial (id : string) (m : VmManager) : result DaemonError Response :=
  '(buf, pos) ← serial_reader id m; Ok {| status := OK; content := SerialStream buf pos |}.

Definition metrics_unavailable : string :=
  "vsock metrics not available (push-to-OTel mode active; on-demand pull not yet implemented)".

Definition handle_metrics (id : string) (m : VmManager) : result DaemonError Response :=
  match request_metrics_snapshot id m with
  | None => Ok (error_response SERVICE_UNAVAILABLE (Text metrics_unavailable))
  | Some snap => Ok {| status := OK; content := Json_ snap |}
  end.

Definition route_vm (r : HttpRequest) (id : string) (suffix : option string) (m : VmManager) :
    result DaemonError Response * VmManager * Spawned :=
  let refused := (Ok (error_response METHOD_NOT_ALLOWED (Text "method not allowed")), m, None) in
  match r_method r, suffix with
  | PUT, None => (handle_create r id m, None)
  | GET, None => (handle_get id m, m, None)
  | GET, Some s =>
      if String.eqb s "serial" then (handle_serial id m, m, None)
      else if String.eqb s "metrics" then (handle_metrics id m, m, None) else refused
  | DELETE, None => (handle_delete id m, None)
  | POST, Some s =>
      if String.eqb s "action" then handle_action r id m
      else if String.eqb s "clone" then (handle_clone r id m, None) else refused
  | _, _ => refused
  end.

Definition route_path (r : HttpRequest) (m : VmManager) : result DaemonError Response * VmManager * Spawned :=
  if String.prefix "/vms/" (r_path r) then
    let segments := splitn 4 slash (r_path r) in
    match segments !! 2%nat with
    | Some id =>
        if String.eqb id "" then (Ok (error_response BAD_REQUEST (Text "missing VM ID")), m, None)
        else route_vm r id (segments !! 3%nat) m
    | None => (Ok (error_response BAD_REQUEST (Text "missing VM ID")), m, None)
    end
  else (Ok (error_response NOT_FOUND (Text "not found")), m, None).

Definition is_get (me : Method) : bool := match me with GET => true | _ => false end.

(** [result.unwrap_or_else(|e| daemon_error_response(&e))]. *)
Definition respond (res : result DaemonError Response) : Response :=
  match res with Ok resp => resp | Err e => daemon_error_response e end.

Definition route (r : HttpRequest) (m : VmManager) : Response * VmManager * Spawned :=
  let '(res, m, spawned) :=
    if is_get (r_method r) && String.eqb (r_path r) "/vms" then (handle_list m, m, None) else route_path r m in
  (respond res, m, spawned).
End Router.

(** ** Lemmas: paths *)

Lemma str_split_app c a b : str_split c a = None -> str_split c (a ++ String c b) = Some (a, b).
Proof.
  induction a as [|d a IH]; intros H; [simpl; by rewrite Ascii.eqb_refl|].
  change (String d a ++ String c b)%string with (String d (a ++ String c b)). simpl in H |- *.
  destruct (Ascii.eqb d c); [done|]. destruct (str_split c a) as [[? ?]|]; [done|]. by rewrite IH.
Qed.

(** An id as one segment of a path. *)
Definition id_segment (id : string) : Prop := id <> ""%string /\ str_split slash id = None.

Definition vm_path (id : string) (suffix : option string) : string :=
  ("/vms/" ++ id ++ match suffix with Some s => "/" ++ s | None => "" end)%string.

Lemma string_app_nil s : (s ++ "")%string = s.
Proof. induction s as [|c s IH]; [done|]. change (String c (s ++ "") = String c s)%string. by rewrite IH. Qed.

Lemma vm_path_segments id suffix : id_segment id ->
  splitn 4 slash (vm_path id suffix) !! 2%nat = Some id /\ splitn 4 slash (vm_path id suffix) !! 3%nat = suffix.
Proof.
  intros [_ H]. unfold vm_path.
  set (rest := (id ++ match suffix with Some s => "/" ++ s | None => "" end)%string).
  change ("/vms/" ++ rest)%string with ("" ++ String slash ("vms" ++ String slash rest))%string.
  cbn [splitn]. rewrite !str_split_app by done. subst rest. destruct suffix as [s|].
  - change ("/" ++ s)%string with (String slash s). by rewrite str_split_app.
  - by rewrite string_app_nil, H.
Qed.

(** ** Lemmas: errors of the store *)

Definition internal_failure (e : DaemonError) : Prop := error_status e = INTERNAL_SERVER_ERROR.

Definition store_op {A} (op : Store A) : Prop := forall s e s', op s = (Err e, s') -> internal_failure e.

Lemma store_op_bind {A B} (op : Store A) (f : A -> Store B) :
  store_op op -> (forall a, store_op (f a)) -> store_op (op ≫= f).
Proof.
  intros Ho Hf s e s' E. unfold mbind, store_bind in E. destruct (op s) as [[a|e1] s1] eqn:E1.
  - by apply (Hf a) in E.
  - injection E as <- <-. by apply Ho in E1.
Qed.

Lemma store_op_call {A} works fails : (forall s e s', works s = (Err e, s') -> internal_failure e) ->
  store_op (@system_call A works fails).
Proof.
  intros H s e s' E. unfold system_call in E. destruct (outcomes s) as [|[f|] l]; [by eapply H|by injection E as <- <-|by eapply H].
Qed.

Lemma store_op_attempt {A} (op : Store A) : store_op (attempt op).
Proof. intros s e s' E. unfold attempt in E. by destruct (op s). Qed.

Lemma store_op_print {A} `{Json A} (a : A) : store_op (print_json a).
Proof. intros s e s' E. unfold print_json, lift_result in E. destruct (to_json a); simpl in E; [done|by injection E as <- <-]. Qed.

Lemma store_op_write l n text : store_op (write_file l n text).
Proof. apply store_op_call. intros s e s' E. destruct (dir_at s l); [done|by injection E as <- <-]. Qed.

Lemma store_op_create l : store_op (create_dir_all l).
Proof. apply store_op_call. done. Qed.

Create HintDb router.
#[export] Hint Resolve store_op_bind store_op_attempt store_op_print store_op_write store_op_create : router.

Section StoreOps.
Context {Jc : Json VmConfig} {Jp : Json PersistedState}.
Variable hp : string -> bool.

Lemma store_op_config id c : store_op (save_config hp id c).
Proof. unfold save_config. eauto with router. Qed.

Lemma store_op_state id st now : store_op (save_state hp id st now).
Proof.
  unfold save_state, load_raw_state. apply store_op_bind; [auto with router|]. intros _.
  apply store_op_bind; [apply store_op_bind; [auto with router|by intros t s e s' [=]]|]. eauto with router.
Qed.

Lemma store_op_delete id : store_op (store_delete hp id).
Proof. apply store_op_call. done. Qed.

Lemma on_store_error {A} (op : Store A) m e m' : store_op op -> on_store op m = (Err e, m') -> internal_failure e.
Proof. intros Ho E. unfold on_store in E. destruct (op (store m)) as [r s] eqn:E1. injection E as -> <-. by apply Ho in E1. Qed.
End StoreOps.

Lemma prefix_app a b : String.prefix a (a ++ b) = true.
Proof.
  induction a as [|c a IH]; [by destruct b|]. change (String c a ++ b)%string with (String c (a ++ b)). simpl.
  by destruct (ascii_dec c c).
Qed.

Lemma vm_path_not_list id suffix : String.eqb (vm_path id suffix) "/vms" = false.
Proof. reflexivity. Qed.

(** ** Properties *)

Section Theorems.
Context {Jc : Json VmConfig} {Jp : Json PersistedState} {Ji : Json VmInfo} {Jl : Json (list VmInfo)}.
Variables (parse_create : string -> result string VmConfig) (parse_action : string -> result string VmAction)
          (parse_clone : string -> result string string).
Variables (hp : string -> bool) (path_exists : string -> bool) (is_separator : ascii -> bool).
Variable others : nat -> VmManager -> VmManager.
Implicit Types m : VmManager.

#[local] Notation route := (route parse_create parse_action parse_clone hp path_exists is_separator others).
#[local] Notation route_vm := (route_vm parse_create parse_action parse_clone hp path_exists is_separator others).
#[local] Notation handle_action := (handle_action parse_action hp others).
#[local] Notation create_vm := (create_vm hp path_exists is_separator).

(** A response with what else came of the request. *)
Definition answer (x : result DaemonError Response * VmManager * Spawned) : Response * VmManager * Spawned :=
  (respond x.1.1, x.1.2, x.2).

Lemma route_vm_path me id suffix body m : id_segment id ->
  route {| r_method := me; r_path := vm_path id suffix; r_body := body |} m =
  answer (route_vm {| r_method := me; r_path := vm_path id suffix; r_body := body |} id suffix m).
Proof.
  intros H. unfold Router.route. cbn [r_method r_path]. rewrite vm_path_not_list, andb_false_r. unfold route_path. cbn [r_path].
  unfold vm_path at 1. rewrite prefix_app. destruct (vm_path_segments id suffix H) as [-> ->].
  destruct H as [H _]. apply String.eqb_neq in H as ->. by destruct (route_vm _ id suffix m) as [[r m'] sp].
Qed.

(** Which request reaches which operation, for an id that is one segment of the
    path: the operation gets the id as it is written, its result decides status
    and body, and every other method or suffix is refused without an effect. *)
Theorem endpoints id body m (at_ := fun me suffix => {| r_method := me; r_path := vm_path id suffix; r_body := body |}) :
  id_segment id ->
  route {| r_method := GET; r_path := "/vms"; r_body := body |} m = (respond (handle_list m), m, None) /\
  route (at_ PUT None) m = answer (handle_create parse_create hp path_exists is_separator (at_ PUT None) id m, None) /\
  route (at_ GET None) m = (respond (handle_get id m), m, None) /\
  route (at_ DELETE None) m = answer (handle_delete hp id m, None) /\
  route (at_ GET (Some "serial"%string)) m = (respond (handle_serial id m), m, None) /\
  route (at_ GET (Some "metrics"%string)) m = (error_response SERVICE_UNAVAILABLE (Text metrics_unavailable), m, None) /\
  route (at_ POST (Some "action"%string)) m = answer (handle_action (at_ POST (Some "action"%string)) id m) /\
  route (at_ POST (Some "clone"%string)) m =
    answer (handle_clone parse_clone hp path_exists is_separator (at_ POST (Some "clone"%string)) id m, None) /\
  (forall me suffix, (me, suffix) ∉ [(PUT, None); (GET, None); (DELETE, None); (GET, Some "serial"%string);
      (GET, Some "metrics"%string); (POST, Some "action"%string); (POST, Some "clone"%string)] ->
    route (at_ me suffix) m = (error_response METHOD_NOT_ALLOWED (Text "method not allowed"), m, None)).
Proof.
  intros H. subst at_. split; [done|]. rewrite !route_vm_path by done. split_and!; try done.
  intros me suffix Hn. rewrite route_vm_path by done. unfold Router.route_vm, answer. cbn [r_method].
  rewrite !not_elem_of_cons in Hn. destruct Hn as (N1 & N2 & N3 & N4 & N5 & N6 & N7 & _).
  destruct me, suffix as [s|]; try done.
  - by rewrite !(proj2 (String.eqb_neq s _)) by congruence.
  - by rewrite !(proj2 (String.eqb_neq s _)) by congruence.
Qed.

(** The request asks for a restart. *)
Definition asks_restart (r : HttpRequest) : Prop := exists s, r_body r = Ok s /\ parse_action s = Ok ActRestart.

Lemma create_vm_refused id c m e m' : create_vm id c m = (Err e, m') -> error_status e <> INTERNAL_SERVER_ERROR -> m' = m.
Proof.
  unfold VmManager.create_vm, create_insert. intros E Hs.
  destruct (bad_id id); [by injection E as <- <-|].
  destruct (validate_config path_exists is_separator c); [|by injection E as <- <-].
  destruct (vms m !! id); [by injection E as <- <-|].
  set (m1 := set_vms _ _) in E. unfold persist_config in E. destruct (on_store _ m1) as [[[]|e1] m2] eqn:E1.
  - unfold persist_state in E. destruct (on_store _ m2) as [[[]|e2] m3] eqn:E2; [done|]. injection E as <- _.
    by destruct Hs; eapply on_store_error, E2; apply store_op_state.
  - injection E as <- _. by destruct Hs; eapply on_store_error, E1; apply store_op_config.
Qed.

Lemma start_vm_refused id m e m' : start_vm hp id m = (Err e, m') -> error_status e <> INTERNAL_SERVER_ERROR -> m' = m.
Proof.
  unfold start_vm, start_claim. intros E Hs. destruct (vms m !! id) as [en|]; [|by injection E as <- <-].
  destruct (decide (e_state en = Created)); [|by injection E as <- <-].
  unfold persist_state in E. match type of E with context [on_store ?op ?m1] => destruct (on_store op m1) as [[[]|e2] m3] eqn:E2 end; [done|].
  injection E as <- _. by destruct Hs; eapply on_store_error, E2; apply store_op_state.
Qed.

Lemma delete_vm_refused id m e m' : delete_vm hp id m = (Err e, m') -> error_status e <> INTERNAL_SERVER_ERROR -> m' = m.
Proof.
  unfold delete_vm, delete_remove. intros E Hs. destruct (vms m !! id) as [en|]; [|by injection E as <- <-].
  destruct (decide (e_state en = Running)); [by injection E as <- <-|].
  by destruct Hs; eapply on_store_error, E; apply store_op_delete.
Qed.

Lemma stop_vm_refused id m e m' : stop_vm id m = (Err e, m') -> m' = m.
Proof.
  unfold stop_vm. intros E. destruct (vms m !! id) as [en|]; [|by injection E as <- <-].
  destruct (decide _); [done|by injection E as <- <-].
Qed.

(** A body or a result that does not print is an internal failure. *)
Lemma json_response_status {A} `{Json A} st (a : A) e : json_response st a = Err e -> internal_failure e.
Proof. unfold json_response. destruct (to_json a); [done|]. by intros [= <-]. Qed.

(** Refusals: a status of the 4xx range. *)
Definition refusal (res : result DaemonError Response) : Prop := 400 <= status (respond res) < 500.

Lemma refusal_error e : refusal (Err e) -> error_status e <> INTERNAL_SERVER_ERROR.
Proof. unfold refusal. simpl. intros H E. rewrite E in H. unfold INTERNAL_SERVER_ERROR in H. lia. Qed.

Lemma not_refusal_json {A} `{Json A} st (a : A) : st < 400 -> ~ refusal (json_response st a).
Proof.
  intros Hst Hr. destruct (json_response st a) as [r|e] eqn:E.
  - unfold json_response in E. destruct (to_json a); [|done]. injection E as <-. unfold refusal in Hr. simpl in Hr. lia.
  - apply refusal_error in Hr. by apply json_response_status in E.
Qed.

Lemma refusal_bind {A} (r : result DaemonError A) (g : A -> result DaemonError Response) :
  (forall a, ~ refusal (g a)) -> refusal (r ≫= g) -> exists e, r = Err e /\ error_status e <> INTERNAL_SERVER_ERROR.
Proof.
  intros Hg Hr. destruct r as [a|e]; [by destruct (Hg a)|]. exists e. split; [done|]. by apply refusal_error.
Qed.

Lemma create_refused r id m res m' :
  handle_create parse_create hp path_exists is_separator r id m = (res, m') -> refusal res -> m' = m.
Proof.
  unfold handle_create. destruct (read_json parse_create r) as [c|e] eqn:ER; [|by intros [= <- <-]].
  destruct (create_vm id c m) as [info m1] eqn:EC. intros [= <- <-] (e & -> & He)%refusal_bind.
  - by apply create_vm_refused in EC.
  - intros a. by apply not_refusal_json.
Qed.

Lemma clone_refused r id m res m' :
  handle_clone parse_clone hp path_exists is_separator r id m = (res, m') -> refusal res -> m' = m.
Proof.
  unfold handle_clone. destruct (read_json parse_clone r) as [dest|e] eqn:ER; [|by intros [= <- <-]].
  destruct (clone_vm hp path_exists is_separator id dest m) as [info m1] eqn:EC. intros [= <- <-] (e & -> & He)%refusal_bind.
  - unfold clone_vm in EC. destruct (clone_config id m); [by apply create_vm_refused in EC|by injection EC as _ <-].
  - intros a. by apply not_refusal_json.
Qed.

Lemma delete_refused id m res m' : handle_delete hp id m = (res, m') -> refusal res -> m' = m.
Proof.
  unfold handle_delete. destruct (delete_vm hp id m) as [r m1] eqn:ED. intros [= <- <-] (e & -> & He)%refusal_bind.
  - by apply delete_vm_refused in ED.
  - intros _ [HH _]. cbn in HH. unfold NO_CONTENT in HH. lia.
Qed.

Lemma action_refused r id m res m' sp : handle_action r id m = (res, m', sp) -> refusal res -> ~ asks_restart r ->
  m' = m /\ sp = None.
Proof.
  unfold Router.handle_action. destruct (read_json parse_action r) as [a|e] eqn:ER; [|by intros [= <- <- <-]].
  intros E Hr HnR. destruct a.
  - destruct (start_vm hp id m) as [st m1] eqn:ES. injection E as <- <- <-.
    apply refusal_bind in Hr as (e & -> & He); [by apply start_vm_refused in ES|].
    intros p. by apply not_refusal_json.
  - destruct (stop_vm id m) as [info m1] eqn:ES. injection E as <- <- <-.
    apply refusal_bind in Hr as (e & -> & He); [by apply stop_vm_refused in ES|].
    intros p. by apply not_refusal_json.
  - destruct HnR. unfold read_json, read_body in ER. destruct (r_body r) as [b|] eqn:EB; simpl in ER; [|done].
    exists b. split; [done|]. destruct (parse_action b); simpl in ER; [by injection ER as ->|done].
Qed.

(** C27: A request refused with a status of the 4xx range changes nothing: not the
    table, the store, the flags or the buffers, and it spawns no machine; a restart,
    which stops the machine first, is excepted. *)
Theorem client_errors_change_nothing r m resp m' sp : route r m = (resp, m', sp) ->
  400 <= status resp < 500 -> ~ asks_restart r -> m' = m /\ sp = None.
Proof.
  unfold Router.route. intros E Hs HnR.
  destruct (is_get (r_method r) && String.eqb (r_path r) "/vms"); [by injection E as _ <- <-|].
  unfold route_path in E. destruct (String.prefix "/vms/" (r_path r)); [|by injection E as _ <- <-].
  destruct (splitn 4 slash (r_path r) !! 2%nat) as [id|]; [|by injection E as _ <- <-].
  destruct (String.eqb id ""); [by injection E as _ <- <-|].
  destruct (route_vm r id (splitn 4 slash (r_path r) !! 3%nat) m) as [[res m1] sp1] eqn:EV. injection E as <- <- <-.
  assert (refusal res) as Hr by exact Hs. clear Hs. unfold Router.route_vm in EV.
  destruct (r_method r), (splitn 4 slash (r_path r) !! 3%nat) as [s|]; try (by injection EV as _ <- <-).
  - destruct (String.eqb s "serial"); [by injection EV as _ <- <-|]. by destruct (String.eqb s "metrics"); injection EV as _ <- <-.
  - injection EV as EV <-. split; [|done]. by eapply create_refused.
  - destruct (String.eqb s "action"); [by eapply action_refused|].
    destruct (String.eqb s "clone"); [|by injection EV as _ <- <-]. injection EV as EV <-. split; [|done]. by eapply clone_refused.
  - injection EV as EV <-. split; [|done]. by eapply delete_refused.
Qed.

Lemma create_vm_accepted id c m info m' : create_vm id c m = (Ok info, m') ->
  info = to_info (new_entry c Created) id /\ vms m' = <[id := new_entry c Created]> (vms m) /\
  bad_id id = false /\ is_ok (validate_config path_exists is_separator c) = true.
Proof.
  unfold VmManager.create_vm, create_insert. intros E.
  destruct (bad_id id); [done|]. destruct (validate_config path_exists is_separator c); [|done].
  destruct (vms m !! id); [done|]. set (m1 := set_vms _ _) in E. unfold persist_config in E.
  pose proof (on_store_vms (save_config hp id c) m1) as V1. destruct (on_store _ m1) as [[[]|e1] m2]; [|done].
  unfold persist_state in E. pose proof (on_store_vms (save_state hp id Created (now_ms m2)) m2) as V2.
  destruct (on_store _ m2) as [[[]|e2] m3]; [|done]. injection E as <- <-. simpl in V1, V2. by rewrite V2, V1.
Qed.

Lemma delete_vm_removes id m r m' e : vms m !! id = Some e -> e_state e <> Running ->
  delete_vm hp id m = (r, m') -> vms m' = delete id (vms m).
Proof.
  unfold delete_vm, delete_remove. intros -> Hs E. destruct (decide (e_state e = Running)); [done|].
  unfold delete_persist in E. pose proof (on_store_vms (store_delete hp id) (set_vms m (delete id (vms m)))) as V.
  rewrite E in V. exact V.
Qed.

(** C21: What a client sees of a machine it created: it is there, with the body the
    creation answered; it cannot be created again, or stopped or read before it
    was started; and once a deletion was answered, well or badly, it is not there,
    though after a failure of the disk the store still has it. *)
Theorem created_machine_served id body s m m1 sp :
  id_segment id -> route {| r_method := PUT; r_path := vm_path id None; r_body := body |} m = ({| status := CREATED; content := Json_ s |}, m1, sp) ->
  let get suffix := {| r_method := GET; r_path := vm_path id suffix; r_body := body |} in
  let put := {| r_method := PUT; r_path := vm_path id None; r_body := body |} in
  let del := {| r_method := DELETE; r_path := vm_path id None; r_body := body |} in
  let stop b := {| r_method := POST; r_path := vm_path id (Some "action"%string); r_body := Ok b |} in
  route (get None) m1 = ({| status := OK; content := Json_ s |}, m1, None) /\
  (exists e, route put m1 = (error_response CONFLICT (TextOf e), m1, None)) /\
  (exists e, route (get (Some "serial"%string)) m1 = (error_response CONFLICT (TextOf e), m1, None)) /\
  (forall b, parse_action b = Ok ActStop -> exists e, route (stop b) m1 = (error_response CONFLICT (TextOf e), m1, None)) /\
  (forall resp m2 sp2, route del m1 = (resp, m2, sp2) ->
     status resp <> CONFLICT /\ route (get None) m2 = (error_response NOT_FOUND (TextOf (NotFound id)), m2, None)).
Proof.
  intros Hid E. cbv zeta. rewrite route_vm_path in E by done. unfold answer in E. injection E as E1 E2 _.
  unfold handle_create in E1, E2. destruct (read_json parse_create _) as [c|e] eqn:ER; [|done].
  destruct (create_vm id c m) as [info m'] eqn:EC. simpl in E1, E2. subst m'.
  destruct info as [info|e]; [|by destruct e as [| | |[]| |]]. apply create_vm_accepted in EC as (-> & V & HB & HV).
  assert (vms m1 !! id = Some (new_entry c Created)) as L by (rewrite V; apply lookup_insert_eq).
  simpl in E1. unfold json_response in E1. destruct (to_json _) as [txt|e] eqn:EJ; [|done]. injection E1 as ->.
  rewrite !route_vm_path by done. unfold answer. split_and!.
  - simpl. unfold handle_get, get_vm. rewrite L. simpl. unfold json_response. by rewrite EJ.
  - simpl. unfold handle_create. change (read_json parse_create _) with (read_json parse_create {| r_method := PUT; r_path := vm_path id None; r_body := body |}).
    rewrite ER. unfold VmManager.create_vm, create_insert. rewrite HB.
    destruct (validate_config path_exists is_separator c); [|done]. rewrite L. simpl. by eexists.
  - simpl. unfold handle_serial, serial_reader. rewrite L. simpl. by eexists.
  - intros b Hb. rewrite route_vm_path by done. unfold Router.route_vm. cbn [r_method]. cbv beta.
    change (String.eqb "action" "action") with true. cbv iota. unfold Router.handle_action, read_json, read_body.
    cbn [r_body map_err mbind result_bind]. rewrite Hb. cbn. unfold stop_vm. rewrite L. by eexists.
  - intros resp m2 sp2 [= <- <- _]. unfold handle_delete. destruct (delete_vm hp id m1) as [r m2] eqn:ED. cbn [fst snd].
    pose proof (delete_vm_removes id m1 r m2 _ L ltac:(done) ED) as V2. split.
    + destruct r as [[]|e]; [done|]. simpl. intros HC.
      assert (m2 = m1) as -> by (eapply delete_vm_refused; [exact ED|by rewrite HC]).
      rewrite V2, lookup_delete_eq in L. done.
    + rewrite route_vm_path by done. unfold answer. simpl. unfold handle_get, get_vm. by rewrite V2, lookup_delete_eq.
Qed.
End Theorems.

(** ** Witnesses *)

Definition info_json_demo : Json VmInfo := {| to_json := fun i => Ok (i_id i); from_json := fun _ => None |}.
Definition list_json_demo : Json (list VmInfo) := {| to_json := fun l => Ok (String.concat "," (i_id <$> l)); from_json := fun _ => None |}.

Definition create_demo (s : string) : result string VmConfig := if String.eqb s "{vm}" then Ok demo_vm else Err "expected value"%string.
Definition action_demo (s : string) : result string VmAction := if String.eqb s "stop" then Ok ActStop else Err "unknown variant"%string.
Definition clone_demo (s : string) : result string string := Ok s.

Definition route_demo : HttpRequest -> VmManager -> Response * VmManager * Spawned :=
  @route config_json_demo state_json_demo info_json_demo list_json_demo
    create_demo action_demo clone_demo no_prefix any_path VmManager.slash (fun _ m => m).

Definition request (me : Method) (path body : string) : HttpRequest := {| r_method := me; r_path := path; r_body := Ok body |}.

Lemma triple_eta {A B C} (x : A * B * C) : x = (x.1.1, x.1.2, x.2).
Proof. by destruct x as [[a b] c]. Qed.

Lemma answer_eta {A B C} (x : A * B * C) (a : A) : x.1.1 = a -> x = (a, x.1.2, x.2).
Proof. destruct x as [[? b] c]. by intros [= <-]. Qed.

Lemma web_segment : id_segment "web".
Proof. by split. Qed.

Lemma endpoints_witness :
  route_demo (request GET "/vms/web/metrics" "") (empty_manager new_store) =
    (error_response SERVICE_UNAVAILABLE (Text metrics_unavailable), empty_manager new_store, None) /\
  route_demo (request (OtherMethod "PATCH") "/vms/web" "") (empty_manager new_store) =
    (error_response METHOD_NOT_ALLOWED (Text "method not allowed"), empty_manager new_store, None).
Proof.
  destruct (@endpoints config_json_demo state_json_demo info_json_demo list_json_demo create_demo action_demo clone_demo
    no_prefix any_path VmManager.slash (fun _ m => m) "web" (Ok ""%string) (empty_manager new_store) web_segment)
    as (_ & _ & _ & _ & _ & Hm & _ & _ & Hr).
  split; [exact Hm|]. apply (Hr (OtherMethod "PATCH") None). set_solver.
Defined.

Lemma client_errors_change_nothing_witness :
  (route_demo (request DELETE "/vms/web" "") demo_manager).1.1 =
    error_response CONFLICT (TextOf (InvalidState "web" Running "Created, Stopped, or Failed")) /\
  (route_demo (request DELETE "/vms/web" "") demo_manager).1.2 = demo_manager.
Proof.
  split; [vm_compute; reflexivity|].
  refine (proj1 (@client_errors_change_nothing config_json_demo state_json_demo info_json_demo list_json_demo create_demo
    action_demo clone_demo no_prefix any_path VmManager.slash (fun _ m => m) (request DELETE "/vms/web" "") demo_manager
    _ _ _ (triple_eta (route_demo (request DELETE "/vms/web" "") demo_manager)) _ _)).
  - vm_compute. split; congruence.
  - intros (s & E & H). injection E as <-. discriminate.
Defined.

Lemma created_machine_served_witness :
  let m1 := (route_demo (request PUT "/vms/web" "{vm}") (empty_manager new_store)).1.2 in
  (route_demo (request PUT "/vms/web" "{vm}") (empty_manager new_store)).1.1 = {| status := CREATED; content := Json_ "web" |} /\
  (route_demo (request GET "/vms/web" "{vm}") m1).1.1 = {| status := OK; content := Json_ "web" |} /\
  status (route_demo (request DELETE "/vms/web" "{vm}") m1).1.1 <> CONFLICT.
Proof.
  cbv zeta. split; [vm_compute; reflexivity|].
  destruct (@created_machine_served config_json_demo state_json_demo info_json_demo list_json_demo create_demo action_demo
    clone_demo no_prefix any_path VmManager.slash (fun _ m => m) "web" (Ok "{vm}"%string) "web" (empty_manager new_store)
    _ _ web_segment (answer_eta (route_demo (request PUT "/vms/web" "{vm}") (empty_manager new_store)) _ ltac:(vm_compute; reflexivity)))
    as (Hg & _ & _ & _ & Hd).
  split; [exact (f_equal (fun x => x.1.1) Hg)|].
  exact (proj1 (Hd _ _ _ (triple_eta _))).
Defined.
