(* ===== verification/Daemon.v ===== *)
(** * The daemon: calls and machines that interleave

    The operations of [vm_manager.rs] as threads whose segments interleave, one
    segment at a time: a critical section on the table, or one call of the state
    store, or one step of a wait.  A world is the manager with its threads;
    [boot_and_run] is a thread that ends at any time with any outcome. *)

From Stdlib Require Import String Ascii.
From stdpp Require Import gmap strings relations.
From S2P Require Import Prelude Hal Memory PageTables Cpio Ethernet Config RunLoop SerialBuf StateStore VmManager.

(** ** Threads *)

Inductive Reply :=
| ReplyInfo (r : result DaemonError VmInfo)
| ReplyUnit (r : result DaemonError unit)
| ReplyList (l : list VmInfo)
| ReplyReader (r : result DaemonError (nat * Z))
| ReplyPanic.

(** Where a call or a machine's task is. *)
Inductive Thread :=
(* create_vm *)
| CreateInsert (id : string) (c : VmConfig)
| CreateSaveConfig (id : string) (c : VmConfig) (info : VmInfo)
| CreateSaveState (id : string) (info : VmInfo)
| CreateRollback (id : string) (e : DaemonError)
(* clone_vm *)
| CloneRead (src dest : string)
(* start_vm *)
| StartClaim (id : string)
| StartPersist (id : string) (c : VmConfig) (flag buf : nat) (info : VmInfo)
| StartSpawn (id : string) (c : VmConfig) (flag buf : nat) (info : VmInfo)
(* the task of a machine *)
| Booting (id : string) (c : VmConfig) (flag buf : nat)
| ExitCount (id : string) (o : RunOutcome)
| ExitUpdate (id : string) (o : RunOutcome)
| ExitPersist (id : string) (st : VmState)
| ExitSend (id : string)
(* stop_vm, get_vm, list_vms, serial_reader, stop_all *)
| StopCall (id : string) | GetCall (id : string) | ListCall | SerialCall (id : string) | StopAllCall
(* delete_vm *)
| DeleteRemove (id : string) | DeletePersist (id : string)
(* restart_vm: the turns left and the end of the sleep *)
| RestartStop (id : string)
| RestartSleep (id : string) (turns : nat) (wake : Z)
| RestartCheck (id : string) (turns : nat)
(* stop_all_and_wait: the messages still wanted *)
| WaitBegin (timeout : Z)
| WaitLock (deadline : Z) (wanted : nat)
| WaitReceive (deadline : Z) (wanted : nat)
| Finished (r : Reply).

Definition is_call (t : Thread) : bool :=
  match t with
  | CreateInsert _ _ | CloneRead _ _ | StartClaim _ | StopCall _ | GetCall _ | ListCall | SerialCall _ | StopAllCall
  | DeleteRemove _ | RestartStop _ | WaitBegin _ => true
  | _ => false
  end.

Section Threads.
Context {Jc : Json VmConfig} {Jp : Json PersistedState}.
Variables (hp : string -> bool) (path_exists : string -> bool) (is_separator : ascii -> bool).
(** [inject_guest_agent]; [None] is a panic. *)
Variable inject : VmConfig -> string -> option VmConfig.

(** [for _ in 0..50]. *)
Definition RESTART_TURNS : nat := 50.

(** One segment of a thread: [None] while it waits; the last component is a task
    it spawns. *)
Definition thread_step (m : VmManager) (t : Thread) : option (VmManager * Thread * option Thread) :=
  let continue m t := Some (m, t, None) in
  let reply m r := Some (m, Finished r, None) in
  match t with
  | CreateInsert id c =>
      let '(r, m) := create_insert path_exists is_separator id c m in
      match r with Ok info => continue m (CreateSaveConfig id c info) | Err e => reply m (ReplyInfo (Err e)) end
  | CreateSaveConfig id c info =>
      let '(r, m) := persist_config hp id c m in
      match r with Ok _ => continue m (CreateSaveState id info) | Err e => continue m (CreateRollback id e) end
  | CreateSaveState id info =>
      let '(r, m) := persist_state hp id Created m in
      match r with Ok _ => reply m (ReplyInfo (Ok info)) | Err e => continue m (CreateRollback id e) end
  | CreateRollback id e => reply (create_rollback id m) (ReplyInfo (Err e))
  | CloneRead src dest =>
      match clone_config src m with
      | Ok c => continue m (CreateInsert dest c)
      | Err e => reply m (ReplyInfo (Err e))
      end
  | StartClaim id =>
      let '(r, m) := start_claim id m in
      match r with
      | Ok (c, flag, buf, info) => continue m (StartPersist id c flag buf info)
      | Err e => reply m (ReplyInfo (Err e))
      end
  | StartPersist id c flag buf info =>
      let '(r, m) := persist_state hp id Running m in
      match r with
      | Ok _ => continue m (StartSpawn id c flag buf info)
      | Err e => reply m (ReplyInfo (Err e))
      end
  | StartSpawn id c flag buf info =>
      match inject c id with
      | Some c' => Some (start_count m, Finished (ReplyInfo (Ok info)), Some (Booting id c' flag buf))
      | None => reply m ReplyPanic
      end
  | Booting _ _ _ _ => None
  | ExitCount id o => continue (exit_count m) (ExitUpdate id o)
  | ExitUpdate id o =>
      let '(st, m) := exit_update id o m in
      continue m (match st with Some st => ExitPersist id st | None => ExitSend id end)
  | ExitPersist id st => let '(_, m) := persist_state hp id st m in continue m (ExitSend id)
  | ExitSend id => reply (exit_send id m) (ReplyUnit (Ok tt))
  | StopCall id => let '(r, m) := stop_vm id m in reply m (ReplyInfo r)
  | GetCall id => reply m (ReplyInfo (get_vm id m))
  | ListCall => reply m (ReplyList (list_vms m))
  | SerialCall id => reply m (ReplyReader (serial_reader id m))
  | StopAllCall => reply (stop_all m) (ReplyUnit (Ok tt))
  | DeleteRemove id =>
      let '(r, m) := delete_remove id m in
      match r with Ok _ => continue m (DeletePersist id) | Err e => reply m (ReplyUnit (Err e)) end
  | DeletePersist id => let '(r, m) := delete_persist hp id m in reply m (ReplyUnit r)
  | RestartStop id =>
      let '(r, m) := stop_vm id m in
      match r with
      | Ok _ => continue m (RestartSleep id (RESTART_TURNS - 1) (now_ms m + 100))
      | Err e => reply m (ReplyInfo (Err e))
      end
  | RestartSleep id turns wake => if wake <=? now_ms m then continue m (RestartCheck id turns) else None
  | RestartCheck id turns =>
      match get_vm id m with
      | Err e => reply m (ReplyInfo (Err e))
      | Ok info =>
          if bool_decide (i_state info = Stopped \/ i_state info = Failed) then continue m (StartClaim id)
          else match turns with
               | O => reply m (ReplyInfo (Err (Internal ("VM " ++ id ++ " failed to stop within 5 seconds for restart")%string)))
               | S turns' => continue m (RestartSleep id turns' (now_ms m + 100))
               end
      end
  | WaitBegin timeout =>
      match running_count m with
      | O => reply (stop_all m) (ReplyUnit (Ok tt))
      | S _ => continue (stop_all m) (WaitLock (now_ms m + timeout) (running_count m))
      end
  | WaitLock deadline wanted =>
      if receiver_locked m then None
      else continue (set_channel m (completions m) true) (WaitReceive deadline wanted)
  | WaitReceive deadline wanted =>
      match wanted, completions m with
      | O, _ => reply (set_channel m (completions m) false) (ReplyUnit (Ok tt))
      | S wanted', _ :: rest => continue (set_channel m rest true) (WaitReceive deadline wanted')
      | S _, [] => if deadline <=? now_ms m then reply (set_channel m [] false) (ReplyUnit (Ok tt)) else None
      end
  | Finished _ => None
  end.

(** ** Worlds *)

Record World := { manager : VmManager; threads : list Thread }.

Inductive world_step (w : World) : World -> Prop :=
| step_thread ts1 t ts2 m' t' sp :
    threads w = ts1 ++ t :: ts2 -> thread_step (manager w) t = Some (m', t', sp) ->
    world_step w {| manager := m'; threads := ts1 ++ t' :: ts2 ++ option_list sp |}
| step_machine_exits ts1 ts2 id c flag buf o :
    threads w = ts1 ++ Booting id c flag buf :: ts2 ->
    world_step w {| manager := manager w; threads := ts1 ++ ExitCount id o :: ts2 |}
| step_call t :
    is_call t = true -> world_step w {| manager := manager w; threads := threads w ++ [t] |}
| step_time t :
    now_ms (manager w) <= t -> world_step w {| manager := set_now (manager w) t; threads := threads w |}.

(** A schedule, to run a world: a segment of a thread, the end of a machine, or a
    new call. *)
Inductive Choice := Turn (k : nat) | Exits (k : nat) (o : RunOutcome) | Calls (t : Thread).

Definition choose (w : World) (c : Choice) : option World :=
  match c with
  | Turn k =>
      t ← threads w !! k;
      '(m', t', sp) ← thread_step (manager w) t;
      Some {| manager := m'; threads := take k (threads w) ++ t' :: drop (S k) (threads w) ++ option_list sp |}
  | Exits k o =>
      t ← threads w !! k;
      match t with
      | Booting id _ _ _ =>
          Some {| manager := manager w; threads := take k (threads w) ++ ExitCount id o :: drop (S k) (threads w) |}
      | _ => None
      end
  | Calls t => if is_call t then Some {| manager := manager w; threads := threads w ++ [t] |} else None
  end.

Fixpoint run_schedule (cs : list Choice) (w : World) : option World :=
  match cs with
  | [] => Some w
  | c :: cs' => w' ← choose w c; run_schedule cs' w'
  end.

(** ** Specification *)

Definition running_at (id : string) (m : VmManager) : nat :=
  match vms m !! id with Some e => if decide (e_state e = Running) then 1 else 0 | None => 0 end.

(** The threads that are between making a machine running and making it not. *)
Definition owns (id : string) (t : Thread) : nat :=
  match t with
  | StartPersist id' _ _ _ _ | StartSpawn id' _ _ _ _ | Booting id' _ _ _ | ExitCount id' _ | ExitUpdate id' _ =>
      if decide (id' = id) then 1 else 0
  | _ => 0
  end.

Definition owner_count (id : string) (ts : list Thread) : nat := sum_list (owns id <$> ts).

(** The machine a thread carries the stop flag of. *)
Definition carries (t : Thread) : option (string * nat) :=
  match t with
  | StartPersist id _ flag _ _ | StartSpawn id _ flag _ _ | Booting id _ flag _ => Some (id, flag)
  | _ => None
  end.

(** The threads the running-machine counter counts. *)
Definition counted (t : Thread) : nat := match t with Booting _ _ _ _ | ExitCount _ _ => 1 | _ => 0 end.
Definition counted_threads (ts : list Thread) : nat := sum_list (counted <$> ts).

(** A creation of the machine still under way. *)
Definition creating (id : string) (t : Thread) : bool :=
  match t with
  | CreateSaveConfig id' _ _ | CreateSaveState id' _ | CreateRollback id' _ => bool_decide (id' = id)
  | _ => false
  end.

Definition rolls_back (t : Thread) : bool := match t with CreateRollback _ _ => true | _ => false end.

(** The order of states. *)
Definition may_become (s s' : VmState) : Prop :=
  s = s' \/ (s = Created /\ s' = Running) \/ (s = Running /\ (s' = Stopped \/ s' = Failed)).

(** Listed as running, with no thread that will ever change that. *)
Definition stranded (id : string) (w : World) : Prop :=
  running_at id (manager w) = 1%nat /\ owner_count id (threads w) = 0%nat /\
  Forall (fun t => creating id t = false) (threads w).

(** Where records print, the agent is injected and the disk works. *)
Definition sound_host : Prop :=
  (forall p : PersistedState, is_ok (to_json p) = true) /\ (forall c : VmConfig, is_ok (to_json c) = true) /\
  (forall c id, is_Some (inject c id)).

(** The world of a daemon that has just started on a store that works. *)
Definition fresh (w : World) : Prop :=
  threads w = [] /\ reliable (store (manager w)) /\ vm_count (manager w) = 0 /\
  forall id e, vms (manager w) !! id = Some e -> e_state e <> Running.

End Threads.

(** ** Lemmas: segments *)

#[local] Opaque serial_new.

Lemma create_insert_cases pe sep id c m r m' :
  create_insert pe sep id c m = (r, m') ->
  (m' = m /\ is_err r = true) \/
  (vms m !! id = None /\ is_ok r = true /\ m' = set_vms m (<[id := new_entry c Created]> (vms m))).
Proof.
  unfold create_insert. destruct (bad_id id); [intros [= <- <-]; by left|].
  destruct (validate_config pe sep c); [|intros [= <- <-]; by left].
  destruct (vms m !! id) eqn:E; intros [= <- <-]; [by left|by right].
Qed.

Lemma start_claim_cases id m r m' :
  start_claim id m = (r, m') ->
  (m' = m /\ is_err r = true) \/
  exists e c flag buf info, r = Ok (c, flag, buf, info) /\ vms m !! id = Some e /\ e_state e = Created /\ store m' = store m /\
    vms m' = <[id := {| e_config := e_config e; e_state := Running; e_exit_reason := e_exit_reason e;
                       e_stop_flag := Some flag; e_serial_buf := Some buf |}]> (vms m) /\
    stop_flags m' = <[flag := false]> (stop_flags m) /\ vm_count m' = vm_count m.
Proof.
  unfold start_claim. destruct (vms m !! id) as [e|] eqn:E; [|intros [= <- <-]; by left].
  case_decide as Hc; [|intros [= <- <-]; by left]. cbv zeta. intros [= <- <-]. right. by do 5 eexists.
Qed.

Lemma delete_remove_cases id m r m' :
  delete_remove id m = (r, m') ->
  (m' = m /\ is_err r = true) \/
  exists e, r = Ok tt /\ vms m !! id = Some e /\ e_state e <> Running /\ m' = set_vms m (delete id (vms m)).
Proof.
  unfold delete_remove. destruct (vms m !! id) as [e|] eqn:E; [|intros [= <- <-]; by left].
  case_decide; intros [= <- <-]; [by left|]. right. by exists e.
Qed.

Lemma exit_update_cases id o m r m' :
  exit_update id o m = (r, m') ->
  (r = None /\ m' = m /\ vms m !! id = None) \/
  exists e, vms m !! id = Some e /\ r = Some (outcome_state o).1 /\ store m' = store m /\ stop_flags m' = stop_flags m /\
    vm_count m' = vm_count m /\
    vms m' = <[id := {| e_config := e_config e; e_state := (outcome_state o).1; e_exit_reason := Some (outcome_state o).2;
                       e_stop_flag := None; e_serial_buf := e_serial_buf e |}]> (vms m).
Proof.
  unfold exit_update. destruct (vms m !! id) as [e|] eqn:E; [|intros [= <- <-]; by left].
  destruct (outcome_state o) as [st why]. intros [= <- <-]. right. exists e. by destruct (e_serial_buf e).
Qed.

Lemma stop_vm_frame id m r m' :
  stop_vm id m = (r, m') ->
  vms m' = vms m /\ store m' = store m /\ vm_count m' = vm_count m /\
  forall f, is_Some (stop_flags m !! f) -> is_Some (stop_flags m' !! f).
Proof.
  unfold stop_vm. destruct (vms m !! id) as [e|]; [|by intros [= <- <-]].
  case_decide; intros [= <- <-]; [|done]. destruct (e_stop_flag e) as [a|]; [|done].
  split_and!; [done..|]. intros f Hf. cbn. destruct (decide (f = a)) as [->|]; [by rewrite lookup_insert_eq|].
  by rewrite lookup_insert_ne by congruence.
Qed.

Lemma stop_all_count l m : vm_count (foldl (fun m e => set_flag (e_stop_flag e) m) m l) = vm_count m.
Proof. revert m. induction l as [|e l IH]; intros m; [done|]. cbn [foldl]. rewrite IH. by destruct (e_stop_flag e). Qed.

Lemma stop_all_frame m :
  vms (stop_all m) = vms m /\ store (stop_all m) = store m /\ vm_count (stop_all m) = vm_count m /\
  forall f, is_Some (stop_flags m !! f) -> is_Some (stop_flags (stop_all m) !! f).
Proof.
  destruct (stop_all_fold (running_entries m) m) as [Hv Hs]. split_and!; [done..| |].
  - apply stop_all_count.
  - intros f Hf. unfold stop_all. rewrite stop_all_flags. by case_bool_decide.
Qed.

Lemma on_store_frame {A} (op : Store A) m r m' :
  on_store op m = (r, m') -> vms m' = vms m /\ stop_flags m' = stop_flags m /\ vm_count m' = vm_count m /\
    op (store m) = (r, store m').
Proof. unfold on_store. destruct (op (store m)) as [r' s]. by intros [= <- <-]. Qed.

(** Take a thread's step apart. *)
Ltac split_segments :=
  repeat match goal with
  | H : Some _ = Some _ |- _ => injection H as <- <- <-
  | H : context [create_insert ?a ?b ?c ?d ?e] |- _ =>
      let E := fresh "E" in destruct (create_insert a b c d e) as [[] ?] eqn:E; apply create_insert_cases in E
  | H : context [persist_config ?a ?b ?c ?d] |- _ =>
      let E := fresh "E" in destruct (persist_config a b c d) as [[] ?] eqn:E; apply on_store_frame in E
  | H : context [persist_state ?a ?b ?c ?d] |- _ =>
      let E := fresh "E" in destruct (persist_state a b c d) as [[] ?] eqn:E; apply on_store_frame in E
  | H : context [delete_persist ?a ?b ?c] |- _ =>
      let E := fresh "E" in destruct (delete_persist a b c) as [? ?] eqn:E; apply on_store_frame in E
  | H : context [start_claim ?a ?b] |- _ =>
      let E := fresh "E" in destruct (start_claim a b) as [[[[[]]]|] ?] eqn:E; apply start_claim_cases in E
  | H : context [delete_remove ?a ?b] |- _ =>
      let E := fresh "E" in destruct (delete_remove a b) as [[] ?] eqn:E; apply delete_remove_cases in E
  | H : context [exit_update ?a ?b ?c] |- _ =>
      let E := fresh "E" in destruct (exit_update a b c) as [[] ?] eqn:E; apply exit_update_cases in E
  | H : context [stop_vm ?a ?b] |- _ =>
      let E := fresh "E" in destruct (stop_vm a b) as [[] ?] eqn:E; apply stop_vm_frame in E
  end.

Ltac thread_cases t Hs :=
  destruct t; cbn in Hs; split_segments; repeat case_match; try done; split_segments;
  repeat match goal with H : _ \/ _ |- _ => destruct H | H : exists _, _ |- _ => destruct H | H : _ /\ _ |- _ => destruct H end;
  subst; try done; try congruence.

(** *** Owners and entries *)

Lemma running_at_insert id id' e m :
  running_at id (set_vms m (<[id' := e]> (vms m))) =
  if decide (id = id') then (if decide (e_state e = Running) then 1 else 0)%nat else running_at id m.
Proof.
  unfold running_at. cbn. case_decide as H; [subst; by rewrite lookup_insert_eq|by rewrite lookup_insert_ne by congruence].
Qed.

Lemma running_at_vms id m v : vms m = v -> running_at id m =
  match v !! id with Some e => if decide (e_state e = Running) then 1 else 0 | None => 0 end%nat.
Proof. by intros <-. Qed.

Lemma owner_count_app id l1 l2 : owner_count id (l1 ++ l2) = (owner_count id l1 + owner_count id l2)%nat.
Proof. unfold owner_count. rewrite fmap_app. induction (owns id <$> l1); simpl; lia. Qed.

Lemma owner_count_cons id t l : owner_count id (t :: l) = (owns id t + owner_count id l)%nat.
Proof. done. Qed.

Lemma owner_count_elem id t l : t ∈ l -> (owns id t <= owner_count id l)%nat.
Proof. intros (l1 & l2 & ->)%list_elem_of_split. rewrite owner_count_app, owner_count_cons. lia. Qed.

Lemma owner_count_zero id l : owner_count id l = 0%nat <-> Forall (fun t => owns id t = 0%nat) l.
Proof.
  induction l as [|t l IH]; [by split|]. rewrite owner_count_cons, Forall_cons, <- IH. lia.
Qed.

Lemma owner_exists id l : (0 < owner_count id l)%nat -> exists t, t ∈ l /\ owns id t = 1%nat.
Proof.
  induction l as [|t l IH]; [cbn; lia|]. rewrite owner_count_cons. intros Hpos.
  destruct (owns id t) as [|n] eqn:E.
  - destruct IH as (t' & Hin & Ho); [lia|]. exists t'. split; [by right|done].
  - exists t. split; [left|]. destruct t; cbn in *; try done; by case_decide.
Qed.

Lemma running_at_le id m : (running_at id m <= 1)%nat.
Proof. unfold running_at. repeat case_match; lia. Qed.

Lemma carries_owns t id f : carries t = Some (id, f) -> owns id t = 1%nat.
Proof. destruct t; cbn; try done; intros [= -> ->]; by rewrite decide_True. Qed.

Lemma call_quiet t id : is_call t = true -> owns id t = 0%nat /\ rolls_back t = false /\ carries t = None.
Proof. by destruct t. Qed.

Lemma outcome_state_final o : (outcome_state o).1 = Stopped \/ (outcome_state o).1 = Failed.
Proof. destruct o as [[]| |]; auto. Qed.

Section Steps.
Context {Jc : Json VmConfig} {Jp : Json PersistedState}.
Variables (hp : string -> bool) (path_exists : string -> bool) (is_separator : ascii -> bool).
Variable inject : VmConfig -> string -> option VmConfig.
Notation thread_step := (thread_step hp path_exists is_separator inject).
Notation world_step := (world_step hp path_exists is_separator inject).

(** A running machine's entry changes only in its own exit, or when its creation
    is rolled back. *)
Lemma thread_keeps_running id m t m' t' sp :
  thread_step m t = Some (m', t', sp) -> running_at id m = 1%nat ->
  (forall o, t <> ExitUpdate id o) -> (forall e, t <> CreateRollback id e) ->
  vms m' !! id = vms m !! id.
Proof.
  intros Hs Hr Hx Hc. unfold running_at in Hr. destruct (vms m !! id) as [e|] eqn:He; [|done].
  destruct (decide (e_state e = Running)) as [Hrun|]; [|done].
  pose proof (stop_all_frame m) as (Hva & _).
  assert (Hother : forall id' x, id' <> id -> <[id' := x]> (vms m) !! id = Some e) by (intros; by rewrite lookup_insert_ne).
  thread_cases t Hs; cbn;
    try (match goal with H : vms ?x = <[?i := _]> _ |- _ => rewrite H | _ => idtac end;
         destruct (decide (id0 = id)) as [->|]; [congruence|]; rewrite ?lookup_insert_ne, ?lookup_delete_ne by done; done).
  - rewrite lookup_delete_ne; [done|]. intros ->. by eapply Hc.
  - match goal with H : vms _ = <[_ := _]> _ |- _ => rewrite H end. apply Hother. intros ->. by eapply Hx.
Qed.

(** Stop flags are never taken back. *)
Lemma thread_keeps_flags m t m' t' sp f :
  thread_step m t = Some (m', t', sp) -> is_Some (stop_flags m !! f) -> is_Some (stop_flags m' !! f).
Proof.
  intros Hs Hf. pose proof (stop_all_frame m) as (_ & _ & _ & Hsa).
  thread_cases t Hs; cbn; auto; try (match goal with H : stop_flags _ = _ |- _ => rewrite H end); try done.
  destruct (decide (f = x1)) as [->|]; [by rewrite lookup_insert_eq|by rewrite lookup_insert_ne by congruence].
Qed.

(** The counter follows the machines that are booted. *)
Lemma thread_counts m t m' t' sp :
  thread_step m t = Some (m', t', sp) ->
  vm_count m' + Z.of_nat (counted t) = vm_count m + Z.of_nat (counted t' + counted_threads (option_list sp)).
Proof.
  intros Hs. pose proof (stop_all_frame m) as (_ & _ & Hca & _).
  thread_cases t Hs; cbn; lia.
Qed.

(** *** Where the store works *)

Definition steady {A} (op : Store A) : Prop := forall s, reliable s -> reliable (op s).2.

Lemma steady_bind {A B} (op : Store A) (f : A -> Store B) : steady op -> (forall a, steady (f a)) -> steady (op ≫= f).
Proof.
  intros Ho Hf s Hs. unfold mbind, store_bind. specialize (Ho s Hs). destruct (op s) as [[a|e] s']; [by apply Hf|done].
Qed.

Lemma steady_call {A} (works : StateStore -> result DaemonError A * StateStore) fails :
  (forall s, outcomes (works s).2 = outcomes s) -> steady (system_call works fails).
Proof. intros Hw s Hs. rewrite system_call_reliable by done. unfold reliable. by rewrite Hw. Qed.

Lemma steady_create l : steady (create_dir_all l).
Proof. by apply steady_call. Qed.

Lemma steady_write l n text : steady (write_file l n text).
Proof. apply steady_call. intros s. by case_match. Qed.

Lemma steady_read l n : steady (attempt (read_file l n)).
Proof.
  intros s Hs. unfold attempt. assert (H : steady (read_file l n)) by (by apply steady_call).
  specialize (H s Hs). by destruct (read_file l n s).
Qed.

Lemma steady_delete l : steady (remove_dir_all l).
Proof. by apply steady_call. Qed.

#[local] Hint Resolve steady_create steady_write steady_read steady_delete : hitz.

Lemma steady_save_state id st now : steady (save_state hp id st now).
Proof.
  unfold save_state, load_raw_state, print_json. cbv zeta.
  repeat (first [apply steady_bind; [|intros] | intros s Hs; done | solve [auto with hitz]]).
Qed.

Lemma steady_save_config id c : steady (save_config hp id c).
Proof.
  unfold save_config, print_json. cbv zeta.
  repeat (first [apply steady_bind; [|intros] | intros s Hs; done | solve [auto with hitz]]).
Qed.

Lemma thread_reliable m t m' t' sp :
  thread_step m t = Some (m', t', sp) -> reliable (store m) -> reliable (store m').
Proof.
  intros Hs Hr. pose proof (stop_all_frame m) as (_ & Hsa & _).
  assert (Hss : forall id st now r s', save_state hp id st now (store m) = (r, s') -> reliable s').
  { intros id st now r s' E. pose proof (steady_save_state id st now (store m) Hr) as H. by rewrite E in H. }
  assert (Hsc : forall id c r s', save_config hp id c (store m) = (r, s') -> reliable s').
  { intros id c r s' E. pose proof (steady_save_config id c (store m) Hr) as H. by rewrite E in H. }
  assert (Hsd : forall id r s', store_delete hp id (store m) = (r, s') -> reliable s').
  { intros id r s' E. pose proof (steady_delete (vm_dir hp id) (store m) Hr) as H. unfold store_delete in E. by rewrite E in H. }
  thread_cases t Hs; cbn; try (match goal with H : store _ = _ |- _ => rewrite H end); try done; eauto.
Qed.

(** Nothing is rolled back, and no start is given up, where everything prints. *)
Hypothesis states_print : forall p : PersistedState, is_ok (to_json p) = true.
Hypothesis configs_print : forall c : VmConfig, is_ok (to_json c) = true.
Hypothesis injects : forall c id, is_Some (inject c id).

Lemma save_state_works id st now s s' e : reliable s -> save_state hp id st now s <> (Err e, s').
Proof.
  intros Hr. destruct (to_json (persisted hp s id st now)) as [j|x] eqn:Ej.
  - by rewrite (save_state_reliable hp id st now s j Hr Ej).
  - specialize (states_print (persisted hp s id st now)). by rewrite Ej in states_print.
Qed.

Lemma save_config_works id c s s' e : reliable s -> save_config hp id c s <> (Err e, s').
Proof.
  intros Hr. destruct (to_json c) as [j|x] eqn:Ej.
  - by rewrite (save_config_reliable hp id c s j Hr Ej).
  - specialize (configs_print c). by rewrite Ej in configs_print.
Qed.

(** Running entries and their owners stay in balance. *)
Lemma thread_balance id m t m' t' sp :
  thread_step m t = Some (m', t', sp) -> reliable (store m) -> rolls_back t = false ->
  (forall o, t = ExitUpdate id o -> running_at id m = 1%nat) ->
  (owns id t' + owner_count id (option_list sp) + running_at id m = owns id t + running_at id m')%nat /\
  rolls_back t' = false /\ Forall (fun t => rolls_back t = false) (option_list sp).
Proof.
  intros Hs Hr Hb Hx. pose proof (stop_all_frame m) as (Hsa & _).
  assert (Hsame : forall m1, vms m1 = vms m -> running_at id m1 = running_at id m) by (intros m1 E; unfold running_at; by rewrite E).
  assert (Hstate : forall i st now s' e, save_state hp i st now (store m) <> (Err e, s')) by (intros; by apply save_state_works).
  assert (Hconfig : forall i c s' e, save_config hp i c (store m) <> (Err e, s')) by (intros; by apply save_config_works).
  assert (Hinject : forall c i, inject c i <> None) by (intros c i E; destruct (injects c i); congruence).
  thread_cases t Hs; try (exfalso; unfold not in *; eauto; fail); unfold owner_count; simpl;
    (split; [|split; [done|repeat constructor]]); rewrite ?Nat.add_0_r;
    try (match goal with |- _ = ?r => match r with context [running_at id ?x] => rewrite (Hsame x) by done end end;
         repeat case_decide; done || lia).
  - unfold running_at. cbn. destruct (decide (id0 = id)) as [<-|Hne]; [|by rewrite lookup_insert_ne].
    rewrite lookup_insert_eq. by match goal with H : vms m !! _ = None |- _ => rewrite H end.
  - match goal with H : vms _ = <[_ := _]> _ |- _ => rewrite (running_at_vms _ _ _ H) end.
    unfold running_at. case_decide as Hne; [subst id0|by rewrite lookup_insert_ne].
    rewrite lookup_insert_eq. match goal with H : vms m !! _ = Some _ |- _ => rewrite H end. cbn.
    match goal with H : e_state _ = Created |- _ => by rewrite H end.
  - match goal with H : vms _ = <[_ := _]> _ |- _ => rewrite (running_at_vms _ _ _ H) end.
    case_decide as Hne; [subst id0|unfold running_at; by rewrite lookup_insert_ne].
    rewrite (Hx o eq_refl), lookup_insert_eq. cbn. by destruct o as [[]| |].
  - case_decide as Hne; [subst id0|done]. specialize (Hx o eq_refl). unfold running_at in Hx.
    match goal with H : vms m !! _ = None |- _ => by rewrite H in Hx end.
  - unfold running_at. cbn. destruct (decide (id0 = id)) as [->|Hne]; [|by rewrite lookup_delete_ne].
    rewrite lookup_delete_eq. match goal with H : vms m !! _ = Some _ |- _ => rewrite H end. by case_decide.
Qed.

(** A flag is carried on, or belongs to a machine just claimed. *)
Lemma thread_carries m t m' t' sp t1 id f :
  thread_step m t = Some (m', t', sp) -> t1 = t' \/ sp = Some t1 -> carries t1 = Some (id, f) ->
  carries t = Some (id, f) \/
  (exists e, vms m' !! id = Some e /\ e_stop_flag e = Some f /\ is_Some (stop_flags m' !! f)).
Proof.
  intros Hs Hin Hc.
  assert (Hin' : t1 = t' \/ Some t1 = sp) by (destruct Hin; auto). clear Hin.
  thread_cases t Hs; cbn [carries] in Hc |- *; simplify_eq/=; try done; try (left; done).
  right.
  match goal with H : vms _ = <[_ := _]> _, H' : stop_flags _ = <[_ := _]> _ |- _ => rewrite H, H' end.
  rewrite !lookup_insert_eq. eexists. split; [reflexivity|]. split; [reflexivity|]. by eexists.
Qed.

(** *** The invariant of worlds *)

Record owned (w : World) : Prop := {
  ow_reliable : reliable (store (manager w));
  ow_count : forall id, owner_count id (threads w) = running_at id (manager w);
  ow_flags : forall t id f, t ∈ threads w -> carries t = Some (id, f) ->
    exists e, vms (manager w) !! id = Some e /\ e_stop_flag e = Some f /\ is_Some (stop_flags (manager w) !! f);
  ow_rollback : Forall (fun t => rolls_back t = false) (threads w);
}.

Lemma owned_step w w' : world_step w w' -> owned w -> owned w'.
Proof.
  intros Hstep [Hr Hcnt Hfl Hrb]. destruct Hstep as [ts1 t ts2 m' t' sp Hts Hs|ts1 ts2 id c flag buf o Hts|t Hc|t Ht].
  - rewrite Hts in *. set (m := manager w) in *.
    assert (Hbt : rolls_back t = false) by (rewrite Forall_app, Forall_cons in Hrb; tauto).
    assert (Hx : forall id o, t = ExitUpdate id o -> running_at id m = 1%nat).
    { intros id o ->. specialize (Hcnt id). rewrite owner_count_app, owner_count_cons in Hcnt. cbn [owns] in Hcnt.
      rewrite decide_True in Hcnt by done. pose proof (running_at_le id m). lia. }
    split; cbn [manager threads].
    + by eapply thread_reliable.
    + intros id. destruct (thread_balance id _ _ _ _ _ Hs Hr Hbt (Hx id)) as (Hbal & _ & _).
      specialize (Hcnt id). rewrite owner_count_app, owner_count_cons in Hcnt |- *. rewrite owner_count_app. lia.
    + intros t1 id f Hin Hcar.
      assert (Hkeep : forall t2, t2 ∈ ts1 ++ t :: ts2 -> carries t2 = Some (id, f) ->
                (t2 ∈ ts1 ++ ts2 \/ t2 = t) ->
                exists e, vms m' !! id = Some e /\ e_stop_flag e = Some f /\ is_Some (stop_flags m' !! f)).
      { intros t2 Hin2 Hc2 Hwhere. destruct (Hfl t2 id f Hin2 Hc2) as (e & He & Hf1 & Hf2). exists e.
        split; [|split; [done|by eapply thread_keeps_flags]].
        rewrite <- He. specialize (Hcnt id). rewrite owner_count_app, owner_count_cons in Hcnt.
        apply carries_owns in Hc2 as Ho2. pose proof (running_at_le id m).
        assert (Ht2 : (owns id t2 <= running_at id m)%nat).
        { pose proof (owner_count_elem id t2 _ Hin2) as Hle. rewrite owner_count_app, owner_count_cons in Hle. lia. }
        eapply thread_keeps_running; [exact Hs|lia| |by intros e0 ->].
        intros o ->. destruct Hwhere as [Hw| ->]; [|by cbn in Hc2].
        apply (owner_count_elem id) in Hw. rewrite owner_count_app in Hw. cbn [owns] in Hcnt.
        rewrite decide_True in Hcnt by done. lia. }
      rewrite app_comm_cons, elem_of_app, elem_of_app in Hin.
      assert (Hcase : t1 ∈ ts1 ++ ts2 \/ t1 ∈ t' :: option_list sp).
      { rewrite elem_of_cons, elem_of_app. rewrite elem_of_cons in Hin. tauto. }
      destruct Hcase as [Hold|Hnew].
      * apply (Hkeep t1); [|done|by left]. rewrite elem_of_app in Hold |- *. rewrite elem_of_cons. tauto.
      * assert (Hnew' : t1 = t' \/ sp = Some t1).
        { apply elem_of_cons in Hnew as [?|Hn]; [by left|right]. destruct sp as [x|]; simpl in Hn; [|by apply elem_of_nil in Hn].
          by apply list_elem_of_singleton in Hn as ->. }
        destruct (thread_carries _ _ _ _ _ _ _ _ Hs Hnew' Hcar) as [Hct|?]; [|done].
        apply (Hkeep t); [|done|by right]. rewrite elem_of_app, elem_of_cons. tauto.
    + destruct (thread_balance "" _ _ _ _ _ Hs Hr Hbt (Hx ""%string)) as (_ & H1 & H2).
      rewrite !Forall_app, !Forall_cons in *. rewrite Forall_app. tauto.
  - rewrite Hts in *. split; cbn [manager threads]; [done| | |].
    + intros id'. rewrite <- Hcnt. by rewrite !owner_count_app, !owner_count_cons.
    + intros t1 id' f Hin Hcar. apply (Hfl t1); [|done]. rewrite elem_of_app, elem_of_cons in Hin |- *.
      destruct Hin as [Hin|[Hin|Hin]]; [by left|by rewrite Hin in Hcar|by right; right].
    + rewrite Forall_app, Forall_cons in *. naive_solver.
  - destruct (call_quiet t "" Hc) as (_ & Hb & _). split; cbn [manager threads]; [done| | |].
    + intros id. rewrite owner_count_app, owner_count_cons, (proj1 (call_quiet t id Hc)), Hcnt. cbn. lia.
    + intros t1 id f [Hin|Hin%list_elem_of_singleton]%elem_of_app Hcar; [by eapply Hfl|]. subst t1.
      by rewrite (proj2 (proj2 (call_quiet t id Hc))) in Hcar.
    + rewrite Forall_app, Forall_singleton. done.
  - by split.
Qed.

Lemma thread_transition id m t m' t' sp e e' :
  thread_step m t = Some (m', t', sp) -> vms m !! id = Some e -> vms m' !! id = Some e' ->
  e_state e' = e_state e \/ (e_state e = Created /\ e_state e' = Running) \/
  exists o, t = ExitUpdate id o /\ (e_state e' = Stopped \/ e_state e' = Failed).
Proof.
  intros Hs He He'. pose proof (stop_all_frame m) as (Hsa & _).
  assert (Hsame : forall m1, vms m1 = vms m -> vms m1 !! id = Some e' -> e_state e' = e_state e).
  { intros m1 E E'. rewrite E, He in E'. by injection E' as ->. }
  thread_cases t Hs; try (left; eapply (fun E => Hsame _ E He'); done).
  - destruct (decide (id0 = id)) as [->|Hne]; [congruence|]. left. cbn in He'. rewrite lookup_insert_ne in He' by done.
    rewrite He in He'. by injection He' as ->.
  - left. unfold create_rollback in He'. cbn in He'. apply lookup_delete_Some in He' as [_ He']. rewrite He in He'. by injection He' as ->.
  - match goal with H : vms _ = <[_ := _]> _ |- _ => rewrite H in He' end.
    destruct (decide (id0 = id)) as [->|Hne].
    + rewrite lookup_insert_eq in He'. right; left. split; [congruence|by injection He' as <-].
    + left. rewrite lookup_insert_ne in He' by done. rewrite He in He'. by injection He' as ->.
  - match goal with H : vms _ = <[_ := _]> _ |- _ => rewrite H in He' end.
    destruct (decide (id0 = id)) as [->|Hne].
    + rewrite lookup_insert_eq in He'. right; right. exists o. split; [done|]. injection He' as <-. apply outcome_state_final.
    + left. rewrite lookup_insert_ne in He' by done. rewrite He in He'. by injection He' as ->.
  - left. cbn in He'. apply lookup_delete_Some in He' as [_ He']. rewrite He in He'. by injection He' as ->.
Qed.

(** *** Stranded machines *)

(** With the machine listed and running, no thread comes to own or to create it. *)
Lemma thread_stays_out id m t m' t' sp :
  thread_step m t = Some (m', t', sp) -> running_at id m = 1%nat -> owns id t = 0%nat -> creating id t = false ->
  owner_count id (t' :: option_list sp) = 0%nat /\ Forall (fun t => creating id t = false) (t' :: option_list sp).
Proof.
  intros Hs Hr Ho Hc. unfold running_at in Hr. destruct (vms m !! id) as [e|] eqn:He; [|done].
  destruct (decide (e_state e = Running)) as [Hrun|]; [|done].
  thread_cases t Hs; unfold owner_count; simpl in *; repeat constructor; repeat case_decide; try done; try congruence;
    try (apply bool_decide_eq_false_2; congruence).
Qed.

Definition no_owner (id : string) (t : Thread) : Prop := owns id t = 0%nat /\ creating id t = false.

Lemma stranded_alt id w : stranded id w <-> running_at id (manager w) = 1%nat /\ Forall (no_owner id) (threads w).
Proof. unfold stranded, no_owner. rewrite owner_count_zero, Forall_and. tauto. Qed.

Lemma stranded_step id w w' : world_step w w' -> stranded id w -> stranded id w'.
Proof.
  rewrite !stranded_alt. intros Hstep [Hr Hn].
  destruct Hstep as [ts1 t ts2 m' t' sp Hts Hs|ts1 ts2 id' c flag buf o Hts|t Hc|t Ht]; cbn [manager threads];
    try rewrite Hts in *.
  - apply Forall_app in Hn as [H1 [[Ho Hcr] H2]%Forall_cons].
    destruct (thread_stays_out id _ _ _ _ _ Hs Hr Ho Hcr) as [Ho' Hc'].
    split.
    + unfold running_at. rewrite (thread_keeps_running id _ _ _ _ _ Hs Hr); [done| |].
      * intros o ->. cbn in Ho. by rewrite decide_True in Ho.
      * intros e ->. cbn in Hcr. by rewrite bool_decide_eq_true_2 in Hcr.
    + apply owner_count_zero in Ho'. rewrite Forall_cons in Ho', Hc'. destruct Ho', Hc'.
      rewrite Forall_app, Forall_cons, Forall_app. split_and!; [done|by split|done|]. by apply Forall_and.
  - split; [done|]. rewrite Forall_app, Forall_cons in *. naive_solver.
  - split; [done|]. rewrite Forall_app, Forall_singleton. split; [done|]. by destruct t.
  - by split.
Qed.

Lemma counts_step w w' :
  world_step w w' -> vm_count (manager w) = Z.of_nat (counted_threads (threads w)) ->
  vm_count (manager w') = Z.of_nat (counted_threads (threads w')).
Proof.
  assert (Happ : forall l1 l2, counted_threads (l1 ++ l2) = (counted_threads l1 + counted_threads l2)%nat).
  { intros l1 l2. unfold counted_threads. rewrite fmap_app. induction (counted <$> l1); simpl; lia. }
  assert (Hcons : forall t l, counted_threads (t :: l) = (counted t + counted_threads l)%nat) by done.
  intros Hstep Hcnt.
  destruct Hstep as [ts1 t ts2 m' t' sp Hts Hs|ts1 ts2 id' c flag buf o Hts|t Hc|t Ht]; cbn [manager threads];
    try rewrite Hts in *.
  - apply thread_counts in Hs. rewrite Happ, Hcons in Hcnt. rewrite Happ, Hcons, Happ. lia.
  - rewrite Happ, Hcons in Hcnt. by rewrite Happ, Hcons.
  - rewrite Happ, Hcnt. assert (H : counted_threads [t] = 0%nat) by (by destruct t). lia.
  - done.
Qed.

(** *** Progress of a running machine *)

Definition stage (t : Thread) : nat :=
  match t with StartPersist _ _ _ _ _ => 4 | StartSpawn _ _ _ _ _ => 3 | Booting _ _ _ _ => 2 | ExitCount _ _ => 1 | _ => 0 end.

Definition final_at (id : string) (m : VmManager) : Prop :=
  exists e, vms m !! id = Some e /\ (e_state e = Stopped \/ e_state e = Failed).

Lemma owner_progress id w t :
  owned w -> t ∈ threads w -> owns id t = 1%nat ->
  exists w', world_step w w' /\
    (final_at id (manager w') \/ exists t', t' ∈ threads w' /\ owns id t' = 1%nat /\ (stage t' < stage t)%nat).
Proof.
  intros Hw Hin Ho. pose proof Hw as [Hrel Hcnt _ _].
  apply list_elem_of_split in Hin as (ts1 & ts2 & Hts).
  assert (Hgo : forall m' t' sp, thread_step (manager w) t = Some (m', t', sp) ->
            world_step w {| manager := m'; threads := ts1 ++ t' :: ts2 ++ option_list sp |})
    by (intros; by eapply step_thread).
  destruct t; cbn in Ho; try done; case_decide; try done; subst id0.
  - destruct (persist_state hp id Running (manager w)) as [[[]|e] m1] eqn:E.
    + eexists. split; [apply Hgo; cbn; by rewrite E|]. right. eexists. split; [apply elem_of_app; right; left|].
      split; [cbn; by rewrite decide_True|cbn; lia].
    + apply on_store_frame in E as (_ & _ & _ & E). by apply save_state_works in E.
  - destruct (injects c id) as [c' Ei]. eexists. split; [apply Hgo; cbn; by rewrite Ei|]. right.
    exists (Booting id c' flag buf).
    split; [cbn; rewrite elem_of_app, elem_of_cons, elem_of_app, list_elem_of_singleton; auto|].
    split; [cbn; by rewrite decide_True|cbn; lia].
  - eexists. split; [exact (step_machine_exits _ _ _ _ w ts1 ts2 id c flag buf (RanTo Halt) Hts)|]. right.
    eexists. split; [apply elem_of_app; right; left|]. split; [cbn; by rewrite decide_True|cbn; lia].
  - eexists. split; [by apply Hgo|]. right. eexists. split; [apply elem_of_app; right; left|].
    split; [cbn; by rewrite decide_True|cbn; lia].
  - destruct (exit_update id o (manager w)) as [st m1] eqn:E. eexists. split; [apply Hgo; cbn; by rewrite E|]. left.
    cbn [manager]. apply exit_update_cases in E as [(_ & _ & Hnone)|(e & _ & _ & _ & _ & _ & Hv)].
    + specialize (Hcnt id). unfold running_at in Hcnt. rewrite Hts, Hnone, owner_count_app, owner_count_cons in Hcnt.
      cbn [owns] in Hcnt. rewrite decide_True in Hcnt by done. lia.
    + eexists. rewrite Hv, lookup_insert_eq. split; [done|]. apply outcome_state_final.
Qed.

Lemma owner_finishes id n w t :
  owned w -> t ∈ threads w -> owns id t = 1%nat -> (stage t < n)%nat ->
  exists w', rtc world_step w w' /\ final_at id (manager w').
Proof.
  revert w t. induction n as [|n IH]; intros w t Hw Hin Ho Hn; [lia|].
  destruct (owner_progress id w t Hw Hin Ho) as (w1 & Hstep & [Hf|(t' & Hin' & Ho' & Hlt)]).
  - exists w1. split; [by apply rtc_once|done].
  - destruct (IH w1 t') as (w2 & Hs & Hf); [by eapply owned_step|done..|lia|].
    exists w2. split; [by eapply rtc_l|done].
Qed.

Lemma fresh_owned w : fresh w -> owned w.
Proof.
  intros (Ht & Hr & _ & Hn). split; rewrite ?Ht; [done| |by intros t id f Hin%elem_of_nil|done].
  intros id. unfold running_at. destruct (vms (manager w) !! id) as [e|] eqn:E; [|done].
  by rewrite decide_False by eauto.
Qed.

Lemma owned_reachable w w' : owned w -> rtc world_step w w' -> owned w'.
Proof. intros Hw Hs. induction Hs as [|w1 w2 w3 H _ IH]; [done|]. apply IH. by eapply owned_step. Qed.

(** *** A wait, and schedules *)

Lemma turn m t m' t' ts1 ts2 :
  thread_step m t = Some (m', t', None) ->
  world_step {| manager := m; threads := ts1 ++ t :: ts2 |} {| manager := m'; threads := ts1 ++ t' :: ts2 |}.
Proof.
  intros Hs. pose proof (step_thread hp path_exists is_separator inject
    {| manager := m; threads := ts1 ++ t :: ts2 |} ts1 t ts2 m' t' None eq_refl Hs) as H.
  cbn in H. by rewrite app_nil_r in H.
Qed.

Lemma wait_takes wanted ts1 ts2 deadline m :
  (wanted <= length (completions m))%nat ->
  exists m', rtc world_step {| manager := m; threads := ts1 ++ WaitReceive deadline wanted :: ts2 |}
               {| manager := m'; threads := ts1 ++ Finished (ReplyUnit (Ok tt)) :: ts2 |} /\ vms m' = vms m.
Proof.
  revert m. induction wanted as [|n IH]; intros m Hle.
  - exists (set_channel m (completions m) false). split; [|done]. apply rtc_once. by apply turn.
  - destruct (completions m) as [|c rest] eqn:Ec; [cbn in Hle; lia|].
    destruct (IH (set_channel m rest true)) as (m' & Hs & Hv); [cbn in *; lia|].
    exists m'. split; [|by rewrite Hv]. eapply rtc_l; [|exact Hs]. apply turn. cbn. by rewrite Ec.
Qed.

Lemma choose_sound w c w' : choose hp path_exists is_separator inject w c = Some w' -> world_step w w'.
Proof.
  destruct c as [k|k o|t]; cbn.
  - destruct (threads w !! k) as [t|] eqn:Ek; cbn; [|done].
    destruct (thread_step (manager w) t) as [[[m' t'] sp]|] eqn:Es; cbn; [|done]. intros [= <-].
    eapply step_thread; [|exact Es]. symmetry. by apply take_drop_middle.
  - destruct (threads w !! k) as [t|] eqn:Ek; cbn; [|done]. destruct t; try done. intros [= <-].
    eapply step_machine_exits. symmetry. by apply take_drop_middle.
  - destruct (is_call t) eqn:Ec; [|done]. intros [= <-]. by apply step_call.
Qed.

Lemma run_schedule_sound cs w w' : run_schedule hp path_exists is_separator inject cs w = Some w' -> rtc world_step w w'.
Proof.
  revert w. induction cs as [|c cs IH]; intros w; cbn [run_schedule]; [intros [= ->]; apply rtc_refl|].
  destruct (choose hp path_exists is_separator inject w c) as [w1|] eqn:E; cbn; [|done]. intros H.
  eapply rtc_l; [by eapply choose_sound|by apply IH].
Qed.


Lemma run_schedule_app cs1 cs2 w :
  run_schedule hp path_exists is_separator inject (cs1 ++ cs2) w =
  w' ← run_schedule hp path_exists is_separator inject cs1 w; run_schedule hp path_exists is_separator inject cs2 w'.
Proof.
  revert w. induction cs1 as [|c cs1 IH]; intros w; [done|]. cbn.
  destruct (choose _ _ _ _ w c); cbn; [|done]. apply IH.
Qed.

End Steps.

(** ** Properties *)

Section Properties.
Context {Jc : Json VmConfig} {Jp : Json PersistedState}.
Variables (hp : string -> bool) (path_exists : string -> bool) (is_separator : ascii -> bool).
Variable inject : VmConfig -> string -> option VmConfig.
Notation world_step := (world_step hp path_exists is_separator inject).

(** C9: From a fresh daemon on a disk where no call of the store ever fails, with an
    agent that can be injected: however calls, exits and waits interleave, a machine is
    listed as running exactly while one thread is starting, running or ending it; and a
    machine whose vCPUs run is listed, running, with the flag its vCPUs watch, so that
    [stop_vm] raises it.  A store that fails breaks it: [failed_start_strands_machine],
    [rollback_orphans_machine]. *)
Theorem running_machines_owned w0 w :
  sound_host inject -> fresh w0 -> rtc world_step w0 w ->
  (forall id, owner_count id (threads w) = running_at id (manager w)) /\
  forall id c flag buf, Booting id c flag buf ∈ threads w ->
    exists e, vms (manager w) !! id = Some e /\ e_state e = Running /\
      (stop_vm id (manager w)).1 = Ok (to_info e id) /\ stop_flags (stop_vm id (manager w)).2 !! flag = Some true.
Proof.
  intros (Hp & Hc & Hi) H0 Hs. apply fresh_owned in H0. eapply owned_reachable in Hs; [|done..]. destruct Hs as [_ Hcnt Hfl _].
  split; [done|]. intros id c flag buf Hin.
  destruct (Hfl _ id flag Hin eq_refl) as (e & He & Hf & _).
  apply (owner_count_elem id) in Hin. rewrite Hcnt in Hin. cbn in Hin. rewrite decide_True in Hin by done.
  unfold running_at in Hin. rewrite He in Hin. destruct (decide (e_state e = Running)) as [Hr|]; [|lia].
  exists e. unfold stop_vm. rewrite He, decide_True, Hf by done. split_and!; [done..|]. cbn. by rewrite lookup_insert_eq.
Qed.

(** C11: From a fresh daemon on a disk where no call of the store ever fails, with an
    agent that can be injected: however calls, exits and waits interleave, the states
    of a listed machine move only from created to running and from running to stopped
    or failed.  With a store that fails the rollback of a creation can take a machine
    off the list whose task still runs, and another of its name can be ended by it
    ([rollback_orphans_machine]). *)
Theorem lifecycle_order w0 w w' id e e' :
  sound_host inject -> fresh w0 -> rtc world_step w0 w -> world_step w w' ->
  vms (manager w) !! id = Some e -> vms (manager w') !! id = Some e' -> may_become (e_state e) (e_state e').
Proof.
  intros (Hp & Hc & Hi) H0 Hs Hstep He He'. apply fresh_owned in H0.
  eapply owned_reachable in Hs; [|done..]. destruct Hs as [_ Hcnt _ _].
  destruct Hstep as [ts1 t ts2 m' t' sp Hts Hst|ts1 ts2 id' c flag buf o Hts|t Hcall|t Ht]; cbn [manager set_now vms] in He';
    try (rewrite He in He'; injection He' as ->; by left).
  destruct (thread_transition _ _ _ _ id _ _ _ _ _ e e' Hst He He') as [Hsame|[[H1 H2]|(o & -> & Ho)]].
  - by left.
  - by right; left.
  - right; right. split; [|done]. specialize (Hcnt id).
    rewrite Hts, owner_count_app, owner_count_cons in Hcnt. cbn [owns] in Hcnt. rewrite decide_True in Hcnt by done.
    unfold running_at in Hcnt. rewrite He in Hcnt. case_decide; [done|lia].
Qed.

(** From a fresh daemon on a disk where no call of the store fails, a machine listed
    as running can always be brought to its end by its own thread alone: no other call
    has to act, and none can take its turn away. *)
Theorem running_machine_can_end w0 w id e :
  sound_host inject -> fresh w0 -> rtc world_step w0 w -> vms (manager w) !! id = Some e -> e_state e = Running ->
  exists w', rtc world_step w w' /\ final_at id (manager w').
Proof.
  intros (Hp & Hc & Hi) H0 Hs He Hr. apply fresh_owned in H0. eapply owned_reachable in Hs as Hw; [|done..].
  destruct (owner_exists id (threads w)) as (t & Hin & Ho).
  - rewrite (ow_count _ Hw). unfold running_at. rewrite He, decide_True by done. lia.
  - apply (owner_finishes _ _ _ _ Hp Hc Hi id (S (stage t)) w t); [done..|lia].
Qed.

(** The running-machine counter is the number of machines booted whose vCPUs have
    not ended, whatever store calls fail. *)
Theorem vm_count_exact w0 w :
  threads w0 = [] -> vm_count (manager w0) = 0 -> rtc world_step w0 w ->
  vm_count (manager w) = Z.of_nat (counted_threads (threads w)).
Proof.
  intros Ht Hc Hs. assert (H0 : vm_count (manager w0) = Z.of_nat (counted_threads (threads w0))) by (by rewrite Ht).
  clear Ht Hc. induction Hs as [|w1 w2 w3 H _ IH]; [done|]. apply IH. by eapply counts_step.
Qed.

(** A start whose state cannot be persisted leaves the machine running for good:
    no thread boots or ends it, and every later call finds it running, so that it
    can neither be started nor deleted. *)
Theorem failed_start_strands_machine w w1 w2 ts1 ts2 id c flag buf info x m' :
  threads w = ts1 ++ StartPersist id c flag buf info :: ts2 ->
  running_at id (manager w) = 1%nat -> owner_count id (threads w) = 1%nat ->
  Forall (fun t => creating id t = false) (threads w) ->
  persist_state hp id Running (manager w) = (Err x, m') ->
  w1 = {| manager := m'; threads := ts1 ++ Finished (ReplyInfo (Err x)) :: ts2 |} -> rtc world_step w1 w2 ->
  world_step w w1 /\
  (start_vm hp id (manager w2)).1 = Err (InvalidState id Running "Created") /\
  (delete_vm hp id (manager w2)).1 = Err (InvalidState id Running "Created, Stopped, or Failed") /\
  Forall (fun t => owns id t = 0%nat) (threads w2).
Proof.
  intros Hts Hr Ho Hcr Hx -> Hs.
  assert (H1 : stranded id {| manager := m'; threads := ts1 ++ Finished (ReplyInfo (Err x)) :: ts2 |}).
  { apply on_store_frame in Hx as (Hv & _). split_and!; cbn [manager threads].
    - unfold running_at in *. by rewrite Hv.
    - rewrite Hts, owner_count_app, owner_count_cons in Ho. rewrite owner_count_app, owner_count_cons. cbn [owns] in *.
      rewrite decide_True in Ho by done. lia.
    - rewrite Hts, Forall_app, Forall_cons in Hcr. rewrite Forall_app, Forall_cons. naive_solver. }
  assert (H2 : stranded id w2).
  { clear -Hs H1. induction Hs as [|wa wb wc H _ IH]; [done|]. by eapply IH, stranded_step. }
  split.
  - destruct w as [m ts]. cbn [manager threads] in *. subst ts. apply turn. cbn. by rewrite Hx.
  - destruct H2 as (Hrun & Hown & _). cbn in *. unfold running_at in Hrun.
    destruct (vms (manager w2) !! id) as [e|] eqn:He; [|done]. destruct (decide (e_state e = Running)) as [Hst|]; [|done].
    unfold start_vm, start_claim, delete_vm, delete_remove. rewrite !He, !Hst. cbn. unfold not_in_state. rewrite Hst.
    split_and!; [done..|]. by apply owner_count_zero.
Qed.

(** [stop_all_and_wait] takes any messages that lie in the channel for the exits
    it waits for: where earlier exits left enough of them, it returns with every
    machine still running. *)
Theorem stale_completions_end_wait m ts1 ts2 timeout :
  receiver_locked m = false -> (running_count m <= length (completions m))%nat ->
  exists m', rtc world_step {| manager := m; threads := ts1 ++ WaitBegin timeout :: ts2 |}
               {| manager := m'; threads := ts1 ++ Finished (ReplyUnit (Ok tt)) :: ts2 |} /\ vms m' = vms m.
Proof.
  intros Hl Hle. pose proof (stop_all_frame m) as (Hv & _).
  assert (Hch : forall l m0, completions (foldl (fun m e => set_flag (e_stop_flag e) m) m0 l) = completions m0 /\
                             receiver_locked (foldl (fun m e => set_flag (e_stop_flag e) m) m0 l) = receiver_locked m0).
  { intros l. induction l as [|e l IH]; intros m0; [done|]. cbn [foldl]. destruct (IH (set_flag (e_stop_flag e) m0)) as [-> ->].
    by destruct (e_stop_flag e). }
  destruct (Hch (running_entries m) m) as [Hcomp Hlock]. fold (stop_all m) in Hcomp, Hlock.
  destruct (running_count m) as [|n] eqn:En.
  - exists (stop_all m). split; [|done]. apply rtc_once, turn. cbn. by rewrite En.
  - set (m1 := set_channel (stop_all m) (completions (stop_all m)) true).
    destruct (wait_takes hp path_exists is_separator inject (S n) ts1 ts2 (now_ms m + timeout) m1) as (m' & Hs & Hv');
      [cbn; by rewrite Hcomp|]. exists m'. split; [|by rewrite Hv'].
    eapply rtc_l; [apply turn; cbn; by rewrite En|]. eapply rtc_l; [|exact Hs]. apply turn. cbn. by rewrite Hlock, Hl.
Qed.
End Properties.

(** ** Runs *)

Definition demo_json : Json VmConfig :=
  {| to_json := fun _ => Ok "{vm}"%string; from_json := from_json (Json := config_json_demo) |}.
Definition same_config (c : VmConfig) (id : string) : option VmConfig := Some c.

Notation demo_step := (@world_step demo_json state_json_demo no_prefix any_path slash same_config).

Definition demo_run (w : World) (cs : list Choice) : World :=
  default w (@run_schedule demo_json state_json_demo no_prefix any_path slash same_config cs w).

Definition runs (w : World) (cs : list Choice) : bool :=
  match @run_schedule demo_json state_json_demo no_prefix any_path slash same_config cs w with
  | Some _ => true
  | None => false
  end.

Lemma demo_run_reachable w cs : runs w cs = true -> rtc demo_step w (demo_run w cs).
Proof.
  unfold runs, demo_run. destruct (run_schedule _ _ _ _ cs w) as [w'|] eqn:E; [|done]. intros _.
  by eapply run_schedule_sound.
Qed.

Lemma demo_run_last w cs c : runs w (cs ++ [c]) = true -> demo_step (demo_run w cs) (demo_run w (cs ++ [c])).
Proof.
  unfold runs, demo_run. rewrite run_schedule_app.
  destruct (run_schedule _ _ _ _ cs w) as [w1|]; cbn; [|done].
  destruct (choose _ _ _ _ w1 c) as [w2|] eqn:E; cbn; [|done]. intros _. by eapply choose_sound.
Qed.

Definition world_on (s : StateStore) : World := {| manager := empty_manager s; threads := [] |}.

Lemma world_on_fresh : fresh (world_on new_store).
Proof. by split_and!. Qed.

Lemma demo_host : @sound_host demo_json state_json_demo same_config.
Proof. split_and!; [done..|by intros c id; eexists]. Qed.

(** The machine "web" is created and started: threads 0 and 1 are done, thread 2
    is the machine. *)
Definition boot_web : list Choice :=
  [Calls (CreateInsert "web" demo_vm); Turn 0; Turn 0; Turn 0; Calls (StartClaim "web"); Turn 1; Turn 1; Turn 1].

Lemma running_machines_owned_witness :
  owner_count "web" (threads (demo_run (world_on new_store) boot_web)) = 1%nat /\
  running_at "web" (manager (demo_run (world_on new_store) boot_web)) = 1%nat.
Proof.
  pose proof (proj1 (@running_machines_owned demo_json state_json_demo no_prefix any_path slash same_config
    _ _ demo_host world_on_fresh (demo_run_reachable (world_on new_store) boot_web eq_refl)) "web"%string) as H.
  rewrite <- H. split; vm_compute; reflexivity.
Defined.

(** The machine then ends, up to the persisting of its state. *)
Definition end_web : list Choice := boot_web ++ [Exits 2 (RanTo Halt); Turn 2].

Lemma lifecycle_order_witness :
  may_become Running Stopped /\
  e_state <$> vms (manager (demo_run (world_on new_store) end_web)) !! "web"%string = Some Running.
Proof.
  split; [|vm_compute; reflexivity].
  refine (@lifecycle_order demo_json state_json_demo no_prefix any_path slash same_config
    (world_on new_store) (demo_run (world_on new_store) end_web) (demo_run (world_on new_store) (end_web ++ [Turn 2])) "web"
    {| e_config := demo_vm; e_state := Running; e_exit_reason := None; e_stop_flag := Some 0%nat; e_serial_buf := Some 1%nat |}
    {| e_config := demo_vm; e_state := Stopped; e_exit_reason := Some "Halt"%string; e_stop_flag := None;
       e_serial_buf := Some 1%nat |}
    demo_host world_on_fresh (demo_run_reachable (world_on new_store) end_web eq_refl) _ _ _).
  - apply demo_run_last. vm_compute. reflexivity.
  - vm_compute. reflexivity.
  - vm_compute. reflexivity.
Defined.

Lemma running_machine_can_end_witness :
  exists w', rtc demo_step (demo_run (world_on new_store) boot_web) w' /\ final_at "web" (manager w').
Proof.
  eapply (@running_machine_can_end demo_json state_json_demo no_prefix any_path slash same_config
    (world_on new_store) (demo_run (world_on new_store) boot_web) "web");
    [exact demo_host|exact world_on_fresh|exact (demo_run_reachable (world_on new_store) boot_web eq_refl)|vm_compute; reflexivity|reflexivity].
Defined.

Lemma vm_count_exact_witness : vm_count (manager (demo_run (world_on new_store) boot_web)) = 1.
Proof.
  rewrite (@vm_count_exact demo_json state_json_demo no_prefix any_path slash same_config (world_on new_store)
    (demo_run (world_on new_store) boot_web) eq_refl eq_refl (demo_run_reachable (world_on new_store) boot_web eq_refl)).
  vm_compute. reflexivity.
Defined.

(** The disk fails when the start persists its state: after five calls to create. *)
Definition failing_start : StateStore :=
  {| files := files new_store; outcomes := [None; None; None; None; None; None; None; Some torn] |}.

Definition claim_web : list Choice :=
  [Calls (CreateInsert "web" demo_vm); Turn 0; Turn 0; Turn 0; Calls (StartClaim "web"); Turn 1].

Definition claimed : World := demo_run (world_on failing_start) claim_web.

Lemma failed_start_strands_machine_witness :
  exists m', @persist_state state_json_demo no_prefix "web" Running (manager claimed) =
               (Err (Io "no space left on device"), m') /\
    (@start_vm state_json_demo no_prefix "web" m').1 = Err (InvalidState "web" Running "Created").
Proof.
  destruct (@persist_state state_json_demo no_prefix "web" Running (manager claimed)) as [r m'] eqn:E.
  assert (Hr : r = Err (Io "no space left on device")).
  { apply (f_equal fst) in E. cbn [fst] in E. rewrite <- E. vm_compute. reflexivity. }
  subst r. exists m'. split; [reflexivity|].
  assert (Ht : exists t0 c flag buf info, threads claimed = [t0] ++ [StartPersist "web" c flag buf info]).
  { vm_compute. repeat eexists. }
  destruct Ht as (t0 & c & flag & buf & info & Ht).
  refine (proj1 (proj2 (@failed_start_strands_machine demo_json state_json_demo no_prefix any_path slash same_config
    claimed _ {| manager := m'; threads := [t0] ++ [Finished (ReplyInfo (Err (Io "no space left on device")))] |}
    [t0] [] "web" c flag buf info _ m' Ht _ _ _ E eq_refl (rtc_refl _ _)))).
  - vm_compute. reflexivity.
  - vm_compute. reflexivity.
  - vm_compute. repeat constructor.
Defined.

(** One machine has come and gone; another runs. *)
Definition db_runs : list Choice :=
  boot_web ++ [Exits 2 (RanTo Halt); Turn 2; Turn 2; Turn 2; Turn 2;
               Calls (CreateInsert "db" demo_vm); Turn 3; Turn 3; Turn 3; Calls (StartClaim "db"); Turn 4; Turn 4; Turn 4].

Lemma stale_completions_end_wait_witness :
  let m := manager (demo_run (world_on new_store) db_runs) in
  running_at "db" m = 1%nat /\
  exists m', rtc demo_step {| manager := m; threads := [] ++ WaitBegin 5000 :: [] |}
               {| manager := m'; threads := [] ++ Finished (ReplyUnit (Ok tt)) :: [] |} /\ vms m' = vms m.
Proof.
  cbv zeta. split; [vm_compute; reflexivity|].
  apply (@stale_completions_end_wait demo_json state_json_demo no_prefix any_path slash same_config).
  - vm_compute. reflexivity.
  - vm_compute. lia.
Defined.

(** *** Orders that go wrong *)

(** A machine can be started between its insertion and the failure of its
    creation; the rollback then takes it off the table while its vCPUs run, and
    no call can stop it any more. *)
Theorem rollback_orphans_machine :
  exists w c flag buf,
    rtc demo_step (world_on (store full_disk)) w /\ Booting "web" c flag buf ∈ threads w /\
    vms (manager w) !! "web"%string = None /\ (stop_vm "web" (manager w)).1 = Err (NotFound "web").
Proof.
  set (w := demo_run (world_on (store full_disk)) (claim_web ++ [Turn 1; Turn 1; Turn 0])).
  assert (Ht : exists c flag buf t0 t1, threads w = [t0; t1; Booting "web" c flag buf]) by (vm_compute; repeat eexists).
  destruct Ht as (c & flag & buf & t0 & t1 & Ht). exists w, c, flag, buf.
  split; [apply demo_run_reachable; vm_compute; reflexivity|].
  split; [rewrite Ht; right; right; left|]. split; vm_compute; reflexivity.
Qed.

(** The task of a machine that ended persists its state with no lock held: when
    the machine is deleted and created anew before that, the table says created
    and the disk says stopped, for good. *)
Definition late_exit : list Choice :=
  end_web ++ [Turn 2; Calls (DeleteRemove "web"); Turn 3; Turn 3;
              Calls (CreateInsert "web" demo_vm); Turn 4; Turn 4; Turn 4; Turn 2; Turn 2].

Theorem late_exit_diverges :
  exists w, rtc demo_step (world_on new_store) w /\
    forallb (fun t => match t with Finished _ => true | _ => false end) (threads w) = true /\
    e_state <$> vms (manager w) !! "web"%string = Some Created /\
    @recovered config_json_demo state_json_demo (store (manager w)) "web" = Some (demo_vm, Stopped).
Proof.
  exists (demo_run (world_on new_store) late_exit).
  split; [apply demo_run_reachable; vm_compute; reflexivity|]. split_and!; vm_compute; reflexivity.
Qed.
