(* ===== verification/Server.v ===== *)
(** * The daemon's server

    [hitz-daemon/src/server.rs] and the tasks of [run_daemon_inner]
    (hitz-cli/src/main.rs): listeners, connections and shutdown around the calls
    and machines of [Daemon.v].  An event is what a task does between two awaits; a
    connection reads a request, runs the call [Router.v] dispatches it to, one
    segment at a time, and answers when the call has finished. *)

From Stdlib Require Import String Ascii.
From stdpp Require Import gmap strings relations.
From S2P Require Import Prelude Hal Memory PageTables Cpio Ethernet Config RunLoop SerialBuf StateStore VmManager Router Daemon.

(** ** Tasks *)

(** The task of [run_server]: before its first poll, at [ServerOptions::create], in
    [select!] on the instance it created, and ended. *)
Inductive ServerTask := ServerStart | PipeCreate (first : bool) | PipeSelect | ServerDone (r : result string ()).

(** The task of [run_tcp_listener]: none, at [bind], in [select!], and ended. *)
Inductive TcpTask := TcpNone | TcpBind | TcpSelect | TcpDone (r : result string ()).

Inductive Endpoint := OnPipe | OnTcp.

#[export] Instance endpoint_eq_dec : EqDecision Endpoint.
Proof. solve_decision. Defined.

(** [serve_connection]: between requests, with a call under way (by the position of
    its thread), and closed; and the responses sent. *)
Inductive ConnState := Idle | Calling (r : HttpRequest) (k : nat) | Closed.
Record Connection := { endpoint : Endpoint; conn : ConnState; sent : list Response }.

(** Where [run_daemon_inner] is: at [shutdown.await], in [stop_all_and_wait] (by the
    position of its thread), at [server_handle.await], and returned. *)
Inductive Phase := Serving | Stopping (k : nat) | AwaitServer | Complete.

#[export] Instance phase_eq_dec : EqDecision Phase.
Proof. solve_decision. Defined.

(** [instances] has the [first_pipe_instance] of every instance asked for. *)
Record Server := {
  machines : World;
  tcp_addr : option string;
  server : ServerTask;
  tcp : TcpTask;
  connections : list Connection;
  instances : list bool;
  shutdown_sent : bool;
  phase : Phase;
}.

(** *** Field updates *)

Definition set_machines (s : Server) (w : World) : Server :=
  {| machines := w; tcp_addr := tcp_addr s; server := server s; tcp := tcp s; connections := connections s;
     instances := instances s; shutdown_sent := shutdown_sent s; phase := phase s |}.
Definition set_tasks (s : Server) (t : ServerTask) (u : TcpTask) : Server :=
  {| machines := machines s; tcp_addr := tcp_addr s; server := t; tcp := u; connections := connections s;
     instances := instances s; shutdown_sent := shutdown_sent s; phase := phase s |}.
Definition set_connections (s : Server) (l : list Connection) : Server :=
  {| machines := machines s; tcp_addr := tcp_addr s; server := server s; tcp := tcp s; connections := l;
     instances := instances s; shutdown_sent := shutdown_sent s; phase := phase s |}.
Definition set_phase (s : Server) (flag : bool) (p : Phase) : Server :=
  {| machines := machines s; tcp_addr := tcp_addr s; server := server s; tcp := tcp s; connections := connections s;
     instances := instances s; shutdown_sent := flag; phase := p |}.
Definition asked (s : Server) (first : bool) : Server :=
  {| machines := machines s; tcp_addr := tcp_addr s; server := server s; tcp := tcp s; connections := connections s;
     instances := instances s ++ [first]; shutdown_sent := shutdown_sent s; phase := phase s |}.

Definition add_thread (w : World) (t : Thread) : World := {| manager := manager w; threads := threads w ++ [t] |}.

Definition set_conn (c : Connection) (st : ConnState) : Connection := {| endpoint := endpoint c; conn := st; sent := sent c |}.
Definition send_response (c : Connection) (r : Response) : Connection :=
  {| endpoint := endpoint c; conn := Idle; sent := sent c ++ [r] |}.

(** The server as [run_daemon_inner] spawns it. *)
Definition server_start (w : World) (tcp_addr : option string) : Server :=
  {| machines := w; tcp_addr := tcp_addr; server := ServerStart; tcp := TcpNone; connections := []; instances := [];
     shutdown_sent := false; phase := Serving |}.

Definition accept_connection (s : Server) (e : Endpoint) : Server :=
  set_connections s (connections s ++ [{| endpoint := e; conn := Idle; sent := [] |}]).

(** ** Requests and calls *)

Section Serve.
Context {Jc : Json VmConfig} {Jp : Json PersistedState} {Ji : Json VmInfo} {Jl : Json (list VmInfo)}.
Variables (parse_create : string -> result string VmConfig) (parse_action : string -> result string VmAction)
          (parse_clone : string -> result string string).
Variables (hp : string -> bool) (path_exists : string -> bool) (is_separator : ascii -> bool).
Variable inject : VmConfig -> string -> option VmConfig.

(** What a request comes to: a response at once, or a call of the manager. *)
Definition Dispatched : Type := Response + Thread.

Definition parsed {A} (parse : string -> result string A) (r : HttpRequest) (f : A -> Thread) : Dispatched :=
  match read_json parse r with Ok a => inr (f a) | Err e => inl (daemon_error_response e) end.

Definition action_thread (id : string) (a : VmAction) : Thread :=
  match a with ActStart => StartClaim id | ActStop => StopCall id | ActRestart => RestartStop id end.

Definition dispatch_vm (m : VmManager) (r : HttpRequest) (id : string) (suffix : option string) : Dispatched :=
  let refused := inl (error_response METHOD_NOT_ALLOWED (Text "method not allowed")) in
  match r_method r, suffix with
  | PUT, None => parsed parse_create r (CreateInsert id)
  | GET, None => inr (GetCall id)
  | GET, Some s =>
      if String.eqb s "serial" then inr (SerialCall id)
      else if String.eqb s "metrics" then inl (respond (handle_metrics id m)) else refused
  | DELETE, None => inr (DeleteRemove id)
  | POST, Some s =>
      if String.eqb s "action" then parsed parse_action r (action_thread id)
      else if String.eqb s "clone" then parsed parse_clone r (CloneRead id) else refused
  | _, _ => refused
  end.

Definition dispatch (m : VmManager) (r : HttpRequest) : Dispatched :=
  if is_get (r_method r) && String.eqb (r_path r) "/vms" then inr ListCall
  else if String.prefix "/vms/" (r_path r) then
    let segments := splitn 4 slash (r_path r) in
    match segments !! 2%nat with
    | Some id =>
        if String.eqb id "" then inl (error_response BAD_REQUEST (Text "missing VM ID"))
        else dispatch_vm m r id (segments !! 3%nat)
    | None => inl (error_response BAD_REQUEST (Text "missing VM ID"))
    end
  else inl (error_response NOT_FOUND (Text "not found")).

(** The status of a call that answers with a machine's description. *)
Definition info_status (r : HttpRequest) : Z :=
  match r_method r with
  | PUT => CREATED
  | POST => if bool_decide (splitn 4 slash (r_path r) !! 3%nat = Some "clone"%string) then CREATED else OK
  | _ => OK
  end.

(** The response to a finished call; a panic has none. *)
Definition reply_response (r : HttpRequest) (reply : Reply) : option Response :=
  match reply with
  | ReplyInfo x => Some (respond (info ← x; json_response (info_status r) info))
  | ReplyUnit x => Some (respond (_ ← x; Ok {| status := NO_CONTENT; content := NoBody |}))
  | ReplyList l => Some (respond (json_response OK l))
  | ReplyReader x => Some (respond ('(buf, pos) ← x; Ok {| status := OK; content := SerialStream buf pos |}))
  | ReplyPanic => None
  end.

(** ** Events *)

Inductive Event :=
(* run_server: first poll; create, connect and changed of the pipe listener *)
| ServerPolled | InstanceCreated (r : result string ()) | PipeConnected (r : result string ()) | PipeShutdown
(* the TCP listener: bind, accept and changed *)
| TcpBound (r : result string ()) | TcpAccepted (r : result string ()) | TcpShutdown
(* a connection: a request read, a call finished, the end *)
| Requested (c : nat) (r : HttpRequest) | Answered (c : nat) | ConnectionEnds (c : nat)
(* the rest of the daemon *)
| MachineTurn (k : nat) | MachineExits (k : nat) (o : RunOutcome) | Time (t : Z)
(* run_daemon_inner: shutdown.await, stop_all_and_wait and server_handle.await are over *)
| ShutdownResolved | WaitDone | ServerAwaited.

(** [Duration::from_secs(5)]. *)
Definition STOP_TIMEOUT : Z := 5000.

Definition listener_event (s : Server) (e : Event) : option Server :=
  match e, server s, tcp s with
  | ServerPolled, ServerStart, u =>
      Some (set_tasks s (PipeCreate true) (match tcp_addr s with Some _ => TcpBind | None => u end))
  | InstanceCreated r, PipeCreate first, u =>
      Some (set_tasks (asked s first) (match r with Ok _ => PipeSelect | Err e => ServerDone (Err e) end) u)
  | PipeConnected (Ok _), PipeSelect, u => Some (set_tasks (accept_connection s OnPipe) (PipeCreate false) u)
  | PipeConnected (Err e), PipeSelect, u => Some (set_tasks s (ServerDone (Err e)) u)
  | PipeShutdown, PipeSelect, u => if shutdown_sent s then Some (set_tasks s (ServerDone (Ok ())) u) else None
  | TcpBound r, t, TcpBind => Some (set_tasks s t (match r with Ok _ => TcpSelect | Err e => TcpDone (Err e) end))
  | TcpAccepted (Ok _), _, TcpSelect => Some (accept_connection s OnTcp)
  | TcpAccepted (Err e), t, TcpSelect => Some (set_tasks s t (TcpDone (Err e)))
  | TcpShutdown, t, TcpSelect => if shutdown_sent s then Some (set_tasks s t (TcpDone (Ok ()))) else None
  | _, _, _ => None
  end.

Definition put_conn (s : Server) (c : nat) (k : Connection) : Server := set_connections s (<[c := k]> (connections s)).

Definition connection_event (s : Server) (e : Event) : option Server :=
  match e with
  | Requested c r =>
      k ← connections s !! c;
      match conn k with
      | Idle =>
          match dispatch (manager (machines s)) r with
          | inl resp => Some (put_conn s c (send_response k resp))
          | inr t => Some (put_conn (set_machines s (add_thread (machines s) t)) c
                             (set_conn k (Calling r (length (threads (machines s))))))
          end
      | _ => None
      end
  | Answered c =>
      k ← connections s !! c;
      match conn k with
      | Calling r i =>
          t ← threads (machines s) !! i;
          match t with
          | Finished reply => Some (put_conn s c (match reply_response r reply with
                                                  | Some resp => send_response k resp
                                                  | None => set_conn k Closed
                                                  end))
          | _ => None
          end
      | _ => None
      end
  | ConnectionEnds c => k ← connections s !! c; Some (put_conn s c (set_conn k Closed))
  | _ => None
  end.

Definition machine_event (s : Server) (e : Event) : option Server :=
  let w := machines s in
  match e with
  | MachineTurn k => set_machines s <$> choose hp path_exists is_separator inject w (Turn k)
  | MachineExits k o => set_machines s <$> choose hp path_exists is_separator inject w (Exits k o)
  | Time t => if now_ms (manager w) <=? t then Some (set_machines s {| manager := set_now (manager w) t; threads := threads w |})
              else None
  | _ => None
  end.

(** [run_daemon_inner], after the server is spawned. *)
Definition daemon_event (s : Server) (e : Event) : option Server :=
  match e, phase s with
  | ShutdownResolved, Serving =>
      Some (set_phase (set_machines s (add_thread (machines s) (WaitBegin STOP_TIMEOUT))) true
              (Stopping (length (threads (machines s)))))
  | WaitDone, Stopping k =>
      match threads (machines s) !! k with
      | Some (Finished _) => Some (set_phase s (shutdown_sent s) AwaitServer)
      | _ => None
      end
  | ServerAwaited, AwaitServer =>
      match server s with ServerDone _ => Some (set_phase s (shutdown_sent s) Complete) | _ => None end
  | _, _ => None
  end.

Definition serve_event (s : Server) (e : Event) : option Server :=
  match e with
  | ServerPolled | InstanceCreated _ | PipeConnected _ | PipeShutdown | TcpBound _ | TcpAccepted _ | TcpShutdown => listener_event s e
  | Requested _ _ | Answered _ | ConnectionEnds _ => connection_event s e
  | MachineTurn _ | MachineExits _ _ | Time _ => machine_event s e
  | ShutdownResolved | WaitDone | ServerAwaited => daemon_event s e
  end.

Fixpoint serve_events (es : list Event) (s : Server) : option Server :=
  match es with [] => Some s | e :: es' => s' ← serve_event s e; serve_events es' s' end.

Definition server_step (s s' : Server) : Prop := exists e, serve_event s e = Some s'.

(** ** Specification *)

Definition waits (t : Thread) : bool := match t with WaitBegin _ | WaitLock _ _ | WaitReceive _ _ => true | _ => false end.
Definition receives (t : Thread) : bool := match t with WaitReceive _ _ => true | _ => false end.

(** The thread waits until no later than [STOP_TIMEOUT] from now. *)
Definition soon (now : Z) (t : Thread) : Prop :=
  match t with WaitBegin d => d = STOP_TIMEOUT | WaitLock d _ | WaitReceive d _ => d <= now + STOP_TIMEOUT | _ => True end.

Definition pipe_count (l : list Connection) : nat := length (filter (fun c => endpoint c = OnPipe) l).

(** The [first_pipe_instance] of the first [n] instances. *)
Definition first_only (n : nat) : list bool := match n with O => [] | S n' => true :: replicate n' false end.

(** A call that runs with nothing in between: the manager, the reply and the tasks
    it spawned. *)
Fixpoint run_alone (fuel : nat) (m : VmManager) (t : Thread) : option (VmManager * Reply * list Thread) :=
  match fuel, t with
  | _, Finished r => Some (m, r, [])
  | O, _ => None
  | S fuel', _ =>
      '(m', t', sp) ← thread_step hp path_exists is_separator inject m t;
      '(m'', r, spawned) ← run_alone fuel' m' t'; Some (m'', r, option_list sp ++ spawned)
  end.

(** The machine a request names, and the task of a machine [Router.route] spawns. *)
Definition request_id (r : HttpRequest) : string := default ""%string (splitn 4 slash (r_path r) !! 2%nat).

Definition machine_task (id : string) (sp : Spawned) : list Thread :=
  option_list ('(c, flag, buf) ← sp; c' ← inject c id; Some (Booting id c' flag buf)).

Definition is_restart (t : Dispatched) : bool := match t with inr (RestartStop _) => true | _ => false end.

(** Events of the daemon's own tasks: no client, no machine, no failure. *)
Definition own_event (e : Event) : bool :=
  match e with
  | ServerPolled | InstanceCreated (Ok _) | PipeShutdown | MachineTurn _ | Time _ | WaitDone | ServerAwaited => true
  | _ => false
  end.
End Serve.

(** ** Lemmas *)

#[local] Opaque serial_new.

(** Takes an event apart: its guards hold, and the state it leaves is known. *)
Ltac event_cases H :=
  repeat (simpl in H; match type of H with
  | context [match ?x with _ => _ end] => destruct x eqn:?; try discriminate H
  | mbind _ ?x = _ => destruct x eqn:?; try discriminate H
  | fmap _ ?x = _ => destruct x eqn:?; try discriminate H
  end); simplify_eq/=.

Section Lemmas.
Context {Jc : Json VmConfig} {Jp : Json PersistedState} {Ji : Json VmInfo} {Jl : Json (list VmInfo)}.
Variables (parse_create : string -> result string VmConfig) (parse_action : string -> result string VmAction)
          (parse_clone : string -> result string string).
Variables (hp : string -> bool) (path_exists : string -> bool) (is_separator : ascii -> bool).
Variable inject : VmConfig -> string -> option VmConfig.
Notation dispatch := (dispatch parse_create parse_action parse_clone).
Notation serve_event := (serve_event parse_create parse_action parse_clone hp path_exists is_separator inject).
Notation serve_events := (serve_events parse_create parse_action parse_clone hp path_exists is_separator inject).
Notation server_step := (server_step parse_create parse_action parse_clone hp path_exists is_separator inject).
Notation world_step := (world_step hp path_exists is_separator inject).

Lemma parsed_call {A} (parse : string -> result string A) r (f : A -> Thread) t :
  (forall a, is_call (f a) = true /\ waits (f a) = false) -> parsed parse r f = inr t -> is_call t = true /\ waits t = false.
Proof. intros Hf. unfold parsed. destruct (read_json parse r); [|done]. by intros [= <-]. Qed.

(** A request sets a call going that is none of a stopping daemon. *)
Lemma dispatch_call m r t : dispatch m r = inr t -> is_call t = true /\ waits t = false.
Proof.
  unfold dispatch, dispatch_vm. intros H.
  repeat match type of H with context [match ?x with _ => _ end] => destruct x; try discriminate H end;
    (by apply parsed_call in H; [|intros []]) || (by apply parsed_call in H) || by injection H as <-.
Qed.

Lemma serve_machines s e s' : serve_event s e = Some s' ->
  machines s' = machines s \/ world_step (machines s) (machines s').
Proof.
  destruct e; intros H; cbv beta iota delta [Server.serve_event] in H.
  1-7: unfold listener_event in H; event_cases H; by left.
  - unfold connection_event in H. event_cases H; [by left|]. right. apply step_call. by eapply dispatch_call.
  - unfold connection_event in H. event_cases H; by left.
  - unfold connection_event in H. event_cases H; by left.
  - cbv beta iota zeta delta [machine_event] in H. apply fmap_Some in H as (w & E & ->). right. by eapply choose_sound.
  - cbv beta iota zeta delta [machine_event] in H. apply fmap_Some in H as (w & E & ->). right. by eapply choose_sound.
  - unfold machine_event in H. event_cases H. right. by apply step_time, Z.leb_le.
  - unfold daemon_event in H. event_cases H. right. by apply (step_call _ _ _ _ _ (WaitBegin STOP_TIMEOUT)).
  - unfold daemon_event in H. event_cases H; by left.
  - unfold daemon_event in H. event_cases H; by left.
Qed.

(** *** The clock and the lock of the completion channel *)

Definition clock_lock (m : VmManager) : Z * bool := (now_ms m, receiver_locked m).

Lemma set_flag_keeps f m : clock_lock (set_flag f m) = clock_lock m.
Proof. by destruct f. Qed.

Lemma stop_all_keeps m : clock_lock (stop_all m) = clock_lock m.
Proof.
  unfold stop_all. generalize (running_entries m) as l. intros l. revert m.
  induction l as [|e l IH]; intros m; [done|]. cbn [foldl]. by rewrite IH, set_flag_keeps.
Qed.

Lemma on_store_keeps {A} (op : Store A) m r m' : on_store op m = (r, m') -> clock_lock m' = clock_lock m.
Proof. unfold on_store. destruct (op (store m)) as [r' st]. by intros [= <- <-]. Qed.

Lemma create_insert_keeps id c m r m' : create_insert path_exists is_separator id c m = (r, m') -> clock_lock m' = clock_lock m.
Proof. intros [[-> _]|(_ & _ & ->)]%create_insert_cases; done. Qed.

Lemma start_claim_keeps id m r m' : start_claim id m = (r, m') -> clock_lock m' = clock_lock m.
Proof. unfold start_claim. destruct (vms m !! id); [case_decide|]; by intros [= <- <-]. Qed.

Lemma exit_update_keeps id o m r m' : exit_update id o m = (r, m') -> clock_lock m' = clock_lock m.
Proof.
  unfold exit_update. destruct (vms m !! id) as [e|]; [|by intros [= <- <-]].
  destruct (outcome_state o). intros [= <- <-]. by destruct (e_serial_buf e).
Qed.

Lemma delete_remove_keeps id m r m' : delete_remove id m = (r, m') -> clock_lock m' = clock_lock m.
Proof. unfold delete_remove. destruct (vms m !! id); [case_decide|]; by intros [= <- <-]. Qed.

Lemma stop_vm_keeps id m r m' : stop_vm id m = (r, m') -> clock_lock m' = clock_lock m.
Proof. unfold stop_vm. destruct (vms m !! id); [case_decide|]; intros [= <- <-]; by rewrite ?set_flag_keeps. Qed.

#[local] Hint Resolve set_flag_keeps stop_all_keeps on_store_keeps create_insert_keeps start_claim_keeps exit_update_keeps
  delete_remove_keeps stop_vm_keeps : core.

(** What a thread that is not waiting does to the clock and the lock. *)
Lemma thread_keeps_lock m t m' t' sp : thread_step hp path_exists is_separator inject m t = Some (m', t', sp) -> waits t = false ->
  clock_lock m' = clock_lock m /\ waits t' = false /\ (forall x, sp = Some x -> waits x = false).
Proof.
  intros Hs Hw. destruct t; try discriminate Hw; cbn in Hs; unfold persist_config, persist_state, delete_persist in Hs;
    repeat case_match; simplify_eq/=; split_and!; try done; eauto; by intros ? [= <-].
Qed.

(** The thread of [stop_all_and_wait]. *)
Lemma wait_step m t m' t' sp : thread_step hp path_exists is_separator inject m t = Some (m', t', sp) -> waits t = true ->
  soon (now_ms m) t ->
  now_ms m' = now_ms m /\ sp = None /\ soon (now_ms m) t' /\ (waits t' = true \/ exists r, t' = Finished r) /\
  (receiver_locked m' = true -> receives t' = true \/ receiver_locked m = true /\ receives t = false).
Proof.
  pose proof (stop_all_keeps m) as Hk. injection Hk as Hn Hl.
  intros Hs Hw Ht. destruct t; try discriminate Hw; cbn in Hs, Ht; repeat case_match; simplify_eq/=;
    split_and!; try done; eauto; try lia; by rewrite Hl; auto.
Qed.

(** *** The wait of a stopping daemon

    At most one thread waits, the one [run_daemon_inner] is in; it alone locks the
    receiver, and its deadline is near. *)
Record wait_wf (w : World) (p : Phase) : Prop := {
  ww_one : forall i t, threads w !! i = Some t -> waits t = true -> p = Stopping i;
  ww_lock : receiver_locked (manager w) = true -> exists i t, threads w !! i = Some t /\ receives t = true;
  ww_wait : forall i, p = Stopping i -> exists t, threads w !! i = Some t /\ (waits t = true \/ exists r, t = Finished r);
  ww_soon : forall i t, threads w !! i = Some t -> soon (now_ms (manager w)) t;
}.

Lemma receives_waits t : receives t = true -> waits t = true.
Proof. by destruct t. Qed.

Lemma soon_quiet now t : waits t = false -> soon now t.
Proof. by destruct t. Qed.

Lemma turn_spec w k w' : choose hp path_exists is_separator inject w (Turn k) = Some w' -> exists t m' t' sp,
  threads w !! k = Some t /\ thread_step hp path_exists is_separator inject (manager w) t = Some (m', t', sp) /\
  w' = {| manager := m'; threads := <[k := t']> (threads w) ++ option_list sp |}.
Proof.
  cbn. destruct (threads w !! k) as [t|] eqn:Ek; cbn; [|done].
  destruct (thread_step _ _ _ _ _ t) as [[[m' t'] sp]|] eqn:Es; cbn; [|done]. intros [= <-].
  exists t, m', t', sp. split_and!; [done..|]. rewrite insert_take_drop by (by eapply lookup_lt_Some).
  by rewrite <- (assoc_L (++)).
Qed.

Lemma exits_spec w k o w' : choose hp path_exists is_separator inject w (Exits k o) = Some w' -> exists id c flag buf,
  threads w !! k = Some (Booting id c flag buf) /\ w' = {| manager := manager w; threads := <[k := ExitCount id o]> (threads w) ++ [] |}.
Proof.
  cbn. destruct (threads w !! k) as [t|] eqn:Ek; cbn; [|done]. destruct t; try done. intros [= <-].
  do 4 eexists. split; [done|]. rewrite insert_take_drop by (by eapply lookup_lt_Some). by rewrite app_nil_r.
Qed.

Lemma insert_app_lookup {A} (l l' : list A) k x i y : (<[k := x]> l ++ l') !! i = Some y ->
  (i = k /\ y = x) \/ (i <> k /\ l !! i = Some y) \/ ((length l <= i)%nat /\ y ∈ l').
Proof.
  intros [H|[Hle H]]%lookup_app_Some.
  - apply list_lookup_insert_Some in H as [(-> & -> & _)|[Hne H]]; [by left|]. right; left. by split; [congruence|].
  - right; right. rewrite length_insert in Hle. split; [done|]. by eapply list_elem_of_lookup_2.
Qed.

(** A thread that does not wait changes, and threads that do not wait come up. *)
Lemma wait_wf_quiet w p k t t' m' l : wait_wf w p -> threads w !! k = Some t -> waits t = false -> (forall r, t <> Finished r) ->
  waits t' = false -> Forall (fun x => waits x = false) l -> clock_lock m' = clock_lock (manager w) ->
  wait_wf {| manager := m'; threads := <[k := t']> (threads w) ++ l |} p.
Proof.
  intros [H1 H2 H3 H4] Hk Ht Hf Ht' Hl [= En El]. rewrite Forall_forall in Hl.
  assert (Hkeep : forall i x, threads w !! i = Some x -> waits x = true \/ (exists r, x = Finished r) ->
            (<[k := t']> (threads w) ++ l) !! i = Some x).
  { intros i x Hi Hx. rewrite lookup_app_l by (rewrite length_insert; by eapply lookup_lt_Some).
    rewrite list_lookup_insert_ne; [done|]. intros ->. destruct Hx as [Hx|[r ->]]; [congruence|]. by eapply Hf; simplify_eq. }
  split; cbn [manager threads].
  - intros i x [[-> ->]|[[_ Hi]|[_ Hi]]]%insert_app_lookup Hx; [congruence|eauto|]. apply Hl in Hi. congruence.
  - rewrite El. intros (i & x & Hi & Hx)%H2. exists i, x. split; [|done]. apply Hkeep; [done|]. left. by apply receives_waits.
  - intros i (x & Hi & Hx)%H3. exists x. split; [by apply Hkeep|done].
  - intros i x [[-> ->]|[[_ Hi]|[_ Hi]]]%insert_app_lookup; [by apply soon_quiet| |].
    + rewrite En. by eapply H4.
    + by apply soon_quiet, Hl.
Qed.

(** The waiting thread takes a turn. *)
Lemma wait_wf_waiter w p k t m' t' sp : wait_wf w p -> threads w !! k = Some t -> waits t = true ->
  thread_step hp path_exists is_separator inject (manager w) t = Some (m', t', sp) ->
  wait_wf {| manager := m'; threads := <[k := t']> (threads w) ++ option_list sp |} p.
Proof.
  intros [H1 H2 H3 H4] Hk Hw Hs. destruct (wait_step _ _ _ _ _ Hs Hw (H4 _ _ Hk)) as (En & -> & Hsn & Ht' & Hlk).
  pose proof (H1 _ _ Hk Hw) as Hp. assert (Hlen : (k < length (threads w))%nat) by by eapply lookup_lt_Some.
  cbn [option_list]. rewrite app_nil_r. split; cbn [manager threads].
  - intros i x [(-> & -> & _)|[_ Hi]]%list_lookup_insert_Some Hx; [done|eauto].
  - intros [Hr|(Hl & Hr)]%Hlk; [exists k, t'; by rewrite list_lookup_insert_eq|].
    destruct (H2 Hl) as (i & x & Hi & Hx). exfalso. pose proof (H1 _ _ Hi (receives_waits _ Hx)). assert (i = k) by congruence. congruence.
  - intros i Hi. assert (i = k) as -> by congruence. exists t'. by rewrite list_lookup_insert_eq.
  - intros i x [(-> & -> & _)|[_ Hi]]%list_lookup_insert_Some; rewrite En; [done|eauto].
Qed.

Lemma wait_wf_turn w p k w' : wait_wf w p -> choose hp path_exists is_separator inject w (Turn k) = Some w' -> wait_wf w' p.
Proof.
  intros Hw (t & m' & t' & sp & Hk & Hs & ->)%turn_spec. destruct (waits t) eqn:Et; [by eapply wait_wf_waiter|].
  destruct (thread_keeps_lock _ _ _ _ _ Hs Et) as (Em & Et' & Hsp).
  eapply wait_wf_quiet; [done..|by intros r ->|done| |done]. destruct sp; [|done]. apply Forall_singleton. by apply Hsp.
Qed.

Lemma wait_wf_exits w p k o w' : wait_wf w p -> choose hp path_exists is_separator inject w (Exits k o) = Some w' -> wait_wf w' p.
Proof. intros Hw (id & c & flag & buf & Hk & ->)%exits_spec. by eapply wait_wf_quiet. Qed.

Lemma wait_wf_time w p t : wait_wf w p -> now_ms (manager w) <= t -> wait_wf {| manager := set_now (manager w) t; threads := threads w |} p.
Proof. intros [H1 H2 H3 H4] Ht. split; [done..|]. intros i x Hi%H4. destruct x; cbn in *; try done; lia. Qed.

(** A call comes in; the wait begins; and it ends. *)
Lemma wait_wf_call w p t : wait_wf w p -> waits t = false -> wait_wf (add_thread w t) p.
Proof.
  intros [H1 H2 H3 H4] Ht. split; cbn [add_thread manager threads].
  - intros i x [Hi|[_ [_ <-]%list_lookup_singleton_Some]]%lookup_app_Some Hx; [eauto|congruence].
  - intros (i & x & Hi & Hx)%H2. exists i, x. split; [by apply lookup_app_l_Some|done].
  - intros i (x & Hi & Hx)%H3. exists x. split; [by apply lookup_app_l_Some|done].
  - intros i x [Hi|[_ [_ <-]%list_lookup_singleton_Some]]%lookup_app_Some; [eauto|by apply soon_quiet].
Qed.

Lemma wait_wf_begin w : wait_wf w Serving -> wait_wf (add_thread w (WaitBegin STOP_TIMEOUT)) (Stopping (length (threads w))).
Proof.
  intros [H1 H2 H3 H4]. split; cbn [add_thread manager threads].
  - intros i x [Hi|[Hle [Hz _]%list_lookup_singleton_Some]]%lookup_app_Some Hx; [by specialize (H1 _ _ Hi Hx)|]. f_equal. lia.
  - intros (i & x & Hi & Hx)%H2. exists i, x. split; [by apply lookup_app_l_Some|done].
  - intros i [= <-]. exists (WaitBegin STOP_TIMEOUT). split; [by apply list_lookup_middle|by left].
  - intros i x [Hi|[_ [_ <-]%list_lookup_singleton_Some]]%lookup_app_Some; [eauto|done].
Qed.

Lemma wait_wf_ends w k r : wait_wf w (Stopping k) -> threads w !! k = Some (Finished r) -> wait_wf w AwaitServer.
Proof.
  intros [H1 H2 H3 H4] Hk. split; [|done..]. intros i t Hi Ht. pose proof (H1 _ _ Hi Ht). assert (i = k) by congruence. by simplify_eq.
Qed.

Lemma wait_wf_complete w : wait_wf w AwaitServer -> wait_wf w Complete.
Proof. intros [H1 H2 H3 H4]. split; [|done..]. intros i t Hi Ht. by pose proof (H1 _ _ Hi Ht). Qed.

(** *** The server *)

Record server_wf (s : Server) : Prop := {
  sv_wait : wait_wf (machines s) (phase s);
  sv_flag : shutdown_sent s = negb (bool_decide (phase s = Serving));
  sv_done : phase s = Complete -> exists r, server s = ServerDone r;
}.
Lemma listener_frame s e s' : listener_event s e = Some s' ->
  machines s' = machines s /\ phase s' = phase s /\ shutdown_sent s' = shutdown_sent s /\ tcp_addr s' = tcp_addr s /\
  forall r, server s = ServerDone r -> server s' = ServerDone r.
Proof. unfold listener_event. intros H. destruct e; try discriminate H; event_cases H; split_and!; try done; congruence. Qed.

Lemma connection_frame s e s' : connection_event parse_create parse_action parse_clone s e = Some s' ->
  phase s' = phase s /\ shutdown_sent s' = shutdown_sent s /\ server s' = server s /\
  (machines s' = machines s \/ exists t, machines s' = add_thread (machines s) t /\ waits t = false).
Proof.
  unfold connection_event. intros H. destruct e; try discriminate H; event_cases H; split_and!; try done; try (by left).
  right. eexists. split; [done|]. by eapply dispatch_call.
Qed.

Lemma server_wf_event s e s' : serve_event s e = Some s' -> server_wf s -> server_wf s'.
Proof.
  assert (Hl : listener_event s e = Some s' -> server_wf s -> server_wf s').
  { intros (Em & Ep & Ef & _ & Hd)%listener_frame [H1 H2 H3]. split; rewrite ?Em, ?Ep, ?Ef; [done..|]. intros [r Hr]%H3. eauto. }
  assert (Hc : connection_event parse_create parse_action parse_clone s e = Some s' -> server_wf s -> server_wf s').
  { intros (Ep & Ef & Es & Hm)%connection_frame [H1 H2 H3]. split; rewrite ?Ep, ?Ef, ?Es; [|done..].
    destruct Hm as [->|(t & -> & Ht)]; [done|by apply wait_wf_call]. }
  intros H [H1 H2 H3]. destruct e; cbv beta iota delta [Server.serve_event] in H; try (by apply Hl); try (by apply Hc).
  - cbv beta iota zeta delta [machine_event] in H. apply fmap_Some in H as (w & E & ->). split; [by eapply wait_wf_turn|done..].
  - cbv beta iota zeta delta [machine_event] in H. apply fmap_Some in H as (w & E & ->). split; [by eapply wait_wf_exits|done..].
  - unfold machine_event in H. event_cases H. split; [by apply wait_wf_time, Z.leb_le|done..].
  - unfold daemon_event in H. destruct (phase s) eqn:Ep; try discriminate H. simplify_eq/=. split; [|done..]. by apply wait_wf_begin.
  - unfold daemon_event in H. event_cases H. split; [|by rewrite H2|done]. by eapply wait_wf_ends.
  - unfold daemon_event in H. event_cases H. split; cbn; [|by rewrite H2|eauto]. by apply wait_wf_complete.
Qed.

Lemma server_start_wf w tcp_addr : threads w = [] -> receiver_locked (manager w) = false -> server_wf (server_start w tcp_addr).
Proof. intros Ht Hl. split; [|done..]. split; cbn; [by rewrite Ht|by rewrite Hl|done|by rewrite Ht]. Qed.

Lemma server_reachable (P : Server -> Prop) s s' : (forall a e b, serve_event a e = Some b -> P a -> P b) ->
  rtc server_step s s' -> P s -> P s'.
Proof. intros HP. induction 1 as [|a b c [e H] _ IH]; [done|]. intros Ha. by eapply IH, HP. Qed.

Lemma serve_events_wf es s s' : serve_events es s = Some s' -> server_wf s -> server_wf s'.
Proof.
  revert s. induction es as [|e es IH]; intros s; [by intros [= ->]|]. cbn [Server.serve_events].
  destruct (serve_event s e) as [s1|] eqn:E; [|done]. intros H Hs. by eapply IH, server_wf_event.
Qed.

Lemma serve_events_app es1 es2 s : serve_events (es1 ++ es2) s = s' ← serve_events es1 s; serve_events es2 s'.
Proof. revert s. induction es1 as [|e es1 IH]; intros s; [done|]. cbn. destruct (serve_event s e); cbn; [apply IH|done]. Qed.

(** *** The daemon's own progress *)

(** The machines of a server change from [w] to [w'] by events of the daemon's own. *)
Definition own_run (w w' : World) : Prop :=
  exists es, Forall (fun e => own_event e = true) es /\ forall s, serve_events es (set_machines s w) = Some (set_machines s w').

Lemma own_run_refl w : own_run w w.
Proof. by exists []. Qed.

Lemma own_run_trans w1 w2 w3 : own_run w1 w2 -> own_run w2 w3 -> own_run w1 w3.
Proof.
  intros (es1 & H1 & E1) (es2 & H2 & E2). exists (es1 ++ es2). split; [by apply Forall_app|].
  intros s. rewrite serve_events_app, E1. apply E2.
Qed.

Lemma own_turn w k t m' t' : threads w !! k = Some t ->
  thread_step hp path_exists is_separator inject (manager w) t = Some (m', t', None) ->
  own_run w {| manager := m'; threads := <[k := t']> (threads w) |}.
Proof.
  intros Hk Hs. exists [MachineTurn k]. split; [by repeat constructor|]. intros s. cbn. rewrite Hk. cbn. rewrite Hs. cbn.
  rewrite app_nil_r. by rewrite insert_take_drop by (by eapply lookup_lt_Some).
Qed.

Lemma own_time w t : now_ms (manager w) <= t -> own_run w {| manager := set_now (manager w) t; threads := threads w |}.
Proof. intros Ht%Z.leb_le. exists [Time t]. split; [by repeat constructor|]. intros s. cbn. by rewrite Ht. Qed.

(** The wait ends once its deadline has come. *)
Lemma receive_ends n d w k : threads w !! k = Some (WaitReceive d n) -> d <= now_ms (manager w) ->
  exists w' r, own_run w w' /\ threads w' !! k = Some (Finished r) /\ now_ms (manager w') = now_ms (manager w).
Proof.
  revert w. induction n as [|n IH]; intros w Hk Hd; pose proof (lookup_lt_Some _ _ _ Hk).
  - do 2 eexists. split; [by eapply own_turn|]. cbn. by rewrite list_lookup_insert_eq.
  - destruct (completions (manager w)) as [|c rest] eqn:Ec.
    + do 2 eexists. split; [eapply own_turn; [done|]; cbn; rewrite Ec; by rewrite (proj2 (Z.leb_le _ _) Hd)|].
      cbn. by rewrite list_lookup_insert_eq.
    + set (w1 := {| manager := set_channel (manager w) rest true; threads := <[k := WaitReceive d n]> (threads w) |}).
      destruct (IH w1) as (w' & r & Hr & Hf & Hn); [by apply list_lookup_insert_eq|done|].
      exists w', r. split; [|done]. eapply own_run_trans; [|done]. eapply own_turn; [done|]. cbn. by rewrite Ec.
Qed.

Lemma lock_ends d n w k : wait_wf w (Stopping k) -> threads w !! k = Some (WaitLock d n) \/ threads w !! k = Some (WaitReceive d n) ->
  exists w' r, own_run w w' /\ threads w' !! k = Some (Finished r) /\ now_ms (manager w') <= now_ms (manager w) + STOP_TIMEOUT.
Proof.
  intros Hw Hk. assert (Hd : d <= now_ms (manager w) + STOP_TIMEOUT) by (destruct Hk as [Hk|Hk]; apply (ww_soon _ _ Hw) in Hk; done).
  set (t := Z.max d (now_ms (manager w))).
  assert (Hgo : forall w1, manager w1 = manager w \/ manager w1 = set_channel (manager w) (completions (manager w)) true ->
      threads w1 !! k = Some (WaitReceive d n) -> exists w' r, own_run w1 w' /\ threads w' !! k = Some (Finished r) /\
      now_ms (manager w') <= now_ms (manager w) + STOP_TIMEOUT).
  { intros w1 Hm Hk1. assert (En : now_ms (manager w1) = now_ms (manager w)) by (by destruct Hm as [-> | ->]).
    destruct (receive_ends n d {| manager := set_now (manager w1) t; threads := threads w1 |} k Hk1) as (w' & r & Hr & Hf & Hn).
    { cbn. lia. }
    exists w', r. split; [|split; [done|]].
    - eapply own_run_trans; [apply (own_time w1 t); lia|done].
    - rewrite Hn. cbn. unfold STOP_TIMEOUT in *. lia. }
  destruct Hk as [Hk|Hk]; [|apply Hgo; auto].
  destruct (receiver_locked (manager w)) eqn:El.
  - apply (ww_lock _ _ Hw) in El as (i & x & Hi & Hx). pose proof (ww_one _ _ Hw _ _ Hi (receives_waits _ Hx)). by simplify_eq.
  - pose proof (lookup_lt_Some _ _ _ Hk).
    destruct (Hgo {| manager := set_channel (manager w) (completions (manager w)) true; threads := <[k := WaitReceive d n]> (threads w) |})
      as (w' & r & Hr & Hf & Hn); [by right|by apply list_lookup_insert_eq|].
    exists w', r. split; [|done]. eapply own_run_trans; [|done]. eapply own_turn; [done|]. cbn. by rewrite El.
Qed.

Lemma wait_ends w k : wait_wf w (Stopping k) ->
  exists w' r, own_run w w' /\ threads w' !! k = Some (Finished r) /\ now_ms (manager w') <= now_ms (manager w) + STOP_TIMEOUT.
Proof.
  intros Hw. destruct (ww_wait _ _ Hw k eq_refl) as (t & Hk & [Ht|[r ->]]).
  2:{ exists w, r. split; [apply own_run_refl|]. unfold STOP_TIMEOUT. split; [done|lia]. }
  pose proof (lookup_lt_Some _ _ _ Hk). pose proof (stop_all_keeps (manager w)) as Hs. injection Hs as Hn Hl.
  destruct t as [| | | | | | | | | | | | | | | | | | | | | | |timeout|d n|d n|]; try discriminate Ht; [|eapply lock_ends; eauto..].
  destruct (running_count (manager w)) as [|n] eqn:En.
  - do 2 eexists. split; [eapply own_turn; [done|]; cbn; by rewrite En|]. cbn. rewrite list_lookup_insert_eq by done.
    unfold STOP_TIMEOUT. split; [done|lia].
  - assert (Hs : thread_step hp path_exists is_separator inject (manager w) (WaitBegin timeout) =
      Some (stop_all (manager w), WaitLock (now_ms (manager w) + timeout) (S n), None)) by (cbn; by rewrite En).
    pose proof (wait_wf_waiter _ _ _ _ _ _ _ Hw Hk eq_refl Hs) as Hw'. cbn [option_list] in Hw'. rewrite app_nil_r in Hw'.
    destruct (lock_ends (now_ms (manager w) + timeout) (S n) _ k Hw') as (w' & r & Hr & Hf & Hle); [left; by apply list_lookup_insert_eq|].
    exists w', r. split; [by eapply own_run_trans; [eapply own_turn|]|]. split; [done|]. cbn in Hle. by rewrite Hn in Hle.
Qed.

(** *** A call with nothing in between *)

Notation run_alone := (run_alone hp path_exists is_separator inject).
Notation route others := (route parse_create parse_action parse_clone hp path_exists is_separator others).

Lemma finished_or_not t : (exists r, t = Finished r) \/ forall r, t <> Finished r.
Proof. destruct t; eauto; by right. Qed.

Lemma alone_finished n m r : run_alone n m (Finished r) = Some (m, r, []).
Proof. by destruct n. Qed.

Lemma alone_step n m t : (forall r, t <> Finished r) -> run_alone (S n) m t =
  '(m', t', sp) ← thread_step hp path_exists is_separator inject m t;
  '(m'', r, spawned) ← run_alone n m' t'; Some (m'', r, option_list sp ++ spawned).
Proof. intros Hf. destruct t; try done. by destruct (Hf r). Qed.

(** One turn of a call that is not finished, and the end of one that is. *)
Ltac alone := rewrite alone_step by done; cbn [thread_step].
Ltac alone_done := cbn [mbind option_bind]; rewrite alone_finished; reflexivity.

Lemma create_alone id c m : run_alone 4 m (CreateInsert id c) =
  let '(r, m') := create_vm hp path_exists is_separator id c m in Some (m', ReplyInfo r, []).
Proof.
  unfold create_vm. alone. destruct (create_insert _ _ id c m) as [[info|e] m1]; [|alone_done]. cbn [mbind option_bind]. alone.
  destruct (persist_config hp id c m1) as [[[]|e] m2]; cbn [mbind option_bind]; alone; [|alone_done].
  destruct (persist_state hp id Created m2) as [[[]|e] m3]; [alone_done|]. cbn [mbind option_bind]. alone. alone_done.
Qed.

Lemma clone_alone src dest m : run_alone 5 m (CloneRead src dest) =
  let '(r, m') := clone_vm hp path_exists is_separator src dest m in Some (m', ReplyInfo r, []).
Proof.
  unfold clone_vm. alone. destruct (clone_config src m); [|alone_done].
  cbn [mbind option_bind]. rewrite create_alone. by destruct (create_vm _ _ _ _ _ _).
Qed.

Lemma start_alone id m : (forall c id, is_Some (inject c id)) -> run_alone 3 m (StartClaim id) =
  let '(r, m') := start_vm hp id m in Some (m', ReplyInfo (fst <$> r), machine_task inject id (snd <$> res_ok r)).
Proof.
  intros Hi. unfold start_vm. alone. destruct (start_claim id m) as [[[[[c flag] buf] info]|e] m1]; [|alone_done]. cbn [mbind option_bind]. alone.
  destruct (persist_state hp id Running m1) as [[[]|e] m2]; [|alone_done]. cbn [mbind option_bind]. alone. unfold machine_task. cbn [res_ok fmap option_fmap option_map snd].
  destruct (Hi c id) as [c' E]. cbn [mbind option_bind]. rewrite E. alone_done.
Qed.

Lemma delete_alone id m : run_alone 2 m (DeleteRemove id) =
  let '(r, m') := delete_vm hp id m in Some (m', ReplyUnit r, []).
Proof.
  unfold delete_vm. alone. destruct (delete_remove id m) as [[[]|e] m1]; [|alone_done]. cbn [mbind option_bind]. alone.
  destruct (delete_persist hp id m1) as [[[]|e] m2]; alone_done.
Qed.

(** A call of one segment. *)
Lemma once_alone n m t m' rep : (forall r, t <> Finished r) ->
  thread_step hp path_exists is_separator inject m t = Some (m', Finished rep, None) -> run_alone (S n) m t = Some (m', rep, []).
Proof. intros Hf Hs. rewrite alone_step, Hs by done. alone_done. Qed.

Lemma alone_more n m t x : run_alone n m t = Some x -> run_alone (S n) m t = Some x.
Proof.
  revert m t x. induction n as [|n IH]; intros m t x; [by destruct t|].
  destruct (finished_or_not t) as [[r ->]|Hf]; [done|]. rewrite !(alone_step _ _ _ Hf).
  destruct (thread_step _ _ _ _ m t) as [[[m' t'] sp]|]; cbn [mbind option_bind]; [|done].
  destruct (run_alone n m' t') as [[[m2 r2] s2]|] eqn:E; [|done]. by rewrite (IH _ _ _ E).
Qed.

(** The turns of the last thread, with nothing in between. *)
Lemma alone_turns n m t x m' rep sp s l : run_alone n m t = Some (m', rep, sp) -> exists j,
  serve_events (replicate j (MachineTurn (length l))) (set_machines s {| manager := m; threads := l ++ t :: x |}) =
  Some (set_machines s {| manager := m'; threads := l ++ Finished rep :: x ++ sp |}).
Proof.
  revert m t x sp. induction n as [|n IH]; intros m t x sp.
  - destruct t; try done. intros [= -> -> <-]. exists 0%nat. by rewrite app_nil_r.
  - destruct (finished_or_not t) as [[r ->]|Hf]; [intros [= -> -> <-]; exists 0%nat; by rewrite app_nil_r|].
    rewrite (alone_step _ _ _ Hf). destruct (thread_step _ _ _ _ m t) as [[[m1 t1] sp1]|] eqn:E; cbn [mbind option_bind]; [|done].
    destruct (run_alone n m1 t1) as [[[m2 r2] s2]|] eqn:E2; [|done]. intros [= -> -> <-].
    destruct (IH _ _ (x ++ option_list sp1) _ E2) as [j Hj]. exists (S j). cbn. rewrite list_lookup_middle by done. cbn. rewrite E. cbn.
    rewrite (assoc_L (++) x), <- Hj. f_equal. f_equal. f_equal. by rewrite take_app_length, (cons_middle t l x), (assoc_L (++)), drop_app_length' by (rewrite length_app; cbn; lia).
Qed.

(** What [Router.route] gives for a request, in terms of its dispatch. *)
Definition served (others : nat -> VmManager -> VmManager) (m : VmManager) (r : HttpRequest) : Prop :=
  match dispatch m r with
  | inl resp => route others r m = (resp, m, None)
  | inr t => exists rep, run_alone 5 m t = Some ((route others r m).1.2, rep, machine_task inject (request_id r) (route others r m).2) /\
               reply_response r rep = Some (route others r m).1.1
  end.

Lemma info_reply (x : result DaemonError VmInfo) r st : info_status r = st ->
  reply_response r (ReplyInfo x) = Some (respond (info ← x; json_response st info)).
Proof. by intros <-. Qed.

Lemma alone_up n k m t x : (n <= k)%nat -> run_alone n m t = Some x -> run_alone k m t = Some x.
Proof. intros Hle H. induction Hle as [|k _ IH]; [done|]. by apply alone_more. Qed.

Lemma action_served others m r id : (forall c id, is_Some (inject c id)) -> request_id r = id -> r_method r = POST ->
  splitn 4 slash (r_path r) !! 3%nat = Some "action"%string -> forall t, parsed parse_action r (action_thread id) = inr t ->
  is_restart (inr t) = false ->
  let x := handle_action parse_action hp others r id m in
  exists rep, run_alone 5 m t = Some (x.1.2, rep, machine_task inject id x.2) /\ reply_response r rep = Some (respond x.1.1).
Proof.
  intros Hi Hid Hm Hs t Ht Hr. unfold parsed in Ht. unfold handle_action. destruct (read_json parse_action r) as [a|e]; [|done].
  assert (Hst : info_status r = OK) by (unfold info_status; by rewrite Hm, Hs). destruct a; injection Ht as <-; [| |done]; cbn [action_thread].
  - pose proof (start_alone id m Hi) as H. destruct (start_vm hp id m) as [x m'].
    exists (ReplyInfo (fst <$> x)). split; [eapply alone_up; [|rewrite H; by destruct x as [[info sp]|e]]; lia|].
    rewrite (info_reply _ _ _ Hst). by destruct x as [[info sp]|e].
  - destruct (stop_vm id m) as [x m'] eqn:E. exists (ReplyInfo x). split; [|exact (info_reply _ _ _ Hst)]. apply once_alone; [done|]. cbn [thread_step]. by rewrite E.
Qed.

Lemma dispatch_served others m r : (forall c id, is_Some (inject c id)) -> is_restart (dispatch m r) = false -> served others m r.
Proof.
  intros Hi Hr. unfold served. unfold dispatch in *. unfold Router.route, route_path.
  destruct (is_get (r_method r) && String.eqb (r_path r) "/vms"); [eexists; split; [by apply once_alone|done]|].
  destruct (String.prefix "/vms/" (r_path r)); [|done].
  destruct (splitn 4 slash (r_path r) !! 2%nat) as [id|] eqn:Eid; [|done]. destruct (String.eqb id ""); [done|].
  assert (request_id r = id) as Hid by (unfold request_id; by rewrite Eid). rewrite Hid.
  unfold dispatch_vm, route_vm in *. destruct (splitn 4 slash (r_path r) !! 3%nat) as [suffix|] eqn:Es, (r_method r) eqn:Em; try done.
  - destruct (String.eqb suffix "serial"); [eexists; split; [by apply once_alone|done]|]. by destruct (String.eqb suffix "metrics").
  - destruct (String.eqb_spec suffix "action") as [->|_].
    + destruct (parsed parse_action r (action_thread id)) as [resp|t] eqn:Ep.
      * unfold parsed in Ep. unfold handle_action. destruct (read_json parse_action r); [done|]. by injection Ep as <-.
      * destruct (action_served others m r id Hi Hid Em Es t Ep Hr) as (rep & E1 & E2).
        destruct (handle_action _ _ _ r id m) as [[res m'] sp]. by exists rep.
    + destruct (String.eqb_spec suffix "clone") as [->|_]; [|done]. unfold parsed, handle_clone.
      destruct (read_json parse_clone r) as [dest|e]; [|done]. pose proof (clone_alone id dest m) as H.
      destruct (clone_vm _ _ _ id dest m) as [x m']. exists (ReplyInfo x). split; [exact H|]. apply info_reply. unfold info_status. by rewrite Em, Es.
  - exists (ReplyInfo (get_vm id m)). split; [by apply once_alone|]. apply info_reply. unfold info_status. by rewrite Em.
  - unfold parsed, handle_create. destruct (read_json parse_create r) as [c|e]; [|done]. pose proof (create_alone id c m) as H.
    destruct (create_vm _ _ _ id c m) as [x m']. exists (ReplyInfo x). split; [by apply alone_more|]. apply info_reply. unfold info_status. by rewrite Em.
  - unfold handle_delete. pose proof (delete_alone id m) as H. destruct (delete_vm hp id m) as [x m']. exists (ReplyUnit x).
    split; [by eapply alone_up, H; lia|done].
Qed.

(** *** The pipe's instances and connections *)

Lemma pipe_count_insert l c k k' : l !! c = Some k -> endpoint k' = endpoint k -> pipe_count (<[c := k']> l) = pipe_count l.
Proof.
  intros Hc He. unfold pipe_count. rewrite insert_take_drop by (by eapply lookup_lt_Some).
  rewrite <- (take_drop_middle l c k Hc) at 3. rewrite !filter_app, !length_app, !filter_cons, He. by case_decide.
Qed.

Lemma pipe_count_accept l e : pipe_count (l ++ [{| endpoint := e; conn := Idle; sent := [] |}]) =
  (pipe_count l + if decide (e = OnPipe) then 1 else 0)%nat.
Proof. unfold pipe_count. rewrite filter_app, length_app, filter_cons. cbn. by case_decide. Qed.

Lemma connection_pipes s e s' : connection_event parse_create parse_action parse_clone s e = Some s' ->
  pipe_count (connections s') = pipe_count (connections s) /\ instances s' = instances s /\ server s' = server s.
Proof.
  unfold connection_event. intros H.
  destruct e; try discriminate H; event_cases H; split_and!; try done; by eapply pipe_count_insert.
Qed.

Lemma machine_pipes s e s' : machine_event hp path_exists is_separator inject s e = Some s' ->
  connections s' = connections s /\ instances s' = instances s /\ server s' = server s /\ phase s' = phase s /\ shutdown_sent s' = shutdown_sent s.
Proof.
  intros H. destruct e; try discriminate H; cbv beta iota zeta delta [machine_event] in H;
    [by apply fmap_Some in H as (w & _ & ->)..|by event_cases H].
Qed.

Lemma daemon_pipes s e s' : daemon_event s e = Some s' ->
  connections s' = connections s /\ instances s' = instances s /\ server s' = server s.
Proof. unfold daemon_event. intros H. destruct e; try discriminate H; event_cases H; done. Qed.

(** The instances asked for, by where the listener is. *)
Definition pipe_wf (s : Server) : Prop :=
  let n := pipe_count (connections s) in
  match server s with
  | ServerStart => n = 0%nat /\ instances s = []
  | PipeCreate first => first = bool_decide (n = 0%nat) /\ instances s = first_only n
  | PipeSelect | ServerDone _ => instances s = first_only (S n)
  end.

Lemma first_only_more n : first_only n ++ [bool_decide (n = 0%nat)] = first_only (S n).
Proof. destruct n as [|n]; [done|]. cbn. by rewrite <- replicate_S_end. Qed.

Lemma pipe_wf_event s e s' : serve_event s e = Some s' -> pipe_wf s -> pipe_wf s'.
Proof.
  assert (Hl : listener_event s e = Some s' -> pipe_wf s -> pipe_wf s').
  { unfold listener_event, pipe_wf. intros H Hw. destruct e; try discriminate H; event_cases H; cbn; try done;
      try rewrite pipe_count_accept; repeat match goal with E : server s = _ |- _ => rewrite E in *; clear E end; cbn in *;
      repeat match goal with H : _ /\ _ |- _ => destruct H end; subst; rewrite ?Nat.add_0_r, ?Nat.add_1_r; try done;
      try (split; [by rewrite ?H|done]); try congruence.
    all: first [by rewrite H, H0 | rewrite H0; apply first_only_more]. }
  assert (Hk : pipe_count (connections s') = pipe_count (connections s) /\ instances s' = instances s /\ server s' = server s ->
             pipe_wf s -> pipe_wf s') by (unfold pipe_wf; by intros (-> & -> & ->)).
  intros H. destruct e; cbv beta iota delta [Server.serve_event] in H; try (by apply Hl); apply Hk;
    try (by eapply connection_pipes); (apply machine_pipes in H as (-> & -> & -> & _) || apply daemon_pipes in H as (-> & -> & ->)); done.
Qed.

(** A listener that has ended stays so, and accepts nothing. *)
Lemma server_done_event r s e s' : serve_event s e = Some s' -> server s = ServerDone r ->
  server s' = ServerDone r /\ pipe_count (connections s') = pipe_count (connections s).
Proof.
  intros H Hd. destruct e; cbv beta iota delta [Server.serve_event] in H;
    try (apply connection_pipes in H as (-> & _ & ->); done); try (apply machine_pipes in H as (-> & _ & -> & _); done);
    try (apply daemon_pipes in H as (-> & _ & ->); done).
  all: unfold listener_event in H; rewrite Hd in H; event_cases H; rewrite ?pipe_count_accept; cbn; by rewrite ?Nat.add_0_r.
Qed.

Lemma no_tcp_event s e s' : serve_event s e = Some s' -> tcp s = TcpNone -> tcp_addr s = None ->
  tcp s' = TcpNone /\ tcp_addr s' = None /\ (server s = server s' -> length (connections s') = length (connections s)).
Proof.
  intros H Ht Ha. destruct e; cbv beta iota delta [Server.serve_event] in H.
  1-7: unfold listener_event in H; rewrite Ht, ?Ha in H; event_cases H; split_and!; try done; congruence.
  1-3: unfold connection_event in H; event_cases H; split_and!; try done; cbn; by rewrite ?length_insert.
  - cbv beta iota zeta delta [machine_event] in H. by apply fmap_Some in H as (w & _ & ->).
  - cbv beta iota zeta delta [machine_event] in H. by apply fmap_Some in H as (w & _ & ->).
  - unfold machine_event in H. by event_cases H.
  - unfold daemon_event in H. by event_cases H.
  - unfold daemon_event in H. by event_cases H.
  - unfold daemon_event in H. by event_cases H.
Qed.

Lemma stop_all_raised id e f m : vms m !! id = Some e -> e_state e = Running -> e_stop_flag e = Some f ->
  stop_flags (stop_all m) !! f = Some true.
Proof.
  intros He Hr Hf. unfold stop_all. rewrite stop_all_flags, bool_decide_eq_true_2; [done|].
  rewrite <- Hf. apply list_elem_of_fmap_2. apply list_elem_of_filter. split; [by apply Is_true_true, bool_decide_eq_true|].
  apply list_elem_of_fmap. exists (id, e). split; [done|]. by apply elem_of_map_to_list.
Qed.

(** The server is the daemon of [Daemon.v], with fewer calls. *)
Lemma server_refines_daemon s s' : rtc server_step s s' -> rtc world_step (machines s) (machines s').
Proof.
  induction 1 as [s|s1 s2 s3 [e H] _ IH]; [done|]. apply serve_machines in H as [<-|H]; [done|]. by eapply rtc_l.
Qed.
End Lemmas.

(** ** Properties *)

Section Properties.
Context {Jc : Json VmConfig} {Jp : Json PersistedState} {Ji : Json VmInfo} {Jl : Json (list VmInfo)}.
Variables (parse_create : string -> result string VmConfig) (parse_action : string -> result string VmAction)
          (parse_clone : string -> result string string).
Variables (hp : string -> bool) (path_exists : string -> bool) (is_separator : ascii -> bool).
Variable inject : VmConfig -> string -> option VmConfig.
Notation dispatch := (dispatch parse_create parse_action parse_clone).
Notation serve_event := (serve_event parse_create parse_action parse_clone hp path_exists is_separator inject).
Notation serve_events := (serve_events parse_create parse_action parse_clone hp path_exists is_separator inject).
Notation server_step := (server_step parse_create parse_action parse_clone hp path_exists is_separator inject).
Notation route others := (route parse_create parse_action parse_clone hp path_exists is_separator others).

Lemma await_completes s : server_wf s -> phase s = AwaitServer ->
  exists es s', serve_events es s = Some s' /\ Forall (fun e => own_event e = true) es /\ phase s' = Complete /\
    machines s' = machines s /\ connections s' = connections s.
Proof.
  intros [_ Hf _] Hp. rewrite Hp in Hf. change (shutdown_sent s = true) in Hf.
  set (go := fun t => match t with ServerStart => [ServerPolled; InstanceCreated (Ok ()); PipeShutdown] | PipeCreate _ => [InstanceCreated (Ok ()); PipeShutdown]
                      | PipeSelect => [PipeShutdown] | ServerDone _ => [] end).
  exists (go (server s) ++ [ServerAwaited]).
  destruct (server s) eqn:Es; cbn; rewrite ?Es; cbn; rewrite ?Hf; cbn; unfold daemon_event; cbn; rewrite Hp, ?Es; cbn;
    eexists; (split; [reflexivity|]); split_and!; try done; by repeat constructor.
Qed.

Lemma stop_completes s : server_wf s -> phase s <> Serving ->
  exists es s', serve_events es s = Some s' /\ Forall (fun e => own_event e = true) es /\ phase s' = Complete /\
    now_ms (manager (machines s')) <= now_ms (manager (machines s)) + STOP_TIMEOUT /\ connections s' = connections s.
Proof.
  intros Hs Hp.
  destruct (phase s) as [|k| |] eqn:Ep; [done| | |].
  - pose proof (sv_wait _ Hs) as Hw. rewrite Ep in Hw.
    destruct (wait_ends parse_create parse_action parse_clone hp path_exists is_separator inject _ _ Hw) as (w' & r & (es & Hown & He) & Hk & Hn).
    specialize (He s). assert (set_machines s (machines s) = s) as Hid by by destruct s. rewrite Hid in He.
    assert (Hd : serve_event (set_machines s w') WaitDone = Some (set_phase (set_machines s w') (shutdown_sent s) AwaitServer)).
    { cbn. unfold daemon_event. cbn. by rewrite Ep, Hk. }
    assert (Hs' : server_wf (set_phase (set_machines s w') (shutdown_sent s) AwaitServer)).
    { eapply server_wf_event; [exact Hd|]. by eapply serve_events_wf. }
    destruct (await_completes _ Hs' eq_refl) as (es' & s' & He' & Hown' & Hc & Hm & Hco).
    exists (es ++ WaitDone :: es'), s'. split_and!; [|by apply Forall_app; split; [|constructor]|done| |by rewrite Hco].
    + rewrite serve_events_app, He. cbn [mbind option_bind Server.serve_events]. by rewrite Hd.
    + by rewrite Hm.
  - destruct (await_completes s Hs Ep) as (es & s' & He & Hown & Hc & Hm & Hco). exists es, s'. split_and!; [done..| |done].
    rewrite Hm. unfold STOP_TIMEOUT. lia.
  - exists [], s. unfold STOP_TIMEOUT. split_and!; [done..|lia|done].
Qed.

(** C22: Once the daemon was told to stop, nothing that clients, machines or the clock do
    can keep it from returning: from every state it can be in, its own tasks alone
    bring it to its end, within five seconds on the clock and without a new
    connection. *)
Theorem shutdown_completes w tcp_addr s :
  threads w = [] -> receiver_locked (manager w) = false -> rtc server_step (server_start w tcp_addr) s -> phase s <> Serving ->
  exists es s', serve_events es s = Some s' /\ Forall (fun e => own_event e = true) es /\ phase s' = Complete /\
    now_ms (manager (machines s')) <= now_ms (manager (machines s)) + STOP_TIMEOUT /\ connections s' = connections s.
Proof.
  intros Ht Hl Hr. apply stop_completes. eapply server_reachable; [|exact Hr|by apply server_start_wf].
  intros. by eapply server_wf_event.
Qed.

(** Of the pipe's instances exactly the first is asked for as the first of its name,
    so that a pipe another process has is refused, and there is one for every
    connection and at most one more. *)
Theorem first_instance_only w tcp_addr s :
  rtc server_step (server_start w tcp_addr) s ->
  exists n, instances s = first_only n /\ (pipe_count (connections s) <= n <= S (pipe_count (connections s)))%nat.
Proof.
  intros Hr. assert (Hw : pipe_wf s) by (eapply server_reachable; [|exact Hr|done]; intros; by eapply pipe_wf_event).
  unfold pipe_wf in Hw. destruct (server s); [exists 0%nat; destruct Hw as [-> ->]; split; [done|lia]|..].
  - destruct Hw as [_ ->]. eexists. split; [done|lia].
  - eexists. split; [exact Hw|lia].
  - eexists. split; [exact Hw|lia].
Qed.

(** A daemon that cannot create its pipe, for instance because another one has it,
    goes on as if it served: its task has ended with the error, nobody can connect,
    and it waits to be told to stop, which nothing that happens shortens. *)
Theorem broken_pipe_unnoticed w tcp_addr e :
  exists s, serve_events [ServerPolled; InstanceCreated (Err e)] (server_start w tcp_addr) = Some s /\ phase s = Serving /\
  forall s', rtc server_step s s' -> server s' = ServerDone (Err e) /\ pipe_count (connections s') = 0%nat /\
    (tcp_addr = None -> connections s' = []) /\ (shutdown_sent s' = false -> phase s' = Serving).
Proof.
  eexists. split; [reflexivity|]. split; [done|]. intros s' Hr.
  set (P := fun x => server x = ServerDone (Err e) /\ pipe_count (connections x) = 0%nat /\ (Server.tcp_addr x = tcp_addr) /\
              (tcp_addr = None -> tcp x = TcpNone /\ connections x = []) /\ (shutdown_sent x = false -> phase x = Serving)).
  enough (P s') as (H1 & H2 & _ & H3 & H4) by (split_and!; [done..| |done]; intros Hn; by apply H3).
  eapply server_reachable; [|exact Hr|].
  2:{ split_and!; cbn; try done. by intros ->. }
  intros a ev b H (H1 & H2 & Ha & H3 & H4). destruct (server_done_event _ _ _ _ _ _ _ _ _ _ _ H H1) as [H1' H2'].
  split_and!; [done|by rewrite H2'| | |].
  - clear -H Ha. rewrite <- Ha. destruct ev; cbv beta iota delta [Server.serve_event] in H.
    1-7: by apply listener_frame in H as (_ & _ & _ & -> & _).
    1-3: unfold connection_event in H; event_cases H; done.
    1-2: cbv beta iota zeta delta [machine_event] in H; by apply fmap_Some in H as (w' & _ & ->).
    + unfold machine_event in H. by event_cases H.
    + unfold daemon_event in H. by event_cases H.
    + unfold daemon_event in H. by event_cases H.
    + unfold daemon_event in H. by event_cases H.
  - intros ->. destruct (H3 eq_refl) as [Ht Hc]. destruct (no_tcp_event _ _ _ _ _ _ _ _ _ _ H Ht Ha) as (Ht' & _ & Hl).
    split; [done|]. specialize (Hl ltac:(congruence)). rewrite Hc in Hl. by apply nil_length_inv.
  - clear H1 H2 H1' H2' H3 Ha. destruct ev; cbv beta iota delta [Server.serve_event] in H.
    1-7: by apply listener_frame in H as (_ & -> & -> & _).
    1-3: by apply connection_frame in H as (-> & -> & _).
    1-3: by apply machine_pipes in H as (_ & _ & _ & -> & ->).
    + unfold daemon_event in H. event_cases H. done.
    + unfold daemon_event in H. event_cases H. by intros ?%H4.
    + unfold daemon_event in H. event_cases H. by intros ?%H4.
Qed.

(** The stop reaches every machine: when the daemon begins to wait, the flag each
    running vCPU watches is raised, whatever was going on. *)
Theorem shutdown_raises_flags w tcp_addr s k d s' :
  sound_host inject -> fresh w -> rtc server_step (server_start w tcp_addr) s ->
  threads (machines s) !! k = Some (WaitBegin d) -> serve_event s (MachineTurn k) = Some s' ->
  forall id c flag buf, Booting id c flag buf ∈ threads (machines s) -> stop_flags (manager (machines s')) !! flag = Some true.
Proof.
  intros (Hp & Hc & Hi) H0 Hr Hk Hs id c flag buf Hin. apply server_refines_daemon in Hr. apply fresh_owned in H0.
  eapply owned_reachable in Hr; [|done..]. destruct Hr as [_ Hcnt Hfl _].
  destruct (Hfl _ id flag Hin eq_refl) as (e & He & Hf & _).
  apply (owner_count_elem id) in Hin. rewrite Hcnt in Hin. cbn [owns] in Hin. rewrite decide_True in Hin by done.
  unfold running_at in Hin. rewrite He in Hin. destruct (decide (e_state e = Running)) as [Hrun|]; [|lia].
  cbv beta iota zeta delta [Server.serve_event machine_event] in Hs. apply fmap_Some in Hs as (w' & (t & m' & t' & sp & Hk' & Ht & ->)%turn_spec & ->).
  assert (t = WaitBegin d) as -> by congruence. cbn [manager machines set_machines].
  assert (m' = stop_all (manager (machines s))) as ->; [|by eapply stop_all_raised].
  cbn [thread_step] in Ht. by destruct (running_count _); simplify_eq.
Qed.

(** The two models of a request agree.  Not a property of the program: it lets what is
    proved of [Router.route], which takes a request in one step, be said of the daemon
    here, in which other turns come between, where none does.  A restart is left out,
    whose wait is turns of others by its nature. *)
Lemma request_as_routed others s c k r :
  (forall c id, is_Some (inject c id)) -> connections s !! c = Some k -> conn k = Idle ->
  is_restart (dispatch (manager (machines s)) r) = false ->
  let answer := route others r (manager (machines s)) in
  exists es w', serve_events (Requested c r :: es) s = Some (put_conn (set_machines s w') c (send_response k answer.1.1)) /\
    manager w' = answer.1.2 /\ exists finished, (length finished <= 1)%nat /\
      threads w' = threads (machines s) ++ finished ++ machine_task inject (request_id r) answer.2.
Proof.
  intros Hi Hc Hk Hr. cbv zeta. pose proof (dispatch_served parse_create parse_action parse_clone hp path_exists is_separator inject others _ r Hi Hr) as H.
  unfold served in H. destruct (dispatch (manager (machines s)) r) as [resp|t] eqn:Ed.
  - exists [], (machines s). rewrite H. cbn. rewrite Hc. cbn. rewrite Hk, Ed. cbn. split; [by destruct s|]. split; [done|].
    exists []. split; [cbn; lia|]. by rewrite !app_nil_r.
  - destruct H as (rep & Ha & Hresp). destruct (route others r (manager (machines s))) as [[resp m'] sp]. cbn [fst snd] in Ha, Hresp.
    set (l := threads (machines s)). set (s1 := put_conn s c (set_conn k (Calling r (length l)))).
    destruct (alone_turns parse_create parse_action parse_clone hp path_exists is_separator inject _ _ _ [] _ _ _ s1 l Ha) as [j Hj].
    exists (replicate j (MachineTurn (length l)) ++ [Answered c]), {| manager := m'; threads := l ++ Finished rep :: machine_task inject (request_id r) sp |}.
    split; [|split; [done|]].
    + cbn [Server.serve_events Server.serve_event connection_event]. rewrite Hc. cbn [mbind option_bind]. rewrite Hk, Ed. cbn [option_bind].
      change (put_conn (set_machines s (add_thread (machines s) t)) c (set_conn k (Calling r (length (threads (machines s))))))
        with (set_machines s1 {| manager := manager (machines s); threads := l ++ [t] |}).
      cbn [mbind option_bind]. rewrite serve_events_app, Hj. cbn.
      pose proof (lookup_lt_Some _ _ _ Hc). rewrite list_lookup_insert_eq by done. cbn. rewrite list_lookup_middle by done. cbn. rewrite Hresp. cbn.
      unfold put_conn. cbn. by rewrite list_insert_insert_eq.
    + exists [Finished rep]. split; [cbn; lia|done].
Qed.
End Properties.

(** ** Runs *)

Definition start_any (s : string) : result string VmAction := Ok ActStart.

Definition run_demo : list Event -> Server -> option Server :=
  @serve_events demo_json state_json_demo info_json_demo list_json_demo create_demo start_any clone_demo
    no_prefix any_path VmManager.slash same_config.

Notation demo_server_step := (@server_step demo_json state_json_demo info_json_demo list_json_demo create_demo start_any clone_demo
  no_prefix any_path VmManager.slash same_config).

Lemma run_demo_reachable es s s' : run_demo es s = Some s' -> rtc demo_server_step s s'.
Proof.
  unfold run_demo. revert s. induction es as [|e es IH]; intros s; [by intros [= ->]|]. cbn [serve_events].
  destruct (serve_event _ _ _ _ _ _ _ s e) as [s1|] eqn:E; [|done]. intros H. eapply rtc_l; [by exists e|by apply IH].
Qed.

(** A client connects, and creates the machine "web". *)
Definition client_connects : list Event := [ServerPolled; InstanceCreated (Ok ()); PipeConnected (Ok ())].
Definition client_creates : list Event :=
  client_connects ++ [Requested 0 (request PUT "/vms/web" "{vm}"); MachineTurn 0; MachineTurn 0; MachineTurn 0; Answered 0].
Definition client_starts (k : nat) : list Event :=
  [Requested 0 (request POST "/vms/web/action" "start"); MachineTurn k; MachineTurn k; MachineTurn k; Answered 0].

Definition after (es : list Event) (s : Server) : Server := default s (run_demo es s).
Definition happens (es : list Event) (s : Server) : bool := match run_demo es s with Some _ => true | None => false end.

Lemma after_run es s : happens es s = true -> run_demo es s = Some (after es s).
Proof. unfold happens, after. by destruct (run_demo es s). Qed.

Definition daemon_on (st : StateStore) : Server := server_start (world_on st) None.

Definition late_start : list Event :=
  client_creates ++ [ShutdownResolved; MachineTurn 1; WaitDone] ++ client_starts 2 ++ [InstanceCreated (Ok ()); PipeShutdown; ServerAwaited].

(** A client that is connected can start a machine after the daemon has raised the
    flags of those that run: the daemon returns with the machine running, its flag
    down, and the client told that it was started. *)
Theorem late_start_survives_shutdown :
  exists s, rtc demo_server_step (daemon_on new_store) s /\ phase s = Complete /\
    (exists c flag buf, Booting "web" c flag buf ∈ threads (machines s) /\ stop_flags (manager (machines s)) !! flag = Some false) /\
    running_at "web" (manager (machines s)) = 1%nat /\
    (fun k => status <$> sent k) <$> connections s = [[CREATED; OK]].
Proof.
  set (s := after late_start (daemon_on new_store)). exists s.
  split; [apply (run_demo_reachable late_start), after_run; vm_compute; reflexivity|]. split; [vm_compute; reflexivity|]. split.
  - assert (Ht : exists c flag buf, threads (machines s) !! 3%nat = Some (Booting "web" c flag buf) /\ flag = 0%nat)
      by (vm_compute; repeat eexists).
    destruct Ht as (c & flag & buf & Ht & ->). exists c, 0%nat, buf. split; [by eapply list_elem_of_lookup_2|]. vm_compute. reflexivity.
  - split; vm_compute; reflexivity.
Qed.

(** ** Witnesses *)

Notation on_demo f := (f demo_json state_json_demo info_json_demo list_json_demo create_demo start_any clone_demo
  no_prefix any_path VmManager.slash same_config).

(** The daemon is told to stop while the machine "web" runs. *)
Definition web_booted : Server := after (client_creates ++ client_starts 1) (daemon_on new_store).
Definition web_stopping : Server := after [ShutdownResolved] web_booted.

Lemma web_stopping_reachable : rtc demo_server_step (daemon_on new_store) web_stopping.
Proof.
  apply (run_demo_reachable ((client_creates ++ client_starts 1) ++ [ShutdownResolved])).
  assert (E : run_demo (client_creates ++ client_starts 1) (daemon_on new_store) = Some web_booted)
    by (apply after_run; vm_compute; reflexivity).
  unfold run_demo in *. rewrite (on_demo (@serve_events_app)), E. apply (after_run [ShutdownResolved]). vm_compute. reflexivity.
Qed.

Lemma shutdown_completes_witness : phase web_stopping = Stopping 3 /\
  exists es s', run_demo es web_stopping = Some s' /\ phase s' = Complete.
Proof.
  split; [vm_compute; reflexivity|].
  destruct (on_demo (@shutdown_completes) (world_on new_store) None web_stopping eq_refl eq_refl web_stopping_reachable)
    as (es & s' & H1 & _ & H2 & _); [vm_compute; discriminate|]. by exists es, s'.
Defined.

Lemma shutdown_raises_flags_witness :
  stop_flags (manager (machines web_stopping)) !! 0%nat = Some false /\
  stop_flags (manager (machines (after [MachineTurn 3] web_stopping))) !! 0%nat = Some true.
Proof.
  split; [vm_compute; reflexivity|].
  assert (Ht : exists c buf, threads (machines web_stopping) !! 2%nat = Some (Booting "web" c 0 buf)) by (vm_compute; repeat eexists).
  destruct Ht as (c & buf & Ht).
  refine (on_demo (@shutdown_raises_flags) (world_on new_store) None web_stopping 3 5000 (after [MachineTurn 3] web_stopping) demo_host
    world_on_fresh web_stopping_reachable _ _ "web"%string c 0%nat buf _); [vm_compute; reflexivity| |by eapply list_elem_of_lookup_2].
  assert (H : happens [MachineTurn 3] web_stopping = true) by (vm_compute; reflexivity).
  apply after_run in H. unfold run_demo in H. cbn [serve_events] in H.
  destruct (on_demo (@serve_event) web_stopping (MachineTurn 3)) as [x|]; [exact H|discriminate H].
Defined.

Lemma first_instance_only_witness : instances web_stopping = [true] /\ pipe_count (connections web_stopping) = 1%nat /\
  exists n, [true] = first_only n.
Proof.
  split; [vm_compute; reflexivity|]. split; [vm_compute; reflexivity|].
  destruct (on_demo (@first_instance_only) (world_on new_store) None web_stopping web_stopping_reachable) as (n & H & _).
  exists n. rewrite <- H. vm_compute. reflexivity.
Defined.

(** Another daemon has the pipe; a client comes by, and the clock goes on. *)
Definition taken : Server := after [ServerPolled; InstanceCreated (Err "access denied")] (daemon_on new_store).

Lemma broken_pipe_unnoticed_witness : phase (after [Time 9000] taken) = Serving /\ connections (after [Time 9000] taken) = [].
Proof.
  destruct (on_demo (@broken_pipe_unnoticed) (world_on new_store) None "access denied"%string) as (s & E & _ & H).
  assert (s = taken) as -> by (apply (f_equal (default (daemon_on new_store))) in E; exact (eq_sym E)).
  assert (Hr : rtc demo_server_step taken (after [Time 9000] taken))
    by (apply (run_demo_reachable [Time 9000]), after_run; vm_compute; reflexivity).
  destruct (H _ Hr) as (_ & _ & Hc & Hp). split; [apply Hp; vm_compute; reflexivity|by apply Hc].
Defined.
