(* ===== verification/CliBase.v ===== *)
(** * The command line's arguments and commands

    [hitz-cli/src/main.rs]: the arguments as clap gives them, what a command prints,
    and the monad of the commands of [Service.v] and [Cli.v]: a command takes the
    world outside, [D], and what was printed, and fails like [anyhow]. *)

From Stdlib Require Import String Ascii.
From stdpp Require Import gmap strings list.
From S2P Require Import Prelude Hal Ethernet Config RunLoop Float Text.

(** ** Arguments *)

(** [SocketAddr]s are the texts they print as. *)
Record VmIdArgs := { id : string; pipe : string; tcp : option string }.
Record VmCloneArgs := { src_id : string; dest_id : string; clone_pipe : string; clone_tcp : option string }.
Record VmListArgs := { list_pipe : string; list_tcp : option string }.
Record VmExportArgs := { export_of : VmIdArgs; export_out : string }.
Record VmRecordArgs := { record_of : VmIdArgs; record_out : string; interval_ms : Z; duration_secs : option Z }.
Record VmTimelineArgs := { in_file : string }.

(** The options [run] and [vm create] share. *)
Record MachineArgs := {
  kernel : string; initramfs : option string; disk : option string; ram : Z; arg_cpus : Z; arg_cmdline : string;
  net_flag : bool; arg_host_ip : string; arg_guest_ip : string; mac : option string; arg_ports : list PortForward;
}.
Record VmCreateArgs := { create_of : VmIdArgs; machine : MachineArgs }.
Record RunArgs := { run_machine : MachineArgs; run_verbose : bool }.
Record DaemonStartArgs := { start_pipe : string; tcp_listen : option string; start_verbose : bool;
                            otlp_endpoint : option string; state_dir : option string }.
Record DaemonInstallArgs := { install_start : DaemonStartArgs; auto_start : bool; arg_display_name : option string;
                              arg_description : option string }.
Inductive DaemonCommand := DaemonStart (a : DaemonStartArgs) | DaemonInstall (a : DaemonInstallArgs) | DaemonRemove.

(** ** Commands *)

(** What a command printed: part of a line, a line, one on the error stream, a
    table, bytes as they came, or a gauge; [Screen] is one drawing of a whole screen. *)
Inductive Out := Part (t : text) | Line (t : text) | ErrLine (t : text) | Table (header : list text) (body : list (list text))
               | Bytes (l : list Z) | Gauge (title : text) (percent : Z) (label : text) | Screen (content : list Out).

(** How a command fails: an [anyhow::Error], its contexts first, or a panic. *)
Inductive Failure := Anyhow (chain : list text) | Panicked (s : Stop).

Section Commands.
Context {D : Type}.

(** A command between its steps: the world, and what was printed. *)
Record Session := { world : D; printed : list Out }.

Definition Cli (A : Type) : Type := Session -> result Failure A * Session.

#[export] Instance cli_ret : MRet Cli := fun A a s => (Ok a, s).
#[export] Instance cli_bind : MBind Cli := fun A B f c s =>
  match c s with (Ok a, s') => f a s' | (Err e, s') => (Err e, s') end.

Definition show (o : list Out) : Cli unit := fun s => (Ok (), {| world := world s; printed := printed s ++ o |}).
Definition fail {A} (f : Failure) : Cli A := fun s => (Err f, s).

(** [Context::context] of a result, and of a step of the world. *)
Definition context {A} (c : text) (r : result (list text) A) : result (list text) A := map_err (cons c) r.
Definition lifted {A} (r : result (list text) A) : Cli A := fun s => (map_err Anyhow r, s).
Definition step {A} (f : D -> result (list text) A * D) : Cli A := fun s =>
  let '(r, d) := f (world s) in (map_err Anyhow r, {| world := d; printed := printed s |}).

Definition caused {A} (c : text) (r : result text A) : result (list text) A := map_err (fun e => [c; e]) r.

Definition effect_of {A} (c : text) (f : D -> result text A * D) : Cli A :=
  step (fun d => let '(r, d) := f d in (caused c r, d)).
Definition effect {A} (c : string) (f : D -> result text A * D) : Cli A := effect_of (str c) f.

(** A step whose failure is looked at. *)
Definition attempt {A} (c : Cli A) : Cli (result Failure A) := fun s => let '(r, s') := c s in (Ok r, s').

(** A change of the world that cannot fail. *)
Definition change (f : D -> D) : Cli () := fun s => (Ok (), {| world := f (world s); printed := printed s |}).
End Commands.

(** [{e:#}]: the contexts and the cause. *)
Fixpoint chain_text (l : list text) : text :=
  match l with [] => [] | [e] => e | e :: l' => e ++ str ": " ++ chain_text l' end.

Lemma cli_bind_ok {D A B} (c : Cli A) (f : A -> Cli B) (s : Session (D := D)) a s' : c s = (Ok a, s') -> (c ≫= f) s = f a s'.
Proof. intros E. unfold mbind, cli_bind. by rewrite E. Qed.


(** A sequence that ended: in its first part, or in its second. *)
Lemma cli_bind_inv {D A B} (c : Cli A) (f : A -> Cli B) (s : Session (D := D)) r s' : (c ≫= f) s = (r, s') ->
  (exists e, c s = (Err e, s') /\ r = Err e) \/ exists a s1, c s = (Ok a, s1) /\ f a s1 = (r, s').
Proof. unfold mbind, cli_bind. destruct (c s) as [[a|e] s1]; [by right; exists a, s1|]. intros [= <- <-]. left. by exists e. Qed.
