(* ===== verification/Service.v ===== *)
(** * The life of the daemon

    [hitz-cli/src/main.rs], [hitz daemon] in its three forms, and
    [hitz-daemon/src/telemetry.rs]: the daemon in the foreground and as a Windows
    service, around the server of [Server.v], and the installation of the service.
    What the platform does is the class [Host]; what is documented of the service
    control manager is [HostLaws]. *)

From Stdlib Require Import String Ascii.
From stdpp Require Import gmap strings list relations.
From S2P Require Import Prelude Hal Memory PageTables Cpio Ethernet Config RunLoop SerialBuf StateStore VmManager Router Daemon Server.
From S2P Require Import Float Text CliBase.

(** ** The arguments of a service *)

Section Arguments.
(** The environment, and [PathBuf::join]. *)
Variables (env : string -> option string) (join : string -> string -> string).

Definition resolve_otlp_endpoint (cli_arg : option string) : option string :=
  match cli_arg with Some e => Some e | None => env "OTEL_EXPORTER_OTLP_ENDPOINT" end.

Definition resolve_state_dir (cli_arg : option string) : string :=
  match cli_arg with
  | Some d => d
  | None => join (join (default "."%string (env "APPDATA")) "hitz") "vms"
  end.

(** A directory is a text here; one that is no valid UTF-8 is refused. *)
Definition build_launch_args (a : DaemonStartArgs) : list string :=
  ["daemon"; "start"; "--pipe"; start_pipe a]%string ++
  match tcp_listen a with Some addr => ["--tcp-listen"; addr]%string | None => [] end ++
  (if start_verbose a then ["--verbose"]%string else []) ++
  match otlp_endpoint a with Some ep => ["--otlp-endpoint"; ep]%string | None => [] end ++
  ["--state-dir"%string; default (resolve_state_dir None) (state_dir a)].
End Arguments.

(** The arguments [run_service] parses, from those it was started with; a slice
    from beyond the end panics. *)
Fixpoint position (s : string) (l : list string) : option nat :=
  match l with
  | [] => None
  | x :: l' => if String.eqb x s then Some 0%nat else S <$> position s l'
  end.

Definition service_argv (arguments : list string) : result Stop (list string) :=
  let daemon_args_start := default 1%nat (position "daemon" arguments) in
  if (daemon_args_start <=? length arguments)%nat then Ok ("hitz"%string :: drop daemon_args_start arguments) else Err Panic.

Definition SERVICE_NAME : string := "hitz".

(** ** The platform *)

(** Texts with a dash. *)
Definition dashed (before after : string) : text := str before ++ [SP; 0x2014; SP] ++ str after.

Module ServiceState.
Inductive t := StartPending | Running | Stopped.
End ServiceState.

Record ServiceStatus := { current_state : ServiceState.t; accepts_stop : bool; win32_exit_code : Z; wait_hint_secs : Z }.

Inductive ServiceControl := ControlStop | ControlShutdown | ControlInterrogate | OtherControl (name : string).
Inductive HandlerResult := NoError | NotImplemented.

(** The service runs as LocalSystem, in a process of its own. *)
Record ServiceInfo := { si_name : string; si_display_name : string; si_auto_start : bool; si_executable : string;
                        si_launch_arguments : list string }.

Inductive DispatchError := Winapi (code : option Z) (shown : text) | OtherDispatchError (shown : text).

(** A layer of the tracing subscriber. *)
Inductive Layer := FmtLayer | OtelLayer (provider : string).

(** The environment, clap, the hypervisor, the disk, the runtime, OpenTelemetry and
    the service control manager: [service_dispatch] gives the arguments a service was
    started with, [try_parse] a [daemon start] or another command, [disk_at] the
    state store's files in a directory. *)
Class Host (D : Type) := {
  env : string -> option string;
  path_join : string -> string -> string;
  try_parse : list string -> result text (option DaemonStartArgs);
  current_exe : result text string;
  hypervisor_new : D -> result text () * D;
  disk_at : string -> D -> StateStore;
  runtime_new : result text ();
  span_exporter : string -> result text ();
  metric_exporter : string -> result text ();
  set_tracer_provider : string -> D -> D;
  set_meter_provider : string -> D -> D;
  shut_tracer_provider : string -> D -> D;
  shut_meter_provider : string -> D -> D;
  try_init : list Layer -> D -> D;
  service_dispatch : result DispatchError (list string);
  register_handler : D -> result text () * D;
  set_service_status : ServiceStatus -> D -> result text () * D;
  open_manager : bool -> D -> result text () * D;
  create_service : ServiceInfo -> D -> result text () * D;
  set_description : string -> D -> result text () * D;
  open_service : string -> D -> result text () * D;
  stop_service : string -> D -> result text () * D;
  delete_service : string -> D -> result text () * D;
}.

(** ** Telemetry *)

(** A provider is the endpoint it exports to. *)
Record TelemetryGuard := { tracer_provider : option string; meter_provider : option string }.

Definition no_telemetry : TelemetryGuard := {| tracer_provider := None; meter_provider := None |}.

Section Daemon.
Context {D : Type} {host : Host D}.
Context {Jc : Json VmConfig} {Jp : Json PersistedState} {Ji : Json VmInfo} {Jl : Json (list VmInfo)}.
Variables (parse_create : string -> result string VmConfig) (parse_action : string -> result string VmAction)
          (parse_clone : string -> result string string).
Variables (hp : string -> bool) (path_exists : string -> bool) (is_separator : ascii -> bool).
Variable inject : VmConfig -> string -> option VmConfig.
(** [DaemonError]s as [{:#}] shows them. *)
Variable error_text : DaemonError -> text.

#[local] Notation Cli := (@CliBase.Cli D).

Definition telemetry_init (endpoint : option string) (d : D) : TelemetryGuard * D :=
  match endpoint with
  | None => (no_telemetry, d)
  | Some ep =>
      match span_exporter ep with
      | Err _ => (no_telemetry, d)
      | Ok _ =>
          let d := set_tracer_provider ep d in
          match metric_exporter ep with
          | Err _ => ({| tracer_provider := Some ep; meter_provider := None |}, d)
          | Ok _ => ({| tracer_provider := Some ep; meter_provider := Some ep |}, set_meter_provider ep d)
          end
      end
  end.

Definition tracing_layer (g : TelemetryGuard) : option Layer := OtelLayer <$> tracer_provider g.

(** [Drop] of the guard: the meters first; failures are logged. *)
Definition telemetry_drop (g : TelemetryGuard) (d : D) : D :=
  let d := match meter_provider g with Some ep => shut_meter_provider ep d | None => d end in
  match tracer_provider g with Some ep => shut_tracer_provider ep d | None => d end.

Definition init_tracing (g : TelemetryGuard) (verbose : bool) (d : D) : D :=
  try_init ((if verbose then [FmtLayer] else []) ++ option_list (tracing_layer g)) d.

(** The telemetry of [run_daemon] and [run_service]. *)
Definition start_telemetry (a : DaemonStartArgs) : Cli TelemetryGuard := fun s =>
  let '(g, d) := telemetry_init (resolve_otlp_endpoint env (otlp_endpoint a)) (world s) in
  (Ok g, {| world := init_tracing g (start_verbose a) d; printed := printed s |}).

(** ** The daemon *)

Definition appdata_warning (a : DaemonStartArgs) : list Out :=
  match state_dir a, env "APPDATA" with
  | None, None => [ErrLine (str "hitz: warning: APPDATA not set, state dir defaults to " ++ str (resolve_state_dir env path_join None))]
  | _, _ => []
  end.

Definition shutdown_lines (s : Server) : list Out :=
  (if bool_decide (phase s = Serving) then [] else [ErrLine (10 :: str "hitz: shutting down...")]) ++
  (if bool_decide (phase s = Complete) then [ErrLine (str "hitz: shutdown complete")] else []).

(** [run_daemon_inner] over what happens to its server: the server in the end, or
    [None] while the daemon runs. *)
Definition run_daemon_inner (a : DaemonStartArgs) (es : list Event) : Cli (option Server) :=
  let dir := resolve_state_dir env path_join (state_dir a) in
  show (appdata_warning a ++ [ErrLine (str "hitz: state dir " ++ str dir)]);;
  effect "WHP not available" hypervisor_new;;
  m ← effect "failed to initialize VM state store" (fun d => (map_err error_text (manager_new hp (disk_at dir d)), d));
  match serve_events parse_create parse_action parse_clone hp path_exists is_separator inject es
          (server_start {| manager := m; threads := [] |} (tcp_listen a)) with
  | Some s => show (shutdown_lines s);; mret (if bool_decide (phase s = Complete) then Some s else None)
  | None => mret None
  end.

(** After the runtime is gone the guard is dropped, on every way out. *)
Definition with_runtime {A} (g : TelemetryGuard) (what : string) (run : Cli (option A)) : Cli (option (result Failure A)) :=
  match runtime_new with
  | Err e => change (telemetry_drop g);; fail (Anyhow [str what; e])
  | Ok _ =>
      r ← attempt run;
      match r with
      | Ok None => mret None
      | Ok (Some x) => change (telemetry_drop g);; mret (Some (Ok x))
      | Err f => change (telemetry_drop g);; mret (Some (Err f))
      end
  end.

Definition finish {A} (r : result Failure A) : Cli (option A) := match r with Ok x => mret (Some x) | Err f => fail f end.

Definition listening_lines (a : DaemonStartArgs) : list Out :=
  ErrLine (str "hitz: daemon listening on " ++ str (start_pipe a)) ::
  match tcp_listen a with Some addr => [ErrLine (str "hitz: TCP listener on " ++ str addr)] | None => [] end.

(** [run_daemon] when it was not started by the service control manager. *)
Definition run_foreground (a : DaemonStartArgs) (es : list Event) : Cli (option Server) :=
  g ← start_telemetry a;
  show (listening_lines a);;
  r ← with_runtime g "failed to create tokio runtime" (run_daemon_inner a es);
  match r with Some r => finish r | None => mret None end.

(** ** The service *)

(** What the handler does on a control: whether it sends the stop, and its answer. *)
Definition event_handler (control : ServiceControl) : bool * HandlerResult :=
  match control with
  | ControlStop | ControlShutdown => (true, NoError)
  | ControlInterrogate => (false, NoError)
  | OtherControl _ => (false, NotImplemented)
  end.

(** The shutdown future of a service is over only once a control sent the stop. *)
Definition stop_received (controls : list ServiceControl) : bool := existsb (fun c => fst (event_handler c)) controls.

Definition resolves (e : Event) : bool := match e with ShutdownResolved => true | _ => false end.
Definition service_events (controls : list ServiceControl) (es : list Event) : list Event :=
  if stop_received controls then es else List.filter (fun e => negb (resolves e)) es.

Definition start_pending : ServiceStatus :=
  {| current_state := ServiceState.StartPending; accepts_stop := false; win32_exit_code := 0; wait_hint_secs := 10 |}.
Definition service_running : ServiceStatus :=
  {| current_state := ServiceState.Running; accepts_stop := true; win32_exit_code := 0; wait_hint_secs := 0 |}.
Definition service_stopped (exit_code : Z) : ServiceStatus :=
  {| current_state := ServiceState.Stopped; accepts_stop := false; win32_exit_code := exit_code; wait_hint_secs := 0 |}.

Definition report (what : string) (st : ServiceStatus) : Cli () := effect what (set_service_status st).

(** The arguments parsed again. *)
Definition service_command (arguments : list string) : Cli DaemonStartArgs :=
  match service_argv arguments with
  | Err p => fail (Panicked p)
  | Ok argv =>
      match try_parse argv with
      | Err e => fail (Anyhow [dashed "failed to parse service arguments" "was the service registered with 'daemon start'?"; e])
      | Ok None => fail (Anyhow [str "service binary path must start with 'daemon start'; got unexpected subcommand"])
      | Ok (Some a) => mret a
      end
  end.

Definition run_service (arguments : list string) (controls : list ServiceControl) (es : list Event) : Cli (option ()) :=
  effect "failed to register service control handler" register_handler;;
  report "failed to report StartPending" start_pending;;
  a ← service_command arguments;
  report "failed to report Running" service_running;;
  g ← start_telemetry a;
  r ← with_runtime g "failed to create tokio runtime in service mode" (run_daemon_inner a (service_events controls es));
  match r with
  | None => mret None
  | Some r =>
      attempt (effect "" (set_service_status (service_stopped (if is_err r then 1 else 0))));;
      _ ← finish r; mret (Some ())
  end.

(** What the service prints when it fails. *)
Definition service_main (arguments : list string) (controls : list ServiceControl) (es : list Event) : Cli (option ()) :=
  r ← attempt (run_service arguments controls es);
  match r with
  | Ok x => mret x
  | Err (Anyhow chain) => show [ErrLine (str "hitz service error: " ++ chain_text chain)];; mret (Some ())
  | Err f => fail f
  end.

Definition NOT_A_SERVICE : Z := 1063.

Definition run_daemon (a : DaemonStartArgs) (controls : list ServiceControl) (es : list Event) : Cli (option ()) :=
  match service_dispatch with
  | Ok arguments => service_main arguments controls es
  | Err (Winapi (Some code) e) =>
      if code =? NOT_A_SERVICE then s ← run_foreground a es; mret (const () <$> s)
      else fail (Anyhow [str "service dispatcher error"; e])
  | Err (Winapi None e) | Err (OtherDispatchError e) => fail (Anyhow [str "service dispatcher error"; e])
  end.

(** ** Installation *)

Definition service_info (exe : string) (a : DaemonInstallArgs) : ServiceInfo :=
  {| si_name := SERVICE_NAME; si_display_name := default "Hitz micro-VM daemon"%string (arg_display_name a);
     si_auto_start := auto_start a; si_executable := exe;
     si_launch_arguments := build_launch_args env path_join (install_start a) |}.

Definition scm_error : text := dashed "failed to open SCM" "run as Administrator".
Definition create_error : text :=
  dashed "failed to create service" "service may already exist, or access denied (run as Administrator)".

Definition install_service (a : DaemonInstallArgs) : Cli () :=
  exe ← lifted (caused (str "failed to get current exe path") current_exe);
  show (appdata_warning (install_start a));;
  effect_of scm_error (open_manager true);;
  effect_of create_error (create_service (service_info exe a));;
  effect "failed to set service description" (set_description (default "Hyper-V micro-VM manager"%string (arg_description a)));;
  show [Line (str "installed: hitz daemon as Windows service");
        Line (if auto_start a then str "  start type: automatic (starts at boot)"
              else dashed "  start type: manual" "use `sc start hitz` to start")].

Definition remove_service : Cli () :=
  effect_of scm_error (open_manager false);;
  effect_of (dashed "service 'hitz' not found" "is it installed?") (open_service SERVICE_NAME);;
  attempt (effect "" (stop_service SERVICE_NAME));;
  effect "failed to delete service" (delete_service SERVICE_NAME);;
  show [Line (str "removed: hitz Windows service")].

Definition run_daemon_command (cmd : DaemonCommand) (controls : list ServiceControl) (es : list Event) : Cli (option ()) :=
  match cmd with
  | DaemonStart a => run_daemon a controls es
  | DaemonInstall a => install_service a;; mret (Some ())
  | DaemonRemove => remove_service;; mret (Some ())
  end.
End Daemon.

(** ** Specification

    What is documented of the service control manager: it keeps the statuses it is
    given, and a registry of services by name; the other calls do not touch them. *)
Class HostLaws (D : Type) `{Host D} := {
  reported : D -> list ServiceStatus;
  registered : D -> gmap string ServiceInfo;
  status_law d st r d' : set_service_status st d = (r, d') ->
    reported d' = reported d ++ (if is_ok r then [st] else []) /\ registered d' = registered d;
  create_law d i r d' : create_service i d = (r, d') -> reported d' = reported d /\
    registered d' = (if is_ok r then <[si_name i := i]> (registered d) else registered d) /\
    (is_Some (registered d !! si_name i) -> is_ok r = false);
  open_law d n r d' : open_service n d = (r, d') -> reported d' = reported d /\ registered d' = registered d /\
    (registered d !! n = None -> is_ok r = false);
  delete_law d n r d' : delete_service n d = (r, d') -> reported d' = reported d /\
    registered d' = (if is_ok r then delete n (registered d) else registered d);
  other_law d r d' : (register_handler d = (r, d') \/ hypervisor_new d = (r, d') \/ (exists b, open_manager b d = (r, d')) \/
      (exists x, set_description x d = (r, d')) \/ (exists n, stop_service n d = (r, d'))) ->
    reported d' = reported d /\ registered d' = registered d;
  telemetry_law d d' : ((exists e, d' = set_tracer_provider e d) \/ (exists e, d' = set_meter_provider e d) \/ (exists e, d' = shut_tracer_provider e d) \/
      (exists e, d' = shut_meter_provider e d) \/ (exists l, d' = try_init l d)) -> reported d' = reported d /\ registered d' = registered d;
}.

(** A host that refuses a service nothing. *)
Definition cooperative {D} (h : Host D) : Prop :=
  (forall st d, is_ok (set_service_status st d).1 = true) /\ (forall d, is_ok (register_handler d).1 = true) /\ is_ok runtime_new = true.

(** ** Lemmas *)

Lemma position_first s x l : x <> s -> position s (x :: s :: l) = Some 1%nat.
Proof. intros H. simpl. rewrite (proj2 (String.eqb_neq x s)) by done. by rewrite String.eqb_refl. Qed.

Section Lemmas.
Context {D : Type} {host : Host D} {laws : HostLaws D}.
Context {Jc : Json VmConfig} {Jp : Json PersistedState} {Ji : Json VmInfo} {Jl : Json (list VmInfo)}.
Variables (parse_create : string -> result string VmConfig) (parse_action : string -> result string VmAction)
          (parse_clone : string -> result string string).
Variables (hp : string -> bool) (path_exists : string -> bool) (is_separator : ascii -> bool).
Variable inject : VmConfig -> string -> option VmConfig.
Variable error_text : DaemonError -> text.
#[local] Notation Cli := (@CliBase.Cli D).
#[local] Notation run_daemon_inner := (run_daemon_inner parse_create parse_action parse_clone hp path_exists is_separator inject error_text).
#[local] Notation run_service := (run_service parse_create parse_action parse_clone hp path_exists is_separator inject error_text).

(** What the service control manager knows. *)
Definition scm (d : D) : list ServiceStatus * gmap string ServiceInfo := (reported d, registered d).

Definition keeps {A} (c : Cli A) : Prop := forall s, scm (world (c s).2) = scm (world s).

Lemma keeps_ret {A} (a : A) : keeps (mret a).
Proof. by intros s. Qed.
Lemma keeps_show o : keeps (show o).
Proof. by intros s. Qed.
Lemma keeps_fail {A} f : keeps (fail (A := A) f).
Proof. by intros s. Qed.
Lemma keeps_bind {A B} (c : Cli A) (f : A -> Cli B) : keeps c -> (forall a, keeps (f a)) -> keeps (c ≫= f).
Proof.
  intros Hc Hf s. unfold mbind, cli_bind. specialize (Hc s). destruct (c s) as [[a|e] s1]; cbn in Hc |- *; [|done].
  by rewrite Hf.
Qed.
Lemma keeps_attempt {A} (c : Cli A) : keeps c -> keeps (attempt c).
Proof. intros Hc s. specialize (Hc s). unfold attempt. by destruct (c s). Qed.
Lemma keeps_change f : (forall d, scm (f d) = scm d) -> keeps (change f).
Proof. intros Hf s. apply Hf. Qed.
Lemma keeps_effect {A} c (f : D -> result text A * D) : (forall d, scm (f d).2 = scm d) -> keeps (effect c f).
Proof. intros Hf s. unfold effect, effect_of, step. specialize (Hf (world s)). by destruct (f (world s)) as [r d]. Qed.

Lemma telemetry_scm d d' : ((exists e, d' = set_tracer_provider e d) \/ (exists e, d' = set_meter_provider e d) \/ (exists e, d' = shut_tracer_provider e d) \/
  (exists e, d' = shut_meter_provider e d) \/ (exists l, d' = try_init l d)) -> scm d' = scm d.
Proof. intros H. unfold scm. by destruct (telemetry_law d d' H) as [-> ->]. Qed.

Lemma other_scm d r d' : (register_handler d = (r, d') \/ hypervisor_new d = (r, d') \/ (exists b, open_manager b d = (r, d')) \/
  (exists x, set_description x d = (r, d')) \/ (exists n, stop_service n d = (r, d'))) -> scm d' = scm d.
Proof. intros H. unfold scm. by destruct (other_law d r d' H) as [-> ->]. Qed.

Lemma drop_scm g d : scm (telemetry_drop g d) = scm d.
Proof.
  unfold telemetry_drop. transitivity (scm (match meter_provider g with Some ep => shut_meter_provider ep d | None => d end)).
  - destruct (tracer_provider g); [|done]. apply telemetry_scm. eauto 6.
  - destruct (meter_provider g); [|done]. apply telemetry_scm. eauto 8.
Qed.

Lemma keeps_telemetry a : keeps (start_telemetry a).
Proof.
  intros s. unfold start_telemetry, telemetry_init, init_tracing.
  assert (Hi : forall l d, scm (try_init l d) = scm d) by (intros; apply telemetry_scm; eauto 10).
  destruct (resolve_otlp_endpoint env (otlp_endpoint a)) as [ep|]; [|apply Hi].
  destruct (span_exporter ep); [|apply Hi]. destruct (metric_exporter ep); cbn; rewrite Hi.
  - etransitivity; apply telemetry_scm; [right; left; by eexists|left; by eexists].
  - apply telemetry_scm. left. by eexists.
Qed.

Lemma keeps_inner a es : keeps (run_daemon_inner a es).
Proof.
  unfold Service.run_daemon_inner. apply keeps_bind; [apply keeps_show|intros _].
  apply keeps_bind; [apply keeps_effect; intros d; destruct (hypervisor_new d) as [r d'] eqn:E; apply (other_scm d r d'); auto|intros _].
  apply keeps_bind; [by apply keeps_effect|intros m].
  destruct (serve_events _ _ _ _ _ _ _ _ _); [|apply keeps_ret]. apply keeps_bind; [apply keeps_show|intros; apply keeps_ret].
Qed.

Lemma keeps_runtime {A} g what (run : Cli (option A)) : keeps run -> keeps (with_runtime g what run).
Proof.
  intros Hr. unfold with_runtime. assert (keeps (change (telemetry_drop g))) as Hd by apply keeps_change, drop_scm.
  destruct runtime_new.
  - apply keeps_bind; [by apply keeps_attempt|]. intros [[x|]|f]; [|apply keeps_ret|]; apply keeps_bind; auto using keeps_ret.
  - apply keeps_bind; [done|]. intros; apply keeps_fail.
Qed.

Lemma report_spec what st s r s' : report what st s = (r, s') ->
  scm (world s') = (reported (world s) ++ (if is_ok r then [st] else []), registered (world s)).
Proof.
  unfold report, effect, effect_of, step, scm. destruct (set_service_status st (world s)) as [x d] eqn:E. intros [= <- <-]. cbn.
  destruct (status_law _ _ _ _ E) as [-> ->]. by destruct x.
Qed.

Lemma run_keeps {A} (c : Cli A) s r s' : keeps c -> c s = (r, s') -> scm (world s') = scm (world s).
Proof. intros Hk E. specialize (Hk s). by rewrite E in Hk. Qed.

(** The reports of a service, so far. *)
Definition told (s s' : Session (D := D)) (l : list ServiceStatus) : Prop :=
  scm (world s') = (reported (world s) ++ l, registered (world s)).

Lemma told_nil s s' : scm (world s') = scm (world s) -> told s s' [].
Proof. unfold told. intros ->. unfold scm. by rewrite app_nil_r. Qed.

Lemma told_app s s1 s' l k : told s s1 l -> told s1 s' k -> told s s' (l ++ k).
Proof. unfold told, scm. intros [= E1 E2] ->. by rewrite E1, E2, (assoc_L (++)). Qed.

Lemma told_report what st s r s' : report what st s = (r, s') -> told s s' (if is_ok r then [st] else []).
Proof. apply report_spec. Qed.

Lemma command_state arguments s r s' : service_command arguments s = (r, s') -> s' = s /\ (service_command arguments s).1 = r.
Proof.
  unfold service_command. destruct (service_argv arguments) as [argv|]; [|by intros [= <- <-]].
  destruct (try_parse argv) as [[a|]|]; by intros [= <- <-].
Qed.

(** A step of the world, that worked or not. *)
Lemma effect_inv {A} c (f : D -> result text A * D) s (r : result Failure A) s' : effect_of c f s = (r, s') ->
  exists y, f (world s) = (y, world s') /\ is_ok r = is_ok y /\ (forall x, r = Err x -> exists chain, x = Anyhow chain).
Proof.
  unfold effect_of, step. destruct (f (world s)) as [y d]. intros [= <- <-]. exists y. split; [done|].
  destruct y; cbn; split; try done. intros x [= <-]. by eexists.
Qed.

(** What the arguments say does not depend on anything else. *)
Lemma command_anywhere arguments s s2 : (service_command arguments s).1 = (service_command arguments s2).1.
Proof. unfold service_command. destruct (service_argv arguments) as [argv|]; [|done]. by destruct (try_parse argv) as [[?|]|]. Qed.

(** No report is refused, and no runtime missing, by a host that refuses nothing. *)
Lemma report_taken what st s e s' : report what st s = (Err e, s') -> ~ cooperative host.
Proof.
  intros H (Hc & _). apply effect_inv in H as (y & E & Ey & _). specialize (Hc st (world s)). rewrite E in Hc. cbn in *. congruence.
Qed.

Lemma runtime_there {A} g what (run : Cli (option A)) s e s' : with_runtime g what run s = (Err e, s') -> is_ok runtime_new = true -> False.
Proof.
  unfold with_runtime. destruct runtime_new; [|done]. intros H _.
  apply cli_bind_inv in H as [(f & H & _)|(r & s1 & H1 & H)]; [unfold attempt in H; by destruct (run s)|].
  destruct r as [[x|]|f]; [|done|]; (apply cli_bind_inv in H as [(f' & H & _)|([] & s2 & _ & H)]; done).
Qed.

(** The end of a service whose daemon has ended: it is reported unless the manager
    refuses the report. *)
Lemma stopped_told (x : result Failure Server) s r s' :
  (attempt (effect "" (set_service_status (service_stopped (if is_err x then 1 else 0))));; y ← finish x; mret (Some ())) s = (r, s') ->
  is_err r = is_err x /\ r <> Ok None /\
  told s s' (if is_ok (set_service_status (service_stopped (if is_err r then 1 else 0)) (world s)).1 then [service_stopped (if is_err r then 1 else 0)] else []).
Proof.
  intros H. apply cli_bind_inv in H as [(e & H & _)|(q & s1 & H1 & H2)].
  { unfold attempt in H. by destruct (effect _ _ s). }
  assert (Hr : is_err r = is_err x /\ r <> Ok None /\ s1 = s') by (destruct x; injection H2 as <- <-; done).
  destruct Hr as (Hr & Hn & <-). split; [done|]. split; [done|]. rewrite Hr.
  unfold attempt in H1. destruct (effect "" (set_service_status (service_stopped (if is_err x then 1 else 0))) s) as [y s2] eqn:E. injection H1 as <- <-.
  apply (told_report "") in E as Ht. apply effect_inv in E as (y' & E & Ey & _). rewrite E. cbn [fst]. by rewrite <- Ey.
Qed.

(** The calls that leave the registry alone. *)
Lemma open_manager_registered b d r d' : open_manager b d = (r, d') -> registered d' = registered d.
Proof. intros E. apply (other_law d r). eauto. Qed.
Lemma set_description_registered x d r d' : set_description x d = (r, d') -> registered d' = registered d.
Proof. intros E. apply (other_law d r). eauto 6. Qed.
Lemma stop_service_registered n d r d' : stop_service n d = (r, d') -> registered d' = registered d.
Proof. intros E. apply (other_law d r). eauto 6. Qed.

Lemma keeps_register : keeps (effect "failed to register service control handler" register_handler).
Proof. apply keeps_effect. intros d. destruct (register_handler d) as [x d'] eqn:E. eapply other_scm. left. exact E. Qed.

(** Opening the manager, and going on. *)
Lemma opened {A} b (f : () -> Cli A) s r s' : (effect_of scm_error (open_manager b) ≫= f) s = (r, s') ->
  (is_err r = true /\ registered (world s') = registered (world s)) \/
  exists s1, registered (world s1) = registered (world s) /\ f () s1 = (r, s').
Proof.
  intros [(e & H & ->)|([] & s1 & H & Hf)]%cli_bind_inv; apply effect_inv in H as (y & E & _); apply open_manager_registered in E.
  - by left.
  - right. by exists s1.
Qed.

Lemma remove_spec s s' : remove_service s = (Ok (), s') -> registered (world s') = delete SERVICE_NAME (registered (world s)).
Proof.
  intros H. apply opened in H as [[? _]|(s1 & R1 & H)]; [done|].
  apply cli_bind_inv in H as [(e & _ & ?)|([] & s2 & H2 & H)]; [done|].
  apply effect_inv in H2 as (y2 & E2 & _). destruct (open_law _ _ _ _ E2) as (_ & R2 & _).
  apply cli_bind_inv in H as [(e & _ & ?)|(x & s3 & H3 & H)]; [done|]. unfold attempt in H3.
  destruct (effect "" (stop_service SERVICE_NAME) s2) as [z s4] eqn:E3. injection H3 as <- <-.
  apply effect_inv in E3 as (y3 & E3 & _). apply stop_service_registered in E3.
  apply cli_bind_inv in H as [(e & _ & ?)|([] & s5 & H5 & H)]; [done|]. injection H as <-.
  apply effect_inv in H5 as (y5 & E5 & Ey & _). destruct (delete_law _ _ _ _ E5) as [_ R5]. rewrite <- Ey in R5. cbn [is_ok world] in *.
  by rewrite R5, E3, R2, R1.
Qed.

Lemma create_spec {A} c i (f : () -> Cli A) s r s' : (effect_of c (create_service i) ≫= f) s = (r, s') ->
  (is_err r = true /\ registered (world s') = registered (world s)) \/
  exists s1, registered (world s) !! si_name i = None /\ registered (world s1) = <[si_name i := i]> (registered (world s)) /\ f () s1 = (r, s').
Proof.
  intros [(e & H & ->)|([] & s1 & H & Hf)]%cli_bind_inv; apply effect_inv in H as (y & E & Ey & _);
    destruct (create_law _ _ _ _ E) as (_ & R & N); rewrite <- Ey in R, N; cbn [is_ok] in R, N; [by left|].
  right. exists s1. split; [|done]. destruct (registered (world s) !! si_name i); [|done]. by discriminate N.
Qed.
End Lemmas.

(** ** Properties *)

(** A service finds the arguments it was installed with behind the name of its
    program, and the state directory is among them; but the one argument a service
    is started with by itself, its name, leaves no command, and none is a panic. *)
Theorem service_arguments env join a exe : exe <> "daemon"%string ->
  service_argv (exe :: build_launch_args env join a) = Ok ("hitz"%string :: build_launch_args env join a) /\
  (exists rest, build_launch_args env join a =
     rest ++ ["--state-dir"%string; default (resolve_state_dir env join None) (state_dir a)]) /\
  service_argv [exe] = Ok ["hitz"%string] /\ service_argv [] = Err Panic.
Proof.
  intros H. split_and!; [|by unfold build_launch_args; rewrite !(assoc_L (++)); eexists| |done].
  - unfold service_argv, build_launch_args. cbn [app]. by rewrite position_first.
  - unfold service_argv. simpl. by rewrite (proj2 (String.eqb_neq exe _)).
Qed.

Section Properties.
Context {D : Type} {host : Host D} {laws : HostLaws D}.
Context {Jc : Json VmConfig} {Jp : Json PersistedState} {Ji : Json VmInfo} {Jl : Json (list VmInfo)}.
Variables (parse_create : string -> result string VmConfig) (parse_action : string -> result string VmAction)
          (parse_clone : string -> result string string).
Variables (hp : string -> bool) (path_exists : string -> bool) (is_separator : ascii -> bool).
Variable inject : VmConfig -> string -> option VmConfig.
Variable error_text : DaemonError -> text.
#[local] Notation run_daemon_inner := (run_daemon_inner parse_create parse_action parse_clone hp path_exists is_separator inject error_text).
#[local] Notation run_service := (run_service parse_create parse_action parse_clone hp path_exists is_separator inject error_text).
#[local] Notation run_daemon := (run_daemon parse_create parse_action parse_clone hp path_exists is_separator inject error_text).

(** The conditions on the reports of a course that is known. *)
Ltac prefixes := split_and!; try done; intros; try split; try done; try apply prefix_nil; by eexists.

(** C36: A service tells its manager, in this order and nothing else, that it starts,
    that it runs, and that it has stopped, with 1 exactly when it failed; it says it
    runs as long as its daemon does, and never with arguments that are no
    [daemon start].  Where the manager refuses no report and there is a runtime, the
    service that has ended has made all three reports, however its daemon ended; and
    with arguments that are no [daemon start] it fails having reported only that it
    starts. *)
Theorem service_reports arguments controls es s r s' : run_service arguments controls es s = (r, s') ->
  (exists l, told s s' l /\ l `prefix_of` [start_pending; service_running; service_stopped (if is_err r then 1 else 0)] /\
    (r = Ok None -> l = [start_pending; service_running]) /\
    (is_ok r = true -> [start_pending; service_running] `prefix_of` l) /\
    (is_ok (service_command arguments s).1 = false -> l `prefix_of` [start_pending] /\ is_err r = true)) /\
  (cooperative host ->
    (is_ok (service_command arguments s).1 = true -> r <> Ok None ->
       told s s' [start_pending; service_running; service_stopped (if is_err r then 1 else 0)]) /\
    (is_ok (service_command arguments s).1 = false -> told s s' [start_pending] /\ is_err r = true)).
Proof.
  intros H. unfold Service.run_service in H.
  apply cli_bind_inv in H as [(e & H & ->)|([] & s1 & H1 & H)].
  { split; [exists []; split; [by apply told_nil, (run_keeps _ _ _ _ keeps_register H)|]; prefixes|].
    intros (_ & Hc & _). apply effect_inv in H as (y & E & Ey & _). specialize (Hc (world s)). rewrite E in Hc. cbn in *. congruence. }
  apply (run_keeps _ _ _ _ keeps_register), told_nil in H1.
  apply cli_bind_inv in H as [(e & H & ->)|([] & s2 & H2 & H)].
  { split; [|by apply (report_taken "failed to report StartPending") in H].
    apply told_report in H. exists ([] ++ []). split; [by eapply told_app|]. prefixes. }
  apply told_report in H2. cbn [is_ok] in H2. pose proof (told_app _ _ _ _ _ H1 H2) as H12. cbn in H12.
  rewrite (command_anywhere arguments s s2).
  apply cli_bind_inv in H as [(e & H & ->)|(a & s3 & H3 & H)].
  { destruct (command_state _ _ _ _ H) as [-> ->]. split; [exists [start_pending]; split; [done|]; prefixes|].
    intros _. by split. }
  destruct (command_state _ _ _ _ H3) as [-> ->]. clear H3.
  apply cli_bind_inv in H as [(e & H & ->)|([] & s4 & H4 & H)].
  { split; [|by apply (report_taken "failed to report Running") in H].
    apply told_report in H. exists ([start_pending] ++ []). split; [by eapply told_app|]. prefixes. }
  apply told_report in H4. cbn [is_ok] in H4. pose proof (told_app _ _ _ _ _ H12 H4) as H14. cbn in H14.
  apply cli_bind_inv in H as [(e & H & _)|(g & s5 & H5 & H)].
  { unfold start_telemetry in H. by destruct (telemetry_init _ _). }
  apply (run_keeps _ _ _ _ (keeps_telemetry a)), told_nil in H5. pose proof (told_app _ _ _ _ _ H14 H5) as H15. cbn in H15.
  pose proof (keeps_runtime g "failed to create tokio runtime in service mode" _ (keeps_inner parse_create parse_action parse_clone hp path_exists
    is_separator inject error_text a (service_events controls es))) as Hk.
  apply cli_bind_inv in H as [(e & H & ->)|(x & s6 & H6 & H)].
  { split; [|by intros (_ & _ & Hr); apply runtime_there in H].
    apply (run_keeps _ _ _ _ Hk), told_nil in H. pose proof (told_app _ _ _ _ _ H15 H) as H16. cbn in H16.
    eexists. split; [exact H16|]. prefixes. }
  apply (run_keeps _ _ _ _ Hk), told_nil in H6. pose proof (told_app _ _ _ _ _ H15 H6) as H16. cbn in H16. clear Hk.
  destruct x as [x|].
  - apply stopped_told in H as (Hr & Hn & H7). pose proof (told_app _ _ _ _ _ H16 H7) as H17. split.
    + eexists. split; [exact H17|]. destruct (is_ok (set_service_status _ _).1); prefixes.
    + intros (Hc & _). split; [|done]. intros _ _. by rewrite Hc in H17.
  - injection H as <- <-. split; [|by split]. eexists. split; [exact H16|]. prefixes.
Qed.

(** C23: A daemon whose hypervisor and store are there never fails, whatever becomes of
    its listeners, a pipe it cannot create included; and once it was told to stop,
    whatever happened before, its own tasks bring it to a successful end within five
    seconds on the clock, which it prints. *)
Theorem daemon_stops_in_time a s m d1 :
  hypervisor_new (world s) = (Ok (), d1) -> manager_new hp (disk_at (resolve_state_dir env path_join (state_dir a)) d1) = Ok m ->
  (forall es f s', run_daemon_inner a es s <> (Err f, s')) /\
  forall es sv, serve_events parse_create parse_action parse_clone hp path_exists is_separator inject es
                  (server_start {| manager := m; threads := [] |} (tcp_listen a)) = Some sv -> phase sv <> Serving ->
    exists es' sv' s', run_daemon_inner a (es ++ es') s = (Ok (Some sv'), s') /\ Forall (fun e => own_event e = true) es' /\
      phase sv' = Complete /\ now_ms (manager (machines sv')) <= now_ms (manager (machines sv)) + STOP_TIMEOUT /\
      exists before, printed s' = printed s ++ before ++ [ErrLine (10 :: str "hitz: shutting down..."); ErrLine (str "hitz: shutdown complete")].
Proof.
  intros Hh Hm. set (shown := appdata_warning a ++ [ErrLine (str "hitz: state dir " ++ str (resolve_state_dir env path_join (state_dir a)))]).
  set (s1 := {| world := d1; printed := printed s ++ shown |}).
  assert (Hrun : forall es, run_daemon_inner a es s =
    match serve_events parse_create parse_action parse_clone hp path_exists is_separator inject es
            (server_start {| manager := m; threads := [] |} (tcp_listen a)) with
    | Some x => (Ok (if bool_decide (phase x = Complete) then Some x else None), {| world := d1; printed := printed s1 ++ shutdown_lines x |})
    | None => (Ok None, s1)
    end).
  { intros es. unfold Service.run_daemon_inner. fold shown.
    rewrite (cli_bind_ok _ _ s () {| world := world s; printed := printed s ++ shown |}) by done.
    rewrite (cli_bind_ok _ _ _ () s1) by (unfold effect, effect_of, step; cbn [world printed]; by rewrite Hh).
    rewrite (cli_bind_ok _ _ _ m s1) by (unfold effect, effect_of, step; cbn [world printed s1]; by rewrite Hm).
    by destruct (serve_events _ _ _ _ _ _ _ es _). }
  split; [intros es f s' H; rewrite Hrun in H; by destruct (serve_events _ _ _ _ _ _ _ es _)|].
  intros es sv He Hp. pose proof (serve_events_wf _ _ _ _ _ _ _ _ _ _ He) as Hw.
  assert (Hl : receiver_locked m = false).
  { unfold manager_new in Hm. destruct ((_ ← store_new; load_all hp) _) as [x st]. cbn in Hm. destruct x; cbn in Hm; [by injection Hm as <-|done]. }
  destruct (stop_completes parse_create parse_action parse_clone hp path_exists is_separator inject sv
    (Hw (server_start_wf {| manager := m; threads := [] |} (tcp_listen a) eq_refl Hl)) Hp) as (es' & sv' & He' & Hown & Hc & Hn & _).
  assert (Hboth : serve_events parse_create parse_action parse_clone hp path_exists is_separator inject (es ++ es')
            (server_start {| manager := m; threads := [] |} (tcp_listen a)) = Some sv') by (by rewrite serve_events_app, He).
  exists es', sv', {| world := d1; printed := printed s1 ++ shutdown_lines sv' |}. split_and!; [|done..|].
  - rewrite Hrun, Hboth. by rewrite bool_decide_eq_true_2.
  - exists shown. cbn [printed]. unfold shutdown_lines. rewrite Hc. cbn. by rewrite <- (assoc_L (++)).
Qed.

(** A service started with its name alone, as the control manager starts it unless
    told otherwise, never runs: it reports at most that it is starting, and the
    process ends as if all went well. *)
Theorem service_by_name_fails a controls es s r s' n e :
  service_dispatch = Ok [n] -> n <> "daemon"%string -> try_parse ["hitz"%string] = Err e -> run_daemon a controls es s = (r, s') ->
  r = Ok (Some ()) /\ exists l, told s s' l /\ l `prefix_of` [start_pending].
Proof.
  intros Hd Hn Hp H. unfold Service.run_daemon in H. rewrite Hd in H. unfold service_main in H.
  apply cli_bind_inv in H as [(x & H & _)|(x & s1 & H & H2)]; [unfold attempt in H; by destruct (Service.run_service _ _ _ _ _ _ _ _ _ _ _ s)|].
  unfold attempt in H. destruct (run_service [n] controls es s) as [y s0] eqn:E. injection H as <- <-.
  assert (Hy : (exists c, y = Err (Anyhow c)) /\ exists l, told s s0 l /\ l `prefix_of` [start_pending]).
  { unfold Service.run_service in E.
    apply cli_bind_inv in E as [(x & E & ->)|([] & s1 & E1 & E)].
    { apply effect_inv in E as E'. destruct E' as (_ & _ & _ & Hx). destruct (Hx _ eq_refl) as [ch ->]. split; [by eexists|]. exists [].
      split; [by apply told_nil, (run_keeps _ _ _ _ keeps_register E)|apply prefix_nil]. }
    apply (run_keeps _ _ _ _ keeps_register), told_nil in E1.
    apply cli_bind_inv in E as [(x & E & ->)|([] & s2 & E2 & E)].
    { apply effect_inv in E as E'. destruct E' as (_ & _ & _ & Hx). destruct (Hx _ eq_refl) as [ch ->]. split; [by eexists|]. apply told_report in E.
      exists ([] ++ []). split; [by eapply told_app|apply prefix_nil]. }
    apply told_report in E2. cbn [is_ok] in E2.
    assert (Hs : service_command [n] s2 = (Err (Anyhow [dashed "failed to parse service arguments" "was the service registered with 'daemon start'?"; e]), s2)).
    { unfold service_command, service_argv. simpl. rewrite (proj2 (String.eqb_neq n _)) by done. simpl. by rewrite Hp. }
    unfold mbind, cli_bind in E. rewrite Hs in E. injection E as <- <-. split; [by eexists|]. exists ([] ++ [start_pending]). split; [by eapply told_app|done]. }
  destruct Hy as ((c & ->) & l & Hl & Hpre). injection H2 as <- <-. split; [done|]. by exists l.
Qed.

(** Installing the service registers it under its name, to be started with what was
    asked for; where it is already, nothing changes; and removing it again leaves the
    registry as it was.  Only a failure to set the description leaves a service
    behind that was reported as not installed. *)
Theorem install_remove a s r s' : install_service a s = (r, s') ->
  (r = Ok () -> registered (world s) !! SERVICE_NAME = None /\ exists exe, current_exe = Ok exe /\
     registered (world s') = <[SERVICE_NAME := service_info exe a]> (registered (world s)) /\
     forall s2, remove_service s' = (Ok (), s2) -> registered (world s2) = registered (world s)) /\
  (is_err r = true -> registered (world s') = registered (world s) \/
     exists d exe, (set_description (default "Hyper-V micro-VM manager"%string (arg_description a)) d).1 <> Ok () /\ registered (world s) !! SERVICE_NAME = None /\
       registered (world s') = <[SERVICE_NAME := service_info exe a]> (registered (world s))).
Proof.
  intros H. unfold install_service in H.
  apply cli_bind_inv in H as [(e & H & ->)|(exe & s1 & H1 & H)]; [apply (f_equal snd) in H; cbn in H; subst s'; split; [done|by left]|].
  assert (Hexe : current_exe = Ok exe /\ s1 = s) by (unfold lifted in H1; destruct current_exe; [by injection H1 as -> ->|discriminate H1]).
  destruct Hexe as [Hexe ->]. clear H1. apply cli_bind_inv in H as [(e & H & _)|([] & s2 & H2 & H)]; [done|]. injection H2 as <-.
  apply opened in H as [[Hr R]|(s3 & R3 & H)]; [split; [by intros ->|by left]|].
  apply create_spec in H as [[Hr R]|(s4 & Hnone & R4 & H)]; [split; [by intros ->|left; by rewrite R, R3]|].
  cbn [world si_name service_info] in *. rewrite R3 in R4, Hnone.
  apply cli_bind_inv in H as [(e & H & ->)|([] & s5 & H5 & H)].
  - apply effect_inv in H as (y & E & Ey & _). split; [done|]. right. exists (world s4), exe. rewrite E, (set_description_registered _ _ _ _ E).
    split; [by destruct y|by split].
  - apply effect_inv in H5 as (y & E & _). apply set_description_registered in E. injection H as <- <-. split; [|done]. intros _.
    split; [done|]. exists exe. cbn [world]. rewrite E, R4. split; [done|]. split; [done|].
    intros s2 H2%remove_spec. rewrite H2. cbn [world]. rewrite E, R4. by rewrite delete_insert_id.
Qed.
End Properties.

(** ** Witnesses *)

Definition start_demo : DaemonStartArgs :=
  {| start_pipe := "daemon"; tcp_listen := None; start_verbose := true; otlp_endpoint := None; state_dir := None |}.

Lemma service_arguments_witness :
  service_argv ("hitz.exe"%string :: build_launch_args (fun _ => None) (fun a b => a ++ "/" ++ b)%string start_demo) =
    Ok ["hitz"; "daemon"; "start"; "--pipe"; "daemon"; "--verbose"; "--state-dir"; "./hitz/vms"]%string /\
  service_argv ["hitz"%string] = Ok ["hitz"%string].
Proof.
  destruct (service_arguments (fun _ => None) (fun a b => a ++ "/" ++ b)%string start_demo "hitz.exe" ltac:(done)) as (H1 & _ & _ & _).
  split; [exact H1|reflexivity].
Defined.

(** A control manager that keeps what it is told, on a machine where everything
    works; a service is started with [args]. *)
Record ScmRecord := { statuses : list ServiceStatus; services : gmap string ServiceInfo }.

Definition demo_join (a b : string) : string := (a ++ "/" ++ b)%string.
Definition launch_demo : list string := build_launch_args (fun _ => None) demo_join start_demo.

Definition host_demo (args : result DispatchError (list string)) : Host ScmRecord := {|
  env := fun _ => None;
  path_join := demo_join;
  try_parse := fun argv => if decide (argv = ["hitz"%string]) then Err (str "a subcommand is required")
                           else if decide (argv = "hitz"%string :: launch_demo) then Ok (Some start_demo) else Ok None;
  current_exe := Ok "hitz.exe"%string;
  hypervisor_new := fun d => (Ok (), d);
  disk_at := fun _ _ => new_store;
  runtime_new := Ok ();
  span_exporter := fun _ => Ok ();
  metric_exporter := fun _ => Ok ();
  set_tracer_provider := fun _ d => d;
  set_meter_provider := fun _ d => d;
  shut_tracer_provider := fun _ d => d;
  shut_meter_provider := fun _ d => d;
  try_init := fun _ d => d;
  service_dispatch := args;
  register_handler := fun d => (Ok (), d);
  set_service_status := fun st d => (Ok (), {| statuses := statuses d ++ [st]; services := services d |});
  open_manager := fun _ d => (Ok (), d);
  create_service := fun i d => match services d !! si_name i with
                               | Some _ => (Err (str "the service exists"), d)
                               | None => (Ok (), {| statuses := statuses d; services := <[si_name i := i]> (services d) |})
                               end;
  set_description := fun _ d => (Ok (), d);
  open_service := fun n d => (match services d !! n with Some _ => Ok () | None => Err (str "no such service") end, d);
  stop_service := fun _ d => (Ok (), d);
  delete_service := fun n d => (Ok (), {| statuses := statuses d; services := delete n (services d) |});
|}.

Lemma host_demo_laws args : @HostLaws ScmRecord (host_demo args).
Proof.
  refine (@Build_HostLaws ScmRecord (host_demo args) statuses services _ _ _ _ _ _); cbn.
  - by intros d st r d' [= <- <-].
  - intros d i r d'. destruct (services d !! si_name i) eqn:E; intros [= <- <-]; cbn; [done|]. split_and!; [done..|]. by intros [].
  - intros d n r d' [= <- <-]. by destruct (services d !! n).
  - by intros d n r d' [= <- <-].
  - by intros d r d' [[= <- <-]|[[= <- <-]|[(b & [= <- <-])|[(x & [= <- <-])|(n & [= <- <-])]]]].
  - by intros d d' [(e & ->)|[(e & ->)|[(e & ->)|[(e & ->)|(l & ->)]]]].
Defined.

Definition by_name : Host ScmRecord := host_demo (Ok ["hitz"%string]).
Definition foreground : Host ScmRecord := host_demo (Err (Winapi (Some 1063) [])).
Definition idle : Session (D := ScmRecord) := {| world := {| statuses := []; services := ∅ |}; printed := [] |}.

Notation in_demo f h := (f ScmRecord h demo_json state_json_demo info_json_demo list_json_demo create_demo start_any clone_demo
  no_prefix any_path VmManager.slash same_config (fun _ => [])).
Notation lawful f h := (f ScmRecord h (host_demo_laws _) demo_json state_json_demo info_json_demo list_json_demo create_demo start_any clone_demo
  no_prefix any_path VmManager.slash same_config (fun _ => [])).

(** The course of a daemon that is stopped before anyone connects. *)
Definition stopped_at_once : list Event :=
  [ServerPolled; InstanceCreated (Ok ()); ShutdownResolved; MachineTurn 0; WaitDone; PipeShutdown; ServerAwaited].

Definition stopped_service : result Failure (option ()) * Session :=
  in_demo (@run_service) foreground ("hitz.exe"%string :: launch_demo) [ControlInterrogate; ControlStop] stopped_at_once idle.

Lemma host_demo_cooperates args : cooperative (host_demo args).
Proof. done. Defined.

(** The service that ran and was stopped reports all three; one started by its name
    alone only that it starts. *)
Lemma service_reports_witness : stopped_service.1 = Ok (Some ()) /\
  statuses (world stopped_service.2) = [start_pending; service_running; service_stopped 0] /\
  (let named := in_demo (@run_service) foreground ["hitz"%string] [] stopped_at_once idle in
   statuses (world named.2) = [start_pending] /\ is_err named.1 = true).
Proof.
  assert (E : stopped_service = (Ok (Some ()), stopped_service.2)) by (vm_compute; reflexivity).
  split; [by rewrite E|]. split.
  - destruct (lawful (@service_reports) foreground _ _ _ _ _ _ E) as [_ H].
    destruct (H (host_demo_cooperates _)) as [Ht _]. exact (f_equal fst (Ht eq_refl ltac:(done))).
  - cbv zeta. destruct (in_demo (@run_service) foreground ["hitz"%string] [] stopped_at_once idle) as [r s'] eqn:E2.
    destruct (lawful (@service_reports) foreground _ _ _ _ _ _ E2) as [_ H].
    destruct (H (host_demo_cooperates _)) as [_ Ht]. destruct (Ht eq_refl) as [Hl Hr]. split; [exact (f_equal fst Hl)|exact Hr].
Defined.

Lemma service_by_name_fails_witness :
  let end_ := in_demo (@run_daemon) by_name start_demo [] stopped_at_once idle in
  end_.1 = Ok (Some ()) /\ statuses (world end_.2) = [start_pending].
Proof.
  cbv zeta. split; [|vm_compute; reflexivity].
  destruct (in_demo (@run_daemon) by_name start_demo [] stopped_at_once idle) as [r s'] eqn:E.
  exact (proj1 (lawful (@service_by_name_fails) by_name start_demo [] stopped_at_once idle r s' "hitz"%string _ eq_refl ltac:(done) eq_refl E)).
Defined.

Definition install_demo : DaemonInstallArgs :=
  {| install_start := start_demo; auto_start := true; arg_display_name := None; arg_description := None |}.

Lemma install_remove_witness :
  let installed := (@install_service ScmRecord foreground install_demo idle).2 in
  (si_launch_arguments <$> services (world installed) !! "hitz"%string) = Some launch_demo /\
  services (world (@remove_service ScmRecord foreground installed).2) = ∅.
Proof.
  cbv zeta. assert (Hrm : (@remove_service ScmRecord foreground (@install_service ScmRecord foreground install_demo idle).2).1 = Ok ()) by (vm_compute; reflexivity).
  destruct (@install_service ScmRecord foreground install_demo idle) as [r s'] eqn:E.
  destruct (@install_remove ScmRecord foreground (host_demo_laws _) install_demo idle r s' E) as [H _].
  assert (r = Ok ()) as -> by (apply (f_equal fst) in E; cbn in E; by rewrite <- E).
  destruct (H eq_refl) as (_ & exe & _ & R & Hr). cbn [snd].
  assert (Rs : services (world s') !! "hitz"%string = Some (@service_info ScmRecord foreground exe install_demo)).
  { change (services (world s')) with (@registered ScmRecord foreground (host_demo_laws _) (world s')). rewrite R. by rewrite lookup_insert_eq. }
  split; [by rewrite Rs|]. destruct (@remove_service ScmRecord foreground s') as [r2 s2] eqn:E2.
  cbn [snd] in Hrm. rewrite E2 in Hrm. cbn in Hrm. subst r2. exact (Hr s2 eq_refl).
Defined.

(** Another daemon has the pipe: this one goes on, and ends well when it is told to. *)
Definition pipe_taken : list Event := [ServerPolled; InstanceCreated (Err "access denied"%string); Time 9000; ShutdownResolved].

Lemma daemon_stops_in_time_witness : exists es sv s',
  in_demo (@run_daemon_inner) foreground start_demo (pipe_taken ++ es) idle = (Ok (Some sv), s') /\ phase sv = Complete.
Proof.
  set (m := @manager_new demo_json state_json_demo no_prefix new_store).
  assert (Em : m = Ok (match m with Ok m => m | Err _ => empty_manager new_store end)) by (vm_compute; reflexivity).
  destruct (in_demo (@daemon_stops_in_time) foreground start_demo idle _ (world idle) eq_refl Em) as [_ H].
  set (s0 := server_start _ _) in H. destruct (run_demo pipe_taken s0) as [sv|] eqn:E.
  - destruct (H pipe_taken sv E) as (es & sv' & s' & H1 & _ & H2 & _); [|by exists es, sv', s'].
    apply (f_equal (fun o => match o with Some x => match phase x with Serving => true | _ => false end | None => true end)) in E.
    intros Hs. rewrite Hs in E. vm_compute in E. discriminate E.
  - exfalso. apply (f_equal (fun o => match o with Some _ => true | None => false end)) in E. vm_compute in E. discriminate E.
Defined.
