(* ===== verification/Cli.v ===== *)
(** * The command line client

    [hitz-cli/src/main.rs] and [pipe_client.rs]: from a command's arguments
    ([CliBase.v]) to the requests it sends, and from their answers to what it prints.
    What a command prints is a list of lines and tables, without colours; how clap
    reads arguments and what the screens of [vm top] and [vm dashboard] look like is
    left out.  The world outside, [D], is reached through parameters: hyper's
    connections, which carry a request to the daemon, and the file system.
    [CliDaemon.v] puts the router of [Router.v] in the daemon's place. *)

From Stdlib Require Import String Ascii Floats.SpecFloat.
From stdpp Require Import gmap strings list.
From S2P Require Import Prelude Hal Memory PageTables Cpio Ethernet Config RunLoop SerialBuf StateStore VmManager.
From S2P Require Import Float Text FloatOrder Format GuestProc Analytics Reports Router Server CliBase Service.

Definition net_config_of (a : MachineArgs) : option NetConfig :=
  if net_flag a then
    Some {| net_mac := mac a; host_ip := arg_host_ip a; guest_ip := arg_guest_ip a; adapter_name := None |}
  else None.

Definition config_of (a : MachineArgs) : VmConfig :=
  {| kernel_path := kernel a; initramfs_path := initramfs a; disk_path := disk a; ram_mib := ram a; cpus := arg_cpus a;
     cmdline := Some (arg_cmdline a); net := net_config_of a; ports := arg_ports a; guest_cid := DEFAULT_GUEST_CID;
     guest_agent := AgentAuto |}.

(** [HOST:GUEST]; [debug] is [{:?}] of a text. *)
Definition parse_port_forward (debug : text -> text) (s : text) : result text PortForward :=
  '(host, guest) ← ok_or (split_once 58 s) (str "expected HOST:GUEST (e.g. 2222:22), got " ++ debug s);
  h ← ok_or (parse_uint 16 host) (str "invalid host port " ++ debug host ++ str ": must be 0-65535");
  g ← ok_or (parse_uint 16 guest) (str "invalid guest port " ++ debug guest ++ str ": must be 0-65535");
  Ok {| host_port := h; guest_port := g |}.

Definition CLEAR : text := [13; 27] ++ str "[2K".
Definition CHECK_MARK : Z := 0x2713.
Definition CROSS_MARK : Z := 0x2717.
Definition HOURGLASS : Z := 0x23F3.
Definition RECORD : Z := 0x23FA.
Definition STOP_SIGN : Z := 0x23F9.

Definition is_success (status : Z) : bool := (200 <=? status) && (status <? 300).

(** What [serde_json::Value] can be; numbers are as they print. *)
Inductive Value := VNull | VBool (b : bool) | VNumber (shown : text) | VString (s : text) | VArray (l : list Value)
                 | VObject (fields : list (text * Value)).

Definition value_get (key : string) (v : Value) : option Value :=
  match v with
  | VObject fields => snd <$> List.find (fun f => bool_decide (f.1 = str key)) fields
  | _ => None
  end.

Definition as_str (v : Value) : option text := match v with VString s => Some s | _ => None end.

(** A field of the object as the message lists it. *)
Definition field_text (f : text * Value) : option text :=
  match f.2 with
  | VString s | VNumber s => Some (f.1 ++ str ": " ++ s)
  | VBool b => Some (f.1 ++ str ": " ++ (if b then str "true" else str "false"))
  | VNull => Some (f.1 ++ str ": null")
  | _ => None
  end.

Definition add_field (acc : text) (f : text * Value) : text :=
  match field_text f with
  | Some t => (if nonempty acc then acc ++ str ", " else acc) ++ t
  | None => acc
  end.

Definition fields_text (v : Value) : text := match v with VObject fields => foldl add_field [] fields | _ => [] end.

Section Format.
(** [serde_json::from_str] at [ApiError] (its message) and at [Value], and how a
    status prints. *)
Variables (parse_api_error : text -> option text) (parse_value : text -> option Value) (status_text : Z -> text).

Definition MAX_LEN : nat := 200.

Definition format_error_response (status : Z) (resp error_prefix : text) : text :=
  let titled rest := [CROSS_MARK; SP] ++ error_prefix ++ rest in
  let with_status := str " (" ++ status_text status ++ str ")" in
  CLEAR ++
  match parse_api_error resp with
  | Some message => titled (str ": " ++ message)
  | None =>
      match parse_value resp with
      | Some v =>
          match value_get "message" v ≫= as_str with
          | Some msg => titled (str ": " ++ msg)
          | None =>
              match value_get "error" v ≫= as_str with
              | Some err => titled (str ": " ++ err)
              | None => let parts := fields_text v in
                        titled (if nonempty parts then with_status ++ str ": " ++ parts else with_status)
              end
          end
      | None =>
          let clean := trim resp in
          if nonempty clean then
            let display_text := if (MAX_LEN <? length clean)%nat then take MAX_LEN clean ++ str "..." else clean in
            titled (with_status ++ str ": " ++ display_text)
          else titled with_status
      end
  end.
End Format.

(** ** The report on a snapshot *)

Definition MIB : Z := 1024 * 1024.

Fixpoint cores_text (l : list spec_float) : text :=
  match l with [] => [] | [p] => fixed1 p ++ str "%" | p :: l' => fixed1 p ++ str "%, " ++ cores_text l' end.

Definition load_text (l : list spec_float) : text :=
  match l with [a; b; c] => fixed2 a ++ str " / " ++ fixed2 b ++ str " / " ++ fixed2 c | _ => [] end.

Definition used_mib_pct (m : MemoryMetrics) : spec_float :=
  let used_mib := used_bytes m / MIB in
  let total_mib := total_bytes m / MIB in
  if 0 <? total_mib then used_pct used_mib total_mib else S754_zero false.

Definition BAR_WIDTH : Z := 15.

Definition system_rows (snap : MetricsSnapshot) : list (list text) :=
  let m := memory snap in
  let pct := total_pct (cpu snap) in
  let mem_str := digits (used_bytes m / MIB) ++ str " MiB / " ++ digits (total_bytes m / MIB) ++ str " MiB" in
  [[str "CPU Total"; make_bar (from_f32 pct) BAR_WIDTH ++ [SP] ++ fixed1 pct ++ str "%"; str "Cores"; cores_text (per_core (cpu snap))];
   [str "CPU Load"; load_text (load_avg (cpu snap)); str "Memory"; make_bar (used_mib_pct m) BAR_WIDTH ++ [SP] ++ mem_str]].

Definition disk_row (d : DiskMetrics) : list text :=
  [disk_name d; digits (reads_total d); digits (writes_total d); digits (read_bytes d / 1024); digits (write_bytes d / 1024)].
Definition net_row (n : NetMetrics) : list text :=
  [interface n; digits (rx_bytes n / 1024); digits (tx_bytes n / 1024); digits (rx_packets n); digits (tx_packets n)].
Definition proc_row (p : ProcMetrics) : list text :=
  [digits (pid p); proc_name p; fixed1 (proc_cpu_pct p) ++ str "%"; digits (rss_bytes p / MIB)].

Definition disk_header : list text := [str "Disk"; str "Reads"; str "Writes"; str "Read KB"; str "Write KB"].
Definition net_header : list text := [str "Interface"; str "RX KB"; str "TX KB"; str "RX Pkts"; str "TX Pkts"].
Definition proc_header : list text := [str "PID"; str "Name"; str "CPU %"; str "RSS MB"].

Definition listed {A} (before : list Out) (header : list text) (row : A -> list text) (l : list A) : list Out :=
  match l with [] => [] | _ => before ++ [Table header (row <$> l)] end.

Definition format_metrics_snapshot (snap : MetricsSnapshot) : list Out :=
  [Line []; Line ([SP; 0x1F4CA] ++ str " Metrics Snapshot "); Line []; Table [] (system_rows snap)] ++
  listed [Line []] disk_header disk_row (disks snap) ++
  listed [Line []] net_header net_row (networks snap) ++
  listed [Line []; Line (str "Top Processes")] proc_header proc_row (processes snap).

(** ** The screens of [vm top] and [vm dashboard] *)

Definition MB : Z := 1024 * 1024.

Definition cpu_gauge (c : CpuMetrics) : Out :=
  Gauge (str "CPU") (Z.min (float_to_uint 16 (total_pct c)) 100)
    (fixed1 (total_pct c) ++ str "% (Load: " ++
     match load_avg c with [x; y; z] => fixed2 x ++ str ", " ++ fixed2 y ++ str ", " ++ fixed2 z | _ => [] end ++ str ")").

Definition memory_gauge (m : MemoryMetrics) : Out :=
  let used_mb := used_bytes m / MB in
  let total_mb := total_bytes m / MB in
  let mem_pct := if 0 <? total_mb then float_to_uint 16 (used_pct used_mb total_mb) else 0 in
  Gauge (str "Memory") (Z.min mem_pct 100) (digits used_mb ++ str " MB / " ++ digits total_mb ++ str " MB").

Definition draw_vm_top_ui (vm_id : string) (last_err : option text) (last_snap : option MetricsSnapshot) : list Out :=
  Line (str "Hitz Top - VM: " ++ str vm_id) ::
  match last_err, last_snap with
  | Some err, _ => [Line err]
  | None, Some snap =>
      [cpu_gauge (cpu snap); memory_gauge (memory snap);
       Table [str "Device"; str "Read KB"; str "Write KB"]
         ((fun d => [disk_name d; digits (read_bytes d / 1024); digits (write_bytes d / 1024)]) <$> disks snap);
       Table [str "Interface"; str "Rx KB"; str "Tx KB"]
         ((fun n => [interface n; digits (rx_bytes n / 1024); digits (tx_bytes n / 1024)]) <$> networks snap);
       Table [str "PID"; str "Name"; str "CPU"; str "RSS"]
         ((fun p => [digits (pid p); proc_name p; fixed1 (proc_cpu_pct p) ++ str "%"; digits (rss_bytes p / MB) ++ str " MB"])
          <$> processes snap)]
  | None, None => [Line (str "Loading metrics...")]
  end.

Definition state_text (s : VmState) : text :=
  match s with Running => str "Running" | Stopped => str "Stopped" | Failed => str "Failed" | Created => str "Created" end.

(** A machine's row in the list and on the dashboard. *)
Definition list_row (info : VmInfo) : list text :=
  [str (i_id info); state_text (i_state info); digits (ram_mib (i_config info)); digits (cpus (i_config info));
   str (default "-"%string (i_exit_reason info))].
Definition list_header : list text := [str "ID"; str "State"; str "RAM (MiB)"; str "CPUs"; str "Exit Reason"].

Definition dashboard_ui (vms : list VmInfo) (err_msg : option text) : list Out :=
  [Line (str " Hitz VM Dashboard | Polling GET /vms | Press 'q' or 'ESC' to exit " ++
         match err_msg with Some e => str "| Error: " ++ e | None => [] end);
   match vms with
   | [] => Line ([0x2139; 0xFE0F] ++ str "  No VMs running.")
   | _ => Table list_header (list_row <$> vms)
   end].

Section Commands.
Context {D : Type}.
#[local] Notation Cli := (@CliBase.Cli D).

(** *** The client of [pipe_client.rs]

    Connecting, hyper's handshake, the path a URI has for the server, and a
    request with its answer: the status, and the frames of the body, each of which
    can fail and may be without data. *)
Definition Frame : Type := option (list Z).
Variables (tcp_connect pipe_open : string -> D -> result text ()) (handshake : D -> result text ())
          (uri_path : string -> result text string)
          (send : HttpRequest -> D -> result text (Z * list (result text Frame)) * D)
          (from_utf8_lossy : list Z -> text).

Definition no_daemon (at_ : string) : text := str "cannot connect to daemon at " ++ str at_ ++ [SP; 0x2014; SP] ++ str "is it running?".

Definition connect (pipe : string) (tcp : option string) (d : D) : result (list text) () :=
  match tcp with
  | Some addr => caused (no_daemon addr) (tcp_connect addr d)
  | None => caused (no_daemon pipe) (pipe_open pipe d)
  end.

Definition do_request_stream (me : Method) (path : string) (body : option string) (d : D) :
    result (list text) (Z * list (result text Frame)) * D :=
  match caused (str "HTTP handshake failed") (handshake d) with
  | Err e => (Err e, d)
  | Ok _ =>
      match caused (str "build request") (uri_path path) with
      | Err e => (Err e, d)
      | Ok p => let '(r, d) := send {| r_method := me; r_path := p; r_body := Ok (default ""%string body) |} d in
                (caused (str "send request failed") r, d)
      end
  end.

(** [body.collect().await]. *)
Definition collect_body (frames : list (result text Frame)) : result text (list Z) :=
  foldl (fun acc f => l ← acc; d ← f; Ok (l ++ default [] d)) (Ok []) frames.

Definition request_stream (pipe : string) (tcp : option string) (path : string) : Cli (Z * list (result text Frame)) :=
  step (fun d => match connect pipe tcp d with Err e => (Err e, d) | Ok _ => do_request_stream GET path None d end).

Definition do_request (me : Method) (path : string) (body : option string) (d : D) : result (list text) (Z * text) * D :=
  let '(r, d) := do_request_stream me path body d in
  (('(status, frames) ← r; bytes ← caused (str "read response body") (collect_body frames); Ok (status, from_utf8_lossy bytes)), d).

Definition pipe_request (pipe : string) (tcp : option string) (me : Method) (path : string) (body : option string) : Cli (Z * text) :=
  step (fun d => match connect pipe tcp d with Err e => (Err e, d) | Ok _ => do_request me path body d end).

(** *** Answers *)

Variables (parse_api_error : text -> option text) (parse_value : text -> option Value) (status_text : Z -> text).

Definition print_error_response (status : Z) (resp error_prefix : text) : Cli () :=
  show [Line (CLEAR ++ format_error_response parse_api_error parse_value status_text status resp error_prefix)].

Definition print_action_result (status : Z) (resp success_msg error_prefix : text) : Cli () :=
  if is_success status then show [Line (CLEAR ++ success_msg)] else print_error_response status resp error_prefix.

(** serde_json on the requests, the answers and the snapshots; an error is what it
    prints as. *)
Variables (print_create : VmConfig -> result text string) (print_clone : string -> result text string)
          (print_action : VmAction -> result text string)
          (parse_info : text -> result text VmInfo) (parse_infos : text -> result text (list VmInfo))
          (parse_snapshot : text -> result text MetricsSnapshot)
          (print_snapshot print_snapshot_pretty : MetricsSnapshot -> result text text).

Definition waiting (t : text) : Cli () := show [Part ([HOURGLASS; SP] ++ t ++ str "...")].
Definition in_quotes (s : string) : text := str "'" ++ str s ++ str "'".

Definition vm_uri (i : string) (suffix : string) : string := ("/vms/" ++ i ++ suffix)%string.
Definition request_to (a : VmIdArgs) (me : Method) (suffix : string) (body : option string) : Cli (Z * text) :=
  pipe_request (pipe a) (tcp a) me (vm_uri (id a) suffix) body.

Definition handle_vm_create (a : VmCreateArgs) : Cli () :=
  let i := id (create_of a) in
  waiting (str "Creating VM " ++ in_quotes i);;
  body ← lifted (caused (str "serialize request") (print_create (config_of (machine a))));
  '(status, resp) ← request_to (create_of a) PUT "" (Some body);
  print_action_result status resp ([CHECK_MARK] ++ str " Successfully created VM " ++ str i) (str "Failed to create VM " ++ str i).

Definition handle_vm_clone (a : VmCloneArgs) : Cli () :=
  waiting (str "Cloning VM " ++ in_quotes (src_id a) ++ str " to " ++ in_quotes (dest_id a));;
  body ← lifted (caused (str "serialize request") (print_clone (dest_id a)));
  '(status, resp) ← pipe_request (clone_pipe a) (clone_tcp a) POST (vm_uri (src_id a) "/clone") (Some body);
  print_action_result status resp ([CHECK_MARK] ++ str " Successfully cloned VM " ++ str (src_id a) ++ str " to " ++ str (dest_id a))
    (str "Failed to clone VM " ++ str (src_id a)).

Definition action_display (a : VmAction) : text :=
  match a with ActStart => str "start" | ActStop => str "stop" | ActRestart => str "restart" end.
Definition gerund (a : VmAction) : text :=
  match a with ActStart => str "Starting" | ActStop => str "Stopping" | ActRestart => str "Restarting" end.
Definition past_tense (a : VmAction) : text :=
  match a with ActStart => str "started" | ActStop => str "stopped" | ActRestart => str "restarted" end.

Definition handle_vm_action (a : VmIdArgs) (action : VmAction) : Cli () :=
  waiting (gerund action ++ str " VM " ++ in_quotes (id a));;
  body ← lifted (caused (str "serialize request") (print_action action));
  '(status, resp) ← request_to a POST "/action" (Some body);
  print_action_result status resp ([CHECK_MARK] ++ str " Successfully " ++ past_tense action ++ str " VM " ++ str (id a))
    (str "Failed to " ++ action_display action ++ str " VM " ++ str (id a)).

Definition handle_vm_start (a : VmIdArgs) : Cli () := handle_vm_action a ActStart.
Definition handle_vm_restart (a : VmIdArgs) : Cli () := handle_vm_action a ActRestart.
Definition handle_vm_stop (a : VmIdArgs) : Cli () := handle_vm_action a ActStop.

Definition handle_vm_delete (a : VmIdArgs) : Cli () :=
  waiting (str "Deleting VM " ++ in_quotes (id a));;
  '(status, resp) ← request_to a DELETE "" None;
  print_action_result status resp ([CHECK_MARK] ++ str " Successfully deleted VM " ++ str (id a)) (str "Failed to delete VM " ++ str (id a)).

(** The table of [vm status]: a title and a value per row. *)
Definition agent_text (g : GuestAgentMode) : text :=
  match g with AgentAuto => str "Auto" | AgentCustom p => str "Custom (" ++ str p ++ str ")" | AgentDisabled => str "Disabled" end.

Definition net_text (n : NetConfig) : text :=
  str "Host IP: " ++ str (host_ip n) ++ str ", Guest IP: " ++ str (guest_ip n) ++ str ", MAC: " ++ str (default "Auto"%string (net_mac n)).

Definition port_text (p : PortForward) : text := str "0.0.0.0:" ++ digits (host_port p) ++ str " -> " ++ digits (guest_port p).

Fixpoint ports_text (l : list PortForward) : text :=
  match l with [] => [] | [p] => port_text p | p :: l' => port_text p ++ str ", " ++ ports_text l' end.

Definition optional {A} (title : string) (f : A -> text) (o : option A) : list (list text) :=
  match o with Some a => [[str title; f a]] | None => [] end.

Definition status_rows (info : VmInfo) : list (list text) :=
  let c := i_config info in
  [[str "ID:"; str (i_id info)]; [str "State:"; state_text (i_state info)]; [str "Kernel:"; str (kernel_path c)]] ++
  optional "Initramfs:" str (initramfs_path c) ++
  optional "Disk:" str (disk_path c) ++
  [[str "RAM:"; digits (ram_mib c) ++ str " MiB"]; [str "CPUs:"; digits (cpus c)];
   [str "Guest Agent:"; agent_text (guest_agent c)]; [str "Guest CID:"; digits (guest_cid c)]] ++
  optional "Network:" net_text (net c) ++
  match ports c with [] => [] | _ => [[str "Ports:"; ports_text (ports c)]] end ++
  optional "Exit:" str (i_exit_reason info).

Definition handle_vm_status (a : VmIdArgs) : Cli () :=
  waiting (str "Fetching status for VM " ++ in_quotes (id a));;
  '(status, resp) ← request_to a GET "" None;
  show [Part CLEAR];;
  if is_success status then
    match parse_info resp with
    | Ok info => show [Table [] (status_rows info)]
    | Err _ => print_error_response status resp (str "Failed to parse VM " ++ str (id a) ++ str " status")
    end
  else print_error_response status resp (str "Failed to get VM " ++ str (id a) ++ str " status").

Definition handle_vm_list (a : VmListArgs) : Cli () :=
  waiting (str "Fetching VM list");;
  '(status, resp) ← pipe_request (list_pipe a) (list_tcp a) GET "/vms" None;
  show [Part CLEAR];;
  if is_success status then
    match parse_infos resp with
    | Ok [] => show [Line ([0x2139; 0xFE0F] ++ str "  No VMs found.")]
    | Ok vms => show [Table list_header (list_row <$> vms)]
    | Err _ => print_error_response status resp (str "Failed to parse VMs list")
    end
  else print_error_response status resp (str "Failed to list VMs").

(** The console's frames until the stream ends or fails. *)
Fixpoint serial_frames (frames : list (result text Frame)) : list Out :=
  match frames with
  | [] => []
  | Ok f :: l => match f with Some data => Bytes data :: serial_frames l | None => serial_frames l end
  | Err e :: _ => [ErrLine (str "stream error: " ++ e)]
  end.

Definition handle_vm_serial (a : VmIdArgs) : Cli () :=
  waiting (str "Connecting to serial console for VM " ++ in_quotes (id a));;
  '(status, frames) ← request_stream (pipe a) (tcp a) (vm_uri (id a) "/serial");
  if is_success status then show (Part CLEAR :: serial_frames frames)
  else
    bytes ← lifted (caused (str "read error body") (collect_body frames));
    fail (Anyhow [str "serial stream failed (" ++ status_text status ++ str "): " ++ from_utf8_lossy bytes]).

(** *** Measurements *)

Definition parse_failed : text := str "failed to parse metrics response".

Definition handle_vm_metrics (a : VmIdArgs) : Cli () :=
  waiting (str "Fetching metrics for VM " ++ in_quotes (id a));;
  '(status, resp) ← request_to a GET "/metrics" None;
  show [Part CLEAR];;
  if is_success status then
    snap ← lifted (caused parse_failed (parse_snapshot resp));
    show (format_metrics_snapshot snap)
  else print_error_response status resp (str "Failed to get VM " ++ str (id a) ++ str " metrics").

(** One fetch of [vm top]: the last snapshot and the last error, which stay from
    fetch to fetch. *)
Definition top_fetch (a : VmIdArgs) (last : option MetricsSnapshot * option text) : Cli (option MetricsSnapshot * option text) :=
  '(status, resp) ← request_to a GET "/metrics" None;
  mret (if is_success status then
          match parse_snapshot resp with
          | Ok snap => (Some snap, None)
          | Err e => (last.1, Some (str "Parse error: " ++ e))
          end
        else (last.1, Some (format_error_response parse_api_error parse_value status_text status resp (str "Error")))).

(** [fs::write], and an open file one line is appended to. *)
Variables (write_file append_line : string -> text -> D -> result text () * D) (open_append : string -> D -> result text () * D).

Definition handle_vm_export_metrics (a : VmExportArgs) : Cli () :=
  let i := id (export_of a) in
  waiting (str "Exporting metrics for VM " ++ in_quotes i);;
  '(status, resp) ← request_to (export_of a) GET "/metrics" None;
  if is_success status then
    snap ← lifted (caused parse_failed (parse_snapshot resp));
    json ← lifted (caused (str "failed to serialize metrics") (print_snapshot_pretty snap));
    effect "failed to write metrics export to file" (write_file (export_out a) json);;
    show [Line (CLEAR ++ [CHECK_MARK] ++ str " Exported metrics to " ++ str (export_out a))]
  else print_action_result status resp [] (str "Failed to export VM " ++ str i ++ str " metrics").

(** *** Recording

    The loop reads the stop flag and the clock at its head; [ticks] are what it
    finds there, and a recording that outlives them is still running. *)
Record Tick := { interrupted : bool; elapsed_secs : Z }.

Definition limit_reached (a : VmRecordArgs) (t : Tick) : option Z :=
  duration ← duration_secs a; if duration <=? elapsed_secs t then Some duration else None.

Definition recorded (samples : Z) : text := [RECORD] ++ str " Recorded " ++ digits samples ++ str " samples...".

Fixpoint record_loop (a : VmRecordArgs) (ticks : list Tick) (samples : Z) : Cli (option Z) :=
  match ticks with
  | [] => mret None
  | t :: ticks' =>
      if interrupted t then show [Line ([STOP_SIGN] ++ str " Recording stopped by user.")];; mret (Some samples)
      else
        match limit_reached a t with
        | Some d => show [Line ([STOP_SIGN] ++ str " Recording reached duration limit (" ++ digits d ++ str "s).")];; mret (Some samples)
        | None =>
            '(status, resp) ← request_to (record_of a) GET "/metrics" None;
            if is_success status then
              snap ← lifted (caused parse_failed (parse_snapshot resp));
              line ← lifted (caused (str "failed to serialize metrics") (print_snapshot snap));
              effect "failed to write metrics line to file" (append_line (record_out a) (line ++ [NL]));;
              show [Part ([CR] ++ recorded (samples + 1))];;
              record_loop a ticks' (samples + 1)
            else
              show [ErrLine ([NL] ++ format_error_response parse_api_error parse_value status_text status resp (str "Error"))];;
              mret (Some samples)
        end
  end.

(** The handler of Ctrl+C.  A timer without a period panics. *)
Variable set_handler : D -> result text () * D.

Definition handle_vm_record (a : VmRecordArgs) (ticks : list Tick) : Cli () :=
  effect "failed to open output file for recording" (open_append (record_out a));;
  (if interval_ms a =? 0 then fail (Panicked Panic) else mret ());;
  show [Line ([RECORD] ++ str " Recording metrics for VM " ++ in_quotes (id (record_of a)) ++ str " to " ++ in_quotes (record_out a) ++
              str " (interval: " ++ digits (interval_ms a) ++ str "ms)...")];;
  effect "failed to set Ctrl-C handler" set_handler;;
  samples ← record_loop a ticks 0;
  match samples with
  | Some n => show [Line []; Line ([CHECK_MARK] ++ str " Finished recording " ++ digits n ++ str " samples.")]
  | None => mret ()
  end.

(** *** The timeline of a recording *)

Variables (overflow_checks : bool) (read_file : string -> D -> result text text).

Definition status_cell (h : HealthStatus) : text :=
  match h with
  | Healthy => [SP; 0x2705] ++ str " HEALTHY "
  | Warning => [SP; 0x26A0; 0xFE0F] ++ str " WARN "
  | Critical => [SP; 0x1F6A8] ++ str " CRIT "
  end.

Definition timeline_cells (r : TimelineRow) : list text := [row_time r; status_cell (row_status r); row_added r; row_removed r].

Definition timeline_report (t : Timeline) : list Out :=
  [match rows t with
   | [] => Line (str "No health transitions detected.")
   | rs => Table [str "Time"; str "Status"; str "Reasons Added"; str "Reasons Removed"] (timeline_cells <$> rs)
   end;
   Line []; Line ([CHECK_MARK] ++ str " Analysis complete. Processed " ++ digits (line_count t) ++ str " samples.")].

Definition handle_vm_timeline (a : VmTimelineArgs) : Cli () :=
  file ← (fun s => (map_err Anyhow (caused (str "Failed to open " ++ str (in_file a)) (read_file (in_file a) (world s))), s));
  show [Line (str "Analyzing health timeline from " ++ str (in_file a) ++ str "..."); Line []];;
  match timeline_lines overflow_checks parse_snapshot 0 (lines file) timeline_new with
  | Ok (t, warnings) => show (ErrLine <$> warnings);; show (timeline_report t)
  | Err e => fail (Panicked e)
  end.

(** *** The analysis of a machine *)

Definition level_cell (l : WarningLevel) : text :=
  match l with
  | LevelCritical => [SP; 0x1F6A8] ++ str " CRIT "
  | LevelWarning => [SP; 0x26A0; 0xFE0F] ++ str " WARN "
  | LevelInfo => [SP; 0x2139; 0xFE0F] ++ str " INFO "
  end.

Definition debug_state (s : VmState) : text := state_text s.

Definition analysis_report (i : string) (ins : list ResourceInsight) : list Out :=
  [Line (CLEAR ++ [0x2705; SP] ++ str "Analyzed VM " ++ in_quotes i); Line [];
   Line ([SP; 0x1F50D] ++ str " Analysis Report for VM " ++ in_quotes i ++ [SP]); Line [];
   match ins with
   | [] => Line ([SP; SP; 0x2705] ++ str " System is healthy. No issues detected.")
   | _ => Table [str "Level"; str "Insight"] ((fun x => [level_cell (level x); message x]) <$> ins)
   end].

Definition handle_vm_analyze (a : VmIdArgs) : Cli () :=
  waiting (str "Analyzing VM " ++ in_quotes (id a));;
  '(status_info, resp_info) ← request_to a GET "" None;
  if negb (is_success status_info) then
    print_error_response status_info resp_info (str "Failed to get VM " ++ str (id a) ++ str " info")
  else
    match parse_info resp_info with
    | Err e => print_error_response status_info resp_info (str "Failed to parse VM " ++ str (id a) ++ str " info (" ++ e ++ str ")")
    | Ok info =>
        if bool_decide (i_state info = Running) then
          '(status_metrics, resp_metrics) ← request_to a GET "/metrics" None;
          if negb (is_success status_metrics) then
            print_error_response status_metrics resp_metrics (str "Failed to get VM " ++ str (id a) ++ str " metrics")
          else
            match parse_snapshot resp_metrics with
            | Err e => print_error_response status_metrics resp_metrics (str "Failed to parse VM " ++ str (id a) ++ str " metrics (" ++ e ++ str ")")
            | Ok metrics => match analyze_vm overflow_checks info metrics with
                            | Ok ins => show (analysis_report (id a) ins)
                            | Err e => fail (Panicked e)
                            end
            end
        else show [Line (str "VM is not running (State: " ++ debug_state (i_state info) ++ str "). Metrics analysis requires a running VM.")]
    end.

(** *** Live screens

    An iteration draws, looks for a key that ends the loop, and fetches when its
    second is over; what it finds is a [ScreenTurn].  A loop that outlives its turns is
    still running. *)
Record ScreenTurn := { quit : bool; due : bool }.

Fixpoint top_loop (a : VmIdArgs) (turns : list ScreenTurn) (last : option MetricsSnapshot * option text) : Cli () :=
  match turns with
  | [] => mret ()
  | t :: turns' =>
      show [Screen (draw_vm_top_ui (id a) last.2 last.1)];;
      if quit t then mret ()
      else
        last ← (if due t then top_fetch a last else mret last);
        top_loop a turns' last
  end.

Definition handle_vm_top (a : VmIdArgs) (turns : list ScreenTurn) : Cli () := top_loop a turns (None, None).

(** A failed request is what the dashboard shows, not its end. *)
Definition attempt_request (c : Cli (Z * text)) : Cli (result Failure (Z * text)) := fun s => let '(r, s') := c s in (Ok r, s').

Definition failure_text (f : Failure) : text :=
  match f with Anyhow (e :: _) => e | _ => [] end.

Definition dashboard_fetch (a : VmListArgs) (vms : list VmInfo) : Cli (list VmInfo * option text) :=
  r ← attempt_request (pipe_request (list_pipe a) (list_tcp a) GET "/vms" None);
  mret (match r with
        | Ok (status, resp) =>
            if is_success status then
              match parse_infos resp with
              | Ok fetched => (fetched, None)
              | Err _ => (vms, Some (str "Failed to parse JSON"))
              end
            else (vms, Some (format_error_response parse_api_error parse_value status_text status resp (str "Error")))
        | Err e => (vms, Some (str "Request failed: " ++ failure_text e))
        end).

Fixpoint dashboard_loop (a : VmListArgs) (turns : list ScreenTurn) (vms : list VmInfo) (err_msg : option text) : Cli () :=
  match turns with
  | [] => mret ()
  | t :: turns' =>
      '(vms, err_msg) ← (if due t then dashboard_fetch a vms else mret (vms, err_msg));
      show [Screen (dashboard_ui vms err_msg)];;
      if quit t then mret () else dashboard_loop a turns' vms err_msg
  end.

Definition handle_vm_dashboard (a : VmListArgs) (turns : list ScreenTurn) : Cli () := dashboard_loop a turns [] None.

(** *** Dispatch *)

Inductive VmCommand :=
| VmCreate (a : VmCreateArgs) | VmClone (a : VmCloneArgs) | VmStart (a : VmIdArgs) | VmStop (a : VmIdArgs)
| VmRestart (a : VmIdArgs) | VmStatus (a : VmIdArgs) | VmList (a : VmListArgs) | VmDelete (a : VmIdArgs)
| VmSerial (a : VmIdArgs) | VmMetrics (a : VmIdArgs) | VmTop (a : VmIdArgs) | VmDashboard (a : VmListArgs)
| VmExportMetrics (a : VmExportArgs) | VmRecord (a : VmRecordArgs) | VmAnalyze (a : VmIdArgs) | VmTimeline (a : VmTimelineArgs).

Definition run_vm_command (ticks : list Tick) (turns : list ScreenTurn) (cmd : VmCommand) : Cli () :=
  match cmd with
  | VmCreate a => handle_vm_create a
  | VmClone a => handle_vm_clone a
  | VmStart a => handle_vm_start a
  | VmStop a => handle_vm_stop a
  | VmRestart a => handle_vm_restart a
  | VmStatus a => handle_vm_status a
  | VmList a => handle_vm_list a
  | VmDelete a => handle_vm_delete a
  | VmSerial a => handle_vm_serial a
  | VmMetrics a => handle_vm_metrics a
  | VmTop a => handle_vm_top a turns
  | VmDashboard a => handle_vm_dashboard a turns
  | VmExportMetrics a => handle_vm_export_metrics a
  | VmRecord a => handle_vm_record a ticks
  | VmAnalyze a => handle_vm_analyze a
  | VmTimeline a => handle_vm_timeline a
  end.

(** *** [hitz run], without a daemon *)

Inductive ExitCode := SUCCESS | FAILURE.

Definition exit_code (r : ExitReason) : ExitCode :=
  match r with Halt | Canceled => SUCCESS | Shutdown | Unexpected _ => FAILURE end.

(** [{:?}] of a text. *)
Variable debug : text -> text.

Definition debug_exit (r : ExitReason) : text :=
  match r with
  | Halt => str "Halt" | Shutdown => str "Shutdown" | Canceled => str "Canceled"
  | Unexpected m => str "Unexpected(" ++ debug (str m) ++ str ")"
  end.

Definition banner_rows (m : MachineArgs) : list (list text) :=
  [[str "Kernel"; str (kernel m)]] ++ optional "Initramfs" str (initramfs m) ++ optional "Disk" str (disk m) ++
  [[str "RAM"; digits (ram m) ++ str " MiB"]; [str "CPUs"; digits (arg_cpus m)]; [str "Cmdline"; str (arg_cmdline m)]].

(** The hypervisor, and [boot_and_run]. *)
Variables (hypervisor_new : D -> result text () * D) (boot_and_run : VmConfig -> D -> result text ExitReason * D).

Definition run_vm (a : RunArgs) : Cli ExitCode :=
  let m := run_machine a in
  show (if run_verbose a then [ErrLine ([0x1F680] ++ str " Booting standalone micro-VM"); Table [str "Configuration"; str "Value"] (banner_rows m)] else []);;
  show (match arg_ports m with
        | [] => []
        | _ => [ErrLine (str "hitz: warning: --port flags are not supported in standalone mode (use daemon: `hitz daemon start` + `hitz vm create --port ...`)")]
        end);;
  effect "failed to create WHP hypervisor" hypervisor_new;;
  effect "failed to set Ctrl+C handler" set_handler;;
  reason ← effect "VM boot failed" (boot_and_run (config_of m));
  show (if run_verbose a then [ErrLine (str "hitz: VM exited: " ++ debug_exit reason)] else []);;
  mret (exit_code reason).

(** *** [main] *)

Definition error_line (chain : list text) : Out := ErrLine (CLEAR ++ [CROSS_MARK] ++ str " Error: " ++ chain_text chain).

(** The exit code of a command; a panic has none. *)
Definition finish_command (r : result Failure (option ExitCode)) : result Stop (option ExitCode) * list Out :=
  match r with
  | Ok c => (Ok c, [])
  | Err (Anyhow chain) => (Ok (Some FAILURE), [error_line chain])
  | Err (Panicked e) => (Err e, [])
  end.

(** The daemon's own part, and what becomes of it. *)
Context {host : Host D} {Jc : Json VmConfig} {Jp : Json PersistedState} {Ji : Json VmInfo} {Jl : Json (list VmInfo)}.
Variables (parse_create : string -> result string VmConfig) (parse_action : string -> result string VmAction)
          (parse_clone : string -> result string string).
Variables (hp : string -> bool) (path_exists : string -> bool) (is_separator : ascii -> bool).
Variable inject : VmConfig -> string -> option VmConfig.
Variable error_text : DaemonError -> text.

Inductive Command := Run (a : RunArgs) | Daemon (cmd : DaemonCommand) | Vm (cmd : VmCommand).

(** The exit code, or [None] while a daemon runs. *)
Definition run_command (ticks : list Tick) (turns : list ScreenTurn) (controls : list ServiceControl) (es : list Event) (c : Command) :
    Cli (option ExitCode) :=
  match c with
  | Run a => code ← run_vm a; mret (Some code)
  | Daemon cmd => r ← run_daemon_command parse_create parse_action parse_clone hp path_exists is_separator inject error_text cmd controls es;
                   mret (const SUCCESS <$> r)
  | Vm cmd => run_vm_command ticks turns cmd;; mret (Some SUCCESS)
  end.

Definition main (ticks : list Tick) (turns : list ScreenTurn) (controls : list ServiceControl) (es : list Event) (c : Command) (d : D) :
    result Stop (option ExitCode) * list Out * D :=
  let '(r, s) := run_command ticks turns controls es c {| world := d; printed := [] |} in
  let '(code, last) := finish_command r in
  (code, printed s ++ last, world s).
End Commands.

(** ** Lemmas *)

Lemma digits_no_colon n : 0 <= n -> 58 ∉ digits n.
Proof.
  intros Hn Hin. pose proof (digits_fuel_digits (S (Z.to_nat (Z.log2 n))) n Hn) as H.
  eapply Forall_forall in H; [|exact Hin]. by vm_compute in H.
Qed.

(** ** Properties: arguments *)

(** A port rule as it is written is read back, and every rule that is read has two
    ports of sixteen bits. *)
Theorem port_rule_roundtrip debug h g : u16 h -> u16 g ->
  parse_port_forward debug (digits h ++ [58] ++ digits g) = Ok {| host_port := h; guest_port := g |} /\
  forall s p, parse_port_forward debug s = Ok p -> u16 (host_port p) /\ u16 (guest_port p).
Proof.
  intros Hh Hg. split.
  - unfold parse_port_forward. change (digits h ++ [58] ++ digits g) with (digits h ++ 58 :: digits g).
    rewrite split_once_app by (apply digits_no_colon, Hh). cbn [ok_or mbind result_bind]. by rewrite !parse_uint_digits.
  - intros s p. unfold parse_port_forward. destruct (split_once 58 s) as [[a b]|]; [|done]. cbn.
    destruct (parse_uint 16 a) as [x|] eqn:Ea; [|done]. cbn. destruct (parse_uint 16 b) as [y|] eqn:Eb; [|done]. cbn.
    intros [= <-]. cbn. split; by eapply (parse_uint_range 16).
Qed.

(** ** Recording and replaying *)

Section Recording.
Variables (oc : bool) (txt : MetricsSnapshot -> text) (utf8 : text -> list Z) (lossy : list Z -> text)
          (parse_snapshot : text -> result text MetricsSnapshot).
Hypothesis lossy_utf8 : forall t, lossy (utf8 t) = t.
#[local] Notation reads_back := (reads_back txt parse_snapshot).
Variables (parse_api_error : text -> option text) (parse_value : text -> option Value) (status_text : Z -> text).

(** What there is besides the client: the answers a daemon will give, and the files. *)
Record Source := { answers : list (Z * text); files : gmap string text }.

(** A daemon that is where [where_] says and answers only who asks, with a GET, for the
    metrics of the machine of that name; everything else it does not find. *)
Section Daemon.
Variable where_ : VmIdArgs.

Definition is_metrics_request (r : HttpRequest) : bool :=
  match r_method r with GET => String.eqb (r_path r) ("/vms/" ++ id where_ ++ "/metrics") | _ => false end.

Definition next_answer (r : HttpRequest) (d : Source) : result text (Z * list (result text Frame)) * Source :=
  if is_metrics_request r then
    match answers d with
    | (st, body) :: l => (Ok (st, [Ok (Some (utf8 body))]), {| answers := l; files := files d |})
    | [] => (Err (str "connection closed"), d)
    end
  else (Ok (404, []), d).

Definition reach (found : bool) : result text () := if found then Ok () else Err (str "refused").
Definition tcp_reached (addr : string) (d : Source) : result text () := reach (bool_decide (tcp where_ = Some addr)).
Definition pipe_reached (name : string) (d : Source) : result text () := reach (bool_decide (pipe where_ = name)).
End Daemon.

(** A file that is opened for appending is there; what is appended comes last. *)
Definition append_to_file (p : string) (t : text) (d : Source) : result text () * Source :=
  (Ok (), {| answers := answers d; files := <[p := default [] (files d !! p) ++ t]> (files d) |}).
Definition open_file (p : string) (d : Source) : result text () * Source := append_to_file p [] d.
Definition file_text (p : string) (d : Source) : result text text := ok_or (files d !! p) (str "not found").

Definition record_from (daemon : VmIdArgs) (a : VmRecordArgs) (ticks : list Tick) : Cli () :=
  handle_vm_record (D := Source) (tcp_reached daemon) (pipe_reached daemon) (fun _ => Ok ()) Ok (next_answer daemon) lossy parse_api_error parse_value
    status_text parse_snapshot (fun s => Ok (txt s)) append_to_file open_file (fun d => (Ok (), d)) a ticks.

Definition timeline_from (a : VmTimelineArgs) : Cli () := handle_vm_timeline (D := Source) parse_snapshot oc file_text a.

Definition going (a : VmRecordArgs) (t : Tick) : Prop := interrupted t = false /\ limit_reached a t = None.

(** How a recording comes to its end at a tick: it is interrupted, its time is over,
    or the daemon's next answer is no success; [rest] are the answers before. *)
Definition ends (a : VmRecordArgs) (t : Tick) (rest rest' : list (Z * text)) : Prop :=
  ((interrupted t = true \/ is_Some (limit_reached a t)) /\ rest' = rest) \/
  (going a t /\ exists st body, rest = (st, body) :: rest' /\ is_success st = false).

Lemma unlines_app l k : unlines (l ++ k) = unlines l ++ unlines k.
Proof. unfold unlines. by rewrite fmap_app, concat_app. Qed.

#[local] Notation ask who := (request_to (D := Source) (tcp_reached who) (pipe_reached who) (fun _ => Ok ()) Ok (next_answer who) lossy).
#[local] Notation loop who := (record_loop (D := Source) (tcp_reached who) (pipe_reached who) (fun _ => Ok ()) Ok (next_answer who) lossy parse_api_error
  parse_value status_text parse_snapshot (fun s => Ok (txt s)) append_to_file).

Lemma ask_metrics_answer who st body l fs out :
  ask who who GET "/metrics" None {| world := {| answers := (st, body) :: l; files := fs |}; printed := out |} =
  (Ok (st, body), {| world := {| answers := l; files := fs |}; printed := out |}).
Proof.
  unfold request_to, pipe_request, step, connect. cbn [world].
  assert (do_request (fun _ => Ok ()) Ok (next_answer who) lossy GET (vm_uri (id who) "/metrics") None {| answers := (st, body) :: l; files := fs |} =
    (Ok (st, body), {| answers := l; files := fs |})) as E.
  { unfold do_request, do_request_stream, next_answer, is_metrics_request. cbn [r_method r_path caused map_err mbind result_bind]. unfold vm_uri.
    rewrite String.eqb_refl. cbn. by rewrite lossy_utf8. }
  destruct (tcp who) eqn:Ht; unfold tcp_reached, pipe_reached; rewrite bool_decide_eq_true_2 by done; cbn [reach caused map_err]; by rewrite E.
Qed.

Lemma record_loop_ends a t rest rest' ticks n fs out : ends a t rest rest' -> exists out',
  loop (record_of a) a (t :: ticks) n {| world := {| answers := rest; files := fs |}; printed := out |} =
  (Ok (Some n), {| world := {| answers := rest'; files := fs |}; printed := out' |}).
Proof.
  intros [[[H|[d H]] ->]|[[H1 H2] (st & body & -> & Hst)]]; cbn [record_loop].
  - rewrite H. by eexists.
  - rewrite H. destruct (interrupted t); by eexists.
  - rewrite H1, H2. unfold mbind at 1, cli_bind at 1. rewrite ask_metrics_answer, Hst. by eexists.
Qed.

(** Every poll that is answered with a snapshot appends its line, to one file. *)
Lemma record_loop_polls a snaps stop rest rest' : Forall reads_back snaps -> ends a stop rest rest' ->
  forall ticks n fs f out, Forall (going a) ticks -> length ticks = length snaps ->
  exists out', loop (record_of a) a (ticks ++ [stop]) n
      {| world := {| answers := ((fun s => (200, txt s)) <$> snaps) ++ rest; files := <[record_out a := f]> fs |}; printed := out |} =
    (Ok (Some (n + zlen snaps)),
     {| world := {| answers := rest'; files := <[record_out a := f ++ unlines (txt <$> snaps)]> fs |}; printed := out' |}).
Proof.
  intros HR He. induction HR as [|s snaps (Hp & _) HR IH]; intros [|t ticks] n fs f out Ht Hl; simpl in Hl; try done.
  - cbn [app fmap list_fmap]. change (unlines []) with (@nil Z). rewrite app_nil_r, Z.add_0_r. by apply record_loop_ends.
  - apply Forall_cons in Ht as [[H1 H2] Ht]. injection Hl as Hl. cbn [app fmap list_fmap record_loop]. rewrite H1, H2.
    erewrite cli_bind_ok by apply ask_metrics_answer. cbv beta iota. change (is_success 200) with true. cbv iota. rewrite Hp.
    destruct (IH ticks (n + 1) fs (f ++ txt s ++ [NL]) (out ++ [Part ([CR] ++ recorded (n + 1))]) Ht Hl) as [out' E].
    exists out'. change (unlines (txt s :: _)) with ((txt s ++ [NL]) ++ unlines (txt <$> snaps)).
    rewrite (assoc_L (++)). replace (n + zlen (s :: snaps)) with (n + 1 + zlen snaps) by (unfold zlen; simpl; lia).
    do 2 (erewrite cli_bind_ok by reflexivity).
    erewrite cli_bind_ok by (unfold effect, effect_of, step, append_to_file; cbn [world files answers]; rewrite lookup_insert_eq, insert_insert_eq; reflexivity).
    erewrite cli_bind_ok by reflexivity. exact E.
Qed.

(** C28: A recording is read back as it was taken.  [vm record] asks the daemon it is
    given for the metrics of its machine, until it is interrupted, its time is over or
    an answer is no success: it appends one line per snapshot it was answered to what
    the output file held, if there was one, and no other file changes; and
    [vm timeline] of that file is the timeline of all its samples, the old ones first.
    (The daemon of this program answers no poll with a snapshot: [metrics_never_shown].) *)
Theorem recording_timeline a ticks stop old snaps rest rest' fs t out :
  interval_ms a <> 0 -> Forall reads_back (old ++ snaps) -> default [] (fs !! record_out a) = unlines (txt <$> old) ->
  Forall (going a) ticks -> length ticks = length snaps -> ends a stop rest rest' -> timeline_run oc (old ++ snaps) = Ok t ->
  exists s', record_from (record_of a) a (ticks ++ [stop])
      {| world := {| answers := ((fun s => (200, txt s)) <$> snaps) ++ rest; files := fs |}; printed := out |} = (Ok (), s') /\
    world s' = {| answers := rest'; files := <[record_out a := unlines (txt <$> old ++ snaps)]> fs |} /\
    last (printed s') = Some (Line ([CHECK_MARK] ++ str " Finished recording " ++ digits (zlen snaps) ++ str " samples.")) /\
    timeline_from {| in_file := record_out a |} s' =
      (Ok (), {| world := world s'; printed := printed s' ++ [Line (str "Analyzing health timeline from " ++ str (record_out a) ++ str "..."); Line []] ++ timeline_report t |}).
Proof.
  intros Hi%Z.eqb_neq HR Ho Ht Hl He HT. pose proof (proj2 (proj1 (Forall_app _ _ _) HR)) as HR2. unfold record_from, handle_vm_record.
  destruct (record_loop_polls a snaps stop rest rest' HR2 He ticks 0 fs (unlines (txt <$> old))
    (out ++ [Line ([RECORD] ++ str " Recording metrics for VM " ++ in_quotes (id (record_of a)) ++ str " to " ++ in_quotes (record_out a) ++
              str " (interval: " ++ digits (interval_ms a) ++ str "ms)...")]) Ht Hl) as [out' E].
  eexists {| world := _; printed := out' ++ [_; _] |}. split; [|split; [|split]].
  - rewrite Hi. erewrite cli_bind_ok by (unfold effect, effect_of, step, open_file, append_to_file; cbn [world files answers]; rewrite app_nil_r, Ho; reflexivity).
    do 3 (erewrite cli_bind_ok by reflexivity). erewrite cli_bind_ok by exact E. reflexivity.
  - cbn [world]. by rewrite fmap_app, unlines_app.
  - cbn [printed]. change [?x; ?y] with ([x] ++ [y]). by rewrite (assoc_L (++)), last_snoc.
  - unfold timeline_from, handle_vm_timeline.
    erewrite cli_bind_ok by (unfold file_text; cbn [world files in_file]; rewrite lookup_insert_eq; reflexivity). erewrite cli_bind_ok by reflexivity.
    rewrite <- unlines_app, <- fmap_app, lines_unlines by (apply Forall_fmap; eapply Forall_impl; [exact HR|]; by intros s (_ & H & _)).
    rewrite (timeline_lines_printed oc txt parse_snapshot _ _ _ _ HR HT).
    erewrite cli_bind_ok by reflexivity. unfold show. cbn [world printed fmap list_fmap]. by rewrite !app_nil_r, <- (assoc_L (++)).
Qed.
End Recording.

(** ** Witnesses *)

Definition debug_demo (t : text) : text := [34] ++ t ++ [34].

Lemma port_rule_roundtrip_witness :
  parse_port_forward debug_demo (str "2222:22") = Ok {| host_port := 2222; guest_port := 22 |} /\
  parse_port_forward debug_demo (str "65536:22") = Err (str "invalid host port " ++ debug_demo (str "65536") ++ str ": must be 0-65535").
Proof.
  split; [|vm_compute; reflexivity].
  exact (proj1 (port_rule_roundtrip debug_demo 2222 22 ltac:(done) ltac:(done))).
Defined.

(** Snapshots printed as their times, and read back from the list of them all. *)
Definition time_only (s : MetricsSnapshot) : text := digits (timestamp_ms s).
Definition find_time (t : text) : result text MetricsSnapshot :=
  ok_or (List.find (fun s => bool_decide (time_only s = t)) spike) (str "expected value").

#[local] Instance line_ok_dec l : Decision (line_ok l).
Proof. unfold line_ok, no_nl. apply _. Defined.

Lemma spike_reads_back : Forall (reads_back time_only find_time) spike.
Proof.
  assert (spike = (fun i => default spike_end (spike !! i)) <$> seq 0 8) as -> by (vm_compute; reflexivity).
  repeat (apply Forall_cons; split; [split; [vm_compute; reflexivity|split; [|vm_compute; reflexivity]];
    apply (bool_decide_eq_true_1 (line_ok _)); vm_compute; reflexivity|]). constructor.
Qed.

Definition record_demo : VmRecordArgs :=
  {| record_of := {| id := "web"; pipe := "hitz"; tcp := None |}; record_out := "web.jsonl"; interval_ms := 1000; duration_secs := Some 60 |}.
Definition tick (e : Z) : Tick := {| interrupted := false; elapsed_secs := e |}.

(** Three snapshots are appended to five that were there; then the daemon answers with
    503, or, where it does so at once, nothing is. *)
Lemma recording_timeline_witness :
  let fs : gmap string text := <["web.jsonl"%string := unlines (time_only <$> take 5 spike)]> {[ "other"%string := str "kept" ]} in
  let run ticks answered := record_from time_only (fun t => t) (fun b => b) find_time (fun _ => None) (fun _ => None) digits (record_of record_demo) record_demo
    ticks {| world := {| answers := answered; files := fs |}; printed := [] |} in
  (exists s' t, run ([tick 0; tick 1; tick 2] ++ [tick 3]) (((fun s => (200, time_only s)) <$> drop 5 spike) ++ [(503, [])]) = (Ok (), s') /\
    timeline_run true spike = Ok t /\ files (world s') !! "web.jsonl"%string = Some (unlines (time_only <$> spike)) /\
    files (world s') !! "other"%string = Some (str "kept")) /\
  exists s', run [tick 0] [(503, str "no metrics")] = (Ok (), s') /\ files (world s') = fs.
Proof.
  cbv zeta. set (fs := <["web.jsonl"%string := _]> _).
  assert (Hfs : fs !! "web.jsonl"%string = Some (unlines (time_only <$> take 5 spike))) by apply lookup_insert_eq.
  assert (Hd : default [] (fs !! "web.jsonl"%string) = unlines (time_only <$> take 5 spike)) by exact (f_equal (default []) Hfs).
  destruct (timeline_run_ok true spike spike_ok) as (t & Et & _). split.
  - destruct (recording_timeline true time_only (fun t => t) (fun b => b) find_time ltac:(done) (fun _ => None) (fun _ => None) digits
      record_demo [tick 0; tick 1; tick 2] (tick 3) (take 5 spike) (drop 5 spike) [(503, [])] [] fs t []) as (s' & E & W & _).
    + done.
    + rewrite take_drop. exact spike_reads_back.
    + exact Hd.
    + repeat constructor.
    + reflexivity.
    + right. split; [split; reflexivity|]. exists 503, []. split; reflexivity.
    + rewrite take_drop. exact Et.
    + exists s', t. split; [exact E|]. split; [exact Et|]. rewrite W, take_drop. cbn [files]. split; [apply lookup_insert_eq|].
      unfold fs. rewrite !lookup_insert_ne by done. apply lookup_singleton_eq.
  - destruct (timeline_run_ok true (take 5 spike) (Forall_take _ 5 _ spike_ok)) as (t5 & Et5 & _).
    destruct (recording_timeline true time_only (fun t => t) (fun b => b) find_time ltac:(done) (fun _ => None) (fun _ => None) digits
      record_demo [] (tick 0) (take 5 spike) [] [(503, str "no metrics")] [] fs t5 []) as (s' & E & W & _).
    + done.
    + rewrite app_nil_r. apply Forall_take, spike_reads_back.
    + exact Hd.
    + constructor.
    + reflexivity.
    + right. split; [split; reflexivity|]. exists 503, (str "no metrics"). split; reflexivity.
    + rewrite app_nil_r. exact Et5.
    + exists s'. split; [exact E|]. rewrite W, app_nil_r. cbn [files]. by apply insert_id.
Defined.
