(* ===== verification/CliDaemon.v ===== *)
(** * The client over the daemon

    The commands of [Cli.v] with the router of [Router.v] behind the connection:
    what a command does to the daemon's machines, and what it prints.  A response's
    content is sent as frames that arrive whole; a URI is split into path and query
    as RFC 3986 says, and only of URIs of unreserved characters is that assumed. *)

From Stdlib Require Import String Ascii.
From stdpp Require Import gmap strings list.
From S2P Require Import Prelude Hal Memory PageTables Cpio Ethernet Config RunLoop SerialBuf StateStore VmManager.
From S2P Require Import Float Text GuestProc Analytics Reports Router CliBase Cli.

(** ** URIs *)

(** RFC 3986's unreserved characters, and those with slashes. *)
Definition unreserved (c : ascii) : bool :=
  let n := Z.of_nat (nat_of_ascii c) in
  (48 <=? n) && (n <=? 57) || (65 <=? n) && (n <=? 90) || (97 <=? n) && (n <=? 122) ||
  (n =? 45) || (n =? 46) || (n =? 95) || (n =? 126).

Fixpoint string_forall (p : ascii -> bool) (s : string) : bool :=
  match s with EmptyString => true | String c s' => p c && string_forall p s' end.

Definition plain_path (s : string) : bool := string_forall (fun c => unreserved c || Ascii.eqb c slash) s.

(** An id a URI can carry as it is. *)
Definition plain_id (i : string) : Prop := i <> ""%string /\ string_forall unreserved i = true.

Lemma string_forall_app p a b : string_forall p (a ++ b) = string_forall p a && string_forall p b.
Proof. induction a as [|c a IH]; [done|]. change (String c a ++ b)%string with (String c (a ++ b)). simpl. by rewrite IH, andb_assoc. Qed.

Lemma string_forall_weaken p q s : (forall c, p c = true -> q c = true) -> string_forall p s = true -> string_forall q s = true.
Proof. intros H. induction s as [|c s IH]; [done|]. simpl. rewrite !andb_true_iff. naive_solver. Qed.

Lemma string_app_assoc a b c : ((a ++ b) ++ c)%string = (a ++ (b ++ c))%string.
Proof. induction a as [|d a IH]; [done|]. change (String d ((a ++ b) ++ c) = String d (a ++ (b ++ c)))%string. by rewrite IH. Qed.

Lemma plain_segment i : plain_id i -> id_segment i.
Proof.
  intros [H Hi]. split; [done|]. clear H. induction i as [|c i IH]; [done|]. simpl in Hi |- *. apply andb_true_iff in Hi as [Hc Hi].
  destruct (Ascii.eqb_spec c slash) as [->|_]; [done|]. by rewrite IH.
Qed.

Lemma plain_uri i suffix : plain_id i -> plain_path suffix = true -> plain_path (vm_uri i suffix) = true.
Proof.
  intros [_ Hi] Hs. unfold plain_path, vm_uri in *. rewrite !string_forall_app, Hs, andb_true_r. apply andb_true_iff. split; [done|].
  eapply string_forall_weaken, Hi. intros c ->. done.
Qed.

Section Composition.
Context {Jc : Json VmConfig} {Jp : Json PersistedState} {Ji : Json VmInfo} {Jl : Json (list VmInfo)}.
Variables (parse_create : string -> result string VmConfig) (parse_action : string -> result string VmAction)
          (parse_clone : string -> result string string).
Variables (hp : string -> bool) (path_exists : string -> bool) (is_separator : ascii -> bool).
Variable others : nat -> VmManager -> VmManager.
#[local] Notation route := (route parse_create parse_action parse_clone hp path_exists is_separator others).

(** The path a server reads in a URI, and a response on its way. *)
Variables (uri_path : string -> result text string) (encode : Content -> list (result text Frame)) (from_utf8_lossy : list Z -> text).
Hypothesis uri_plain : forall p, plain_path p = true -> uri_path p = Ok p.
Hypothesis uri_query : forall p q, plain_path p = true -> string_forall unreserved q = true -> uri_path (p ++ String "?" q)%string = Ok p.

Definition is_stream (c : Content) : bool := match c with SerialStream _ _ => true | _ => false end.
Hypothesis arrives : forall c, is_stream c = false -> is_ok (collect_body (encode c)) = true.

Definition reply_text (c : Content) : text := from_utf8_lossy (default [] (res_ok (collect_body (encode c)))).

(** A connected daemon. *)
Definition serve (r : HttpRequest) (m : VmManager) : result text (Z * list (result text Frame)) * VmManager :=
  let '(resp, m', _) := route r m in (Ok (status resp, encode (content resp)), m').

Variables (parse_api_error : text -> option text) (parse_value : text -> option Value) (status_text : Z -> text).
#[local] Notation there := (fun _ _ => Ok ()).
#[local] Notation at_daemon f := (f VmManager there there (fun _ => Ok ()) uri_path serve from_utf8_lossy).
#[local] Notation error_text := (format_error_response parse_api_error parse_value status_text).

Lemma ask_daemon a me suffix body p m out resp m' sp : uri_path (vm_uri (id a) suffix) = Ok p ->
  route {| r_method := me; r_path := p; r_body := Ok (default ""%string body) |} m = (resp, m', sp) -> is_stream (content resp) = false ->
  at_daemon (@request_to) a me suffix body {| world := m; printed := out |} =
  (Ok (status resp, reply_text (content resp)), {| world := m'; printed := out |}).
Proof.
  intros Hu Hr Hc. unfold request_to, pipe_request, step, connect. cbn [world].
  assert (do_request (fun _ => Ok ()) uri_path serve from_utf8_lossy me (vm_uri (id a) suffix) body m =
    (Ok (status resp, reply_text (content resp)), m')) as E.
  { unfold do_request, do_request_stream. cbn. rewrite Hu. cbn. unfold serve. rewrite Hr. cbn.
    apply arrives in Hc. unfold reply_text. by destruct (collect_body _). }
  destruct (tcp a); cbn; by rewrite E.
Qed.

Lemma action_printed st resp ok prefix (s : Session (D := VmManager)) :
  print_action_result parse_api_error parse_value status_text st resp ok prefix s =
  (Ok (), {| world := world s; printed := printed s ++ [Line (CLEAR ++ if is_success st then ok else error_text st resp prefix)] |}).
Proof. unfold print_action_result, print_error_response. by destruct (is_success st). Qed.

Lemma error_status_range e : 400 <= error_status e <= 500.
Proof. destruct e as [| | |[]| |]; by vm_compute. Qed.

Lemma error_not_success st : 400 <= st -> is_success st = false.
Proof. intros H. unfold is_success. rewrite (proj2 (Z.ltb_ge st 300)) by lia. apply andb_false_r. Qed.

Lemma create_vm_fresh i c m info m' : create_vm hp path_exists is_separator i c m = (Ok info, m') -> vms m !! i = None.
Proof.
  unfold create_vm, create_insert. destruct (bad_id i); [done|]. destruct (validate_config _ _ c); [|done].
  by destruct (vms m !! i).
Qed.

Lemma create_vm_table i c m e m' : create_vm hp path_exists is_separator i c m = (Err e, m') -> vms m' = vms m.
Proof. exact (create_vm_all_or_nothing hp path_exists is_separator i c m (Err e) m'). Qed.

Lemma vm_uri_path i : vm_uri i "" = vm_path i None.
Proof. reflexivity. Qed.

(** What a creation answers: the machine is new and in the table, or the request was
    refused: a client's error left the daemon as it was, a failure of the store the
    table, and only an answer that does not print hides a machine that was made. *)
Lemma create_answer i c body m resp m' sp : id_segment i -> parse_create body = Ok c ->
  route {| r_method := PUT; r_path := vm_uri i ""; r_body := Ok body |} m = (resp, m', sp) ->
  is_stream (content resp) = false /\
  ((status resp = CREATED /\ vms m !! i = None /\ is_ok (validate_config path_exists is_separator c) = true /\
    vms m' = <[i := new_entry c Created]> (vms m)) \/
   (400 <= status resp /\ (status resp < 500 -> m' = m) /\
    (vms m' = vms m \/ is_err (to_json (to_info (new_entry c Created) i)) = true /\ vms m' = <[i := new_entry c Created]> (vms m)))).
Proof.
  intros Hi Hp E. rewrite vm_uri_path, route_vm_path in E by done. unfold answer, route_vm in E. cbn [r_method] in E.
  unfold handle_create, read_json, read_body in E. cbn [r_body map_err mbind result_bind] in E. rewrite Hp in E. cbn [map_err] in E.
  destruct (create_vm hp path_exists is_separator i c m) as [[info|e] m1] eqn:EC; cbn in E.
  - pose proof (create_vm_fresh _ _ _ _ _ EC). apply create_vm_accepted in EC as (-> & V & _ & HV).
    unfold json_response in E. destruct (to_json _) eqn:Ej; injection E as <- <- _; (split; [done|]); [by left|right; split; [done|]].
    split; [done|]. right. by split.
  - injection E as <- <- _. split; [done|]. right. pose proof (error_status_range e). split; [simpl; lia|]. split; [|left; by eapply create_vm_table].
    simpl. intros H1. eapply create_vm_refused; [exact EC|]. unfold INTERNAL_SERVER_ERROR. lia.
Qed.

(** What the options of [vm create] ask for, option by option. *)
Record as_asked (o : MachineArgs) (c : VmConfig) : Prop := {
  asked_kernel : kernel_path c = kernel o;
  asked_initramfs : initramfs_path c = initramfs o;
  asked_disk : disk_path c = disk o;
  asked_ram : ram_mib c = ram o;
  asked_cpus : cpus c = arg_cpus o;
  asked_cmdline : cmdline c = Some (arg_cmdline o);
  asked_ports : ports c = arg_ports o;
  asked_net : if net_flag o then exists n, net c = Some n /\ host_ip n = arg_host_ip o /\ guest_ip n = arg_guest_ip o /\
                                            net_mac n = mac o /\ adapter_name n = None
              else net c = None;
  asked_cid : guest_cid c = 3;
  asked_agent : guest_agent c = AgentAuto;
}.

Lemma config_asked o c : as_asked o c -> config_of o = c.
Proof.
  intros []. destruct c. cbn in *. subst. unfold config_of, net_config_of. f_equal. destruct (net_flag o); [|done].
  destruct asked_net0 as ([] & -> & <- & <- & <- & <-). done.
Qed.

(** ** Properties *)

Variables (print_create : VmConfig -> result text string).

(** C24: [vm create] over the daemon.  When it says the machine was created, the name
    was free, and the table has, besides what it had, a created machine with the
    kernel, initramfs, disk, memory, processors, command line, addresses and ports of
    the options.  Otherwise it prints an error and the
    table is as it was (under a name in use, that machine is still there), except that a
    machine whose answer does not serialise was made all the same; and when the error is
    the client's, nothing at all has changed. *)
Theorem create_command a m out body c (i := id (create_of a)) :
  plain_id i -> as_asked (machine a) c -> print_create c = Ok body -> parse_create body = Ok c ->
  exists (line : text) m', at_daemon (@handle_vm_create) parse_api_error parse_value status_text print_create a {| world := m; printed := out |} =
    (Ok (), {| world := m'; printed := out ++ [Part ([HOURGLASS; SP] ++ str "Creating VM " ++ in_quotes i ++ str "..."); Line (CLEAR ++ line)] |}) /\
    ((line = [CHECK_MARK] ++ str " Successfully created VM " ++ str i /\ vms m !! i = None /\
      is_ok (validate_config path_exists is_separator c) = true /\ vms m' = <[i := new_entry c Created]> (vms m)) \/
     (exists st resp, line = error_text st resp (str "Failed to create VM " ++ str i) /\ 400 <= st /\ (st < 500 -> m' = m) /\
       (vms m' = vms m \/ is_err (to_json (to_info (new_entry c Created) i)) = true /\ vms m' = <[i := new_entry c Created]> (vms m)))).
Proof.
  intros Hi Ha Hb Hp. apply config_asked in Ha.
  set (uri := vm_uri i ""). destruct (route {| r_method := PUT; r_path := uri; r_body := Ok body |} m) as [[resp m'] sp] eqn:E.
  pose proof (create_answer i c body m resp m' sp (plain_segment i Hi) Hp E) as [Hs HA].
  eexists _, m'. split.
  - unfold handle_vm_create. erewrite cli_bind_ok by reflexivity. fold i. rewrite Ha, Hb.
    erewrite cli_bind_ok by reflexivity. cbn [world].
    erewrite cli_bind_ok; [|eapply (ask_daemon (create_of a) PUT "" (Some body)); [apply uri_plain, plain_uri; [exact Hi|done]|exact E|exact Hs]].
    cbv beta iota. rewrite action_printed. cbn [world printed]. rewrite <- (assoc_L (++)). reflexivity.
  - destruct HA as [(Hst & HN & HV & HT)|(Hst & HT & HW)].
    + left. by rewrite Hst.
    + right. exists (status resp), (reply_text (content resp)). by rewrite error_not_success.
Qed.

(** A query hides in an id: [vm delete] of a name with a question mark deletes the
    machine named by what is before it, and reports the whole name deleted. *)
Theorem query_deletes_another a i q m out : plain_id i -> string_forall unreserved q = true -> id a = (i ++ String "?" q)%string ->
  exists line : text, at_daemon (@handle_vm_delete) parse_api_error parse_value status_text a {| world := m; printed := out |} =
    (Ok (), {| world := (delete_vm hp i m).2; printed := out ++ [Part ([HOURGLASS; SP] ++ str "Deleting VM " ++ in_quotes (id a) ++ str "..."); Line (CLEAR ++ line)] |}) /\
    (is_ok (delete_vm hp i m).1 = true -> line = [CHECK_MARK] ++ str " Successfully deleted VM " ++ str (id a)) /\
    (forall e, vms m !! i = Some e -> e_state e <> Running -> vms (delete_vm hp i m).2 !! i = None).
Proof.
  intros Hi Hq Ha. destruct (delete_vm hp i m) as [r m'] eqn:ED.
  assert (route {| r_method := DELETE; r_path := vm_uri i ""; r_body := Ok ""%string |} m =
    (respond (_ ← r; Ok {| status := NO_CONTENT; content := NoBody |}), m', None)) as E.
  { rewrite vm_uri_path, route_vm_path by by apply plain_segment. unfold answer, route_vm, handle_delete. cbn [r_method]. by rewrite ED. }
  assert (uri_path (vm_uri (id a) "") = Ok (vm_uri i "")) as Hu.
  { rewrite Ha. unfold vm_uri. rewrite !string_app_nil. change ("/vms/" ++ i ++ String "?" q)%string with (("/vms/" ++ "") ++ (i ++ String "?" q))%string.
    rewrite <- string_app_assoc. apply uri_query; [|done]. by rewrite <- (string_app_nil ("/vms/" ++ i)), string_app_assoc; apply plain_uri. }
  eexists. split; [|split].
  - unfold handle_vm_delete. erewrite cli_bind_ok by reflexivity. cbn [world].
    erewrite cli_bind_ok; [|eapply (ask_daemon a DELETE "" None); [exact Hu|exact E|by destruct r]].
    cbv beta iota. rewrite action_printed. cbn [world printed]. rewrite <- (assoc_L (++)). reflexivity.
  - by destruct r.
  - intros e He Hs. cbn. by rewrite (delete_vm_removes hp i m r m' e He Hs ED), lookup_delete_eq.
Qed.

Variables (parse_snapshot : text -> result text MetricsSnapshot) (print_snapshot print_snapshot_pretty : MetricsSnapshot -> result text text)
          (write_file append_line : string -> text -> VmManager -> result text () * VmManager).

Definition metrics_reply : Content := ErrorBody (Text metrics_unavailable).

(** The line about an error the daemon explains. *)
Definition explained_line (prefix : text) : text := CLEAR ++ [CROSS_MARK; SP] ++ prefix ++ str ": " ++ str metrics_unavailable.

Lemma ask_metrics a m out : plain_id (id a) ->
  at_daemon (@request_to) a GET "/metrics" None {| world := m; printed := out |} =
  (Ok (SERVICE_UNAVAILABLE, reply_text metrics_reply), {| world := m; printed := out |}).
Proof.
  intros Hi. eapply (ask_daemon a GET "/metrics" None (vm_uri (id a) "/metrics") m out (error_response SERVICE_UNAVAILABLE (Text metrics_unavailable)) m None);
    [by apply uri_plain, plain_uri| |done].
  change (vm_uri (id a) "/metrics") with (vm_path (id a) (Some "metrics"%string)). rewrite route_vm_path by by apply plain_segment. done.
Qed.

Lemma error_explained st prefix : parse_api_error (reply_text metrics_reply) = Some (str metrics_unavailable) ->
  error_text st (reply_text metrics_reply) prefix = explained_line prefix.
Proof. intros H. unfold format_error_response. by rewrite H. Qed.

(** No command ever shows a measurement: whatever the machines and whatever the
    snapshots, [vm metrics] and [vm export-metrics] print that metrics are not
    available and write no file, and [vm record] ends at its first poll with no
    sample. *)
Theorem metrics_never_shown a m out export record t ticks :
  plain_id (id a) -> parse_api_error (reply_text metrics_reply) = Some (str metrics_unavailable) ->
  export_of export = a -> record_of record = a -> going record t ->
  at_daemon (@handle_vm_metrics) parse_api_error parse_value status_text parse_snapshot a {| world := m; printed := out |} =
    (Ok (), {| world := m; printed := out ++ [Part ([HOURGLASS; SP] ++ str "Fetching metrics for VM " ++ in_quotes (id a) ++ str "..."); Part CLEAR;
      Line (CLEAR ++ explained_line (str "Failed to get VM " ++ str (id a) ++ str " metrics"))] |}) /\
  at_daemon (@handle_vm_export_metrics) parse_api_error parse_value status_text parse_snapshot print_snapshot_pretty write_file export
      {| world := m; printed := out |} =
    (Ok (), {| world := m; printed := out ++ [Part ([HOURGLASS; SP] ++ str "Exporting metrics for VM " ++ in_quotes (id a) ++ str "...");
      Line (CLEAR ++ explained_line (str "Failed to export VM " ++ str (id a) ++ str " metrics"))] |}) /\
  at_daemon (@record_loop) parse_api_error parse_value status_text parse_snapshot print_snapshot append_line record (t :: ticks) 0
      {| world := m; printed := out |} =
    (Ok (Some 0), {| world := m; printed := out ++ [ErrLine ([NL] ++ explained_line (str "Error"))] |}).
Proof.
  intros Hi Hp He Hr [H1 H2]. split_and!.
  - unfold handle_vm_metrics. erewrite cli_bind_ok by reflexivity. cbn [world]. erewrite cli_bind_ok by by apply ask_metrics.
    cbv beta iota. erewrite cli_bind_ok by reflexivity. change (is_success SERVICE_UNAVAILABLE) with false. cbv iota.
    unfold print_error_response, show. rewrite error_explained by done. cbn [world printed]. by rewrite <- !(assoc_L (++)).
  - unfold handle_vm_export_metrics. erewrite cli_bind_ok by reflexivity. cbn [world]. rewrite He. erewrite cli_bind_ok by by apply ask_metrics.
    cbv beta iota. change (is_success SERVICE_UNAVAILABLE) with false. cbv iota. rewrite action_printed.
    change (is_success SERVICE_UNAVAILABLE) with false. cbv iota. rewrite error_explained by done. cbn [world printed]. by rewrite <- !(assoc_L (++)).
  - cbn [record_loop]. rewrite H1, H2, Hr. erewrite cli_bind_ok by by apply ask_metrics. cbv beta iota.
    change (is_success SERVICE_UNAVAILABLE) with false. cbv iota. erewrite cli_bind_ok by reflexivity. by rewrite error_explained.
Qed.
End Composition.

(** ** Witnesses *)

(** A URI's path ends at a question mark. *)
Fixpoint demo_path (s : string) : string :=
  match s with
  | EmptyString => EmptyString
  | String c s' => if Ascii.eqb c "?"%char then EmptyString else String c (demo_path s')
  end.

Lemma demo_path_plain p : plain_path p = true -> demo_path p = p.
Proof.
  unfold plain_path. induction p as [|c p IH]; [done|]. cbn [string_forall demo_path]. intros [Hc Hp]%andb_true_iff.
  destruct (Ascii.eqb_spec c "?") as [->|_]; [done|]. by rewrite IH.
Qed.

Lemma demo_path_query p q : plain_path p = true -> demo_path (p ++ String "?" q) = p.
Proof.
  unfold plain_path. induction p as [|c p IH]; [done|]. change (String c p ++ String "?" q)%string with (String c (p ++ String "?" q)).
  cbn [string_forall demo_path]. intros [Hc Hp]%andb_true_iff. destruct (Ascii.eqb_spec c "?") as [->|_]; [done|]. by rewrite IH.
Qed.

Definition demo_uri (s : string) : result text string := Ok (demo_path s).

Definition demo_encode (c : Content) : list (result text Frame) :=
  [Ok (Some (match c with Json_ s => str s | ErrorBody (Text s) => str s | _ => [] end))].

Lemma demo_arrives c : is_stream c = false -> is_ok (collect_body (demo_encode c)) = true.
Proof. done. Qed.

Definition web : VmIdArgs := {| id := "web"; pipe := "hitz"; tcp := None |}.
Definition web_query : VmIdArgs := {| id := "web?old"; pipe := "hitz"; tcp := None |}.

Definition web_machine : MachineArgs :=
  {| kernel := "vmlinux"; initramfs := Some "initrd.img"; disk := Some "web.img"; ram := 512; arg_cpus := 4; arg_cmdline := "root=/dev/vda";
     net_flag := true; arg_host_ip := "172.20.0.1/24"; arg_guest_ip := "172.20.0.2/24"; mac := Some "02:00:00:00:00:07";
     arg_ports := [{| host_port := 2222; guest_port := 22 |}] |}.
Definition web_config : VmConfig :=
  {| kernel_path := "vmlinux"; initramfs_path := Some "initrd.img"; disk_path := Some "web.img"; ram_mib := 512; cpus := 4;
     cmdline := Some "root=/dev/vda";
     net := Some {| net_mac := Some "02:00:00:00:00:07"; host_ip := "172.20.0.1/24"; guest_ip := "172.20.0.2/24"; adapter_name := None |};
     ports := [{| host_port := 2222; guest_port := 22 |}]; guest_cid := 3; guest_agent := AgentAuto |}.

Lemma web_as_asked : as_asked web_machine web_config.
Proof. split; try reflexivity. by eexists. Qed.

Definition web_json : Json VmConfig :=
  {| to_json := fun c => if decide (c = web_config) then Ok "{web}"%string else Err "not UTF-8"%string;
     from_json := fun s => if String.eqb s "{web}" then Some web_config else None |}.
Definition print_web (c : VmConfig) : result text string := map_err (fun e => str e) (@to_json _ web_json c).
Definition parse_web (s : string) : result string VmConfig := ok_or (@from_json _ web_json s) "expected value"%string.

Definition no_api_error (t : text) : option text := Some t.
Definition no_value (t : text) : option Value := None.

Definition demo_serve : HttpRequest -> VmManager -> result text (Z * list (result text Frame)) * VmManager :=
  @serve web_json state_json_demo info_json_demo list_json_demo parse_web action_demo clone_demo
    no_prefix any_path VmManager.slash (fun _ m => m) demo_encode.

#[local] Notation there := (fun _ _ => Ok ()).
#[local] Notation at_demo f := (f VmManager there there (fun _ => Ok ()) demo_uri demo_serve (fun b => b)).
#[local] Notation demo f := (f web_json state_json_demo info_json_demo list_json_demo parse_web action_demo clone_demo
  no_prefix any_path VmManager.slash (fun _ m => m) demo_uri demo_encode (fun b => b)).

Definition created_web : VmManager :=
  (at_demo (@handle_vm_create) no_api_error no_value digits print_web {| create_of := web; machine := web_machine |}
    {| world := empty_manager new_store; printed := [] |}).2.(world).

(** Created once; refused when it is asked for again. *)
Lemma create_command_witness :
  (exists (line : text) m', at_demo (@handle_vm_create) no_api_error no_value digits print_web {| create_of := web; machine := web_machine |}
      {| world := empty_manager new_store; printed := [] |} =
    (Ok (), {| world := m'; printed := [Part ([HOURGLASS; SP] ++ str "Creating VM " ++ in_quotes "web" ++ str "..."); Line (CLEAR ++ line)] |}) /\
    line = [CHECK_MARK] ++ str " Successfully created VM web" /\ e_config <$> (vms m' !! "web"%string) = Some web_config) /\
  exists line : text, at_demo (@handle_vm_create) no_api_error no_value digits print_web {| create_of := web; machine := web_machine |}
      {| world := created_web; printed := [] |} =
    (Ok (), {| world := created_web; printed := [Part ([HOURGLASS; SP] ++ str "Creating VM " ++ in_quotes "web" ++ str "..."); Line (CLEAR ++ line)] |}) /\
    line <> [CHECK_MARK] ++ str " Successfully created VM web".
Proof.
  split.
  - destruct (demo (@create_command) (fun p H => f_equal Ok (demo_path_plain p H)) demo_arrives no_api_error no_value digits print_web
      {| create_of := web; machine := web_machine |} (empty_manager new_store) [] "{web}"%string web_config
      ltac:(by split) web_as_asked ltac:(vm_compute; reflexivity) ltac:(vm_compute; reflexivity)) as (line & m' & E & H).
    exists line, m'. split; [exact E|]. destruct H as [(-> & _ & _ & ->)|(st & resp & -> & _)].
    + split; [reflexivity|]. by rewrite lookup_insert_eq.
    + exfalso. vm_compute in E. congruence.
  - destruct (demo (@create_command) (fun p H => f_equal Ok (demo_path_plain p H)) demo_arrives no_api_error no_value digits print_web
      {| create_of := web; machine := web_machine |} created_web [] "{web}"%string web_config
      ltac:(by split) web_as_asked ltac:(vm_compute; reflexivity) ltac:(vm_compute; reflexivity)) as (line & m' & E & H).
    assert (Hv : m' = created_web) by (apply (f_equal (fun p => world p.2)) in E; cbn [snd world] in E; rewrite <- E; vm_compute; reflexivity).
    exists line. rewrite Hv in E. split; [exact E|]. destruct H as [(_ & HN & _)|(st & resp & -> & _)]; [exfalso; vm_compute in HN; discriminate HN|].
    unfold format_error_response, CLEAR. discriminate.
Defined.

Lemma query_deletes_another_witness : exists line : text,
  at_demo (@handle_vm_delete) no_api_error no_value digits web_query {| world := created_web; printed := [] |} =
    (Ok (), {| world := (delete_vm no_prefix "web" created_web).2;
      printed := [Part ([HOURGLASS; SP] ++ str "Deleting VM " ++ in_quotes "web?old" ++ str "..."); Line (CLEAR ++ line)] |}) /\
  line = [CHECK_MARK] ++ str " Successfully deleted VM web?old" /\ vms (delete_vm no_prefix "web" created_web).2 !! "web"%string = None.
Proof.
  destruct (demo (@query_deletes_another) (fun p q H _ => f_equal Ok (demo_path_query p q H))
    demo_arrives no_api_error no_value digits web_query "web"%string "old"%string created_web [] ltac:(by split) eq_refl eq_refl)
    as (line & E & H1 & H2).
  exists line. split; [exact E|]. split; [apply H1; vm_compute; reflexivity|].
  apply (H2 (new_entry web_config Created)); [vm_compute; reflexivity|done].
Defined.

Lemma metrics_never_shown_witness :
  at_demo (@record_loop) no_api_error no_value digits find_time (fun s => Ok (time_only s)) (fun _ _ m => (Ok (), m)) record_demo [tick 0; tick 1] 0
    {| world := created_web; printed := [] |} =
  (Ok (Some 0), {| world := created_web; printed := [ErrLine ([NL] ++ explained_line (str "Error"))] |}).
Proof.
  apply (demo (@metrics_never_shown) (fun p H => f_equal Ok (demo_path_plain p H)) demo_arrives no_api_error no_value digits find_time
    (fun s => Ok (time_only s)) (fun s => Ok (time_only s)) (fun _ _ m => (Ok (), m)) (fun _ _ m => (Ok (), m))
    (record_of record_demo) created_web [] {| export_of := record_of record_demo; export_out := "" |} record_demo (tick 0) [tick 1]);
    [by split|reflexivity|reflexivity|reflexivity|by split].
Defined.
