(* ===== verification/PortForward.v ===== *)
(** * Port forwarding

    [hitz-daemon/src/port_forward.rs]: the listeners of a machine's port rules, the
    relays they spawn, and what is left when the manager is dropped.  A task runs
    from one [await] to the next without interruption, which is a step here; an
    abort takes effect at an [await], so that a task that is asked to end may first
    finish the step it is in.  Relays and listeners are named by their positions. *)

From stdpp Require Import list.
From S2P Require Import Prelude Config.

(** ** State *)

(** A listener waits for a connection, or for the lock to hand over the relay it
    spawned. *)
Inductive ListenerTask := Accepting | HandingOver (relay : nat) | ListenerEnded.
Record Listener := { host : Z; guest : Z; task : ListenerTask; l_abort : bool }.

Inductive RelayTask := Connecting | Copying | RelayDone | RelayAborted.
#[export] Instance RelayTask_eq_dec : EqDecision RelayTask.
Proof. solve_decision. Defined.
Record Relay := { served_port : Z; r_task : RelayTask; r_abort : bool }.

Record PortForwardManager := {
  listeners : list Listener;
  relays : list Relay;
  relay_handles : list nat;
  connections_total : Z;
  relays_active : Z;
  dropped : bool;
}.

(** [PortForwardManager::start]: a rule whose port does not bind is skipped. *)
Definition listen (p : PortForward) : Listener :=
  {| host := host_port p; guest := guest_port p; task := Accepting; l_abort := false |}.

Definition start (binds : PortForward -> bool) (rules : list PortForward) : PortForwardManager :=
  {| listeners := listen <$> List.filter binds rules; relays := []; relay_handles := []; connections_total := 0;
     relays_active := 0; dropped := false |}.

(** ** Steps *)

Definition set_task (t : ListenerTask) (l : Listener) : Listener :=
  {| host := host l; guest := guest l; task := t; l_abort := l_abort l |}.
Definition abort_listener (l : Listener) : Listener :=
  {| host := host l; guest := guest l; task := task l; l_abort := true |}.
Definition set_relay (t : RelayTask) (r : Relay) : Relay := {| served_port := served_port r; r_task := t; r_abort := r_abort r |}.
Definition abort_relay (r : Relay) : Relay := {| served_port := served_port r; r_task := r_task r; r_abort := true |}.

(** A connection is accepted: both counters go up and the relay is spawned. *)
Definition accept (i : nat) (m : PortForwardManager) : PortForwardManager :=
  match listeners m !! i with
  | Some l =>
      {| listeners := alter (set_task (HandingOver (length (relays m)))) i (listeners m);
         relays := relays m ++ [{| served_port := host l; r_task := Connecting; r_abort := false |}];
         relay_handles := relay_handles m; connections_total := connections_total m + 1;
         relays_active := relays_active m + 1; dropped := dropped m |}
  | None => m
  end.

Definition hand_over (i k : nat) (m : PortForwardManager) : PortForwardManager :=
  {| listeners := alter (set_task Accepting) i (listeners m); relays := relays m; relay_handles := relay_handles m ++ [k];
     connections_total := connections_total m; relays_active := relays_active m; dropped := dropped m |}.

Definition end_listener (i : nat) (m : PortForwardManager) : PortForwardManager :=
  {| listeners := alter (set_task ListenerEnded) i (listeners m); relays := relays m; relay_handles := relay_handles m;
     connections_total := connections_total m; relays_active := relays_active m; dropped := dropped m |}.

(** A relay moves on; [active] is what becomes of the counter. *)
Definition relay_to (k : nat) (t : RelayTask) (active : Z) (m : PortForwardManager) : PortForwardManager :=
  {| listeners := listeners m; relays := alter (set_relay t) k (relays m); relay_handles := relay_handles m;
     connections_total := connections_total m; relays_active := relays_active m + active; dropped := dropped m |}.

(** [drop]: every listener is aborted, and every relay handed over, unless the lock
    is not to be had. *)
Definition drop_manager (lock_free : bool) (m : PortForwardManager) : PortForwardManager :=
  {| listeners := abort_listener <$> listeners m;
     relays := if lock_free then imap (fun k r => if bool_decide (k ∈ relay_handles m) then abort_relay r else r) (relays m) else relays m;
     relay_handles := if lock_free then [] else relay_handles m;
     connections_total := connections_total m; relays_active := relays_active m; dropped := true |}.

Definition listener_in (t : ListenerTask) (i : nat) (m : PortForwardManager) : Prop := task <$> listeners m !! i = Some t.
Definition relay_in (t : RelayTask) (k : nat) (m : PortForwardManager) : Prop := r_task <$> relays m !! k = Some t.
Definition live (t : RelayTask) : bool := match t with Connecting | Copying => true | _ => false end.

Inductive pf_step : PortForwardManager -> PortForwardManager -> Prop :=
| step_accept i m : listener_in Accepting i m -> l_abort <$> listeners m !! i = Some false -> pf_step m (accept i m)
| step_hand_over i k m : listener_in (HandingOver k) i m -> pf_step m (hand_over i k m)
| step_listener_aborted i m : l_abort <$> listeners m !! i = Some true -> pf_step m (end_listener i m)
| step_connected k m : relay_in Connecting k m -> pf_step m (relay_to k Copying 0 m)
| step_refused k m : relay_in Connecting k m -> pf_step m (relay_to k RelayDone (-1) m)
| step_copied k m : relay_in Copying k m -> pf_step m (relay_to k RelayDone (-1) m)
| step_relay_aborted k t m : relay_in t k m -> live t = true -> r_abort <$> relays m !! k = Some true -> pf_step m (relay_to k RelayAborted 0 m)
| step_drop lock_free m : dropped m = false -> pf_step m (drop_manager lock_free m).

Inductive pf_reach (m0 : PortForwardManager) : PortForwardManager -> Prop :=
| reach_here : pf_reach m0 m0
| reach_step m m' : pf_reach m0 m -> pf_step m m' -> pf_reach m0 m'.

(** ** Lemmas: counting *)

Definition count {A} (p : A -> bool) (l : list A) : Z := zlen (List.filter p l).
Definition unfinished (r : Relay) : bool := match r_task r with RelayDone => false | _ => true end.
Definition handing_over (l : Listener) : bool := match task l with HandingOver _ => true | _ => false end.
Definition one (b : bool) : Z := if b then 1 else 0.

Lemma count_cons {A} (p : A -> bool) x l : count p (x :: l) = one (p x) + count p l.
Proof. unfold count, zlen, one. simpl. destruct (p x); simpl; lia. Qed.

Lemma count_snoc {A} (p : A -> bool) l x : count p (l ++ [x]) = count p l + one (p x).
Proof. induction l as [|y l IH]; [cbn [app]; rewrite count_cons; lia|]. cbn [app]. rewrite !count_cons, IH. lia. Qed.

Lemma count_alter {A} (p : A -> bool) f k l x : l !! k = Some x -> count p (alter f k l) = count p l - one (p x) + one (p (f x)).
Proof.
  revert k. induction l as [|y l IH]; intros [|k] H; simplify_eq/=; cbn [alter list_alter]; rewrite !count_cons; [lia|].
  rewrite (IH k H). lia.
Qed.

Lemma count_le {A} (p : A -> bool) l : 0 <= count p l <= zlen l.
Proof. unfold count, zlen. pose proof (filter_length_le p l). lia. Qed.

Lemma count_fmap {A} (p : A -> bool) f l : (forall x, p (f x) = p x) -> count p (f <$> l) = count p l.
Proof. intros H. induction l as [|x l IH]; [done|]. rewrite fmap_cons, !count_cons, H, IH. done. Qed.

Lemma count_imap {A} (p : A -> bool) f l : (forall k x, p (f k x) = p x) -> count p (imap f l) = count p l.
Proof.
  revert f. induction l as [|x l IH]; intros f H; [done|]. rewrite imap_cons, !count_cons, H. f_equal. apply IH. intros. apply H.
Qed.

Lemma zlen_alter {A} f k (l : list A) : zlen (alter f k l) = zlen l.
Proof. unfold zlen. by rewrite length_alter. Qed.

Lemma fmap_lookup_inv {A B} (f : A -> B) (o : option A) b : f <$> o = Some b -> exists a, o = Some a /\ f a = b.
Proof. destruct o; simpl; [|done]. intros [= <-]. eauto. Qed.

(** What the counters and the handles account for. *)
Record pf_ok (m : PortForwardManager) : Prop := {
  ok_total : connections_total m = zlen (relays m);
  ok_active : relays_active m = count unfinished (relays m);
  ok_handles : dropped m = false -> zlen (relay_handles m) + count handing_over (listeners m) = zlen (relays m);
  ok_aborts : dropped m = false -> Forall (fun l => l_abort l = false) (listeners m) /\ Forall (fun r => r_abort r = false) (relays m);
}.

Lemma Forall_alter_same {A} (P : A -> Prop) f k l : (forall x, P x -> P (f x)) -> Forall P l -> Forall P (alter f k l).
Proof. intros Hf Hl. apply Forall_alter; [done|]. intros x _. apply Hf. Qed.

Lemma relay_to_ok k t n m r : relays m !! k = Some r -> one (unfinished r) + n = one (unfinished (set_relay t r)) ->
  pf_ok m -> pf_ok (relay_to k t n m).
Proof.
  intros Hr Hn [T A H B]. constructor; cbn [relay_to connections_total relays_active relays listeners relay_handles dropped].
  - by rewrite zlen_alter.
  - rewrite (count_alter _ _ _ _ r Hr). lia.
  - by rewrite zlen_alter.
  - intros Hd. destruct (B Hd). split; [done|]. by apply Forall_alter_same.
Qed.

Lemma listener_step_ok m i l t handles : listeners m !! i = Some l -> zlen handles + one (handing_over (set_task t l)) =
  zlen (relay_handles m) + one (handing_over l) -> pf_ok m ->
  pf_ok {| listeners := alter (set_task t) i (listeners m); relays := relays m; relay_handles := handles;
           connections_total := connections_total m; relays_active := relays_active m; dropped := dropped m |}.
Proof.
  intros Hl Hn [T A H B]. constructor; cbn [connections_total relays_active relays listeners relay_handles dropped]; try done.
  - intros Hd. rewrite (count_alter _ _ _ _ l Hl), <- (H Hd). lia.
  - intros Hd. destruct (B Hd). split; [|done]. by apply Forall_alter_same.
Qed.

Lemma accept_ok i m l : listeners m !! i = Some l -> task l = Accepting -> pf_ok m -> pf_ok (accept i m).
Proof.
  intros Hl Ht [T A H B]. unfold accept. rewrite Hl.
  assert (forall x, zlen (relays m ++ [x]) = zlen (relays m) + 1) as L by (intros x; unfold zlen; rewrite length_app; simpl; lia).
  constructor; cbn [connections_total relays_active relays listeners relay_handles dropped].
  - rewrite L. lia.
  - rewrite count_snoc. cbn. lia.
  - intros Hd. rewrite (count_alter _ _ _ _ l Hl), L, <- (H Hd). unfold handing_over at 2 3. rewrite Ht. cbn. lia.
  - intros Hd. destruct (B Hd). split; [by apply Forall_alter_same|]. apply Forall_app. auto.
Qed.

Lemma drop_ok free m : pf_ok m -> pf_ok (drop_manager free m).
Proof.
  intros [T A H B]. constructor; cbn [drop_manager connections_total relays_active relays listeners relay_handles dropped]; try done.
  - destruct free; [|done]. unfold zlen. by rewrite length_imap.
  - destruct free; [|done]. rewrite count_imap; [done|]. intros k r. by destruct (bool_decide _).
Qed.

Lemma pf_step_ok m m' : pf_step m m' -> pf_ok m -> pf_ok m'.
Proof.
  destruct 1 as [i m H1 H2|i k m H1|i m H1|k m H1|k m H1|k m H1|k t m H1 H2 H3|free m H1]; intros Hok.
  - apply fmap_lookup_inv in H1 as (l & Hl & Ht). by eapply accept_ok.
  - apply fmap_lookup_inv in H1 as (l & Hl & Ht). eapply listener_step_ok; [exact Hl| |done].
    unfold handing_over at 2, zlen. rewrite Ht, length_app. cbn. lia.
  - apply fmap_lookup_inv in H1 as (l & Hl & Ht). destruct (dropped m) eqn:Hd; [|].
    + destruct Hok as [T A H B]. constructor; cbn; try done; rewrite Hd; done.
    + destruct (ok_aborts m Hok Hd) as [HF _]. rewrite Forall_lookup in HF. by rewrite (HF i l Hl) in Ht.
  - apply fmap_lookup_inv in H1 as (r & Hr & Ht). eapply relay_to_ok; [exact Hr| |done]. unfold unfinished at 1. by rewrite Ht.
  - apply fmap_lookup_inv in H1 as (r & Hr & Ht). eapply relay_to_ok; [exact Hr| |done]. unfold unfinished at 1. by rewrite Ht.
  - apply fmap_lookup_inv in H1 as (r & Hr & Ht). eapply relay_to_ok; [exact Hr| |done]. unfold unfinished at 1. by rewrite Ht.
  - apply fmap_lookup_inv in H1 as (r & Hr & Ht). eapply relay_to_ok; [exact Hr| |done]. unfold unfinished at 1. rewrite Ht. by destruct t.
  - by apply drop_ok.
Qed.

Lemma start_ok binds rules : pf_ok (start binds rules).
Proof.
  constructor; cbn; try done.
  - intros _. unfold zlen at 1. simpl. induction (List.filter binds rules); [done|]. rewrite fmap_cons, count_cons. cbn. done.
  - intros _. split; [|constructor]. apply Forall_fmap, Forall_true. done.
Qed.

Lemma pf_reach_ok m m' : pf_reach m m' -> pf_ok m -> pf_ok m'.
Proof. induction 1; [done|]. intros. eapply pf_step_ok; eauto. Qed.

(** ** Properties *)

(** The counter of connections counts the relays ever spawned, and the one of
    active relays those that did not end by themselves: a relay that was aborted
    stays counted for ever.  Until the manager is dropped the handle of every relay
    is kept, ended or not, up to one in the hands of each listener. *)
Theorem relay_accounting binds rules m : pf_reach (start binds rules) m ->
  connections_total m = zlen (relays m) /\
  relays_active m = count (fun r => live (r_task r)) (relays m) + count (fun r => bool_decide (r_task r = RelayAborted)) (relays m) /\
  (dropped m = false -> zlen (relays m) - zlen (listeners m) <= zlen (relay_handles m) <= zlen (relays m)).
Proof.
  intros H. apply pf_reach_ok in H as [T A HH _]; [|apply start_ok]. split; [done|]. split.
  - rewrite A. clear. induction (relays m) as [|r l IH]; [done|]. rewrite !count_cons, IH.
    assert (one (unfinished r) = one (live (r_task r)) + one (bool_decide (r_task r = RelayAborted))) as -> by (unfold unfinished; by destruct (r_task r)).
    lia.
  - intros Hd. specialize (HH Hd). pose proof (count_le handing_over (listeners m)). lia.
Qed.

Lemma lookup_alter_relay t j k (l : list Relay) r : l !! k = Some r ->
  exists r', alter (set_relay t) j l !! k = Some r' /\ r_abort r' = r_abort r /\ (r_task r' = if bool_decide (j = k) then t else r_task r).
Proof.
  intros H. case_bool_decide as E.
  - subst j. rewrite list_lookup_alter_eq, H. by eexists.
  - rewrite list_lookup_alter_ne by done. by eexists.
Qed.

(** After the drop nothing aborts a relay that was not aborted then. *)
Lemma spared_step k m m' r : pf_step m m' -> dropped m = true -> relays m !! k = Some r -> r_abort r = false -> r_task r <> RelayAborted ->
  dropped m' = true /\ exists r', relays m' !! k = Some r' /\ r_abort r' = false /\ r_task r' <> RelayAborted.
Proof.
  intros Hs Hd Hr Ha Ht. destruct Hs as [i m H1 H2|i j m H1|i m H1|j m H1|j m H1|j m H1|j t m H1 H2 H3|free m H1]; try by rewrite H1 in Hd.
  - apply fmap_lookup_inv in H1 as (l & Hl & _). unfold accept. rewrite Hl. split; [done|]. exists r. cbn. by rewrite (lookup_app_l_Some _ _ _ _ Hr).
  - split; [done|]. by exists r.
  - split; [done|]. by exists r.
  - split; [done|]. destruct (lookup_alter_relay Copying j k (relays m) r Hr) as (r' & Hr' & A' & T'). exists r'. rewrite A', T'. by case_bool_decide.
  - split; [done|]. destruct (lookup_alter_relay RelayDone j k (relays m) r Hr) as (r' & Hr' & A' & T'). exists r'. rewrite A', T'. by case_bool_decide.
  - split; [done|]. destruct (lookup_alter_relay RelayDone j k (relays m) r Hr) as (r' & Hr' & A' & T'). exists r'. rewrite A', T'. by case_bool_decide.
  - split; [done|]. destruct (lookup_alter_relay RelayAborted j k (relays m) r Hr) as (r' & Hr' & A' & T'). exists r'. rewrite A', T'.
    split; [done|]. split; [done|]. case_bool_decide as E; [|done]. subst j. rewrite Hr in H3. cbn in H3. congruence.
Qed.

(** The relay spawned when the manager is dropped is lost: between its accept and
    the handing over of its handle, and whenever the lock is not free, a drop does
    not abort it, and nothing aborts it later. *)
Theorem relay_survives_drop m k r free : dropped m = false -> relays m !! k = Some r -> r_abort r = false -> r_task r <> RelayAborted ->
  free = false \/ k ∉ relay_handles m ->
  forall m', pf_reach (drop_manager free m) m' ->
    exists r', relays m' !! k = Some r' /\ r_abort r' = false /\ r_task r' <> RelayAborted.
Proof.
  intros Hd Hr Ha Ht Hk m' H.
  assert (dropped m' = true /\ exists r', relays m' !! k = Some r' /\ r_abort r' = false /\ r_task r' <> RelayAborted) as [_ ?]; [|done].
  induction H as [|m1 m2 H1 [Hd1 (r1 & E1 & A1 & T1)] H2].
  - split; [done|]. exists r. cbn. split; [|done]. destruct Hk as [->|Hk]; [done|]. destruct free; [|done].
    rewrite list_lookup_imap, Hr. cbn. by rewrite bool_decide_eq_false_2.
  - by eapply spared_step.
Qed.

(** ** Witnesses *)

Definition ssh_rule : PortForward := {| host_port := 2222; guest_port := 22 |}.
Definition web_rule : PortForward := {| host_port := 80; guest_port := 80 |}.

Definition started : PortForwardManager := start (fun p => host_port p =? 2222) [ssh_rule; web_rule].
Definition accepted : PortForwardManager := accept 0 started.
Definition handed : PortForwardManager := hand_over 0 0 accepted.
(** One relay was copying when the manager was dropped. *)
Definition aborted : PortForwardManager := relay_to 0 RelayAborted 0 (drop_manager true (relay_to 0 Copying 0 handed)).

Lemma accepted_reach : pf_reach started accepted.
Proof. eapply reach_step; [constructor|]. by apply step_accept. Qed.

Lemma aborted_reach : pf_reach started aborted.
Proof.
  eapply reach_step; [|by apply (step_relay_aborted 0 Copying)]. eapply reach_step; [|by apply step_drop].
  eapply reach_step; [|by apply step_connected]. eapply reach_step; [exact accepted_reach|]. by apply step_hand_over.
Qed.

Lemma relay_accounting_witness : relays_active aborted = 1 /\ connections_total aborted = 1 /\ length (listeners aborted) = 1%nat.
Proof.
  destruct (relay_accounting _ _ aborted aborted_reach) as (H1 & H2 & _). split; [exact H2|]. split; [exact H1|reflexivity].
Defined.

Lemma relay_survives_drop_witness : exists r, relays (relay_to 0 Copying 0 (drop_manager true accepted)) !! 0%nat = Some r /\
  r_abort r = false /\ r_task r <> RelayAborted.
Proof.
  apply (relay_survives_drop accepted 0 {| served_port := 2222; r_task := Connecting; r_abort := false |} true);
    [done|done|done|done|right; set_solver|].
  eapply reach_step; [constructor|]. by apply step_connected.
Defined.
