(* ===== verification/MachineTask.v ===== *)
(** * What a machine's task is given

    [hitz-daemon/src/vm_manager.rs], the part of [start_vm] between the table and
    [boot_and_run]: the configuration booted, the channels of
    [hitz-vmm/src/vsock_io.rs] to the guest's agent with their two ends, and
    [start_port_forwarding].  Channels are lists in a store, an end is the place of
    its channel there.  [Ipv4Addr::from_str] is Rust's. *)

From Stdlib Require Import String Ascii.
From stdpp Require Import list strings.
From S2P Require Import Prelude Hal Ethernet Config Memory Queue Bus Transport Vsock Cpio VmSetup StateStore VmManager PortForward.

Local Open Scope string_scope.
Local Open Scope Z_scope.

(** ** Channels *)

#[local] Notation Channels := (list (list VsockPacket)).
Record Receiver := { received_from : nat }.
Record Sender := { sent_to : nat }.

(** [crossbeam_channel::unbounded], [send] and [try_recv], both ends alive. *)
Definition unbounded (h : Channels) : Sender * Receiver * Channels :=
  ({| sent_to := length h |}, {| received_from := length h |}, (h ++ [[]])%list).

Definition send (tx : Sender) (p : VsockPacket) (h : Channels) : Channels := alter (fun q => (q ++ [p])%list) (sent_to tx) h.

Definition try_recv (rx : Receiver) (h : Channels) : option VsockPacket * Channels :=
  match h !! received_from rx with
  | Some (p :: q) => (Some p, <[received_from rx := q]> h)
  | _ => (None, h)
  end.

(** The host's side, and what the device is given. *)
Record VsockIoHandle := { tx_rx : Receiver; rx_tx : Sender }.
Record BootExtras := { vsock_channels : option (Receiver * Sender) }.

Definition new_pair (h : Channels) : VsockIoHandle * Receiver * Sender * Channels :=
  let '(tx_sender, tx_rx, h) := unbounded h in
  let '(rx_tx, rx_receiver, h) := unbounded h in
  ({| tx_rx := tx_rx; rx_tx := rx_tx |}, rx_receiver, tx_sender, h).

Definition BootExtras_none : BootExtras := {| vsock_channels := None |}.

(** ** Addresses *)

(** [Ipv4Addr::from_str]: four decimal octets, without sign or leading zero. *)
Definition ipv4_octet (s : string) : option Z :=
  match s with
  | "" => None
  | String "0" (String _ _) => None
  | _ => if (3 <? String.length s)%nat then None
         else match digits_loop 8 10 0 s with Ok b => Some b | Err _ => None end
  end.

Definition ipv4_from_str (s : string) : option (list Z) :=
  if (15 <? String.length s)%nat then None
  else ip ← mapM ipv4_octet (split_on "." s); if (length ip =? 4)%nat then Some ip else None.

Section Task.
(** Which host ports bind. *)
Variable binds : PortForward -> bool.

(** The address forwarded to, and the forwarders. *)
Definition start_port_forwarding (boot_config : VmConfig) : option (list Z * PortForwardManager) :=
  net ← net boot_config;
  match ports boot_config with
  | [] => None
  | rules =>
      ip ← ipv4_from_str (splitn2 "/" (guest_ip net)).1;
      Some (ip, start binds rules)
  end.

(** The host's ends, for the metrics task, and the device's. *)
Definition make_extras (boot_config : VmConfig) (h : Channels) : option VsockIoHandle * BootExtras * Channels :=
  match guest_agent boot_config with
  | AgentAuto | AgentCustom _ =>
      let '(handle, rx_receiver, tx_sender, h) := new_pair h in
      (Some handle, {| vsock_channels := Some (rx_receiver, tx_sender) |}, h)
  | AgentDisabled => (None, BootExtras_none, h)
  end.

Variables (AGENT_BYTES : list Z) (fs_read : string -> option (list Z)) (fs_write : string -> list Z -> bool)
          (temp_file : string -> string) (overflow_checks : bool).

Record MachineTask := {
  boot_config : VmConfig;
  metrics : option VsockIoHandle;
  extras : BootExtras;
  port_fwd : option (list Z * PortForwardManager);
}.

(** [None] is a panic while the agent's archive is built. *)
Definition start_machine_task (config : VmConfig) (id : string) (h : Channels) : option (MachineTask * Channels) :=
  boot_config ← inject_guest_agent AGENT_BYTES fs_read fs_write temp_file overflow_checks config id;
  let '(handle, extras, h) := make_extras boot_config h in
  Some ({| boot_config := boot_config; metrics := handle; extras := extras;
           port_fwd := start_port_forwarding boot_config |}, h).

(** Machines started one after the other. *)
Fixpoint start_machine_tasks (l : list (string * VmConfig)) (h : Channels) : option (list MachineTask * Channels) :=
  match l with
  | [] => Some ([], h)
  | (id, c) :: l' =>
      '(t, h) ← start_machine_task c id h;
      '(ts, h) ← start_machine_tasks l' h;
      Some (t :: ts, h)
  end.
End Task.

(** ** Specification: traffic *)

Inductive Origin := FromGuest | FromHost.
#[export] Instance Origin_eq_dec : EqDecision Origin.
Proof. solve_decision. Defined.

(** The two ends of the channel a machine's packets of one origin go through. *)
Definition sender (o : Origin) (t : MachineTask) : option Sender :=
  match o with FromGuest => snd <$> vsock_channels (extras t) | FromHost => rx_tx <$> metrics t end.
Definition receiver (o : Origin) (t : MachineTask) : option Receiver :=
  match o with FromGuest => tx_rx <$> metrics t | FromHost => fst <$> vsock_channels (extras t) end.

(** What is put into and taken out of the channels of machines, by place in their
    list; the log is of what was taken. *)
Definition Parcel : Type := nat * Origin * VsockPacket.
Inductive Transfer := Sent (x : Parcel) | Received (i : nat) (o : Origin).

Definition transfer (ts : list MachineTask) (s : Channels * list Parcel) (e : Transfer) : Channels * list Parcel :=
  let '(h, log) := s in
  match e with
  | Sent (i, o, p) => (match ts !! i ≫= sender o with Some tx => send tx p h | None => h end, log)
  | Received i o =>
      match ts !! i ≫= receiver o with
      | Some rx => let '(r, h) := try_recv rx h in (h, (log ++ match r with Some p => [(i, o, p)] | None => [] end)%list)
      | None => (h, log)
      end
  end.

Definition traffic (ts : list MachineTask) (l : list Transfer) (s : Channels * list Parcel) : Channels * list Parcel :=
  foldl (transfer ts) s l.

Definition of_channel (i : nat) (o : Origin) (l : list Parcel) : list VsockPacket :=
  omap (fun '(j, o', p) => if bool_decide (j = i /\ o' = o) then Some p else None) l.
Definition sends (l : list Transfer) : list Parcel := omap (fun e => match e with Sent x => Some x | Received _ _ => None end) l.

(** ** Lemmas: addresses *)

Lemma join_split c s : join c (split_on c s) = s.
Proof.
  induction s as [|a s IH]; [done|]. cbn [split_on]. destruct (Ascii.eqb a c) eqn:E.
  - apply Ascii.eqb_eq in E as ->. destruct (split_on c s) as [|x l] eqn:Es; [by destruct s; cbn in Es; repeat case_match|].
    change (join c ("" :: x :: l)) with ("" ++ String c (join c (x :: l)))%string. by rewrite IH.
  - destruct (split_on c s) as [|x l] eqn:Es; [by rewrite <- IH|]. rewrite <- IH. by destruct l.
Qed.

Lemma dec_octet_fmt b : u8 b -> fmt_dec b = dec_octet b.
Proof. intros H. apply String.eqb_eq. revert b H. apply u8_forall. vm_compute. reflexivity. Qed.

Lemma dotted_octets ip : bytes_ok ip -> dotted ip = join "." (dec_octet <$> ip).
Proof. intros H. unfold dotted. f_equal. apply Forall_fmap_ext_1. eapply Forall_impl; [exact H|]. apply dec_octet_fmt. Qed.

Lemma dec_octet_strict b : u8 b -> ipv4_octet (dec_octet b) = Some b.
Proof.
  intros H. enough (bool_decide (ipv4_octet (dec_octet b) = Some b) = true) by by case_bool_decide.
  revert b H. apply u8_forall. vm_compute. reflexivity.
Qed.

(** A digit is one of ten characters, so that the octets are a finite check. *)
Definition ten_digits : list ascii := dec_char <$> (Z.of_nat <$> seq 0 10).

Lemma to_digit_ten a d : to_digit 10 a = Some d -> In a ten_digits.
Proof.
  intros H. enough (existsb (Ascii.eqb a) ten_digits = true) as (x & Hx & ->%Ascii.eqb_eq)%existsb_exists by done.
  revert H. by destruct a as [[][][][][][][][]].
Qed.

Lemma digits_loop_ten w acc s v : digits_loop w 10 acc s = Ok v -> Forall (fun a => In a ten_digits) (list_ascii_of_string s).
Proof.
  revert acc. induction s as [|a s IH]; intros acc; [constructor|]. cbn [digits_loop list_ascii_of_string].
  destruct (to_digit 10 a) as [d|] eqn:Ed; [|done]. repeat (case_match; [|done]). intros Hv.
  constructor; [by eapply to_digit_ten|by eapply IH].
Qed.

(** What parses as an octet is how the octet is printed. *)
Definition strict_ok (s : string) : bool :=
  match ipv4_octet s with Some b => (0 <=? b) && (b <? 256) && String.eqb s (dec_octet b) | None => true end.

Lemma forallb_ten p : forallb p ten_digits = true -> forall a, In a ten_digits -> p a = true.
Proof. intros H a Ha. rewrite forallb_forall in H. by apply H. Qed.

Lemma strict_one a : In a ten_digits -> strict_ok (String a "") = true.
Proof. apply (forallb_ten (fun a => strict_ok (String a ""))). vm_compute. reflexivity. Qed.

Lemma strict_two a : In a ten_digits -> forall b, In b ten_digits -> strict_ok (String a (String b "")) = true.
Proof.
  intros Ha. apply forallb_ten. revert a Ha. apply (forallb_ten (fun a => forallb (fun b => strict_ok (String a (String b ""))) ten_digits)).
  vm_compute. reflexivity.
Qed.

Lemma strict_three a b : In a ten_digits -> In b ten_digits -> forall c, In c ten_digits -> strict_ok (String a (String b (String c ""))) = true.
Proof.
  intros Ha Hb. apply forallb_ten. revert b Hb. apply forallb_ten. revert a Ha.
  apply (forallb_ten (fun a => forallb (fun b => forallb (fun c => strict_ok (String a (String b (String c "")))) ten_digits) ten_digits)).
  vm_compute. reflexivity.
Qed.

Lemma ipv4_octet_inv s b : ipv4_octet s = Some b -> u8 b /\ s = dec_octet b.
Proof.
  intros H. assert (Hs : (String.length s <= 3)%nat /\ Forall (fun a => In a ten_digits) (list_ascii_of_string s) /\ s <> "").
  { unfold ipv4_octet in H. repeat case_match; simplify_eq; b2p; split_and!; try done; by eapply digits_loop_ten. }
  destruct Hs as (Hl & Hd & Hne). assert (Hok : strict_ok s = true).
  { destruct s as [|x [|y [|z [|? ?]]]]; [done| | | |cbn in Hl; lia]; repeat (apply Forall_cons_1 in Hd as [? Hd]).
    - by apply strict_one.
    - by apply strict_two.
    - by apply strict_three. }
  unfold strict_ok in Hok. rewrite H in Hok. apply andb_true_iff in Hok as [Hr ->%String.eqb_eq]. b2p. split; [unfold in_range; lia|done].
Qed.

Lemma strict_octets parts ip : mapM ipv4_octet parts = Some ip <-> bytes_ok ip /\ parts = dec_octet <$> ip.
Proof.
  rewrite mapM_Some. split.
  - induction 1 as [|s b parts ip H _ [Hip ->]]; [by split; [constructor|]|]. apply ipv4_octet_inv in H as [Hb ->]. split; [by constructor|done].
  - intros [Hip ->]. induction Hip as [|b ip Hb Hip IH]; constructor; [by apply dec_octet_strict|done].
Qed.

(** The addresses [from_str] reads are those in dotted form, as they are printed. *)
Lemma ipv4_from_str_spec s ip : ipv4_from_str s = Some ip <-> length ip = 4%nat /\ bytes_ok ip /\ s = dotted ip.
Proof.
  unfold ipv4_from_str. split.
  - case_on; [done|]. intros (ip' & Hm & Hl)%bind_Some. case_on; simplify_eq. b2p. apply strict_octets in Hm as [Hb Hp].
    split_and!; [done..|]. by rewrite dotted_octets, <- Hp, join_split.
  - intros (Hl & Hb & ->). rewrite dotted_octets by done.
    assert (Hok : Forall (fun s => contains "." s = false /\ (String.length s <= 3)%nat) (dec_octet <$> ip)).
    { apply Forall_fmap. eapply Forall_impl; [exact Hb|]. intros b Hu. cbn. by destruct (octet_ok_spec _ _ _ (dec_octet_ok b Hu)) as (_ & _ & ? & _ & ?). }
    apply Forall_and in Hok as [Hdot Hlen]. assert (Hne : dec_octet <$> ip <> []) by (by destruct ip).
    pose proof (length_join_le "." _ 3 Hne Hlen) as HL. rewrite length_fmap, Hl in HL.
    rewrite (proj2 (Nat.ltb_ge _ _)) by lia. rewrite split_join by done.
    rewrite (proj2 (strict_octets _ ip)) by done. cbn. by rewrite Hl.
Qed.

Lemma parse_cidr_octets s ip prefix : parse_cidr s = Ok (ip, prefix) ->
  octet_loop 4 0 (split_on "." (splitn2 "/" s).1) = Ok ip /\ length ip = 4%nat /\ bytes_ok ip.
Proof.
  unfold parse_cidr. case_match; [done|]. destruct (splitn2 _ _) as [head rest].
  intros (p & _ & (i & Hi & (pr & _ & Hf)%bind_Ok)%bind_Ok)%bind_Ok. destruct (32 <? pr); [done|]. injection Hf as <- <-.
  split; [done|]. by apply octet_loop_range in Hi.
Qed.

(** The two readers agree on what both read. *)
Lemma strict_agrees s ip ip' : octet_loop 4 0 (split_on "." s) = Ok ip -> ipv4_from_str s = Some ip' -> ip' = ip /\ s = dotted ip.
Proof.
  intros Hlax (Hl & Hb & ->)%ipv4_from_str_spec. enough (ip = ip') as -> by done. rewrite dotted_octets, split_join in Hlax by first
    [done|by destruct ip'|apply Forall_fmap; eapply Forall_impl; [exact Hb|]; intros b Hu;
     by destruct (octet_ok_spec _ _ _ (dec_octet_ok b Hu)) as (_ & _ & ? & _)].
  rewrite octet_loop_ok in Hlax by done. by injection Hlax.
Qed.

Lemma str_app_assoc a b c : ((a ++ b) ++ c)%string = (a ++ (b ++ c))%string.
Proof. induction a as [|x a IH]; [done|]. exact (f_equal (String x) IH). Qed.

(** ** Lemmas: tasks *)

Lemma inject_keeps agent rd wr tmp oc c id c' : inject_guest_agent agent rd wr tmp oc c id = Some c' ->
  net c' = net c /\ ports c' = ports c /\ guest_agent c' = guest_agent c.
Proof.
  unfold inject_guest_agent. destruct (resolve_agent_bytes _ _ _); [|by intros [= <-]].
  intros (o & _ & Hc)%bind_Some. by case_match; simplify_eq.
Qed.

(** The places of a task's channels. *)
Definition places_ok (lo hi : nat) (t : MachineTask) : Prop :=
  forall o, received_from <$> receiver o t = sent_to <$> sender o t /\
    forall tx, sender o t = Some tx -> (lo <= sent_to tx < hi)%nat /\
      forall o' tx', sender o' t = Some tx' -> sent_to tx' = sent_to tx -> o' = o.

Section Started.
Variables (binds : PortForward -> bool) (AGENT_BYTES : list Z) (fs_read : string -> option (list Z))
          (fs_write : string -> list Z -> bool) (temp_file : string -> string) (overflow_checks : bool).
Notation start1 := (start_machine_task binds AGENT_BYTES fs_read fs_write temp_file overflow_checks).
Notation start_all := (start_machine_tasks binds AGENT_BYTES fs_read fs_write temp_file overflow_checks).

Lemma started_places c id h t h' : start1 c id h = Some (t, h') ->
  places_ok (length h) (length h') t /\ exists n, h' = (h ++ replicate n [])%list.
Proof.
  unfold start_machine_task. intros (bc & _ & H)%bind_Some. unfold make_extras, new_pair, unbounded in H.
  destruct (guest_agent bc); simplify_eq; (split; [|first [exists 2%nat; by rewrite <- app_assoc|exists O; by rewrite app_nil_r]]);
    intros []; (split; [done|]); intros tx; cbn; intros Htx; simplify_eq; cbn; rewrite !length_app; cbn;
    (split; [lia|]); intros [] tx'; cbn; intros Htx'; simplify_eq; cbn; try done; rewrite ?length_app; cbn; lia.
Qed.

Lemma starteds_places l h ts h' : start_all l h = Some (ts, h') ->
  (exists n, h' = (h ++ replicate n [])%list) /\
  (forall i t, ts !! i = Some t -> places_ok (length h) (length h') t) /\
  (forall i j o o' t t' tx tx', ts !! i = Some t -> ts !! j = Some t' -> sender o t = Some tx -> sender o' t' = Some tx' ->
     sent_to tx' = sent_to tx -> j = i /\ o' = o).
Proof.
  revert h ts. induction l as [|[id c] l IH]; intros h ts; cbn [start_machine_tasks].
  - intros [= <- <-]. split_and!; [exists O; by rewrite app_nil_r|done..].
  - intros ([t h1] & Ht & ([ts1 h2] & Hts & [= <- <-])%bind_Some)%bind_Some.
    apply started_places in Ht as [Hp [n ->]]. apply IH in Hts as ([m ->] & Hps & Hd). rewrite !length_app in *.
    assert (Hlo : forall i t' o tx, ts1 !! i = Some t' -> sender o t' = Some tx -> (length h + length (replicate n (@nil VsockPacket)) <= sent_to tx)%nat).
    { intros i t' o tx Hi Htx. destruct (Hps i t' Hi o) as [_ Hr]. apply Hr in Htx as [? _]. lia. }
    split_and!.
    + exists (n + m)%nat. by rewrite replicate_add, app_assoc.
    + intros [|i] t'; cbn; [intros [= <-]|intros Hi]; intros o; [destruct (Hp o) as [He Hr]|destruct (Hps i t' Hi o) as [He Hr]];
        (split; [done|]); intros tx Htx; apply Hr in Htx as [? ?]; (split; [lia|done]).
    + intros [|i] [|j] o o' t1 t2 tx tx' Hi Hj Htx Htx' Hs; cbn in Hi, Hj; simplify_eq.
      * split; [done|]. by apply (proj2 (proj2 (Hp o) tx Htx) o' tx').
      * pose proof (Hlo _ _ _ _ Hj Htx'). destruct (proj2 (Hp o) tx Htx) as [? _]. lia.
      * pose proof (Hlo _ _ _ _ Hi Htx). destruct (proj2 (Hp o') tx' Htx') as [? _]. lia.
      * destruct (Hd i j o o' t1 t2 tx tx') as [-> ->]; done.
Qed.

(** One transfer, seen from one channel: what was taken and what is left. *)
Lemma transfer_channel l h ts h0 i o t tx e h1 log h2 log' q :
  start_all l h = Some (ts, h0) -> ts !! i = Some t -> sender o t = Some tx -> h1 !! sent_to tx = Some q ->
  transfer ts (h1, log) e = (h2, log') ->
  exists q', h2 !! sent_to tx = Some q' /\
    (of_channel i o log' ++ q' = of_channel i o log ++ q ++ of_channel i o (sends [e]))%list.
Proof.
  intros (_ & Hp & Hd)%starteds_places Ht Htx Hq. destruct e as [[[j o'] p]|j o']; cbn [transfer].
  - intros [= <- <-]. unfold of_channel at 3. cbn [sends omap list_omap]. case_bool_decide as Hji.
    + destruct Hji as [-> ->]. rewrite Ht. cbn [mbind option_bind]. rewrite Htx. exists (q ++ [p])%list. split; [|done].
      unfold send. by rewrite list_lookup_alter_eq, Hq.
    + exists q. rewrite app_nil_r. split; [|done]. destruct (ts !! j ≫= sender o') as [tx'|] eqn:Hj; [|done].
      apply bind_Some in Hj as (t' & Hj & Htx'). unfold send. rewrite list_lookup_alter_ne; [done|].
      intros E. apply Hji, (Hd i j o o' t t' tx tx'); done.
  - cbn [sends omap list_omap of_channel]. rewrite app_nil_r.
    destruct (ts !! j ≫= receiver o') as [rx|] eqn:Hj; [|intros [= <- <-]; by exists q].
    apply bind_Some in Hj as (t' & Hj & Hrx). destruct (Hp j t' Hj o') as [He _]. rewrite Hrx in He.
    destruct (sender o' t') as [tx'|] eqn:Htx'; [|done]. injection He as He. unfold try_recv. rewrite He.
    destruct (h1 !! sent_to tx') as [[|p q1]|] eqn:Eq; intros [= <- <-]; [exists q; by rewrite app_nil_r| |exists q; by rewrite app_nil_r].
    unfold of_channel at 1. rewrite omap_app. fold (of_channel i o log). cbn [omap list_omap]. case_bool_decide as Hji.
    + destruct Hji as [-> ->]. simplify_eq. exists q1. rewrite list_lookup_insert_eq by (by eapply lookup_lt_Some). split; [done|].
      by rewrite <- app_assoc.
    + exists q. rewrite app_nil_r, list_lookup_insert_ne; [done|].
      intros E. apply Hji, (Hd i j o o' t t' tx tx'); done.
Qed.

(** *** Channels *)

(** Machines started one after the other share no channel: whatever is put in and
    taken out on all sides, what the metrics task of a machine, or its device, has
    taken and what waits for it are the packets its guest, or the task, put in, in
    order and once each. *)
Theorem channels_private l h ts h0 transfers i o t rx h1 taken :
  start_all l h = Some (ts, h0) -> ts !! i = Some t -> receiver o t = Some rx ->
  traffic ts transfers (h0, []) = (h1, taken) ->
  exists waiting, h1 !! received_from rx = Some waiting /\ (of_channel i o taken ++ waiting)%list = of_channel i o (sends transfers).
Proof.
  intros Hs Ht Hrx. destruct (starteds_places _ _ _ _ Hs) as ([n E0] & Hp & _). destruct (Hp i t Ht o) as [He Hr].
  rewrite Hrx in He. destruct (sender o t) as [tx|] eqn:Htx; [|done]. injection He as He. destruct (Hr tx eq_refl) as [[Hlo Hhi] _].
  assert (Hq : h0 !! sent_to tx = Some []).
  { rewrite E0 in Hhi |- *. rewrite length_app, length_replicate in Hhi. rewrite lookup_app_r by lia. apply lookup_replicate_2. lia. }
  rewrite He. enough (Hg : forall q hh log, hh !! sent_to tx = Some q -> traffic ts transfers (hh, log) = (h1, taken) ->
    exists q', h1 !! sent_to tx = Some q' /\ (of_channel i o taken ++ q' = of_channel i o log ++ q ++ of_channel i o (sends transfers))%list)
    by exact (Hg [] h0 [] Hq).
  clear Hq. induction transfers as [|e transfers IH]; intros q hh log Hq; cbn [traffic foldl].
  - intros [= <- <-]. exists q. cbn. by rewrite app_nil_r.
  - destruct (transfer ts (hh, log) e) as [h2 log2] eqn:Ee. intros Hf.
    destruct (transfer_channel _ _ _ _ _ _ _ _ _ _ _ _ _ _ Hs Ht Htx Hq Ee) as (q2 & Hq2 & E2).
    destruct (IH q2 h2 log2 Hq2 Hf) as (q' & Hq' & E'). exists q'. split; [done|].
    rewrite E', app_assoc, E2. unfold sends, of_channel. change (e :: transfers) with ([e] ++ transfers)%list.
    by rewrite !omap_app, <- !app_assoc.
Qed.

(** *** Forwarders *)

(** C34: The kernel of a machine that is booted has on its command line the address its
    configuration gives; its ports are forwarded there exactly when the text before
    the slash is that address as it is printed, and not at all otherwise. *)
Theorem forwards_where_kernel_is config id h t h' n has_vsock text :
  start1 config id h = Some (t, h') -> net config = Some n -> kernel_cmdline (boot_config t) has_vsock = Ok text ->
  exists ip prefix pre post, parse_cidr (guest_ip n) = Ok (ip, prefix) /\
    text = (pre ++ " ip=" ++ dotted ip ++ "::" ++ post)%string /\
    port_fwd t = if bool_decide (ports config = [] \/ (splitn2 "/" (guest_ip n)).1 <> dotted ip) then None
                 else Some (ip, start binds (ports config)).
Proof.
  unfold start_machine_task. intros (bc & Hbc & H)%bind_Some Hn Hk. apply inject_keeps in Hbc as (En & Ep & _).
  destruct (make_extras bc h) as [[hd ex] h1]. injection H as <- <-. cbn [boot_config port_fwd] in *. unfold kernel_cmdline in Hk.
  rewrite En, Hn in Hk. apply bind_Ok in Hk as (na & (a & Ha & [= <-])%bind_Ok & [= <-]).
  unfold ip_arg in Ha. apply bind_Ok in Ha as ([ip prefix] & Hip%map_err_Ok & (hp & _ & [= <-])%bind_Ok).
  exists ip, prefix, (effective_cmdline bc ++ device_arg (VIRTIO_MMIO_BASE + VIRTIO_MMIO_SIZE) VIRTIO_IRQ_NET)%string. eexists.
  split; [done|]. split; [rewrite !str_app_assoc; reflexivity|].
  unfold start_port_forwarding. rewrite En, Hn, Ep. cbn [mbind option_bind].
  destruct (ports config) as [|r rules] eqn:Er; [rewrite bool_decide_true by (by left); done|].
  destruct (parse_cidr_octets _ _ _ Hip) as (Hlax & Hl & Hb). case_bool_decide as Hc.
  - destruct Hc as [?|Hne]; [done|]. destruct (ipv4_from_str _) as [ip'|] eqn:E; [|done].
    by destruct (strict_agrees _ _ _ Hlax E).
  - rewrite (proj2 (ipv4_from_str_spec _ ip)); [done|]. split_and!; [done..|]. destruct (decide ((splitn2 "/" (guest_ip n)).1 = dotted ip)); tauto.
Qed.
End Started.

(** An address written as the documentation writes it is forwarded to. *)
Theorem documented_address_forwards binds c n ip prefix :
  net c = Some n -> ports c <> [] -> length ip = 4%nat -> bytes_ok ip -> guest_ip n = format_cidr ip prefix ->
  start_port_forwarding binds c = Some (ip, start binds (ports c)).
Proof.
  intros Hn Hp Hl Hb Hg. unfold start_port_forwarding. rewrite Hn. cbn [mbind option_bind]. rewrite Hg.
  unfold format_cidr. rewrite splitn2_cons.
  - rewrite <- dotted_octets by done. rewrite (proj2 (ipv4_from_str_spec _ ip)) by done. by destruct (ports c).
  - apply contains_join; [done|]. apply Forall_fmap. eapply Forall_impl; [exact Hb|]. intros b Hu.
    by destruct (octet_ok_spec _ _ _ (dec_octet_ok b Hu)) as (_ & _ & _ & ? & _).
Qed.

(** ** Witnesses *)

(** A machine whose address is written [addr], with one port forwarded. *)
Definition web_guest (addr : string) (agent : GuestAgentMode) : VmConfig :=
  {| kernel_path := "vmlinux"; initramfs_path := None; disk_path := None; ram_mib := 64; cpus := 1; cmdline := None;
     net := Some {| net_mac := None; host_ip := "10.0.0.1/24"; guest_ip := addr; adapter_name := None |};
     ports := [{| host_port := 8080; guest_port := 80 |}]; Config.guest_cid := DEFAULT_GUEST_CID; guest_agent := agent |}.

Definition start_demo := start_machine_task (fun _ => true) [] (fun _ => None) (fun _ _ => true) id false.

(** The address parses and reaches the kernel in both
    cases; a leading zero only turns the forwarders off. *)
Lemma forwards_where_kernel_is_witness :
  (exists t h text, start_demo (web_guest "10.0.0.2/24" AgentAuto) "web" [] = Some (t, h) /\
     kernel_cmdline (boot_config t) true = Ok text /\ (exists m, port_fwd t = Some ([10; 0; 0; 2], m))) /\
  (exists t h text, start_demo (web_guest "010.0.0.2/24" AgentAuto) "web" [] = Some (t, h) /\
     kernel_cmdline (boot_config t) true = Ok text /\ port_fwd t = None).
Proof.
  split.
  - destruct (start_demo (web_guest "10.0.0.2/24" AgentAuto) "web" []) as [[t h]|] eqn:E; [|discriminate E].
    destruct (kernel_cmdline (boot_config t) true) as [text|] eqn:Ek; [|injection E as <- _; discriminate Ek].
    destruct (forwards_where_kernel_is (fun _ => true) [] (fun _ => None) (fun _ _ => true) id false _ "web" [] t h _ true text
      E eq_refl Ek) as (ip & prefix & pre & post & Hip & _ & Hf). injection Hip as <- <-.
    exists t, h, text. split; [reflexivity|]. split; [exact Ek|]. rewrite Hf. eexists. reflexivity.
  - destruct (start_demo (web_guest "010.0.0.2/24" AgentAuto) "web" []) as [[t h]|] eqn:E; [|discriminate E].
    destruct (kernel_cmdline (boot_config t) true) as [text|] eqn:Ek; [|injection E as <- _; discriminate Ek].
    destruct (forwards_where_kernel_is (fun _ => true) [] (fun _ => None) (fun _ _ => true) id false _ "web" [] t h _ true text
      E eq_refl Ek) as (ip & prefix & pre & post & Hip & _ & Hf). injection Hip as <- <-.
    exists t, h, text. split; [reflexivity|]. split; [exact Ek|]. rewrite Hf. reflexivity.
Defined.

Lemma documented_address_forwards_witness :
  start_port_forwarding (fun _ => true) (web_guest "10.0.0.2/24" AgentAuto) =
    Some ([10; 0; 0; 2], start (fun _ => true) [{| host_port := 8080; guest_port := 80 |}]).
Proof. refine (documented_address_forwards (fun _ => true) (web_guest "10.0.0.2/24" AgentAuto) _ [10; 0; 0; 2] 24 eq_refl _ eq_refl _ eq_refl); [done|decided]. Defined.

Definition two_guests : list (string * VmConfig) :=
  [("a"%string, web_guest "10.0.0.2/24" AgentAuto); ("b"%string, web_guest "10.0.0.3/24" (AgentCustom "agent"))].

Definition two_demo := start_machine_tasks (fun _ => true) [] (fun _ => None) (fun _ _ => true) id false two_guests [].

(** Two agents report at once; each is heard by its own task. *)
Lemma channels_private_witness :
  exists ts h0 h1 taken t rx waiting, two_demo = Some (ts, h0) /\ ts !! 1%nat = Some t /\ receiver FromGuest t = Some rx /\
    traffic ts [Sent (0%nat, FromGuest, (demo_hdr 1, [1])); Sent (1%nat, FromGuest, (demo_hdr 1, [2]));
                Received 1 FromGuest; Sent (1%nat, FromGuest, (demo_hdr 1, [3])); Received 0 FromHost] (h0, []) = (h1, taken) /\
    h1 !! received_from rx = Some waiting /\
    (of_channel 1 FromGuest taken ++ waiting)%list = [(demo_hdr 1, [2]); (demo_hdr 1, [3])].
Proof.
  destruct two_demo as [[ts h0]|] eqn:E; [|discriminate E]. destruct (ts !! 1%nat) as [t|] eqn:Et; [|injection E as <- _; discriminate Et].
  destruct (receiver FromGuest t) as [rx|] eqn:Er; [|injection E as <- _; injection Et as <-; discriminate Er].
  destruct (traffic ts [Sent (0%nat, FromGuest, (demo_hdr 1, [1])); Sent (1%nat, FromGuest, (demo_hdr 1, [2]));
                Received 1 FromGuest; Sent (1%nat, FromGuest, (demo_hdr 1, [3])); Received 0 FromHost] (h0, [])) as [h1 taken] eqn:Ef.
  destruct (channels_private (fun _ => true) [] (fun _ => None) (fun _ _ => true) id false two_guests [] ts h0 _ 1 FromGuest t rx h1 taken
    E Et Er Ef) as (waiting & Hw & Ho).
  exists ts, h0, h1, taken, t, rx, waiting. split_and!; [reflexivity|exact Et|exact Er|exact Ef|exact Hw|exact Ho].
Defined.
